(* ===== verification/_CoqProject ===== *)
-Q . S2P
Prelude.v
Errors.v
Monad.v
FixedPoint.v
FixedFacts.v
SharesTracker.v
Exp.v
InterestRatePerSecond.v
Polyline.v
AdaptiveCurve.v
Bytes.v
InterestRateCurve.v
PodOption.v
OracleRate.v
Pda.v
Oracle.v
GlobalConfig.v
LiquidatorWhitelist.v
MarketConfig.v
SupplyPosition.v
BorrowPosition.v
CollateralVault.v
SupplyVault.v
Liquidation.v
Market.v
MarketWrapper.v
PositionFacts.v
Creation.v
MarketProps.v
SupplyNet.v
Protocol.v
ProgramErrors.v
Accounts.v
OracleProgram.v
IxsUser.v
IxsAdmin.v
Events.v
Processor.v
ProcessorAdmin.v
Program.v
Borsh.v
InstructionCodec.v
EventCodec.v
IxBuilders.v
TxBuilder.v
TxFacts.v
Idl.v
IdlFacts.v
ProcessorFacts.v
ProgramFacts.v
Ledger.v
LedgerExample.v
LedgerProps.v
Entry.v
IdlPublish.v
EventCodecFacts.v
TokenFlow.v
SupplyFlow.v
Whitelist.v
Layout.v
RpcExt.v
ReadClient.v
ReadClientFacts.v
Liquidator.v
ClientExample.v
Upgrade.v
UpgradeFacts.v
Text.v
FullClient.v
FullClientFacts.v
PythPusher.v
PythPusherFacts.v
Metrics.v
DeployConfig.v
Deploy.v
DeployFacts.v
DeployVerified.v
Api.v
ApiFacts.v
Cli.v
