(* ===== verification/Prelude.v ===== *)
(** * Autara lending: a verification development

    Autara is a lending program for the Arch network.  A market pairs a supply token with a
    collateral token: lenders supply the first, borrowers deposit the second and borrow the
    first against it, liquidators repay debt of unhealthy positions for collateral with a
    bonus, the curator of the market sets its limits and can sweep collateral to sell it off
    the chain, and interest accrues along a configurable curve with a fee for the curator and
    the protocol.  Around the program there are clients that build its transactions from what
    they have read, a server, a liquidator, a publisher of prices and tools that deploy,
    upgrade and verify.

    ** Parts and files

    A file holds the definitions of a part of the source and, unless a file of facts follows
    it, the lemmas about them.

    The library [autara-lib/src], bottom up:
    - [Prelude], [Monad]: machine widths; [Result] with errors and panics; the state monad
      [ST S A] of methods on [&mut S], whose partial writes stay visible on errors.
    - [Errors]: [LendingError] of [error.rs].
    - [FixedPoint], [FixedFacts]: the fixed point types of [math/macros.rs],
      [ufixed_point.rs], [ifixed_point.rs] and [SafeMath].  [UFixedPoint] is 64.64 unsigned,
      [IFixedPoint] 80.48 signed; both are kept as bit patterns in [Z] with their range.
    - [SharesTracker]: [math/shares_tracker.rs], the pool of shares with a price that both
      supply and debt use.
    - [Exp], [InterestRatePerSecond]: [checked_exp] and compounding.
    - [Polyline], [AdaptiveCurve], [InterestRateCurve]: the curves of [interest_rate/] and the
      byte union that stores them ([Bytes] has the little-endian layout).
    - [PodOption], [OracleRate], [Pda], [Oracle]: prices with confidence, derived addresses,
      the Pyth and Chaos feeds and the checks on them ([oracle/]).
    - [GlobalConfig], [LiquidatorWhitelist], [MarketConfig], [SupplyPosition],
      [BorrowPosition], [CollateralVault], [SupplyVault]: the accounts of [state/], a record
      each with one definition per method.
    - [Liquidation], [Market], [MarketWrapper], [Creation]: [operation/liquidation.rs],
      [state/market.rs], [state/market_wrapper.rs] and the state of a new market, with a
      concrete market for the witnesses.  [PositionFacts] says what each successful operation
      does to positions and market.
    - [SupplyNet]: the claims of lenders and fees less the debts of borrowers, and how every
      operation of a market moves them.
    - [Layout]: the bytes of every account ([repr(C)] structs, [const_assert.rs]).
    The program [programs/autara-program/src] and [autara-program-lib/src/accounts]:
    - [ProgramErrors]: error kinds and their codes ([error.rs]).
    - [Accounts]: the typed account wrappers, as parsers over the account list, and the system
      program.
    - [Borsh.AccountCells]: the same wrappers with the borrows of the data explicit, [borsh.rs],
      [load_ref], [load_mut], [reload] and [token_amount].  A writer is alone, what it writes
      is what is read next, and on data nobody writes the conversions are those of [Accounts].
    - [IxsUser], [IxsAdmin]: a module per instruction of [ixs/] with its accounts, its
      [validate] and its [from_accounts].
    - [Events]: the events, the calls to other programs and the state [Ctx] of a handler.
    - [Processor], [ProcessorAdmin]: the handlers of [processor/].
    - [Program]: the dispatcher [autara_process_instruction] on a decoded instruction; its
      result lists the accounts it leaves written and the calls it made.
    - [Idl], [IdlFacts]: the accounts of the interface description ([processor/idl.rs]), on
      bytes, and the abstract account that they implement.
    - [Entry]: the entrypoint on bytes: it decodes, tells the two kinds of instructions apart
      and runs them.  Its runs keep the accounts of the protocol ([ledger]) and the accounts of
      interface descriptions ([described]) apart; that no account of the second kind is passed
      off as one of the first ([no_forgery]) and that none lies in its place ([no_collision])
      are conditions on the accounts of a call, since the program tells its accounts apart by
      owner and size only.
    - [OracleProgram]: the separate oracle program of [programs/autara-oracle/src/lib.rs].
    What crosses the wire:
    - [Borsh]: codecs, how [derive] composes them, and a crate that has the laws.
    - [InstructionCodec], [EventCodec], [EventCodecFacts]: the bytes of instructions
      ([ixs/types.rs]) and of events ([event.rs]), and the parser with which clients read
      events from a transaction.
    - [IxBuilders]: the builders of instructions ([autara-lib/src/ixs], [token.rs]).
    Clients ([autara-client/src]):
    - [TxBuilder], [TxFacts]: the transactions that a client builds ([client/tx_builder.rs]).
    - [RpcExt]: requests to a node ([rpc_ext.rs], [filter.rs], [token_mint.rs]).
    - [ReadClient], [ReadClientFacts]: the two caches of the state of the program
      ([client/read.rs], [single_thread_client.rs], [shared_autara_state.rs]).
    - [FullClient], [FullClientFacts]: signing, sending and reading the outcome
      ([client_with_signer.rs], [tx_broadcast.rs], [blockhash_cache.rs]).
    - [Liquidator]: [tmp-autara-liquidator/src], the router, the scan and a turn of the loop.
    - [Metrics]: [autara-lib/src/metrics.rs] and the gauges of [prometheus/].
    - [Api], [ApiFacts]: the server ([api/], [client_without_signer.rs]) with its streams, and
      the minter of its faucet ([test.rs]).
    - [Cli]: the command line ([bin/cli.rs]) and the start of the server
      ([bin/autara-server.rs]), which share a file of tokens.
    - [ClientExample]: a chain with a market, for the witnesses.
    Other tools:
    - [IdlPublish]: the tool that publishes the interface description ([idl_deploy.rs]) over a
      network that may fail.
    - [Upgrade], [UpgradeFacts]: writing the code of a program in pieces ([idl_deploy.rs],
      [autara-deploy/src/elf_upload.rs]).
    - [PythPusher], [PythPusherFacts]: [autara-pyth/src], which publishes prices.
    - [DeployConfig], [Deploy], [DeployFacts], [DeployVerified]: [autara-deploy/src], the
      configuration, the steps of a deployment and their verification.
    - [Text]: the operations on strings and decimal numbers that the tools use.
    Abstractions:
    - [Protocol]: the specification of a market: one market with a map of supply positions
      and a map of borrow positions, whose steps are the operations of [Market] in any order
      with any arguments and any valid rates.
    - [Ledger]: all accounts of the program on a chain, with the instructions as steps.
      [ProcessorFacts] and [ProgramFacts] decompose handlers and parsed accounts;
      [LedgerExample] is a concrete ledger.

    ** What the theorems show

    - [Entry], [LedgerProps], [TokenFlow], [SupplyFlow], [Whitelist] (whole program):
      every ledger that calls of the entrypoint can produce, without forged accounts,
      refines the protocol, market by market; every write has the signature of whom it belongs to, and fees leave a market only with
      that of their receiver; the booked collateral of a market with two different vaults is
      covered by the transfers into its vault, and the claims on its supply by those into the
      other one; the count of whitelisted liquidators is exact; the
      configuration stays valid and its changes are not retroactive.
    - [Protocol] (every reachable state of a market): totals are the sums over the
      positions; debt can be repaid in full and lenders can leave when nobody owes, as long as the
      values of debt and supply fit [u64].  These two are total: the operation succeeds, no fuel
      or case is left open.
    - [MarketProps] (each operation): limits on borrowing, withdrawing and lending, when and
      how much a liquidation takes, the lock of a sweep and its settlement, losses.
    - [SharesTracker], [Exp], [InterestRatePerSecond] and the curves: rounding is against the
      user and bounded, interest is at least simple interest, the curves are total and
      monotone where they claim to be, and stored curves are read back.
    - [Oracle], [OracleRate], [MarketConfig], [GlobalConfig], [Pda], [ProgramErrors]: a rate
      that loads is fresh, positive and from the right feed, loading never panics, limits
      stay consistent, the admin changes in two steps, seeds do not clash, error codes decode
      to their error.
    - [Layout]: any bytes are read as at most one account, and an account is read back.
    - [Entry], [EventCodecFacts], [TxFacts], [ReadClientFacts], [FullClientFacts], [ApiFacts],
      [Cli] (client and program): what is serialized is what runs; a request built from a
      reloaded cache is accepted with each account in its role; whoever sends it, with the
      signing client, through the server or from the command line, is told the events that the
      program logged or its error.
    - [ApiFacts], [Metrics], [Liquidator], [PythPusherFacts]: a connection has at most one
      stream and is never blocked; the gauges show the cache; the scan finds exactly the
      positions whose health test passes, and so all that the program would liquidate; the
      prices that markets load are those that were fetched.
    - [IdlFacts], [OracleProgram]: who may change an interface description or a feed, to whom a
      new or legacy feed is bound, and the specification that the first implements.
    - [IdlPublish], [UpgradeFacts], [DeployFacts], [DeployVerified], [Cli] (tools over
      networks that fail): publishing a description that the program can allocate can always
      be resumed; a program is executable only with its old or its whole new code; a
      deployment does only what its guards allow, and passes the checks of its verification
      that depend on it; a server starts with the tokens that the setup has made, under the
      authority of the setup.

    ** Parameters

    Code outside of the repository enters as classes and records, with its laws in classes of
    their own where a theorem needs them; every law has an instance, which the witnesses use.
    - Arithmetic: [FixedCrate] with [FixedLaws] ([FixedPoint]), the crate [fixed];
      [FixedFloats] ([Deploy]) and [FloatLib] ([Metrics]), conversions from and to doubles,
      powers of ten and [exp].
    - Codecs: [BorshCrate] with [BorshLaws] ([Borsh]); [OracleBuild] ([Oracle]), the
      decoder of Chaos feeds and whether the library is built with the feature [client], which
      reads legacy Pyth feeds too: clients are, the program ([program_build]) is not; [PubkeyText]
      ([DeployConfig]) and [Base58] with [Base58Laws] ([Api], [ApiFacts]); [ServerCrates] with
      [ServerLaws], [CliCrates] with [CliLaws] (messages and JSON); [ZlibCrate] ([IdlPublish]);
      [DebugText] ([FullClient]).
    - The chain: [PdaCrate] ([Pda]); [Chain], [AccountCodec], [SystemProgram] ([Accounts]);
      [SeedCrate] ([Idl]); [ProgramErrorCrate] ([ProgramErrors]); [Runtime] ([Events]), the
      answer of the runtime to a call, any function of the calls so far; [Memory]
      ([ProcessorAdmin]), what an account looks like after these calls; [RuntimeLaws]
      ([Ledger]); [Loader] ([Upgrade]); [AplToken] ([Deploy]).
    - Networks, files and services: [ArchRpc] ([RpcExt]), [ArchSdk] and [SdkNode]
      ([FullClient]), [Network] ([IdlPublish]), [UpNetwork] ([Upgrade]), [World] ([Deploy]),
      [ServerNode] ([Api]), [Host] ([Cli]), the web services and the node of [PythPusher], the
      swap pools of [Liquidator].  They answer in any way; where a theorem is about a node that
      runs the program, that is a hypothesis ([FullClientFacts.runs]).
    - [AutaraReadClient] ([TxBuilder]): what a client has read from the chain; the caches of
      [ReadClient] implement it.
    [fresh] says that the system program does not create an account that exists, [token_rule]
    that only its owner moves the tokens of an account.

    ** Choices

    Loops of the source run over lists or a fixed number of terms, so recursion is structural.
    Fuel is used where it is not: [IdlPublish.chunks] and [RpcExt.chunks] cut a list with its
    length as fuel ([IdlPublish.concat_chunks]); [Upgrade.poll] has [poll_fuel], and no run
    reports [OutOfFuel] ([UpgradeFacts.upgrades_are_safe]); [Text.trim_start_matches] has the
    length of the string; [Api.print_u64] has the twenty digits of a 64-bit number
    ([ApiFacts.parse_print_u64]).  Endless loops of services are modelled by their turns.

    [u64], [u32], [u16], [u8] and [i64] are [Z] with every check, wrap and narrowing written
    where the source has it; doubles are [spec_float]s of the standard library.  Overflow of a
    checked operation is an error value, an [unwrap] or an arithmetic overflow of the source a
    [Panic]; a panic or an error aborts the instruction, whose writes are then discarded.  A
    call to another program is recorded with its order; what a callback does is not interleaved
    with the handler that makes it.  The handler has made all its own writes by then and only a
    transfer follows, so a callback that comes back to the program counts as further steps
    of the ledger after the instruction.

    The ledger tells accounts apart by what they were created as.  The program tells them
    apart by size, and the buffers of the interface description can have any size
    ([IdlFacts.idl_buffer_passes_for_market]); the properties of the ledger are about the
    accounts that the other instructions made.  What a client is told of a transaction is
    taken to be a report of the calls that the program made.

    ** Not modelled

    Log messages and the wording of what is printed; derived JSON codecs and the transport,
    tracing and middleware of the server; the HTTP endpoints; the locking of shared maps and
    the tasks that repeat a modelled turn; the bytes of token accounts and mints; the smaller
    binaries, which parse arguments around modelled functions; examples and tests. *)
From stdpp Require Export base numbers list option.
From Stdlib Require Export ZArith Lia Bool.

#[global] Open Scope Z_scope.

(** ** Machine widths *)

Definition U8_MAX : Z := 2 ^ 8 - 1.
Definition U16_MAX : Z := 2 ^ 16 - 1.
Definition U32_MAX : Z := 2 ^ 32 - 1.
Definition U64_MAX : Z := 2 ^ 64 - 1.
Definition U128_MAX : Z := 2 ^ 128 - 1.
Definition I32_MIN : Z := - 2 ^ 31.
Definition I32_MAX : Z := 2 ^ 31 - 1.
Definition I64_MIN : Z := - 2 ^ 63.
Definition I64_MAX : Z := 2 ^ 63 - 1.
Definition I128_MIN : Z := - 2 ^ 127.
Definition I128_MAX : Z := 2 ^ 127 - 1.

Definition is_u8 (x : Z) : Prop := 0 <= x <= U8_MAX.
Definition is_u16 (x : Z) : Prop := 0 <= x <= U16_MAX.
Definition is_u32 (x : Z) : Prop := 0 <= x <= U32_MAX.
Definition is_u64 (x : Z) : Prop := 0 <= x <= U64_MAX.
Definition is_i64 (x : Z) : Prop := I64_MIN <= x <= I64_MAX.

(** [x as u64], [x as u32], [x as u8]: the low bits of [x]. *)
Definition as_u64 (x : Z) : Z := x mod 2 ^ 64.
Definition as_u32 (x : Z) : Z := x mod 2 ^ 32.
Definition as_u8 (x : Z) : Z := x mod 2 ^ 8.

(** [x as i64] of a two's complement value. *)
Definition as_i64 (x : Z) : Z :=
  let m := x mod 2 ^ 64 in if m <? 2 ^ 63 then m else m - 2 ^ 64.

(** [x as i8]. *)
Definition as_i8 (x : Z) : Z :=
  let m := x mod 2 ^ 8 in if m <? 2 ^ 7 then m else m - 2 ^ 8.

Definition in_range (lo hi x : Z) : bool := (lo <=? x) && (x <=? hi).

(** The value when it lies in the range, nothing otherwise: the shape of every
    checked operation on machine integers. *)
Definition check_range (lo hi x : Z) : option Z :=
  if in_range lo hi x then Some x else None.

(** [u64::saturating_add], [u32::saturating_add]. *)
Definition saturating_add (max a b : Z) : Z := Z.min max (a + b).

Create HintDb widths.
Create HintDb zdiv.

#[global] Hint Unfold U8_MAX U16_MAX U32_MAX U64_MAX U128_MAX I32_MIN I32_MAX
  I64_MIN I64_MAX I128_MIN I128_MAX is_u8 is_u16 is_u32 is_u64 is_i64 : widths.

(** Unfolds the named widths everywhere and calls [lia]. *)
Ltac widths_lia := repeat autounfold with widths in *; lia.

Lemma in_range_spec lo hi x : in_range lo hi x = true <-> lo <= x <= hi.
Proof. unfold in_range. rewrite andb_true_iff, !Z.leb_le. lia. Qed.

Lemma in_range_false lo hi x : in_range lo hi x = false <-> x < lo \/ hi < x.
Proof.
  rewrite <- not_true_iff_false, in_range_spec. lia.
Qed.

Lemma check_range_Some lo hi x y :
  check_range lo hi x = Some y <-> y = x /\ lo <= x <= hi.
Proof.
  unfold check_range. destruct (in_range lo hi x) eqn:E.
  - apply in_range_spec in E. split; [intros [= <-] | intros [-> _]]; auto.
  - apply in_range_false in E. split; [discriminate | lia].
Qed.

Lemma check_range_None lo hi x :
  check_range lo hi x = None <-> x < lo \/ hi < x.
Proof.
  unfold check_range. destruct (in_range lo hi x) eqn:E.
  - apply in_range_spec in E. split; [discriminate | lia].
  - apply in_range_false in E. split; auto.
Qed.

Lemma as_u64_small x : is_u64 x -> as_u64 x = x.
Proof. intros. unfold as_u64. apply Z.mod_small. widths_lia. Qed.

Lemma as_u64_range x : is_u64 (as_u64 x).
Proof. unfold as_u64. pose proof (Z.mod_pos_bound x (2 ^ 64)). widths_lia. Qed.

(** ** Floor division *)

(** Adds the two bounds of [n / d] to the context; [d] is shown positive by [lia]. *)
Ltac div_bounds n d :=
  let H1 := fresh "Hdiv" in let H2 := fresh "Hdiv" in
  assert (H1 : d * (n / d) <= n) by (apply Z.mul_div_le; lia);
  assert (H2 : n < d * (n / d) + d)
    by (pose proof (Z.mul_succ_div_gt n d ltac:(lia)); lia).

Lemma div_nonneg n d : 0 <= n -> 0 < d -> 0 <= n / d.
Proof. intros. apply Z.div_pos; lia. Qed.

Lemma div_le_mono n m d : 0 < d -> n <= m -> n / d <= m / d.
Proof. intros. apply Z.div_le_mono; lia. Qed.

Lemma div_le_upper n d q : 0 < d -> n <= d * q + (d - 1) -> n / d <= q.
Proof. intros. assert (n / d < q + 1); [apply Z.div_lt_upper_bound; lia | lia]. Qed.

Lemma div_ge_lower n d q : 0 < d -> d * q <= n -> q <= n / d.
Proof. intros. apply Z.div_le_lower_bound; lia. Qed.

Lemma div_unique_bounds n d q :
  0 < d -> d * q <= n -> n < d * q + d -> n / d = q.
Proof.
  intros. symmetry. apply (Z.div_unique n d q (n - d * q)); lia.
Qed.

#[global] Hint Resolve div_nonneg : zdiv.
