(* ===== verification/Errors.v ===== *)
(** * Errors of the lending library

    [autara-lib/src/error.rs]: the enumeration [LendingError] ([#[repr(u8)]] with
    [IntoPrimitive] and [TryFromPrimitive]).  The message and stack that
    [ErrorWithContext] collects are diagnostics and not modelled. *)
From S2P Require Import Prelude.

Inductive LendingError : Type :=
| MathOverflow
| AdditionOverflow
| SubtractionOverflow
| MultiplicationOverflow
| DivisionOverflow
| DivisionByZero
| CastOverflow
| MaxLtvReached
| MaxUtilisationRateReached
| InvalidMarketForPosition
| PositionIsHealthy
| MaxSupplyReached
| InvalidLtvConfig
| InvalidCurve
| InvalidExpArg
| InvalidMaxUtilisationRate
| InvalidLiquidationLtvShouldDecrease
| InvalidPythOracleAccount
| InvalidChaosOracleAccount
| InvalidOracleFeedId
| FailedToLoadAccount
| WithdrawalExceedsReserves
| WithdrawalExceedsDeposited
| RepayExceedsBorrowed
| OracleRateTooOld
| OracleRateRelativeConfidenceTooLow
| NegativeOracleRate
| OracleRateIsNull
| OracleConfidenceExceedsRate
| LiquidationDidNotMeetRequirements
| FeeTooHigh
| SharesOverflow
| InvalidNomination
| CantModifySharePriceIfZeroShares
| NegativeInterestRate
| CannotSocializeDebtForHealthyPosition
| UnsupportedMintDecimals
| InvalidOracleConfig
| CapitalSweepPending
| NoCapitalSweepPending
| CapitalSweepPositionInsolvent
| CapitalSweepDidNotMeetRequirements
| LiquidatorAlreadyWhitelisted
| LiquidatorNotWhitelisted
| InvalidOracleFeedAccount.

#[global] Instance LendingError_eq_dec : EqDecision LendingError.
Proof. solve_decision. Defined.

(** [u8::from(error)]: the discriminant. *)
Definition lending_error_code (e : LendingError) : Z :=
  match e with
  | MathOverflow => 0
  | AdditionOverflow => 1
  | SubtractionOverflow => 2
  | MultiplicationOverflow => 3
  | DivisionOverflow => 4
  | DivisionByZero => 5
  | CastOverflow => 6
  | MaxLtvReached => 7
  | MaxUtilisationRateReached => 8
  | InvalidMarketForPosition => 9
  | PositionIsHealthy => 10
  | MaxSupplyReached => 11
  | InvalidLtvConfig => 12
  | InvalidCurve => 13
  | InvalidExpArg => 14
  | InvalidMaxUtilisationRate => 15
  | InvalidLiquidationLtvShouldDecrease => 16
  | InvalidPythOracleAccount => 17
  | InvalidChaosOracleAccount => 18
  | InvalidOracleFeedId => 19
  | FailedToLoadAccount => 20
  | WithdrawalExceedsReserves => 21
  | WithdrawalExceedsDeposited => 22
  | RepayExceedsBorrowed => 23
  | OracleRateTooOld => 24
  | OracleRateRelativeConfidenceTooLow => 25
  | NegativeOracleRate => 26
  | OracleRateIsNull => 27
  | OracleConfidenceExceedsRate => 28
  | LiquidationDidNotMeetRequirements => 29
  | FeeTooHigh => 30
  | SharesOverflow => 31
  | InvalidNomination => 32
  | CantModifySharePriceIfZeroShares => 33
  | NegativeInterestRate => 34
  | CannotSocializeDebtForHealthyPosition => 35
  | UnsupportedMintDecimals => 36
  | InvalidOracleConfig => 37
  | CapitalSweepPending => 38
  | NoCapitalSweepPending => 39
  | CapitalSweepPositionInsolvent => 40
  | CapitalSweepDidNotMeetRequirements => 41
  | LiquidatorAlreadyWhitelisted => 42
  | LiquidatorNotWhitelisted => 43
  | InvalidOracleFeedAccount => 44
  end.

Definition all_lending_errors : list LendingError :=
  [ MathOverflow; AdditionOverflow; SubtractionOverflow;
    MultiplicationOverflow; DivisionOverflow; DivisionByZero;
    CastOverflow; MaxLtvReached; MaxUtilisationRateReached;
    InvalidMarketForPosition; PositionIsHealthy; MaxSupplyReached;
    InvalidLtvConfig; InvalidCurve; InvalidExpArg;
    InvalidMaxUtilisationRate; InvalidLiquidationLtvShouldDecrease; InvalidPythOracleAccount;
    InvalidChaosOracleAccount; InvalidOracleFeedId; FailedToLoadAccount;
    WithdrawalExceedsReserves; WithdrawalExceedsDeposited; RepayExceedsBorrowed;
    OracleRateTooOld; OracleRateRelativeConfidenceTooLow; NegativeOracleRate;
    OracleRateIsNull; OracleConfidenceExceedsRate; LiquidationDidNotMeetRequirements;
    FeeTooHigh; SharesOverflow; InvalidNomination;
    CantModifySharePriceIfZeroShares; NegativeInterestRate; CannotSocializeDebtForHealthyPosition;
    UnsupportedMintDecimals; InvalidOracleConfig; CapitalSweepPending;
    NoCapitalSweepPending; CapitalSweepPositionInsolvent; CapitalSweepDidNotMeetRequirements;
    LiquidatorAlreadyWhitelisted; LiquidatorNotWhitelisted; InvalidOracleFeedAccount ].

(** [LendingError::try_from(u8)]. *)
Definition lending_error_of_code (c : Z) : option LendingError :=
  if 0 <=? c then all_lending_errors !! Z.to_nat c else None.

Lemma lending_error_code_range e : 0 <= lending_error_code e < 45.
Proof. destruct e; simpl; lia. Qed.

Lemma lending_error_of_code_code e : lending_error_of_code (lending_error_code e) = Some e.
Proof. destruct e; reflexivity. Qed.

Lemma lending_error_code_inj e e' :
  lending_error_code e = lending_error_code e' -> e = e'.
Proof.
  intros H. apply (f_equal lending_error_of_code) in H.
  rewrite !lending_error_of_code_code in H. congruence.
Qed.
