(* ===== verification/Monad.v ===== *)
(** * Results, panics and state

    A Rust method [fn f(&mut self, ..) -> LendingResult<T>] is modelled by a function
    [f : .. -> ST Self T], that is [Self -> Res T * Self]: the value of [self] after the
    call is kept on every branch, the error branches included, because the code mutates
    fields before later checks fail.  [Res] has a third outcome, [Panic], for
    [expect], [unwrap], an index out of range or a division by zero. *)
From S2P Require Import Prelude.
From S2P Require Import Errors.

Inductive Result (E A : Type) : Type :=
| Ok (a : A)
| Err (e : E)
| Panic.
Arguments Ok {E A} a.
Arguments Err {E A} e.
Arguments Panic {E A}.

(** [LendingResult] *)
Notation Res := (Result LendingError).

#[global] Instance Result_eq_dec {E A} `{EqDecision E, EqDecision A} : EqDecision (Result E A).
Proof. solve_decision. Defined.

Definition res_bind {E A B} (r : Result E A) (k : A -> Result E B) : Result E B :=
  match r with Ok a => k a | Err e => Err e | Panic => Panic end.

Definition res_map {E A B} (f : A -> B) (r : Result E A) : Result E B :=
  res_bind r (fun a => Ok (f a)).

(** [r.map_err(|_| e)] *)
Definition map_err {E F A} (e : F) (r : Result E A) : Result F A :=
  match r with Ok a => Ok a | Err _ => Err e | Panic => Panic end.

(** [o.ok_or(e)] *)
Definition ok_or {E A} (e : E) (o : option A) : Result E A :=
  match o with Some a => Ok a | None => Err e end.

(** [r.expect(..)] *)
Definition expect {E A} (r : Result E A) : Result E A :=
  match r with Ok a => Ok a | _ => Panic end.

(** [o.unwrap()] and indexing: nothing there is a panic. *)
Definition or_panic {E A} (o : option A) : Result E A :=
  match o with Some a => Ok a | None => Panic end.

Definition is_ok {E A} (r : Result E A) : bool :=
  match r with Ok _ => true | _ => false end.

Declare Scope res_scope.
Delimit Scope res_scope with res.
Notation "'let?' x ':=' c 'in' k" := (res_bind c (fun x => k))
  (at level 10, x pattern, c at level 200, k at level 200) : res_scope.
#[global] Open Scope res_scope.

(** ** State *)

Definition STE (E S A : Type) : Type := S -> Result E A * S.
Notation ST := (STE LendingError).

Definition st_ret {E S A} (a : A) : STE E S A := fun s => (Ok a, s).

Definition st_bind {E S A B} (m : STE E S A) (k : A -> STE E S B) : STE E S B :=
  fun s => match m s with
           | (Ok a, s') => k a s'
           | (Err e, s') => (Err e, s')
           | (Panic, s') => (Panic, s')
           end.

Definition st_raise {E S A} (e : E) : STE E S A := fun s => (Err e, s).

(** A pure computation, [e?] in the source. *)
Definition st_lift {E S A} (r : Result E A) : STE E S A := fun s => (r, s).

Definition st_get {E S} : STE E S S := fun s => (Ok s, s).

Definition st_gets {E S A} (f : S -> A) : STE E S A := fun s => (Ok (f s), s).

Definition st_put {E S} (s : S) : STE E S () := fun _ => (Ok tt, s).

Definition st_modify {E S} (f : S -> S) : STE E S () := fun s => (Ok tt, f s).

(** [if b { return Err(e) }] *)
Definition st_guard {E S} (b : bool) (e : E) : STE E S () :=
  fun s => (if b then Err e else Ok tt, s).

(** A field (or a component of a tuple of borrowed objects) of the state. *)
Record Lens (S T : Type) : Type := { lget : S -> T; lset : T -> S -> S }.
Arguments lget {S T} _ _.
Arguments lset {S T} _ _ _.

Class LensLaws {S T} (L : Lens S T) : Prop := {
  lens_get_set : forall t s, lget L (lset L t s) = t;
  lens_set_get : forall s, lset L (lget L s) s = s;
  lens_set_set : forall t t' s, lset L t (lset L t' s) = lset L t s }.

(** A method called on a field. *)
Definition zoom {E S T A} (L : Lens S T) (m : STE E T A) : STE E S A :=
  fun s => let '(r, t) := m (lget L s) in (r, lset L t s).

(** Two objects borrowed mutably at the same time. *)
Definition lens_fst {A B} : Lens (A * B) A :=
  {| lget := fst; lset := fun a p => (a, snd p) |}.
Definition lens_snd {A B} : Lens (A * B) B :=
  {| lget := snd; lset := fun b p => (fst p, b) |}.
Definition lens_comp {S T U} (L : Lens S T) (M : Lens T U) : Lens S U :=
  {| lget := fun s => lget M (lget L s);
     lset := fun u s => lset L (lset M u (lget L s)) s |}.

Declare Scope st_scope.
Delimit Scope st_scope with st.
Notation "'let!' x ':=' c 'in' k" := (st_bind c (fun x => k))
  (at level 10, x pattern, c at level 200, k at level 200) : st_scope.
Notation "c ;;; k" := (st_bind c (fun _ => k))
  (at level 100, k at level 200, right associativity) : st_scope.
#[global] Open Scope st_scope.

(** ** Inversion of successful runs *)

Lemma ok_inj {E A} (a b : A) : @Ok E A a = Ok b <-> a = b.
Proof. split; [intros [= ->] | intros ->]; reflexivity. Qed.

Lemma res_bind_ok {E A B} (r : Result E A) (k : A -> Result E B) b :
  res_bind r k = Ok b <-> exists a, r = Ok a /\ k a = Ok b.
Proof. destruct r; simpl; naive_solver. Qed.

Lemma map_err_ok {E F A} (e : F) (r : Result E A) a : map_err e r = Ok a <-> r = Ok a.
Proof. destruct r; simpl; naive_solver. Qed.

Lemma ok_or_ok {E A} (e : E) (o : option A) a : ok_or e o = Ok a <-> o = Some a.
Proof. destruct o; simpl; naive_solver. Qed.

Lemma or_panic_ok {E A} (o : option A) a : @or_panic E A o = Ok a <-> o = Some a.
Proof. destruct o; simpl; naive_solver. Qed.

Lemma expect_ok {E A} (r : Result E A) a : expect r = Ok a <-> r = Ok a.
Proof. destruct r; simpl; naive_solver. Qed.

Lemma st_bind_ok {E S A B} (m : STE E S A) (k : A -> STE E S B) s b s'' :
  st_bind m k s = (Ok b, s'') <->
  exists a s', m s = (Ok a, s') /\ k a s' = (Ok b, s'').
Proof.
  unfold st_bind. destruct (m s) as [[a | e |] s'] eqn:Hm; naive_solver.
Qed.

Lemma st_lift_ok {E S A} (r : Result E A) (s : S) a s' :
  st_lift r s = (Ok a, s') <-> r = Ok a /\ s = s'.
Proof. unfold st_lift. naive_solver. Qed.

Lemma st_guard_ok {E S} b (e : E) (s : S) u s' :
  st_guard b e s = (Ok u, s') <-> b = false /\ s = s'.
Proof. unfold st_guard. destruct b, u; naive_solver. Qed.

Lemma zoom_ok {E S T A} (L : Lens S T) (m : STE E T A) s a s' :
  zoom L m s = (Ok a, s') <->
  exists t', m (lget L s) = (Ok a, t') /\ s' = lset L t' s.
Proof.
  unfold zoom. destruct (m (lget L s)) as [r t]. naive_solver.
Qed.

#[global] Instance lens_fst_laws {A B} : LensLaws (@lens_fst A B).
Proof. split; intros; destruct s; reflexivity. Qed.
#[global] Instance lens_snd_laws {A B} : LensLaws (@lens_snd A B).
Proof. split; intros; destruct s; reflexivity. Qed.
#[global] Instance lens_comp_laws {S T U} (L : Lens S T) (M : Lens T U) :
  LensLaws L -> LensLaws M -> LensLaws (lens_comp L M).
Proof.
  intros HL HM. split; intros; simpl.
  - by rewrite !lens_get_set.
  - by rewrite !lens_set_get.
  - by rewrite lens_set_set, !lens_get_set, lens_set_set.
Qed.

Lemma st_bind_ret {E S A B} (a : A) (k : A -> STE E S B) s :
  st_bind (st_ret a) k s = k a s.
Proof. reflexivity. Qed.

Lemma st_bind_assoc {E S A B C} (m : STE E S A) (k : A -> STE E S B) (h : B -> STE E S C) s :
  st_bind (st_bind m k) h s = st_bind m (fun a => st_bind (k a) h) s.
Proof. unfold st_bind. destruct (m s) as [[] ?]; reflexivity. Qed.

(** Eliminates the variable on the right (the newer one), or else the one on the left. *)
Ltac subst_eq H :=
  match type of H with
  | ?x = ?y => first [ is_var y; subst y | is_var x; subst x | idtac ]
  end.

(** Decomposes every successful run in the context into the runs of its steps. *)
Ltac run_inv_step :=
  match goal with
  | H : _ = _ /\ _ |- _ => destruct H
  | H : exists _, _ |- _ => destruct H
  | H : (_, _) = (_, _) |- _ =>
      let H1 := fresh "Heq" in let H2 := fresh "Heq" in
      apply pair_equal_spec in H; destruct H as [H1 H2];
      try subst_eq H1; try subst_eq H2
  | H : Ok _ = Ok _ |- _ =>
      let H1 := fresh "Heq" in pose proof (proj1 (ok_inj _ _) H) as H1; clear H;
      try subst_eq H1
  | H : Err _ = Ok _ |- _ => discriminate H
  | H : Panic = Ok _ |- _ => discriminate H
  | H : res_bind _ _ = Ok _ |- _ => apply res_bind_ok in H
  | H : res_map _ _ = Ok _ |- _ => unfold res_map in H
  | H : map_err _ _ = Ok _ |- _ => apply (proj1 (map_err_ok _ _ _)) in H
  | H : ok_or _ _ = Ok _ |- _ => apply ok_or_ok in H
  | H : or_panic _ = Ok _ |- _ => apply or_panic_ok in H
  | H : expect _ = Ok _ |- _ => apply (proj1 (expect_ok _ _)) in H
  | H : st_bind _ _ _ = (Ok _, _) |- _ => apply st_bind_ok in H
  | H : st_lift _ _ = (Ok _, _) |- _ =>
      let H2 := fresh "Heq" in
      apply st_lift_ok in H; destruct H as [H H2]; try subst_eq H2
  | H : st_guard _ _ _ = (Ok _, _) |- _ =>
      let H2 := fresh "Heq" in
      apply st_guard_ok in H; destruct H as [H H2]; try subst_eq H2
  | H : zoom _ _ _ = (Ok _, _) |- _ =>
      let t := fresh "t" in let H2 := fresh "Heq" in
      apply zoom_ok in H; destruct H as (t & H & H2);
      match type of H2 with ?x = _ => first [ is_var x; subst x | idtac ] end
  | H : tt = tt |- _ => clear H
  | H : st_ret _ _ = (Ok _, _) |- _ => unfold st_ret in H
  | H : st_raise _ _ = (Ok _, _) |- _ => discriminate H
  | H : st_get _ = (Ok _, _) |- _ => unfold st_get in H
  | H : st_gets _ _ = (Ok _, _) |- _ => unfold st_gets in H
  | H : st_put _ _ = (Ok _, _) |- _ => unfold st_put in H
  | H : st_modify _ _ = (Ok _, _) |- _ => unfold st_modify in H
  | x : () |- _ => destruct x
  end.
Ltac run_inv := repeat run_inv_step.

(** Boolean tests of the code as propositions. *)
Ltac bool_prop :=
  repeat match goal with
  | H : (_ && _) = true |- _ => apply andb_true_iff in H; destruct H
  | H : (_ || _) = false |- _ => apply orb_false_iff in H; destruct H
  | H : negb _ = true |- _ => apply negb_true_iff in H
  | H : negb _ = false |- _ => apply negb_false_iff in H
  | H : (_ <? _) = true |- _ => apply Z.ltb_lt in H
  | H : (_ <? _) = false |- _ => apply Z.ltb_ge in H
  | H : (_ <=? _) = true |- _ => apply Z.leb_le in H
  | H : (_ <=? _) = false |- _ => apply Z.leb_gt in H
  | H : (_ =? _) = true |- _ => apply Z.eqb_eq in H
  | H : (_ =? _) = false |- _ => apply Z.eqb_neq in H
  | H : (_ >? _) = _ |- _ => rewrite Z.gtb_ltb in H
  | H : (_ >=? _) = _ |- _ => rewrite Z.geb_leb in H
  | H : bool_decide _ = true |- _ => apply bool_decide_eq_true in H
  | H : bool_decide _ = false |- _ => apply bool_decide_eq_false in H
  end.

(** ** What a computation leaves alone, also when it fails *)

Create HintDb keeps.

Definition keeps {E S A B} (f : S -> B) (m : STE E S A) : Prop := forall s, f (snd (m s)) = f s.

Section Keeps.
Context {E S B : Type} (f : S -> B).

Lemma keeps_bind {A C} (m : STE E S A) (k : A -> STE E S C) :
  keeps f m -> (forall a, keeps f (k a)) -> keeps f (st_bind m k).
Proof.
  intros Hm Hk s. unfold st_bind. specialize (Hm s). destruct (m s) as [[a | e |] s']; cbn in *;
    try done. by rewrite Hk.
Qed.
Lemma keeps_lift {A} (r : Result E A) : keeps f (st_lift r).
Proof. done. Qed.
Lemma keeps_get : keeps (E := E) f st_get.
Proof. done. Qed.
Lemma keeps_ret {A} (a : A) : keeps (E := E) f (st_ret a).
Proof. done. Qed.
Lemma keeps_modify g : (forall s, f (g s) = f s) -> keeps (E := E) f (st_modify g).
Proof. done. Qed.
Lemma keeps_zoom {T A} (L : Lens S T) (m : STE E T A) :
  (forall t s, f (lset L t s) = f s) -> keeps f (zoom L m).
Proof. intros H s. unfold zoom. destruct (m (lget L s)). apply H. Qed.
Lemma keeps_zoom_at {T A C} (g : T -> C) (L : Lens S T) (m : STE E T A) :
  keeps g m -> (forall s t, g t = g (lget L s) -> f (lset L t s) = f s) -> keeps f (zoom L m).
Proof.
  intros Hm H s. unfold zoom. specialize (Hm (lget L s)). destruct (m (lget L s)).
  by apply H.
Qed.
Lemma keeps_guard b e : keeps (E := E) f (st_guard b e).
Proof. by destruct b. Qed.
End Keeps.

#[export] Hint Resolve keeps_lift keeps_get keeps_ret keeps_guard : keeps.
