(* ===== verification/FixedPoint.v ===== *)
(** * Fixed point numbers

    [autara-lib/src/math]: [define_fixed_point!] and [define_pod_int!] of [macros.rs],
    [ufixed_point.rs], [ifixed_point.rs] (all but [checked_exp], see [Exp]),
    [safe_math.rs], [bps.rs], [rounding.rs].

    A number is its 128-bit pattern read as an integer.  The arithmetic on patterns is
    that of the [fixed] crate ([U64F64], [I80F48]), which is not part of the repository:
    it is the parameter [FixedCrate], and [FixedLaws] states what its documentation
    promises.  [fixed_ref] is a concrete implementation that satisfies the laws. *)
From S2P Require Import Prelude.
From S2P Require Import Errors.
From S2P Require Import Monad.

(** ** The interface of the [fixed] crate *)

Record fixed_format : Type := { fmt_min : Z; fmt_max : Z; fmt_frac : Z }.

Definition U64F64 : fixed_format :=
  {| fmt_min := 0; fmt_max := U128_MAX; fmt_frac := 64 |}.
Definition I80F48 : fixed_format :=
  {| fmt_min := I128_MIN; fmt_max := I128_MAX; fmt_frac := 48 |}.

Definition fmt_check (f : fixed_format) (x : Z) : option Z :=
  check_range (fmt_min f) (fmt_max f) x.

(** The 128-bit pattern of [x] read in the format's signedness. *)
Definition fmt_wrap (f : fixed_format) (x : Z) : Z :=
  (x - fmt_min f) mod 2 ^ 128 + fmt_min f.

Class FixedCrate : Type := {
  (* checked_add, checked_sub, checked_mul, checked_div of two numbers of a format *)
  fx_add : fixed_format -> Z -> Z -> option Z;
  fx_sub : fixed_format -> Z -> Z -> option Z;
  fx_mul : fixed_format -> Z -> Z -> option Z;
  fx_div : fixed_format -> Z -> Z -> option Z;
  (* the Neg operator *)
  fx_neg : fixed_format -> Z -> Z;
  (* checked_to_num to an integer type with the given bounds *)
  fx_to_int : fixed_format -> Z -> Z -> Z -> option Z;
  (* checked_to_fixed of an integer, and of a number of another format *)
  fx_from_int : fixed_format -> Z -> option Z;
  fx_convert : fixed_format -> fixed_format -> Z -> option Z;
  (* frac, checked_shl, checked_shr *)
  fx_frac : fixed_format -> Z -> Z;
  fx_shl : fixed_format -> Z -> Z -> option Z;
  fx_shr : fixed_format -> Z -> Z -> option Z;
  (* lit of the decimal literal num/den *)
  fx_lit : fixed_format -> Z -> Z -> Z }.

(** [r] is [n / d] without its excess fractional bits: exact flooring when the quotient
    is not negative, and within one unit in the last place of it always (the laws leave
    open which way a negative product or quotient is rounded). *)
Definition rounds_to (n d r : Z) : Prop :=
  (0 <= n -> r = n / d) /\ - d < r * d - n < d.

Class FixedLaws (FX : FixedCrate) : Prop := {
  fx_add_spec : forall f a b, fx_add f a b = fmt_check f (a + b);
  fx_sub_spec : forall f a b, fx_sub f a b = fmt_check f (a - b);
  fx_mul_spec : forall f a b, 0 <= fmt_frac f ->
    exists r, rounds_to (a * b) (2 ^ fmt_frac f) r /\ fx_mul f a b = fmt_check f r;
  fx_div_zero : forall f a, fx_div f a 0 = None;
  fx_div_spec : forall f a b, 0 <= fmt_frac f -> b <> 0 ->
    exists r, rounds_to (Z.sgn b * a * 2 ^ fmt_frac f) (Z.abs b) r /\
              fx_div f a b = fmt_check f r;
  fx_neg_spec : forall f a, fmt_min f <= - a <= fmt_max f -> fx_neg f a = - a;
  fx_to_int_spec : forall f lo hi a,
    fx_to_int f lo hi a = check_range lo hi (a / 2 ^ fmt_frac f);
  fx_from_int_spec : forall f n, fx_from_int f n = fmt_check f (n * 2 ^ fmt_frac f);
  fx_convert_spec : forall f g a,
    fx_convert f g a = fmt_check g (a * 2 ^ fmt_frac g / 2 ^ fmt_frac f);
  fx_frac_spec : forall f a, fx_frac f a = a mod 2 ^ fmt_frac f;
  fx_shl_spec : forall f a n, 0 <= n ->
    fx_shl f a n = if n <? 128 then Some (fmt_wrap f (a * 2 ^ n)) else None;
  fx_shr_spec : forall f a n, 0 <= n ->
    fx_shr f a n = if n <? 128 then Some (a / 2 ^ n) else None;
  fx_lit_spec : forall f n d, 0 < d ->
    - d <= 2 * (fx_lit f n d * d - n * 2 ^ fmt_frac f) <= d }.

(** ** Types *)

(** [UFixedPoint(PodU128)] and [IFixedPoint(PodI128)]: sixteen little-endian bytes,
    represented by the integer they encode. *)
Record UFixedPoint : Type := UFP { u_bits : Z }.
Record IFixedPoint : Type := IFP { i_bits : Z }.

#[global] Instance UFixedPoint_eq_dec : EqDecision UFixedPoint.
Proof. solve_decision. Defined.
#[global] Instance IFixedPoint_eq_dec : EqDecision IFixedPoint.
Proof. solve_decision. Defined.

(** The patterns that sixteen bytes can hold. *)
Definition u_ok (x : UFixedPoint) : Prop := 0 <= u_bits x <= U128_MAX.
Definition i_ok (x : IFixedPoint) : Prop := I128_MIN <= i_bits x <= I128_MAX.

Inductive RoundingMode : Type := RoundDown | RoundUp.

#[global] Hint Unfold u_ok i_ok : widths.

(** ** Comparisons, by [to_inner] *)

Definition u_ltb (a b : UFixedPoint) : bool := u_bits a <? u_bits b.
Definition i_ltb (a b : IFixedPoint) : bool := i_bits a <? i_bits b.
Definition i_leb (a b : IFixedPoint) : bool := i_bits a <=? i_bits b.
Definition i_max (a b : IFixedPoint) : IFixedPoint := IFP (Z.max (i_bits a) (i_bits b)).
Definition u_is_zero (a : UFixedPoint) : bool := u_bits a =? 0.
Definition i_is_zero (a : IFixedPoint) : bool := i_bits a =? 0.

(** [IFixedPoint::is_negative] *)
Definition is_negative (a : IFixedPoint) : bool := i_bits a <? 0.

(** ** Constructors *)

Definition u_from_u64 (num : Z) : UFixedPoint := UFP (num * 2 ^ 64).
Definition i_from_u64 (num : Z) : IFixedPoint := IFP (num * 2 ^ 48).
Definition i_from_i64 (num : Z) : IFixedPoint := IFP (num * 2 ^ 48).
Definition u_zero : UFixedPoint := u_from_u64 0.
Definition u_one : UFixedPoint := u_from_u64 1.
Definition i_zero : IFixedPoint := i_from_u64 0.
Definition i_one : IFixedPoint := i_from_u64 1.

(** [UFixedPoint::from_u64_u64_ratio] for a denominator that is not zero (it is a
    [const fn] called with the constant 10_000). *)
Definition from_u64_u64_ratio (num dem : Z) : UFixedPoint := UFP (num * 2 ^ 64 / dem).

(** [IFixedPoint::from_i64_u64_ratio]: [i128] division truncates towards zero. *)
Definition from_i64_u64_ratio (num dem : Z) : IFixedPoint :=
  IFP (Z.quot (num * 2 ^ 48) dem).

(** ** [SafeMath] *)

Class SafeMath (Self Other Output : Type) : Type := {
  safe_add : Self -> Other -> Res Output;
  safe_sub : Self -> Other -> Res Output;
  safe_mul : Self -> Other -> Res Output;
  safe_div : Self -> Other -> Res Output }.
#[global] Hint Mode SafeMath ! ! - : typeclass_instances.

(** [impl SafeMath for u64] *)
Definition u64_safe_add (a b : Z) : Res Z :=
  ok_or AdditionOverflow (check_range 0 U64_MAX (a + b)).
Definition u64_safe_sub (a b : Z) : Res Z :=
  ok_or SubtractionOverflow (check_range 0 U64_MAX (a - b)).
Definition u64_safe_mul (a b : Z) : Res Z :=
  ok_or MultiplicationOverflow (check_range 0 U64_MAX (a * b)).
Definition u64_safe_div (a b : Z) : Res Z :=
  ok_or DivisionByZero (if b =? 0 then None else Some (a / b)).

#[global] Instance SafeMath_u64 : SafeMath Z Z Z :=
  {| safe_add := u64_safe_add; safe_sub := u64_safe_sub;
     safe_mul := u64_safe_mul; safe_div := u64_safe_div |}.

Section Ops.
Context {FX : FixedCrate}.

(** [from_num] of an integer: panics when it does not fit. *)
Definition u_from_num (n : Z) : Res UFixedPoint :=
  res_map UFP (or_panic (fx_from_int U64F64 n)).
Definition i_from_num (n : Z) : Res IFixedPoint :=
  res_map IFP (or_panic (fx_from_int I80F48 n)).

(** [lit] of a decimal literal written as a fraction. *)
Definition i_lit (num den : Z) : IFixedPoint := IFP (fx_lit I80F48 num den).

(** [impl SafeMath for $name], at [UFixedPoint]. *)
Definition ufixed_safe_add (a b : UFixedPoint) : Res UFixedPoint :=
  res_map UFP (ok_or AdditionOverflow (fx_add U64F64 (u_bits a) (u_bits b))).
Definition ufixed_safe_sub (a b : UFixedPoint) : Res UFixedPoint :=
  res_map UFP (ok_or SubtractionOverflow (fx_sub U64F64 (u_bits a) (u_bits b))).
Definition ufixed_safe_mul (a b : UFixedPoint) : Res UFixedPoint :=
  res_map UFP (ok_or MultiplicationOverflow (fx_mul U64F64 (u_bits a) (u_bits b))).
Definition ufixed_safe_div (a b : UFixedPoint) : Res UFixedPoint :=
  res_map UFP (ok_or DivisionOverflow (fx_div U64F64 (u_bits a) (u_bits b))).

#[global] Instance SafeMath_UFixed : SafeMath UFixedPoint UFixedPoint UFixedPoint :=
  {| safe_add := ufixed_safe_add; safe_sub := ufixed_safe_sub;
     safe_mul := ufixed_safe_mul; safe_div := ufixed_safe_div |}.

(** [impl SafeMath<u64, Self> for $name], at [UFixedPoint]: multiplication and division
    work on the integer pattern. *)
Definition ufixed_safe_add_u64 (a : UFixedPoint) (n : Z) : Res UFixedPoint :=
  let? b := u_from_num n in
  res_map UFP (ok_or AdditionOverflow (fx_add U64F64 (u_bits a) (u_bits b))).
Definition ufixed_safe_sub_u64 (a : UFixedPoint) (n : Z) : Res UFixedPoint :=
  let? b := u_from_num n in
  res_map UFP (ok_or SubtractionOverflow (fx_sub U64F64 (u_bits a) (u_bits b))).
Definition ufixed_safe_mul_u64 (a : UFixedPoint) (n : Z) : Res UFixedPoint :=
  res_map UFP (ok_or MultiplicationOverflow (check_range 0 U128_MAX (u_bits a * n))).
Definition ufixed_safe_div_u64 (a : UFixedPoint) (n : Z) : Res UFixedPoint :=
  res_map UFP (ok_or DivisionByZero (if n =? 0 then None else Some (u_bits a / n))).

#[global] Instance SafeMath_UFixed_u64 : SafeMath UFixedPoint Z UFixedPoint :=
  {| safe_add := ufixed_safe_add_u64; safe_sub := ufixed_safe_sub_u64;
     safe_mul := ufixed_safe_mul_u64; safe_div := ufixed_safe_div_u64 |}.

(** The same two implementations at [IFixedPoint]. *)
Definition ifixed_safe_add (a b : IFixedPoint) : Res IFixedPoint :=
  res_map IFP (ok_or AdditionOverflow (fx_add I80F48 (i_bits a) (i_bits b))).
Definition ifixed_safe_sub (a b : IFixedPoint) : Res IFixedPoint :=
  res_map IFP (ok_or SubtractionOverflow (fx_sub I80F48 (i_bits a) (i_bits b))).
Definition ifixed_safe_mul (a b : IFixedPoint) : Res IFixedPoint :=
  res_map IFP (ok_or MultiplicationOverflow (fx_mul I80F48 (i_bits a) (i_bits b))).
Definition ifixed_safe_div (a b : IFixedPoint) : Res IFixedPoint :=
  res_map IFP (ok_or DivisionOverflow (fx_div I80F48 (i_bits a) (i_bits b))).

#[global] Instance SafeMath_IFixed : SafeMath IFixedPoint IFixedPoint IFixedPoint :=
  {| safe_add := ifixed_safe_add; safe_sub := ifixed_safe_sub;
     safe_mul := ifixed_safe_mul; safe_div := ifixed_safe_div |}.

Definition ifixed_safe_add_u64 (a : IFixedPoint) (n : Z) : Res IFixedPoint :=
  let? b := i_from_num n in
  res_map IFP (ok_or AdditionOverflow (fx_add I80F48 (i_bits a) (i_bits b))).
Definition ifixed_safe_sub_u64 (a : IFixedPoint) (n : Z) : Res IFixedPoint :=
  let? b := i_from_num n in
  res_map IFP (ok_or SubtractionOverflow (fx_sub I80F48 (i_bits a) (i_bits b))).
Definition ifixed_safe_mul_u64 (a : IFixedPoint) (n : Z) : Res IFixedPoint :=
  res_map IFP
    (ok_or MultiplicationOverflow (check_range I128_MIN I128_MAX (i_bits a * n))).
Definition ifixed_safe_div_u64 (a : IFixedPoint) (n : Z) : Res IFixedPoint :=
  res_map IFP (ok_or DivisionByZero (if n =? 0 then None else Some (Z.quot (i_bits a) n))).

#[global] Instance SafeMath_IFixed_u64 : SafeMath IFixedPoint Z IFixedPoint :=
  {| safe_add := ifixed_safe_add_u64; safe_sub := ifixed_safe_sub_u64;
     safe_mul := ifixed_safe_mul_u64; safe_div := ifixed_safe_div_u64 |}.

(** [impl SafeMath<IFixedPoint, IFixedPoint> for u64] *)
Definition u64_safe_add_ifixed (a : Z) (b : IFixedPoint) : Res IFixedPoint :=
  map_err AdditionOverflow (safe_add (i_from_u64 a) b).
Definition u64_safe_sub_ifixed (a : Z) (b : IFixedPoint) : Res IFixedPoint :=
  map_err SubtractionOverflow (safe_sub (i_from_u64 a) b).
Definition u64_safe_mul_ifixed (a : Z) (b : IFixedPoint) : Res IFixedPoint :=
  map_err MultiplicationOverflow (safe_mul (i_from_u64 a) b).
Definition u64_safe_div_ifixed (a : Z) (b : IFixedPoint) : Res IFixedPoint :=
  map_err DivisionOverflow (safe_div (i_from_u64 a) b).

#[global] Instance SafeMath_u64_IFixed : SafeMath Z IFixedPoint IFixedPoint :=
  {| safe_add := u64_safe_add_ifixed; safe_sub := u64_safe_sub_ifixed;
     safe_mul := u64_safe_mul_ifixed; safe_div := u64_safe_div_ifixed |}.

(** [IFixedPoint::from_ufixed], [UFixedPoint::from_ifixed] and the [TryFrom]s. *)
Definition from_ufixed (x : UFixedPoint) : option IFixedPoint :=
  IFP <$> fx_convert U64F64 I80F48 (u_bits x).
Definition from_ifixed (x : IFixedPoint) : option UFixedPoint :=
  UFP <$> fx_convert I80F48 U64F64 (i_bits x).
Definition ifixed_try_from (x : UFixedPoint) : Res IFixedPoint :=
  ok_or CastOverflow (from_ufixed x).
Definition ufixed_try_from (x : IFixedPoint) : Res UFixedPoint :=
  ok_or CastOverflow (from_ifixed x).

(** [impl SafeMath<UFixedPoint, IFixedPoint> for IFixedPoint] *)
Definition ifixed_safe_add_ufixed (a : IFixedPoint) (b : UFixedPoint) : Res IFixedPoint :=
  let? b' := ok_or CastOverflow (from_ufixed b) in map_err AdditionOverflow (safe_add a b').
Definition ifixed_safe_sub_ufixed (a : IFixedPoint) (b : UFixedPoint) : Res IFixedPoint :=
  let? b' := ok_or CastOverflow (from_ufixed b) in
  map_err SubtractionOverflow (safe_sub a b').
Definition ifixed_safe_mul_ufixed (a : IFixedPoint) (b : UFixedPoint) : Res IFixedPoint :=
  let? b' := ok_or CastOverflow (from_ufixed b) in
  map_err MultiplicationOverflow (safe_mul a b').
Definition ifixed_safe_div_ufixed (a : IFixedPoint) (b : UFixedPoint) : Res IFixedPoint :=
  let? b' := ok_or CastOverflow (from_ufixed b) in map_err DivisionOverflow (safe_div a b').

#[global] Instance SafeMath_IFixed_UFixed : SafeMath IFixedPoint UFixedPoint IFixedPoint :=
  {| safe_add := ifixed_safe_add_ufixed; safe_sub := ifixed_safe_sub_ufixed;
     safe_mul := ifixed_safe_mul_ufixed; safe_div := ifixed_safe_div_ufixed |}.

(** [impl Neg for IFixedPoint] *)
Definition ifixed_neg (x : IFixedPoint) : IFixedPoint := IFP (fx_neg I80F48 (i_bits x)).

(** ** Conversions to integers *)

(** [as_u64_rounded_down], [as_u64_rounded_up], [as_u64_rounded] of both types. *)
Definition fmt_as_u64_rounded_down (f : fixed_format) (b : Z) : Res Z :=
  ok_or CastOverflow (fx_to_int f 0 U64_MAX b).
Definition fmt_as_u64_rounded_up (f : fixed_format) (b : Z) : Res Z :=
  let? rounded_down := ok_or CastOverflow (fx_to_int f 0 U64_MAX b) in
  if fx_frac f b =? 0 then Ok rounded_down
  else Ok (saturating_add U64_MAX rounded_down 1).
Definition fmt_as_u64_rounded (f : fixed_format) (rounding : RoundingMode) (b : Z) : Res Z :=
  map_err CastOverflow
    (match rounding with
     | RoundDown => fmt_as_u64_rounded_down f b
     | RoundUp => fmt_as_u64_rounded_up f b
     end).
Definition u_as_u64_rounded_down (x : UFixedPoint) : Res Z :=
  fmt_as_u64_rounded_down U64F64 (u_bits x).
Definition u_as_u64_rounded (x : UFixedPoint) (rounding : RoundingMode) : Res Z :=
  fmt_as_u64_rounded U64F64 rounding (u_bits x).
Definition i_as_u64_rounded_down (x : IFixedPoint) : Res Z :=
  fmt_as_u64_rounded_down I80F48 (i_bits x).
Definition i_as_u64_rounded_up (x : IFixedPoint) : Res Z :=
  fmt_as_u64_rounded_up I80F48 (i_bits x).

(** [checked_to_num::<i32>] *)
Definition i_checked_to_i32 (x : IFixedPoint) : Res Z :=
  ok_or CastOverflow (fx_to_int I80F48 I32_MIN I32_MAX (i_bits x)).

(** [from_ratio] of two integers. *)
Definition i_from_ratio (num dem : Z) : Res IFixedPoint :=
  let? n := i_from_num num in
  let? d := i_from_num dem in
  map_err DivisionOverflow (safe_div n d).

(** [checked_shift]: right for a negative argument, left otherwise, and a left shift is
    verified by shifting back. *)
Definition i_checked_shift (x : IFixedPoint) (shift : Z) : option IFixedPoint :=
  if shift <? 0 then IFP <$> fx_shr I80F48 (i_bits x) (- shift)
  else
    match fx_shl I80F48 (i_bits x) shift with
    | None => None
    | Some shifted =>
      if bool_decide (fx_shr I80F48 shifted shift = Some (i_bits x))
      then Some (IFP shifted) else None
    end.

(** ** Basis points *)

Definition ONE_IN_BPS : Z := 10000.

Definition percent_to_bps (percent : Z) : Z := percent * 100.

Definition bps_to_fixed_point (bps : Z) : UFixedPoint := from_u64_u64_ratio bps ONE_IN_BPS.

Definition bps_from_fixed_point (bps : Z) (fixed : UFixedPoint) : Res UFixedPoint :=
  let? r := safe_mul fixed bps in expect (safe_div r ONE_IN_BPS).

End Ops.
