(* ===== verification/FixedFacts.v ===== *)
(** * Facts about fixed point arithmetic

    What each [SafeMath] operation returns, derived from the laws of the [fixed] crate
    interface, the rounding of the conversions to atoms, and the reference
    implementation [fixed_ref] of the interface. *)
From S2P Require Import Prelude.
From S2P Require Import Errors.
From S2P Require Import Monad.
From S2P Require Import FixedPoint.

(** ** A reference implementation of the crate interface *)

Definition fixed_ref : FixedCrate := {|
  fx_add f a b := fmt_check f (a + b);
  fx_sub f a b := fmt_check f (a - b);
  fx_mul f a b := fmt_check f (a * b / 2 ^ fmt_frac f);
  fx_div f a b :=
    if b =? 0 then None else fmt_check f (Z.quot (a * 2 ^ fmt_frac f) b);
  fx_neg f a := if in_range (fmt_min f) (fmt_max f) (- a) then - a else fmt_wrap f (- a);
  fx_to_int f lo hi a := check_range lo hi (a / 2 ^ fmt_frac f);
  fx_from_int f n := fmt_check f (n * 2 ^ fmt_frac f);
  fx_convert f g a := fmt_check g (a * 2 ^ fmt_frac g / 2 ^ fmt_frac f);
  fx_frac f a := a mod 2 ^ fmt_frac f;
  fx_shl f a n := if n <? 128 then Some (fmt_wrap f (a * 2 ^ n)) else None;
  fx_shr f a n := if n <? 128 then Some (a / 2 ^ n) else None;
  fx_lit f n d := (2 * n * 2 ^ fmt_frac f + d) / (2 * d) |}.

Lemma floor_rounds n d : 0 < d -> rounds_to n d (n / d).
Proof. intros Hd. split; [auto |]. div_bounds n d. lia. Qed.

Lemma quot_rounds a b : b <> 0 -> rounds_to (Z.sgn b * a) (Z.abs b) (Z.quot a b).
Proof.
  intros Hb.
  assert (Hq : Z.quot a b = Z.quot (Z.sgn b * a) (Z.abs b)).
  { destruct (Z.lt_trichotomy b 0) as [Hn | [-> | Hp]]; [| lia |].
    - rewrite Z.sgn_neg, Z.abs_neq by lia.
      replace (-1 * a) with (- a) by lia. by rewrite Z.quot_opp_opp.
    - rewrite Z.sgn_pos, Z.abs_eq by lia. by rewrite Z.mul_1_l. }
  rewrite Hq. set (n := Z.sgn b * a). set (d := Z.abs b).
  assert (0 < d) by lia. split; [intros; apply Z.quot_div_nonneg; lia |].
  destruct (Z.le_gt_cases 0 n).
  - rewrite Z.quot_div_nonneg by lia. div_bounds n d. lia.
  - replace n with (- (- n)) by lia. rewrite Z.quot_opp_l by lia.
    rewrite Z.quot_div_nonneg by lia. div_bounds (- n) d. lia.
Qed.

Lemma fixed_ref_laws : FixedLaws fixed_ref.
Proof.
  split; try reflexivity; simpl.
  - intros f a b Hf. eexists. split; [apply floor_rounds | reflexivity].
    apply Z.pow_pos_nonneg; lia.
  - intros f a b Hf Hb. eexists. split.
    + rewrite <- Z.mul_assoc. by apply quot_rounds.
    + by rewrite (proj2 (Z.eqb_neq b 0) Hb).
  - intros f a Ha. by rewrite (proj2 (in_range_spec _ _ _) Ha).
  - intros f n d Hd. div_bounds (2 * n * 2 ^ fmt_frac f + d) (2 * d). nia.
Qed.

(** ** What the operations return *)

Section Facts.
Context {FX : FixedCrate} {FXL : FixedLaws FX}.

Lemma u64_add_ok a b c :
  safe_add a b = Ok c <-> c = a + b /\ 0 <= a + b <= U64_MAX.
Proof. simpl. unfold u64_safe_add. by rewrite ok_or_ok, check_range_Some. Qed.

Lemma u64_sub_ok a b c :
  safe_sub a b = Ok c <-> c = a - b /\ 0 <= a - b <= U64_MAX.
Proof. simpl. unfold u64_safe_sub. by rewrite ok_or_ok, check_range_Some. Qed.

Lemma res_map_ok {E A B} (f : A -> B) (r : Result E A) b :
  res_map f r = Ok b <-> exists a, r = Ok a /\ b = f a.
Proof. destruct r; unfold res_map; simpl; naive_solver. Qed.

Lemma fmt_check_u x y :
  fmt_check U64F64 x = Some y <-> y = x /\ 0 <= x <= U128_MAX.
Proof. apply check_range_Some. Qed.

Lemma fmt_check_i x y :
  fmt_check I80F48 x = Some y <-> y = x /\ I128_MIN <= x <= I128_MAX.
Proof. apply check_range_Some. Qed.

Ltac op_ok :=
  rewrite res_map_ok; setoid_rewrite ok_or_ok.

Lemma u_add_ok (a b c : UFixedPoint) :
  safe_add a b = Ok c <->
  c = UFP (u_bits a + u_bits b) /\ 0 <= u_bits a + u_bits b <= U128_MAX.
Proof.
  simpl. unfold ufixed_safe_add. op_ok. setoid_rewrite fx_add_spec.
  setoid_rewrite fmt_check_u. naive_solver.
Qed.

Lemma u_sub_ok (a b c : UFixedPoint) :
  safe_sub a b = Ok c <->
  c = UFP (u_bits a - u_bits b) /\ 0 <= u_bits a - u_bits b <= U128_MAX.
Proof.
  simpl. unfold ufixed_safe_sub. op_ok. setoid_rewrite fx_sub_spec.
  setoid_rewrite fmt_check_u. naive_solver.
Qed.

Lemma u_mul_ok (a b c : UFixedPoint) :
  0 <= u_bits a -> 0 <= u_bits b ->
  safe_mul a b = Ok c <->
  c = UFP (u_bits a * u_bits b / 2 ^ 64) /\ u_bits a * u_bits b / 2 ^ 64 <= U128_MAX.
Proof.
  intros Ha Hb. simpl. unfold ufixed_safe_mul. op_ok.
  destruct (fx_mul_spec U64F64 (u_bits a) (u_bits b)) as (r & [Hr _] & ->);
    [simpl; lia |].
  rewrite Hr by nia. simpl. setoid_rewrite fmt_check_u.
  assert (0 <= u_bits a * u_bits b / 2 ^ 64) by (apply div_nonneg; nia).
  naive_solver.
Qed.

Lemma u_div_ok (a b c : UFixedPoint) :
  0 <= u_bits a -> 0 <= u_bits b ->
  safe_div a b = Ok c <->
  u_bits b <> 0 /\ c = UFP (u_bits a * 2 ^ 64 / u_bits b) /\
  u_bits a * 2 ^ 64 / u_bits b <= U128_MAX.
Proof.
  intros Ha Hb. simpl. unfold ufixed_safe_div. op_ok.
  destruct (Z.eq_dec (u_bits b) 0) as [-> | Hnz].
  - rewrite fx_div_zero. naive_solver.
  - destruct (fx_div_spec U64F64 (u_bits a) (u_bits b)) as (r & [Hr _] & ->);
      [simpl; lia | done |].
    rewrite Z.sgn_pos, Z.mul_1_l, Z.abs_eq in Hr by lia. simpl fmt_frac in Hr.
    rewrite Hr by lia. setoid_rewrite fmt_check_u.
    assert (0 <= u_bits a * 2 ^ 64 / u_bits b) by (apply div_nonneg; lia).
    naive_solver.
Qed.

Lemma u_mul_u64_ok (a : UFixedPoint) n c :
  safe_mul a n = Ok c <->
  c = UFP (u_bits a * n) /\ 0 <= u_bits a * n <= U128_MAX.
Proof.
  simpl. unfold ufixed_safe_mul_u64. op_ok. setoid_rewrite check_range_Some.
  naive_solver.
Qed.

Lemma u_div_u64_ok (a : UFixedPoint) n c :
  safe_div a n = Ok c <-> n <> 0 /\ c = UFP (u_bits a / n).
Proof.
  simpl. unfold ufixed_safe_div_u64. op_ok.
  destruct (n =? 0) eqn:E; bool_prop; naive_solver.
Qed.

Lemma i_add_ok (a b c : IFixedPoint) :
  safe_add a b = Ok c <->
  c = IFP (i_bits a + i_bits b) /\ I128_MIN <= i_bits a + i_bits b <= I128_MAX.
Proof.
  simpl. unfold ifixed_safe_add. op_ok. setoid_rewrite fx_add_spec.
  setoid_rewrite fmt_check_i. naive_solver.
Qed.

Lemma i_sub_ok (a b c : IFixedPoint) :
  safe_sub a b = Ok c <->
  c = IFP (i_bits a - i_bits b) /\ I128_MIN <= i_bits a - i_bits b <= I128_MAX.
Proof.
  simpl. unfold ifixed_safe_sub. op_ok. setoid_rewrite fx_sub_spec.
  setoid_rewrite fmt_check_i. naive_solver.
Qed.

(** Products and quotients of any sign: some rounding of the exact value, checked. *)
Lemma i_mul_cases (a b : IFixedPoint) :
  exists r, rounds_to (i_bits a * i_bits b) (2 ^ 48) r /\
  safe_mul a b = res_map IFP (ok_or MultiplicationOverflow (fmt_check I80F48 r)).
Proof.
  destruct (fx_mul_spec I80F48 (i_bits a) (i_bits b)) as (r & Hr & E); [simpl; lia |].
  exists r. split; [done |]. simpl. unfold ifixed_safe_mul. by rewrite E.
Qed.

Lemma i_div_cases (a b : IFixedPoint) :
  i_bits b <> 0 ->
  exists r, rounds_to (Z.sgn (i_bits b) * i_bits a * 2 ^ 48) (Z.abs (i_bits b)) r /\
  safe_div a b = res_map IFP (ok_or DivisionOverflow (fmt_check I80F48 r)).
Proof.
  intros Hb.
  destruct (fx_div_spec I80F48 (i_bits a) (i_bits b)) as (r & Hr & E); [simpl; lia | done |].
  exists r. split; [done |]. simpl. unfold ifixed_safe_div. by rewrite E.
Qed.

Lemma i_mul_ok (a b c : IFixedPoint) :
  0 <= i_bits a * i_bits b ->
  safe_mul a b = Ok c <->
  c = IFP (i_bits a * i_bits b / 2 ^ 48) /\ i_bits a * i_bits b / 2 ^ 48 <= I128_MAX.
Proof.
  intros Hab. destruct (i_mul_cases a b) as (r & [Hr _] & ->). rewrite Hr by lia.
  op_ok. setoid_rewrite fmt_check_i.
  assert (0 <= i_bits a * i_bits b / 2 ^ 48) by (apply div_nonneg; lia).
  assert (I128_MIN <= 0) by widths_lia. naive_solver lia.
Qed.

Lemma i_div_ok (a b c : IFixedPoint) :
  0 <= i_bits a -> 0 <= i_bits b ->
  safe_div a b = Ok c <->
  i_bits b <> 0 /\ c = IFP (i_bits a * 2 ^ 48 / i_bits b) /\
  i_bits a * 2 ^ 48 / i_bits b <= I128_MAX.
Proof.
  intros Ha Hb. destruct (Z.eq_dec (i_bits b) 0) as [Hz | Hnz].
  - simpl. unfold ifixed_safe_div. rewrite Hz, fx_div_zero. op_ok. naive_solver.
  - destruct (i_div_cases a b Hnz) as (r & [Hr _] & ->).
    rewrite Z.sgn_pos, Z.mul_1_l, Z.abs_eq in Hr by lia. rewrite Hr by lia.
    op_ok. setoid_rewrite fmt_check_i.
    assert (0 <= i_bits a * 2 ^ 48 / i_bits b) by (apply div_nonneg; lia).
    assert (I128_MIN <= 0) by widths_lia. naive_solver lia.
Qed.

Lemma i_mul_u64_ok (a : IFixedPoint) n c :
  safe_mul a n = Ok c <->
  c = IFP (i_bits a * n) /\ I128_MIN <= i_bits a * n <= I128_MAX.
Proof.
  simpl. unfold ifixed_safe_mul_u64. op_ok. setoid_rewrite check_range_Some.
  naive_solver.
Qed.

Lemma i_div_u64_ok (a : IFixedPoint) n c :
  safe_div a n = Ok c <-> n <> 0 /\ c = IFP (Z.quot (i_bits a) n).
Proof.
  simpl. unfold ifixed_safe_div_u64. op_ok.
  destruct (n =? 0) eqn:E; bool_prop; naive_solver.
Qed.

Lemma i_div_zero (a b : IFixedPoint) :
  i_bits b = 0 -> safe_div a b = Err DivisionOverflow.
Proof. intros Hz. simpl. unfold ifixed_safe_div. by rewrite Hz, fx_div_zero. Qed.

(** Checked operations fail with a value, they do not panic. *)
Lemma i_mul_no_panic (a b : IFixedPoint) : safe_mul a b <> Panic.
Proof. simpl. unfold ifixed_safe_mul. by destruct (fx_mul _ _ _). Qed.

Lemma i_div_no_panic (a b : IFixedPoint) : safe_div a b <> Panic.
Proof. simpl. unfold ifixed_safe_div. by destruct (fx_div _ _ _). Qed.

(** An integer of any unsigned 64-bit value fits both formats. *)
Lemma u_from_num_u64 n : is_u64 n -> u_from_num n = Ok (u_from_u64 n).
Proof.
  intros Hn. unfold u_from_num, u_from_u64. rewrite fx_from_int_spec.
  simpl. unfold fmt_check, check_range. simpl.
  rewrite (proj2 (in_range_spec _ _ _)); [done | widths_lia].
Qed.

Lemma i_from_num_u64 n : is_u64 n -> i_from_num n = Ok (i_from_u64 n).
Proof.
  intros Hn. unfold i_from_num, i_from_u64. rewrite fx_from_int_spec.
  simpl. unfold fmt_check, check_range. simpl.
  rewrite (proj2 (in_range_spec _ _ _)); [done | widths_lia].
Qed.

Lemma i_sub_u64_ok (a : IFixedPoint) n c :
  is_u64 n ->
  safe_sub a n = Ok c <->
  c = IFP (i_bits a - n * 2 ^ 48) /\ I128_MIN <= i_bits a - n * 2 ^ 48 <= I128_MAX.
Proof.
  intros Hn. simpl. unfold ifixed_safe_sub_u64. rewrite i_from_num_u64 by done. simpl.
  op_ok. setoid_rewrite fx_sub_spec. setoid_rewrite fmt_check_i. naive_solver.
Qed.

(** ** Conversions *)

(** Dropping sixteen fractional bits always fits; adding them needs the value to be
    below [2 ^ 64]. *)
Lemma from_ufixed_eq (x : UFixedPoint) :
  u_ok x -> from_ufixed x = Some (IFP (u_bits x / 2 ^ 16)).
Proof.
  intros Hx. unfold from_ufixed. rewrite fx_convert_spec. simpl fmt_frac.
  replace (u_bits x * 2 ^ 48 / 2 ^ 64) with (u_bits x / 2 ^ 16).
  - unfold fmt_check, check_range. simpl.
    rewrite (proj2 (in_range_spec _ _ _)); [done |].
    div_bounds (u_bits x) (2 ^ 16). widths_lia.
  - symmetry. change (2 ^ 64) with (2 ^ 16 * 2 ^ 48). rewrite Z.div_mul_cancel_r; lia.
Qed.

Lemma from_ifixed_ok (x : IFixedPoint) y :
  from_ifixed x = Some y <->
  y = UFP (i_bits x * 2 ^ 16) /\ 0 <= i_bits x * 2 ^ 16 <= U128_MAX.
Proof.
  unfold from_ifixed. rewrite fx_convert_spec. simpl fmt_frac.
  replace (i_bits x * 2 ^ 64 / 2 ^ 48) with (i_bits x * 2 ^ 16).
  - rewrite fmap_Some. setoid_rewrite fmt_check_u. naive_solver.
  - symmetry. replace (i_bits x * 2 ^ 64) with (i_bits x * 2 ^ 16 * 2 ^ 48) by lia.
    apply Z.div_mul. lia.
Qed.

Lemma ufixed_try_from_ok (x : IFixedPoint) y :
  ufixed_try_from x = Ok y <->
  y = UFP (i_bits x * 2 ^ 16) /\ 0 <= i_bits x * 2 ^ 16 <= U128_MAX.
Proof. unfold ufixed_try_from. rewrite ok_or_ok. apply from_ifixed_ok. Qed.

Lemma u_round_down_ok (x : UFixedPoint) n :
  u_as_u64_rounded x RoundDown = Ok n <->
  n = u_bits x / 2 ^ 64 /\ 0 <= u_bits x / 2 ^ 64 <= U64_MAX.
Proof.
  unfold u_as_u64_rounded, fmt_as_u64_rounded, fmt_as_u64_rounded_down.
  by rewrite map_err_ok, ok_or_ok, fx_to_int_spec, check_range_Some.
Qed.

Lemma i_round_down_ok (x : IFixedPoint) n :
  i_as_u64_rounded_down x = Ok n <->
  n = i_bits x / 2 ^ 48 /\ 0 <= i_bits x / 2 ^ 48 <= U64_MAX.
Proof.
  unfold i_as_u64_rounded_down, fmt_as_u64_rounded_down.
  by rewrite ok_or_ok, fx_to_int_spec, check_range_Some.
Qed.

(** The least whole number of atoms that covers a value. *)
Definition ceil64 (b : Z) : Z := (b + (2 ^ 64 - 1)) / 2 ^ 64.

Lemma ceil64_bounds b : 2 ^ 64 * (ceil64 b - 1) < b <= 2 ^ 64 * ceil64 b.
Proof. unfold ceil64. div_bounds (b + (2 ^ 64 - 1)) (2 ^ 64). lia. Qed.

Lemma fmt_round_up_ok f b n :
  0 <= fmt_frac f ->
  fmt_as_u64_rounded_up f b = Ok n <->
  0 <= b / 2 ^ fmt_frac f <= U64_MAX /\
  n = (if b mod 2 ^ fmt_frac f =? 0 then b / 2 ^ fmt_frac f
       else Z.min U64_MAX (b / 2 ^ fmt_frac f + 1)).
Proof.
  intros Hf. unfold fmt_as_u64_rounded_up, saturating_add.
  rewrite fx_to_int_spec, fx_frac_spec.
  destruct (check_range 0 U64_MAX (b / 2 ^ fmt_frac f)) as [z |] eqn:E.
  - apply check_range_Some in E as [-> E]. simpl.
    destruct (_ =? 0); naive_solver.
  - apply check_range_None in E. simpl. split; [discriminate | lia].
Qed.

(** Rounding up is the ceiling, saturated at the largest [u64]. *)
Lemma u_round_up_ok (x : UFixedPoint) n :
  u_as_u64_rounded x RoundUp = Ok n <->
  0 <= u_bits x / 2 ^ 64 <= U64_MAX /\ n = Z.min U64_MAX (ceil64 (u_bits x)).
Proof.
  unfold u_as_u64_rounded, fmt_as_u64_rounded. rewrite map_err_ok.
  rewrite fmt_round_up_ok by (simpl; lia). simpl fmt_frac.
  assert (Hc : ceil64 (u_bits x) =
    if u_bits x mod 2 ^ 64 =? 0 then u_bits x / 2 ^ 64 else u_bits x / 2 ^ 64 + 1).
  { unfold ceil64. pose proof (Z.div_mod (u_bits x) (2 ^ 64)).
    pose proof (Z.mod_pos_bound (u_bits x) (2 ^ 64)).
    destruct (_ =? 0) eqn:E; bool_prop; apply div_unique_bounds; lia. }
  rewrite Hc. destruct (_ =? 0); split; intros [H ->]; split; lia.
Qed.

Lemma i_round_up_ok (x : IFixedPoint) n :
  i_as_u64_rounded_up x = Ok n <->
  0 <= i_bits x / 2 ^ 48 <= U64_MAX /\
  n = (if i_bits x mod 2 ^ 48 =? 0 then i_bits x / 2 ^ 48
       else Z.min U64_MAX (i_bits x / 2 ^ 48 + 1)).
Proof. apply fmt_round_up_ok. simpl. lia. Qed.

End Facts.

(** [widths_lia] on patterns of constructed numbers. *)
Ltac fx_lia := repeat autounfold with widths in *; cbn [u_bits i_bits] in *; lia.

#[global] Arguments safe_add : simpl never.
#[global] Arguments safe_sub : simpl never.
#[global] Arguments safe_mul : simpl never.
#[global] Arguments safe_div : simpl never.

(** ** Signed operations with an unsigned operand, which loses sixteen bits *)

Section Mixed.
Context {FX : FixedCrate} {FXL : FixedLaws FX}.

Lemma i_mul_ufixed_ok (a : IFixedPoint) (b : UFixedPoint) c :
  u_ok b -> 0 <= i_bits a ->
  safe_mul a b = Ok c <->
  c = IFP (i_bits a * (u_bits b / 2 ^ 16) / 2 ^ 48) /\
  i_bits a * (u_bits b / 2 ^ 16) / 2 ^ 48 <= I128_MAX.
Proof.
  intros Hb Ha. unfold safe_mul, SafeMath_IFixed_UFixed, ifixed_safe_mul_ufixed.
  rewrite from_ufixed_eq by done. simpl. rewrite map_err_ok.
  assert (0 <= u_bits b / 2 ^ 16) by (apply div_nonneg; widths_lia).
  rewrite i_mul_ok by (simpl; nia). done.
Qed.

Lemma i_add_ufixed_ok (a : IFixedPoint) (b : UFixedPoint) c :
  u_ok b ->
  safe_add a b = Ok c <->
  c = IFP (i_bits a + u_bits b / 2 ^ 16) /\
  I128_MIN <= i_bits a + u_bits b / 2 ^ 16 <= I128_MAX.
Proof.
  intros Hb. unfold safe_add, SafeMath_IFixed_UFixed, ifixed_safe_add_ufixed.
  rewrite from_ufixed_eq by done. simpl. by rewrite map_err_ok, i_add_ok.
Qed.

Lemma i_div_ufixed_ok (a : IFixedPoint) (b : UFixedPoint) c :
  u_ok b -> 0 <= i_bits a ->
  safe_div a b = Ok c <->
  u_bits b / 2 ^ 16 <> 0 /\ c = IFP (i_bits a * 2 ^ 48 / (u_bits b / 2 ^ 16)) /\
  i_bits a * 2 ^ 48 / (u_bits b / 2 ^ 16) <= I128_MAX.
Proof.
  intros Hb Ha. unfold safe_div, SafeMath_IFixed_UFixed, ifixed_safe_div_ufixed.
  rewrite from_ufixed_eq by done. simpl. rewrite map_err_ok.
  assert (0 <= u_bits b / 2 ^ 16) by (apply div_nonneg; widths_lia).
  rewrite i_div_ok by (simpl; lia). done.
Qed.

End Mixed.

(** Side conditions of the facts: signs and ranges of patterns. *)
Ltac fx_side := simpl in *; try fx_lia; eauto with zdiv.

(** Replaces every successful fixed point operation in the context by its value. *)
Ltac fixed_inv_step :=
  match goal with
  | H : @safe_add Z Z _ _ _ _ = Ok _ |- _ => apply u64_add_ok in H as [? ?]; subst
  | H : @safe_sub Z Z _ _ _ _ = Ok _ |- _ => apply u64_sub_ok in H as [? ?]; subst
  | H : @safe_add UFixedPoint UFixedPoint _ _ _ _ = Ok _ |- _ =>
      apply u_add_ok in H as [? ?]; subst
  | H : @safe_sub UFixedPoint UFixedPoint _ _ _ _ = Ok _ |- _ =>
      apply u_sub_ok in H as [? ?]; subst
  | H : @safe_mul UFixedPoint Z _ _ _ _ = Ok _ |- _ =>
      apply u_mul_u64_ok in H as [? ?]; subst
  | H : @safe_div UFixedPoint Z _ _ _ _ = Ok _ |- _ =>
      apply u_div_u64_ok in H as [? ?]; subst
  | H : @safe_mul UFixedPoint UFixedPoint _ _ _ _ = Ok _ |- _ =>
      apply u_mul_ok in H as [? ?]; [subst | solve [fx_side] | solve [fx_side]]
  | H : @safe_div UFixedPoint UFixedPoint _ _ _ _ = Ok _ |- _ =>
      apply u_div_ok in H as (? & ? & ?); [subst | solve [fx_side] | solve [fx_side]]
  | H : @safe_add IFixedPoint IFixedPoint _ _ _ _ = Ok _ |- _ =>
      apply i_add_ok in H as [? ?]; subst
  | H : @safe_sub IFixedPoint IFixedPoint _ _ _ _ = Ok _ |- _ =>
      apply i_sub_ok in H as [? ?]; subst
  | H : @safe_mul IFixedPoint Z _ _ _ _ = Ok _ |- _ =>
      apply i_mul_u64_ok in H as [? ?]; subst
  | H : @safe_div IFixedPoint Z _ _ _ _ = Ok _ |- _ =>
      apply i_div_u64_ok in H as [? ?]; subst
  | H : @safe_mul IFixedPoint UFixedPoint _ _ _ _ = Ok _ |- _ =>
      apply i_mul_ufixed_ok in H as [? ?]; [subst | solve [fx_side] | solve [fx_side]]
  | H : @safe_div IFixedPoint UFixedPoint _ _ _ _ = Ok _ |- _ =>
      apply i_div_ufixed_ok in H as (? & ? & ?); [subst | solve [fx_side] | solve [fx_side]]
  | H : @safe_add IFixedPoint UFixedPoint _ _ _ _ = Ok _ |- _ =>
      apply i_add_ufixed_ok in H as [? ?]; [subst | solve [fx_side]]
  | H : ufixed_try_from _ = Ok _ |- _ => apply ufixed_try_from_ok in H as [? ?]; subst
  | H : u_as_u64_rounded _ RoundDown = Ok _ |- _ => apply u_round_down_ok in H as [? ?]; subst
  | H : u_as_u64_rounded _ RoundUp = Ok _ |- _ => apply u_round_up_ok in H as [? ?]; subst
  | H : i_as_u64_rounded_down _ = Ok _ |- _ => apply i_round_down_ok in H as [? ?]; subst
  end.
Ltac fixed_inv := repeat (run_inv_step || fixed_inv_step).
