(* ===== verification/SharesTracker.v ===== *)
(** * Shares of a pool of atoms

    [autara-lib/src/math/shares_tracker.rs], with the interest applied to it from
    [autara-lib/src/interest_rate/interest_rate.rs]. *)
From S2P Require Import Prelude.
From S2P Require Import Errors.
From S2P Require Import Monad.
From S2P Require Import FixedPoint.
From S2P Require Import FixedFacts.

(** [InterestRate(IFixedPoint)]: the interest over one period. *)
Record InterestRate : Type := mkInterestRate { rate : IFixedPoint }.

Record SharesTracker : Type := {
  total_shares : UFixedPoint;
  atoms_per_share : UFixedPoint }.

#[global] Instance SharesTracker_eq_dec : EqDecision SharesTracker.
Proof. solve_decision. Defined.

Definition set_total_shares (x : UFixedPoint) (t : SharesTracker) : SharesTracker :=
  {| total_shares := x; atoms_per_share := atoms_per_share t |}.
Definition set_atoms_per_share (x : UFixedPoint) (t : SharesTracker) : SharesTracker :=
  {| total_shares := total_shares t; atoms_per_share := x |}.

Definition new : SharesTracker :=
  {| total_shares := u_from_u64 0; atoms_per_share := u_from_u64 1 |}.

Definition initialize : ST SharesTracker () :=
  st_modify (set_total_shares (u_from_u64 0)) ;;;
  st_modify (set_atoms_per_share (u_from_u64 1)).

Section Ops.
Context {FX : FixedCrate}.

(** [InterestRate::interest] *)
Definition interest {V} `{!SafeMath IFixedPoint V IFixedPoint} (r : InterestRate) (value : V)
  : Res IFixedPoint := safe_mul (rate r) value.

(** [InterestRate::adjust_for_utilisation_rate] *)
Definition adjust_for_utilisation_rate (r : InterestRate) (utilisation_rate : IFixedPoint)
  : Res InterestRate := res_map mkInterestRate (safe_mul (rate r) utilisation_rate).

Definition atoms_to_shares (self : SharesTracker) (atoms : Z) : Res UFixedPoint :=
  safe_div (u_from_u64 atoms) (atoms_per_share self).

Definition shares_to_atoms (self : SharesTracker) (shares : UFixedPoint)
  (rounding : RoundingMode) : Res Z :=
  let? x := safe_mul shares (atoms_per_share self) in u_as_u64_rounded x rounding.

Definition total_atoms (self : SharesTracker) (rounding : RoundingMode) : Res Z :=
  let? x := safe_mul (total_shares self) (atoms_per_share self) in
  u_as_u64_rounded x rounding.

Definition deposit_atoms (atoms : Z) : ST SharesTracker UFixedPoint :=
  let! self := st_get in
  let! shares := st_lift (atoms_to_shares self atoms) in
  let! total := st_lift (safe_add (total_shares self) shares) in
  st_modify (set_total_shares total) ;;;
  st_ret shares.

Definition withdraw_atoms (atoms : Z) : ST SharesTracker UFixedPoint :=
  let! self := st_get in
  let! shares := st_lift (atoms_to_shares self atoms) in
  let! total := st_lift (map_err SharesOverflow (safe_sub (total_shares self) shares)) in
  st_modify (set_total_shares total) ;;;
  st_ret shares.

Definition withdraw_atoms_capped (atoms : Z) (max_shares : UFixedPoint)
  (rounding : RoundingMode) : ST SharesTracker (Z * UFixedPoint) :=
  let! self := st_get in
  let! shares := st_lift (atoms_to_shares self atoms) in
  if u_ltb max_shares shares then
    let! atoms' := st_lift (shares_to_atoms self max_shares rounding) in
    let! total :=
      st_lift (map_err SharesOverflow (safe_sub (total_shares self) max_shares)) in
    st_modify (set_total_shares total) ;;;
    st_ret (atoms', max_shares)
  else
    let! total := st_lift (map_err SharesOverflow (safe_sub (total_shares self) shares)) in
    st_modify (set_total_shares total) ;;;
    st_ret (atoms, shares).

Definition withdraw_shares (shares : UFixedPoint) (rounding : RoundingMode)
  : ST SharesTracker Z :=
  let! self := st_get in
  let! atoms := st_lift (shares_to_atoms self shares rounding) in
  let! total := st_lift (map_err SharesOverflow (safe_sub (total_shares self) shares)) in
  st_modify (set_total_shares total) ;;;
  st_ret atoms.

Definition apply_interest_rate (interest_rate : InterestRate) : ST SharesTracker () :=
  let! self := st_get in
  if u_is_zero (total_shares self) then st_ret tt
  else
    let! i := st_lift (interest interest_rate (atoms_per_share self)) in
    let! sum := st_lift (safe_add i (atoms_per_share self)) in
    let! aps := st_lift (ufixed_try_from sum) in
    st_modify (set_atoms_per_share aps).

Definition apply_interest_rate_with_fee (interest_rate : InterestRate) (fee : UFixedPoint)
  : ST SharesTracker UFixedPoint :=
  let! self := st_get in
  let! total_atoms_before := st_lift (total_atoms self RoundDown) in
  if total_atoms_before =? 0 then st_ret (u_from_u64 0)
  else if is_negative (rate interest_rate) then
    apply_interest_rate interest_rate ;;; st_raise NegativeInterestRate
  else
    let! interest_atoms := st_lift (interest interest_rate total_atoms_before) in
    let! fee_atoms := st_lift (safe_mul interest_atoms fee) in
    let! net_interest_atoms := st_lift (safe_sub interest_atoms fee_atoms) in
    let! net_interest_rate := st_lift (safe_div net_interest_atoms total_atoms_before) in
    let! net_interest_atoms_per_share :=
      st_lift (safe_mul net_interest_rate (atoms_per_share self)) in
    let! sum := st_lift (safe_add net_interest_atoms_per_share (atoms_per_share self)) in
    let! aps := st_lift (ufixed_try_from sum) in
    st_modify (set_atoms_per_share aps) ;;;
    let! self' := st_get in
    let! fee_shares_i := st_lift (safe_div fee_atoms (atoms_per_share self')) in
    let! fee_shares := st_lift (ufixed_try_from fee_shares_i) in
    let! total := st_lift (safe_add fee_shares (total_shares self')) in
    st_modify (set_total_shares total) ;;;
    st_ret fee_shares.

Definition donate_atoms (atoms : Z) : ST SharesTracker () :=
  let! self := st_get in
  st_guard (u_is_zero (total_shares self)) CantModifySharePriceIfZeroShares ;;;
  let! additional_atoms_per_share :=
    st_lift (safe_div (u_from_u64 atoms) (total_shares self)) in
  let! aps := st_lift (safe_add (atoms_per_share self) additional_atoms_per_share) in
  st_modify (set_atoms_per_share aps).

Definition socialize_loss_atoms (atoms : Z) : ST SharesTracker () :=
  let! self := st_get in
  st_guard (u_is_zero (total_shares self)) CantModifySharePriceIfZeroShares ;;;
  let! loss_per_share := st_lift (safe_div (u_from_u64 atoms) (total_shares self)) in
  let! aps := st_lift (safe_sub (atoms_per_share self) loss_per_share) in
  st_modify (set_atoms_per_share aps).

End Ops.

(** * Facts about the shares tracker

    Prices and shares are 64.64 fixed point numbers, so the product of their patterns is a
    value in units of [2 ^ -128] atoms.  The lemmas say in these units what every
    operation mints, burns and pays, and which way it rounds. *)

(** One atom in units of [2 ^ -128]. *)
Definition ATOM : Z := 2 ^ 128.

(** Both fields are representable. *)
Definition tracker_ok (t : SharesTracker) : Prop :=
  u_ok (total_shares t) /\ u_ok (atoms_per_share t).

(** The value of all the shares. *)
Definition value (t : SharesTracker) : Z :=
  u_bits (total_shares t) * u_bits (atoms_per_share t).

#[global] Hint Unfold tracker_ok ATOM : widths.

Lemma ATOM_pos : 0 < ATOM.
Proof. reflexivity. Qed.

Lemma new_ok : tracker_ok new.
Proof. repeat split; vm_compute; discriminate. Qed.

Section Facts.
Context {FX : FixedCrate} {FXL : FixedLaws FX}.

Lemma div_div_64 n : n / 2 ^ 64 / 2 ^ 64 = n / ATOM.
Proof. rewrite Z.div_div by lia. reflexivity. Qed.

Lemma ceil64_div n : 0 <= n -> (n / 2 ^ 64 <= 2 ^ 64 * (n / ATOM)) ->
  ceil64 (n / 2 ^ 64) = n / ATOM.
Proof.
  intros Hn H. unfold ceil64. div_bounds (n / 2 ^ 64) (2 ^ 64).
  rewrite div_div_64 in *. apply div_unique_bounds; lia.
Qed.

Lemma atoms_to_shares_ok t atoms s :
  tracker_ok t -> 0 <= atoms ->
  atoms_to_shares t atoms = Ok s <->
  u_bits (atoms_per_share t) <> 0 /\
  s = UFP (atoms * ATOM / u_bits (atoms_per_share t)) /\
  atoms * ATOM / u_bits (atoms_per_share t) <= U128_MAX.
Proof.
  intros [Ht Hp] Ha. unfold atoms_to_shares, u_from_u64.
  rewrite u_div_ok by (simpl; widths_lia). simpl u_bits.
  replace (atoms * 2 ^ 64 * 2 ^ 64) with (atoms * ATOM) by (unfold ATOM; lia). done.
Qed.

Lemma shares_to_atoms_down_ok t s n :
  tracker_ok t -> u_ok s ->
  shares_to_atoms t s RoundDown = Ok n ->
  n = u_bits s * u_bits (atoms_per_share t) / ATOM /\ is_u64 n.
Proof.
  intros [Ht Hp] Hs H. unfold shares_to_atoms in H. fixed_inv. simpl in *.
  rewrite div_div_64 in *. split; [done |]. widths_lia.
Qed.

Lemma shares_to_atoms_up_ok t s n :
  tracker_ok t -> u_ok s ->
  shares_to_atoms t s RoundUp = Ok n ->
  n = Z.min U64_MAX (ceil64 (u_bits s * u_bits (atoms_per_share t) / 2 ^ 64)).
Proof.
  intros [Ht Hp] Hs H. unfold shares_to_atoms in H. fixed_inv. done.
Qed.

Lemma shares_to_atoms_u64 t s r n :
  tracker_ok t -> u_ok s -> shares_to_atoms t s r = Ok n -> is_u64 n.
Proof.
  intros Ht Hs H. destruct r.
  - by apply shares_to_atoms_down_ok in H as [_ H].
  - apply shares_to_atoms_up_ok in H; [| done..]. destruct Ht as [_ Hp].
    set (b := u_bits s * u_bits (atoms_per_share t) / 2 ^ 64) in *.
    assert (0 <= b) by (apply div_nonneg; widths_lia).
    pose proof (ceil64_bounds b). widths_lia.
Qed.

Lemma total_atoms_shares t r : total_atoms t r = shares_to_atoms t (total_shares t) r.
Proof. reflexivity. Qed.

(** The value of shares is defined whenever the value of all shares is. *)
Lemma shares_to_atoms_defined t s r r' n :
  tracker_ok t -> u_ok s -> u_bits s <= u_bits (total_shares t) ->
  total_atoms t r' = Ok n -> exists k, shares_to_atoms t s r = Ok k.
Proof.
  intros [Ht Hp] Hs Hle H. unfold total_atoms in H. run_inv.
  match goal with H : safe_mul _ _ = Ok _ |- _ =>
    apply u_mul_ok in H as [-> Hm]; [| widths_lia..] end.
  set (x := u_bits s * u_bits (atoms_per_share t) / 2 ^ 64).
  assert (Hx : 0 <= x <= U128_MAX).
  { split; [apply div_nonneg; widths_lia |]. etransitivity; [| exact Hm].
    apply div_le_mono; [lia |]. apply Z.mul_le_mono_nonneg_r; widths_lia. }
  assert (Hx64 : 0 <= x / 2 ^ 64 <= U64_MAX)
    by (split; [apply div_nonneg; lia | apply div_le_upper; widths_lia]).
  unfold shares_to_atoms. setoid_rewrite res_bind_ok.
  destruct r; eexists; exists (UFP x);
    (split; [apply u_mul_ok; [widths_lia | widths_lia | split; [reflexivity | apply Hx]] |]);
    [by apply u_round_down_ok | by apply u_round_up_ok].
Qed.

Lemma withdraw_shares_succeeds t s r r' n :
  tracker_ok t -> u_ok s -> u_bits s <= u_bits (total_shares t) ->
  total_atoms t r' = Ok n ->
  exists k, withdraw_shares s r t
            = (Ok k, set_total_shares (UFP (u_bits (total_shares t) - u_bits s)) t).
Proof.
  intros Ht Hs Hle H. destruct (shares_to_atoms_defined t s r r' n Ht Hs Hle H) as [k Hk].
  exists k. unfold withdraw_shares, st_bind, st_get, st_lift. rewrite Hk.
  assert (safe_sub (total_shares t) s = Ok (UFP (u_bits (total_shares t) - u_bits s))) as ->;
    [| done].
  apply u_sub_ok. split; [done |]. destruct Ht as [Ht _]. widths_lia.
Qed.

(** Minting: the floor of [atoms / price], added to the total. *)
Lemma deposit_atoms_ok t atoms s t' :
  tracker_ok t -> 0 <= atoms ->
  deposit_atoms atoms t = (Ok s, t') ->
  0 < u_bits (atoms_per_share t) /\
  s = UFP (atoms * ATOM / u_bits (atoms_per_share t)) /\
  t' = set_total_shares (UFP (u_bits (total_shares t) + u_bits s)) t /\
  tracker_ok t' /\ u_ok s.
Proof.
  intros Ht Ha H. unfold deposit_atoms in H. run_inv.
  apply atoms_to_shares_ok in H0 as (Hnz & -> & Hm); [| done | done].
  fixed_inv. destruct Ht as [Ht Hp].
  assert (0 < u_bits (atoms_per_share t)) by widths_lia.
  assert (0 <= atoms * ATOM / u_bits (atoms_per_share t))
    by (apply div_nonneg; widths_lia).
  repeat split; simpl in *; widths_lia.
Qed.

(** Burning a number of shares: the atoms paid are their value, rounded. *)
Lemma withdraw_shares_ok t s r n t' :
  tracker_ok t -> u_ok s ->
  withdraw_shares s r t = (Ok n, t') ->
  shares_to_atoms t s r = Ok n /\
  t' = set_total_shares (UFP (u_bits (total_shares t) - u_bits s)) t /\
  tracker_ok t'.
Proof.
  intros Ht Hs H. unfold withdraw_shares in H. fixed_inv.
  repeat split; simpl; auto; destruct Ht; widths_lia.
Qed.

(** Burning the shares of a number of atoms. *)
Lemma withdraw_atoms_ok t atoms s t' :
  tracker_ok t -> 0 <= atoms ->
  withdraw_atoms atoms t = (Ok s, t') ->
  0 < u_bits (atoms_per_share t) /\
  s = UFP (atoms * ATOM / u_bits (atoms_per_share t)) /\
  t' = set_total_shares (UFP (u_bits (total_shares t) - u_bits s)) t /\
  tracker_ok t' /\ u_ok s.
Proof.
  intros Ht Ha H. unfold withdraw_atoms in H. run_inv.
  apply atoms_to_shares_ok in H0 as (Hnz & -> & Hm); [| done | done].
  fixed_inv. destruct Ht as [Ht Hp].
  assert (0 < u_bits (atoms_per_share t)) by widths_lia.
  assert (0 <= atoms * ATOM / u_bits (atoms_per_share t))
    by (apply div_nonneg; widths_lia).
  repeat split; simpl in *; widths_lia.
Qed.

Lemma withdraw_atoms_capped_ok t atoms m r n s t' :
  tracker_ok t -> 0 <= atoms -> u_ok m ->
  withdraw_atoms_capped atoms m r t = (Ok (n, s), t') ->
  t' = set_total_shares (UFP (u_bits (total_shares t) - u_bits s)) t /\
  tracker_ok t' /\ u_ok s /\ u_bits s <= u_bits m /\
  ((n = atoms /\ atoms_to_shares t atoms = Ok s) \/
   (s = m /\ shares_to_atoms t m r = Ok n /\
    exists s0, atoms_to_shares t atoms = Ok s0 /\ u_bits m < u_bits s0)).
Proof.
  intros Ht Ha Hm H. unfold withdraw_atoms_capped in H. run_inv.
  pose proof H0 as Hs0.
  apply atoms_to_shares_ok in H0 as (Hnz & -> & Hle); [| done | done].
  destruct Ht as [Ht Hp]. unfold u_ltb in H1. simpl in H1.
  assert (0 <= atoms * ATOM / u_bits (atoms_per_share t))
    by (apply div_nonneg; widths_lia).
  destruct (_ <? _) eqn:Hlt; bool_prop; fixed_inv; simpl in *.
  - repeat split; simpl; try widths_lia. right. eauto 6.
  - repeat split; simpl; try widths_lia. left. auto.
Qed.

(** ** Interest *)

(** The price without the sixteen bits that the conversion to 80.48 drops. *)
Definition price48 (t : SharesTracker) : Z := u_bits (atoms_per_share t) / 2 ^ 16.

Lemma price48_bounds t :
  tracker_ok t ->
  0 <= price48 t <= 2 ^ 112 - 1 /\
  2 ^ 16 * price48 t <= u_bits (atoms_per_share t) < 2 ^ 16 * price48 t + 2 ^ 16.
Proof.
  intros [_ Hp]. unfold price48.
  div_bounds (u_bits (atoms_per_share t)) (2 ^ 16). widths_lia.
Qed.

(** Without fee and at a rate that is not negative, the price is multiplied by
    [1 + rate] in 80.48 arithmetic. *)
Lemma apply_interest_rate_ok t r t' :
  tracker_ok t -> 0 <= i_bits (rate r) ->
  apply_interest_rate r t = (Ok tt, t') ->
  (u_bits (total_shares t) = 0 /\ t' = t) \/
  (u_bits (total_shares t) <> 0 /\
   t' = set_atoms_per_share
     (UFP (2 ^ 16 * (price48 t + i_bits (rate r) * price48 t / 2 ^ 48))) t /\
   tracker_ok t').
Proof.
  intros Ht Hr H. unfold apply_interest_rate, interest, u_is_zero in H. run_inv.
  destruct (_ =? 0) eqn:E in *; bool_prop; [left; run_inv; done | right].
  pose proof Ht as [Hs Hp]. fixed_inv. simpl in *. fold (price48 t) in *.
  rewrite (Z.add_comm (_ / _)), (Z.mul_comm _ (2 ^ 16)) in *.
  repeat split; simpl; widths_lia.
Qed.

(** The whole atoms of the pool, the fee on a period's interest and the rate net of the
    fee, the last two with 48 fractional bits. *)
Definition pool_atoms (t : SharesTracker) : Z := value t / ATOM.
Definition fee48 (t : SharesTracker) (r : InterestRate) (fee : UFixedPoint) : Z :=
  i_bits (rate r) * pool_atoms t * (u_bits fee / 2 ^ 16) / 2 ^ 48.
Definition net48 (t : SharesTracker) (r : InterestRate) (fee : UFixedPoint) : Z :=
  (i_bits (rate r) * pool_atoms t - fee48 t r fee) / pool_atoms t.

(** What a run with fee computes when it does not fail, at a rate that is not negative
    and a fee of at most one. *)
Record fee_run (t : SharesTracker) (r : InterestRate) (fee fee_shares : UFixedPoint)
  (t' : SharesTracker) : Prop := {
  fr_atoms : 0 < pool_atoms t;
  fr_fee : 0 <= fee48 t r fee <= i_bits (rate r) * pool_atoms t;
  fr_price : price48 t' = price48 t + net48 t r fee * price48 t / 2 ^ 48;
  fr_price_pos : 0 < price48 t';
  fr_aps : u_bits (atoms_per_share t') = 2 ^ 16 * price48 t';
  fr_shares : u_bits fee_shares = 2 ^ 16 * (fee48 t r fee * 2 ^ 48 / price48 t');
  fr_total : u_bits (total_shares t') = u_bits (total_shares t) + u_bits fee_shares;
  fr_ok : tracker_ok t';
  fr_shares_ok : u_ok fee_shares }.

Lemma total_atoms_down_ok t n :
  tracker_ok t -> total_atoms t RoundDown = Ok n -> n = value t / ATOM /\ is_u64 n.
Proof.
  intros Ht H. rewrite total_atoms_shares in H.
  by apply shares_to_atoms_down_ok in H; [| done | apply Ht].
Qed.

Lemma fee48_bounds t r fee :
  is_u64 (pool_atoms t) -> 0 <= i_bits (rate r) -> 0 <= u_bits fee <= 2 ^ 64 ->
  0 <= fee48 t r fee <= i_bits (rate r) * pool_atoms t.
Proof.
  intros Hu Hr Hf. unfold fee48.
  assert (0 <= u_bits fee / 2 ^ 16 <= 2 ^ 48)
    by (split; [apply div_nonneg; lia | apply div_le_upper; lia]).
  assert (0 <= i_bits (rate r) * pool_atoms t) by widths_lia.
  split; [apply div_nonneg; nia | apply div_le_upper; nia].
Qed.

Lemma apply_interest_rate_with_fee_ok t r fee s t' :
  tracker_ok t -> 0 <= i_bits (rate r) -> 0 <= u_bits fee <= 2 ^ 64 ->
  apply_interest_rate_with_fee r fee t = (Ok s, t') ->
  (pool_atoms t = 0 /\ s = u_from_u64 0 /\ t' = t) \/ fee_run t r fee s t'.
Proof.
  intros Ht Hr Hf H. unfold apply_interest_rate_with_fee, interest, is_negative in H.
  run_inv. match goal with H : total_atoms _ _ = _ |- _ => apply total_atoms_down_ok in H as [-> Hu]; [| done] end.
  fold (pool_atoms t) in *. destruct (_ =? 0) eqn:E0 in *; bool_prop; [left; run_inv; subst; auto |].
  destruct (_ <? 0) eqn:E1 in *; bool_prop; [lia | right].
  pose proof Ht as [Hs Hp].
  run_inv. assert (Hf48 := fee48_bounds t r fee Hu Hr Hf).
  apply i_mul_u64_ok in H as [-> HI].
  apply i_mul_ufixed_ok in H0 as [-> HF]; [| widths_lia | simpl; widths_lia].
  simpl in *. fold (fee48 t r fee) in *. fixed_inv. simpl in *.
  assert (0 < pool_atoms t) by widths_lia.
  rewrite Z.quot_div_nonneg in * by lia. fold (net48 t r fee) in *.
  assert (Hn : 0 <= net48 t r fee) by (apply div_nonneg; lia).
  fixed_inv. simpl in *. fold (price48 t) in *.
  simpl in *. rewrite Z.div_mul in * by lia.
  assert (0 <= price48 t) by (apply price48_bounds; done).
  assert (0 <= net48 t r fee * price48 t / 2 ^ 48) by (apply div_nonneg; nia).
  rewrite (Z.add_comm (_ / _)) in *.
  split; unfold price48; simpl; rewrite ?Z.div_mul by lia; fold (price48 t);
    try set (fee48 t r fee * _ / _) in *; try widths_lia;
    repeat split; simpl; widths_lia.
Qed.
(** ** Donations and socialised losses *)

Lemma donate_atoms_ok t atoms t' :
  tracker_ok t -> 0 <= atoms ->
  donate_atoms atoms t = (Ok tt, t') ->
  0 < u_bits (total_shares t) /\
  t' = set_atoms_per_share
    (UFP (u_bits (atoms_per_share t) + atoms * ATOM / u_bits (total_shares t))) t /\
  tracker_ok t'.
Proof.
  intros Ht Ha H. unfold donate_atoms, u_is_zero, u_from_u64 in H. run_inv. bool_prop.
  pose proof Ht as [Hs Hp]. assert (0 < u_bits (total_shares t)) by widths_lia.
  fixed_inv. simpl in *.
  replace (atoms * 2 ^ 64 * 2 ^ 64) with (atoms * ATOM) in * by (unfold ATOM; lia).
  repeat split; simpl; widths_lia.
Qed.

Lemma socialize_loss_atoms_ok t atoms t' :
  tracker_ok t -> 0 <= atoms ->
  socialize_loss_atoms atoms t = (Ok tt, t') ->
  0 < u_bits (total_shares t) /\
  t' = set_atoms_per_share
    (UFP (u_bits (atoms_per_share t) - atoms * ATOM / u_bits (total_shares t))) t /\
  tracker_ok t'.
Proof.
  intros Ht Ha H. unfold socialize_loss_atoms, u_is_zero, u_from_u64 in H.
  run_inv. bool_prop.
  pose proof Ht as [Hs Hp]. assert (0 < u_bits (total_shares t)) by widths_lia.
  fixed_inv. simpl in *.
  replace (atoms * 2 ^ 64 * 2 ^ 64) with (atoms * ATOM) in * by (unfold ATOM; lia).
  repeat split; simpl; widths_lia.
Qed.

End Facts.

(** * What the shares tracker guarantees

    Round trips through the pool never pay out more than was put in, a repayment settles
    a loan exactly, and interest, fees, donations and losses change the value of the pool
    by what they are supposed to and never by more. *)

Section Props.
Context {FX : FixedCrate} {FXL : FixedLaws FX}.

(** The shares of [atoms] are worth at most [atoms], by less than one unit of price. *)
Lemma minted_value_bounds atoms p :
  0 < p -> 0 <= atoms ->
  atoms * ATOM - p < atoms * ATOM / p * p <= atoms * ATOM.
Proof. intros Hp Ha. div_bounds (atoms * ATOM) p. lia. Qed.

(** Shares whose value is at most [atoms] can be valued, in either direction. *)
Lemma shares_have_atoms t s r atoms :
  tracker_ok t -> u_ok s -> is_u64 atoms ->
  u_bits s * u_bits (atoms_per_share t) <= atoms * ATOM ->
  exists n, shares_to_atoms t s r = Ok n /\ 0 <= n <= atoms /\
  n = (match r with
       | RoundDown => u_bits s * u_bits (atoms_per_share t) / ATOM
       | RoundUp => ceil64 (u_bits s * u_bits (atoms_per_share t) / 2 ^ 64)
       end).
Proof.
  intros [Ht Hp] Hs Ha Hv. set (v := u_bits s * u_bits (atoms_per_share t)) in *.
  assert (Hv0 : 0 <= v) by widths_lia.
  assert (H64 : 0 <= v / 2 ^ 64 <= atoms * 2 ^ 64)
    by (split; [apply div_nonneg; lia | apply div_le_upper; widths_lia]).
  assert (H128 : 0 <= v / ATOM <= atoms)
    by (split; [apply div_nonneg; widths_lia | apply div_le_upper; widths_lia]).
  assert (Hm : safe_mul s (atoms_per_share t) = Ok (UFP (v / 2 ^ 64)))
    by (apply u_mul_ok; [widths_lia | widths_lia | split; [done | fold v; widths_lia]]).
  unfold shares_to_atoms. rewrite Hm. simpl. destruct r.
  - exists (v / ATOM). rewrite u_round_down_ok. simpl. rewrite div_div_64. widths_lia.
  - exists (ceil64 (v / 2 ^ 64)). rewrite u_round_up_ok. simpl. rewrite div_div_64.
    pose proof (ceil64_bounds (v / 2 ^ 64)).
    assert (0 <= ceil64 (v / 2 ^ 64) <= atoms) by (split; widths_lia).
    repeat split; widths_lia.
Qed.

Lemma u_sub_added (x y : UFixedPoint) :
  u_ok x -> safe_sub (UFP (u_bits x + u_bits y)) y = Ok x.
Proof.
  intros Hx. apply u_sub_ok. destruct x as [b]. simpl in *.
  split; [f_equal; lia | fx_lia].
Qed.

(** Burning shares just minted gives back the tracker before the deposit. *)
Lemma mint_burn t atoms s t1 r :
  tracker_ok t -> is_u64 atoms ->
  deposit_atoms atoms t = (Ok s, t1) ->
  u_ok s /\
  exists n, withdraw_shares s r t1 = (Ok n, t) /\ shares_to_atoms t s r = Ok n /\
  0 <= n <= atoms /\
  n = (match r with
       | RoundDown => u_bits s * u_bits (atoms_per_share t) / ATOM
       | RoundUp => ceil64 (u_bits s * u_bits (atoms_per_share t) / 2 ^ 64)
       end).
Proof.
  intros Ht Ha H.
  apply deposit_atoms_ok in H as (Hp & Hs & -> & Ht1 & Hsok); [| done | widths_lia].
  split; [done |].
  assert (Hv := minted_value_bounds atoms _ Hp (proj1 Ha)).
  destruct (shares_have_atoms t s r atoms) as (n & Hn & Hb & He);
    [done | done | done | subst s; simpl; lia |].
  exists n. split; [| done].
  unfold withdraw_shares, st_bind, st_get, st_lift.
  change (shares_to_atoms (set_total_shares _ t) s r) with (shares_to_atoms t s r).
  rewrite Hn. simpl.
  rewrite u_sub_added by apply Ht. simpl. unfold st_modify, st_ret. by destruct t.
Qed.

(** Whatever the price of a share, a lender who deposits [atoms] and withdraws the
    shares minted for them is paid the deposit, or one atom less, and never more; the
    withdrawal succeeds and the pool is exactly as it was. *)
Theorem deposit_then_withdraw_never_profits t atoms s t1 :
  tracker_ok t -> is_u64 atoms ->
  deposit_atoms atoms t = (Ok s, t1) ->
  exists n, withdraw_shares s RoundDown t1 = (Ok n, t) /\ atoms - 1 <= n <= atoms.
Proof.
  intros Ht Ha H. pose proof H as Hd.
  apply deposit_atoms_ok in Hd as (Hp & Hs & _); [| done | widths_lia].
  destruct (mint_burn _ _ _ _ RoundDown Ht Ha H) as (_ & n & Hw & _ & Hb & ->).
  eexists. split; [exact Hw |]. split; [| lia].
  pose proof (minted_value_bounds atoms _ Hp (proj1 Ha)). subst s. simpl u_bits.
  destruct Ht as [_ Hpr]. apply div_ge_lower; widths_lia.
Qed.

(** A borrower who takes [atoms] and repays all the shares at once owes exactly
    [atoms], provided a share is worth at most [2 ^ 64 - 1] atoms (the price never gets
    near that): rounding the debt up never costs, and never saves, an atom. *)
Theorem borrow_then_repay_is_exact t atoms s t1 :
  tracker_ok t -> is_u64 atoms ->
  u_bits (atoms_per_share t) <= 2 ^ 128 - 2 ^ 64 ->
  deposit_atoms atoms t = (Ok s, t1) ->
  withdraw_shares s RoundUp t1 = (Ok atoms, t).
Proof.
  intros Ht Ha Hmax H. pose proof H as Hd.
  apply deposit_atoms_ok in Hd as (Hp & Hs & _); [| done | widths_lia].
  destruct (mint_burn _ _ _ _ RoundUp Ht Ha H) as (Hsok & n & Hw & _ & Hb & Hn).
  rewrite Hw. repeat f_equal.
  pose proof (minted_value_bounds atoms _ Hp (proj1 Ha)) as Hv. subst s. simpl u_bits in *.
  set (v := atoms * ATOM / _ * _) in *.
  pose proof (ceil64_bounds (v / 2 ^ 64)). div_bounds v (2 ^ 64). widths_lia.
Qed.

(** What a capped repayment takes, against the value it burns. *)
Lemma capped_bounds t atoms m n s t' :
  tracker_ok t -> is_u64 atoms -> u_ok m ->
  withdraw_atoms_capped atoms m RoundUp t = (Ok (n, s), t') ->
  0 <= n <= atoms /\
  u_bits s * u_bits (atoms_per_share t) < n * ATOM + 2 ^ 64.
Proof.
  intros Ht Ha Hm H.
  apply withdraw_atoms_capped_ok in H as (_ & _ & Hs & _ & Hcase);
    [| done | widths_lia | done].
  pose proof Ht as [_ Hp].
  destruct Hcase as [[-> Hconv] | (-> & Hconv & s0 & Hs0 & Hlt)].
  - apply atoms_to_shares_ok in Hconv as (Hnz & -> & _); [| done | widths_lia].
    pose proof (minted_value_bounds atoms (u_bits (atoms_per_share t))). simpl. widths_lia.
  - apply atoms_to_shares_ok in Hs0 as (Hnz & -> & _); [| done | widths_lia]. simpl in Hlt.
    pose proof (minted_value_bounds atoms (u_bits (atoms_per_share t))).
    assert (u_bits m * u_bits (atoms_per_share t)
            <= atoms * ATOM / u_bits (atoms_per_share t) * u_bits (atoms_per_share t))
      by (apply Z.mul_le_mono_nonneg_r; widths_lia).
    destruct (shares_have_atoms t m RoundUp atoms) as (k & Hk & Hb & He);
      [done | done | done | widths_lia |].
    rewrite Hk in Hconv. injection Hconv as <-. split; [done |].
    set (v := u_bits m * _) in *.
    pose proof (ceil64_bounds (v / 2 ^ 64)). div_bounds v (2 ^ 64). widths_lia.
Qed.

(** A repayment of at most [atoms] against at most [max_shares] of debt takes no more
    than [atoms], burns no more than [max_shares], reduces the pool by exactly the shares
    burnt, and what it takes covers the value it burns up to [2 ^ -64] of an atom. *)
Theorem repay_is_bounded_and_covered t atoms m n s t' :
  tracker_ok t -> is_u64 atoms -> u_ok m ->
  withdraw_atoms_capped atoms m RoundUp t = (Ok (n, s), t') ->
  0 <= n <= atoms /\ u_bits s <= u_bits m /\
  u_bits (total_shares t') = u_bits (total_shares t) - u_bits s /\
  atoms_per_share t' = atoms_per_share t /\
  u_bits s * u_bits (atoms_per_share t) < n * ATOM + 2 ^ 64.
Proof.
  intros Ht Ha Hm H. pose proof (capped_bounds _ _ _ _ _ _ Ht Ha Hm H) as [Hn Hv].
  apply withdraw_atoms_capped_ok in H as (-> & _ & _ & Hsm & _);
    [| done | widths_lia | done]. tauto.
Qed.

Lemma net48_bounds t r fee :
  0 < pool_atoms t -> 0 <= fee48 t r fee <= i_bits (rate r) * pool_atoms t ->
  0 <= net48 t r fee /\
  net48 t r fee * pool_atoms t + fee48 t r fee <= i_bits (rate r) * pool_atoms t.
Proof.
  intros Ha Hf. unfold net48.
  div_bounds (i_bits (rate r) * pool_atoms t - fee48 t r fee) (pool_atoms t).
  split; [apply div_nonneg; lia | lia].
Qed.

Lemma fee_run_shares_value t r fee s t' :
  fee_run t r fee s t' ->
  u_bits s * u_bits (atoms_per_share t') <= fee48 t r fee * 2 ^ 80.
Proof.
  intros [_ _ _ Hpos Haps Hsh _ _ _]. rewrite Hsh, Haps.
  div_bounds (fee48 t r fee * 2 ^ 48) (price48 t'). lia.
Qed.

(** The net interest on the old shares: the old value times the net rate. *)
Lemma fee_run_old_value t r fee s t' :
  tracker_ok t -> fee_run t r fee s t' ->
  2 ^ 48 * (u_bits (total_shares t) * u_bits (atoms_per_share t'))
  <= (2 ^ 48 + net48 t r fee) * value t.
Proof.
  intros Ht [Hat Hfee Hpr _ Haps _ _ _ _]. pose proof (price48_bounds t Ht) as [Hp0 Hp].
  destruct (net48_bounds t r fee) as [Hn _]; [done | done |].
  rewrite Haps, Hpr. unfold value.
  div_bounds (net48 t r fee * price48 t) (2 ^ 48).
  set (d := net48 t r fee * price48 t / 2 ^ 48) in *.
  assert (Hle : 2 ^ 48 * (2 ^ 16 * (price48 t + d))
                <= (2 ^ 48 + net48 t r fee) * u_bits (atoms_per_share t)) by nia.
  destruct Ht as [[Hs _] _].
  apply (Z.mul_le_mono_nonneg_l _ _ _ Hs) in Hle. lia.
Qed.

Lemma fee_run_value t r fee s t' :
  tracker_ok t -> fee_run t r fee s t' ->
  2 ^ 48 * value t' <= (2 ^ 48 + i_bits (rate r)) * value t.
Proof.
  intros Ht Hrun. pose proof (fee_run_old_value _ _ _ _ _ Ht Hrun) as Hold.
  pose proof (fee_run_shares_value _ _ _ _ _ Hrun) as Hnew.
  destruct Hrun as [Hat Hfee _ _ _ _ Htot _ _].
  destruct (net48_bounds t r fee) as [Hn Hle]; [done | done |].
  unfold value at 1. rewrite Htot.
  assert (Hv : pool_atoms t * ATOM <= value t)
    by (pose proof ATOM_pos; unfold pool_atoms; div_bounds (value t) ATOM; lia).
  unfold ATOM in *.
  (* net * value + 2 ^ 128 * fee <= rate * value, from net * atoms + fee <= rate * atoms *)
  assert (Hg : net48 t r fee * value t + 2 ^ 128 * fee48 t r fee
               <= i_bits (rate r) * value t).
  { assert (Hd : 0 <= i_bits (rate r) - net48 t r fee) by nia.
    apply (Z.mul_le_mono_nonneg_l _ _ _ Hd) in Hv. lia. }
  lia.
Qed.

(** Charging interest with a fee creates no value out of nothing: at a rate that is
    not negative and a fee of at most one, the value of the pool grows by at most the
    rate, fee shares included; the shares minted are worth at most the fee; and no share
    loses more than the sixteen bits that the conversion drops. *)
Theorem interest_with_fee_conserves_value t r fee s t' :
  tracker_ok t -> 0 <= i_bits (rate r) -> 0 <= u_bits fee <= 2 ^ 64 ->
  apply_interest_rate_with_fee r fee t = (Ok s, t') ->
  tracker_ok t' /\
  2 ^ 48 * value t' <= (2 ^ 48 + i_bits (rate r)) * value t /\
  u_bits s * u_bits (atoms_per_share t') <= fee48 t r fee * 2 ^ 80 /\
  u_bits (total_shares t') = u_bits (total_shares t) + u_bits s /\
  u_bits (atoms_per_share t) - 2 ^ 16 < u_bits (atoms_per_share t').
Proof.
  intros Ht Hr Hf H.
  apply apply_interest_rate_with_fee_ok in H as [(Hz & -> & ->) | Hrun];
    [| | done..].
  { split; [done |].
    assert (fee48 t r fee = 0) by (unfold fee48; rewrite Hz, Z.mul_0_r; reflexivity).
    assert (0 <= value t) by (destruct Ht; apply Z.mul_nonneg_nonneg; widths_lia).
    simpl. repeat split; widths_lia. }
  pose proof Hrun as []. pose proof (price48_bounds t Ht).
  split; [done |]. split; [by apply fee_run_value with fee s |].
  split; [by apply fee_run_shares_value |]. split; [done |].
  destruct (net48_bounds t r fee) as [Hn _]; [done | done |].
  assert (0 <= net48 t r fee * price48 t / 2 ^ 48) by (apply div_nonneg; nia).
  widths_lia.
Qed.

(** Interest without a fee: the price of a share, and so the value of the pool, grows
    by at most the rate, and falls short of it by less than [2 ^ -47] atoms per share. *)
Theorem interest_is_the_rate_rounded_down t r t' :
  tracker_ok t -> 0 <= i_bits (rate r) -> u_bits (total_shares t) <> 0 ->
  apply_interest_rate r t = (Ok tt, t') ->
  tracker_ok t' /\ total_shares t' = total_shares t /\
  2 ^ 48 * u_bits (atoms_per_share t')
    <= (2 ^ 48 + i_bits (rate r)) * u_bits (atoms_per_share t) /\
  (2 ^ 48 + i_bits (rate r)) * (u_bits (atoms_per_share t) - 2 ^ 16)
    < 2 ^ 48 * (u_bits (atoms_per_share t') + 2 ^ 16).
Proof.
  intros Ht Hr Hnz H.
  apply apply_interest_rate_ok in H as [[] | (_ & -> & Ht')]; [done | | done..].
  pose proof (price48_bounds t Ht) as [Hp0 Hp].
  do 2 (split; [done |]). simpl.
  div_bounds (i_bits (rate r) * price48 t) (2 ^ 48).
  set (d := i_bits (rate r) * price48 t / 2 ^ 48) in *. nia.
Qed.

(** A donation and a socialised loss move the value of the pool by the atoms named,
    rounded in favour of the pool's solvency by less than the number of shares; a pool
    without shares refuses both and keeps its price. *)
Theorem donation_and_loss_are_exact t atoms :
  tracker_ok t -> 0 <= atoms ->
  (u_bits (total_shares t) = 0 ->
   donate_atoms atoms t = (Err CantModifySharePriceIfZeroShares, t) /\
   socialize_loss_atoms atoms t = (Err CantModifySharePriceIfZeroShares, t)) /\
  (forall t', donate_atoms atoms t = (Ok tt, t') ->
   total_shares t' = total_shares t /\
   value t + atoms * ATOM - u_bits (total_shares t) < value t' <= value t + atoms * ATOM) /\
  (forall t', socialize_loss_atoms atoms t = (Ok tt, t') ->
   total_shares t' = total_shares t /\
   value t - atoms * ATOM <= value t' < value t - atoms * ATOM + u_bits (total_shares t)).
Proof.
  intros Ht Ha. split; [| split].
  - intros Hz. unfold donate_atoms, socialize_loss_atoms, st_bind, st_get, st_guard,
      u_is_zero. by rewrite Hz.
  - intros t' H. apply donate_atoms_ok in H as (Hs & -> & _); [| done..].
    split; [done |]. unfold value. simpl.
    div_bounds (atoms * ATOM) (u_bits (total_shares t)). lia.
  - intros t' H. apply socialize_loss_atoms_ok in H as (Hs & -> & _); [| done..].
    split; [done |]. unfold value. simpl.
    div_bounds (atoms * ATOM) (u_bits (total_shares t)). lia.
Qed.

End Props.

(** ** Concrete runs *)

(** A pool of a thousand shares worth one and a half atoms each. *)
Definition pool_1500 : SharesTracker :=
  {| total_shares := UFP (1000 * 2 ^ 64); atoms_per_share := UFP (3 * 2 ^ 63) |}.

Lemma pool_1500_ok : tracker_ok pool_1500.
Proof. repeat split; vm_compute; discriminate. Qed.

Lemma deposit_then_withdraw_witness :
  exists s t1 n,
  deposit_atoms (FX := fixed_ref) 7 pool_1500 = (Ok s, t1) /\
  withdraw_shares (FX := fixed_ref) s RoundDown t1 = (Ok n, pool_1500) /\ 6 <= n <= 7.
Proof.
  eexists _, _.
  edestruct (deposit_then_withdraw_never_profits (FX := fixed_ref)
    (FXL := fixed_ref_laws) pool_1500 7) as (n & Hn & Hb).
  - apply pool_1500_ok.
  - split; vm_compute; discriminate.
  - vm_compute. reflexivity.
  - exists n. split; [vm_compute; reflexivity | split; [exact Hn | exact Hb]].
Defined.

Lemma borrow_then_repay_witness :
  exists s t1,
  deposit_atoms (FX := fixed_ref) 7 pool_1500 = (Ok s, t1) /\
  withdraw_shares (FX := fixed_ref) s RoundUp t1 = (Ok 7, pool_1500).
Proof.
  eexists _, _. split; [vm_compute; reflexivity |].
  apply (borrow_then_repay_is_exact (FX := fixed_ref) (FXL := fixed_ref_laws)).
  - apply pool_1500_ok.
  - split; vm_compute; discriminate.
  - vm_compute. discriminate.
  - vm_compute. reflexivity.
Defined.

Lemma repay_is_bounded_witness :
  exists n s t', withdraw_atoms_capped (FX := fixed_ref) 100 (u_from_u64 5) RoundUp pool_1500
    = (Ok (n, s), t') /\ 0 <= n <= 100.
Proof.
  eexists _, _, _. split; [vm_compute; reflexivity |].
  eapply (repay_is_bounded_and_covered (FX := fixed_ref) (FXL := fixed_ref_laws)
    pool_1500 100 (u_from_u64 5)).
  - apply pool_1500_ok.
  - split; vm_compute; discriminate.
  - split; vm_compute; discriminate.
  - vm_compute. reflexivity.
Defined.

Lemma interest_with_fee_witness :
  exists s t', apply_interest_rate_with_fee (FX := fixed_ref)
      (mkInterestRate (IFP (2 ^ 47))) (UFP (2 ^ 61)) pool_1500 = (Ok s, t') /\
    tracker_ok t'.
Proof.
  eexists _, _. split; [vm_compute; reflexivity |].
  eapply (interest_with_fee_conserves_value (FX := fixed_ref) (FXL := fixed_ref_laws)
    pool_1500 (mkInterestRate (IFP (2 ^ 47))) (UFP (2 ^ 61))).
  - apply pool_1500_ok.
  - vm_compute. discriminate.
  - split; vm_compute; discriminate.
  - vm_compute. reflexivity.
Defined.

Lemma interest_is_the_rate_witness :
  exists t', apply_interest_rate (FX := fixed_ref)
      (mkInterestRate (IFP (2 ^ 47))) pool_1500 = (Ok tt, t') /\ tracker_ok t'.
Proof.
  eexists _. split; [vm_compute; reflexivity |].
  eapply (interest_is_the_rate_rounded_down (FX := fixed_ref) (FXL := fixed_ref_laws)
    pool_1500 (mkInterestRate (IFP (2 ^ 47)))).
  - apply pool_1500_ok.
  - vm_compute. discriminate.
  - vm_compute. discriminate.
  - vm_compute. reflexivity.
Defined.

Lemma donation_and_loss_witness :
  exists t', donate_atoms (FX := fixed_ref) 10 pool_1500 = (Ok tt, t') /\
    value t' <= value pool_1500 + 10 * ATOM.
Proof.
  destruct (donation_and_loss_are_exact (FX := fixed_ref) (FXL := fixed_ref_laws)
    pool_1500 10) as (_ & Hd & _); [apply pool_1500_ok | lia |].
  eexists. split; [vm_compute; reflexivity |].
  eapply Hd. vm_compute. reflexivity.
Defined.
