(* ===== verification/Exp.v ===== *)
(** * The exponential of a signed fixed point number

    [IFixedPoint::checked_exp] of [autara-lib/src/math/ifixed_point.rs]. *)
From S2P Require Import Prelude.
From S2P Require Import Errors.
From S2P Require Import Monad.
From S2P Require Import FixedPoint.
From S2P Require Import FixedFacts.

Definition MIN_EXP_ARG : IFixedPoint := from_i64_u64_ratio (-3321) 100.
Definition MAX_EXP_ARG : IFixedPoint := from_i64_u64_ratio 5475 100.
Definition LN_2 : IFixedPoint :=
  from_i64_u64_ratio 693147180559945309 1000000000000000000.
Definition LN_2_DIV_2 : IFixedPoint :=
  from_i64_u64_ratio 693147180559945309 2000000000000000000.

Section Ops.
Context {FX : FixedCrate}.

(** The body of the loop [for n in 2u64..7], over the values of [n] still to do. *)
Fixpoint exp_loop (fixed : IFixedPoint) (ns : list Z) (term exp_fixed : IFixedPoint)
  : Res IFixedPoint :=
  match ns with
  | [] => Ok exp_fixed
  | n :: ns =>
    let? m := safe_mul fixed term in
    let? term := safe_div m n in
    let? exp_fixed := safe_add exp_fixed term in
    exp_loop fixed ns term exp_fixed
  end.

Definition exp_7_terms (fixed : IFixedPoint) : Res IFixedPoint :=
  let? exp_fixed := safe_add fixed i_one in
  exp_loop fixed [2; 3; 4; 5; 6] fixed exp_fixed.

Definition checked_exp (self : IFixedPoint) : Res IFixedPoint :=
  if i_leb self MIN_EXP_ARG then Ok i_zero
  else if i_ltb MAX_EXP_ARG self then Err InvalidExpArg
  else
    let rounding := if is_negative self then ifixed_neg LN_2_DIV_2 else LN_2_DIV_2 in
    let? sum := safe_add self rounding in
    let? quotient := safe_div sum LN_2 in
    let? q := i_checked_to_i32 quotient in
    let? q_ln_2 := safe_mul (i_from_i64 q) LN_2 in
    let? r := safe_sub self q_ln_2 in
    let? exp_r := exp_7_terms r in
    ok_or MathOverflow (i_checked_shift exp_r q).

End Ops.

(** * Facts about the exponential

    [checked_exp] writes its argument as [q * ln 2 + r] and evaluates seven terms of the
    series at [r].  The facts bound [q] and [r] for either sign of the argument, bound the
    terms, and conclude that no step overflows on the whole domain. *)

(** The constants of the source, as patterns. *)
Definition L2 : Z := 195103586505167.
Definition H2 : Z := 97551793252583.
Definition MINX : Z := -9347783976560885.
Definition MAXX : Z := 15410754974908416.

Lemma LN_2_bits : LN_2 = IFP L2.
Proof. vm_compute. reflexivity. Qed.
Lemma LN_2_DIV_2_bits : LN_2_DIV_2 = IFP H2.
Proof. vm_compute. reflexivity. Qed.
Lemma MIN_EXP_ARG_bits : MIN_EXP_ARG = IFP MINX.
Proof. vm_compute. reflexivity. Qed.
Lemma MAX_EXP_ARG_bits : MAX_EXP_ARG = IFP MAXX.
Proof. vm_compute. reflexivity. Qed.

#[global] Hint Unfold L2 H2 MINX MAXX : widths.

Section Facts.
Context {FX : FixedCrate} {FXL : FixedLaws FX}.

Lemma i_add_small (a b : Z) :
  I128_MIN <= a + b <= I128_MAX -> safe_add (IFP a) (IFP b) = Ok (IFP (a + b)).
Proof. intros H. by apply i_add_ok. Qed.

Lemma i_sub_small (a b : Z) :
  I128_MIN <= a - b <= I128_MAX -> safe_sub (IFP a) (IFP b) = Ok (IFP (a - b)).
Proof. intros H. by apply i_sub_ok. Qed.

Lemma i_div_u64_eq (a n : Z) : n <> 0 -> safe_div (IFP a) n = Ok (IFP (Z.quot a n)).
Proof. intros H. by apply i_div_u64_ok. Qed.

(** A product of small factors exists and is a rounding of the exact one. *)
Lemma i_mul_small (a b : Z) :
  Z.abs (a * b) <= 2 ^ 150 ->
  exists r, safe_mul (IFP a) (IFP b) = Ok (IFP r) /\ rounds_to (a * b) (2 ^ 48) r.
Proof.
  intros H. destruct (i_mul_cases (IFP a) (IFP b)) as (r & Hr & ->). simpl in *.
  exists r. split; [| done]. destruct Hr as [_ Hr]. unfold fmt_check, check_range. simpl.
  rewrite (proj2 (in_range_spec _ _ _)); [done | widths_lia].
Qed.

Lemma i_div_small (a b : Z) :
  0 < b -> Z.abs a <= 2 ^ 70 ->
  exists r, safe_div (IFP a) (IFP b) = Ok (IFP r) /\ rounds_to (a * 2 ^ 48) b r.
Proof.
  intros Hb H. destruct (i_div_cases (IFP a) (IFP b)) as (r & Hr & ->); [simpl; lia |].
  simpl in Hr. rewrite Z.sgn_pos, Z.mul_1_l, Z.abs_eq in Hr by lia.
  exists r. split; [| done]. destruct Hr as [_ Hr]. unfold fmt_check, check_range. simpl.
  rewrite (proj2 (in_range_spec _ _ _)); [done |].
  assert (Z.abs r <= 2 ^ 70 * 2 ^ 48 + 1) by nia. widths_lia.
Qed.

(** One turn of the loop: the next term is at most [r / n] times the term, up to the
    rounding, and keeps the sign for a positive [r]. *)
Lemma exp_term (r term n R : Z) :
  2 <= n -> Z.abs r <= R -> R <= 2 ^ 49 -> Z.abs term <= 2 ^ 50 ->
  exists m t', safe_mul (IFP r) (IFP term) = Ok (IFP m) /\
    safe_div (IFP m) n = Ok (IFP t') /\
    2 ^ 48 * (n * Z.abs t') <= R * Z.abs term + 2 ^ 48 /\
    (0 <= r -> 0 <= term -> 0 <= t' /\ 2 ^ 48 * (n * t') <= R * term).
Proof.
  intros Hn Hr HR Ht.
  assert (Habs : Z.abs (r * term) <= R * Z.abs term) by (rewrite Z.abs_mul; nia).
  destruct (i_mul_small r term) as (m & Hm & Hround); [nia |].
  exists m, (Z.quot m n). split; [done |]. split; [apply i_div_u64_ok; split; [lia | done] |].
  destruct Hround as [Hfloor Hclose].
  assert (Hq : n * Z.abs (Z.quot m n) <= Z.abs m).
  { rewrite <- Z.quot_abs by lia. rewrite (Z.abs_eq n) by lia.
    rewrite Z.quot_div_nonneg by lia. apply Z.mul_div_le. lia. }
  split; [nia |]. intros Hr0 Ht0. rewrite Hfloor in * by nia.
  div_bounds (r * term) (2 ^ 48).
  assert (0 <= r * term / 2 ^ 48) by (apply div_nonneg; nia).
  rewrite Z.quot_div_nonneg in * by lia.
  split; [apply div_nonneg; lia |].
  pose proof (Z.mul_div_le (r * term / 2 ^ 48) n ltac:(lia)). nia.
Qed.

(** The loop at a small argument of either sign: the terms decrease geometrically. *)
Lemma exp_loop_small (r : Z) ns : forall term acc : Z,
  100 * Z.abs r <= 36 * 2 ^ 48 -> Forall (fun n => 2 <= n) ns ->
  Z.abs term <= 2 ^ 48 -> Z.abs acc + (Z.of_nat (length ns)) * 2 ^ 49 <= 2 ^ 60 ->
  exists e, exp_loop (IFP r) ns (IFP term) (IFP acc) = Ok (IFP e) /\
    4 * Z.abs (e - acc) <= Z.abs term + 4 * Z.of_nat (length ns).
Proof.
  intros term acc Hr. revert term acc.
  induction ns as [| n ns IH]; intros term acc Hns Ht Hacc.
  { exists acc. split; [done | simpl; lia]. }
  inversion Hns as [| ? ? Hn Hns']; subst; clear Hns; rename Hns' into Hns.
  destruct (exp_term r term n (Z.abs r)) as (m & t' & Hm & Hd & Hb & _); [lia..|].
  assert (Ht' : 100 * Z.abs t' <= 18 * Z.abs term + 50) by nia.
  cbn [exp_loop]. rewrite Hm. cbn [res_bind]. rewrite Hd. cbn [res_bind].
  rewrite i_add_small by (cbn [length] in Hacc; widths_lia). cbn [res_bind].
  destruct (IH t' (acc + t')) as (e & He & Hdist); [done | lia | cbn [length] in Hacc; lia |].
  exists e. split; [done |]. cbn [length]. lia.
Qed.

(** The loop at an argument between zero and two: every term is positive. *)
Lemma exp_loop_pos (r : Z) ns : forall term acc : Z,
  0 <= r <= 2 ^ 49 -> Forall (fun n => 2 <= n) ns ->
  0 <= term <= 2 ^ 50 -> 0 <= acc -> acc + (Z.of_nat (length ns)) * 2 ^ 50 <= 2 ^ 60 ->
  exists e, exp_loop (IFP r) ns (IFP term) (IFP acc) = Ok (IFP e) /\
    acc <= e <= acc + Z.of_nat (length ns) * term.
Proof.
  intros term acc Hr. revert term acc.
  induction ns as [| n ns IH]; intros term acc Hns Ht Ha Hacc.
  { exists acc. split; [done | simpl; lia]. }
  inversion Hns as [| ? ? Hn Hns']; subst; clear Hns; rename Hns' into Hns.
  destruct (exp_term r term n (2 ^ 49)) as (m & t' & Hm & Hd & _ & Hb); [lia..|].
  destruct Hb as [Ht0 Hb]; [lia | lia |].
  assert (Ht' : t' <= term) by nia.
  cbn [exp_loop]. rewrite Hm. cbn [res_bind]. rewrite Hd. cbn [res_bind].
  rewrite i_add_small by (cbn [length] in Hacc; widths_lia). cbn [res_bind].
  destruct (IH t' (acc + t')) as (e & He & Hdist);
    [done | lia | lia | cbn [length] in Hacc; lia |].
  exists e. split; [done |]. cbn [length]. nia.
Qed.

Lemma loop_indices : Forall (fun n => 2 <= n) [2; 3; 4; 5; 6].
Proof. repeat constructor; lia. Qed.

Lemma exp_7_terms_eq (r : Z) :
  Z.abs r <= 2 ^ 50 ->
  exp_7_terms (IFP r) = exp_loop (IFP r) [2; 3; 4; 5; 6] (IFP r) (IFP (2 ^ 48 + r)).
Proof.
  intros Hr. unfold exp_7_terms, i_one, i_from_u64. rewrite i_add_small by widths_lia.
  replace (r + 1 * 2 ^ 48) with (2 ^ 48 + r) by lia. done.
Qed.

Lemma exp_7_terms_small (r : Z) :
  100 * Z.abs r <= 36 * 2 ^ 48 ->
  exists e, exp_7_terms (IFP r) = Ok (IFP e) /\
    4 * Z.abs (e - (2 ^ 48 + r)) <= Z.abs r + 20.
Proof.
  intros Hr. rewrite exp_7_terms_eq by lia.
  apply (exp_loop_small r [2; 3; 4; 5; 6]); [lia | apply loop_indices | simpl; lia..].
Qed.

Lemma exp_7_terms_pos (r : Z) :
  0 <= r <= 2 ^ 49 ->
  exists e, exp_7_terms (IFP r) = Ok (IFP e) /\ 2 ^ 48 + r <= e <= 2 ^ 48 + 6 * r.
Proof.
  intros Hr. rewrite exp_7_terms_eq by lia.
  destruct (exp_loop_pos r [2; 3; 4; 5; 6] r (2 ^ 48 + r)) as (e & He & Hb);
    [lia | apply loop_indices | simpl; lia.. |].
  exists e. split; [done | simpl in Hb; lia].
Qed.

(** ** Shifts *)

(** A left shift that fits is exact. *)
Lemma i_checked_shift_left (b q : Z) :
  0 <= q < 128 -> 0 <= b -> b * 2 ^ q <= I128_MAX ->
  i_checked_shift (IFP b) q = Some (IFP (b * 2 ^ q)).
Proof.
  intros Hq Hb Hfit. unfold i_checked_shift. destruct (q <? 0) eqn:E; bool_prop; [lia |].
  cbn [i_bits]. rewrite fx_shl_spec by lia. rewrite (proj2 (Z.ltb_lt q 128)) by lia.
  assert (0 < 2 ^ q) by (apply Z.pow_pos_nonneg; lia).
  assert (Hw : fmt_wrap I80F48 (b * 2 ^ q) = b * 2 ^ q)
    by (unfold fmt_wrap; simpl fmt_min; rewrite Z.mod_small; widths_lia).
  rewrite Hw, fx_shr_spec by lia. rewrite (proj2 (Z.ltb_lt q 128)) by lia.
  rewrite Z.div_mul by lia. rewrite bool_decide_true; done.
Qed.

Lemma i_checked_shift_right (b q : Z) :
  - 128 < q < 0 -> i_checked_shift (IFP b) q = Some (IFP (b / 2 ^ (- q))).
Proof.
  intros Hq. unfold i_checked_shift. rewrite (proj2 (Z.ltb_lt q 0)) by lia.
  cbn [i_bits]. rewrite fx_shr_spec by lia. by rewrite (proj2 (Z.ltb_lt (- q) 128)) by lia.
Qed.

(** ** Range reduction *)

(** The quotient and the remainder computed for an argument in the domain. *)
Lemma reduce (x h : Z) :
  MINX <= x <= MAXX -> (0 <= x /\ h = H2) \/ (x < 0 /\ h = - H2) ->
  exists v q m, safe_add (IFP x) (IFP h) = Ok (IFP (x + h)) /\
    safe_div (IFP (x + h)) LN_2 = Ok (IFP v) /\
    i_checked_to_i32 (IFP v) = Ok q /\
    safe_mul (i_from_i64 q) LN_2 = Ok m /\
    safe_sub (IFP x) m = Ok (IFP (x - q * L2)) /\
    q * L2 <= x + h < q * L2 + L2.
Proof.
  intros Hx Hh. rewrite LN_2_bits.
  destruct (i_div_small (x + h) L2) as (v & Hv & Hround); [widths_lia | widths_lia |].
  exists v, (v / 2 ^ 48).
  assert (Hq : v / 2 ^ 48 * L2 <= x + h < v / 2 ^ 48 * L2 + L2).
  { div_bounds v (2 ^ 48). destruct Hround as [_ Hround]. widths_lia. }
  set (q := v / 2 ^ 48) in *.
  assert (Hqb : - 60 <= q <= 90) by widths_lia.
  destruct (i_mul_small (q * 2 ^ 48) L2) as (m & Hm & Hmr); [widths_lia |].
  assert (Hmv : m = q * L2) by (destruct Hmr as [_ Hmr]; widths_lia). subst m.
  exists (IFP (q * L2)). repeat split; try lia.
  - apply i_add_small. widths_lia.
  - done.
  - unfold i_checked_to_i32. rewrite fx_to_int_spec. simpl fmt_frac. cbn [i_bits].
    fold q. unfold check_range. rewrite (proj2 (in_range_spec _ _ _)); [done | widths_lia].
  - done.
  - apply i_sub_small. widths_lia.
Qed.

(** ** The whole domain *)

Lemma checked_exp_reduced (x h : Z) :
  MINX < x <= MAXX -> (0 <= x /\ h = H2) \/ (x < 0 /\ h = - H2) ->
  exists q, q * L2 <= x + h < q * L2 + L2 /\
  checked_exp (IFP x) =
    (let? exp_r := exp_7_terms (IFP (x - q * L2)) in
     ok_or MathOverflow (i_checked_shift exp_r q)).
Proof.
  intros Hx Hh. destruct (reduce x h) as (v & q & m & Ha & Hd & Hc & Hm & Hs & Hq);
    [lia | done |].
  exists q. split; [done |]. unfold checked_exp, i_leb, i_ltb, is_negative.
  rewrite MIN_EXP_ARG_bits, MAX_EXP_ARG_bits, LN_2_DIV_2_bits. cbn [i_bits].
  rewrite (proj2 (Z.leb_gt x MINX)), (proj2 (Z.ltb_ge MAXX x)) by lia.
  assert (Hsel : (if x <? 0 then ifixed_neg (IFP H2) else IFP H2) = IFP h).
  { destruct Hh as [[Hx0 ->] | [Hx0 ->]].
    - by rewrite (proj2 (Z.ltb_ge x 0)) by lia.
    - rewrite (proj2 (Z.ltb_lt x 0)) by lia. unfold ifixed_neg. cbn [i_bits].
      rewrite fx_neg_spec; [done | simpl; widths_lia]. }
  rewrite Hsel, Ha. cbn [res_bind]. rewrite Hd. cbn [res_bind]. rewrite Hc.
  cbn [res_bind]. rewrite Hm. cbn [res_bind]. by rewrite Hs.
Qed.

(** Between zero and half of [ln 2] the result is the series itself. *)
Lemma checked_exp_near_zero (x : Z) :
  0 <= x < L2 - H2 ->
  exists y, checked_exp (IFP x) = Ok (IFP y) /\ 2 ^ 48 + x <= y <= 2 ^ 48 + 6 * x.
Proof.
  intros Hx. destruct (checked_exp_reduced x H2) as (q & Hq & ->); [widths_lia | lia |].
  assert (q = 0) by widths_lia. subst q. rewrite Z.mul_0_l, Z.sub_0_r.
  destruct (exp_7_terms_pos x) as (e & -> & Hb); [widths_lia |].
  exists e. cbn [res_bind]. rewrite i_checked_shift_left by widths_lia.
  rewrite Z.mul_1_r. done.
Qed.

Lemma pow2_le (a b : Z) : 0 <= a <= b -> 0 < 2 ^ a <= 2 ^ b.
Proof. intros H. split; [apply Z.pow_pos_nonneg; lia | apply Z.pow_le_mono_r; lia]. Qed.

Lemma checked_exp_nonneg (x : Z) :
  0 <= x <= MAXX ->
  exists y, checked_exp (IFP x) = Ok (IFP y) /\ 2 ^ 48 <= y <= I128_MAX.
Proof.
  intros Hx. destruct (Z.lt_ge_cases x (L2 - H2)) as [Hs | Hl].
  { destruct (checked_exp_near_zero x) as (y & Hy & Hb); [lia |].
    exists y. split; [done | widths_lia]. }
  destruct (checked_exp_reduced x H2) as (q & Hq & ->); [widths_lia | lia |].
  assert (Hqb : 1 <= q <= 79) by widths_lia.
  destruct (exp_7_terms_small (x - q * L2)) as (e & -> & He); [widths_lia |].
  cbn [res_bind]. assert (Hpow := pow2_le 1 q ltac:(lia)).
  assert (Hfit : 2 ^ 47 <= e /\ e * 2 ^ q <= I128_MAX).
  { split; [widths_lia |]. destruct (Z.eq_dec q 79) as [-> | Hne].
    - assert (e < 2 ^ 48) by widths_lia. widths_lia.
    - assert (Hp78 := pow2_le q 78 ltac:(lia)).
      assert (0 <= e < 2 ^ 49) by widths_lia.
      assert (e * 2 ^ q <= (2 ^ 49 - 1) * 2 ^ 78) by (apply Z.mul_le_mono_nonneg; lia).
      widths_lia. }
  assert (2 ^ 47 * 2 ^ 1 <= e * 2 ^ q) by (apply Z.mul_le_mono_nonneg; lia).
  exists (e * 2 ^ q). rewrite i_checked_shift_left by lia. split; [done |]. widths_lia.
Qed.

Lemma checked_exp_neg (x : Z) :
  MINX < x < 0 ->
  exists y, checked_exp (IFP x) = Ok (IFP y) /\ 0 <= y <= 2 ^ 51.
Proof.
  intros Hx. destruct (checked_exp_reduced x (- H2)) as (q & Hq & ->); [widths_lia | lia |].
  assert (Hqb : - 60 <= q <= -1) by widths_lia.
  destruct (exp_7_terms_pos (x - q * L2)) as (e & -> & He); [widths_lia |].
  cbn [res_bind]. rewrite i_checked_shift_right by lia. eexists. split; [done |].
  assert (Hp := pow2_le 0 (- q) ltac:(lia)).
  split; [apply div_nonneg; lia |]. assert (e <= 2 ^ 51) by widths_lia.
  apply div_le_upper; [lia |]. set (p := 2 ^ (- q)) in *. lia.
Qed.

(** Arguments clamped to the domain always have a result. *)
Lemma checked_exp_clamped (x : Z) :
  MINX <= x <= MAXX ->
  exists y, checked_exp (IFP x) = Ok (IFP y) /\ 0 <= y <= I128_MAX.
Proof.
  intros Hx. destruct (Z.eq_dec x MINX) as [-> | Hne]; [| destruct (Z.lt_ge_cases x 0)].
  - exists 0. split; [vm_compute; reflexivity | widths_lia].
  - destruct (checked_exp_neg x) as (y & Hy & Hb); [lia |].
    exists y. split; [done | widths_lia].
  - destruct (checked_exp_nonneg x) as (y & Hy & Hb); [lia |].
    exists y. split; [done | widths_lia].
Qed.

End Facts.
