(* ===== verification/InterestRatePerSecond.v ===== *)
(** * Interest per second and its compounding

    [autara-lib/src/interest_rate/interest_rate_per_second.rs],
    [lending_interest_rate.rs] and the time constants of [constant.rs].  The conversions
    from and to [f64] serve clients and tests and are not modelled. *)
From S2P Require Import Prelude.
From S2P Require Import Errors.
From S2P Require Import Monad.
From S2P Require Import FixedPoint.
From S2P Require Import FixedFacts.
From S2P Require Import SharesTracker.
From S2P Require Import Exp.

Definition DAYS_PER_YEAR : Z := 365.
Definition SECOND_PER_HOUR : Z := 60 * 60.
Definition SECONDS_PER_DAY : Z := 24 * SECOND_PER_HOUR.
Definition SECONDS_PER_YEAR : Z := DAYS_PER_YEAR * SECONDS_PER_DAY.

Record InterestRatePerSecond : Type := mkRatePerSecond { per_second : IFixedPoint }.

#[global] Instance InterestRatePerSecond_eq_dec : EqDecision InterestRatePerSecond.
Proof. solve_decision. Defined.

(** [InterestRatePerSecond::const_from_apr]: [i128] division. *)
Definition const_from_apr (apr : IFixedPoint) : InterestRatePerSecond :=
  mkRatePerSecond (IFP (Z.quot (i_bits apr) SECONDS_PER_YEAR)).

(** [Ord::clamp] of the derived order. *)
Definition rate_clamp (x lo hi : InterestRatePerSecond) : InterestRatePerSecond :=
  if i_ltb (per_second x) (per_second lo) then lo
  else if i_ltb (per_second hi) (per_second x) then hi else x.

Record MarketBorrowRateParameters : Type := {
  utilisation_rate : IFixedPoint;
  elapsed_seconds_since_last_update : Z }.

Section Ops.
Context {FX : FixedCrate}.

Definition from_apr (apr : IFixedPoint) : Res InterestRatePerSecond :=
  res_map mkRatePerSecond (expect (safe_div apr SECONDS_PER_YEAR)).

Definition coumpounding_interest_rate_during_elapsed_seconds
  (self : InterestRatePerSecond) (elapsed_seconds : Z) : Res InterestRate :=
  let? x := safe_mul (per_second self) elapsed_seconds in
  let? e := checked_exp x in
  res_map mkInterestRate (safe_sub e 1).

(** [InterestRatePerSecond::adjust_for_utilisation_rate] *)
Definition per_second_adjust_for_utilisation_rate (self : InterestRatePerSecond)
  (utilisation : IFixedPoint) : Res InterestRatePerSecond :=
  res_map mkRatePerSecond (safe_mul (per_second self) utilisation).

Definition utilisation_rate_bps (self : MarketBorrowRateParameters) : Res Z :=
  let? x := safe_mul (utilisation_rate self) ONE_IN_BPS in
  let? n := i_as_u64_rounded_down x in
  ok_or CastOverflow (check_range 0 U32_MAX n).

End Ops.

Section Props.
Context {FX : FixedCrate} {FXL : FixedLaws FX}.

(** C39: [checked_exp] is total on its documented domain: below it is zero, above it is
    [InvalidExpArg], and in between every argument has a result, which is not negative,
    and is at least one for an argument that is not negative. No argument overflows a
    step or panics. *)
Theorem checked_exp_total (x : IFixedPoint) :
  i_ok x ->
  (i_bits x <= i_bits MIN_EXP_ARG -> checked_exp x = Ok i_zero) /\
  (i_bits MAX_EXP_ARG < i_bits x -> checked_exp x = Err InvalidExpArg) /\
  (i_bits MIN_EXP_ARG < i_bits x <= i_bits MAX_EXP_ARG ->
   exists y, checked_exp x = Ok y /\ 0 <= i_bits y <= I128_MAX /\
   (0 <= i_bits x -> i_bits i_one <= i_bits y)).
Proof.
  destruct x as [x]. intros _. rewrite MIN_EXP_ARG_bits, MAX_EXP_ARG_bits. simpl.
  split; [| split].
  - intros H. unfold checked_exp, i_leb. rewrite MIN_EXP_ARG_bits. simpl.
    by rewrite (proj2 (Z.leb_le x MINX)) by done.
  - intros H. unfold checked_exp, i_leb, i_ltb.
    rewrite MIN_EXP_ARG_bits, MAX_EXP_ARG_bits. simpl.
    rewrite (proj2 (Z.leb_gt x MINX)) by widths_lia.
    by rewrite (proj2 (Z.ltb_lt MAXX x)) by lia.
  - intros H. destruct (Z.lt_ge_cases x 0) as [Hneg | Hpos].
    + destruct (checked_exp_neg x) as (y & Hy & Hb); [lia |].
      exists (IFP y). split; [done |]. simpl. widths_lia.
    + destruct (checked_exp_nonneg x) as (y & Hy & Hb); [lia |].
      exists (IFP y). split; [done |]. simpl. widths_lia.
Qed.

(** Interest over a period in which the exponent stays in the domain. *)
Lemma compounding_ok (r : InterestRatePerSecond) elapsed :
  0 <= i_bits (per_second r) -> 0 <= elapsed ->
  i_bits (per_second r) * elapsed <= MAXX ->
  exists ir, coumpounding_interest_rate_during_elapsed_seconds r elapsed = Ok ir /\
    0 <= i_bits (rate ir) <= I128_MAX /\
    (i_bits (per_second r) * elapsed < L2 - H2 ->
     i_bits (per_second r) * elapsed <= i_bits (rate ir)).
Proof.
  intros Hr He Hmax. set (x := i_bits (per_second r) * elapsed) in *.
  assert (Hx : 0 <= x) by (apply Z.mul_nonneg_nonneg; lia).
  unfold coumpounding_interest_rate_during_elapsed_seconds.
  rewrite (proj2 (i_mul_u64_ok (per_second r) elapsed (IFP x)))
    by (split; [done | fold x; widths_lia]). cbn [res_bind].
  assert (Hy : exists y, checked_exp (IFP x) = Ok (IFP y) /\ 2 ^ 48 <= y <= I128_MAX /\
               (x < L2 - H2 -> 2 ^ 48 + x <= y)).
  { destruct (Z.lt_ge_cases x (L2 - H2)).
    - destruct (checked_exp_near_zero x) as (y & -> & Hb); [lia |].
      exists y. split; [done | widths_lia].
    - destruct (checked_exp_nonneg x) as (y & -> & Hb); [lia |].
      exists y. split; [done | widths_lia]. }
  destruct Hy as (y & -> & Hb & Hlow). cbn [res_bind].
  assert (Hone : safe_sub (IFP y) 1 = Ok (IFP (y - 1 * 2 ^ 48)))
    by (apply i_sub_u64_ok; [widths_lia | split; [done | simpl; widths_lia]]).
  rewrite Hone.
  eexists. split; [reflexivity |]. simpl. widths_lia.
Qed.

(** A rate of interest that succeeds is not negative when the rate per second is not. *)
Lemma compounding_nonneg (r : InterestRatePerSecond) elapsed ir :
  0 <= i_bits (per_second r) -> 0 <= elapsed ->
  coumpounding_interest_rate_during_elapsed_seconds r elapsed = Ok ir ->
  0 <= i_bits (rate ir) <= I128_MAX.
Proof.
  intros Hr He H. destruct (Z.le_gt_cases (i_bits (per_second r) * elapsed) MAXX).
  - destruct (compounding_ok r elapsed) as (ir' & Heq & Hb & _); [done.. |]. congruence.
  - unfold coumpounding_interest_rate_during_elapsed_seconds in H. fixed_inv.
    unfold checked_exp, i_leb, i_ltb in *.
    rewrite MIN_EXP_ARG_bits, MAX_EXP_ARG_bits in *. simpl in *.
    rewrite (proj2 (Z.leb_gt _ MINX)) in * by widths_lia.
    by rewrite (proj2 (Z.ltb_lt MAXX _)) in * by lia.
Qed.

(** Compounding a rate that is not negative succeeds as long as rate times seconds is
    at most 54.75, the interest is then not negative, and up to half of [ln 2] it is at
    least the simple interest. *)
Theorem compounding_at_least_simple (r : InterestRatePerSecond) elapsed :
  0 <= i_bits (per_second r) -> 0 <= elapsed ->
  i_bits (per_second r) * elapsed <= i_bits MAX_EXP_ARG ->
  exists ir, coumpounding_interest_rate_during_elapsed_seconds r elapsed = Ok ir /\
    0 <= i_bits (rate ir) /\
    (i_bits (per_second r) * elapsed <= i_bits LN_2_DIV_2 ->
     i_bits (per_second r) * elapsed <= i_bits (rate ir)).
Proof.
  rewrite MAX_EXP_ARG_bits, LN_2_DIV_2_bits. simpl. intros Hr He Hm.
  destruct (compounding_ok r elapsed Hr He Hm) as (ir & Hir & Hb & Hs).
  exists ir. split; [done |]. split; [lia |]. intros. apply Hs. widths_lia.
Qed.

End Props.

Lemma checked_exp_total_witness :
  exists y, checked_exp (FX := fixed_ref) (IFP (2 ^ 48)) = Ok y /\
    i_bits i_one <= i_bits y.
Proof.
  destruct (checked_exp_total (FX := fixed_ref) (FXL := fixed_ref_laws) (IFP (2 ^ 48)))
    as (_ & _ & H).
  - split; vm_compute; discriminate.
  - destruct H as (y & Hy & _ & H1); [split; vm_compute; congruence |].
    exists y. split; [exact Hy | apply H1; vm_compute; discriminate].
Defined.

(** Ten percent a year over a year. *)
Lemma compounding_at_least_simple_witness :
  exists ir, coumpounding_interest_rate_during_elapsed_seconds (FX := fixed_ref)
    (const_from_apr (from_i64_u64_ratio 10 100)) SECONDS_PER_YEAR = Ok ir /\
    0 <= i_bits (rate ir).
Proof.
  destruct (compounding_at_least_simple (FX := fixed_ref) (FXL := fixed_ref_laws)
    (const_from_apr (from_i64_u64_ratio 10 100)) SECONDS_PER_YEAR)
    as (ir & H & Hb & _); [vm_compute; discriminate.. |].
  exists ir. split; [exact H | exact Hb].
Defined.
