(* ===== verification/Polyline.v ===== *)
(** * The polyline interest rate curve

    [autara-lib/src/interest_rate/curve/polyline.rs]. *)
From S2P Require Import Prelude.
From S2P Require Import Errors.
From S2P Require Import Monad.
From S2P Require Import FixedPoint.
From S2P Require Import FixedFacts.
From S2P Require Import InterestRatePerSecond.

Definition POLYLINE_MAX_POINTS : nat := 8.

Record PolylineInterestRatePoint : Type := mkPoint {
  utilization_rate_bps : Z;
  borrow_rate_bps : Z }.

#[global] Instance PolylineInterestRatePoint_eq_dec : EqDecision PolylineInterestRatePoint.
Proof. solve_decision. Defined.

(** [points: [PolylineInterestRatePoint; 8]] *)
Record PolylineInterestRateCurve : Type := mkPolyline {
  points_array : list PolylineInterestRatePoint }.

#[global] Instance PolylineInterestRateCurve_eq_dec : EqDecision PolylineInterestRateCurve.
Proof. solve_decision. Defined.

Inductive PolylineInterestRateCurveError : Type :=
| TooManyPoints | FirstPointInvalid | PointsNotInOrder.

Definition maybe_uninit (self : PolylineInterestRatePoint)
  : option PolylineInterestRatePoint :=
  if borrow_rate_bps self =? 0 then None else Some self.

(** [self.points.iter().map_while(|point| point.maybe_uninit())] *)
Fixpoint map_while_init (ps : list PolylineInterestRatePoint)
  : list PolylineInterestRatePoint :=
  match ps with
  | [] => []
  | p :: ps =>
    match maybe_uninit p with
    | Some p => p :: map_while_init ps
    | None => []
    end
  end.
Definition points (self : PolylineInterestRateCurve) : list PolylineInterestRatePoint :=
  map_while_init (points_array self).

(** The loop of [validate_points] over the points after the first one, with its three
    mutable variables. *)
Fixpoint validate_loop (ps : list PolylineInterestRatePoint) (reached_end : bool)
  (last_borrow_rate_bps last_utilization_rate_bps : Z)
  : PolylineInterestRateCurveError + () :=
  match ps with
  | [] => inr tt
  | p :: ps =>
    match maybe_uninit p with
    | Some point =>
      if reached_end
         || (utilization_rate_bps point <=? last_utilization_rate_bps)
         || (borrow_rate_bps point <=? last_borrow_rate_bps)
      then inl PointsNotInOrder
      else validate_loop ps reached_end (borrow_rate_bps point) (utilization_rate_bps point)
    | None => validate_loop ps true last_borrow_rate_bps last_utilization_rate_bps
    end
  end.

Definition validate_points (ps : list PolylineInterestRatePoint)
  : PolylineInterestRateCurveError + () :=
  if (POLYLINE_MAX_POINTS <? length ps)%nat then inl TooManyPoints
  else
    match ps with
    | [] => inl FirstPointInvalid
    | first :: rest =>
      if negb (utilization_rate_bps first =? 0) || (borrow_rate_bps first =? 0)
      then inl FirstPointInvalid
      else validate_loop rest false (borrow_rate_bps first) 0
    end.

Definition validate (self : PolylineInterestRateCurve) : PolylineInterestRateCurveError + () :=
  validate_points (points_array self).

(** The array filled with [(0, 0)] beyond the points given. *)
Definition try_new (ps : list PolylineInterestRatePoint)
  : PolylineInterestRateCurveError + PolylineInterestRateCurve :=
  match validate_points ps with
  | inl e => inl e
  | inr _ => inr (mkPolyline (ps ++ replicate (POLYLINE_MAX_POINTS - length ps) (mkPoint 0 0)))
  end.

Record Line : Type := { start : PolylineInterestRatePoint; end_ : PolylineInterestRatePoint }.

(** [Line::value_at]: [u64] arithmetic that wraps, a division that panics on zero, and a
    quotient cut to 32 bits before a saturating addition. *)
Definition value_at (self : Line) (utilization : Z) : Res Z :=
  let dy := as_u64 (borrow_rate_bps (end_ self) - borrow_rate_bps (start self)) in
  let dx := as_u64 (utilization - utilization_rate_bps (start self)) in
  let den := as_u64 (utilization_rate_bps (end_ self) - utilization_rate_bps (start self)) in
  if den =? 0 then Panic
  else Ok (saturating_add U32_MAX (borrow_rate_bps (start self))
             (as_u32 (as_u64 (dy * dx) / den))).

(** The [for point in points] loop that looks for the segment. *)
Fixpoint find_segment (ps : list PolylineInterestRatePoint) (utilization : Z)
  (start end_ : PolylineInterestRatePoint) : Line :=
  match ps with
  | [] => {| start := start; end_ := end_ |}
  | point :: ps =>
    if utilization <? utilization_rate_bps end_ then {| start := start; end_ := end_ |}
    else find_segment ps utilization end_ point
  end.

Definition apr_borrow_rate_bps (self : PolylineInterestRateCurve) (utilization : Z) : Res Z :=
  match points self with
  | [] => Panic
  | [start] => Ok (borrow_rate_bps start)
  | start :: next :: rest => value_at (find_segment rest utilization start next) utilization
  end.

Section Ops.
Context {FX : FixedCrate}.

Definition interest_rate_per_second (self : PolylineInterestRateCurve) (utilization : Z)
  : Res InterestRatePerSecond :=
  let? bps := apr_borrow_rate_bps self utilization in
  let? n := i_from_num bps in
  let? apr := expect (safe_div n ONE_IN_BPS) in
  from_apr apr.

End Ops.

Definition polyline_default : PolylineInterestRateCurve :=
  mkPolyline ([mkPoint 0 200; mkPoint 9200 700; mkPoint 10000 10000]
              ++ replicate 5 (mkPoint 0 0)).

(** * Facts about the polyline curve

    What validation guarantees, and the shape of the curve it lets through: it never
    panics, it passes through its points, it does not decrease, and up to its last point it
    stays between its first and last rates. *)

(** ** Abstract specification *)

(** The fields are 32-bit integers. *)
Definition point_ok (p : PolylineInterestRatePoint) : Prop :=
  is_u32 (utilization_rate_bps p) /\ is_u32 (borrow_rate_bps p).

(** Consecutive points go up in both coordinates. *)
Definition point_lt (p q : PolylineInterestRatePoint) : Prop :=
  utilization_rate_bps p < utilization_rate_bps q /\ borrow_rate_bps p < borrow_rate_bps q.

Fixpoint increasing (p : PolylineInterestRatePoint) (ps : list PolylineInterestRatePoint)
  : Prop :=
  match ps with
  | [] => True
  | q :: ps => point_lt p q /\ increasing q ps
  end.

(** What a validated curve is: a first point at zero, points that increase. *)
Definition well_formed (ps : list PolylineInterestRatePoint) : Prop :=
  match ps with
  | [] => False
  | p :: ps => utilization_rate_bps p = 0 /\ 0 < borrow_rate_bps p /\
               increasing p ps /\ Forall point_ok (p :: ps)
  end.

(** Piecewise linear interpolation, floored, extended by its last segment. *)
Definition interpolate (p q : PolylineInterestRatePoint) (u : Z) : Z :=
  borrow_rate_bps p +
  (borrow_rate_bps q - borrow_rate_bps p) * (u - utilization_rate_bps p)
    / (utilization_rate_bps q - utilization_rate_bps p).

Fixpoint curve_at (p : PolylineInterestRatePoint) (ps : list PolylineInterestRatePoint)
  (u : Z) : Z :=
  match ps with
  | [] => borrow_rate_bps p
  | q :: [] => interpolate p q u
  | q :: ((_ :: _) as rest) =>
    if u <? utilization_rate_bps q then interpolate p q u else curve_at q rest u
  end.

(** The last point. *)
Fixpoint last_point (p : PolylineInterestRatePoint) (ps : list PolylineInterestRatePoint)
  : PolylineInterestRatePoint :=
  match ps with [] => p | q :: ps => last_point q ps end.

#[global] Hint Unfold point_ok point_lt : widths.

(** ** Validation *)

Lemma validate_loop_init ps : forall reached lb lu,
  validate_loop ps reached lb lu = inr tt -> reached = true -> map_while_init ps = [].
Proof.
  induction ps as [| p ps IH]; intros reached lb lu H Hr; [done |].
  simpl in *. destruct (maybe_uninit p); [| done]. subst reached. discriminate.
Qed.

Lemma validate_loop_sound ps : forall p,
  Forall point_ok ps -> 0 <= borrow_rate_bps p ->
  validate_loop ps false (borrow_rate_bps p) (utilization_rate_bps p) = inr tt ->
  increasing p (map_while_init ps) /\ Forall point_ok (map_while_init ps).
Proof.
  induction ps as [| q ps IH]; intros p Hok Hp H; [split; [done | constructor] |].
  inversion Hok as [| ? ? Hq Hok']; subst. simpl in *. unfold maybe_uninit in *.
  destruct (borrow_rate_bps q =? 0) eqn:E; bool_prop.
  { split; [done | constructor]. }
  simpl in H.
  destruct (utilization_rate_bps q <=? utilization_rate_bps p) eqn:E1; [done |].
  destruct (borrow_rate_bps q <=? borrow_rate_bps p) eqn:E2; [done |].
  bool_prop. simpl in H. destruct (IH q) as [Hinc Hall]; [done | widths_lia | done |].
  split; [split; [split; lia | done] | by constructor].
Qed.

Lemma validate_points_sound ps :
  Forall point_ok ps -> validate_points ps = inr tt -> well_formed (map_while_init ps).
Proof.
  intros Hok H. unfold validate_points in H.
  destruct (_ <? _)%nat; [done |]. destruct ps as [| p ps]; [done |].
  inversion Hok as [| ? ? Hp Hps]; subst.
  destruct (utilization_rate_bps p =? 0) eqn:E0; [| done].
  destruct (borrow_rate_bps p =? 0) eqn:E1; [done |]. simpl in H. bool_prop.
  rewrite <- E0 in H.
  apply validate_loop_sound in H as [Hinc Hall]; [| done | widths_lia].
  simpl. unfold maybe_uninit. rewrite (proj2 (Z.eqb_neq _ _)) by done.
  split; [done |]. split; [widths_lia |]. split; [done | by constructor].
Qed.

(** Conversely, validation accepts well-formed points padded with empty ones. *)
Lemma map_while_init_pad ps n :
  Forall (fun p => borrow_rate_bps p <> 0) ps ->
  map_while_init (ps ++ replicate n (mkPoint 0 0)) = ps.
Proof.
  induction 1 as [| p ps Hp Hps IH]; [by destruct n |].
  simpl. unfold maybe_uninit. rewrite (proj2 (Z.eqb_neq _ _)) by done. by rewrite IH.
Qed.

Lemma validate_loop_pad n : forall r lb lu,
  validate_loop (replicate n (mkPoint 0 0)) r lb lu = inr tt.
Proof. induction n as [| n IH]; intros; [done | apply IH]. Qed.

Lemma validate_loop_complete ps n : forall p,
  0 <= borrow_rate_bps p -> increasing p ps ->
  validate_loop (ps ++ replicate n (mkPoint 0 0)) false
    (borrow_rate_bps p) (utilization_rate_bps p) = inr tt.
Proof.
  induction ps as [| q ps IH]; intros p Hp Hinc; [apply validate_loop_pad |].
  destruct Hinc as [[Hu Hb] Hinc]. simpl. unfold maybe_uninit.
  rewrite (proj2 (Z.eqb_neq _ _)) by lia. simpl.
  rewrite (proj2 (Z.leb_gt _ _) Hu), (proj2 (Z.leb_gt _ _) Hb). simpl.
  apply IH; [lia | done].
Qed.

(** ** Evaluation *)

Lemma value_at_ok p q u :
  point_ok p -> point_ok q -> point_lt p q ->
  utilization_rate_bps p <= u -> is_u32 u ->
  value_at {| start := p; end_ := q |} u =
  Ok (saturating_add U32_MAX (borrow_rate_bps p)
       (as_u32 ((borrow_rate_bps q - borrow_rate_bps p) * (u - utilization_rate_bps p)
                / (utilization_rate_bps q - utilization_rate_bps p)))).
Proof.
  intros Hp Hq Hlt Hu Hu32. unfold value_at. simpl.
  rewrite !(as_u64_small (_ - _)) by widths_lia.
  rewrite as_u64_small.
  - rewrite (proj2 (Z.eqb_neq _ _)); [done | widths_lia].
  - assert (0 <= borrow_rate_bps q - borrow_rate_bps p <= U32_MAX) by widths_lia.
    assert (0 <= u - utilization_rate_bps p <= U32_MAX) by widths_lia.
    unfold is_u64, U64_MAX, U32_MAX in *. nia.
Qed.

(** Below the end of a segment, nothing is cut off. *)
Lemma interpolate_bounds p q u :
  point_lt p q -> utilization_rate_bps p <= u <= utilization_rate_bps q ->
  borrow_rate_bps p <= interpolate p q u <= borrow_rate_bps q.
Proof.
  intros [Hx Hy] Hu. unfold interpolate.
  set (dx := utilization_rate_bps q - utilization_rate_bps p).
  set (dy := borrow_rate_bps q - borrow_rate_bps p).
  assert (0 <= dy * (u - utilization_rate_bps p) / dx) by (apply div_nonneg; nia).
  assert (dy * (u - utilization_rate_bps p) / dx <= dy) by (apply div_le_upper; nia).
  lia.
Qed.

Lemma interpolate_end p q : point_lt p q -> interpolate p q (utilization_rate_bps q) = borrow_rate_bps q.
Proof.
  intros [Hx Hy]. unfold interpolate. rewrite Z.div_mul by lia. lia.
Qed.

Lemma interpolate_start p q : interpolate p q (utilization_rate_bps p) = borrow_rate_bps p.
Proof. unfold interpolate. rewrite Z.sub_diag, Z.mul_0_r, Zdiv_0_l. lia. Qed.

Lemma interpolate_mono p q u v :
  point_lt p q -> u <= v -> interpolate p q u <= interpolate p q v.
Proof.
  intros [Hx Hy] Huv. unfold interpolate.
  apply Zplus_le_compat_l, div_le_mono; [lia |]. nia.
Qed.

Lemma value_at_interpolate p q u :
  point_ok p -> point_ok q -> point_lt p q ->
  utilization_rate_bps p <= u <= utilization_rate_bps q -> is_u32 u ->
  value_at {| start := p; end_ := q |} u = Ok (interpolate p q u).
Proof.
  intros Hp Hq Hlt Hu Hu32. rewrite value_at_ok by (done || lia).
  pose proof (interpolate_bounds p q u Hlt Hu) as Hb. unfold interpolate in *.
  unfold as_u32, saturating_add. rewrite Z.mod_small by widths_lia.
  f_equal. widths_lia.
Qed.

(** The segment search computes the piecewise function, up to the last point. *)
Lemma find_segment_value ps : forall p q u,
  increasing p (q :: ps) -> Forall point_ok (p :: q :: ps) -> is_u32 u ->
  utilization_rate_bps p <= u <= utilization_rate_bps (last_point q ps) ->
  value_at (find_segment ps u p q) u = Ok (curve_at p (q :: ps) u).
Proof.
  induction ps as [| r ps IH]; intros p q u [Hlt Hinc] Hok Hu32 Hu;
    inversion Hok as [| ? ? Hp Hok1]; subst; inversion Hok1 as [| ? ? Hq Hok2]; subst.
  - apply value_at_interpolate; auto.
  - cbn [find_segment curve_at].
    destruct (u <? utilization_rate_bps q) eqn:E; bool_prop.
    + apply value_at_interpolate; auto; lia.
    + apply IH; auto. split; [lia | apply Hu].
Qed.

Lemma find_segment_no_panic ps : forall p q u,
  increasing p (q :: ps) -> Forall point_ok (p :: q :: ps) -> is_u32 u ->
  utilization_rate_bps p <= u ->
  exists b, value_at (find_segment ps u p q) u = Ok b /\
            borrow_rate_bps p <= b <= U32_MAX.
Proof.
  induction ps as [| r ps IH]; intros p q u [Hlt Hinc] Hok Hu32 Hu;
    inversion Hok as [| ? ? Hp Hok1]; subst; inversion Hok1 as [| ? ? Hq Hok2]; subst;
    cbn [find_segment]; [| destruct (_ <? _) eqn:E; bool_prop];
    [| | destruct (IH q r u) as (b & Hb & Hr); [done.. |]; exists b; split; [done | widths_lia]];
    rewrite value_at_ok by done; eexists; (split; [reflexivity |]);
    unfold saturating_add, as_u32;
    match goal with |- context [?a mod ?b] => pose proof (Z.mod_pos_bound a b ltac:(lia)) end;
    widths_lia.
Qed.

(** ** The piecewise function *)

Lemma increasing_last ps : forall p,
  increasing p ps ->
  utilization_rate_bps p <= utilization_rate_bps (last_point p ps) /\
  borrow_rate_bps p <= borrow_rate_bps (last_point p ps).
Proof.
  induction ps as [| q ps IH]; intros p H; [simpl; lia |].
  destruct H as [[Hu Hb] H]. specialize (IH q H). cbn [last_point]. lia.
Qed.

Lemma curve_at_cons p q r ps u :
  curve_at p (q :: r :: ps) u =
  if u <? utilization_rate_bps q then interpolate p q u else curve_at q (r :: ps) u.
Proof. reflexivity. Qed.

Lemma curve_at_bounds ps : forall p u,
  increasing p ps ->
  utilization_rate_bps p <= u <= utilization_rate_bps (last_point p ps) ->
  borrow_rate_bps p <= curve_at p ps u <= borrow_rate_bps (last_point p ps).
Proof.
  induction ps as [| q ps IH]; intros p u H Hu; [simpl; lia |].
  destruct H as [Hlt H]. cbn [last_point] in *. pose proof (increasing_last _ _ H).
  destruct ps as [| r ps]; [by apply interpolate_bounds |].
  rewrite ?curve_at_cons. destruct (u <? utilization_rate_bps q) eqn:E; bool_prop.
  - pose proof (interpolate_bounds p q u Hlt ltac:(lia)). lia.
  - destruct (IH q u H) as [Hlo Hhi]; [split; [done | apply Hu] |].
    destruct Hlt. cbn [last_point] in *. lia.
Qed.

Lemma curve_at_mono ps : forall p u v,
  increasing p ps -> utilization_rate_bps p <= u -> u <= v ->
  curve_at p ps u <= curve_at p ps v.
Proof.
  induction ps as [| q ps IH]; intros p u v H Hu Huv; [simpl; lia |].
  destruct H as [Hlt H]. destruct ps as [| r ps]; [by apply interpolate_mono |].
  rewrite ?curve_at_cons. destruct (u <? utilization_rate_bps q) eqn:Eu;
    destruct (v <? utilization_rate_bps q) eqn:Ev; bool_prop.
  - by apply interpolate_mono.
  - pose proof (interpolate_bounds p q u Hlt ltac:(lia)) as [_ Hb].
    enough (borrow_rate_bps q <= curve_at q (r :: ps) v) by lia.
    assert (Hq : curve_at q (r :: ps) (utilization_rate_bps q) = borrow_rate_bps q).
    { destruct H as [[Hr _] _]. cbn [curve_at]. destruct ps; [apply interpolate_start |].
      rewrite (proj2 (Z.ltb_lt _ _) Hr). apply interpolate_start. }
    rewrite <- Hq. apply IH; [done | lia | lia].
  - lia.
  - by apply IH.
Qed.

(** The curve passes through each of its points. *)
Lemma curve_at_point ps : forall p r,
  increasing p ps -> In r (p :: ps) ->
  utilization_rate_bps p <= utilization_rate_bps r /\
  curve_at p ps (utilization_rate_bps r) = borrow_rate_bps r.
Proof.
  induction ps as [| q ps IH]; intros p r H Hin.
  { destruct Hin as [<- | []]. split; [lia | done]. }
  destruct H as [Hlt H]. destruct Hin as [<- | Hin].
  { split; [lia |]. destruct ps; cbn [curve_at]; [apply interpolate_start |].
    destruct Hlt. rewrite (proj2 (Z.ltb_lt _ _)) by done. apply interpolate_start. }
  destruct (IH q r H Hin) as [Hge Hc]. pose proof Hlt as [Hx _]. split; [lia |].
  destruct ps as [| s ps]; cbn [curve_at].
  - destruct Hin as [<- | []]. by apply interpolate_end.
  - rewrite (proj2 (Z.ltb_ge _ _)) by lia. done.
Qed.

(** A validated curve evaluates to the piecewise function up to its last point. *)
Lemma apr_borrow_rate_bps_ok c p ps u :
  points c = p :: ps -> well_formed (p :: ps) -> is_u32 u ->
  (exists b, apr_borrow_rate_bps c u = Ok b /\ borrow_rate_bps p <= b <= U32_MAX) /\
  (u <= utilization_rate_bps (last_point p ps) ->
   apr_borrow_rate_bps c u = Ok (curve_at p ps u)).
Proof.
  intros Hc (H0 & Hb & Hinc & Hok) Hu. unfold apr_borrow_rate_bps. rewrite Hc.
  inversion Hok as [| ? ? Hp _]; subst.
  destruct ps as [| q ps].
  - split; [| done]. exists (borrow_rate_bps p). split; [done | widths_lia].
  - split; [apply find_segment_no_panic; auto; widths_lia |].
    intros Hl. apply find_segment_value; auto. split; [widths_lia | done].
Qed.

Lemma last_point_max ps : forall p r,
  increasing p ps -> In r (p :: ps) ->
  utilization_rate_bps r <= utilization_rate_bps (last_point p ps).
Proof.
  induction ps as [| q ps IH]; intros p r H Hin.
  { destruct Hin as [<- | []]. simpl. lia. }
  destruct Hin as [<- | Hin].
  - apply (increasing_last (q :: ps) p H).
  - destruct H as [_ H]. by apply IH.
Qed.

Lemma increasing_nonzero ps : forall p,
  0 < borrow_rate_bps p -> increasing p ps ->
  Forall (fun p => borrow_rate_bps p <> 0) (p :: ps).
Proof.
  induction ps as [| q ps IH]; intros p Hp H; constructor; try lia; [constructor |].
  destruct H as [[_ Hb] H]. apply IH; [lia | done].
Qed.

(** A curve that passes validation never panics at any utilisation; up to its last
    point it passes through every one of its points, does not decrease, and stays between
    its first and its last rate. *)
Theorem polyline_valid_curve_is_sound c :
  Forall point_ok (points_array c) -> validate c = inr tt ->
  exists p ps, points c = p :: ps /\ utilization_rate_bps p = 0 /\
  (forall u, is_u32 u ->
     exists b, apr_borrow_rate_bps c u = Ok b /\ borrow_rate_bps p <= b <= U32_MAX) /\
  (forall r, In r (points c) ->
     apr_borrow_rate_bps c (utilization_rate_bps r) = Ok (borrow_rate_bps r)) /\
  (forall u v, 0 <= u <= v -> v <= utilization_rate_bps (last_point p ps) ->
     exists a b, apr_borrow_rate_bps c u = Ok a /\ apr_borrow_rate_bps c v = Ok b /\
     borrow_rate_bps p <= a <= b /\ b <= borrow_rate_bps (last_point p ps)).
Proof.
  intros Hok Hv. pose proof (validate_points_sound _ Hok Hv) as Hwf.
  fold (points c) in Hwf. destruct (points c) as [| p ps] eqn:Hc; [done |].
  exists p, ps. split; [done |]. pose proof Hwf as (H0 & Hb & Hinc & Hall).
  assert (Hlast : is_u32 (utilization_rate_bps (last_point p ps))).
  { clear - Hall. revert p Hall. induction ps as [| q ps IH]; intros p Hall;
      inversion Hall as [| ? ? Hp Hps]; subst; [apply Hp | by apply IH]. }
  assert (Hev : forall u, 0 <= u <= utilization_rate_bps (last_point p ps) ->
                apr_borrow_rate_bps c u = Ok (curve_at p ps u)).
  { intros u Hu. apply (apr_borrow_rate_bps_ok c p ps u Hc Hwf); widths_lia. }
  split; [done |]. split; [| split].
  - intros u Hu. by apply (apr_borrow_rate_bps_ok c p ps u Hc Hwf).
  - intros r Hin. destruct (curve_at_point ps p r Hinc Hin) as [Hge Hr].
    rewrite Hev, Hr; [done |]. split; [lia |]. by apply last_point_max.
  - intros u v Huv Hvl. exists (curve_at p ps u), (curve_at p ps v).
    rewrite !Hev by lia. pose proof (curve_at_bounds ps p u Hinc ltac:(lia)).
    pose proof (curve_at_bounds ps p v Hinc ltac:(lia)).
    pose proof (curve_at_mono ps p u v Hinc ltac:(lia) ltac:(lia)). repeat split; lia.
Qed.

(** Building a curve from well-formed points keeps exactly these points, and the
    curve passes validation. *)
Theorem polyline_try_new_roundtrip ps :
  well_formed ps -> (length ps <= POLYLINE_MAX_POINTS)%nat ->
  exists c, try_new ps = inr c /\ points c = ps /\ validate c = inr tt /\
            length (points_array c) = POLYLINE_MAX_POINTS.
Proof.
  intros Hwf Hlen. destruct ps as [| p ps]; [done |].
  destruct Hwf as (H0 & Hb & Hinc & Hall).
  assert (Hval : forall n, (length (p :: ps) + n <= POLYLINE_MAX_POINTS)%nat ->
    validate_points ((p :: ps) ++ replicate n (mkPoint 0 0)) = inr tt).
  { intros n Hn. unfold validate_points. rewrite length_app, length_replicate.
    rewrite (proj2 (Nat.ltb_ge _ _)) by done. simpl.
    rewrite (proj2 (Z.eqb_eq _ _) H0), (proj2 (Z.eqb_neq (borrow_rate_bps p) 0)) by lia.
    pose proof (validate_loop_complete ps n p ltac:(lia) Hinc) as Hl.
    by rewrite H0 in Hl. }
  assert (Hnz : Forall (fun p => borrow_rate_bps p <> 0) (p :: ps)).
  { apply increasing_nonzero; [lia | done]. }
  unfold try_new. pose proof (Hval 0%nat ltac:(lia)) as Hv0. rewrite app_nil_r in Hv0.
  rewrite Hv0. eexists. split; [reflexivity |]. split; [by apply map_while_init_pad |].
  split; [apply Hval; lia |]. simpl points_array.
  change (p :: ps ++ ?l) with ((p :: ps) ++ l).
  rewrite length_app, length_replicate. simpl in *. unfold POLYLINE_MAX_POINTS in *. lia.
Qed.

(** The extension of the last segment beyond the last point is cut to 32 bits: the rate
    can drop as the utilisation rises. *)
Lemma polyline_extension_can_drop :
  exists c a b, validate c = inr tt /\
    apr_borrow_rate_bps c 1 = Ok a /\ apr_borrow_rate_bps c 2 = Ok b /\ b < a.
Proof.
  exists (mkPolyline ([mkPoint 0 1; mkPoint 1 (2 ^ 32 - 1)] ++ replicate 6 (mkPoint 0 0))).
  eexists _, _. repeat split; vm_compute; reflexivity.
Qed.

Lemma polyline_valid_curve_witness :
  exists b, apr_borrow_rate_bps polyline_default 9200 = Ok b /\ b = 700.
Proof.
  destruct (polyline_valid_curve_is_sound polyline_default)
    as (p & ps & Hp & _ & _ & Hpt & _).
  - repeat constructor; vm_compute; discriminate.
  - vm_compute. reflexivity.
  - exists 700. split; [| reflexivity].
    apply (Hpt (mkPoint 9200 700)). vm_compute. right. left. reflexivity.
Defined.

Lemma polyline_try_new_witness :
  exists c, try_new [mkPoint 0 200; mkPoint 9200 700] = inr c /\
    points c = [mkPoint 0 200; mkPoint 9200 700].
Proof.
  destruct (polyline_try_new_roundtrip [mkPoint 0 200; mkPoint 9200 700])
    as (c & Hc & Hp & _).
  - repeat constructor; vm_compute; congruence.
  - vm_compute. repeat constructor.
  - exists c. split; [exact Hc | exact Hp].
Defined.
