(* ===== verification/AdaptiveCurve.v ===== *)
(** * The adaptive interest rate curve

    [autara-lib/src/interest_rate/curve/adaptative_curve.rs]. *)
From S2P Require Import Prelude.
From S2P Require Import Errors.
From S2P Require Import Monad.
From S2P Require Import FixedPoint.
From S2P Require Import FixedFacts.
From S2P Require Import Exp.
From S2P Require Import InterestRatePerSecond.

Record AdaptiveInterestRateCurve : Type := mkAdaptive {
  rate_at_target : InterestRatePerSecond }.

#[global] Instance AdaptiveInterestRateCurve_eq_dec : EqDecision AdaptiveInterestRateCurve.
Proof. solve_decision. Defined.

Definition TARGET_UTILISATION_RATE : IFixedPoint := from_i64_u64_ratio 9 10.
Definition ONE_MINUS_TARGET_UTILISATION_RATE : IFixedPoint := from_i64_u64_ratio 1 10.
Definition ADJUSTMENT_SPEED : IFixedPoint := from_i64_u64_ratio 50 SECONDS_PER_YEAR.
Definition CURVE_STEEPNESS : Z := 4.

Definition INITIAL_RATE_AT_TARGET : InterestRatePerSecond :=
  const_from_apr (from_i64_u64_ratio 4 100).
Definition MIN_RATE_AT_TARGET : InterestRatePerSecond :=
  const_from_apr (from_i64_u64_ratio 1 100).
Definition MAX_RATE_AT_TARGET : InterestRatePerSecond :=
  const_from_apr (from_i64_u64_ratio 200 100).

Definition MAX_SAFE_LINEAR_ADAPTATION : IFixedPoint := from_i64_u64_ratio 5475 100.
Definition MIN_SAFE_LINEAR_ADAPTATION : IFixedPoint := from_i64_u64_ratio (-3321) 100.

Definition new : AdaptiveInterestRateCurve := mkAdaptive (const_from_apr i_zero).

Section Ops.
Context {FX : FixedCrate}.

Definition new_rate_at_target (start_rate_at_target : InterestRatePerSecond)
  (linear_adaptation : IFixedPoint) : Res InterestRatePerSecond :=
  let clamped :=
    if i_ltb MAX_SAFE_LINEAR_ADAPTATION linear_adaptation then MAX_SAFE_LINEAR_ADAPTATION
    else if i_ltb linear_adaptation MIN_SAFE_LINEAR_ADAPTATION
    then MIN_SAFE_LINEAR_ADAPTATION
    else linear_adaptation in
  let? e := checked_exp clamped in
  let? x := safe_mul (per_second start_rate_at_target) e in
  Ok (rate_clamp (mkRatePerSecond x) MIN_RATE_AT_TARGET MAX_RATE_AT_TARGET).

Definition curve (rate_at_target : InterestRatePerSecond) (err : IFixedPoint)
  : Res InterestRatePerSecond :=
  let? coeff :=
    (if is_negative err
     then let? inv := safe_div i_one CURVE_STEEPNESS in safe_sub i_one inv
     else safe_sub CURVE_STEEPNESS i_one) in
  let? m := safe_mul coeff err in
  let? s := safe_add m i_one in
  res_map mkRatePerSecond (safe_mul s (per_second rate_at_target)).

Definition compute_next_rates (self : AdaptiveInterestRateCurve)
  (params : MarketBorrowRateParameters)
  : Res (InterestRatePerSecond * InterestRatePerSecond) :=
  let err_norm_factor :=
    if i_ltb TARGET_UTILISATION_RATE (utilisation_rate params)
    then ONE_MINUS_TARGET_UTILISATION_RATE else TARGET_UTILISATION_RATE in
  let? diff := safe_sub (utilisation_rate params) TARGET_UTILISATION_RATE in
  let? err := safe_div diff err_norm_factor in
  let start_rate_at_target := rate_at_target self in
  let? (avg_rate_at_target, end_rate_at_target) :=
    (if i_is_zero (per_second start_rate_at_target)
     then Ok (INITIAL_RATE_AT_TARGET, INITIAL_RATE_AT_TARGET)
     else
       let? speed := safe_mul ADJUSTMENT_SPEED err in
       let? linear_adaptation :=
         safe_mul speed (elapsed_seconds_since_last_update params) in
       if i_is_zero linear_adaptation
       then Ok (start_rate_at_target, start_rate_at_target)
       else
         let? end_rate := new_rate_at_target start_rate_at_target linear_adaptation in
         let? half := safe_div linear_adaptation 2 in
         let? mid_rate := new_rate_at_target start_rate_at_target half in
         let? s1 := safe_add (per_second start_rate_at_target) (per_second end_rate) in
         let? m2 := safe_mul (per_second mid_rate) 2 in
         let? s2 := safe_add s1 m2 in
         let? avg := safe_div s2 4 in
         Ok (mkRatePerSecond avg, end_rate)) in
  let? r := curve avg_rate_at_target err in
  Ok (r, end_rate_at_target).

Definition borrow_rate (params : MarketBorrowRateParameters)
  : ST AdaptiveInterestRateCurve InterestRatePerSecond :=
  let! self := st_get in
  let! (r, end_rate_at_target) := st_lift (compute_next_rates self params) in
  st_put (mkAdaptive end_rate_at_target) ;;;
  st_ret r.

End Ops.

(** * Facts about the adaptive curve

    The rate at target stays between its bounds, and the curve has a rate at every
    utilisation and after every idle time: the clamp before the exponential is what makes
    it total. *)

(** The constants of the source, as patterns. *)
Definition TGT : Z := 253327479039590.
Definition REST : Z := 28147497671065.
Definition SPEED : Z := 446275648.
Definition RMIN : Z := 89255.
Definition RMAX : Z := 17851025.
Definition RINIT : Z := 357020.

Lemma TARGET_bits : TARGET_UTILISATION_RATE = IFP TGT.
Proof. vm_compute. reflexivity. Qed.
Lemma REST_bits : ONE_MINUS_TARGET_UTILISATION_RATE = IFP REST.
Proof. vm_compute. reflexivity. Qed.
Lemma SPEED_bits : ADJUSTMENT_SPEED = IFP SPEED.
Proof. vm_compute. reflexivity. Qed.
Lemma RMIN_bits : MIN_RATE_AT_TARGET = mkRatePerSecond (IFP RMIN).
Proof. vm_compute. reflexivity. Qed.
Lemma RMAX_bits : MAX_RATE_AT_TARGET = mkRatePerSecond (IFP RMAX).
Proof. vm_compute. reflexivity. Qed.
Lemma RINIT_bits : INITIAL_RATE_AT_TARGET = mkRatePerSecond (IFP RINIT).
Proof. vm_compute. reflexivity. Qed.

#[global] Hint Unfold TGT REST SPEED RMIN RMAX RINIT : widths.

(** A rate at target within its bounds. *)
Definition target_ok (r : InterestRatePerSecond) : Prop :=
  i_bits (per_second MIN_RATE_AT_TARGET) <= i_bits (per_second r)
    <= i_bits (per_second MAX_RATE_AT_TARGET).

(** The state of a curve: not started, or with a rate within the bounds. *)
Definition adaptive_ok (c : AdaptiveInterestRateCurve) : Prop :=
  i_bits (per_second (rate_at_target c)) = 0 \/ target_ok (rate_at_target c).

Lemma target_ok_bits b : target_ok (mkRatePerSecond (IFP b)) <-> RMIN <= b <= RMAX.
Proof. unfold target_ok. by rewrite RMIN_bits, RMAX_bits. Qed.

Section Facts.
Context {FX : FixedCrate} {FXL : FixedLaws FX}.

Lemma new_rate_at_target_ok (start x : Z) :
  0 <= start <= RMAX ->
  exists r, new_rate_at_target (mkRatePerSecond (IFP start)) (IFP x) =
            Ok (mkRatePerSecond (IFP r)) /\ RMIN <= r <= RMAX.
Proof.
  intros Hs. unfold new_rate_at_target, i_ltb.
  change MAX_SAFE_LINEAR_ADAPTATION with MAX_EXP_ARG.
  change MIN_SAFE_LINEAR_ADAPTATION with MIN_EXP_ARG.
  rewrite MAX_EXP_ARG_bits, MIN_EXP_ARG_bits. cbn [i_bits].
  assert (Hc : exists z, (if MAXX <? x then IFP MAXX else if x <? MINX then IFP MINX
                          else IFP x) = IFP z /\ MINX <= z <= MAXX).
  { destruct (MAXX <? x) eqn:E1; [| destruct (x <? MINX) eqn:E2]; bool_prop;
      eexists; (split; [reflexivity | widths_lia]). }
  destruct Hc as (z & -> & Hz).
  destruct (checked_exp_clamped z Hz) as (y & -> & Hy). cbn [res_bind per_second].
  assert (Hprod : 0 <= start * y <= RMAX * I128_MAX)
    by (split; [lia | apply Z.mul_le_mono_nonneg; lia]).
  rewrite (proj2 (i_mul_ok (IFP start) (IFP y) (IFP (start * y / 2 ^ 48))
                    ltac:(simpl; lia)))
    by (split; [done | simpl; apply div_le_upper; widths_lia]).
  cbn [res_bind]. unfold rate_clamp, i_ltb. rewrite RMIN_bits, RMAX_bits. cbn [per_second i_bits].
  destruct (_ <? RMIN) eqn:E1; [| destruct (RMAX <? _) eqn:E2]; bool_prop;
    eexists; (split; [reflexivity | widths_lia]).
Qed.

(** The distance to the target: from minus one at zero utilisation. *)
Lemma err_ok (u : Z) :
  0 <= u <= 2 ^ 58 ->
  exists d e, safe_sub (IFP u) TARGET_UTILISATION_RATE = Ok d /\
    safe_div d (if i_ltb TARGET_UTILISATION_RATE (IFP u)
                then ONE_MINUS_TARGET_UTILISATION_RATE else TARGET_UTILISATION_RATE)
      = Ok (IFP e) /\
    - 2 ^ 48 <= e <= 2 ^ 62 /\ (u <= 2 ^ 48 -> e <= 2 ^ 48 + 11).
Proof.
  intros Hu. unfold i_ltb. rewrite TARGET_bits, REST_bits. cbn [i_bits].
  exists (IFP (u - TGT)).
  set (n := if TGT <? u then REST else TGT).
  replace (if TGT <? u then IFP REST else IFP TGT) with (IFP n)
    by (unfold n; destruct (TGT <? u); reflexivity).
  destruct (i_div_small (u - TGT) n) as (e & He & _ & Hr);
    [unfold n; destruct (TGT <? u); widths_lia | widths_lia |].
  exists e. split; [apply i_sub_small; widths_lia |]. split; [done |].
  unfold n in *. destruct (TGT <? u) eqn:E; bool_prop; widths_lia.
Qed.

Lemma steepness_below :
  (let? inv := safe_div i_one CURVE_STEEPNESS in safe_sub i_one inv) =
  Ok (IFP (3 * 2 ^ 46)).
Proof.
  change (safe_div i_one CURVE_STEEPNESS) with (@Ok LendingError IFixedPoint (IFP (2 ^ 46))).
  apply (i_sub_small (2 ^ 48) (2 ^ 46)). widths_lia.
Qed.

Lemma steepness_above : safe_sub CURVE_STEEPNESS i_one = Ok (IFP (3 * 2 ^ 48)).
Proof.
  unfold safe_sub, SafeMath_u64_IFixed, u64_safe_sub_ifixed.
  rewrite (i_sub_small (CURVE_STEEPNESS * 2 ^ 48) (1 * 2 ^ 48));
    [reflexivity | unfold CURVE_STEEPNESS; widths_lia].
Qed.

(** The rate on the curve: between a quarter of the rate at target and, up to full
    utilisation, four times it. *)
Lemma adaptive_value_ok (avg e : Z) :
  RMIN <= avg <= RMAX -> - 2 ^ 48 <= e <= 2 ^ 62 ->
  exists r, curve (mkRatePerSecond (IFP avg)) (IFP e) = Ok (mkRatePerSecond (IFP r)) /\
    RMIN / 4 <= r /\ (e <= 2 ^ 48 + 11 -> r <= 4 * RMAX).
Proof.
  intros Ha He. unfold curve, is_negative. cbn [i_bits].
  assert (Hs : exists s m c,
    (if e <? 0 then let? inv := safe_div i_one CURVE_STEEPNESS in safe_sub i_one inv
     else safe_sub CURVE_STEEPNESS i_one) = Ok c /\
    safe_mul c (IFP e) = Ok m /\ safe_add m i_one = Ok (IFP s) /\
    2 ^ 46 <= s <= 2 ^ 64 /\ (e <= 2 ^ 48 + 11 -> s <= 4 * 2 ^ 48 + 33)).
  { destruct (e <? 0) eqn:E; bool_prop.
    - destruct (i_mul_small (3 * 2 ^ 46) e) as (m & Hm & _ & Hr); [lia |].
      exists (m + 2 ^ 48), (IFP m), (IFP (3 * 2 ^ 46)). split; [apply steepness_below |].
      split; [done |]. split; [apply i_add_small; widths_lia | lia].
    - destruct (i_mul_small (3 * 2 ^ 48) e) as (m & Hm & Hr & _); [lia |].
      specialize (Hr ltac:(lia)).
      replace (3 * 2 ^ 48 * e) with (3 * e * 2 ^ 48) in Hr by lia.
      rewrite Z.div_mul in Hr by lia. subst m.
      exists (3 * e + 2 ^ 48), (IFP (3 * e)), (IFP (3 * 2 ^ 48)). split; [apply steepness_above |].
      split; [done |]. split; [apply i_add_small; widths_lia | lia]. }
  destruct Hs as (s & m & c & -> & Hm & Hadd & Hs & Hs1). cbn [res_bind].
  rewrite Hm. cbn [res_bind]. rewrite Hadd. cbn [res_bind per_second].
  assert (Hprod : 2 ^ 46 * RMIN <= s * avg <= 2 ^ 64 * RMAX)
    by (split; apply Z.mul_le_mono_nonneg; widths_lia).
  rewrite (proj2 (i_mul_ok (IFP s) (IFP avg) (IFP (s * avg / 2 ^ 48))
                    ltac:(simpl; widths_lia)))
    by (split; [done | simpl; apply div_le_upper; widths_lia]).
  eexists. split; [reflexivity |]. split.
  - change (RMIN / 4) with 22313. apply div_ge_lower; widths_lia.
  - intros H. specialize (Hs1 H). apply div_le_upper; [lia |].
    assert (s * avg <= (4 * 2 ^ 48 + 33) * RMAX) by (apply Z.mul_le_mono_nonneg; widths_lia).
    widths_lia.
Qed.

(** The average and end rates of a started curve. *)
Lemma adapt_ok (start speed elapsed : Z) :
  RMIN <= start <= RMAX -> Z.abs speed <= 2 ^ 47 -> is_u64 elapsed ->
  exists avg end_rate,
  (let? linear_adaptation := safe_mul (IFP speed) elapsed in
   if i_is_zero linear_adaptation
   then Ok (mkRatePerSecond (IFP start), mkRatePerSecond (IFP start))
   else
     let? end_rate := new_rate_at_target (mkRatePerSecond (IFP start)) linear_adaptation in
     let? half := safe_div linear_adaptation 2 in
     let? mid_rate := new_rate_at_target (mkRatePerSecond (IFP start)) half in
     let? s1 := safe_add (IFP start) (per_second end_rate) in
     let? m2 := safe_mul (per_second mid_rate) 2 in
     let? s2 := safe_add s1 m2 in
     let? avg := safe_div s2 4 in
     Ok (mkRatePerSecond avg, end_rate))
  = Ok (mkRatePerSecond (IFP avg), mkRatePerSecond (IFP end_rate)) /\
  RMIN <= avg <= RMAX /\ RMIN <= end_rate <= RMAX.
Proof.
  intros Hs Hsp He.
  assert (Hlin : I128_MIN <= speed * elapsed <= I128_MAX).
  { assert (Z.abs (speed * elapsed) <= 2 ^ 47 * U64_MAX)
      by (rewrite Z.abs_mul; apply Z.mul_le_mono_nonneg; widths_lia). widths_lia. }
  rewrite (proj2 (i_mul_u64_ok (IFP speed) elapsed (IFP (speed * elapsed))) (conj eq_refl Hlin)).
  cbn [res_bind]. unfold i_is_zero. cbn [i_bits].
  destruct (_ =? 0); [by exists start, start |].
  destruct (new_rate_at_target_ok start (speed * elapsed)) as (e & -> & Hb); [widths_lia |].
  cbn [res_bind]. rewrite i_div_u64_eq by lia.
  cbn [res_bind i_bits].
  destruct (new_rate_at_target_ok start (Z.quot (speed * elapsed) 2)) as (m & -> & Hm);
    [widths_lia |]. cbn [res_bind per_second].
  rewrite i_add_small by widths_lia. cbn [res_bind].
  rewrite (proj2 (i_mul_u64_ok (IFP m) 2 (IFP (m * 2)))) by (split; [done | simpl; widths_lia]).
  cbn [res_bind]. rewrite i_add_small by widths_lia. cbn [res_bind].
  rewrite i_div_u64_eq by lia. cbn [res_bind i_bits].
  eexists _, e. split; [reflexivity |]. split; [| done].
  rewrite Z.quot_div_nonneg by widths_lia.
  split; [apply div_ge_lower; lia | apply div_le_upper; lia].
Qed.

(** Everything a call computes, at any utilisation up to a thousand and any elapsed time. *)
Lemma borrow_rate_ok c u elapsed :
  adaptive_ok c -> 0 <= i_bits u <= 2 ^ 58 -> is_u64 elapsed ->
  exists r c',
  borrow_rate {| utilisation_rate := u; elapsed_seconds_since_last_update := elapsed |} c
    = (Ok r, c') /\
  target_ok (rate_at_target c') /\ RMIN / 4 <= i_bits (per_second r) /\
  (i_bits u <= 2 ^ 48 -> i_bits (per_second r) <= 4 * RMAX).
Proof.
  destruct u as [u], c as [[[start]]]. intros Hc Hu He. cbn [i_bits] in *.
  destruct (err_ok u Hu) as (d & e & Hd & Hdiv & Hb & H1).
  unfold borrow_rate, compute_next_rates, st_bind, st_get, st_lift.
  cbn [utilisation_rate elapsed_seconds_since_last_update rate_at_target per_second].
  rewrite Hd. cbn [res_bind]. rewrite Hdiv. cbn [res_bind]. unfold i_is_zero at 1. cbn [i_bits].
  assert (Hrates : exists avg en,
    (if start =? 0 then Ok (INITIAL_RATE_AT_TARGET, INITIAL_RATE_AT_TARGET)
     else let? speed := safe_mul ADJUSTMENT_SPEED (IFP e) in
       let? linear_adaptation := safe_mul speed elapsed in
       if i_is_zero linear_adaptation
       then Ok (mkRatePerSecond (IFP start), mkRatePerSecond (IFP start))
       else
         let? end_rate := new_rate_at_target (mkRatePerSecond (IFP start)) linear_adaptation in
         let? half := safe_div linear_adaptation 2 in
         let? mid_rate := new_rate_at_target (mkRatePerSecond (IFP start)) half in
         let? s1 := safe_add (IFP start) (per_second end_rate) in
         let? m2 := safe_mul (per_second mid_rate) 2 in
         let? s2 := safe_add s1 m2 in
         let? avg := safe_div s2 4 in
         Ok (mkRatePerSecond avg, end_rate))
    = Ok (mkRatePerSecond (IFP avg), mkRatePerSecond (IFP en)) /\
    RMIN <= avg <= RMAX /\ RMIN <= en <= RMAX).
  { destruct (start =? 0) eqn:E; bool_prop.
    - exists RINIT, RINIT. rewrite RINIT_bits. split; [done | widths_lia].
    - destruct Hc as [Hz | Hc]; [simpl in Hz; lia |]. apply target_ok_bits in Hc.
      rewrite SPEED_bits. destruct (i_mul_small SPEED e) as (sp & -> & _ & Hr); [widths_lia |].
      cbn [res_bind]. apply adapt_ok; [done | widths_lia | done]. }
  destruct Hrates as (avg & en & -> & Havg & Hen). cbn [res_bind].
  destruct (adaptive_value_ok avg e Havg Hb) as (r & -> & Hlo & Hhi). cbn [res_bind].
  eexists _, _. split; [reflexivity |]. cbn [rate_at_target per_second i_bits].
  split; [by apply target_ok_bits |]. split; [done |]. intros. apply Hhi. by apply H1.
Qed.

(** The adaptive curve cannot brick a market: at every utilisation up to a thousand
    and after any number of idle seconds it has a rate, which is positive and up to full
    utilisation at most four times the largest rate at target, and the rate at target it
    stores lies between its bounds. *)
Theorem adaptive_curve_is_total c u elapsed :
  adaptive_ok c -> 0 <= i_bits u <= 2 ^ 58 -> is_u64 elapsed ->
  exists r c',
  borrow_rate {| utilisation_rate := u; elapsed_seconds_since_last_update := elapsed |} c
    = (Ok r, c') /\
  target_ok (rate_at_target c') /\ 0 < i_bits (per_second r) /\
  (i_bits u <= i_bits i_one ->
   i_bits (per_second r) <= 4 * i_bits (per_second MAX_RATE_AT_TARGET)).
Proof.
  intros Hc Hu He. destruct (borrow_rate_ok c u elapsed Hc Hu He) as (r & c' & H & Ht & Hlo & Hhi).
  exists r, c'. rewrite RMAX_bits. repeat split; [done | apply Ht | apply Ht | | apply Hhi].
  change (RMIN / 4) with 22313 in Hlo. lia.
Qed.

End Facts.

(** A hundred years idle at full utilisation. *)
Lemma adaptive_curve_is_total_witness :
  exists r c', borrow_rate (FX := fixed_ref)
    {| utilisation_rate := i_one; elapsed_seconds_since_last_update := 3153600000 |}
    (mkAdaptive INITIAL_RATE_AT_TARGET) = (Ok r, c') /\ target_ok (rate_at_target c').
Proof.
  destruct (adaptive_curve_is_total (FX := fixed_ref) (FXL := fixed_ref_laws)
    (mkAdaptive INITIAL_RATE_AT_TARGET) i_one 3153600000) as (r & c' & H & Ht & _).
  - right. split; vm_compute; discriminate.
  - split; vm_compute; discriminate.
  - split; vm_compute; discriminate.
  - exists r, c'. split; [exact H | exact Ht].
Defined.
