(* ===== verification/Bytes.v ===== *)
(** * Little-endian memory layout

    The accounts are [repr(C)] plain data read in place ([bytemuck]): a value of an integer
    type of [n] bytes is its little-endian bytes, a struct is its fields one after the
    other.  A byte is an integer below 256. *)
From S2P Require Import Prelude.

Fixpoint le_bytes (n : nat) (x : Z) : list Z :=
  match n with
  | O => []
  | S n => x mod 256 :: le_bytes n (x / 256)
  end.

Fixpoint le_val (l : list Z) : Z :=
  match l with
  | [] => 0
  | b :: l => b + 256 * le_val l
  end.

(** The signed value of the bytes. *)
Definition le_sval (l : list Z) : Z :=
  let v := le_val l in
  let m := 256 ^ Z.of_nat (length l) in
  if 2 * v <? m then v else v - m.

Definition is_byte (b : Z) : Prop := 0 <= b < 256.

(** Reading at an offset. *)
Definition slice (off n : nat) (l : list Z) : list Z := take n (drop off l).

Lemma length_le_bytes n : forall x, length (le_bytes n x) = n.
Proof. induction n as [| n IH]; intros x; simpl; [done | by rewrite IH]. Qed.

Lemma le_bytes_are_bytes n : forall x, Forall is_byte (le_bytes n x).
Proof.
  induction n as [| n IH]; intros x; simpl; constructor; [| apply IH].
  unfold is_byte. pose proof (Z.mod_pos_bound x 256). lia.
Qed.

Lemma le_val_le_bytes n : forall x, le_val (le_bytes n x) = x mod 256 ^ Z.of_nat n.
Proof.
  induction n as [| n IH]; intros x; cbn [le_bytes le_val].
  - by rewrite Z.mod_1_r.
  - rewrite IH, Nat2Z.inj_succ, Z.pow_succ_r by lia.
    assert (0 < 256 ^ Z.of_nat n) by (apply Z.pow_pos_nonneg; lia).
    rewrite (Z.rem_mul_r x 256) by lia. lia.
Qed.

Lemma le_val_bounds l : Forall is_byte l -> 0 <= le_val l < 256 ^ Z.of_nat (length l).
Proof.
  induction 1 as [| b l Hb Hl IH]; cbn [le_val length]; [simpl; lia |].
  rewrite Nat2Z.inj_succ, Z.pow_succ_r by lia. unfold is_byte in Hb. lia.
Qed.

Lemma le_bytes_le_val l : Forall is_byte l -> le_bytes (length l) (le_val l) = l.
Proof.
  induction 1 as [| b l Hb Hl IH]; [done |]. cbn [length le_bytes le_val].
  unfold is_byte in Hb.
  rewrite (Z.mul_comm 256), Z.mod_add, Z.div_add, Z.mod_small, Z.div_small by lia.
  by rewrite Z.add_0_l, IH.
Qed.

(** Round trips at the machine widths. *)
Lemma le_val_unsigned n x :
  0 <= x < 256 ^ Z.of_nat n -> le_val (le_bytes n x) = x.
Proof. intros. by rewrite le_val_le_bytes, Z.mod_small. Qed.

Lemma le_sval_signed n x :
  - 256 ^ Z.of_nat n <= 2 * x < 256 ^ Z.of_nat n ->
  le_sval (le_bytes n x) = x.
Proof.
  intros Hx. unfold le_sval. rewrite length_le_bytes, le_val_le_bytes.
  set (m := 256 ^ Z.of_nat n) in *. destruct (Z.le_gt_cases 0 x) as [Hp | Hn].
  - rewrite Z.mod_small by lia. by rewrite (proj2 (Z.ltb_lt _ _)) by lia.
  - replace (x mod m) with (x + m).
    + rewrite (proj2 (Z.ltb_ge _ _)); lia.
    + apply (Z.mod_unique x m (-1)); lia.
Qed.

Lemma slice_app_l l r off n :
  (off + n <= length l)%nat -> slice off n (l ++ r) = slice off n l.
Proof.
  intros H. unfold slice. rewrite drop_app_le by lia.
  rewrite take_app_le; [done |]. rewrite length_drop. lia.
Qed.

Lemma slice_all l r : slice 0 (length l) (l ++ r) = l.
Proof. unfold slice. rewrite drop_0. apply take_app_length. Qed.

Lemma slice_app_r l r off n :
  (length l <= off)%nat -> slice off n (l ++ r) = slice (off - length l) n r.
Proof. intros H. unfold slice. by rewrite drop_app_ge. Qed.

Lemma Forall_slice off n l : Forall is_byte l -> Forall is_byte (slice off n l).
Proof. intros H. unfold slice. by apply Forall_take, Forall_drop. Qed.

Lemma le_val_u64 off l : Forall is_byte l -> is_u64 (le_val (slice off 8 l)).
Proof.
  intros H. pose proof (le_val_bounds _ (Forall_slice off 8 l H)) as Hb.
  assert (Hl : (length (slice off 8 l) <= 8)%nat)
    by (unfold slice; rewrite length_take; lia).
  assert (256 ^ Z.of_nat (length (slice off 8 l)) <= 256 ^ 8)
    by (apply Z.pow_le_mono_r; lia).
  widths_lia.
Qed.

Lemma slice_exact (a b c : list Z) off n :
  length a = off -> length b = n -> slice off n (a ++ b ++ c) = b.
Proof.
  intros <- <-. unfold slice. rewrite drop_app_length. apply take_app_length.
Qed.

Lemma slice_first (b c : list Z) n : length b = n -> slice 0 n (b ++ c) = b.
Proof. intros <-. apply slice_all. Qed.

Lemma slice_whole n l : length l = n -> slice 0 n l = l.
Proof. intros <-. unfold slice. by rewrite drop_0, firstn_all. Qed.

Lemma slice_skip off n k l r :
  length l = k -> (k <= off)%nat -> slice off n (l ++ r) = slice (off - k) n r.
Proof. intros <-. apply slice_app_r. Qed.

(** Reads a field out of a concatenation of fields. *)
Ltac cut_field n :=
  repeat first
    [ rewrite (slice_first _ _ n) by (rewrite ?length_le_bytes; lia)
    | rewrite (slice_skip _ _ n) by (rewrite ?length_le_bytes; lia); cbn [Nat.sub]
    | rewrite (slice_whole n) by (rewrite ?length_le_bytes; lia) ].

Lemma length_slice off n l : (off + n <= length l)%nat -> length (slice off n l) = n.
Proof. intros H. unfold slice. rewrite length_take, length_drop. lia. Qed.

Lemma le_u64 x : is_u64 x -> le_val (le_bytes 8 x) = x.
Proof. intros. apply le_val_unsigned. widths_lia. Qed.

Lemma le_i64 x : is_i64 x -> le_sval (le_bytes 8 x) = x.
Proof. intros. apply le_sval_signed. widths_lia. Qed.

Lemma le_sval_i64 off l :
  Forall is_byte l -> (off + 8 <= length l)%nat -> is_i64 (le_sval (slice off 8 l)).
Proof.
  intros Hb Hl. pose proof (le_val_bounds _ (Forall_slice off 8 l Hb)) as H.
  rewrite length_slice in H by done. unfold le_sval. rewrite length_slice by done.
  destruct (Z.ltb_spec (2 * le_val (slice off 8 l)) (256 ^ Z.of_nat 8)); widths_lia.
Qed.

Lemma slice_slice a n b m l :
  (a + n <= m)%nat -> slice a n (slice b m l) = slice (b + a) n l.
Proof.
  intros H. unfold slice.
  rewrite skipn_firstn_comm, take_take, drop_drop, Nat.min_l by lia. done.
Qed.
