(* ===== verification/InterestRateCurve.v ===== *)
(** * Interest rate curves and their storage

    [autara-lib/src/interest_rate/interest_rate_kind.rs] and [pod_interest_rate.rs]: the
    three kinds of curve, the trait [LendingInterestRateCurveMut], and the tagged union of
    sixty-four bytes in which a market stores one.  [Default] goes through [f64] and is not
    modelled. *)
From S2P Require Import Prelude.
From S2P Require Import Errors.
From S2P Require Import Monad.
From S2P Require Import FixedPoint.
From S2P Require Import InterestRatePerSecond.
From S2P Require Import Polyline.
From S2P Require Import AdaptiveCurve.
From S2P Require Import Bytes.
From S2P Require Import FixedFacts.
From S2P Require Import Exp.

Inductive InterestRateCurveKind : Type :=
| Fixed (rate : InterestRatePerSecond)
| Polyline (curve : PolylineInterestRateCurve)
| Adaptive (curve : AdaptiveInterestRateCurve).

#[global] Instance InterestRateCurveKind_eq_dec : EqDecision InterestRateCurveKind.
Proof. solve_decision. Defined.

Definition new_adaptive : InterestRateCurveKind := Adaptive AdaptiveCurve.new.

Definition is_valid (self : InterestRateCurveKind) : bool :=
  match self with
  | Fixed rate =>
    negb (is_negative (per_second rate))
    && i_leb (per_second rate) (from_i64_u64_ratio 5475 100)
  | Polyline curve => match validate curve with inr _ => true | inl _ => false end
  | Adaptive _ => true
  end.

(** The trait: a curve that can be asked for a rate, and may change when asked. *)
Class LendingInterestRateCurveMut (C : Type) : Type :=
  borrow_rate_per_second : MarketBorrowRateParameters -> ST C InterestRatePerSecond.
#[global] Hint Mode LendingInterestRateCurveMut ! : typeclass_instances.

(** ** Storage *)

Inductive PodInterestRateCurveKind : Type := KFixed | KPolyline | KAdaptive.

#[global] Instance PodInterestRateCurveKind_eq_dec : EqDecision PodInterestRateCurveKind.
Proof. solve_decision. Defined.

(** [size_of] the three payloads: one or sixteen integers. *)
Definition pod_kind_size (k : PodInterestRateCurveKind) : nat :=
  match k with KFixed => 16 | KPolyline => 8 * (4 + 4) | KAdaptive => 16 end.

(** [const_max_usizes]: the loop keeps the index of the largest item so far. *)
Fixpoint const_max_loop (items : list nat) (best : nat) : nat :=
  match items with
  | [] => best
  | next_item :: items => const_max_loop items (if (best <? next_item)%nat then next_item else best)
  end.
Definition const_max_usizes (items : list nat) : nat :=
  match items with [] => 0 | first :: _ => const_max_loop items first end.

Definition POD_UNION_SIZE : nat :=
  const_max_usizes [pod_kind_size KFixed; pod_kind_size KPolyline; pod_kind_size KAdaptive].

Record PodInterestRateCurve : Type := {
  kind : PodInterestRateCurveKind;
  union : list Z }.

#[global] Instance PodInterestRateCurve_eq_dec : EqDecision PodInterestRateCurve.
Proof. solve_decision. Defined.

(** [bytemuck::bytes_of] and [from_bytes] of the payloads. *)
Definition ifixed_bytes (x : IFixedPoint) : list Z := le_bytes 16 (i_bits x).
Definition ifixed_of_bytes (l : list Z) : IFixedPoint := IFP (le_sval l).

Definition point_bytes (p : PolylineInterestRatePoint) : list Z :=
  le_bytes 4 (utilization_rate_bps p) ++ le_bytes 4 (borrow_rate_bps p).
Definition point_of_bytes (l : list Z) : PolylineInterestRatePoint :=
  mkPoint (le_val (slice 0 4 l)) (le_val (slice 4 4 l)).

Fixpoint polyline_bytes (ps : list PolylineInterestRatePoint) : list Z :=
  match ps with [] => [] | p :: ps => point_bytes p ++ polyline_bytes ps end.
Fixpoint polyline_of_bytes (n : nat) (l : list Z) : list PolylineInterestRatePoint :=
  match n with
  | O => []
  | S n => point_of_bytes (take 8 l) :: polyline_of_bytes n (drop 8 l)
  end.

(** [union[..size].copy_from_slice(bytes)] *)
Definition write_prefix (bytes l : list Z) : list Z := bytes ++ drop (length bytes) l.

Definition payload_bytes (k : InterestRateCurveKind) : list Z :=
  match k with
  | Fixed rate => ifixed_bytes (per_second rate)
  | Polyline poly => polyline_bytes (points_array poly)
  | Adaptive adaptive => ifixed_bytes (per_second (rate_at_target adaptive))
  end.

Definition kind_of (k : InterestRateCurveKind) : PodInterestRateCurveKind :=
  match k with Fixed _ => KFixed | Polyline _ => KPolyline | Adaptive _ => KAdaptive end.

Definition from_interest_rate_kind (interest_rate : InterestRateCurveKind)
  : PodInterestRateCurve :=
  {| kind := kind_of interest_rate;
     union := write_prefix (payload_bytes interest_rate) (replicate POD_UNION_SIZE 0) |}.

Definition interest_rate_kind (self : PodInterestRateCurve) : InterestRateCurveKind :=
  let payload := take (pod_kind_size (kind self)) (union self) in
  match kind self with
  | KFixed => Fixed (mkRatePerSecond (ifixed_of_bytes payload))
  | KPolyline => Polyline (mkPolyline (polyline_of_bytes POLYLINE_MAX_POINTS payload))
  | KAdaptive => Adaptive (mkAdaptive (mkRatePerSecond (ifixed_of_bytes payload)))
  end.

Section Ops.
Context {FX : FixedCrate}.

(** [impl LendingInterestRateCurveMut for InterestRateCurveKind] *)
#[global] Instance kind_borrow_rate_per_second
  : LendingInterestRateCurveMut InterestRateCurveKind := fun params =>
  let! self := st_get in
  match self with
  | Fixed rate => st_ret rate
  | Polyline curve =>
    let! bps := st_lift (InterestRatePerSecond.utilisation_rate_bps params) in
    st_lift (interest_rate_per_second curve bps)
  | Adaptive curve =>
    fun s => let '(r, curve') := borrow_rate params curve in (r, Adaptive curve')
  end.

(** [interest_rate_kind_mut] followed by the trait method on the borrowed payload: the
    adaptive curve is updated in the bytes of the union. *)
#[global] Instance pod_borrow_rate_per_second
  : LendingInterestRateCurveMut PodInterestRateCurve := fun params =>
  let! self := st_get in
  match kind self with
  | KFixed =>
    st_ret (mkRatePerSecond (ifixed_of_bytes (take (pod_kind_size KFixed) (union self))))
  | KPolyline =>
    let curve := mkPolyline (polyline_of_bytes POLYLINE_MAX_POINTS
                               (take (pod_kind_size KPolyline) (union self))) in
    let! bps := st_lift (InterestRatePerSecond.utilisation_rate_bps params) in
    st_lift (interest_rate_per_second curve bps)
  | KAdaptive =>
    let curve := mkAdaptive (mkRatePerSecond
                   (ifixed_of_bytes (take (pod_kind_size KAdaptive) (union self)))) in
    fun s =>
      let '(r, curve') := borrow_rate params curve in
      (r, {| kind := KAdaptive;
             union := write_prefix (ifixed_bytes (per_second (rate_at_target curve')))
                        (union self) |})
  end.

End Ops.

(** * Facts about the stored curves

    The union of bytes is a faithful store of the three kinds of curve, asking the stored
    curve for a rate is asking the curve it stores, and a valid curve always has a rate
    that is not negative. *)

(** The values the types of the source can hold. *)
Definition kind_repr (k : InterestRateCurveKind) : Prop :=
  match k with
  | Fixed r => i_ok (per_second r)
  | Polyline c => length (points_array c) = POLYLINE_MAX_POINTS /\
                  Forall point_ok (points_array c)
  | Adaptive c => i_ok (per_second (rate_at_target c))
  end.

Definition pod_repr (p : PodInterestRateCurve) : Prop :=
  length (union p) = POD_UNION_SIZE /\ Forall is_byte (union p).

(** ** Payloads *)

Lemma ifixed_roundtrip x : i_ok x -> ifixed_of_bytes (ifixed_bytes x) = x.
Proof.
  intros Hx. destruct x as [x]. unfold ifixed_of_bytes, ifixed_bytes. simpl i_bits.
  rewrite le_sval_signed; [done |]. change (256 ^ Z.of_nat 16) with (2 ^ 128). fx_lia.
Qed.

Lemma length_ifixed_bytes x : length (ifixed_bytes x) = 16%nat.
Proof. apply length_le_bytes. Qed.

Lemma length_point_bytes p : length (point_bytes p) = 8%nat.
Proof. unfold point_bytes. by rewrite length_app, !length_le_bytes. Qed.

Lemma point_roundtrip p : point_ok p -> point_of_bytes (point_bytes p) = p.
Proof.
  intros [Hu Hb]. destruct p as [u b]. unfold point_of_bytes, point_bytes. cbn [utilization_rate_bps borrow_rate_bps] in *.
  unfold slice. rewrite drop_0.
  rewrite (take_app_length' (le_bytes 4 u)) by (by rewrite length_le_bytes).
  rewrite (drop_app_length' (le_bytes 4 u)) by (by rewrite length_le_bytes).
  rewrite take_ge by (rewrite length_le_bytes; lia).
  rewrite !le_val_unsigned; [done | |]; change (256 ^ Z.of_nat 4) with (2 ^ 32); widths_lia.
Qed.

Lemma polyline_roundtrip ps :
  Forall point_ok ps -> polyline_of_bytes (length ps) (polyline_bytes ps) = ps.
Proof.
  induction 1 as [| p ps Hp Hps IH]; [done |]. cbn [length polyline_of_bytes polyline_bytes].
  rewrite (take_app_length' (point_bytes p)), (drop_app_length' (point_bytes p))
    by (by rewrite length_point_bytes).
  by rewrite point_roundtrip, IH.
Qed.

Lemma length_polyline_bytes ps : length (polyline_bytes ps) = (length ps * 8)%nat.
Proof.
  induction ps as [| p ps IH]; [done |]. cbn [polyline_bytes length].
  rewrite length_app, length_point_bytes, IH. lia.
Qed.

Lemma length_payload k : kind_repr k -> length (payload_bytes k) = pod_kind_size (kind_of k).
Proof.
  destruct k as [r | c | c]; intros Hk; cbn [payload_bytes kind_of pod_kind_size].
  - apply length_ifixed_bytes.
  - destruct Hk as [Hl _]. by rewrite length_polyline_bytes, Hl.
  - apply length_ifixed_bytes.
Qed.

Lemma pod_kind_size_le k : (pod_kind_size k <= POD_UNION_SIZE)%nat.
Proof. destruct k; vm_compute; lia. Qed.

Lemma take_write_prefix b l n : length b = n -> take n (write_prefix b l) = b.
Proof. intros <-. unfold write_prefix. apply take_app_length. Qed.

Lemma length_write_prefix b l :
  (length b <= length l)%nat -> length (write_prefix b l) = length l.
Proof. intros H. unfold write_prefix. rewrite length_app, length_drop. lia. Qed.

(** Reading back a payload that was written over any bytes. *)
Lemma interest_rate_kind_written k l :
  kind_repr k ->
  interest_rate_kind {| kind := kind_of k; union := write_prefix (payload_bytes k) l |} = k.
Proof.
  intros Hk. unfold interest_rate_kind. cbn [kind union].
  rewrite take_write_prefix by (by apply length_payload).
  destruct k as [[r] | [ps] | [[r]]]; cbn [kind_of payload_bytes]; cbn in Hk.
  - by rewrite ifixed_roundtrip.
  - destruct Hk as [Hl Hok]. rewrite <- Hl. cbn [points_array]. by rewrite polyline_roundtrip.
  - cbn [rate_at_target per_second]. by rewrite ifixed_roundtrip.
Qed.

(** Storing a curve in the union of bytes and reading it back gives the curve, and
    the union has its fixed size. *)
Theorem pod_curve_roundtrip k :
  kind_repr k ->
  interest_rate_kind (from_interest_rate_kind k) = k /\
  length (union (from_interest_rate_kind k)) = POD_UNION_SIZE.
Proof.
  intros Hk. split; [by apply interest_rate_kind_written |].
  unfold from_interest_rate_kind. cbn [union].
  rewrite length_write_prefix; [apply length_replicate |].
  rewrite length_replicate, length_payload by done. apply pod_kind_size_le.
Qed.

Section Facts.
Context {FX : FixedCrate} {FXL : FixedLaws FX}.

Lemma rate_clamp_repr x lo hi :
  i_ok (per_second x) -> i_ok (per_second lo) -> i_ok (per_second hi) ->
  i_ok (per_second (rate_clamp x lo hi)).
Proof. intros. unfold rate_clamp. by repeat case_match. Qed.

Lemma new_rate_repr s x r :
  new_rate_at_target s x = Ok r -> RMIN <= i_bits (per_second r) <= RMAX.
Proof.
  intros H. unfold new_rate_at_target in H. run_inv. unfold rate_clamp, i_ltb.
  rewrite RMIN_bits, RMAX_bits.
  repeat case_match; bool_prop; cbn [per_second i_bits] in *; widths_lia.
Qed.

(** Whatever the outcome, the rate stored afterwards is representable. *)
Lemma borrow_rate_repr params c r c' :
  i_ok (per_second (rate_at_target c)) -> borrow_rate params c = (r, c') ->
  i_ok (per_second (rate_at_target c')).
Proof.
  intros Hc H. unfold borrow_rate, st_bind, st_get, st_lift, st_put, st_ret in H.
  destruct (compute_next_rates c params) as [[a en] | e |] eqn:E;
    injection H as <- <-; [| done | done].
  unfold compute_next_rates in E. run_inv. cbn [rate_at_target].
  destruct (i_is_zero (per_second (rate_at_target c))); run_inv.
  { unfold i_ok. rewrite RINIT_bits. cbn [per_second i_bits]. widths_lia. }
  destruct (i_is_zero _) in *; run_inv; [done |].
  match goal with H : new_rate_at_target _ _ = Ok ?e |- context [?e] => apply new_rate_repr in H end.
  widths_lia.
Qed.

(** The state of a curve that was validated when its market was created. *)
Definition curve_ok (k : InterestRateCurveKind) : Prop :=
  kind_repr k /\ is_valid k = true /\
  match k with Adaptive c => adaptive_ok c | _ => True end.

Lemma interest_rate_per_second_ok c u :
  kind_repr (Polyline c) -> is_valid (Polyline c) = true -> is_u32 u ->
  exists r, interest_rate_per_second c u = Ok r /\ 0 <= i_bits (per_second r) <= 2 ^ 48.
Proof.
  intros [Hlen Hok] Hv Hu. unfold is_valid, validate in Hv.
  destruct (validate_points (points_array c)) as [| []] eqn:Ev; [done |].
  apply validate_points_sound in Ev; [| done]. fold (points c) in Ev.
  destruct (points c) as [| p ps] eqn:Hp; [done |].
  destruct (apr_borrow_rate_bps_ok c p ps u Hp Ev Hu) as [(b & Hb & Hr) _].
  destruct Ev as (_ & Hpos & _). unfold interest_rate_per_second. rewrite Hb. cbn [res_bind].
  rewrite i_from_num_u64 by widths_lia. cbn [res_bind]. unfold i_from_u64, from_apr.
  rewrite i_div_u64_eq by done. cbn [res_bind expect]. rewrite i_div_u64_eq by done.
  eexists. split; [reflexivity |]. cbn [per_second i_bits].
  change ONE_IN_BPS with 10000. change SECONDS_PER_YEAR with 31536000.
  rewrite (Z.quot_div_nonneg (b * 2 ^ 48)) by lia.
  assert (0 <= b * 2 ^ 48 / 10000) by (apply div_nonneg; lia).
  rewrite Z.quot_div_nonneg by lia. split; [apply div_nonneg; lia |].
  apply div_le_upper; [lia |]. apply div_le_upper; widths_lia.
Qed.

Lemma utilisation_rate_bps_ok u elapsed :
  0 <= i_bits u <= 2 ^ 58 ->
  exists n, InterestRatePerSecond.utilisation_rate_bps
    {| utilisation_rate := u; elapsed_seconds_since_last_update := elapsed |} = Ok n /\
  is_u32 n /\ n = i_bits u * ONE_IN_BPS / 2 ^ 48.
Proof.
  intros Hu. unfold InterestRatePerSecond.utilisation_rate_bps. cbn [utilisation_rate].
  change ONE_IN_BPS with 10000.
  rewrite (proj2 (i_mul_u64_ok u 10000 (IFP (i_bits u * 10000))))
    by (split; [done | widths_lia]). cbn [res_bind].
  assert (Hb : 0 <= i_bits u * 10000 / 2 ^ 48 <= U32_MAX)
    by (split; [apply div_nonneg; lia | apply div_le_upper; widths_lia]).
  rewrite (proj2 (i_round_down_ok (IFP (i_bits u * 10000)) (i_bits u * 10000 / 2 ^ 48)))
    by (cbn [i_bits]; split; [done | widths_lia]). cbn [res_bind].
  exists (i_bits u * 10000 / 2 ^ 48). rewrite ok_or_ok, check_range_Some. done.
Qed.

(** A validated curve has a rate, and stays valid. *)
Lemma curve_rate_ok k u elapsed :
  curve_ok k -> 0 <= i_bits u <= 2 ^ 58 -> is_u64 elapsed ->
  exists r k', borrow_rate_per_second
    {| utilisation_rate := u; elapsed_seconds_since_last_update := elapsed |} k
    = (Ok r, k') /\ 0 <= i_bits (per_second r) /\ curve_ok k'.
Proof.
  intros (Hr & Hv & Ha) Hu He. unfold borrow_rate_per_second, kind_borrow_rate_per_second.
  unfold st_bind at 1, st_get at 1. destruct k as [r | c | c].
  - exists r, (Fixed r). split; [done |]. split; [| done].
    unfold is_valid, is_negative in Hv. bool_prop. lia.
  - destruct (utilisation_rate_bps_ok u elapsed Hu) as (n & Hn & Hn32 & _).
    unfold st_bind, st_lift. rewrite Hn.
    destruct (interest_rate_per_second_ok c n Hr Hv Hn32) as (r & -> & Hb).
    exists r, (Polyline c). split; [done |]. split; [lia | done].
  - destruct (borrow_rate_ok c u elapsed Ha Hu He) as (r & c' & Hrun & Ht & Hlo & _).
    rewrite Hrun. exists r, (Adaptive c'). split; [done |].
    change (RMIN / 4) with 22313 in Hlo. split; [lia |].
    split; [by eapply borrow_rate_repr |]. split; [done | by right].
Qed.

(** The curve stored in the bytes refines the curve it stores: asking either for a
    rate gives the same answer, and the bytes afterwards store the curve afterwards, on
    success and on failure. *)
Theorem pod_curve_refines_curve p params :
  pod_repr p -> kind_repr (interest_rate_kind p) ->
  let '(r, p') := borrow_rate_per_second params p in
  let '(r', k') := borrow_rate_per_second params (interest_rate_kind p) in
  r = r' /\ interest_rate_kind p' = k'.
Proof.
  intros [Hlen Hbytes] Hk. unfold borrow_rate_per_second, pod_borrow_rate_per_second,
    kind_borrow_rate_per_second.
  destruct p as [k u]. cbn [union] in *.
  unfold st_bind at 1, st_get at 1. cbn [kind union].
  unfold interest_rate_kind in Hk |- *. cbn [kind union] in *.
  destruct k; cbn [kind_of] in *.
  - split; reflexivity.
  - unfold st_bind, st_lift, st_get. by destruct (InterestRatePerSecond.utilisation_rate_bps params).
  - unfold st_bind, st_get. destruct (borrow_rate _ _) as [r [[c']]] eqn:E. split; [done |].
    apply borrow_rate_repr in E; [| done]. cbn [kind union].
    rewrite take_write_prefix by apply length_ifixed_bytes. by rewrite ifixed_roundtrip.
Qed.

(** C40: a curve of [curve_ok] always has a rate that is not negative, at any utilisation from
    zero up to 1024 and after any idle time that fits [u64], and is still such a curve
    afterwards. A fixed or polyline curve is one when [is_valid] accepts it; an adaptive curve
    is one when its rate at target is within the bounds of the curve or not started, which
    [is_valid] does not check and [new_adaptive] makes so. *)
Theorem valid_curve_always_has_a_rate k u elapsed :
  curve_ok k -> 0 <= i_bits u <= 2 ^ 58 -> is_u64 elapsed ->
  exists r k', borrow_rate_per_second
    {| utilisation_rate := u; elapsed_seconds_since_last_update := elapsed |} k
    = (Ok r, k') /\ 0 <= i_bits (per_second r) /\ curve_ok k'.
Proof. apply curve_rate_ok. Qed.

(** The bound that [is_valid] puts on a fixed rate covers one second only: at that rate
    the interest of two seconds cannot be computed. *)
Lemma valid_fixed_rate_can_fail :
  exists r, is_valid (Fixed r) = true /\
    coumpounding_interest_rate_during_elapsed_seconds r 2 = Err InvalidExpArg.
Proof.
  exists (mkRatePerSecond (from_i64_u64_ratio 5475 100)).
  split; [reflexivity |]. vm_compute. reflexivity.
Qed.

End Facts.

Lemma pod_curve_roundtrip_witness :
  interest_rate_kind (from_interest_rate_kind (Polyline polyline_default))
  = Polyline polyline_default.
Proof.
  apply (pod_curve_roundtrip (Polyline polyline_default)).
  split; [reflexivity |]. repeat constructor; vm_compute; discriminate.
Defined.

Lemma pod_curve_refines_witness :
  let params := {| utilisation_rate := i_one; elapsed_seconds_since_last_update := 60 |} in
  let p := from_interest_rate_kind (Adaptive (mkAdaptive INITIAL_RATE_AT_TARGET)) in
  exists r p', borrow_rate_per_second (LendingInterestRateCurveMut :=
      pod_borrow_rate_per_second (FX := fixed_ref)) params p = (Ok r, p') /\
    (Ok r, interest_rate_kind p')
      = borrow_rate_per_second (LendingInterestRateCurveMut :=
          kind_borrow_rate_per_second (FX := fixed_ref)) params (interest_rate_kind p).
Proof.
  intros params p.
  pose proof (pod_curve_refines_curve (FX := fixed_ref) p params) as H.
  destruct (borrow_rate_per_second params p) as [[r | e |] p'] eqn:E.
  - exists r, p'. split; [reflexivity |].
    destruct (borrow_rate_per_second params (interest_rate_kind p)) as [r' k'] eqn:E'.
    destruct H as [H1 H2].
    + split; [reflexivity |]. repeat constructor; vm_compute; congruence.
    + split; vm_compute; discriminate.
    + rewrite H1, H2. reflexivity.
  - vm_compute in E. discriminate E.
  - vm_compute in E. discriminate E.
Defined.

Lemma valid_curve_witness :
  exists r k', borrow_rate_per_second (LendingInterestRateCurveMut :=
      kind_borrow_rate_per_second (FX := fixed_ref))
    {| utilisation_rate := IFP (2 ^ 47); elapsed_seconds_since_last_update := 60 |}
    (Polyline polyline_default) = (Ok r, k') /\ 0 <= i_bits (per_second r).
Proof.
  destruct (valid_curve_always_has_a_rate (FX := fixed_ref) (FXL := fixed_ref_laws)
    (Polyline polyline_default) (IFP (2 ^ 47)) 60) as (r & k' & H & Hb & _).
  - split; [split; [reflexivity |] | split; [reflexivity | exact I]].
    repeat constructor; vm_compute; discriminate.
  - split; vm_compute; discriminate.
  - split; vm_compute; discriminate.
  - exists r, k'. split; [exact H | exact Hb].
Defined.
