(* ===== verification/PodOption.v ===== *)
(** * Optional plain data

    [autara-lib/src/pod_option.rs]: the all-zero value stands for nothing. *)
From S2P Require Import Prelude.
From S2P Require Import Errors.
From S2P Require Import Monad.

(** [Zeroable::zeroed]: the value of all-zero bytes. *)
Class Zeroable (T : Type) : Type := zeroed : T.

#[global] Instance Zeroable_int : Zeroable Z := 0.

Record PodOption (T : Type) : Type := mkPodOption { pod_value : T }.
Arguments mkPodOption {T} _.
Arguments pod_value {T} _.

#[global] Instance PodOption_eq_dec {T} `{EqDecision T} : EqDecision (PodOption T).
Proof. solve_decision. Defined.

Section Ops.
Context {T : Type} `{EqDecision T} `{Zeroable T}.

Definition as_ref (self : PodOption T) : option T :=
  if decide (pod_value self = zeroed) then None else Some (pod_value self).

Definition take : ST (PodOption T) (option T) :=
  let! self := st_get in
  if decide (pod_value self = zeroed) then st_ret None
  else
    st_put (mkPodOption zeroed) ;;;
    st_ret (Some (pod_value self)).

Definition set (value : T) : ST (PodOption T) () := st_put (mkPodOption value).

Lemma as_ref_some x v : as_ref x = Some v <-> pod_value x = v /\ v <> zeroed.
Proof. unfold as_ref. destruct (decide _); naive_solver. Qed.

Lemma as_ref_none x : as_ref x = None <-> pod_value x = zeroed.
Proof. unfold as_ref. destruct (decide _); naive_solver. Qed.

(** [take] returns what was there and leaves nothing. *)
Lemma take_eq x : take x = (Ok (as_ref x), mkPodOption zeroed).
Proof.
  unfold take, as_ref, st_bind, st_get, st_put, st_ret.
  destruct x as [v]. simpl. destruct (decide _); [by subst | done].
Qed.

End Ops.
