(* ===== verification/OracleRate.v ===== *)
(** * Oracle rates

    [autara-lib/src/oracle/oracle_price.rs] and the powers of ten of [constant.rs]. *)
From S2P Require Import Prelude.
From S2P Require Import Errors.
From S2P Require Import Monad.
From S2P Require Import FixedPoint.
From S2P Require Import FixedFacts.

Definition MAX_EXPONENT_ABS : Z := 18.

Definition POSITIVE_POWER_OF_TEN : list IFixedPoint :=
  [i_from_i64 1; i_from_i64 10; i_from_i64 100; i_from_i64 1000; i_from_i64 10000;
   i_from_i64 100000; i_from_i64 1000000; i_from_i64 10000000; i_from_i64 100000000;
   i_from_i64 1000000000; i_from_i64 10000000000; i_from_i64 100000000000;
   i_from_i64 1000000000000; i_from_i64 10000000000000; i_from_i64 100000000000000;
   i_from_i64 1000000000000000; i_from_i64 10000000000000000;
   i_from_i64 100000000000000000; i_from_i64 1000000000000000000].

(** [POSITIVE_POWER_OF_TEN[n as usize]]: an index out of range panics. *)
Definition power_of_ten (n : Z) : Res IFixedPoint :=
  or_panic (POSITIVE_POWER_OF_TEN !! Z.to_nat n).

Record OracleRate : Type := mkOracleRate {
  rate : IFixedPoint;
  confidence : IFixedPoint }.

#[global] Instance OracleRate_eq_dec : EqDecision OracleRate.
Proof. solve_decision. Defined.

(** [OracleRate::validate] *)
Definition validate (rate confidence : IFixedPoint) : Res () :=
  if is_negative rate || i_is_zero rate then Err OracleRateIsNull
  else if is_negative confidence then Err NegativeOracleRate
  else if i_leb rate confidence then Err OracleConfidenceExceedsRate
  else Ok tt.

Definition try_new (rate confidence : IFixedPoint) : Res OracleRate :=
  let? _ := validate rate confidence in
  Ok (mkOracleRate rate confidence).

(** [OracleRate::new] *)
Definition new (rate confidence : IFixedPoint) : Res OracleRate :=
  expect (try_new rate confidence).

Section Ops.
Context {FX : FixedCrate}.

(** [expo] is an [i8]: [checked_abs] fails on -128 only. *)
Definition try_from_price_expo_conf (price confidence expo : Z) : Res OracleRate :=
  let? abs := ok_or CastOverflow (check_range (-127) 127 (Z.abs expo)) in
  let? expo_pow := power_of_ten abs in
  let scale fixed := if expo <=? 0 then safe_div fixed expo_pow else safe_mul fixed expo_pow in
  let? p := i_from_num price in
  let? rate := scale p in
  let? c := i_from_num confidence in
  let? confidence := scale c in
  try_new rate confidence.

Definition lower_bound_rate (self : OracleRate) : Res IFixedPoint :=
  safe_sub (rate self) (confidence self).

Definition upper_bound_rate (self : OracleRate) : Res IFixedPoint :=
  safe_add (rate self) (confidence self).

Definition collateral_value (self : OracleRate) (amount decimals : Z) : Res IFixedPoint :=
  let? lb := lower_bound_rate self in
  let? m := safe_mul lb amount in
  let? p := power_of_ten decimals in
  safe_div m p.

Definition collateral_atoms (self : OracleRate) (value : IFixedPoint) (decimals : Z)
  : Res IFixedPoint :=
  let? p := power_of_ten decimals in
  let? m := safe_mul value p in
  let? lb := lower_bound_rate self in
  safe_div m lb.

Definition borrow_value (self : OracleRate) (amount decimals : Z) : Res IFixedPoint :=
  let? ub := upper_bound_rate self in
  let? m := safe_mul ub amount in
  let? p := power_of_ten decimals in
  safe_div m p.

Definition borrow_atoms (self : OracleRate) (value : IFixedPoint) (decimals : Z)
  : Res IFixedPoint :=
  let? p := power_of_ten decimals in
  let? m := safe_mul value p in
  let? ub := upper_bound_rate self in
  safe_div m ub.

Definition relative_confidence (self : OracleRate) : Res IFixedPoint :=
  safe_div (confidence self) (rate self).

End Ops.

(** * Facts about oracle rates

    A rate that passed validation is positive and its confidence interval stays positive;
    values are rounded down; collateral is valued below the rate and debt above it. *)

(** What [validate] establishes. *)
Definition oracle_ok (r : OracleRate) : Prop :=
  0 <= i_bits (confidence r) < i_bits (rate r) /\ i_bits (rate r) <= I128_MAX.

Definition is_decimals (d : Z) : Prop := 0 <= d <= 18.

Lemma power_of_ten_ok d : is_decimals d -> power_of_ten d = Ok (IFP (10 ^ d * 2 ^ 48)).
Proof.
  intros Hd. unfold power_of_ten. rewrite <- (Z2Nat.id d) at 2 by apply Hd.
  assert (Hn : (Z.to_nat d <= 18)%nat) by (unfold is_decimals in Hd; lia).
  generalize dependent (Z.to_nat d). intros n Hn.
  do 19 (destruct n as [| n]; [vm_compute; reflexivity |]). lia.
Qed.

Lemma pow10_pos d : is_decimals d -> 1 <= 10 ^ d <= 10 ^ 18.
Proof.
  intros Hd. unfold is_decimals in Hd. split; [| apply Z.pow_le_mono_r; lia].
  pose proof (Z.pow_pos_nonneg 10 d). lia.
Qed.

Lemma validate_ok r c :
  validate r c = Ok tt <-> 0 <= i_bits c < i_bits r.
Proof.
  unfold validate, is_negative, i_is_zero, i_leb.
  destruct (i_bits r <? 0) eqn:E1; destruct (i_bits r =? 0) eqn:E2;
    destruct (i_bits c <? 0) eqn:E3; destruct (i_bits r <=? i_bits c) eqn:E4;
    bool_prop; simpl; split; intros; try discriminate; try reflexivity; lia.
Qed.

Lemma try_new_ok rt c r :
  try_new rt c = Ok r <-> r = mkOracleRate rt c /\ 0 <= i_bits c < i_bits rt.
Proof.
  unfold try_new. rewrite res_bind_ok. split.
  - intros ([] & Hv & H). run_inv. split; [done | by apply validate_ok].
  - intros [-> Hv]. exists tt. split; [by apply validate_ok | done].
Qed.

Section Facts.
Context {FX : FixedCrate} {FXL : FixedLaws FX}.

(** Dividing by a power of ten: the floor of the exact value. *)
Lemma div_pow10_ok (m : Z) d c :
  is_decimals d -> 0 <= m -> safe_div (IFP m) (IFP (10 ^ d * 2 ^ 48)) = Ok c <->
  c = IFP (m / 10 ^ d) /\ m / 10 ^ d <= I128_MAX.
Proof.
  intros Hd Hm. pose proof (pow10_pos d Hd). rewrite i_div_ok by (simpl; lia).
  cbn [i_bits]. rewrite Z.div_mul_cancel_r by lia. split; [tauto |].
  intros H1. split; [lia | done].
Qed.

(** Multiplying by a power of ten is exact. *)
Lemma mul_pow10_ok (v : IFixedPoint) d c :
  is_decimals d -> 0 <= i_bits v -> safe_mul v (IFP (10 ^ d * 2 ^ 48)) = Ok c <->
  c = IFP (i_bits v * 10 ^ d) /\ i_bits v * 10 ^ d <= I128_MAX.
Proof.
  intros Hd Hv. pose proof (pow10_pos d Hd). rewrite i_mul_ok by (simpl; nia).
  cbn [i_bits]. rewrite Z.mul_assoc, Z.div_mul by lia. done.
Qed.

Lemma lower_bound_ok r :
  oracle_ok r -> lower_bound_rate r = Ok (IFP (i_bits (rate r) - i_bits (confidence r))) /\
  0 < i_bits (rate r) - i_bits (confidence r) <= i_bits (rate r).
Proof.
  intros [Hc Hm]. split; [| lia]. apply i_sub_ok. split; [done | widths_lia].
Qed.

Lemma upper_bound_ok r x :
  oracle_ok r -> upper_bound_rate r = Ok x <->
  x = IFP (i_bits (rate r) + i_bits (confidence r)) /\
  i_bits (rate r) + i_bits (confidence r) <= I128_MAX.
Proof.
  intros [Hc Hm]. unfold upper_bound_rate. rewrite i_add_ok.
  split; [tauto | intros [-> H]; split; [done | widths_lia]].
Qed.

(** The value of collateral and of debt. *)
Lemma collateral_value_ok r amount d v :
  oracle_ok r -> 0 <= amount -> is_decimals d -> collateral_value r amount d = Ok v ->
  i_bits v = (i_bits (rate r) - i_bits (confidence r)) * amount / 10 ^ d /\
  0 <= i_bits v <= I128_MAX.
Proof.
  intros Hr Ha Hd H. unfold collateral_value in H.
  destruct (lower_bound_ok r Hr) as [Hlb Hpos]. rewrite Hlb, power_of_ten_ok in H by done.
  cbn [res_bind] in H. run_inv. apply i_mul_u64_ok in H as [-> Hm]. cbn [i_bits] in *.
  apply div_pow10_ok in H0 as [-> Hle]; [| done | nia]. cbn [i_bits]. split; [done |].
  pose proof (pow10_pos d Hd). split; [apply div_nonneg; nia | done].
Qed.

Lemma borrow_value_ok r amount d v :
  oracle_ok r -> 0 <= amount -> is_decimals d -> borrow_value r amount d = Ok v ->
  i_bits v = (i_bits (rate r) + i_bits (confidence r)) * amount / 10 ^ d /\
  0 <= i_bits v <= I128_MAX.
Proof.
  intros Hr Ha Hd H. unfold borrow_value in H. rewrite power_of_ten_ok in H by done.
  run_inv. apply upper_bound_ok in H as [-> Hu]; [| done]. cbn [res_bind] in *.
  apply i_mul_u64_ok in H0 as [-> Hm]. run_inv. cbn [i_bits] in *.
  destruct Hr as [Hc Hmax].
  apply div_pow10_ok in H2 as [-> Hle]; [| done | nia]. cbn [i_bits]. split; [done |].
  pose proof (pow10_pos d Hd). split; [apply div_nonneg; nia | done].
Qed.

Lemma collateral_atoms_ok r value d a :
  oracle_ok r -> 0 <= i_bits value -> is_decimals d -> collateral_atoms r value d = Ok a ->
  i_bits a = i_bits value * 10 ^ d * 2 ^ 48 / (i_bits (rate r) - i_bits (confidence r)) /\
  0 <= i_bits a <= I128_MAX.
Proof.
  intros Hr Hv Hd H. unfold collateral_atoms in H.
  destruct (lower_bound_ok r Hr) as [Hlb Hpos]. rewrite Hlb, power_of_ten_ok in H by done.
  cbn [res_bind] in H. run_inv. pose proof (pow10_pos d Hd).
  apply mul_pow10_ok in H as [-> Hm]; [| done | done]. cbn [res_bind] in *.
  apply i_div_ok in H0 as (_ & -> & Hle); [| simpl; nia | simpl; lia]. cbn [i_bits] in *.
  split; [done |]. split; [apply div_nonneg; nia | done].
Qed.

Lemma borrow_atoms_ok r value d a :
  oracle_ok r -> 0 <= i_bits value -> is_decimals d -> borrow_atoms r value d = Ok a ->
  i_bits a = i_bits value * 10 ^ d * 2 ^ 48 / (i_bits (rate r) + i_bits (confidence r)) /\
  0 <= i_bits a <= I128_MAX.
Proof.
  intros Hr Hv Hd H. unfold borrow_atoms in H. rewrite power_of_ten_ok in H by done.
  cbn [res_bind] in H. run_inv. pose proof (pow10_pos d Hd).
  apply mul_pow10_ok in H as [-> Hm]; [| done | done].
  apply upper_bound_ok in H0 as [-> Hu]; [| done]. destruct Hr as [Hc Hmax].
  apply i_div_ok in H1 as (_ & -> & Hle); [| simpl; nia | simpl; lia]. cbn [i_bits] in *.
  split; [done |]. split; [apply div_nonneg; nia | done].
Qed.

(** Prices are read conservatively: at a validated rate the same amount is worth no
    more as collateral than as debt, both values are not negative and grow with the
    amount. *)
Theorem collateral_never_outvalues_debt r d a b cv bv cv' :
  oracle_ok r -> is_decimals d -> 0 <= a <= b ->
  collateral_value r a d = Ok cv -> borrow_value r a d = Ok bv ->
  collateral_value r b d = Ok cv' ->
  0 <= i_bits cv <= i_bits bv /\ i_bits cv <= i_bits cv'.
Proof.
  intros Hr Hd Hab Hc Hb Hc'. pose proof (pow10_pos d Hd). pose proof Hr as [Hconf _].
  apply collateral_value_ok in Hc as [-> Hc0]; [| done | lia | done].
  apply borrow_value_ok in Hb as [-> Hb0]; [| done | lia | done].
  apply collateral_value_ok in Hc' as [-> Hc0']; [| done | lia | done].
  repeat split; [apply div_nonneg; nia | apply div_le_mono; nia | apply div_le_mono; nia].
Qed.

(** Converting an amount to its value and back never gains: the atoms of the
    collateral value, and of the debt value, of an amount are at most the amount. *)
Theorem value_of_amount_roundtrip r d a v x :
  oracle_ok r -> is_decimals d -> 0 <= a ->
  (collateral_value r a d = Ok v -> collateral_atoms r v d = Ok x ->
   0 <= i_bits x <= a * 2 ^ 48) /\
  (borrow_value r a d = Ok v -> borrow_atoms r v d = Ok x ->
   0 <= i_bits x <= a * 2 ^ 48).
Proof.
  intros Hr Hd Ha. pose proof (pow10_pos d Hd) as Hp. pose proof Hr as [Hconf _].
  split; intros Hv Hx.
  - apply collateral_value_ok in Hv as [Hv Hv0]; [| done..].
    apply collateral_atoms_ok in Hx as [-> Hx0]; [| done | lia | done].
    split; [lia |]. rewrite Hv. set (lb := i_bits (rate r) - i_bits (confidence r)) in *.
    div_bounds (lb * a) (10 ^ d). apply div_le_upper; [lia | nia].
  - apply borrow_value_ok in Hv as [Hv Hv0]; [| done..].
    apply borrow_atoms_ok in Hx as [-> Hx0]; [| done | lia | done].
    split; [lia |]. rewrite Hv. set (ub := i_bits (rate r) + i_bits (confidence r)) in *.
    div_bounds (ub * a) (10 ^ d). apply div_le_upper; [lia | nia].
Qed.

(** A rate read from a price with an exponent in the table is validated, and reading it
    does not panic. *)
Lemma try_from_price_expo_conf_ok price conf expo :
  is_u64 price -> is_u64 conf -> - 18 <= expo <= 18 ->
  try_from_price_expo_conf price conf expo <> Panic /\
  (forall r, try_from_price_expo_conf price conf expo = Ok r -> oracle_ok r).
Proof.
  intros Hp Hc He. assert (Hd : is_decimals (Z.abs expo)) by (unfold is_decimals; lia).
  unfold try_from_price_expo_conf.
  rewrite (proj2 (check_range_Some _ _ _ _) (conj eq_refl (ltac:(lia) : -127 <= Z.abs expo <= 127))).
  cbn [ok_or res_bind]. rewrite power_of_ten_ok by done. cbn [res_bind].
  rewrite !i_from_num_u64 by done. cbn [res_bind]. unfold i_from_u64.
  pose proof (pow10_pos _ Hd).
  assert (Hscale : forall n, 0 <= n ->
    (if expo <=? 0 then safe_div (IFP n) (IFP (10 ^ Z.abs expo * 2 ^ 48))
     else safe_mul (IFP n) (IFP (10 ^ Z.abs expo * 2 ^ 48))) <> Panic /\
    (forall x, (if expo <=? 0 then safe_div (IFP n) (IFP (10 ^ Z.abs expo * 2 ^ 48))
     else safe_mul (IFP n) (IFP (10 ^ Z.abs expo * 2 ^ 48))) = Ok x ->
     i_bits x <= I128_MAX)).
  { intros n Hn. destruct (expo <=? 0).
    - split; [apply i_div_no_panic |]. intros x Hx.
      apply div_pow10_ok in Hx as [-> Hx]; [| done | done]. done.
    - split; [apply i_mul_no_panic |]. intros x Hx.
      apply mul_pow10_ok in Hx as [-> Hx]; [| done | done]. done. }
  destruct (Hscale (price * 2 ^ 48) ltac:(widths_lia)) as [Hnp1 Hok1].
  destruct (Hscale (conf * 2 ^ 48) ltac:(widths_lia)) as [Hnp2 Hok2].
  destruct (if expo <=? 0 then _ else _) as [x | e |]; [| split; [done | discriminate] | done].
  cbn [res_bind].
  destruct (if expo <=? 0 then _ else _) as [y | e |]; [| split; [done | discriminate] | done].
  cbn [res_bind]. split; [unfold try_new, validate; by repeat case_match |].
  intros r Hr. apply try_new_ok in Hr as [-> Hr]. split; [done |]. by apply Hok1.
Qed.

End Facts.

Lemma collateral_never_outvalues_debt_witness :
  let r := mkOracleRate (IFP (100 * 2 ^ 48)) (IFP (2 ^ 48)) in
  exists cv bv, collateral_value (FX := fixed_ref) r 50 2 = Ok cv /\
    borrow_value (FX := fixed_ref) r 50 2 = Ok bv /\ 0 <= i_bits cv <= i_bits bv.
Proof.
  intros r. eexists _, _. split; [vm_compute; reflexivity |].
  split; [vm_compute; reflexivity |].
  eapply (collateral_never_outvalues_debt (FX := fixed_ref) (FXL := fixed_ref_laws)
    r 2 50 60); try (vm_compute; reflexivity).
  - vm_compute. repeat split; congruence.
  - split; lia.
  - lia.
Defined.

Lemma value_of_amount_roundtrip_witness :
  let r := mkOracleRate (IFP (3 * 2 ^ 48)) (IFP 12345) in
  exists v x, collateral_value (FX := fixed_ref) r 7 2 = Ok v /\
    collateral_atoms (FX := fixed_ref) r v 2 = Ok x /\ 0 <= i_bits x <= 7 * 2 ^ 48.
Proof.
  intros r. eexists _, _. split; [vm_compute; reflexivity |].
  split; [vm_compute; reflexivity |].
  refine (proj1 (value_of_amount_roundtrip (FX := fixed_ref) (FXL := fixed_ref_laws)
    r 2 7 _ _ _ _ _) _ _); try (vm_compute; reflexivity).
  - vm_compute. repeat split; congruence.
  - split; lia.
  - lia.
Defined.
