(* ===== verification/Pda.v ===== *)
(** * Keys and program derived addresses

    [autara-lib/src/pda.rs].  A key is its thirty-two bytes.  [find_program_address]
    belongs to [arch_program], which is not part of the repository: it is a parameter. *)
From stdpp Require Import countable.
From Stdlib Require String Ascii.
From S2P Require Import Prelude.
From S2P Require Import PodOption.
Import String.StringSyntax.
#[local] Open Scope string_scope.
#[local] Open Scope Z_scope.

Definition Pubkey : Type := list Z.

#[global] Instance Pubkey_eq_dec : EqDecision Pubkey.
Proof. unfold Pubkey. solve_decision. Defined.

#[global] Instance Pubkey_countable : Countable Pubkey.
Proof. unfold Pubkey. apply _. Defined.

#[global] Instance Zeroable_Pubkey : Zeroable Pubkey := replicate 32 0.

(** The bytes of a literal. *)
Fixpoint bytes_of (s : String.string) : list Z :=
  match s with
  | String.EmptyString => []
  | String.String a s => Z.of_N (Ascii.N_of_ascii a) :: bytes_of s
  end.

Class PdaCrate : Type :=
  find_program_address : list (list Z) -> Pubkey -> Pubkey * Z.

Definition market_seed_without_bump (curator supply_mint collateral_mint : Pubkey)
  (index : list Z) : list (list Z) :=
  [bytes_of "market"; curator; supply_mint; collateral_mint; index].

Definition market_seed_with_bump (curator supply_mint collateral_mint : Pubkey)
  (index bump : list Z) : list (list Z) :=
  [bytes_of "market"; curator; supply_mint; collateral_mint; index; bump].

Definition supply_position_seed (market authority : Pubkey) : list (list Z) :=
  [bytes_of "supply_position"; market; authority].

Definition supply_position_seed_with_bump (market authority : Pubkey) (bump : list Z)
  : list (list Z) := [bytes_of "supply_position"; market; authority; bump].

Definition borrow_position_seed (market authority : Pubkey) : list (list Z) :=
  [bytes_of "borrow_position"; market; authority].

Definition borrow_position_seed_with_bump (market authority : Pubkey) (bump : list Z)
  : list (list Z) := [bytes_of "borrow_position"; market; authority; bump].

Definition liquidator_whitelist_entry_seed (market liquidator : Pubkey) : list (list Z) :=
  [bytes_of "liquidator_whitelist"; market; liquidator].

Definition liquidator_whitelist_entry_seed_with_bump (market liquidator : Pubkey)
  (bump : list Z) : list (list Z) :=
  [bytes_of "liquidator_whitelist"; market; liquidator; bump].

Definition global_config_seed : list (list Z) := [bytes_of "global_config"].

Definition global_config_seed_with_bump (bump : list Z) : list (list Z) :=
  [bytes_of "global_config"; bump].

Section Find.
Context {PC : PdaCrate}.

Definition find_supply_position_pda (program_id market authority : Pubkey) : Pubkey * Z :=
  find_program_address (supply_position_seed market authority) program_id.

Definition find_borrow_position_pda (program_id market authority : Pubkey) : Pubkey * Z :=
  find_program_address (borrow_position_seed market authority) program_id.

Definition find_liquidator_whitelist_entry_pda (program_id market liquidator : Pubkey)
  : Pubkey * Z :=
  find_program_address (liquidator_whitelist_entry_seed market liquidator) program_id.

Definition find_market_pda (program_id curator supply_mint collateral_mint : Pubkey)
  (index : Z) : Pubkey * Z :=
  find_program_address
    (market_seed_without_bump curator supply_mint collateral_mint [index]) program_id.

Definition find_global_config_pda (program_id : Pubkey) : Pubkey * Z :=
  find_program_address global_config_seed program_id.

End Find.

(** ** Seeds separate the accounts *)

(** The account a set of seeds is for. *)
Inductive PdaKind : Type :=
| PdaMarket (curator supply_mint collateral_mint : Pubkey) (index : Z)
| PdaSupplyPosition (market authority : Pubkey)
| PdaBorrowPosition (market authority : Pubkey)
| PdaWhitelistEntry (market liquidator : Pubkey)
| PdaGlobalConfig.

Definition seeds_of (k : PdaKind) : list (list Z) :=
  match k with
  | PdaMarket c s m i => market_seed_without_bump c s m [i]
  | PdaSupplyPosition m a => supply_position_seed m a
  | PdaBorrowPosition m a => borrow_position_seed m a
  | PdaWhitelistEntry m l => liquidator_whitelist_entry_seed m l
  | PdaGlobalConfig => global_config_seed
  end.

(** The runtime hashes the concatenation of the seeds. *)
Definition preimage (seeds : list (list Z)) : list Z := List.concat seeds.

Lemma app_inj_len (a b c d : list Z) : length a = length b -> a ++ c = b ++ d -> a = b /\ c = d.
Proof. intros Hl H. by apply app_inj_1 in H. Qed.

Definition pda_wf (k : PdaKind) : Prop :=
  match k with
  | PdaMarket c s m _ => length c = 32%nat /\ length s = 32%nat /\ length m = 32%nat
  | PdaSupplyPosition m a | PdaBorrowPosition m a | PdaWhitelistEntry m a =>
    length m = 32%nat /\ length a = 32%nat
  | PdaGlobalConfig => True
  end.

(** No two accounts of the program share a derivation: the concatenated seeds of a
    market, a supply position, a borrow position, a whitelist entry and the global
    configuration determine the kind of account and every key in it. *)
Theorem pda_seeds_are_unambiguous k k' :
  pda_wf k -> pda_wf k' -> preimage (seeds_of k) = preimage (seeds_of k') -> k = k'.
Proof.
  intros Hk Hk' H.
  destruct k as [c s m i | m a | m a | m a |], k' as [c' s' m' i' | m' a' | m' a' | m' a' |];
    unfold preimage in H; simpl in H; try discriminate H; try reflexivity; simpl in Hk, Hk'.
  - destruct Hk as (Hc & Hs & Hm), Hk' as (Hc' & Hs' & Hm').
    injection H as H.
    apply app_inj_len in H as [-> H]; [| lia]. apply app_inj_len in H as [-> H]; [| lia].
    apply app_inj_len in H as [-> H]; [| lia]. by injection H as ->.
  - destruct Hk as [Hm Ha], Hk' as [Hm' Ha']. injection H as H.
    apply app_inj_len in H as [-> H]; [| lia]. by rewrite !app_nil_r in H; subst.
  - destruct Hk as [Hm Ha], Hk' as [Hm' Ha']. injection H as H.
    apply app_inj_len in H as [-> H]; [| lia]. by rewrite !app_nil_r in H; subst.
  - destruct Hk as [Hm Ha], Hk' as [Hm' Ha']. injection H as H.
    apply app_inj_len in H as [-> H]; [| lia]. by rewrite !app_nil_r in H; subst.
Qed.

Lemma pda_seeds_witness :
  PdaSupplyPosition (replicate 32 1) (replicate 32 2)
  = PdaSupplyPosition (replicate 32 1) (replicate 32 2).
Proof.
  apply pda_seeds_are_unambiguous; [split; reflexivity | split; reflexivity | reflexivity].
Defined.
