(* ===== verification/Oracle.v ===== *)
(** * Oracle providers and validation

    [autara-lib/src/oracle]: [oracle_provider.rs], [pyth.rs], [chaos.rs],
    [oracle_config.rs], [pod_oracle_provider.rs].  A feed account is its key, its owner and
    its bytes.  Addresses are derived by [arch_program] and a Chaos account is decoded by
    [borsh]: both are parameters.  Account data is taken to be aligned, as the runtime
    hands it out; the legacy layout of host-side clients is not modelled. *)
From Stdlib Require String.
From S2P Require Import Prelude.
From S2P Require Import Errors.
From S2P Require Import Monad.
From S2P Require Import FixedPoint.
From S2P Require Import Bytes.
From S2P Require Import PodOption.
From S2P Require Import Pda.
From S2P Require Import OracleRate.
From S2P Require Import FixedFacts.
Import String.StringSyntax.
#[local] Open Scope string_scope.
#[local] Open Scope Z_scope.

#[global] Instance Zeroable_IFixedPoint : Zeroable IFixedPoint := IFP 0.

(** ** Data *)

Record AccountView : Type := mkAccountView {
  key : Pubkey;
  data : list Z;
  owner : Pubkey }.

Record PythProvider : Type := mkPyth {
  pyth_feed_id : list Z;
  pyth_program_id : Pubkey }.

Record ChaosProvider : Type := mkChaos {
  chaos_feed_id : list Z;
  chaos_program_id : Pubkey;
  required_signatures : Z;
  chaos_pad : list Z }.

#[global] Instance PythProvider_eq_dec : EqDecision PythProvider.
Proof. solve_decision. Defined.
#[global] Instance ChaosProvider_eq_dec : EqDecision ChaosProvider.
Proof. solve_decision. Defined.

Inductive OracleProvider : Type :=
| Pyth (provider : PythProvider)
| Chaos (provider : ChaosProvider).

#[global] Instance OracleProvider_eq_dec : EqDecision OracleProvider.
Proof. solve_decision. Defined.

Record UncheckedOracleRate : Type := mkUnchecked {
  unsafe_rate : OracleRate;
  publish_time : Z }.

Record OracleValidationConfig : Type := mkValidation {
  max_age_ : PodOption Z;
  min_relative_confidence_ : PodOption IFixedPoint }.

Definition max_age (self : OracleValidationConfig) : option Z := as_ref (max_age_ self).
Definition min_relative_confidence (self : OracleValidationConfig) : option IFixedPoint :=
  as_ref (min_relative_confidence_ self).

(** [OracleValidationConfig::new] *)
Definition validation_new (max_age : Z) (min_relative_confidence : IFixedPoint)
  : OracleValidationConfig :=
  mkValidation (mkPodOption max_age) (mkPodOption min_relative_confidence).

(** ** Accounts of the two providers *)

(** [pyth.rs]: [PriceData], [PythPrice], [PythPriceAccount] and their [repr(C)] layout;
    the fields that no code reads are left in the bytes. *)
Record PythPriceData : Type := mkPythPriceData {
  pd_price : Z; pd_conf : Z; pd_expo : Z; pd_publish_time : Z }.
Record PythPrice : Type := mkPythPrice {
  pp_id : list Z;
  pp_price : PythPriceData }.

Definition PYTH_PRICE_SIZE : nat := 32 + 32 + 32 + 24.
Definition PYTH_PRICE_ACCOUNT_SIZE : nat := PYTH_PRICE_SIZE + 32.

(** The bytes of a [PythPrice], with whatever follows them. *)
Definition pyth_price_at_start (l : list Z) : PythPrice :=
  mkPythPrice (slice 0 32 l)
    (mkPythPriceData (le_val (slice 32 8 l)) (le_val (slice 40 8 l))
       (le_sval (slice 48 8 l)) (le_sval (slice 56 8 l))).

(** The price of a feed account: [bytemuck::try_from_bytes::<PythPriceAccount>(..).pyth_price],
    and with the feature [client] also a legacy account, which is one [PythPrice]. *)
Definition pyth_try_from_bytes (client : bool) (l : list Z) : option PythPrice :=
  if (length l =? PYTH_PRICE_ACCOUNT_SIZE)%nat then Some (pyth_price_at_start l)
  else if client && (length l =? PYTH_PRICE_SIZE)%nat then Some (pyth_price_at_start l)
  else None.

(** [chaos.rs]: [PriceData] and [ChaosPriceState]. *)
Record ChaosPriceData : Type := mkChaosPriceData {
  cd_price : Z; cd_observed_ts : Z; cd_expo : Z }.
Record ChaosPriceState : Type := mkChaosPriceState {
  cs_version : Z;
  cs_price_id : list Z;
  cs_price : ChaosPriceData;
  cs_ema_price : ChaosPriceData;
  cs_num_signatures : Z;
  cs_slot : Z;
  cs_publish_time : Z;
  cs_bump : Z }.

(** How [autara-lib] is built: [ChaosPriceState::try_from_slice], which [borsh] derives, and
    whether the feature [client] is on.  It is off in the programs and on in the client, the
    server, the tools and the liquidator. *)
Class OracleBuild : Type := {
  chaos_try_from_slice : list Z -> option ChaosPriceState;
  client_feature : bool }.

Definition CHAOS_DISCRIMINATOR : list Z := [168; 184; 18; 246; 179; 16; 141; 51].
Definition PRICE_CONFIG_SEED : list Z := bytes_of "chaos_price_config".

Section Ops.
Context {FX : FixedCrate} {PC : PdaCrate} {BC : OracleBuild}.

(** ** Validation *)

(** [UncheckedOracleRate::validate]: [unix_timestamp] and [publish_time] are [i64]. *)
Definition validate (self : UncheckedOracleRate) (config : OracleValidationConfig)
  (unix_timestamp : Z) : Res OracleRate :=
  let r := unsafe_rate self in
  if is_negative (rate r) then Err NegativeOracleRate
  else if is_negative (confidence r) then Err NegativeOracleRate
  else if i_is_zero (rate r) then Err OracleRateIsNull
  else
    let? d := ok_or SubtractionOverflow
                (check_range I64_MIN I64_MAX (unix_timestamp - publish_time self)) in
    let age := as_u64 (Z.max d 0) in
    if match max_age config with Some max_age => max_age <? age | None => false end
    then Err OracleRateTooOld
    else
      let? relative := relative_confidence r in
      if match min_relative_confidence config with
         | Some min_conf => i_ltb min_conf relative | None => false end
      then Err OracleRateRelativeConfidenceTooLow
      else Ok r.

(** ** Loading *)

Class OracleLoader (P : Type) : Type :=
  load_oracle_price : P -> AccountView -> Res UncheckedOracleRate.

#[global] Instance pyth_load_oracle_price : OracleLoader PythProvider := fun self view =>
  if negb (bool_decide (owner view = pyth_program_id self)) then Err InvalidPythOracleAccount
  else
    let? price := ok_or InvalidPythOracleAccount (pyth_try_from_bytes client_feature (data view)) in
    if negb (bool_decide (pp_id price = pyth_feed_id self)) then Err InvalidOracleFeedId
    else if (MAX_EXPONENT_ABS <? pd_expo (pp_price price))
         || (pd_expo (pp_price price) <? - MAX_EXPONENT_ABS)
    then Err InvalidPythOracleAccount
    else
      let expo := as_i8 (pd_expo (pp_price price)) in
      let? r := try_from_price_expo_conf (pd_price (pp_price price))
                  (pd_conf (pp_price price)) expo in
      Ok (mkUnchecked r (pd_publish_time (pp_price price))).

#[global] Instance chaos_load_oracle_price : OracleLoader ChaosProvider := fun self view =>
  if negb (bool_decide (owner view = chaos_program_id self)) then Err InvalidChaosOracleAccount
  else if (length (data view) <? 8)%nat then Err InvalidChaosOracleAccount
  else if negb (bool_decide (slice 0 8 (data view) = CHAOS_DISCRIMINATOR))
  then Err InvalidChaosOracleAccount
  else
    let? price := ok_or InvalidChaosOracleAccount (chaos_try_from_slice (drop 8 (data view))) in
    if negb (bool_decide (cs_price_id price = chaos_feed_id self)) then Err InvalidOracleFeedId
    else if cs_num_signatures price <? required_signatures self
    then Err InvalidChaosOracleAccount
    else if (MAX_EXPONENT_ABS <? cd_expo (cs_price price))
         || (cd_expo (cs_price price) <? - MAX_EXPONENT_ABS)
    then Err InvalidChaosOracleAccount
    else
      let? r := try_from_price_expo_conf (cd_price (cs_price price)) 0
                  (cd_expo (cs_price price)) in
      Ok (mkUnchecked r (as_i64 (cd_observed_ts (cs_price price)))).

Definition oracle_feed_pubkey (self : OracleProvider) : option Pubkey :=
  match self with
  | Pyth provider =>
    Some (fst (find_program_address [pyth_feed_id provider] (pyth_program_id provider)))
  | Chaos provider =>
    Some (fst (find_program_address [PRICE_CONFIG_SEED; chaos_feed_id provider]
                 (chaos_program_id provider)))
  end.

(** [impl OracleLoader for OracleProviderRef] *)
#[global] Instance provider_load_oracle_price : OracleLoader OracleProvider := fun self view =>
  let go := match self with
            | Pyth p => load_oracle_price p view
            | Chaos p => load_oracle_price p view
            end in
  match oracle_feed_pubkey self with
  | Some expected_key =>
    if bool_decide (key view = expected_key) then go else Err InvalidOracleFeedAccount
  | None => go
  end.

(** ** Storage *)

Inductive PodOracleProviderKind : Type := KPyth | KChaos.

Definition pod_provider_size (k : PodOracleProviderKind) : nat :=
  match k with KPyth => 32 + 32 | KChaos => 32 + 32 + 1 + 7 end.

Record PodOracleProvider : Type := mkPodOracleProvider {
  provider_kind : PodOracleProviderKind;
  provider_union : list Z }.

Definition ORACLE_UNION_SIZE : nat := Nat.max (pod_provider_size KPyth) (pod_provider_size KChaos).

Definition from_oracle_provider (p : OracleProvider) : PodOracleProvider :=
  match p with
  | Pyth p =>
    let bytes := pyth_feed_id p ++ pyth_program_id p in
    mkPodOracleProvider KPyth (bytes ++ drop (length bytes) (replicate ORACLE_UNION_SIZE 0))
  | Chaos p =>
    let bytes := chaos_feed_id p ++ chaos_program_id p ++ [required_signatures p]
                 ++ chaos_pad p in
    mkPodOracleProvider KChaos (bytes ++ drop (length bytes) (replicate ORACLE_UNION_SIZE 0))
  end.

(** [oracle_provider] and [oracle_provider_ref] *)
Definition oracle_provider (self : PodOracleProvider) : OracleProvider :=
  let u := provider_union self in
  match provider_kind self with
  | KPyth => Pyth (mkPyth (slice 0 32 u) (slice 32 32 u))
  | KChaos => Chaos (mkChaos (slice 0 32 u) (slice 32 32 u) (le_val (slice 64 1 u))
                       (slice 65 7 u))
  end.

#[global] Instance pod_load_oracle_price : OracleLoader PodOracleProvider := fun self view =>
  load_oracle_price (oracle_provider self) view.

(** ** Configuration *)

Record OracleConfig : Type := mkOracleConfig {
  config_provider : PodOracleProvider;
  validation_config : OracleValidationConfig }.

(** [OracleConfig::new] *)
Definition config_new (p : PodOracleProvider) (v : OracleValidationConfig) : OracleConfig :=
  mkOracleConfig p v.

(** [OracleValidationConfig::default] *)
Definition validation_default : OracleValidationConfig :=
  mkValidation (mkPodOption 60) (mkPodOption (i_lit 5 100)).

Definition new_pyth (feed_id : list Z) (program_id : Pubkey) : OracleConfig :=
  mkOracleConfig (from_oracle_provider (Pyth (mkPyth feed_id program_id))) validation_default.

Definition new_chaos (feed_id : list Z) (program_id : Pubkey) (required_signatures : Z)
  : OracleConfig :=
  mkOracleConfig
    (from_oracle_provider
       (Chaos (mkChaos feed_id program_id required_signatures (replicate 7 0))))
    validation_default.

(** [OracleConfig::validate] *)
Definition config_validate (self : OracleConfig) : Res () :=
  match oracle_provider (config_provider self) with
  | Chaos p => if required_signatures p =? 0 then Err InvalidOracleConfig else Ok tt
  | Pyth _ => Ok tt
  end.

Definition load_and_validate_oracle_rate (self : OracleConfig) (view : AccountView)
  (unix_timestamp : Z) : Res OracleRate :=
  let? unchecked_price := load_oracle_price (config_provider self) view in
  validate unchecked_price (validation_config self) unix_timestamp.

Definition load_oracle_rate_unchecked (self : OracleConfig) (view : AccountView)
  : Res OracleRate :=
  let? unchecked_price := load_oracle_price (config_provider self) view in
  Ok (unsafe_rate unchecked_price).

End Ops.

(** * Facts about oracle loading

    A rate that comes out of an oracle configuration is a validated rate of the feed's own
    account, fresh and confident enough, and no account content makes the code panic. *)

(** The build of the programs from the same sources. *)
Definition program_build (BC : OracleBuild) : OracleBuild :=
  {| chaos_try_from_slice := chaos_try_from_slice; client_feature := false |}.

(** A decoded Chaos state has fields of its field types. *)
Class OracleBuildLaws (BC : OracleBuild) : Prop :=
  chaos_fields : forall l s, chaos_try_from_slice l = Some s ->
    is_u64 (cd_price (cs_price s)) /\ is_u64 (cd_observed_ts (cs_price s)) /\
    -128 <= cd_expo (cs_price s) <= 127.

(** The program that owns the feeds of a provider. *)
Definition provider_program_id (p : OracleProvider) : Pubkey :=
  match p with Pyth p => pyth_program_id p | Chaos p => chaos_program_id p end.

Definition provider_repr (p : OracleProvider) : Prop :=
  match p with
  | Pyth p => length (pyth_feed_id p) = 32%nat /\ length (pyth_program_id p) = 32%nat
  | Chaos p => length (chaos_feed_id p) = 32%nat /\ length (chaos_program_id p) = 32%nat /\
               is_u8 (required_signatures p) /\ length (chaos_pad p) = 7%nat
  end.

Lemma as_i8_small x : -128 <= x <= 127 -> as_i8 x = x.
Proof.
  intros H. unfold as_i8. destruct (Z.le_gt_cases 0 x).
  - rewrite Z.mod_small by lia. by rewrite (proj2 (Z.ltb_lt _ _)) by lia.
  - replace (x mod 2 ^ 8) with (x + 2 ^ 8) by (apply (Z.mod_unique x (2 ^ 8) (-1)); lia).
    rewrite (proj2 (Z.ltb_ge _ _)); lia.
Qed.

(** Storing a provider in the union of bytes and reading it back gives the provider. *)
Theorem pod_oracle_provider_roundtrip p :
  provider_repr p -> oracle_provider (from_oracle_provider p) = p.
Proof.
  destruct p as [[f g] | [f g n pad]]; unfold from_oracle_provider, oracle_provider; simpl.
  - intros [Hf Hg]. rewrite <- app_assoc. rewrite (slice_first f), (slice_exact f g); done.
  - intros (Hf & Hg & Hn & Hpad). rewrite <- !app_assoc.
    rewrite (slice_first f) by done. rewrite (slice_exact f g) by done.
    match goal with |- context [slice 64 1 (f ++ g ++ (n :: pad) ++ ?r)] =>
      replace (f ++ g ++ (n :: pad) ++ r) with ((f ++ g) ++ [n] ++ pad ++ r)
        by (by rewrite <- app_assoc);
      rewrite (slice_exact (f ++ g) [n]) by (rewrite ?length_app; simpl; lia);
      replace ((f ++ g) ++ [n] ++ pad ++ r) with (((f ++ g) ++ [n]) ++ pad ++ r)
        by (by rewrite <- app_assoc);
      rewrite (slice_exact ((f ++ g) ++ [n]) pad) by (rewrite ?length_app; simpl; lia)
    end.
    simpl le_val. rewrite Z.add_0_r. done.
Qed.

Section Facts.
Context {FX : FixedCrate} {FXL : FixedLaws FX} {PC : PdaCrate} {BC : OracleBuild}.

(** What a successful load of a single provider says. *)
Definition loaded_from (p : OracleProvider) (view : AccountView) (u : UncheckedOracleRate)
  : Prop :=
  load_oracle_price p view = Ok u /\ oracle_feed_pubkey p = Some (key view) /\
  owner view = provider_program_id p /\ oracle_ok (unsafe_rate u).

Lemma pyth_load_ok p view :
  Forall is_byte (data view) ->
  pyth_load_oracle_price p view <> Panic /\
  forall u, pyth_load_oracle_price p view = Ok u ->
  owner view = pyth_program_id p /\ oracle_ok (unsafe_rate u).
Proof.
  intros Hb. unfold pyth_load_oracle_price.
  case_bool_decide as Ho; simpl; [| done].
  destruct (pyth_try_from_bytes _ (data view)) as [pr |] eqn:Ep; simpl; [| done].
  case_bool_decide as Hid; simpl; [| done].
  destruct (_ || _) eqn:Eexp; simpl; [done |]. bool_prop. unfold MAX_EXPONENT_ABS in *.
  rewrite as_i8_small by lia.
  assert (pr = pyth_price_at_start (data view)) as ->
    by (unfold pyth_try_from_bytes in Ep; repeat case_match; congruence). simpl in *.
  edestruct (try_from_price_expo_conf_ok (le_val (slice 32 8 (data view)))
    (le_val (slice 40 8 (data view))) (le_sval (slice 48 8 (data view)))) as [Hnp Hok];
    [by apply le_val_u64.. | lia |].
  destruct (try_from_price_expo_conf _ _ _) as [r | e |]; simpl; [| done | done].
  split; [done |]. intros u Hu. injection Hu as <-. split; [done |]. by apply Hok.
Qed.

Lemma chaos_load_ok {BCL : OracleBuildLaws BC} p view :
  chaos_load_oracle_price p view <> Panic /\
  forall u, chaos_load_oracle_price p view = Ok u ->
  owner view = chaos_program_id p /\ oracle_ok (unsafe_rate u).
Proof.
  unfold chaos_load_oracle_price.
  case_bool_decide as Ho; simpl; [| done]. destruct (_ <? 8)%nat; [done |].
  case_bool_decide as Hd; simpl; [| done].
  destruct (chaos_try_from_slice _) as [s |] eqn:Es; simpl; [| done].
  case_bool_decide as Hid; simpl; [| done]. destruct (_ <? _); [done |].
  destruct (_ || _) eqn:Eexp; simpl; [done |]. bool_prop. unfold MAX_EXPONENT_ABS in *.
  destruct (BCL _ _ Es) as (Hp & _ & _).
  edestruct (try_from_price_expo_conf_ok (cd_price (cs_price s)) 0 (cd_expo (cs_price s)))
    as [Hnp Hok]; [done | widths_lia | lia |].
  destruct (try_from_price_expo_conf _ _ _) as [r | e |]; simpl; [| done | done].
  split; [done |]. intros u Hu. injection Hu as <-. split; [done |]. by apply Hok.
Qed.

Lemma provider_load_ok {BCL : OracleBuildLaws BC} (p : OracleProvider) view :
  Forall is_byte (data view) ->
  load_oracle_price p view <> Panic /\
  forall u, load_oracle_price p view = Ok u -> loaded_from p view u.
Proof.
  intros Hb. unfold loaded_from.
  enough (Hg : load_oracle_price p view <> Panic /\
    forall u, load_oracle_price p view = Ok u ->
    oracle_feed_pubkey p = Some (key view) /\
    owner view = provider_program_id p /\ oracle_ok (unsafe_rate u))
    by (destruct Hg as [H1 H2]; split; [done | intros u Hu; split; [done | by apply H2]]).
  unfold load_oracle_price, provider_load_oracle_price.
  destruct p as [p | p]; cbn [oracle_feed_pubkey]; case_bool_decide as Hk; [| done | | done];
    unfold load_oracle_price.
  - destruct (pyth_load_ok p view Hb) as [Hnp Hok]. split; [done |]. intros u Hu.
    rewrite Hk. split; [done |]. by apply Hok.
  - destruct (chaos_load_ok p view) as [Hnp Hok]. split; [done |]. intros u Hu.
    rewrite Hk. split; [done |]. by apply Hok.
Qed.

(** What the programs load the client loads too, with the same result: its build only accepts
    more accounts. *)
Lemma program_load_is_client_load cfg view u :
  load_oracle_price (OracleLoader := pod_load_oracle_price (BC := program_build BC))
    (config_provider cfg) view = Ok u ->
  load_oracle_price (config_provider cfg) view = Ok u.
Proof.
  unfold load_oracle_price, pod_load_oracle_price, load_oracle_price, provider_load_oracle_price.
  destruct (oracle_provider (config_provider cfg)) as [p | p]; [| done].
  destruct (oracle_feed_pubkey (Pyth p)); [destruct (bool_decide _); [| done] |];
    unfold load_oracle_price, pyth_load_oracle_price, pyth_try_from_bytes; cbn [client_feature];
    destruct (negb _), (length (data view) =? PYTH_PRICE_ACCOUNT_SIZE)%nat; done.
Qed.

(** The outcome of validation of a rate that is [oracle_ok]. *)
Lemma validate_ok_iff u cfg ts r :
  oracle_ok (unsafe_rate u) ->
  Oracle.validate u cfg ts = Ok r ->
  r = unsafe_rate u /\
  (forall m, max_age cfg = Some m -> is_u64 m -> ts - publish_time u <= m) /\
  (forall c, min_relative_confidence cfg = Some c ->
   i_bits (confidence r) * 2 ^ 48 / i_bits (rate r) <= i_bits c).
Proof.
  intros [Hc Hm] H. unfold Oracle.validate, is_negative, i_is_zero in H.
  rewrite (proj2 (Z.ltb_ge (i_bits (rate (unsafe_rate u))) 0)) in H by lia.
  rewrite (proj2 (Z.ltb_ge (i_bits (confidence (unsafe_rate u))) 0)) in H by lia.
  rewrite (proj2 (Z.eqb_neq (i_bits (rate (unsafe_rate u))) 0)) in H by lia.
  run_inv. apply check_range_Some in H as [-> Hr].
  destruct (match max_age cfg with Some _ => _ | None => _ end) eqn:Eage; [done |].
  run_inv. unfold relative_confidence in *.
  apply i_div_ok in H as (_ & -> & Hle); [| lia..].
  destruct (match min_relative_confidence cfg with Some _ => _ | None => _ end) eqn:Ec; [done |].
  run_inv. split; [done |]. split.
  - intros m Hmx Hm64. rewrite Hmx in Eage. bool_prop.
    rewrite as_u64_small in Eage by widths_lia. lia.
  - intros c Hcx. rewrite Hcx in Ec. unfold i_ltb in Ec. bool_prop. done.
Qed.

Lemma validate_no_panic u cfg ts :
  Oracle.validate u cfg ts <> Panic.
Proof.
  unfold Oracle.validate.
  destruct (is_negative _); [done |]. destruct (is_negative _); [done |].
  destruct (i_is_zero _); [done |].
  destruct (check_range _ _ _); cbn [ok_or res_bind]; [| done].
  destruct (match max_age cfg with Some _ => _ | None => _ end); [done |].
  pose proof (i_div_no_panic (confidence (unsafe_rate u)) (rate (unsafe_rate u))).
  unfold relative_confidence. destruct (safe_div _ _); cbn [res_bind]; [| done | done].
  by destruct (match min_relative_confidence cfg with Some _ => _ | None => _ end).
Qed.

(** C38: a rate obtained from an oracle configuration comes from the canonical account of
    the configured feed, owned by the configured program; it is positive with a confidence
    below it, not older than the configured age and within the configured relative
    confidence. *)
Theorem oracle_rate_is_trustworthy {BCL : OracleBuildLaws BC} cfg view ts r :
  Forall is_byte (data view) ->
  load_and_validate_oracle_rate cfg view ts = Ok r ->
  let p := oracle_provider (config_provider cfg) in
  oracle_feed_pubkey p = Some (key view) /\ owner view = provider_program_id p /\
  oracle_ok r /\
  exists u, load_oracle_price p view = Ok u /\ unsafe_rate u = r /\
  (forall m, max_age (validation_config cfg) = Some m -> is_u64 m ->
   ts - publish_time u <= m) /\
  (forall c, min_relative_confidence (validation_config cfg) = Some c ->
   i_bits (confidence r) * 2 ^ 48 / i_bits (rate r) <= i_bits c).
Proof.
  intros Hb H p. unfold load_and_validate_oracle_rate in H. run_inv.
  rename H into Hl, H0 into Hv. fold p in Hl.
  destruct (provider_load_ok p view Hb) as [_ Hok]. destruct (Hok _ Hl) as (_ & Hk & Ho & Hr).
  destruct (validate_ok_iff _ _ _ _ Hr Hv) as (-> & Hage & Hconf).
  do 2 (split; [done |]). split; [done |]. eexists. split; [exact Hl |]. done.
Qed.

(** No content of a feed account and no clock value makes loading a rate panic. *)
Theorem oracle_load_never_panics {BCL : OracleBuildLaws BC} cfg view ts :
  Forall is_byte (data view) ->
  load_and_validate_oracle_rate cfg view ts <> Panic /\
  load_oracle_rate_unchecked cfg view <> Panic.
Proof.
  intros Hb. unfold load_and_validate_oracle_rate, load_oracle_rate_unchecked.
  destruct (provider_load_ok (oracle_provider (config_provider cfg)) view Hb) as [Hnp Hok].
  change (load_oracle_price (config_provider cfg) view)
    with (load_oracle_price (oracle_provider (config_provider cfg)) view).
  destruct (load_oracle_price _ _) as [u | e |] eqn:E; simpl; [| done | done].
  split; [| done]. apply validate_no_panic.
Qed.

End Facts.

(** ** A concrete feed *)

(** A Pyth feed at 100 with a confidence of one, published at time 1000. *)
Definition feed_id_ex : list Z := replicate 32 7.
Definition program_ex : Pubkey := replicate 32 9.
Definition pda_ex : PdaCrate := fun seeds program => (List.concat seeds, 255).
Definition borsh_ex : OracleBuild :=
  {| chaos_try_from_slice := fun _ => None; client_feature := false |}.
Definition client_build_ex : OracleBuild :=
  {| chaos_try_from_slice := fun _ => None; client_feature := true |}.
Definition feed_ex : AccountView :=
  mkAccountView feed_id_ex
    (feed_id_ex ++ le_bytes 8 10000 ++ le_bytes 8 100 ++ le_bytes 8 (-2) ++ le_bytes 8 1000
     ++ replicate (32 + 24 + 32) 0) program_ex.
Definition config_ex : OracleConfig := new_pyth (FX := fixed_ref) feed_id_ex program_ex.

Lemma feed_ex_bytes : Forall is_byte (data feed_ex).
Proof.
  unfold feed_ex, feed_id_ex. cbn [data].
  repeat (apply Forall_app; split); try apply le_bytes_are_bytes;
    apply Forall_replicate; unfold is_byte; lia.
Qed.

Lemma borsh_ex_laws : OracleBuildLaws borsh_ex.
Proof. intros l s H. discriminate H. Qed.

Lemma pod_oracle_provider_witness :
  oracle_provider (from_oracle_provider (Chaos (mkChaos feed_id_ex program_ex 3 (replicate 7 0))))
  = Chaos (mkChaos feed_id_ex program_ex 3 (replicate 7 0)).
Proof.
  apply pod_oracle_provider_roundtrip. repeat split; vm_compute; congruence.
Defined.

Lemma oracle_rate_is_trustworthy_witness :
  exists r, load_and_validate_oracle_rate (FX := fixed_ref) (PC := pda_ex) (BC := borsh_ex)
    config_ex feed_ex 1030 = Ok r /\ oracle_ok r.
Proof.
  eexists. split; [vm_compute; reflexivity |].
  eapply (oracle_rate_is_trustworthy (FX := fixed_ref) (FXL := fixed_ref_laws)
    (PC := pda_ex) (BC := borsh_ex) (BCL := borsh_ex_laws) config_ex feed_ex 1030).
  - apply feed_ex_bytes.
  - vm_compute. reflexivity.
Defined.

Lemma oracle_load_never_panics_witness :
  load_and_validate_oracle_rate (FX := fixed_ref) (PC := pda_ex) (BC := borsh_ex)
    config_ex feed_ex 5000 <> Panic.
Proof.
  apply (oracle_load_never_panics (FX := fixed_ref) (FXL := fixed_ref_laws)
    (PC := pda_ex) (BC := borsh_ex) (BCL := borsh_ex_laws)), feed_ex_bytes.
Defined.

(** The same price in the legacy layout is loaded by the client and refused by the programs. *)
Definition legacy_ex : AccountView :=
  mkAccountView feed_id_ex (firstn PYTH_PRICE_SIZE (data feed_ex)) program_ex.
Lemma legacy_feed_is_for_clients :
  load_and_validate_oracle_rate (FX := fixed_ref) (PC := pda_ex) (BC := client_build_ex)
    config_ex legacy_ex 1030
  = load_and_validate_oracle_rate (FX := fixed_ref) (PC := pda_ex) (BC := client_build_ex)
      config_ex feed_ex 1030 /\
  load_and_validate_oracle_rate (FX := fixed_ref) (PC := pda_ex) (BC := borsh_ex)
    config_ex legacy_ex 1030 = Err InvalidPythOracleAccount.
Proof. vm_compute. done. Qed.
