(* ===== verification/GlobalConfig.v ===== *)
(** * The global configuration

    [autara-lib/src/state/global_config.rs]. *)
From S2P Require Import Prelude.
From S2P Require Import Errors.
From S2P Require Import Monad.
From S2P Require Import PodOption.
From S2P Require Import Pda.

Record GlobalConfig : Type := mkGlobalConfig {
  admin : Pubkey;
  nominated_admin : PodOption Pubkey;
  fee_receiver : Pubkey;
  protocol_fee_share_in_bps : Z }.

Definition set_admin (x : Pubkey) (g : GlobalConfig) : GlobalConfig :=
  mkGlobalConfig x (nominated_admin g) (fee_receiver g) (protocol_fee_share_in_bps g).
Definition put_nominated_admin (x : PodOption Pubkey) (g : GlobalConfig) : GlobalConfig :=
  mkGlobalConfig (admin g) x (fee_receiver g) (protocol_fee_share_in_bps g).
Definition put_fee_receiver (x : Pubkey) (g : GlobalConfig) : GlobalConfig :=
  mkGlobalConfig (admin g) (nominated_admin g) x (protocol_fee_share_in_bps g).
Definition put_protocol_fee_share (x : Z) (g : GlobalConfig) : GlobalConfig :=
  mkGlobalConfig (admin g) (nominated_admin g) (fee_receiver g) x.

Definition nominated_admin_lens : Lens GlobalConfig (PodOption Pubkey) :=
  {| lget := nominated_admin; lset := put_nominated_admin |}.

Definition new (admin fee_receiver : Pubkey) (share : Z) : GlobalConfig :=
  mkGlobalConfig admin (mkPodOption zeroed) fee_receiver share.

Definition initialize (admin fee_receiver : Pubkey) (share : Z) : ST GlobalConfig () :=
  st_modify (set_admin admin) ;;;
  st_modify (put_fee_receiver fee_receiver) ;;;
  st_modify (put_protocol_fee_share share).

Definition can_upgrade_nomination (self : GlobalConfig) (k : Pubkey) : bool :=
  match as_ref (nominated_admin self) with
  | Some n => bool_decide (n = k)
  | None => false
  end.

Definition upgrade_nomination : ST GlobalConfig () :=
  let! nomination := zoom nominated_admin_lens take in
  match nomination with
  | Some admin => st_modify (set_admin admin)
  | None => st_raise InvalidNomination
  end.

Definition set_fee_receiver (k : Pubkey) : ST GlobalConfig () :=
  st_modify (put_fee_receiver k).

Definition set_nominated_admin (k : Pubkey) : ST GlobalConfig () :=
  zoom nominated_admin_lens (PodOption.set k).

Definition can_redeem_fees (self : GlobalConfig) (k : Pubkey) : bool :=
  bool_decide (admin self = k) || bool_decide (fee_receiver self = k).

Definition can_update_config (self : GlobalConfig) (k : Pubkey) : bool :=
  bool_decide (admin self = k).

Definition update_protocol_fee_share_in_bps (new_fee : Z) : ST GlobalConfig () :=
  st_guard (10000 <? new_fee) FeeTooHigh ;;;
  st_modify (put_protocol_fee_share new_fee).

(** The share of the fees never exceeds the whole. *)
Definition fee_share_ok (g : GlobalConfig) : Prop :=
  0 <= protocol_fee_share_in_bps g <= 10000.

(** The admin is handed over in two steps: a nomination changes nothing but who may
    accept it, only the nominated key may, accepting makes it the admin and consumes the
    nomination, and without a nomination the upgrade fails and changes nothing. *)
Theorem admin_handover_takes_two_steps g k :
  k <> zeroed ->
  let g1 := snd (set_nominated_admin k g) in
  let g2 := snd (upgrade_nomination g1) in
  set_nominated_admin k g = (Ok tt, g1) /\ admin g1 = admin g /\
  (forall j, can_upgrade_nomination g1 j = true <-> j = k) /\
  upgrade_nomination g1 = (Ok tt, g2) /\ admin g2 = k /\
  fee_receiver g2 = fee_receiver g /\
  protocol_fee_share_in_bps g2 = protocol_fee_share_in_bps g /\
  (forall j, can_upgrade_nomination g2 j = false) /\
  upgrade_nomination g2 = (Err InvalidNomination, g2).
Proof.
  intros Hk g1 g2.
  assert (H1 : set_nominated_admin k g = (Ok tt, g1)) by reflexivity.
  assert (Hn : nominated_admin g1 = mkPodOption k) by reflexivity.
  assert (H2 : upgrade_nomination g1
               = (Ok tt, set_admin k (put_nominated_admin (mkPodOption zeroed) g1))).
  { unfold upgrade_nomination, zoom, st_bind. cbn [lget lset nominated_admin_lens].
    rewrite take_eq, Hn. rewrite (proj2 (as_ref_some (mkPodOption k) k)) by done. done. }
  assert (Hg2 : g2 = set_admin k (put_nominated_admin (mkPodOption zeroed) g1))
    by (unfold g2; by rewrite H2).
  split; [done |]. split; [done |]. split.
  { intros j. unfold can_upgrade_nomination. rewrite Hn.
    rewrite (proj2 (as_ref_some (mkPodOption k) k)) by done.
    rewrite bool_decide_eq_true. naive_solver. }
  split; [rewrite H2, Hg2; done |]. rewrite Hg2.
  do 3 (split; [done |]).
  assert (Hnone : as_ref (T := Pubkey) (mkPodOption zeroed) = None) by (by apply as_ref_none).
  split.
  - intros j. unfold can_upgrade_nomination. cbn [nominated_admin set_admin put_nominated_admin].
    by rewrite Hnone.
  - unfold upgrade_nomination, zoom, st_bind. cbn [lget lset nominated_admin_lens].
    rewrite take_eq. cbn [nominated_admin set_admin put_nominated_admin]. by rewrite Hnone.
Qed.

Lemma admin_handover_witness :
  admin (snd (upgrade_nomination (snd (set_nominated_admin (replicate 32 5)
    (new (replicate 32 1) (replicate 32 2) 500))))) = replicate 32 5.
Proof.
  apply (admin_handover_takes_two_steps (new (replicate 32 1) (replicate 32 2) 500)
    (replicate 32 5)). vm_compute. discriminate.
Defined.

(** The creation of the configuration takes any share, the update only a valid one. *)
Lemma initialize_accepts_any_share g a f s :
  initialize a f s g = (Ok tt, mkGlobalConfig a (nominated_admin g) f s).
Proof. reflexivity. Qed.

Lemma update_share_ok g s g' r :
  0 <= s -> fee_share_ok g -> update_protocol_fee_share_in_bps s g = (r, g') ->
  fee_share_ok g'.
Proof.
  intros Hs Hg H. unfold update_protocol_fee_share_in_bps, st_bind, st_guard in H.
  destruct (10000 <? s) eqn:E; bool_prop; injection H as <- <-; [done |].
  unfold fee_share_ok. simpl. lia.
Qed.
