(* ===== verification/LiquidatorWhitelist.v ===== *)
(** * Liquidator whitelist entries

    [autara-lib/src/state/liquidator_whitelist.rs]. *)
From S2P Require Import Prelude.
From S2P Require Import Errors.
From S2P Require Import Monad.
From S2P Require Import Pda.

Record LiquidatorWhitelistEntry : Type := mkEntry {
  market : Pubkey;
  liquidator : Pubkey;
  bump : list Z;
  active : list Z }.

Definition set_active (x : list Z) (e : LiquidatorWhitelistEntry) : LiquidatorWhitelistEntry :=
  mkEntry (market e) (liquidator e) (bump e) x.

Definition is_active (self : LiquidatorWhitelistEntry) : bool :=
  bool_decide (active self = [1]).

Definition activate : ST LiquidatorWhitelistEntry () :=
  let! self := st_get in
  st_guard (is_active self) LiquidatorAlreadyWhitelisted ;;;
  st_modify (set_active [1]).

Definition deactivate : ST LiquidatorWhitelistEntry () :=
  let! self := st_get in
  st_guard (negb (is_active self)) LiquidatorNotWhitelisted ;;;
  st_modify (set_active [0]).

Definition initialize (market liquidator : Pubkey) (bump : Z) : ST LiquidatorWhitelistEntry () :=
  st_modify (fun e => mkEntry market (LiquidatorWhitelist.liquidator e)
                        (LiquidatorWhitelist.bump e) (active e)) ;;;
  st_modify (fun e => mkEntry (LiquidatorWhitelist.market e) liquidator
                        (LiquidatorWhitelist.bump e) (active e)) ;;;
  st_modify (fun e => mkEntry (LiquidatorWhitelist.market e)
                        (LiquidatorWhitelist.liquidator e) [bump] (active e)) ;;;
  activate.

(** Each switch succeeds exactly from the other position. *)
Lemma activate_eq e :
  activate e = if is_active e then (Err LiquidatorAlreadyWhitelisted, e)
               else (Ok tt, set_active [1] e).
Proof. unfold activate, st_bind, st_get, st_guard. by destruct (is_active e). Qed.

Lemma deactivate_eq e :
  deactivate e = if is_active e then (Ok tt, set_active [0] e)
                 else (Err LiquidatorNotWhitelisted, e).
Proof. unfold deactivate, st_bind, st_get, st_guard. by destruct (is_active e). Qed.
