(* ===== verification/MarketConfig.v ===== *)
(** * The configuration of a market

    [autara-lib/src/state/market_config.rs]. *)
From S2P Require Import Prelude.
From S2P Require Import Errors.
From S2P Require Import Monad.
From S2P Require Import FixedPoint.
From S2P Require Import Pda.
From S2P Require Import GlobalConfig.
From S2P Require Import FixedFacts.

Record LtvConfig : Type := mkLtv {
  max_ltv : IFixedPoint;
  unhealthy_ltv : IFixedPoint;
  liquidation_bonus : IFixedPoint }.

#[global] Instance LtvConfig_eq_dec : EqDecision LtvConfig.
Proof. solve_decision. Defined.

Record MarketConfig : Type := mkMarketConfig {
  bump : list Z;
  index : list Z;
  lending_market_fee_in_bps : Z;
  protocol_fee_share_in_bps : Z;
  curator : Pubkey;
  ltv_config : LtvConfig;
  max_utilisation_rate : IFixedPoint;
  max_supply_atoms : Z;
  active_whitelisted_liquidators : Z }.

Definition set_bump (x : list Z) (c : MarketConfig) : MarketConfig :=
  mkMarketConfig x (index c) (lending_market_fee_in_bps c) (protocol_fee_share_in_bps c)
    (curator c) (ltv_config c) (max_utilisation_rate c) (max_supply_atoms c)
    (active_whitelisted_liquidators c).
Definition set_index (x : list Z) (c : MarketConfig) : MarketConfig :=
  mkMarketConfig (bump c) x (lending_market_fee_in_bps c) (protocol_fee_share_in_bps c)
    (curator c) (ltv_config c) (max_utilisation_rate c) (max_supply_atoms c)
    (active_whitelisted_liquidators c).
Definition set_fee (x : Z) (c : MarketConfig) : MarketConfig :=
  mkMarketConfig (bump c) (index c) x (protocol_fee_share_in_bps c)
    (curator c) (ltv_config c) (max_utilisation_rate c) (max_supply_atoms c)
    (active_whitelisted_liquidators c).
Definition set_protocol_share (x : Z) (c : MarketConfig) : MarketConfig :=
  mkMarketConfig (bump c) (index c) (lending_market_fee_in_bps c) x
    (curator c) (ltv_config c) (max_utilisation_rate c) (max_supply_atoms c)
    (active_whitelisted_liquidators c).
Definition set_curator (x : Pubkey) (c : MarketConfig) : MarketConfig :=
  mkMarketConfig (bump c) (index c) (lending_market_fee_in_bps c)
    (protocol_fee_share_in_bps c) x (ltv_config c) (max_utilisation_rate c)
    (max_supply_atoms c) (active_whitelisted_liquidators c).
Definition set_ltv_config (x : LtvConfig) (c : MarketConfig) : MarketConfig :=
  mkMarketConfig (bump c) (index c) (lending_market_fee_in_bps c)
    (protocol_fee_share_in_bps c) (curator c) x (max_utilisation_rate c)
    (max_supply_atoms c) (active_whitelisted_liquidators c).
Definition set_max_utilisation_rate (x : IFixedPoint) (c : MarketConfig) : MarketConfig :=
  mkMarketConfig (bump c) (index c) (lending_market_fee_in_bps c)
    (protocol_fee_share_in_bps c) (curator c) (ltv_config c) x
    (max_supply_atoms c) (active_whitelisted_liquidators c).
Definition set_max_supply_atoms (x : Z) (c : MarketConfig) : MarketConfig :=
  mkMarketConfig (bump c) (index c) (lending_market_fee_in_bps c)
    (protocol_fee_share_in_bps c) (curator c) (ltv_config c) (max_utilisation_rate c)
    x (active_whitelisted_liquidators c).
Definition set_active_whitelisted (x : Z) (c : MarketConfig) : MarketConfig :=
  mkMarketConfig (bump c) (index c) (lending_market_fee_in_bps c)
    (protocol_fee_share_in_bps c) (curator c) (ltv_config c) (max_utilisation_rate c)
    (max_supply_atoms c) x.

Definition MAX_LENDING_MARKET_FEE_IN_BPS : Z := percent_to_bps 20.
Definition FEE_PERCENT_FOR_PROTOCOL_IN_BPS : Z := percent_to_bps 50.

Definition liquidations_are_permissionless (self : MarketConfig) : bool :=
  active_whitelisted_liquidators self =? 0.

Definition lending_market_fee_fixed (self : MarketConfig) : UFixedPoint :=
  bps_to_fixed_point (lending_market_fee_in_bps self).

Section Ops.
Context {FX : FixedCrate}.

Definition MAX_LTV_WITH_LIQUIDATION_BONUS : IFixedPoint := i_lit 99 100.
Definition MAX_LIQUIDATION_BONUS : IFixedPoint := i_lit 1 10.
Definition MIN_LIQUIDATION_BONUS : IFixedPoint := i_lit 1 1000.
Definition MAX_UTILISATION_RATE : IFixedPoint := i_lit 99 100.
Definition TARGET_LTV_LIQUIDATION_MARGIN : IFixedPoint := i_lit 90 100.

Definition increment_active_whitelisted_liquidators : ST MarketConfig () :=
  let! self := st_get in
  let! n := st_lift (safe_add (active_whitelisted_liquidators self) 1) in
  st_modify (set_active_whitelisted n).

Definition decrement_active_whitelisted_liquidators : ST MarketConfig () :=
  let! self := st_get in
  let! n := st_lift (safe_sub (active_whitelisted_liquidators self) 1) in
  st_modify (set_active_whitelisted n).

Definition sync_global_config (global_config : GlobalConfig) : ST MarketConfig () :=
  st_modify (set_protocol_share (GlobalConfig.protocol_fee_share_in_bps global_config)).

Definition update_max_supply_atoms (atoms : Z) : ST MarketConfig () :=
  st_modify (set_max_supply_atoms atoms).

Definition set_lending_market_fee (bps : Z) : ST MarketConfig () :=
  st_guard (MAX_LENDING_MARKET_FEE_IN_BPS <? bps) FeeTooHigh ;;;
  st_modify (set_fee bps).

Definition update_max_utilisation_rate (rate : IFixedPoint) : ST MarketConfig () :=
  st_guard (i_ltb MAX_UTILISATION_RATE rate) InvalidMaxUtilisationRate ;;;
  st_modify (set_max_utilisation_rate rate).

Definition update_ltv (ltv : LtvConfig) : ST MarketConfig () :=
  let! self := st_get in
  st_guard (is_negative (max_ltv ltv) || is_negative (unhealthy_ltv ltv)
            || is_negative (liquidation_bonus ltv)) InvalidLtvConfig ;;;
  st_guard (i_ltb (unhealthy_ltv ltv) (unhealthy_ltv (ltv_config self))) InvalidLtvConfig ;;;
  st_guard (i_leb (unhealthy_ltv ltv) (max_ltv ltv)) InvalidLtvConfig ;;;
  st_guard (i_ltb MAX_LIQUIDATION_BONUS (liquidation_bonus ltv)
            || i_ltb (liquidation_bonus ltv) MIN_LIQUIDATION_BONUS) InvalidLtvConfig ;;;
  let! one_plus_liquidation_bonus := st_lift (safe_add i_one (liquidation_bonus ltv)) in
  let! with_bonus := st_lift (safe_mul (unhealthy_ltv ltv) one_plus_liquidation_bonus) in
  st_guard (i_ltb MAX_LTV_WITH_LIQUIDATION_BONUS with_bonus) InvalidLtvConfig ;;;
  st_modify (set_ltv_config ltv).

Definition initialize (bump index : Z) (curator : Pubkey) (ltv : LtvConfig)
  (max_utilisation_rate : IFixedPoint) (max_supply_atoms lending_market_fee_in_bps : Z)
  (global_config : GlobalConfig) : ST MarketConfig () :=
  update_ltv ltv ;;;
  update_max_utilisation_rate max_utilisation_rate ;;;
  set_lending_market_fee lending_market_fee_in_bps ;;;
  st_modify (set_bump [bump]) ;;;
  st_modify (set_index [index]) ;;;
  st_modify (set_curator curator) ;;;
  st_modify (set_max_supply_atoms max_supply_atoms) ;;;
  sync_global_config global_config.

(** [LtvConfig::target_ltv_after_liquidation] *)
Definition target_ltv_after_liquidation (self : LtvConfig) : IFixedPoint :=
  i_max (match safe_mul (unhealthy_ltv self) TARGET_LTV_LIQUIDATION_MARGIN with
         | Ok x => x
         | _ => unhealthy_ltv self
         end) (max_ltv self).

End Ops.

(** * Facts about the market configuration

    The invariant of the configuration and that every update keeps it, and what the
    invariant gives to liquidations. *)

(** The literals of the source, as patterns. *)
Definition B99 : Z := 278660226943549.
Definition B10 : Z := 28147497671066.
Definition B01 : Z := 281474976711.
Definition B90 : Z := 253327479039590.

#[global] Hint Unfold B99 B10 B01 B90 : widths.

(** The loan to value configuration of a market: a maximum below the unhealthy level, a
    bonus within its range, and room for the bonus at the unhealthy level. *)
Definition ltv_ok (c : LtvConfig) : Prop :=
  0 <= i_bits (max_ltv c) < i_bits (unhealthy_ltv c) /\
  B01 <= i_bits (liquidation_bonus c) <= B10 /\
  i_bits (unhealthy_ltv c) * (2 ^ 48 + i_bits (liquidation_bonus c)) / 2 ^ 48 <= B99.

(** The invariant of a market configuration, and of one not initialised yet. *)
Definition config_ok (c : MarketConfig) : Prop :=
  ltv_ok (ltv_config c) /\
  0 <= lending_market_fee_in_bps c <= 2000 /\
  i_bits (max_utilisation_rate c) <= B99.

Section Facts.
Context {FX : FixedCrate} {FXL : FixedLaws FX}.

Lemma lit_bits n d b :
  0 < d -> - d < 2 * (b * d - n * 2 ^ 48) < d -> i_lit n d = IFP b.
Proof.
  intros Hd Hb. unfold i_lit. f_equal. pose proof (fx_lit_spec I80F48 n d Hd) as H.
  simpl fmt_frac in H. nia.
Qed.

Lemma MAX_LTV_bits : MAX_LTV_WITH_LIQUIDATION_BONUS = IFP B99.
Proof. apply lit_bits; widths_lia. Qed.
Lemma MAX_BONUS_bits : MAX_LIQUIDATION_BONUS = IFP B10.
Proof. apply lit_bits; widths_lia. Qed.
Lemma MIN_BONUS_bits : MIN_LIQUIDATION_BONUS = IFP B01.
Proof. apply lit_bits; widths_lia. Qed.
Lemma MAX_UTIL_bits : MAX_UTILISATION_RATE = IFP B99.
Proof. apply lit_bits; widths_lia. Qed.
Lemma MARGIN_bits : TARGET_LTV_LIQUIDATION_MARGIN = IFP B90.
Proof. apply lit_bits; widths_lia. Qed.

(** An accepted configuration is valid and does not lower the unhealthy level. *)
Lemma update_ltv_ok ltv c c' :
  update_ltv ltv c = (Ok tt, c') ->
  ltv_ok ltv /\ c' = set_ltv_config ltv c /\
  i_bits (unhealthy_ltv (ltv_config c)) <= i_bits (unhealthy_ltv ltv).
Proof.
  intros H. unfold update_ltv, is_negative, i_ltb, i_leb in H.
  rewrite MAX_LTV_bits, MAX_BONUS_bits, MIN_BONUS_bits in H. cbn [i_bits] in H.
  run_inv. bool_prop. apply i_add_ok in H4 as [-> Ha]. cbn [i_bits i_one i_from_u64] in *.
  apply i_mul_ok in H5 as [-> Hm]; [| cbn [i_bits]; nia].
  cbn [i_bits] in *. rewrite Z.mul_1_l in *.
  repeat split; widths_lia.
Qed.

(** A failed update changes nothing. *)
Lemma update_ltv_err ltv c r c' :
  update_ltv ltv c = (r, c') -> r <> Ok tt -> c' = c.
Proof.
  unfold update_ltv, st_bind, st_get, st_guard, st_lift, st_modify.
  intros H Hr. repeat (case_match; simplify_eq; try done).
Qed.

Lemma set_fee_ok bps c c' :
  0 <= bps -> set_lending_market_fee bps c = (Ok tt, c') ->
  c' = set_fee bps c /\ 0 <= bps <= 2000.
Proof.
  intros Hb H. unfold set_lending_market_fee in H. run_inv. bool_prop.
  change MAX_LENDING_MARKET_FEE_IN_BPS with 2000 in *. split; [done | lia].
Qed.

Lemma update_max_utilisation_ok u c c' :
  update_max_utilisation_rate u c = (Ok tt, c') ->
  c' = set_max_utilisation_rate u c /\ i_bits u <= B99.
Proof.
  intros H. unfold update_max_utilisation_rate, i_ltb in H. rewrite MAX_UTIL_bits in H.
  run_inv. bool_prop. done.
Qed.

(** Initialisation establishes the invariant whatever the account held. *)
Lemma initialize_ok b i cur ltv u m f g c c' :
  0 <= f -> MarketConfig.initialize b i cur ltv u m f g c = (Ok tt, c') ->
  config_ok c' /\ curator c' = cur /\ max_supply_atoms c' = m /\ ltv_config c' = ltv /\
  MarketConfig.protocol_fee_share_in_bps c' = GlobalConfig.protocol_fee_share_in_bps g.
Proof.
  intros Hf H. unfold MarketConfig.initialize, sync_global_config in H. run_inv.
  apply update_ltv_ok in H as (Hltv & -> & _).
  apply update_max_utilisation_ok in H0 as [-> Hu].
  apply set_fee_ok in H1 as [-> Hfee]; [| done]. done.
Qed.

(** A change of the loan to value limits either is refused and changes nothing, or
    installs limits with a maximum strictly below the unhealthy level, a bonus between
    0.1% and 10% and room for the bonus, and never lowers the unhealthy level. *)
Theorem ltv_update_keeps_positions_safe ltv c r c' :
  update_ltv ltv c = (r, c') ->
  (r <> Ok tt /\ c' = c) \/
  (r = Ok tt /\ ltv_ok ltv /\ ltv_config c' = ltv /\
   i_bits (unhealthy_ltv (ltv_config c)) <= i_bits (unhealthy_ltv (ltv_config c')) /\
   curator c' = curator c /\ max_supply_atoms c' = max_supply_atoms c).
Proof.
  intros H. destruct (decide (r = Ok tt)) as [-> | Hr].
  - right. apply update_ltv_ok in H as (Hok & -> & Hle). done.
  - left. split; [done |]. by eapply update_ltv_err.
Qed.

(** The level a liquidation aims at. *)
Lemma target_ltv_bits c :
  ltv_ok c -> i_bits (unhealthy_ltv c) <= I128_MAX ->
  i_bits (target_ltv_after_liquidation c)
  = Z.max (i_bits (unhealthy_ltv c) * B90 / 2 ^ 48) (i_bits (max_ltv c)).
Proof.
  intros (Hm & Hb & Hl) Hmax. unfold target_ltv_after_liquidation, i_max.
  rewrite MARGIN_bits. destruct (safe_mul _ _) as [x | e |] eqn:E.
  - apply i_mul_ok in E as [-> _]; [done | cbn [i_bits]; widths_lia].
  - exfalso.
    assert (Hok : safe_mul (unhealthy_ltv c) (IFP B90)
                  = Ok (IFP (i_bits (unhealthy_ltv c) * B90 / 2 ^ 48))).
    { apply i_mul_ok; cbn [i_bits]; [widths_lia |]. split; [done |].
      apply div_le_upper; widths_lia. }
    congruence.
  - by apply i_mul_no_panic in E.
Qed.

Lemma unhealthy_below_one c : ltv_ok c -> 0 < i_bits (unhealthy_ltv c) < 2 ^ 48.
Proof.
  intros (Hm & Hb & Hl). split; [lia |].
  div_bounds (i_bits (unhealthy_ltv c) * (2 ^ 48 + i_bits (liquidation_bonus c))) (2 ^ 48).
  widths_lia.
Qed.

Lemma target_bounds c :
  ltv_ok c ->
  let t := i_bits (target_ltv_after_liquidation c) in
  i_bits (max_ltv c) <= t < i_bits (unhealthy_ltv c) /\
  0 <= t * (2 ^ 48 + i_bits (liquidation_bonus c)) / 2 ^ 48 <= B99.
Proof.
  intros Hc t. pose proof (unhealthy_below_one c Hc) as Hu.
  pose proof (target_ltv_bits c Hc ltac:(widths_lia)) as Ht. fold t in Ht.
  destruct Hc as (Hm & Hb & Hl).
  div_bounds (i_bits (unhealthy_ltv c) * B90) (2 ^ 48).
  assert (0 <= i_bits (unhealthy_ltv c) * B90 / 2 ^ 48) by (apply div_nonneg; widths_lia).
  assert (Hr : 0 <= t < i_bits (unhealthy_ltv c)) by widths_lia.
  split; [lia |]. split; [apply div_nonneg; widths_lia |].
  etransitivity; [| exact Hl]. apply div_le_mono; [lia |].
  apply Z.mul_le_mono_nonneg_r; widths_lia.
Qed.

(** The target of a liquidation lies from the maximum up to strictly below the
    unhealthy level, and with the bonus added it stays at most 99%, so that a liquidation
    to the target always reduces the debt faster than the collateral. *)
Theorem liquidation_target_is_reachable c :
  ltv_ok c ->
  i_bits (max_ltv c) <= i_bits (target_ltv_after_liquidation c) < i_bits (unhealthy_ltv c) /\
  0 <= i_bits (target_ltv_after_liquidation c) * (2 ^ 48 + i_bits (liquidation_bonus c)) / 2 ^ 48
    <= i_bits MAX_LTV_WITH_LIQUIDATION_BONUS.
Proof. rewrite MAX_LTV_bits. apply target_bounds. Qed.

End Facts.

(** Limits of 80% and 90% with a bonus of 5%. *)
Definition ltv_ex : LtvConfig :=
  mkLtv (IFP (2 ^ 48 * 80 / 100)) (IFP (2 ^ 48 * 90 / 100)) (IFP (2 ^ 48 * 5 / 100)).
Definition config_ex : MarketConfig :=
  mkMarketConfig [0] [0] 0 0 [] (mkLtv (IFP 0) (IFP 0) (IFP 0)) (IFP 0) 0 0.

Lemma ltv_ok_ex : ltv_ok ltv_ex.
Proof. repeat split; vm_compute; congruence. Qed.

Lemma ltv_update_witness :
  ltv_config (snd (update_ltv (FX := fixed_ref) ltv_ex config_ex)) = ltv_ex.
Proof.
  destruct (update_ltv (FX := fixed_ref) ltv_ex config_ex) as [r c'] eqn:E.
  destruct (ltv_update_keeps_positions_safe (FX := fixed_ref) (FXL := fixed_ref_laws)
    ltv_ex config_ex r c' E) as [[Hr _] | (_ & _ & H & _)].
  - exfalso. apply Hr. vm_compute in E. congruence.
  - exact H.
Defined.

Lemma liquidation_target_witness :
  i_bits (target_ltv_after_liquidation (FX := fixed_ref) ltv_ex)
  < i_bits (unhealthy_ltv ltv_ex).
Proof.
  apply (liquidation_target_is_reachable (FX := fixed_ref) (FXL := fixed_ref_laws) ltv_ex).
  apply ltv_ok_ex.
Defined.
