(* ===== verification/SupplyPosition.v ===== *)
(** * Positions of lenders

    [autara-lib/src/state/supply_position.rs]. *)
From S2P Require Import Prelude.
From S2P Require Import Errors.
From S2P Require Import Monad.
From S2P Require Import FixedPoint.
From S2P Require Import Pda.

Record SupplyPosition : Type := mkSupplyPosition {
  authority : Pubkey;
  market : Pubkey;
  deposited_atoms : Z;
  shares : UFixedPoint }.

Definition set_deposited_atoms (x : Z) (p : SupplyPosition) : SupplyPosition :=
  mkSupplyPosition (authority p) (market p) x (shares p).
Definition set_shares (x : UFixedPoint) (p : SupplyPosition) : SupplyPosition :=
  mkSupplyPosition (authority p) (market p) (deposited_atoms p) x.

Definition new (authority market : Pubkey) : SupplyPosition :=
  mkSupplyPosition authority market 0 u_zero.

Definition initialize (authority market : Pubkey) : ST SupplyPosition () :=
  st_modify (fun p => mkSupplyPosition authority (SupplyPosition.market p)
                        (deposited_atoms p) (shares p)) ;;;
  st_modify (fun p => mkSupplyPosition (SupplyPosition.authority p) market
                        (deposited_atoms p) (shares p)) ;;;
  st_modify (set_deposited_atoms 0) ;;;
  st_modify (set_shares u_zero).

Section Ops.
Context {FX : FixedCrate}.

Definition lend (atoms : Z) (s : UFixedPoint) : ST SupplyPosition () :=
  let! self := st_get in
  let! d := st_lift (safe_add (deposited_atoms self) atoms) in
  st_modify (set_deposited_atoms d) ;;;
  let! n := st_lift (safe_add (shares self) s) in
  st_modify (set_shares n).

Definition withdraw (s : UFixedPoint) : ST SupplyPosition () :=
  let! self := st_get in
  let! adjusted_atoms := st_lift
    (match Z.compare (u_bits s) (u_bits (shares self)) with
     | Lt =>
       let? q := safe_div s (shares self) in
       let? m := safe_mul q (deposited_atoms self) in
       u_as_u64_rounded_down m
     | Eq => Ok (deposited_atoms self)
     | Gt => Err WithdrawalExceedsDeposited
     end) in
  let! d := st_lift (safe_sub (deposited_atoms self) adjusted_atoms) in
  st_modify (set_deposited_atoms d) ;;;
  let! n := st_lift (safe_sub (shares self) s) in
  st_modify (set_shares n).

Definition withdraw_all : ST SupplyPosition () :=
  st_modify (set_deposited_atoms 0) ;;;
  st_modify (set_shares u_zero).

End Ops.
