(* ===== verification/BorrowPosition.v ===== *)
(** * Positions of borrowers

    [autara-lib/src/state/borrow_position.rs]. *)
From S2P Require Import Prelude.
From S2P Require Import Errors.
From S2P Require Import Monad.
From S2P Require Import FixedPoint.
From S2P Require Import Pda.

Record BorrowPosition : Type := mkBorrowPosition {
  authority : Pubkey;
  market : Pubkey;
  collateral_deposited_atoms : Z;
  initial_borrowed_atoms : Z;
  borrowed_shares : UFixedPoint;
  swept_collateral_atoms : Z }.

Definition set_collateral (x : Z) (p : BorrowPosition) : BorrowPosition :=
  mkBorrowPosition (authority p) (market p) x (initial_borrowed_atoms p)
    (borrowed_shares p) (swept_collateral_atoms p).
Definition set_initial_borrowed (x : Z) (p : BorrowPosition) : BorrowPosition :=
  mkBorrowPosition (authority p) (market p) (collateral_deposited_atoms p) x
    (borrowed_shares p) (swept_collateral_atoms p).
Definition set_borrowed_shares (x : UFixedPoint) (p : BorrowPosition) : BorrowPosition :=
  mkBorrowPosition (authority p) (market p) (collateral_deposited_atoms p)
    (initial_borrowed_atoms p) x (swept_collateral_atoms p).
Definition set_swept (x : Z) (p : BorrowPosition) : BorrowPosition :=
  mkBorrowPosition (authority p) (market p) (collateral_deposited_atoms p)
    (initial_borrowed_atoms p) (borrowed_shares p) x.

Definition initialize (authority market : Pubkey) : ST BorrowPosition () :=
  st_modify (fun p => mkBorrowPosition authority (BorrowPosition.market p)
    (collateral_deposited_atoms p) (initial_borrowed_atoms p) (borrowed_shares p)
    (swept_collateral_atoms p)) ;;;
  st_modify (fun p => mkBorrowPosition (BorrowPosition.authority p) market
    (collateral_deposited_atoms p) (initial_borrowed_atoms p) (borrowed_shares p)
    (swept_collateral_atoms p)) ;;;
  st_modify (set_collateral 0) ;;;
  st_modify (set_initial_borrowed 0) ;;;
  st_modify (set_borrowed_shares u_zero) ;;;
  st_modify (set_swept 0).

Definition capital_sweep_pending (self : BorrowPosition) : bool :=
  negb (swept_collateral_atoms self =? 0).

Definition ensure_capital_sweep_inactive (self : BorrowPosition) : Res () :=
  if capital_sweep_pending self then Err CapitalSweepPending else Ok tt.

Definition begin_capital_sweep : ST BorrowPosition Z :=
  let! self := st_get in
  let! _ := st_lift (ensure_capital_sweep_inactive self) in
  let swept := collateral_deposited_atoms self in
  st_modify (set_collateral 0) ;;;
  st_modify (set_swept swept) ;;;
  st_ret swept.

Definition repay_all : ST BorrowPosition () :=
  st_modify (set_initial_borrowed 0) ;;;
  st_modify (set_borrowed_shares u_zero).

Section Ops.
Context {FX : FixedCrate}.

Definition deposit_collateral (atoms : Z) : ST BorrowPosition () :=
  let! self := st_get in
  let! c := st_lift (safe_add (collateral_deposited_atoms self) atoms) in
  st_modify (set_collateral c).

Definition withdraw_collateral (atoms : Z) : ST BorrowPosition () :=
  let! self := st_get in
  let! c := st_lift (map_err WithdrawalExceedsDeposited
                       (safe_sub (collateral_deposited_atoms self) atoms)) in
  st_modify (set_collateral c).

Definition borrow (atoms : Z) (s : UFixedPoint) : ST BorrowPosition () :=
  let! self := st_get in
  let! i := st_lift (safe_add (initial_borrowed_atoms self) atoms) in
  st_modify (set_initial_borrowed i) ;;;
  let! n := st_lift (safe_add (borrowed_shares self) s) in
  st_modify (set_borrowed_shares n).

Definition repay (s : UFixedPoint) : ST BorrowPosition () :=
  let! self := st_get in
  match Z.compare (u_bits s) (u_bits (borrowed_shares self)) with
  | Lt =>
    let! adjusted_atoms := st_lift
      (let? q := safe_div s (borrowed_shares self) in
       let? m := safe_mul q (initial_borrowed_atoms self) in
       u_as_u64_rounded_down m) in
    let! i := st_lift (safe_sub (initial_borrowed_atoms self) adjusted_atoms) in
    st_modify (set_initial_borrowed i) ;;;
    let! n := st_lift (safe_sub (borrowed_shares self) s) in
    st_modify (set_borrowed_shares n)
  | Eq => repay_all
  | Gt => st_raise RepayExceedsBorrowed
  end.

Definition liquidate (s : UFixedPoint) (collateral_atoms : Z) : ST BorrowPosition () :=
  repay s ;;;
  let! self := st_get in
  let! c := st_lift (safe_sub (collateral_deposited_atoms self) collateral_atoms) in
  st_modify (set_collateral c).

Definition settle_capital_sweep (shares_repaid : UFixedPoint)
  (collateral_atoms_returned : Z) : ST BorrowPosition () :=
  let! self := st_get in
  st_guard (negb (capital_sweep_pending self)) NoCapitalSweepPending ;;;
  repay shares_repaid ;;;
  st_modify (set_collateral collateral_atoms_returned) ;;;
  st_modify (set_swept 0).

End Ops.

Record BorrowPositionHealth : Type := mkHealth {
  ltv : IFixedPoint;
  borrowed_atoms : Z;
  collateral_atoms : Z;
  borrow_value : IFixedPoint;
  collateral_value : IFixedPoint }.
