(* ===== verification/CollateralVault.v ===== *)
(** * The collateral vault of a market

    [autara-lib/src/state/collateral_vault.rs]. *)
From S2P Require Import Prelude.
From S2P Require Import Errors.
From S2P Require Import Monad.
From S2P Require Import FixedPoint.
From S2P Require Import Pda.
From S2P Require Import OracleRate.
From S2P Require Import Oracle.

Record CollateralVault : Type := mkCollateralVault {
  mint : Pubkey;
  mint_decimals_ : Z;
  vault : Pubkey;
  total_collateral_atoms : Z;
  oracle_config : OracleConfig }.

Definition set_total_collateral (x : Z) (v : CollateralVault) : CollateralVault :=
  mkCollateralVault (mint v) (mint_decimals_ v) (vault v) x (oracle_config v).
Definition put_oracle_config (x : OracleConfig) (v : CollateralVault) : CollateralVault :=
  mkCollateralVault (mint v) (mint_decimals_ v) (vault v) (total_collateral_atoms v) x.

Definition initialize (mint : Pubkey) (mint_decimals : Z) (vault : Pubkey)
  (oracle_config : OracleConfig) : ST CollateralVault () :=
  st_guard (MAX_EXPONENT_ABS <? as_i64 mint_decimals) UnsupportedMintDecimals ;;;
  let! _ := st_lift (config_validate oracle_config) in
  st_modify (fun v => mkCollateralVault mint mint_decimals vault
                        (total_collateral_atoms v) oracle_config).

(** [mint_decimals]: [as u8] *)
Definition mint_decimals (self : CollateralVault) : Z := as_u8 (mint_decimals_ self).

Definition set_oracle_config (c : OracleConfig) : ST CollateralVault () :=
  st_modify (put_oracle_config c).

Section Ops.
Context {FX : FixedCrate}.

Definition deposit_collateral (atoms : Z) : ST CollateralVault () :=
  let! self := st_get in
  let! t := st_lift (safe_add (total_collateral_atoms self) atoms) in
  st_modify (set_total_collateral t).

Definition withdraw_collateral (atoms : Z) : ST CollateralVault () :=
  let! self := st_get in
  let! t := st_lift (safe_sub (total_collateral_atoms self) atoms) in
  st_modify (set_total_collateral t).

End Ops.
