(* ===== verification/SupplyVault.v ===== *)
(** * The supply vault of a market

    [autara-lib/src/state/supply_vault.rs]: the lending and borrowing pools, the interest
    rate curve, the clock and the pending fees. *)
From S2P Require Import Prelude.
From S2P Require Import Errors.
From S2P Require Import Monad.
From S2P Require Import FixedPoint.
From S2P Require Import SharesTracker.
From S2P Require Import InterestRatePerSecond.
From S2P Require Import InterestRateCurve.
From S2P Require Import Pda.
From S2P Require Import OracleRate.
From S2P Require Import Oracle.
From S2P Require Import FixedFacts.

Record SupplyVault : Type := mkSupplyVault {
  mint : Pubkey;
  mint_decimals_ : Z;
  vault : Pubkey;
  oracle_config : OracleConfig;
  supply_shares_tracker : SharesTracker;
  borrow_shares_tracker : SharesTracker;
  interest_rate_curve : PodInterestRateCurve;
  last_borrow_interest_rate : InterestRatePerSecond;
  last_update_unix_timestamp : Z;
  pending_protocol_fee_shares : UFixedPoint;
  pending_curator_fee_shares : UFixedPoint }.

Definition set_supply (x : SharesTracker) (v : SupplyVault) : SupplyVault :=
  mkSupplyVault (mint v) (mint_decimals_ v) (vault v) (oracle_config v) x
    (borrow_shares_tracker v) (interest_rate_curve v) (last_borrow_interest_rate v)
    (last_update_unix_timestamp v) (pending_protocol_fee_shares v)
    (pending_curator_fee_shares v).
Definition set_borrow (x : SharesTracker) (v : SupplyVault) : SupplyVault :=
  mkSupplyVault (mint v) (mint_decimals_ v) (vault v) (oracle_config v)
    (supply_shares_tracker v) x (interest_rate_curve v) (last_borrow_interest_rate v)
    (last_update_unix_timestamp v) (pending_protocol_fee_shares v)
    (pending_curator_fee_shares v).
Definition set_curve (x : PodInterestRateCurve) (v : SupplyVault) : SupplyVault :=
  mkSupplyVault (mint v) (mint_decimals_ v) (vault v) (oracle_config v)
    (supply_shares_tracker v) (borrow_shares_tracker v) x (last_borrow_interest_rate v)
    (last_update_unix_timestamp v) (pending_protocol_fee_shares v)
    (pending_curator_fee_shares v).
Definition put_oracle_config (x : OracleConfig) (v : SupplyVault) : SupplyVault :=
  mkSupplyVault (mint v) (mint_decimals_ v) (vault v) x
    (supply_shares_tracker v) (borrow_shares_tracker v) (interest_rate_curve v)
    (last_borrow_interest_rate v) (last_update_unix_timestamp v)
    (pending_protocol_fee_shares v) (pending_curator_fee_shares v).
Definition set_last_rate (x : InterestRatePerSecond) (v : SupplyVault) : SupplyVault :=
  mkSupplyVault (mint v) (mint_decimals_ v) (vault v) (oracle_config v)
    (supply_shares_tracker v) (borrow_shares_tracker v) (interest_rate_curve v) x
    (last_update_unix_timestamp v) (pending_protocol_fee_shares v)
    (pending_curator_fee_shares v).
Definition set_last_update (x : Z) (v : SupplyVault) : SupplyVault :=
  mkSupplyVault (mint v) (mint_decimals_ v) (vault v) (oracle_config v)
    (supply_shares_tracker v) (borrow_shares_tracker v) (interest_rate_curve v)
    (last_borrow_interest_rate v) x (pending_protocol_fee_shares v)
    (pending_curator_fee_shares v).
Definition set_pending_protocol (x : UFixedPoint) (v : SupplyVault) : SupplyVault :=
  mkSupplyVault (mint v) (mint_decimals_ v) (vault v) (oracle_config v)
    (supply_shares_tracker v) (borrow_shares_tracker v) (interest_rate_curve v)
    (last_borrow_interest_rate v) (last_update_unix_timestamp v) x
    (pending_curator_fee_shares v).
Definition set_pending_curator (x : UFixedPoint) (v : SupplyVault) : SupplyVault :=
  mkSupplyVault (mint v) (mint_decimals_ v) (vault v) (oracle_config v)
    (supply_shares_tracker v) (borrow_shares_tracker v) (interest_rate_curve v)
    (last_borrow_interest_rate v) (last_update_unix_timestamp v)
    (pending_protocol_fee_shares v) x.

(** The fields whose own methods are called. *)
Definition supply_lens : Lens SupplyVault SharesTracker :=
  {| lget := supply_shares_tracker; lset := set_supply |}.
Definition borrow_lens : Lens SupplyVault SharesTracker :=
  {| lget := borrow_shares_tracker; lset := set_borrow |}.
Definition curve_lens : Lens SupplyVault PodInterestRateCurve :=
  {| lget := interest_rate_curve; lset := set_curve |}.

(** [mint_decimals]: [as u8] *)
Definition mint_decimals (self : SupplyVault) : Z := as_u8 (mint_decimals_ self).

Definition set_oracle_config (c : OracleConfig) : ST SupplyVault () :=
  st_modify (put_oracle_config c).

Definition initialize (mint : Pubkey) (mint_decimals : Z) (vault : Pubkey)
  (oracle_config : OracleConfig) (interest_rate : InterestRateCurveKind) (timestamp : Z)
  : ST SupplyVault () :=
  st_guard (MAX_EXPONENT_ABS <? as_i64 mint_decimals) UnsupportedMintDecimals ;;;
  st_guard (negb (is_valid interest_rate)) InvalidCurve ;;;
  let! _ := st_lift (config_validate oracle_config) in
  st_modify (fun v => mkSupplyVault mint mint_decimals vault oracle_config
    (supply_shares_tracker v) (borrow_shares_tracker v)
    (from_interest_rate_kind interest_rate) (last_borrow_interest_rate v)
    (last_update_unix_timestamp v) (pending_protocol_fee_shares v)
    (pending_curator_fee_shares v)) ;;;
  zoom supply_lens SharesTracker.initialize ;;;
  zoom borrow_lens SharesTracker.initialize ;;;
  st_modify (set_last_update timestamp).

Record SupplyVaultSummary : Type := mkSupplyVaultSummary {
  summary_last_update : Z;
  summary_total_supply : Z;
  summary_total_borrow : Z;
  summary_pending_curator_fee_atoms : Z;
  summary_pending_protocol_fee_atoms : Z;
  summary_utilisation_rate : IFixedPoint;
  summary_borrow_interest_rate : InterestRatePerSecond;
  summary_lending_interest_rate : InterestRatePerSecond }.

Section Ops.
Context {FX : FixedCrate}.

Definition total_supply (self : SupplyVault) : Res Z :=
  total_atoms (supply_shares_tracker self) RoundDown.

Definition total_borrow (self : SupplyVault) : Res Z :=
  total_atoms (borrow_shares_tracker self) RoundUp.

Definition compute_utilisation_rate (total_borrowed total_supply : Z) : Res IFixedPoint :=
  match i_from_ratio total_borrowed total_supply with
  | Err err => if negb (total_borrowed =? 0) then Err err else Ok i_zero
  | r => r
  end.

Definition utilisation_rate (self : SupplyVault) : Res IFixedPoint :=
  let? s := total_supply self in
  let? b := total_borrow self in
  compute_utilisation_rate b s.

Definition borrow_shares_to_atoms (self : SupplyVault) (shares : UFixedPoint) : Res Z :=
  shares_to_atoms (borrow_shares_tracker self) shares RoundUp.

Definition get_summary (self : SupplyVault) : Res SupplyVaultSummary :=
  let? s := total_supply self in
  let? b := total_borrow self in
  let? u := compute_utilisation_rate b s in
  let? c := shares_to_atoms (supply_shares_tracker self)
              (pending_curator_fee_shares self) RoundDown in
  let? p := shares_to_atoms (supply_shares_tracker self)
              (pending_protocol_fee_shares self) RoundDown in
  let? l := per_second_adjust_for_utilisation_rate (last_borrow_interest_rate self) u in
  Ok (mkSupplyVaultSummary (last_update_unix_timestamp self) s b c p u
        (last_borrow_interest_rate self) l).

Definition sync_clock (unix_timestamp : Z) (lending_market_fee : UFixedPoint)
  (fee_percent_for_protocol_in_bps : Z) : ST SupplyVault () :=
  let! self := st_get in
  if last_update_unix_timestamp self <? unix_timestamp then
    let elapsed := as_u64 (unix_timestamp - last_update_unix_timestamp self) in
    let! u := st_lift (utilisation_rate self) in
    let params := {| InterestRatePerSecond.utilisation_rate := u;
                     elapsed_seconds_since_last_update := elapsed |} in
    let! borrow_interest_rate := zoom curve_lens (borrow_rate_per_second params) in
    let! borrow_rate_during_elapsed := st_lift
      (coumpounding_interest_rate_during_elapsed_seconds borrow_interest_rate elapsed) in
    zoom borrow_lens (apply_interest_rate borrow_rate_during_elapsed) ;;;
    let! lending_rate := st_lift
      (adjust_for_utilisation_rate borrow_rate_during_elapsed u) in
    let! fee_shares := zoom supply_lens
      (apply_interest_rate_with_fee lending_rate lending_market_fee) in
    let! protocol_fee_shares := st_lift
      (bps_from_fixed_point fee_percent_for_protocol_in_bps fee_shares) in
    let! curator_fee_shares := st_lift (safe_sub fee_shares protocol_fee_shares) in
    let! p := st_lift (safe_add (pending_protocol_fee_shares self) protocol_fee_shares) in
    st_modify (set_pending_protocol p) ;;;
    let! c := st_lift (safe_add (pending_curator_fee_shares self) curator_fee_shares) in
    st_modify (set_pending_curator c) ;;;
    st_modify (set_last_rate borrow_interest_rate) ;;;
    st_modify (set_last_update unix_timestamp)
  else st_ret tt.

Definition lend (atoms : Z) : ST SupplyVault UFixedPoint :=
  zoom supply_lens (deposit_atoms atoms).

Definition withdraw_shares (shares : UFixedPoint) : ST SupplyVault Z :=
  zoom supply_lens (SharesTracker.withdraw_shares shares RoundDown).

Definition withdraw_atoms (atoms : Z) : ST SupplyVault UFixedPoint :=
  zoom supply_lens (SharesTracker.withdraw_atoms atoms).

Definition borrow (atoms : Z) : ST SupplyVault UFixedPoint :=
  zoom borrow_lens (deposit_atoms atoms).

Definition repay_shares (shares : UFixedPoint) : ST SupplyVault Z :=
  zoom borrow_lens (SharesTracker.withdraw_shares shares RoundUp).

Definition repay_atoms (atoms : Z) : ST SupplyVault UFixedPoint :=
  zoom borrow_lens (SharesTracker.withdraw_atoms atoms).

Definition repay_atoms_capped (atoms : Z) (max_shares : UFixedPoint)
  : ST SupplyVault (Z * UFixedPoint) :=
  zoom borrow_lens (withdraw_atoms_capped atoms max_shares RoundUp).

Definition redeem_protocol_fees : ST SupplyVault Z :=
  let! self := st_get in
  st_modify (set_pending_protocol u_zero) ;;;
  withdraw_shares (pending_protocol_fee_shares self).

Definition redeem_curator_fees : ST SupplyVault Z :=
  let! self := st_get in
  st_modify (set_pending_curator u_zero) ;;;
  withdraw_shares (pending_curator_fee_shares self).

Definition socialize_loss (debt_shares : UFixedPoint) : ST SupplyVault Z :=
  let! debt := zoom borrow_lens (SharesTracker.withdraw_shares debt_shares RoundUp) in
  zoom supply_lens (socialize_loss_atoms debt) ;;;
  st_ret debt.

Definition donate_supply (atoms : Z) : ST SupplyVault () :=
  zoom supply_lens (donate_atoms atoms).

End Ops.

(** * Facts about the supply vault

    Which shares each operation moves: [free_shares] are the supply shares that belong to
    positions, that is all shares but the pending fees. *)

Definition supply_total (v : SupplyVault) : Z :=
  u_bits (total_shares (supply_shares_tracker v)).
Definition borrow_total (v : SupplyVault) : Z :=
  u_bits (total_shares (borrow_shares_tracker v)).
Definition pending_fees (v : SupplyVault) : Z :=
  u_bits (pending_protocol_fee_shares v) + u_bits (pending_curator_fee_shares v).
Definition free_shares (v : SupplyVault) : Z := supply_total v - pending_fees v.

(** The values the fields can hold. *)
Definition vault_ok (v : SupplyVault) : Prop :=
  tracker_ok (supply_shares_tracker v) /\ tracker_ok (borrow_shares_tracker v) /\
  u_ok (pending_protocol_fee_shares v) /\ u_ok (pending_curator_fee_shares v).

(** The fields that only the creation of the market and the oracle update set. *)
Definition same_identity (v v' : SupplyVault) : Prop :=
  mint v' = mint v /\ mint_decimals_ v' = mint_decimals_ v /\ vault v' = vault v /\
  oracle_config v' = oracle_config v.

#[global] Hint Unfold supply_total borrow_total pending_fees free_shares : widths.

Lemma same_identity_refl v : same_identity v v.
Proof. by repeat split. Qed.

Lemma same_identity_trans v1 v2 v3 :
  same_identity v1 v2 -> same_identity v2 v3 -> same_identity v1 v3.
Proof. unfold same_identity. intuition congruence. Qed.

#[global] Instance supply_lens_laws : LensLaws supply_lens.
Proof. by split; intros; destruct s. Qed.
#[global] Instance borrow_lens_laws : LensLaws borrow_lens.
Proof. by split; intros; destruct s. Qed.
#[global] Instance curve_lens_laws : LensLaws curve_lens.
Proof. by split; intros; destruct s. Qed.

Section Facts.
Context {FX : FixedCrate} {FXL : FixedLaws FX}.

(** Interest at any rate leaves the shares alone. *)
Lemma apply_interest_rate_shares r t t' :
  tracker_ok t -> apply_interest_rate r t = (Ok tt, t') ->
  tracker_ok t' /\ total_shares t' = total_shares t.
Proof.
  intros Ht H. unfold apply_interest_rate in H. run_inv.
  destruct (u_is_zero _); run_inv; [done |].
  match goal with H : ufixed_try_from _ = Ok _ |- _ => apply ufixed_try_from_ok in H as [-> Hr] end.
  split; [| done]. split; [apply Ht | split; cbn; lia].
Qed.

(** Interest with a fee mints the shares it returns. *)
Lemma apply_interest_rate_with_fee_shares r fee t s t' :
  tracker_ok t -> apply_interest_rate_with_fee r fee t = (Ok s, t') ->
  tracker_ok t' /\ u_ok s /\
  u_bits (total_shares t') = u_bits (total_shares t) + u_bits s.
Proof.
  intros Ht H. unfold apply_interest_rate_with_fee in H. run_inv.
  destruct (_ =? 0); run_inv; [split; [done |]; split; [split; cbn; fx_lia | cbn; lia] |].
  destruct (is_negative _); run_inv.
  repeat match goal with H : ufixed_try_from _ = Ok _ |- _ =>
    apply ufixed_try_from_ok in H as [-> ?] end.
  match goal with H : safe_add (UFP _) _ = Ok _ |- _ => apply u_add_ok in H as [-> ?] end.
  cbn in *. split; [split; split; cbn; lia | split; [split; cbn; lia | lia]].
Qed.

Lemma bps_from_fixed_point_ok bps (x y : UFixedPoint) :
  bps_from_fixed_point bps x = Ok y -> u_bits y = u_bits x * bps / ONE_IN_BPS.
Proof. intros H. unfold bps_from_fixed_point in H. fixed_inv. done. Qed.

(** Interest accrual creates fee shares and nothing else: the shares of lenders, the
    pending fees apart, and the shares of borrowers are the same before and after. *)
Lemma sync_clock_ok ts fee bps v v' :
  vault_ok v -> 0 <= bps -> SupplyVault.sync_clock ts fee bps v = (Ok tt, v') ->
  vault_ok v' /\ same_identity v v' /\ free_shares v' = free_shares v /\
  borrow_total v' = borrow_total v /\
  last_update_unix_timestamp v' = Z.max ts (last_update_unix_timestamp v).
Proof.
  intros (Hs & Hb & Hp & Hc) Hbps H. unfold SupplyVault.sync_clock in H. run_inv.
  destruct (_ <? ts) eqn:E; bool_prop;
    [| run_inv; split; [done |]; split; [apply same_identity_refl |]; do 2 (split; [done |]);
       lia].
  run_inv. cbn [lget lset supply_lens borrow_lens curve_lens set_curve set_borrow set_supply
    borrow_shares_tracker supply_shares_tracker] in *.
  match goal with H : apply_interest_rate _ _ = _ |- _ =>
    apply apply_interest_rate_shares in H as [Hb' Hbt]; [| done] end.
  match goal with H : apply_interest_rate_with_fee _ _ _ = _ |- _ =>
    apply apply_interest_rate_with_fee_shares in H as (Hs' & Hf & Hst); [| done] end.
  match goal with H : bps_from_fixed_point _ _ = Ok _ |- _ =>
    apply bps_from_fixed_point_ok in H end.
  match goal with H : borrow_rate_per_second _ _ = _ |- _ => clear H end.
  fixed_inv. cbn [u_bits] in *.
  split; [repeat split; cbn; try apply Hs'; try apply Hb'; fx_lia |].
  split; [by repeat split |]. unfold free_shares, supply_total, pending_fees, borrow_total.
  cbn. rewrite Hbt, Hst. split; [lia |]. split; [done | lia].
Qed.

(** and the pending fees of neither side shrink. *)
Lemma sync_clock_fees_grow ts fee bps v v' :
  vault_ok v -> 0 <= bps -> SupplyVault.sync_clock ts fee bps v = (Ok tt, v') ->
  u_bits (pending_curator_fee_shares v) <= u_bits (pending_curator_fee_shares v') /\
  u_bits (pending_protocol_fee_shares v) <= u_bits (pending_protocol_fee_shares v').
Proof.
  intros (Hs & Hb & Hp & Hc) Hbps H. unfold SupplyVault.sync_clock in H. run_inv.
  destruct (_ <? ts); run_inv; [| lia].
  cbn [lget lset supply_lens borrow_lens curve_lens set_curve set_borrow set_supply
    supply_shares_tracker] in *.
  match goal with H : apply_interest_rate_with_fee _ _ _ = _ |- _ =>
    apply apply_interest_rate_with_fee_shares in H as (_ & Hf & _); [| done] end.
  match goal with H : bps_from_fixed_point _ _ = Ok _ |- _ =>
    apply bps_from_fixed_point_ok in H end.
  match goal with H : borrow_rate_per_second _ _ = _ |- _ => clear H end.
  fixed_inv. cbn [u_bits] in *. cbn. destruct Hf as [Hf _].
  assert (0 <= u_bits x9 * bps / ONE_IN_BPS)
    by (apply div_nonneg; [apply Z.mul_nonneg_nonneg; lia | reflexivity]). lia.
Qed.

(** Redeeming pending fees burns exactly them. *)
Lemma redeem_protocol_fees_ok v n v' :
  vault_ok v -> SupplyVault.redeem_protocol_fees v = (Ok n, v') ->
  vault_ok v' /\ same_identity v v' /\ free_shares v' = free_shares v /\
  borrow_shares_tracker v' = borrow_shares_tracker v /\
  pending_protocol_fee_shares v' = u_zero /\
  shares_to_atoms (supply_shares_tracker v) (pending_protocol_fee_shares v) RoundDown = Ok n.
Proof.
  intros (Hs & Hb & Hp & Hc) H.
  unfold SupplyVault.redeem_protocol_fees, SupplyVault.withdraw_shares in H. run_inv.
  cbn [lget lset supply_lens set_pending_protocol supply_shares_tracker] in *.
  match goal with H : SharesTracker.withdraw_shares _ _ _ = _ |- _ =>
    apply withdraw_shares_ok in H as (Ha & -> & Ht'); [| done..] end.
  split; [repeat split; cbn; try apply Ht'; try apply Hb; try apply Hc; fx_lia |].
  split; [by repeat split |].
  split; [unfold free_shares, supply_total, pending_fees; cbn; lia | done].
Qed.

Lemma redeem_curator_fees_ok v n v' :
  vault_ok v -> SupplyVault.redeem_curator_fees v = (Ok n, v') ->
  vault_ok v' /\ same_identity v v' /\ free_shares v' = free_shares v /\
  borrow_shares_tracker v' = borrow_shares_tracker v /\
  pending_curator_fee_shares v' = u_zero /\
  shares_to_atoms (supply_shares_tracker v) (pending_curator_fee_shares v) RoundDown = Ok n.
Proof.
  intros (Hs & Hb & Hp & Hc) H.
  unfold SupplyVault.redeem_curator_fees, SupplyVault.withdraw_shares in H. run_inv.
  cbn [lget lset supply_lens set_pending_curator supply_shares_tracker] in *.
  match goal with H : SharesTracker.withdraw_shares _ _ _ = _ |- _ =>
    apply withdraw_shares_ok in H as (Ha & -> & Ht'); [| done..] end.
  split; [repeat split; cbn; try apply Ht'; try apply Hb; try apply Hp; fx_lia |].
  split; [by repeat split |].
  split; [unfold free_shares, supply_total, pending_fees; cbn; lia | done].
Qed.

Lemma donate_supply_ok atoms v v' :
  vault_ok v -> 0 <= atoms -> donate_supply atoms v = (Ok tt, v') ->
  vault_ok v' /\ same_identity v v' /\ free_shares v' = free_shares v /\
  borrow_shares_tracker v' = borrow_shares_tracker v.
Proof.
  intros (Hs & Hb & Hp & Hc) Ha H. unfold donate_supply in H. run_inv.
  cbn [lget lset supply_lens] in *.
  match goal with H : donate_atoms _ _ = _ |- _ =>
    apply donate_atoms_ok in H as (_ & -> & Ht'); [| done..] end.
  split; [repeat split; cbn; try apply Ht'; try apply Hb; try apply Hp; apply Hc |].
  split; [by repeat split | done].
Qed.

Lemma vault_lend_ok atoms v s v' :
  vault_ok v -> 0 <= atoms -> SupplyVault.lend atoms v = (Ok s, v') ->
  vault_ok v' /\ same_identity v v' /\ free_shares v' = free_shares v + u_bits s /\
  borrow_shares_tracker v' = borrow_shares_tracker v /\ u_ok s.
Proof.
  intros (Hs & Hb & Hp & Hc) Ha H. unfold SupplyVault.lend in H. run_inv.
  cbn [lget lset supply_lens] in *.
  match goal with H : deposit_atoms _ _ = _ |- _ =>
    apply deposit_atoms_ok in H as (_ & _ & -> & Ht' & Hu); [| done..] end.
  split; [repeat split; cbn; try apply Ht'; try apply Hb; try apply Hp; apply Hc |].
  split; [by repeat split |].
  split; [unfold free_shares, supply_total, pending_fees; cbn; lia | done].
Qed.

Lemma vault_withdraw_atoms_ok atoms v s v' :
  vault_ok v -> 0 <= atoms -> SupplyVault.withdraw_atoms atoms v = (Ok s, v') ->
  vault_ok v' /\ same_identity v v' /\ free_shares v' = free_shares v - u_bits s /\
  borrow_shares_tracker v' = borrow_shares_tracker v /\ u_ok s.
Proof.
  intros (Hs & Hb & Hp & Hc) Ha H. unfold SupplyVault.withdraw_atoms in H. run_inv.
  cbn [lget lset supply_lens] in *.
  match goal with H : SharesTracker.withdraw_atoms _ _ = _ |- _ =>
    apply withdraw_atoms_ok in H as (_ & _ & -> & Ht' & Hu); [| done..] end.
  split; [repeat split; cbn; try apply Ht'; try apply Hb; try apply Hp; apply Hc |].
  split; [by repeat split |].
  split; [unfold free_shares, supply_total, pending_fees; cbn; lia | done].
Qed.

Lemma vault_withdraw_shares_ok s v n v' :
  vault_ok v -> u_ok s -> SupplyVault.withdraw_shares s v = (Ok n, v') ->
  vault_ok v' /\ same_identity v v' /\ free_shares v' = free_shares v - u_bits s /\
  borrow_shares_tracker v' = borrow_shares_tracker v.
Proof.
  intros (Hs & Hb & Hp & Hc) Hu H. unfold SupplyVault.withdraw_shares in H. run_inv.
  cbn [lget lset supply_lens] in *.
  match goal with H : SharesTracker.withdraw_shares _ _ _ = _ |- _ =>
    apply withdraw_shares_ok in H as (_ & -> & Ht'); [| done..] end.
  split; [repeat split; cbn; try apply Ht'; try apply Hb; try apply Hp; apply Hc |].
  split; [by repeat split |].
  split; [unfold free_shares, supply_total, pending_fees; cbn; lia | done].
Qed.

Lemma vault_borrow_ok atoms v s v' :
  vault_ok v -> 0 <= atoms -> SupplyVault.borrow atoms v = (Ok s, v') ->
  vault_ok v' /\ same_identity v v' /\ free_shares v' = free_shares v /\
  borrow_total v' = borrow_total v + u_bits s /\ u_ok s.
Proof.
  intros (Hs & Hb & Hp & Hc) Ha H. unfold SupplyVault.borrow in H. run_inv.
  cbn [lget lset borrow_lens] in *.
  match goal with H : deposit_atoms _ _ = _ |- _ =>
    apply deposit_atoms_ok in H as (_ & _ & -> & Ht' & Hu); [| done..] end.
  split; [repeat split; cbn; try apply Ht'; try apply Hs; try apply Hp; apply Hc |].
  split; [by repeat split | done].
Qed.

(** Any of the three ways to burn borrow shares. *)
Lemma burn_borrow_ok v s :
  vault_ok v ->
  let t := borrow_shares_tracker v in
  let v' := set_borrow (set_total_shares (UFP (u_bits (total_shares t) - u_bits s)) t) v in
  tracker_ok (borrow_shares_tracker v') ->
  vault_ok v' /\ same_identity v v' /\ free_shares v' = free_shares v /\
  borrow_total v' = borrow_total v - u_bits s.
Proof.
  intros (Hs & Hb & Hp & Hc) t v' Ht'.
  split; [repeat split; cbn; try apply Ht'; try apply Hs; try apply Hp; apply Hc |].
  split; [by repeat split | done].
Qed.

Lemma vault_repay_atoms_ok atoms v s v' :
  vault_ok v -> 0 <= atoms -> SupplyVault.repay_atoms atoms v = (Ok s, v') ->
  vault_ok v' /\ same_identity v v' /\ free_shares v' = free_shares v /\
  borrow_total v' = borrow_total v - u_bits s /\ u_ok s.
Proof.
  intros Hv Ha H. unfold SupplyVault.repay_atoms in H. run_inv. cbn [lget lset borrow_lens] in *.
  match goal with H : SharesTracker.withdraw_atoms _ _ = _ |- _ =>
    apply withdraw_atoms_ok in H as (_ & _ & -> & Ht' & Hu); [| apply Hv | done] end.
  destruct (burn_borrow_ok v s Hv Ht') as (? & ? & ? & ?). done.
Qed.

Lemma vault_repay_shares_ok s v n v' :
  vault_ok v -> u_ok s -> repay_shares s v = (Ok n, v') ->
  vault_ok v' /\ same_identity v v' /\ free_shares v' = free_shares v /\
  borrow_total v' = borrow_total v - u_bits s.
Proof.
  intros Hv Hu H. unfold repay_shares in H. run_inv. cbn [lget lset borrow_lens] in *.
  match goal with H : SharesTracker.withdraw_shares _ _ _ = _ |- _ =>
    apply withdraw_shares_ok in H as (_ & -> & Ht'); [| apply Hv | done] end.
  by apply burn_borrow_ok.
Qed.

Lemma vault_repay_capped_ok atoms m v n s v' :
  vault_ok v -> 0 <= atoms -> u_ok m -> repay_atoms_capped atoms m v = (Ok (n, s), v') ->
  vault_ok v' /\ same_identity v v' /\ free_shares v' = free_shares v /\
  borrow_total v' = borrow_total v - u_bits s /\ u_ok s /\ u_bits s <= u_bits m /\ 0 <= n.
Proof.
  intros Hv Ha Hm H. unfold repay_atoms_capped in H. run_inv. cbn [lget lset borrow_lens] in *.
  match goal with H : withdraw_atoms_capped _ _ _ _ = _ |- _ =>
    apply withdraw_atoms_capped_ok in H as (-> & Ht' & Hu & Hle & Hn); [| apply Hv | done | done] end.
  destruct (burn_borrow_ok v s Hv Ht') as (? & ? & ? & ?).
  do 6 (split; [done |]). destruct Hn as [[-> _] | (-> & Hn & _)]; [done |].
  apply shares_to_atoms_u64 in Hn; [widths_lia | apply Hv | done].
Qed.

Lemma vault_socialize_loss_ok s v n v' :
  vault_ok v -> u_ok s -> SupplyVault.socialize_loss s v = (Ok n, v') ->
  vault_ok v' /\ same_identity v v' /\ free_shares v' = free_shares v /\
  borrow_total v' = borrow_total v - u_bits s.
Proof.
  intros Hv Hu H. unfold SupplyVault.socialize_loss in H. run_inv.
  cbn [lget lset borrow_lens supply_lens] in *.
  match goal with H : SharesTracker.withdraw_shares _ _ _ = _ |- _ =>
    apply withdraw_shares_ok in H as (Hn & -> & Ht'); [| apply Hv | done] end.
  destruct (burn_borrow_ok v s Hv Ht') as ((Hs & Hb & Hp & Hc) & Hid & Hf & Hbt).
  match goal with H : socialize_loss_atoms _ _ = _ |- _ =>
    apply socialize_loss_atoms_ok in H as (_ & -> & Hs'); [| done |] end.
  - split; [repeat split; cbn; try apply Hs'; try apply Hb; try apply Hp; apply Hc |].
    split; [by repeat split | done].
  - apply shares_to_atoms_u64 in Hn; [widths_lia | apply Hv | done].
Qed.

End Facts.
