(* ===== verification/Liquidation.v ===== *)
(** * Liquidation amounts

    [autara-lib/src/operation/liquidation.rs]. *)
From S2P Require Import Prelude.
From S2P Require Import Errors.
From S2P Require Import Monad.
From S2P Require Import FixedPoint.
From S2P Require Import OracleRate.
From S2P Require Import FixedFacts.

Record LiquidationResult : Type := mkLiquidation {
  borrowed_atoms_to_repay : Z;
  collateral_atoms_to_liquidate : Z }.

Record LiquidationResultWithBonus : Type := mkLiquidationWithBonus {
  repay_atoms : Z;
  liquidate_atoms : Z;
  bonus_atoms : Z }.

(** [LiquidationResult::adjust_for_max_repay]: the division is by a positive number. *)
Definition adjust_for_max_repay (self : LiquidationResult) (max_repay : Z)
  : LiquidationResult :=
  if max_repay <? borrowed_atoms_to_repay self then
    mkLiquidation max_repay
      (as_u64 (collateral_atoms_to_liquidate self * max_repay
               / borrowed_atoms_to_repay self))
  else self.

(** [LiquidationResultWithBonus::adjust_for_max_repay] *)
Definition bonus_adjust_for_max_repay (self : LiquidationResultWithBonus) (max_repay : Z)
  : LiquidationResultWithBonus :=
  if max_repay <? repay_atoms self then
    let adjust_fn value := as_u64 (value * max_repay / repay_atoms self) in
    mkLiquidationWithBonus max_repay (adjust_fn (liquidate_atoms self))
      (adjust_fn (bonus_atoms self))
  else self.

Section Ops.
Context {FX : FixedCrate}.

Definition total_collateral_atoms_to_liquidate (self : LiquidationResultWithBonus) : Res Z :=
  safe_add (liquidate_atoms self) (bonus_atoms self).

Definition compute_liquidation (borrowed_atoms borrow_decimals : Z)
  (supply_oracle : OracleRate) (collateral_atoms collateral_decimals : Z)
  (collateral_oracle : OracleRate) (new_ltv : IFixedPoint) : Res LiquidationResult :=
  let? bv := borrow_value supply_oracle borrowed_atoms borrow_decimals in
  let? cv := collateral_value collateral_oracle collateral_atoms collateral_decimals in
  let? cvl := safe_mul cv new_ltv in
  let? diff := safe_sub bv cvl in
  let? rest := safe_sub i_one new_ltv in
  let? value_to_liquidate := safe_div diff rest in
  let? ca := OracleRate.collateral_atoms collateral_oracle value_to_liquidate
               collateral_decimals in
  let? ba := borrow_atoms supply_oracle value_to_liquidate borrow_decimals in
  let? ca' := i_as_u64_rounded_down ca in
  let? ba' := i_as_u64_rounded_up ba in
  Ok (mkLiquidation ba' ca').

Definition compute_liquidation_with_fee (borrowed_atoms borrow_decimals : Z)
  (supply_oracle : OracleRate) (collateral_atoms collateral_decimals : Z)
  (collateral_oracle : OracleRate) (new_ltv_after_liquidation_fee : IFixedPoint)
  (liquidation_fee : IFixedPoint) (max_borrowed_atoms_to_repay : Z)
  : Res LiquidationResultWithBonus :=
  let? one_plus_liquidation_fee := safe_add i_one liquidation_fee in
  let? adjusted_new_ltv := safe_mul new_ltv_after_liquidation_fee one_plus_liquidation_fee in
  let? adjusted := safe_div collateral_atoms one_plus_liquidation_fee in
  let? adjusted_collateral_atoms := i_as_u64_rounded_down adjusted in
  let? result := compute_liquidation borrowed_atoms borrow_decimals supply_oracle
                   adjusted_collateral_atoms collateral_decimals collateral_oracle
                   adjusted_new_ltv in
  let result := adjust_for_max_repay result (Z.min max_borrowed_atoms_to_repay borrowed_atoms) in
  let? fee := safe_mul (collateral_atoms_to_liquidate result) liquidation_fee in
  let? collateral_atoms_fee := i_as_u64_rounded_down fee in
  let? total := safe_add (collateral_atoms_to_liquidate result) collateral_atoms_fee in
  let? collateral_atoms_fee :=
    (if collateral_atoms <? total
     then safe_sub collateral_atoms (collateral_atoms_to_liquidate result)
     else Ok collateral_atoms_fee) in
  Ok (mkLiquidationWithBonus (borrowed_atoms_to_repay result)
        (collateral_atoms_to_liquidate result) collateral_atoms_fee).

End Ops.

(** * Facts about liquidation amounts

    A liquidation repays at most what is owed and at most what the liquidator offers,
    seizes at most the collateral there is, and pays at most the value repaid plus the
    bonus. *)

(** The amounts a liquidation may consist of. *)
Definition liquidation_within (repay collateral : Z) (r : LiquidationResultWithBonus) : Prop :=
  0 <= repay_atoms r <= repay /\ 0 <= liquidate_atoms r /\ 0 <= bonus_atoms r /\
  liquidate_atoms r + bonus_atoms r <= collateral.

Lemma liquidation_within_mono r c r' c' x :
  r <= r' -> c <= c' -> liquidation_within r c x -> liquidation_within r' c' x.
Proof. unfold liquidation_within. lia. Qed.

(** The prices at which debt and collateral are valued. *)
Definition debt_price (r : OracleRate) : Z := i_bits (rate r) + i_bits (confidence r).
Definition collateral_price (r : OracleRate) : Z := i_bits (rate r) - i_bits (confidence r).

(** [c] atoms of collateral are worth no more than [b] atoms of debt, up to one unit of the
    80.48 format per atom repaid and one more: with decimals [dc] and [db], the comparison
    [c * pc / 10 ^ dc <= b * pb / 10 ^ db] cleared of denominators. *)
Definition fair (so co : OracleRate) (db dc b c : Z) : Prop :=
  c * collateral_price co * 10 ^ db * 2 ^ 48
  <= (b * (2 ^ 48 + 1) + 1) * debt_price so * 10 ^ dc.

Lemma scale_le a m b : 0 <= a -> 0 <= m < b -> 0 <= a * m / b <= a.
Proof.
  intros Ha Hm. split; [apply div_nonneg; nia | apply div_le_upper; nia].
Qed.

Lemma adjust_repay r m :
  0 <= collateral_atoms_to_liquidate r <= U64_MAX -> 0 <= m ->
  0 <= borrowed_atoms_to_repay r ->
  let r' := adjust_for_max_repay r m in
  0 <= borrowed_atoms_to_repay r' <= m /\
  0 <= collateral_atoms_to_liquidate r' <= collateral_atoms_to_liquidate r.
Proof.
  intros Hc Hm Hb. unfold adjust_for_max_repay. destruct (_ <? _) eqn:E; bool_prop; cbn.
  - pose proof (scale_le (collateral_atoms_to_liquidate r) m (borrowed_atoms_to_repay r)).
    rewrite as_u64_small; widths_lia.
  - lia.
Qed.

(** Scaling a liquidation down keeps it fair. *)
Lemma adjust_fair so co db dc r m :
  0 <= debt_price so -> 0 < collateral_price co -> 0 <= db -> 0 <= dc ->
  0 <= collateral_atoms_to_liquidate r <= U64_MAX -> 0 <= m ->
  fair so co db dc (borrowed_atoms_to_repay r) (collateral_atoms_to_liquidate r) ->
  let r' := adjust_for_max_repay r m in
  fair so co db dc (borrowed_atoms_to_repay r') (collateral_atoms_to_liquidate r').
Proof.
  intros Hso Hco Hdb Hdc Hc Hm Hf. unfold adjust_for_max_repay.
  destruct (_ <? _) eqn:E; bool_prop; cbn; [| done]. unfold fair in *.
  set (b := borrowed_atoms_to_repay r) in *.
  set (c := collateral_atoms_to_liquidate r) in *.
  pose proof (scale_le c m b ltac:(lia) ltac:(lia)).
  rewrite as_u64_small by widths_lia. div_bounds (c * m) b.
  assert (0 < 10 ^ db) by (apply Z.pow_pos_nonneg; lia).
  assert (0 < 10 ^ dc) by (apply Z.pow_pos_nonneg; lia).
  set (P := collateral_price co * 10 ^ db * 2 ^ 48).
  set (D := debt_price so * 10 ^ dc). set (q := c * m / b) in *.
  assert (0 < P) by (unfold P; nia). assert (0 <= D) by (unfold D; nia).
  assert (Hf' : c * P <= (b * (2 ^ 48 + 1) + 1) * D) by (unfold P, D; lia).
  assert (b * q * P <= c * m * P) by (apply Z.mul_le_mono_nonneg_r; lia).
  assert (c * P * m <= (b * (2 ^ 48 + 1) + 1) * D * m) by (apply Z.mul_le_mono_nonneg_r; lia).
  assert ((b * (2 ^ 48 + 1) + 1) * m * D <= (b * (m * (2 ^ 48 + 1) + 1)) * D)
    by (apply Z.mul_le_mono_nonneg_r; nia).
  assert (Hs : b * (q * P) <= b * ((m * (2 ^ 48 + 1) + 1) * D)) by lia.
  apply Z.mul_le_mono_pos_l in Hs; [unfold P, D in Hs; lia | lia].
Qed.

Lemma bonus_adjust_within r m repay c :
  0 <= m -> c <= U64_MAX -> liquidation_within repay c r ->
  liquidation_within (Z.min m repay) c (bonus_adjust_for_max_repay r m).
Proof.
  intros Hm Hc (Hr & Hl & Hb & Ht). unfold bonus_adjust_for_max_repay, liquidation_within.
  destruct (_ <? _) eqn:E; bool_prop; cbn; [| lia].
  pose proof (scale_le (liquidate_atoms r) m (repay_atoms r)).
  pose proof (scale_le (bonus_atoms r) m (repay_atoms r)).
  rewrite !as_u64_small; widths_lia.
Qed.

Section Facts.
Context {FX : FixedCrate} {FXL : FixedLaws FX}.

Lemma i_mul_nonpos (a b c : IFixedPoint) :
  i_bits a * i_bits b <= 0 -> safe_mul a b = Ok c -> i_bits c <= 0.
Proof.
  intros Hab H. destruct (i_mul_cases a b) as (r & [_ Hr] & E). rewrite E in H. run_inv.
  match goal with H : fmt_check _ _ = Some _ |- _ => apply fmt_check_i in H as [-> _] end.
  cbn. nia.
Qed.

Lemma i_div_nonpos (a b c : IFixedPoint) :
  i_bits a <= 0 -> 0 < i_bits b -> safe_div a b = Ok c -> i_bits c <= 0.
Proof.
  intros Ha Hb H. destruct (i_div_cases a b) as (r & [_ Hr] & E); [lia |]. rewrite E in H.
  run_inv.
  match goal with H : fmt_check _ _ = Some _ |- _ => apply fmt_check_i in H as [-> _] end.
  rewrite Z.sgn_pos, Z.mul_1_l, Z.abs_eq in Hr by lia. cbn. nia.
Qed.

(** The atoms of a negative value round to at most zero. *)
Lemma collateral_atoms_neg r value d a :
  oracle_ok r -> i_bits value < 0 -> is_decimals d ->
  OracleRate.collateral_atoms r value d = Ok a -> i_bits a <= 0.
Proof.
  intros Hr Hv Hd H. unfold OracleRate.collateral_atoms in H.
  destruct (lower_bound_ok r Hr) as [Hlb Hpos]. rewrite Hlb, power_of_ten_ok in H by done.
  cbn [res_bind] in H. run_inv. pose proof (pow10_pos d Hd).
  match goal with H : safe_mul _ _ = Ok _ |- _ =>
    apply i_mul_nonpos in H; [| cbn [i_bits]; nia] end.
  match goal with H : safe_div _ _ = Ok _ |- _ =>
    apply i_div_nonpos in H; [done | done | cbn; lia] end.
Qed.

Lemma compute_liquidation_u64 ba db so ca dc co l r :
  compute_liquidation ba db so ca dc co l = Ok r ->
  is_u64 (borrowed_atoms_to_repay r) /\ is_u64 (collateral_atoms_to_liquidate r).
Proof.
  intros H. unfold compute_liquidation in H. run_inv.
  match goal with H : i_as_u64_rounded_down _ = Ok _ |- _ =>
    apply i_round_down_ok in H as [-> Hc] end.
  match goal with H : i_as_u64_rounded_up _ = Ok _ |- _ =>
    apply i_round_up_ok in H as [Hn Hn2] end.
  cbn. split; [destruct (_ =? 0) in Hn2; widths_lia | widths_lia].
Qed.

(** What is repaid covers what is seized. *)
Lemma compute_liquidation_fair ba db so ca dc co l r :
  oracle_ok so -> oracle_ok co -> is_decimals db -> is_decimals dc ->
  compute_liquidation ba db so ca dc co l = Ok r ->
  fair so co db dc (borrowed_atoms_to_repay r) (collateral_atoms_to_liquidate r).
Proof.
  intros Hso Hco Hdb Hdc H. destruct (compute_liquidation_u64 _ _ _ _ _ _ _ _ H) as [Hb64 _].
  unfold compute_liquidation in H. run_inv.
  match goal with H : OracleRate.collateral_atoms co ?v dc = Ok ?a,
    H1 : i_as_u64_rounded_down ?a = Ok _ |- _ =>
    rename v into V, H into Hca; apply i_round_down_ok in H1 as [-> Hc] end.
  match goal with H : borrow_atoms so V db = Ok ?a, H1 : i_as_u64_rounded_up ?a = Ok ?x |- _ =>
    rename H into Hba, x into n; apply i_round_up_ok in H1 as [Hn Hn2] end.
  cbn in *. set (a := i_bits _) in *. set (b := i_bits _) in Hn, Hn2. unfold fair.
  pose proof Hso as [Hsc _]. pose proof Hco as [Hcc _].
  pose proof (pow10_pos db Hdb). pose proof (pow10_pos dc Hdc).
  assert (Hdp : 0 < debt_price so) by (unfold debt_price; lia).
  assert (Hcp : 0 < collateral_price co) by (unfold collateral_price; lia).
  destruct (Z.lt_ge_cases (i_bits V) 0) as [Hneg | Hpos].
  { apply collateral_atoms_neg in Hca; [| done..].
    assert (a / 2 ^ 48 = 0) as -> by (div_bounds a (2 ^ 48); lia).
    rewrite !Z.mul_0_l. apply Z.mul_nonneg_nonneg; [| lia].
    apply Z.mul_nonneg_nonneg; widths_lia. }
  apply collateral_atoms_ok in Hca as [Ha _]; [| done..].
  apply borrow_atoms_ok in Hba as [Hb _]; [| done..]. fold a in Ha. fold b in Hb.
  change (i_bits (rate co) - i_bits (confidence co)) with (collateral_price co) in Ha.
  change (i_bits (rate so) + i_bits (confidence so)) with (debt_price so) in Hb.
  assert (Hup : b <= n * (2 ^ 48 + 1)).
  { div_bounds b (2 ^ 48). pose proof (Z.div_mod b (2 ^ 48) ltac:(lia)).
    destruct (_ =? 0) eqn:E in Hn2; bool_prop; widths_lia. }
  div_bounds a (2 ^ 48). div_bounds (i_bits V * 10 ^ dc * 2 ^ 48) (collateral_price co).
  div_bounds (i_bits V * 10 ^ db * 2 ^ 48) (debt_price so). rewrite <- Ha, <- Hb in *.
  set (q := a / 2 ^ 48) in *. clearbody q.
  assert (Hl1 : q * 2 ^ 48 * collateral_price co <= i_bits V * 10 ^ dc * 2 ^ 48)
    by (etransitivity; [apply Z.mul_le_mono_nonneg_r | rewrite Z.mul_comm; eassumption]; lia).
  assert (Hl2 : i_bits V * 10 ^ db * 2 ^ 48 <= debt_price so * (n * (2 ^ 48 + 1) + 1)) by nia.
  assert (Hl3 : q * 2 ^ 48 * collateral_price co * 10 ^ db
               <= i_bits V * 10 ^ dc * 2 ^ 48 * 10 ^ db)
    by (apply Z.mul_le_mono_nonneg_r; lia).
  assert (Hl4 : i_bits V * 10 ^ db * 2 ^ 48 * 10 ^ dc
               <= debt_price so * (n * (2 ^ 48 + 1) + 1) * 10 ^ dc)
    by (apply Z.mul_le_mono_nonneg_r; lia).
  lia.
Qed.

Lemma compute_liquidation_with_fee_within ba db so ca dc co l fee maxr r :
  0 <= ba -> is_u64 ca -> 0 <= maxr ->
  compute_liquidation_with_fee ba db so ca dc co l fee maxr = Ok r ->
  liquidation_within (Z.min maxr ba) ca r.
Proof.
  intros Hba Hca Hmax H. unfold compute_liquidation_with_fee in H. run_inv.
  match goal with H : compute_liquidation _ _ _ _ _ _ _ = Ok ?x |- _ =>
    apply compute_liquidation_u64 in H as [Hb Hc]; rename x into r0 end.
  destruct (adjust_repay r0 (Z.min maxr ba)) as [Hr Hl]; [done | lia | apply Hb |].
  set (adj := adjust_for_max_repay r0 (Z.min maxr ba)) in *.
  repeat match goal with H : i_as_u64_rounded_down _ = Ok _ |- _ =>
    apply i_round_down_ok in H as [-> ?] end.
  destruct (ca <? _) eqn:E; run_inv; bool_prop; fixed_inv;
    unfold liquidation_within; cbn; lia.
Qed.

(** The bonus is at most the configured share of what is seized. *)
Lemma compute_liquidation_with_fee_fair ba db so ca dc co l fee maxr r :
  oracle_ok so -> oracle_ok co -> is_decimals db -> is_decimals dc ->
  0 <= ba -> 0 <= maxr -> 0 <= i_bits fee ->
  compute_liquidation_with_fee ba db so ca dc co l fee maxr = Ok r ->
  fair so co db dc (repay_atoms r) (liquidate_atoms r) /\
  bonus_atoms r * 2 ^ 48 <= liquidate_atoms r * i_bits fee.
Proof.
  intros Hso Hco Hdb Hdc Hba Hmax Hfee H. unfold compute_liquidation_with_fee in H. run_inv.
  match goal with H : compute_liquidation _ _ _ _ _ _ _ = Ok ?x |- _ =>
    pose proof H as Hf; apply compute_liquidation_fair in Hf; [| done..];
    apply compute_liquidation_u64 in H as [Hb Hc]; rename x into r0 end.
  apply (adjust_fair so co db dc r0 (Z.min maxr ba)) in Hf;
    [| destruct Hso, Hco; unfold debt_price, collateral_price, is_decimals in *; try lia..];
    [| done].
  destruct (adjust_repay r0 (Z.min maxr ba)) as [Hr Hl]; [done | lia | apply Hb |].
  set (adj := adjust_for_max_repay r0 (Z.min maxr ba)) in *.
  match goal with H : safe_mul _ fee = Ok _ |- _ => rename H into Hbonus end.
  unfold safe_mul, SafeMath_u64_IFixed, u64_safe_mul_ifixed in Hbonus. run_inv.
  apply i_mul_ok in Hbonus as [-> _]; [| cbn [i_bits i_from_u64]; nia].
  repeat match goal with H : i_as_u64_rounded_down _ = Ok _ |- _ =>
    apply i_round_down_ok in H as [-> ?] end.
  cbn [i_bits i_from_u64] in *.
  set (c := collateral_atoms_to_liquidate adj) in *.
  assert (Hbonus : c * 2 ^ 48 * i_bits fee / 2 ^ 48 / 2 ^ 48 * 2 ^ 48 <= c * i_bits fee).
  { replace (c * 2 ^ 48 * i_bits fee) with (c * i_bits fee * 2 ^ 48) by lia.
    rewrite Z.div_mul by lia. div_bounds (c * i_bits fee) (2 ^ 48). lia. }
  set (fb := c * 2 ^ 48 * i_bits fee / 2 ^ 48 / 2 ^ 48) in *. clearbody fb.
  destruct (ca <? _) eqn:E; run_inv; bool_prop; fixed_inv; cbn; split; [done | lia | done | lia].
Qed.

End Facts.
