(* ===== verification/Market.v ===== *)
(** * Markets

    [autara-lib/src/state/market.rs].  A method that takes [&mut self] and a position runs
    on the pair of the two: both keep what was written to them when a later check fails.
    [LiquidationResultWithCtx] and [CapitalSweepSettlementResult] are those of
    [borrow_position.rs]. *)
From S2P Require Import Prelude.
From S2P Require Import Errors.
From S2P Require Import Monad.
From S2P Require Import FixedPoint.
From S2P Require Import SharesTracker.
From S2P Require Import InterestRateCurve.
From S2P Require Import Pda.
From S2P Require Import OracleRate.
From S2P Require Import Oracle.
From S2P Require Import MarketConfig.
From S2P Require Import SupplyPosition.
From S2P Require Import BorrowPosition.
From S2P Require Import CollateralVault.
From S2P Require Import SupplyVault.
From S2P Require Import Liquidation.

Record Market : Type := mkMarket {
  config : MarketConfig;
  collateral_vault : CollateralVault;
  supply_vault : SupplyVault }.

Definition set_config (x : MarketConfig) (m : Market) : Market :=
  mkMarket x (collateral_vault m) (supply_vault m).
Definition set_collateral_vault (x : CollateralVault) (m : Market) : Market :=
  mkMarket (config m) x (supply_vault m).
Definition set_supply_vault (x : SupplyVault) (m : Market) : Market :=
  mkMarket (config m) (collateral_vault m) x.

Definition config_lens : Lens Market MarketConfig :=
  {| lget := config; lset := set_config |}.
Definition collateral_lens : Lens Market CollateralVault :=
  {| lget := collateral_vault; lset := set_collateral_vault |}.
Definition vault_lens : Lens Market SupplyVault :=
  {| lget := supply_vault; lset := set_supply_vault |}.

(** A market borrowed together with a position. *)
Definition on_vault {P A} (m : ST SupplyVault A) : ST (Market * P) A :=
  zoom (lens_comp lens_fst vault_lens) m.
Definition on_collateral {P A} (m : ST CollateralVault A) : ST (Market * P) A :=
  zoom (lens_comp lens_fst collateral_lens) m.
Definition on_position {P A} (m : ST P A) : ST (Market * P) A := zoom lens_snd m.

Record TokenInfo : Type := mkTokenInfo { ti_mint : Pubkey; ti_decimals : Z }.

Definition supply_token_info (self : Market) : TokenInfo :=
  mkTokenInfo (SupplyVault.mint (supply_vault self)) (SupplyVault.mint_decimals (supply_vault self)).
Definition collateral_token_info (self : Market) : TokenInfo :=
  mkTokenInfo (CollateralVault.mint (collateral_vault self))
    (CollateralVault.mint_decimals (collateral_vault self)).

Definition seed (self : Market) : list (list Z) :=
  market_seed_with_bump (curator (config self)) (SupplyVault.mint (supply_vault self))
    (CollateralVault.mint (collateral_vault self)) (index (config self)) (bump (config self)).

Definition set_supply_oracle_config (c : OracleConfig) : ST Market () :=
  let! _ := st_lift (config_validate c) in
  zoom vault_lens (SupplyVault.set_oracle_config c).

Definition set_collateral_oracle_config (c : OracleConfig) : ST Market () :=
  let! _ := st_lift (config_validate c) in
  zoom collateral_lens (CollateralVault.set_oracle_config c).

Definition initialize_collateral_vault (mint : Pubkey) (mint_decimals : Z) (vault : Pubkey)
  (c : OracleConfig) : ST Market () :=
  zoom collateral_lens (CollateralVault.initialize mint mint_decimals vault c).

Definition initlize_supply_vault (mint : Pubkey) (mint_decimals : Z) (vault : Pubkey)
  (c : OracleConfig) (interest_rate : InterestRateCurveKind) (timestamp : Z) : ST Market () :=
  zoom vault_lens (SupplyVault.initialize mint mint_decimals vault c interest_rate timestamp).

Record LiquidationResultWithCtx : Type := mkLiquidationCtx {
  liquidation_result_with_bonus : LiquidationResultWithBonus;
  health_before_liquidation : BorrowPositionHealth;
  health_after_liquidation : BorrowPositionHealth }.

Record CapitalSweepSettlementResult : Type := mkSettlement {
  settlement_liquidation : LiquidationResultWithBonus;
  health_before_settlement : BorrowPositionHealth;
  health_after_settlement : BorrowPositionHealth;
  collateral_atoms_returned : Z }.

Section Ops.
Context {FX : FixedCrate}.

(** ** Health *)

Definition borrow_position_health_with_collateral_atoms (self : Market)
  (position : BorrowPosition) (collateral_atoms : Z)
  (collateral_oracle supply_oracle : OracleRate) : Res BorrowPositionHealth :=
  let? borrowed_atoms :=
    borrow_shares_to_atoms (supply_vault self) (borrowed_shares position) in
  let? borrow_value := OracleRate.borrow_value supply_oracle borrowed_atoms
                         (SupplyVault.mint_decimals (supply_vault self)) in
  let? collateral_value := OracleRate.collateral_value collateral_oracle collateral_atoms
                             (CollateralVault.mint_decimals (collateral_vault self)) in
  let? ltv := (if i_is_zero borrow_value then Ok i_zero
               else safe_div borrow_value collateral_value) in
  Ok (mkHealth ltv borrowed_atoms collateral_atoms borrow_value collateral_value).

Definition borrow_position_health (self : Market) (position : BorrowPosition)
  (collateral_oracle supply_oracle : OracleRate) : Res BorrowPositionHealth :=
  borrow_position_health_with_collateral_atoms self position
    (collateral_deposited_atoms position) collateral_oracle supply_oracle.

Definition supply_position_info (self : Market) (position : SupplyPosition) : Res Z :=
  shares_to_atoms (supply_shares_tracker (supply_vault self)) (shares position) RoundDown.

Definition position_checks_on_ltv_increase (self : Market) (health : BorrowPositionHealth)
  : Res () :=
  if i_ltb (max_ltv (ltv_config (config self))) (ltv health) then Err MaxLtvReached else Ok tt.

(** The check [utilisation_rate()? > IFixedPoint::one()] of every withdrawal. *)
Definition check_reserves (v : SupplyVault) : Res () :=
  let? u := SupplyVault.utilisation_rate v in
  if i_ltb i_one u then Err WithdrawalExceedsReserves else Ok tt.

(** ** Clock, fees, donations *)

Definition sync_clock (unix_timestamp : Z) : ST Market () :=
  let! self := st_get in
  zoom vault_lens (SupplyVault.sync_clock unix_timestamp
    (lending_market_fee_fixed (config self))
    (MarketConfig.protocol_fee_share_in_bps (config self))).

Definition redeem_protocol_fees : ST Market Z :=
  let! atoms := zoom vault_lens SupplyVault.redeem_protocol_fees in
  let! self := st_get in
  let! _ := st_lift (check_reserves (supply_vault self)) in
  st_ret atoms.

Definition redeem_curator_fess : ST Market Z :=
  let! atoms := zoom vault_lens SupplyVault.redeem_curator_fees in
  let! self := st_get in
  let! _ := st_lift (check_reserves (supply_vault self)) in
  st_ret atoms.

Definition donate_supply_atoms (atoms : Z) : ST Market () :=
  zoom vault_lens (donate_supply atoms).

(** ** Lending *)

Definition lend (atoms : Z) : ST (Market * SupplyPosition) () :=
  let! s := on_vault (SupplyVault.lend atoms) in
  on_position (SupplyPosition.lend atoms s) ;;;
  let! (self, _) := st_get in
  let! total := st_lift (total_supply (supply_vault self)) in
  st_guard (max_supply_atoms (config self) <? total) MaxSupplyReached.

Definition withdraw (atoms : Z) : ST (Market * SupplyPosition) () :=
  let! s := on_vault (SupplyVault.withdraw_atoms atoms) in
  let! (self, _) := st_get in
  let! _ := st_lift (check_reserves (supply_vault self)) in
  on_position (SupplyPosition.withdraw s).

Definition withdraw_all : ST (Market * SupplyPosition) Z :=
  let! (_, position) := st_get in
  let! atoms := on_vault (SupplyVault.withdraw_shares (shares position)) in
  let! (self, _) := st_get in
  let! _ := st_lift (check_reserves (supply_vault self)) in
  on_position SupplyPosition.withdraw_all ;;;
  st_ret atoms.

(** ** Borrowing *)

(** [borrow_position.ensure_capital_sweep_inactive()?] *)
Definition ensure_unswept : ST (Market * BorrowPosition) () :=
  let! (_, position) := st_get in
  st_lift (ensure_capital_sweep_inactive position).

Definition deposit_collateral (atoms : Z) : ST (Market * BorrowPosition) () :=
  ensure_unswept ;;;
  on_position (BorrowPosition.deposit_collateral atoms) ;;;
  on_collateral (CollateralVault.deposit_collateral atoms).

Definition withdraw_collateral (atoms : Z) (collateral_oracle supply_oracle : OracleRate)
  : ST (Market * BorrowPosition) () :=
  ensure_unswept ;;;
  on_position (BorrowPosition.withdraw_collateral atoms) ;;;
  let! (self, position) := st_get in
  st_guard ((collateral_deposited_atoms position =? 0)
            && negb (u_is_zero (borrowed_shares position))) MaxLtvReached ;;;
  let! health := st_lift
    (borrow_position_health self position collateral_oracle supply_oracle) in
  on_collateral (CollateralVault.withdraw_collateral atoms) ;;;
  let! (self, _) := st_get in
  st_lift (position_checks_on_ltv_increase self health).

Definition borrow (borrow_atoms : Z) (supply_oracle collateral_oracle : OracleRate)
  : ST (Market * BorrowPosition) () :=
  ensure_unswept ;;;
  let! s := on_vault (SupplyVault.borrow borrow_atoms) in
  on_position (BorrowPosition.borrow borrow_atoms s) ;;;
  let! (self, position) := st_get in
  let! health := st_lift
    (borrow_position_health self position collateral_oracle supply_oracle) in
  let! _ := st_lift (position_checks_on_ltv_increase self health) in
  let! u := st_lift (SupplyVault.utilisation_rate (supply_vault self)) in
  st_guard (i_ltb (max_utilisation_rate (config self)) u) MaxUtilisationRateReached.

Definition repay (atoms : Z) : ST (Market * BorrowPosition) () :=
  ensure_unswept ;;;
  let! s := on_vault (SupplyVault.repay_atoms atoms) in
  on_position (BorrowPosition.repay s).

Definition repay_all : ST (Market * BorrowPosition) Z :=
  ensure_unswept ;;;
  let! (_, position) := st_get in
  let! atoms := on_vault (repay_shares (borrowed_shares position)) in
  on_position BorrowPosition.repay_all ;;;
  st_ret atoms.

(** ** Liquidation *)

Definition compute_liquidation_result_with_fee_for_collateral (self : Market)
  (position : BorrowPosition) (collateral_atoms : Z)
  (collateral_oracle supply_oracle : OracleRate) (max_repay_atoms : Z)
  : Res (BorrowPositionHealth * LiquidationResultWithBonus) :=
  let? health_before := borrow_position_health_with_collateral_atoms self position
                          collateral_atoms collateral_oracle supply_oracle in
  if i_ltb (ltv health_before) (unhealthy_ltv (ltv_config (config self)))
  then Err PositionIsHealthy
  else
    let? liquidation :=
      (if i_leb i_one (ltv health_before) then
         Ok (bonus_adjust_for_max_repay
               (mkLiquidationWithBonus (borrowed_atoms health_before)
                  (BorrowPosition.collateral_atoms health_before) 0)
               max_repay_atoms)
       else
         compute_liquidation_with_fee (borrowed_atoms health_before)
           (SupplyVault.mint_decimals (supply_vault self)) supply_oracle collateral_atoms
           (CollateralVault.mint_decimals (collateral_vault self)) collateral_oracle
           (target_ltv_after_liquidation (ltv_config (config self)))
           (liquidation_bonus (ltv_config (config self))) max_repay_atoms) in
    Ok (health_before, liquidation).

Definition compute_liquidation_result_with_fee (self : Market) (position : BorrowPosition)
  (collateral_oracle supply_oracle : OracleRate) (max_repay_atoms : Z)
  : Res (BorrowPositionHealth * LiquidationResultWithBonus) :=
  let? _ := ensure_capital_sweep_inactive position in
  compute_liquidation_result_with_fee_for_collateral self position
    (collateral_deposited_atoms position) collateral_oracle supply_oracle max_repay_atoms.

Definition liquidate (collateral_oracle supply_oracle : OracleRate) (max_repay_atoms : Z)
  : ST (Market * BorrowPosition) LiquidationResultWithCtx :=
  ensure_unswept ;;;
  let! (self, position) := st_get in
  let! (health_before, liquidation) := st_lift
    (compute_liquidation_result_with_fee self position collateral_oracle supply_oracle
       max_repay_atoms) in
  let! (atoms_repaid, shares_repaid) := on_vault
    (repay_atoms_capped (Liquidation.repay_atoms liquidation) (borrowed_shares position)) in
  let liquidation := bonus_adjust_for_max_repay liquidation atoms_repaid in
  let! collateral_seized := st_lift (total_collateral_atoms_to_liquidate liquidation) in
  on_position (BorrowPosition.liquidate shares_repaid collateral_seized) ;;;
  on_collateral (CollateralVault.withdraw_collateral collateral_seized) ;;;
  let! (self, position) := st_get in
  let! health_after := st_lift
    (borrow_position_health self position collateral_oracle supply_oracle) in
  st_guard (i_ltb (ltv health_before) (ltv health_after))
    InvalidLiquidationLtvShouldDecrease ;;;
  st_ret (mkLiquidationCtx liquidation health_before health_after).

(** ** Capital sweeps *)

Definition begin_capital_sweep (collateral_oracle supply_oracle : OracleRate)
  : ST (Market * BorrowPosition) BorrowPositionHealth :=
  ensure_unswept ;;;
  let! (self, position) := st_get in
  let! health_before := st_lift
    (borrow_position_health self position collateral_oracle supply_oracle) in
  st_guard (i_ltb (ltv health_before) (unhealthy_ltv (ltv_config (config self))))
    PositionIsHealthy ;;;
  st_guard (i_leb i_one (ltv health_before)) CapitalSweepPositionInsolvent ;;;
  let! swept := on_position BorrowPosition.begin_capital_sweep in
  on_collateral (CollateralVault.withdraw_collateral swept) ;;;
  st_ret health_before.

Definition settle_capital_sweep (collateral_oracle supply_oracle : OracleRate)
  (max_repay_atoms max_collateral_atoms_to_return : Z)
  : ST (Market * BorrowPosition) CapitalSweepSettlementResult :=
  let! (self, position) := st_get in
  st_guard (negb (capital_sweep_pending position)) NoCapitalSweepPending ;;;
  let swept := swept_collateral_atoms position in
  let! health_before := st_lift
    (borrow_position_health_with_collateral_atoms self position swept
       collateral_oracle supply_oracle) in
  let! liquidation := st_lift
    (if i_ltb (ltv health_before) (unhealthy_ltv (ltv_config (config self)))
     then Ok (mkLiquidationWithBonus 0 0 0)
     else
       res_map snd (compute_liquidation_result_with_fee_for_collateral self position swept
                      collateral_oracle supply_oracle max_repay_atoms)) in
  let! total := st_lift (total_collateral_atoms_to_liquidate liquidation) in
  let! returned := st_lift (safe_sub swept total) in
  st_guard (max_collateral_atoms_to_return <? returned) CapitalSweepDidNotMeetRequirements ;;;
  let! (atoms_repaid, shares_repaid) := on_vault
    (repay_atoms_capped (Liquidation.repay_atoms liquidation) (borrowed_shares position)) in
  let liquidation := bonus_adjust_for_max_repay liquidation atoms_repaid in
  let! total := st_lift (total_collateral_atoms_to_liquidate liquidation) in
  let! adjusted_returned := st_lift (safe_sub swept total) in
  st_guard (max_collateral_atoms_to_return <? adjusted_returned)
    CapitalSweepDidNotMeetRequirements ;;;
  on_position (BorrowPosition.settle_capital_sweep shares_repaid adjusted_returned) ;;;
  on_collateral (CollateralVault.deposit_collateral adjusted_returned) ;;;
  let! (self, position) := st_get in
  let! health_after := st_lift
    (borrow_position_health self position collateral_oracle supply_oracle) in
  st_guard (i_ltb (ltv health_before) (ltv health_after))
    InvalidLiquidationLtvShouldDecrease ;;;
  st_ret (mkSettlement liquidation health_before health_after adjusted_returned).

(** ** Bad debt *)

Definition socialize_loss (collateral_oracle supply_oracle : OracleRate)
  : ST (Market * BorrowPosition) (Z * Z) :=
  ensure_unswept ;;;
  let! (self, position) := st_get in
  let! health := st_lift
    (borrow_position_health self position collateral_oracle supply_oracle) in
  st_guard (i_ltb (ltv health) i_one) CannotSocializeDebtForHealthyPosition ;;;
  let! debt := on_vault (SupplyVault.socialize_loss (borrowed_shares position)) in
  let collateral_to_withdraw := collateral_deposited_atoms position in
  on_position BorrowPosition.repay_all ;;;
  on_position (BorrowPosition.withdraw_collateral collateral_to_withdraw) ;;;
  on_collateral (CollateralVault.withdraw_collateral collateral_to_withdraw) ;;;
  st_ret (debt, collateral_to_withdraw).

End Ops.
