(* ===== verification/MarketWrapper.v ===== *)
(** * Markets with their oracles

    [autara-lib/src/state/market_wrapper.rs]: a market together with the two rates loaded
    for it.  Operations that need prices take them from the wrapper. *)
From S2P Require Import Prelude.
From S2P Require Import Errors.
From S2P Require Import Monad.
From S2P Require Import FixedPoint.
From S2P Require Import Pda.
From S2P Require Import OracleRate.
From S2P Require Import Oracle.
From S2P Require Import SupplyPosition.
From S2P Require Import BorrowPosition.
From S2P Require Import CollateralVault.
From S2P Require Import SupplyVault.
From S2P Require Import Liquidation.
From S2P Require Import Market.

Record MarketWrapper : Type := mkWrapper {
  market : Market;
  supply_oracle : OracleRate;
  collateral_oracle : OracleRate }.

Definition set_market (m : Market) (w : MarketWrapper) : MarketWrapper :=
  mkWrapper m (supply_oracle w) (collateral_oracle w).

Definition market_lens : Lens MarketWrapper Market := {| lget := market; lset := set_market |}.

(** The market of a wrapper borrowed together with a position. *)
Definition with_position {P A} (f : MarketWrapper -> ST (Market * P) A)
  : ST (MarketWrapper * P) A :=
  fun s => let '(w, p) := s in
           let '(r, (m', p')) := f w (market w, p) in (r, (set_market m' w, p')).

Record SingleMarketTransactionEvent : Type := mkSingleEvent {
  se_market : Pubkey; se_user : Pubkey; se_position : Pubkey; se_mint : Pubkey;
  se_amount : Z; se_supply_vault_summary : SupplyVaultSummary;
  se_collateral_vault_atoms : Z; se_supply_oracle_rate : OracleRate;
  se_collateral_oracle_rate : OracleRate }.

Record DoubleMarketTransactionEvent : Type := mkDoubleEvent {
  de_market : Pubkey; de_user : Pubkey; de_position : Pubkey;
  de_mint_in : Pubkey; de_amount_in : Z; de_mint_out : Pubkey; de_amount_out : Z;
  de_supply_vault_summary : SupplyVaultSummary;
  de_collateral_vault_atoms : Z; de_supply_oracle_rate : OracleRate;
  de_collateral_oracle_rate : OracleRate }.

Section Ops.
Context {FX : FixedCrate} {PC : PdaCrate} {BC : OracleBuild}.

Definition try_new (m : Market) (supply_view collateral_view : AccountView)
  (unix_timestamp : Z) : Res MarketWrapper :=
  let? s := load_and_validate_oracle_rate
              (SupplyVault.oracle_config (supply_vault m)) supply_view unix_timestamp in
  let? c := load_and_validate_oracle_rate
              (CollateralVault.oracle_config (collateral_vault m)) collateral_view
              unix_timestamp in
  Ok (mkWrapper m s c).

Definition new_unchecked (m : Market) (supply_view collateral_view : AccountView)
  : Res MarketWrapper :=
  let? s := load_oracle_rate_unchecked
              (SupplyVault.oracle_config (supply_vault m)) supply_view in
  let? c := load_oracle_rate_unchecked
              (CollateralVault.oracle_config (collateral_vault m)) collateral_view in
  Ok (mkWrapper m s c).

Definition try_new_or_unchecked (m : Market) (supply_view collateral_view : AccountView)
  (unix_timestamp : Z) : Res (MarketWrapper * bool) :=
  let supply_config := SupplyVault.oracle_config (supply_vault m) in
  let collateral_config := CollateralVault.oracle_config (collateral_vault m) in
  let? su := load_oracle_price (config_provider supply_config) supply_view in
  let? cu := load_oracle_price (config_provider collateral_config) collateral_view in
  let sv := Oracle.validate su (validation_config supply_config) unix_timestamp in
  let cv := Oracle.validate cu (validation_config collateral_config) unix_timestamp in
  let is_stale := negb (is_ok sv) || negb (is_ok cv) in
  let s := match sv with Ok r => r | _ => unsafe_rate su end in
  let c := match cv with Ok r => r | _ => unsafe_rate cu end in
  Ok (mkWrapper m s c, is_stale).

Definition borrow_position_health (self : MarketWrapper) (p : BorrowPosition)
  : Res BorrowPositionHealth :=
  Market.borrow_position_health (market self) p (collateral_oracle self) (supply_oracle self).

Definition compute_liquidation_result_with_fee (self : MarketWrapper) (p : BorrowPosition)
  (max_repay_atoms : Z) : Res (BorrowPositionHealth * LiquidationResultWithBonus) :=
  Market.compute_liquidation_result_with_fee (market self) p (collateral_oracle self)
    (supply_oracle self) max_repay_atoms.

Definition get_single_market_transaction_event (self : MarketWrapper)
  (m user position mint : Pubkey) (atoms : Z) : Res SingleMarketTransactionEvent :=
  let? s := get_summary (supply_vault (market self)) in
  Ok (mkSingleEvent m user position mint atoms s
        (total_collateral_atoms (collateral_vault (market self)))
        (supply_oracle self) (collateral_oracle self)).

Definition get_double_market_transaction_event (self : MarketWrapper)
  (m user position mint_in : Pubkey) (amount_in : Z) (mint_out : Pubkey) (amount_out : Z)
  : Res DoubleMarketTransactionEvent :=
  let? s := get_summary (supply_vault (market self)) in
  Ok (mkDoubleEvent m user position mint_in amount_in mint_out amount_out s
        (total_collateral_atoms (collateral_vault (market self)))
        (supply_oracle self) (collateral_oracle self)).

Definition sync_clock (unix_timestamp : Z) : ST MarketWrapper () :=
  zoom market_lens (Market.sync_clock unix_timestamp).

Definition lend (atoms : Z) : ST (MarketWrapper * SupplyPosition) () :=
  with_position (fun _ => Market.lend atoms).

Definition withdraw (atoms : Z) : ST (MarketWrapper * SupplyPosition) () :=
  with_position (fun _ => Market.withdraw atoms).

Definition withdraw_all : ST (MarketWrapper * SupplyPosition) Z :=
  with_position (fun _ => Market.withdraw_all).

Definition deposit_collateral (atoms : Z) : ST (MarketWrapper * BorrowPosition) () :=
  with_position (fun _ => Market.deposit_collateral atoms).

Definition withdraw_collateral (atoms : Z) : ST (MarketWrapper * BorrowPosition) () :=
  with_position (fun w =>
    Market.withdraw_collateral atoms (collateral_oracle w) (supply_oracle w)).

Definition borrow (borrow_atoms : Z) : ST (MarketWrapper * BorrowPosition) () :=
  with_position (fun w =>
    Market.borrow borrow_atoms (supply_oracle w) (collateral_oracle w)).

Definition repay (atoms : Z) : ST (MarketWrapper * BorrowPosition) () :=
  with_position (fun _ => Market.repay atoms).

Definition repay_all : ST (MarketWrapper * BorrowPosition) Z :=
  with_position (fun _ => Market.repay_all).

Definition liquidate (max_repay_atoms : Z)
  : ST (MarketWrapper * BorrowPosition) LiquidationResultWithCtx :=
  with_position (fun w =>
    Market.liquidate (collateral_oracle w) (supply_oracle w) max_repay_atoms).

Definition begin_capital_sweep : ST (MarketWrapper * BorrowPosition) BorrowPositionHealth :=
  with_position (fun w =>
    Market.begin_capital_sweep (collateral_oracle w) (supply_oracle w)).

Definition settle_capital_sweep (max_repay_atoms max_collateral_atoms_to_return : Z)
  : ST (MarketWrapper * BorrowPosition) CapitalSweepSettlementResult :=
  with_position (fun w =>
    Market.settle_capital_sweep (collateral_oracle w) (supply_oracle w) max_repay_atoms
      max_collateral_atoms_to_return).

Definition socialize_loss : ST (MarketWrapper * BorrowPosition) (Z * Z) :=
  with_position (fun w => Market.socialize_loss (collateral_oracle w) (supply_oracle w)).

End Ops.
