(* ===== verification/PositionFacts.v ===== *)
(** * Facts about positions

    What a successful operation does to the fields of a position. *)
From S2P Require Import Prelude.
From S2P Require Import Errors.
From S2P Require Import Monad.
From S2P Require Import FixedPoint.
From S2P Require Import FixedFacts.
From S2P Require Import Pda.
From S2P Require Import SupplyPosition.
From S2P Require Import BorrowPosition.
From S2P Require Import SharesTracker.
From S2P Require Import OracleRate.
From S2P Require Import Oracle.
From S2P Require Import MarketConfig.
From S2P Require Import CollateralVault.
From S2P Require Import SupplyVault.
From S2P Require Import Liquidation.
From S2P Require Import Market.

Definition supply_position_ok (p : SupplyPosition) : Prop :=
  is_u64 (deposited_atoms p) /\ u_ok (shares p).

Definition borrow_position_ok (p : BorrowPosition) : Prop :=
  is_u64 (collateral_deposited_atoms p) /\ is_u64 (initial_borrowed_atoms p) /\
  u_ok (borrowed_shares p) /\ is_u64 (swept_collateral_atoms p).

Section Facts.
Context {FX : FixedCrate} {FXL : FixedLaws FX}.

(** The part of a principal that goes with a part of the shares. *)
Lemma proportional_ok (s total : UFixedPoint) principal n :
  u_ok s -> u_ok total -> is_u64 principal -> u_bits s < u_bits total ->
  (let? q := safe_div s total in
   let? m := safe_mul q principal in u_as_u64_rounded_down m) = Ok n ->
  n = u_bits s * 2 ^ 64 / u_bits total * principal / 2 ^ 64 /\ 0 <= n <= principal.
Proof.
  intros Hs Ht Hp Hlt H. run_inv. apply u_div_ok in H as (Hnz & -> & _); [| widths_lia..].
  apply u_mul_u64_ok in H0 as [-> Hm]. cbn [u_bits] in *.
  unfold u_as_u64_rounded_down, fmt_as_u64_rounded_down in H1. run_inv.
  rewrite fx_to_int_spec in H1. apply check_range_Some in H1 as [-> Hr].
  cbn [u_bits fmt_frac U64F64] in *. split; [done |]. split; [lia |].
  assert (0 <= u_bits s * 2 ^ 64 / u_bits total <= 2 ^ 64)
    by (split; [apply div_nonneg; widths_lia | apply div_le_upper; widths_lia]).
  set (q := u_bits s * 2 ^ 64 / u_bits total) in *.
  assert (q * principal <= 2 ^ 64 * principal) by (apply Z.mul_le_mono_nonneg_r; widths_lia).
  apply div_le_upper; lia.
Qed.

(** ** Lenders *)

Lemma supply_lend_ok atoms s p p' :
  SupplyPosition.lend atoms s p = (Ok tt, p') ->
  p' = mkSupplyPosition (SupplyPosition.authority p) (SupplyPosition.market p)
         (deposited_atoms p + atoms) (UFP (u_bits (shares p) + u_bits s)) /\
  supply_position_ok p'.
Proof.
  intros H. unfold SupplyPosition.lend in H. run_inv.
  fixed_inv.
  repeat split; cbn; fx_lia.
Qed.

Lemma supply_withdraw_ok s p p' :
  supply_position_ok p -> u_ok s ->
  SupplyPosition.withdraw s p = (Ok tt, p') ->
  u_bits s <= u_bits (shares p) /\
  shares p' = UFP (u_bits (shares p) - u_bits s) /\
  0 <= deposited_atoms p' <= deposited_atoms p /\
  SupplyPosition.authority p' = SupplyPosition.authority p /\
  SupplyPosition.market p' = SupplyPosition.market p /\ supply_position_ok p'.
Proof.
  intros [Hd Hsh] Hs H. unfold SupplyPosition.withdraw in H. run_inv.
  match goal with H : match Z.compare _ _ with Eq => _ | Lt => _ | Gt => _ end = Ok ?n |- _ =>
    assert (Hx : 0 <= n <= deposited_atoms p);
      [destruct (Z.compare_spec (u_bits s) (u_bits (shares p)));
       [run_inv; widths_lia | by apply proportional_ok in H as [_ H] | done] | clear H] end.
  fixed_inv. cbn. repeat split; cbn; fx_lia.
Qed.

(** ** Borrowers *)

Lemma borrow_borrow_ok atoms s p p' :
  borrow_position_ok p -> BorrowPosition.borrow atoms s p = (Ok tt, p') ->
  p' = set_borrowed_shares (UFP (u_bits (borrowed_shares p) + u_bits s))
         (set_initial_borrowed (initial_borrowed_atoms p + atoms) p) /\
  borrow_position_ok p'.
Proof.
  intros (Hc & Hi & Hb & Hw) H. unfold BorrowPosition.borrow in H. run_inv.
  fixed_inv.
  split; [done |]. repeat split; cbn; fx_lia.
Qed.

Lemma borrow_repay_ok s p p' :
  borrow_position_ok p -> u_ok s -> BorrowPosition.repay s p = (Ok tt, p') ->
  u_bits s <= u_bits (borrowed_shares p) /\
  u_bits (borrowed_shares p') = u_bits (borrowed_shares p) - u_bits s /\
  0 <= initial_borrowed_atoms p' <= initial_borrowed_atoms p /\
  collateral_deposited_atoms p' = collateral_deposited_atoms p /\
  swept_collateral_atoms p' = swept_collateral_atoms p /\
  BorrowPosition.authority p' = BorrowPosition.authority p /\
  BorrowPosition.market p' = BorrowPosition.market p /\ borrow_position_ok p'.
Proof.
  intros (Hc & Hi & Hb & Hw) Hs H. unfold BorrowPosition.repay in H. run_inv.
  destruct (Z.compare_spec (u_bits s) (u_bits (borrowed_shares p))) as [He | Hlt | Hgt].
  - unfold BorrowPosition.repay_all in H0. run_inv. cbn. repeat split; cbn; fx_lia.
  - apply st_bind_ok in H0 as (n & q & Hn & H0). apply st_lift_ok in Hn as [Hn <-].
    apply proportional_ok in Hn as [_ Hn]; [| done..]. run_inv.
    fixed_inv.
    cbn. repeat split; cbn; fx_lia.
  - run_inv.
Qed.

Lemma borrow_deposit_ok atoms p p' :
  borrow_position_ok p -> BorrowPosition.deposit_collateral atoms p = (Ok tt, p') ->
  p' = set_collateral (collateral_deposited_atoms p + atoms) p /\ borrow_position_ok p'.
Proof.
  intros (Hc & Hi & Hb & Hw) H. unfold BorrowPosition.deposit_collateral in H. run_inv.
  fixed_inv. repeat split; cbn; fx_lia.
Qed.

Lemma borrow_withdraw_ok atoms p p' :
  borrow_position_ok p -> BorrowPosition.withdraw_collateral atoms p = (Ok tt, p') ->
  p' = set_collateral (collateral_deposited_atoms p - atoms) p /\
  0 <= collateral_deposited_atoms p - atoms /\ borrow_position_ok p'.
Proof.
  intros (Hc & Hi & Hb & Hw) H. unfold BorrowPosition.withdraw_collateral in H. run_inv.
  fixed_inv. repeat split; cbn; fx_lia.
Qed.

Lemma borrow_liquidate_ok s c p p' :
  borrow_position_ok p -> u_ok s -> BorrowPosition.liquidate s c p = (Ok tt, p') ->
  u_bits s <= u_bits (borrowed_shares p) /\
  u_bits (borrowed_shares p') = u_bits (borrowed_shares p) - u_bits s /\
  collateral_deposited_atoms p' = collateral_deposited_atoms p - c /\
  0 <= collateral_deposited_atoms p - c /\
  swept_collateral_atoms p' = swept_collateral_atoms p /\
  BorrowPosition.authority p' = BorrowPosition.authority p /\
  BorrowPosition.market p' = BorrowPosition.market p /\ borrow_position_ok p'.
Proof.
  intros Hp Hs H. unfold BorrowPosition.liquidate in H. run_inv.
  apply borrow_repay_ok in H as (Hle & Hb & Hi & Hc & Hw & Ha & Hm & Hok); [| done..].
  fixed_inv. rewrite Hc in *. destruct Hok as (? & ? & ? & ?).
  repeat split; cbn; try congruence; fx_lia.
Qed.

Lemma borrow_begin_sweep_ok p n p' :
  borrow_position_ok p -> BorrowPosition.begin_capital_sweep p = (Ok n, p') ->
  swept_collateral_atoms p = 0 /\ n = collateral_deposited_atoms p /\
  p' = set_swept (collateral_deposited_atoms p) (set_collateral 0 p) /\
  borrow_position_ok p'.
Proof.
  intros (Hc & Hi & Hb & Hw) H. unfold BorrowPosition.begin_capital_sweep in H. 
  unfold ensure_capital_sweep_inactive, capital_sweep_pending in H. run_inv.
  destruct (_ =? 0) eqn:E in *; [| done]. bool_prop. repeat split; cbn; fx_lia.
Qed.

Lemma borrow_settle_ok s c p p' :
  borrow_position_ok p -> u_ok s -> is_u64 c ->
  BorrowPosition.settle_capital_sweep s c p = (Ok tt, p') ->
  swept_collateral_atoms p <> 0 /\
  u_bits s <= u_bits (borrowed_shares p) /\
  u_bits (borrowed_shares p') = u_bits (borrowed_shares p) - u_bits s /\
  collateral_deposited_atoms p' = c /\ swept_collateral_atoms p' = 0 /\
  BorrowPosition.authority p' = BorrowPosition.authority p /\
  BorrowPosition.market p' = BorrowPosition.market p /\ borrow_position_ok p'.
Proof.
  intros Hp Hs Hc H. unfold BorrowPosition.settle_capital_sweep, capital_sweep_pending in H.
  run_inv. bool_prop.
  match goal with H : BorrowPosition.repay _ _ = _ |- _ =>
    apply borrow_repay_ok in H as (Hle & Hb & Hi & Hcol & Hw & Ha & Hm & Hok) end; [| done..].
  destruct Hok as (? & ? & ? & ?). repeat split; cbn; try done; fx_lia.
Qed.

End Facts.

(** * Facts about the operations of a market

    Every operation moves shares and collateral between the totals of the market and one
    position, and nowhere else: [supply_effect] and [borrow_effect] state this for
    operations on a lender's and on a borrower's position, [market_effect] for operations
    on the market alone. *)

Definition collateral_total (m : Market) : Z := total_collateral_atoms (collateral_vault m).

Definition market_ok (m : Market) : Prop :=
  vault_ok (supply_vault m) /\ is_u64 (collateral_total m) /\
  0 <= MarketConfig.protocol_fee_share_in_bps (config m).

(** The parts of a market that no user operation touches. *)
Definition same_market (m m' : Market) : Prop :=
  config m' = config m /\ same_identity (supply_vault m) (supply_vault m') /\
  CollateralVault.mint (collateral_vault m') = CollateralVault.mint (collateral_vault m) /\
  CollateralVault.mint_decimals_ (collateral_vault m')
    = CollateralVault.mint_decimals_ (collateral_vault m) /\
  CollateralVault.vault (collateral_vault m') = CollateralVault.vault (collateral_vault m) /\
  CollateralVault.oracle_config (collateral_vault m')
    = CollateralVault.oracle_config (collateral_vault m).

(** While collateral is swept out of a position, the position holds none. *)
Definition borrower_ok (p : BorrowPosition) : Prop :=
  borrow_position_ok p /\
  (swept_collateral_atoms p = 0 \/ collateral_deposited_atoms p = 0).

Record supply_effect (m : Market) (p : SupplyPosition) (m' : Market) (p' : SupplyPosition)
  : Prop := {
  se_ok : market_ok m';
  se_pos : supply_position_ok p';
  se_same : same_market m m';
  se_owner : SupplyPosition.authority p' = SupplyPosition.authority p /\
             SupplyPosition.market p' = SupplyPosition.market p;
  se_shares : free_shares (supply_vault m') - u_bits (shares p')
              = free_shares (supply_vault m) - u_bits (shares p);
  se_borrow : borrow_total (supply_vault m') = borrow_total (supply_vault m);
  se_collateral : collateral_total m' = collateral_total m }.

Record borrow_effect (m : Market) (p : BorrowPosition) (m' : Market) (p' : BorrowPosition)
  : Prop := {
  be_ok : market_ok m';
  be_pos : borrower_ok p';
  be_same : same_market m m';
  be_owner : BorrowPosition.authority p' = BorrowPosition.authority p /\
             BorrowPosition.market p' = BorrowPosition.market p;
  be_shares : free_shares (supply_vault m') = free_shares (supply_vault m);
  be_borrow : borrow_total (supply_vault m') - u_bits (borrowed_shares p')
              = borrow_total (supply_vault m) - u_bits (borrowed_shares p);
  be_collateral : collateral_total m' - collateral_deposited_atoms p'
                  = collateral_total m - collateral_deposited_atoms p }.

Record market_effect (m m' : Market) : Prop := {
  me_ok : market_ok m';
  me_shares : free_shares (supply_vault m') = free_shares (supply_vault m);
  me_borrow : borrow_total (supply_vault m') = borrow_total (supply_vault m);
  me_collateral : collateral_total m' = collateral_total m }.

Lemma same_market_vault m v' :
  same_identity (supply_vault m) v' -> same_market m (set_supply_vault v' m).
Proof. intros H. by repeat split; try apply H. Qed.

Lemma same_market_both m c v' :
  same_identity (supply_vault m) v' ->
  same_market m (mkMarket (config m) (set_total_collateral c (collateral_vault m)) v').
Proof. intros H. by repeat split; try apply H. Qed.

Lemma supply_effect_intro m p v' p' :
  market_ok m -> vault_ok v' -> same_identity (supply_vault m) v' ->
  supply_position_ok p' -> SupplyPosition.authority p' = SupplyPosition.authority p ->
  SupplyPosition.market p' = SupplyPosition.market p ->
  free_shares v' - u_bits (shares p')
    = free_shares (supply_vault m) - u_bits (shares p) ->
  borrow_shares_tracker v' = borrow_shares_tracker (supply_vault m) ->
  supply_effect m p (set_supply_vault v' m) p'.
Proof.
  intros (Hv & Hc & Hf) Hv' Hid Hp Ha Hm Hs Hb.
  split; [done | done | by apply same_market_vault | done | done | | done].
  unfold borrow_total. cbn. by rewrite Hb.
Qed.

(** A borrower's operation on the vault only. *)
Lemma borrow_effect_vault m p v' p' :
  market_ok m -> vault_ok v' -> same_identity (supply_vault m) v' ->
  borrower_ok p' -> BorrowPosition.authority p' = BorrowPosition.authority p ->
  BorrowPosition.market p' = BorrowPosition.market p ->
  free_shares v' = free_shares (supply_vault m) ->
  borrow_total v' - u_bits (borrowed_shares p')
    = borrow_total (supply_vault m) - u_bits (borrowed_shares p) ->
  collateral_deposited_atoms p' = collateral_deposited_atoms p ->
  borrow_effect m p (set_supply_vault v' m) p'.
Proof.
  intros (Hv & Hc & Hf) Hv' Hid Hp Ha Hm Hs Hb Hcol.
  split; [done | done | by apply same_market_vault | done | done | done |].
  rewrite Hcol. done.
Qed.

(** A borrower's operation on the vault and on the collateral. *)
Lemma borrow_effect_both m p v' c p' :
  market_ok m -> vault_ok v' -> same_identity (supply_vault m) v' -> is_u64 c ->
  borrower_ok p' -> BorrowPosition.authority p' = BorrowPosition.authority p ->
  BorrowPosition.market p' = BorrowPosition.market p ->
  free_shares v' = free_shares (supply_vault m) ->
  borrow_total v' - u_bits (borrowed_shares p')
    = borrow_total (supply_vault m) - u_bits (borrowed_shares p) ->
  c - collateral_deposited_atoms p'
    = collateral_total m - collateral_deposited_atoms p ->
  borrow_effect m p
    (mkMarket (config m) (set_total_collateral c (collateral_vault m)) v') p'.
Proof.
  intros (Hv & Hc & Hf) Hv' Hid Hu Hp Ha Hm Hs Hb Hcol.
  by split; [| | apply same_market_both | | | |].
Qed.

(** Steps on the components of a market borrowed with a position. *)
Lemma on_vault_ok {P A} (f : ST SupplyVault A) (m : Market) (p : P) a s' :
  on_vault f (m, p) = (Ok a, s') ->
  exists v', f (supply_vault m) = (Ok a, v') /\ s' = (set_supply_vault v' m, p).
Proof. intros H. apply zoom_ok in H as (v' & H & ->). by exists v'. Qed.

Lemma on_collateral_ok {P A} (f : ST CollateralVault A) (m : Market) (p : P) a s' :
  on_collateral f (m, p) = (Ok a, s') ->
  exists v', f (collateral_vault m) = (Ok a, v') /\ s' = (set_collateral_vault v' m, p).
Proof. intros H. apply zoom_ok in H as (v' & H & ->). by exists v'. Qed.

Lemma on_position_ok {P A} (f : ST P A) (m : Market) (p : P) a s' :
  on_position f (m, p) = (Ok a, s') ->
  exists p', f p = (Ok a, p') /\ s' = (m, p').
Proof. intros H. apply zoom_ok in H as (p' & H & ->). by exists p'. Qed.

Lemma ensure_unswept_ok m p s' :
  ensure_unswept (m, p) = (Ok tt, s') -> s' = (m, p) /\ swept_collateral_atoms p = 0.
Proof.
  intros H. unfold ensure_unswept in H. run_inv.
  unfold ensure_capital_sweep_inactive, capital_sweep_pending in *.
  destruct (_ =? 0) eqn:E in *; [| done]. by bool_prop.
Qed.

(** Decomposes a run of an operation on a market and a position. *)
Ltac market_step :=
  match goal with
  | H : on_vault _ (_, _) = (Ok _, _) |- _ =>
      let v := fresh "v" in let E := fresh "Heq" in
      apply on_vault_ok in H as (v & H & E); subst_eq E
  | H : on_collateral _ (_, _) = (Ok _, _) |- _ =>
      let v := fresh "c" in let E := fresh "Heq" in
      apply on_collateral_ok in H as (v & H & E); subst_eq E
  | H : on_position _ (_, _) = (Ok _, _) |- _ =>
      let v := fresh "q" in let E := fresh "Heq" in
      apply on_position_ok in H as (v & H & E); subst_eq E
  | H : ensure_unswept (_, _) = (Ok _, _) |- _ =>
      let H2 := fresh "Hsw" in let E := fresh "Heq" in
      apply ensure_unswept_ok in H as [E H2]; subst_eq E
  | H : (let '(_, _) := ?x in _) _ = (Ok _, _) |- _ => is_var x; destruct x
  end.
(** The side conditions of the rules for the effects. *)
Ltac effect_side :=
  try solve [ done | apply_ok | split; [done | left; cbn; congruence]
            | unfold collateral_total in *; cbn in *; lia ]
with apply_ok := match goal with H : market_ok _ |- _ => apply H end.

Ltac market_inv := repeat (run_inv_step || market_step).

Section Facts.
Context {FX : FixedCrate} {FXL : FixedLaws FX}.

Lemma deposit_collateral_vault_ok atoms v v' :
  CollateralVault.deposit_collateral atoms v = (Ok tt, v') ->
  v' = set_total_collateral (total_collateral_atoms v + atoms) v /\
  is_u64 (total_collateral_atoms v + atoms).
Proof.
  intros H. unfold CollateralVault.deposit_collateral in H. fixed_inv. done.
Qed.

Lemma withdraw_collateral_vault_ok atoms v v' :
  CollateralVault.withdraw_collateral atoms v = (Ok tt, v') ->
  v' = set_total_collateral (total_collateral_atoms v - atoms) v /\
  is_u64 (total_collateral_atoms v - atoms).
Proof.
  intros H. unfold CollateralVault.withdraw_collateral in H. fixed_inv. done.
Qed.

(** ** The market alone *)

Lemma lift_vault_effect m v' :
  market_ok m -> vault_ok v' ->
  free_shares v' = free_shares (supply_vault m) ->
  borrow_total v' = borrow_total (supply_vault m) ->
  market_effect m (set_supply_vault v' m).
Proof. intros (Hv & Hc & Hp) Hv' Hf Hb. by split. Qed.

Lemma sync_clock_effect ts m m' :
  market_ok m -> Market.sync_clock ts m = (Ok tt, m') ->
  market_effect m m' /\ same_market m m'.
Proof.
  intros Hm H. unfold Market.sync_clock in H. run_inv. cbn [lget lset vault_lens] in *.
  match goal with H : SupplyVault.sync_clock _ _ _ _ = _ |- _ =>
    apply sync_clock_ok in H as (Hv & Hid & Hf & Hb & _); [| apply Hm..] end.
  split; [by apply lift_vault_effect | by apply same_market_vault].
Qed.

Lemma redeem_protocol_fees_effect m n m' :
  market_ok m -> Market.redeem_protocol_fees m = (Ok n, m') ->
  market_effect m m' /\ same_market m m' /\ check_reserves (supply_vault m') = Ok tt.
Proof.
  intros Hm H. unfold Market.redeem_protocol_fees in H. run_inv.
  cbn [lget lset vault_lens] in *.
  match goal with H : SupplyVault.redeem_protocol_fees _ = _ |- _ =>
    apply redeem_protocol_fees_ok in H as (Hv & Hid & Hf & Hb & _); [| apply Hm] end.
  split; [| split; [by apply same_market_vault | done]].
  apply lift_vault_effect; [done.. |]. unfold borrow_total. by rewrite Hb.
Qed.

Lemma redeem_curator_fees_effect m n m' :
  market_ok m -> redeem_curator_fess m = (Ok n, m') ->
  market_effect m m' /\ same_market m m' /\ check_reserves (supply_vault m') = Ok tt.
Proof.
  intros Hm H. unfold redeem_curator_fess in H. run_inv.
  cbn [lget lset vault_lens] in *.
  match goal with H : SupplyVault.redeem_curator_fees _ = _ |- _ =>
    apply redeem_curator_fees_ok in H as (Hv & Hid & Hf & Hb & _); [| apply Hm] end.
  split; [| split; [by apply same_market_vault | done]].
  apply lift_vault_effect; [done.. |]. unfold borrow_total. by rewrite Hb.
Qed.

Lemma donate_effect atoms m m' :
  market_ok m -> 0 <= atoms -> donate_supply_atoms atoms m = (Ok tt, m') ->
  market_effect m m' /\ same_market m m'.
Proof.
  intros Hm Ha H. unfold donate_supply_atoms in H. run_inv. cbn [lget lset vault_lens] in *.
  match goal with H : donate_supply _ _ = _ |- _ =>
    apply donate_supply_ok in H as (Hv & Hid & Hf & Hb); [| apply Hm | done] end.
  split; [| by apply same_market_vault].
  apply lift_vault_effect; [done.. |]. unfold borrow_total. by rewrite Hb.
Qed.

(** ** Lenders *)

Lemma lend_effect atoms m p m' p' :
  market_ok m -> supply_position_ok p -> 0 <= atoms ->
  Market.lend atoms (m, p) = (Ok tt, (m', p')) ->
  supply_effect m p m' p' /\
  exists total, total_supply (supply_vault m') = Ok total /\
                total <= max_supply_atoms (config m').
Proof.
  intros Hm Hp Ha H. unfold Market.lend in H. market_inv.
  match goal with H : SupplyVault.lend _ _ = _ |- _ =>
    apply vault_lend_ok in H as (Hv & Hid & Hf & Hb & Hs); [| apply Hm | done] end.
  match goal with H : SupplyPosition.lend _ _ _ = _ |- _ =>
    apply supply_lend_ok in H as (-> & Hq) end.
  bool_prop. split; [| eexists; split; [eassumption | done]].
  apply supply_effect_intro; try done. cbn. lia.
Qed.

Lemma withdraw_effect atoms m p m' p' :
  market_ok m -> supply_position_ok p -> 0 <= atoms ->
  Market.withdraw atoms (m, p) = (Ok tt, (m', p')) ->
  supply_effect m p m' p' /\ check_reserves (supply_vault m') = Ok tt.
Proof.
  intros Hm Hp Ha H. unfold Market.withdraw in H. market_inv.
  match goal with H : SupplyVault.withdraw_atoms _ _ = _ |- _ =>
    apply vault_withdraw_atoms_ok in H as (Hv & Hid & Hf & Hb & Hs); [| apply Hm | done] end.
  match goal with H : SupplyPosition.withdraw _ _ = _ |- _ =>
    apply supply_withdraw_ok in H as (Hle & Hsh & Hd & Hau & Hmk & Hq); [| done..] end.
  split; [| done]. apply supply_effect_intro; try done. rewrite Hsh. cbn. lia.
Qed.

Lemma withdraw_all_effect m p n m' p' :
  market_ok m -> supply_position_ok p ->
  Market.withdraw_all (m, p) = (Ok n, (m', p')) ->
  supply_effect m p m' p' /\ check_reserves (supply_vault m') = Ok tt /\
  shares p' = u_zero /\ deposited_atoms p' = 0.
Proof.
  intros Hm Hp H. unfold Market.withdraw_all in H. market_inv.
  match goal with H : SupplyVault.withdraw_shares _ _ = _ |- _ =>
    apply vault_withdraw_shares_ok in H as (Hv & Hid & Hf & Hb); [| apply Hm | apply Hp] end.
  unfold SupplyPosition.withdraw_all in *. run_inv.
  split; [| done]. apply supply_effect_intro; try done. cbn. lia.
Qed.

(** ** Borrowers *)

Lemma deposit_collateral_effect atoms m p m' p' :
  market_ok m -> borrower_ok p ->
  Market.deposit_collateral atoms (m, p) = (Ok tt, (m', p')) ->
  borrow_effect m p m' p'.
Proof.
  intros Hm [Hp Hx] H. unfold Market.deposit_collateral in H. market_inv.
  match goal with H : BorrowPosition.deposit_collateral _ _ = _ |- _ =>
    apply borrow_deposit_ok in H as (-> & Hq); [| done] end.
  match goal with H : CollateralVault.deposit_collateral _ _ = _ |- _ =>
    apply deposit_collateral_vault_ok in H as (-> & Hu) end.
  apply borrow_effect_both; effect_side.
Qed.

Lemma withdraw_collateral_effect atoms co so m p m' p' :
  market_ok m -> borrower_ok p ->
  Market.withdraw_collateral atoms co so (m, p) = (Ok tt, (m', p')) ->
  borrow_effect m p m' p' /\
  (exists h, borrow_position_health m' p' co so = Ok h /\
             i_bits (ltv h) <= i_bits (max_ltv (ltv_config (config m')))) /\
  (u_bits (borrowed_shares p') <> 0 -> 0 < collateral_deposited_atoms p').
Proof.
  intros Hm [Hp Hx] H. unfold Market.withdraw_collateral in H. market_inv.
  match goal with H : BorrowPosition.withdraw_collateral _ _ = _ |- _ =>
    apply borrow_withdraw_ok in H as (-> & Hc & Hq); [| done] end.
  match goal with H : CollateralVault.withdraw_collateral _ _ = _ |- _ =>
    apply withdraw_collateral_vault_ok in H as (-> & Hu) end.
  unfold position_checks_on_ltv_increase, i_ltb in *.
  match goal with H : (if ?b then _ else _) = Ok _ |- _ =>
    destruct b eqn:El in H; [done |] end.
  bool_prop. split; [apply borrow_effect_both; effect_side |].
  split; [eexists; split; [eassumption | done] |]. intros Hb.
  match goal with H : (_ && _) = false |- _ => apply andb_false_iff in H as [E | E] end;
    unfold u_is_zero in *; bool_prop; cbn in *; lia.
Qed.

(** The health that a check reads. *)
Lemma health_ok m p c co so h :
  market_ok m -> borrow_position_ok p ->
  borrow_position_health_with_collateral_atoms m p c co so = Ok h ->
  is_u64 (borrowed_atoms h) /\ BorrowPosition.collateral_atoms h = c.
Proof.
  intros Hm Hp H. unfold borrow_position_health_with_collateral_atoms in H. run_inv. cbn.
  match goal with H : borrow_shares_to_atoms _ _ = Ok _ |- _ =>
    apply shares_to_atoms_u64 in H; [done | apply Hm | apply Hp] end.
Qed.

Lemma borrow_op_effect atoms so co m p m' p' :
  market_ok m -> borrower_ok p -> 0 <= atoms ->
  Market.borrow atoms so co (m, p) = (Ok tt, (m', p')) ->
  borrow_effect m p m' p' /\
  (exists h, borrow_position_health m' p' co so = Ok h /\
             i_bits (ltv h) <= i_bits (max_ltv (ltv_config (config m')))) /\
  (exists u, SupplyVault.utilisation_rate (supply_vault m') = Ok u /\
             i_bits u <= i_bits (max_utilisation_rate (config m'))).
Proof.
  intros Hm [Hp Hx] Ha H. unfold Market.borrow in H. market_inv.
  match goal with H : SupplyVault.borrow _ _ = _ |- _ =>
    apply vault_borrow_ok in H as (Hv & Hid & Hf & Hb & Hs); [| apply Hm | done] end.
  match goal with H : BorrowPosition.borrow _ _ _ = _ |- _ =>
    apply borrow_borrow_ok in H as (-> & Hq); [| done] end.
  unfold position_checks_on_ltv_increase, i_ltb in *.
  match goal with H : (if ?b then _ else _) = Ok _ |- _ =>
    destruct b eqn:El in H; [done |] end.
  bool_prop. split; [| split; eexists; split; eassumption].
  apply borrow_effect_vault; effect_side.
Qed.

Lemma repay_effect atoms m p m' p' :
  market_ok m -> borrower_ok p -> 0 <= atoms ->
  Market.repay atoms (m, p) = (Ok tt, (m', p')) -> borrow_effect m p m' p'.
Proof.
  intros Hm [Hp Hx] Ha H. unfold Market.repay in H. market_inv.
  match goal with H : SupplyVault.repay_atoms _ _ = _ |- _ =>
    apply vault_repay_atoms_ok in H as (Hv & Hid & Hf & Hb & Hs); [| apply Hm | done] end.
  match goal with H : BorrowPosition.repay _ _ = _ |- _ =>
    apply borrow_repay_ok in H as (Hle & Hbs & Hi & Hc & Hw & Hau & Hmk & Hq); [| done..] end.
  apply borrow_effect_vault; effect_side.
Qed.

Lemma repay_all_effect m p n m' p' :
  market_ok m -> borrower_ok p ->
  Market.repay_all (m, p) = (Ok n, (m', p')) ->
  borrow_effect m p m' p' /\ borrowed_shares p' = u_zero.
Proof.
  intros Hm [Hp Hx] H. unfold Market.repay_all in H. market_inv.
  match goal with H : repay_shares _ _ = _ |- _ =>
    apply vault_repay_shares_ok in H as (Hv & Hid & Hf & Hb); [| apply Hm | apply Hp] end.
  unfold BorrowPosition.repay_all in *. run_inv. split; [| done].
  destruct Hp as (? & ? & ? & ?).
  apply borrow_effect_vault; effect_side.
Qed.

(** The liquidation that a market computes. *)
Lemma compute_result_ok m p c co so maxr h r :
  market_ok m -> borrow_position_ok p -> is_u64 c -> 0 <= maxr ->
  compute_liquidation_result_with_fee_for_collateral m p c co so maxr = Ok (h, r) ->
  borrow_position_health_with_collateral_atoms m p c co so = Ok h /\
  i_bits (unhealthy_ltv (ltv_config (config m))) <= i_bits (ltv h) /\
  liquidation_within (Z.min maxr (borrowed_atoms h)) c r.
Proof.
  intros Hm Hp Hc Hmax H. unfold compute_liquidation_result_with_fee_for_collateral in H.
  run_inv. unfold i_ltb, i_leb in *. destruct (_ <? _) eqn:El in H0; [done |]. run_inv.
  bool_prop.
  match goal with H : borrow_position_health_with_collateral_atoms _ _ _ _ _ = Ok _ |- _ =>
    destruct (health_ok _ _ _ _ _ _ Hm Hp H) as [Hb Hca] end.
  do 2 (split; [done |]).
  match goal with H : (if ?b then _ else _) = Ok _ |- _ => destruct b in H end; run_inv.
  - apply bonus_adjust_within; [done | widths_lia |]. rewrite Hca.
    unfold liquidation_within. cbn. widths_lia.
  - match goal with H : compute_liquidation_with_fee _ _ _ _ _ _ _ _ _ = Ok _ |- _ =>
      apply compute_liquidation_with_fee_within in H; [done | apply Hb | done | done] end.
Qed.

Lemma total_collateral_ok r n :
  total_collateral_atoms_to_liquidate r = Ok n -> n = liquidate_atoms r + bonus_atoms r.
Proof. intros H. unfold total_collateral_atoms_to_liquidate in H. fixed_inv. done. Qed.

Lemma liquidate_effect co so maxr m p r m' p' :
  market_ok m -> borrower_ok p -> 0 <= maxr ->
  Market.liquidate co so maxr (m, p) = (Ok r, (m', p')) ->
  borrow_effect m p m' p' /\
  let l := liquidation_result_with_bonus r in
  borrow_position_health m p co so = Ok (health_before_liquidation r) /\
  borrow_position_health m' p' co so = Ok (health_after_liquidation r) /\
  i_bits (unhealthy_ltv (ltv_config (config m)))
    <= i_bits (ltv (health_before_liquidation r)) /\
  i_bits (ltv (health_after_liquidation r)) <= i_bits (ltv (health_before_liquidation r)) /\
  liquidation_within (Z.min maxr (borrowed_atoms (health_before_liquidation r)))
    (collateral_deposited_atoms p) l /\
  collateral_deposited_atoms p'
    = collateral_deposited_atoms p - (liquidate_atoms l + bonus_atoms l).
Proof.
  intros Hm [Hp Hx] Hmax H. unfold Market.liquidate in H. market_inv.
  unfold compute_liquidation_result_with_fee in *. run_inv.
  match goal with H : compute_liquidation_result_with_fee_for_collateral _ _ _ _ _ _ = _ |- _ =>
    apply compute_result_ok in H as (Hh & Hun & Hw); [| done | done | apply Hp | done] end.
  match goal with H : repay_atoms_capped _ _ _ = _ |- _ =>
    apply vault_repay_capped_ok in H as (Hv & Hid & Hf & Hb & Hs & Hle & Hn);
      [| apply Hm | apply Hw | apply Hp] end.
  match goal with H : total_collateral_atoms_to_liquidate _ = Ok _ |- _ =>
    apply total_collateral_ok in H as -> end.
  match goal with H : BorrowPosition.liquidate _ _ _ = _ |- _ =>
    apply borrow_liquidate_ok in H as (Hsl & Hbs & Hc & Hc0 & Hsw' & Hau & Hmk & Hq);
      [| done..] end.
  match goal with H : CollateralVault.withdraw_collateral _ _ = _ |- _ =>
    apply withdraw_collateral_vault_ok in H as (-> & Hu) end.
  unfold i_ltb in *. bool_prop. cbn.
  split; [apply (borrow_effect_both m p v); effect_side |].
  do 4 (split; [done |]). split; [| done].
  eapply liquidation_within_mono; [| reflexivity | apply bonus_adjust_within; [| | exact Hw]];
    [lia | lia | destruct Hp; widths_lia].
Qed.

Lemma begin_sweep_effect co so m p h m' p' :
  market_ok m -> borrower_ok p ->
  Market.begin_capital_sweep co so (m, p) = (Ok h, (m', p')) ->
  borrow_effect m p m' p' /\ borrow_position_health m p co so = Ok h /\
  i_bits (unhealthy_ltv (ltv_config (config m))) <= i_bits (ltv h) < 2 ^ 48 /\
  swept_collateral_atoms p = 0 /\
  p' = set_swept (collateral_deposited_atoms p) (set_collateral 0 p).
Proof.
  intros Hm [Hp Hx] H. unfold Market.begin_capital_sweep in H. market_inv.
  match goal with H : BorrowPosition.begin_capital_sweep _ = _ |- _ =>
    apply borrow_begin_sweep_ok in H as (Hz & -> & -> & Hq); [| done] end.
  match goal with H : CollateralVault.withdraw_collateral _ _ = _ |- _ =>
    apply withdraw_collateral_vault_ok in H as (-> & Hu) end.
  unfold i_ltb, i_leb in *. bool_prop. cbn [i_one i_from_u64 i_bits] in *.
  split; [| repeat split; try done; lia].
  apply (borrow_effect_both m p (supply_vault m)); effect_side.
  split; [done | by right].
Qed.

Lemma settle_sweep_effect co so maxr maxc m p r m' p' :
  market_ok m -> borrower_ok p -> 0 <= maxr ->
  Market.settle_capital_sweep co so maxr maxc (m, p) = (Ok r, (m', p')) ->
  borrow_effect m p m' p' /\
  let l := settlement_liquidation r in
  let hb := health_before_settlement r in
  swept_collateral_atoms p <> 0 /\ swept_collateral_atoms p' = 0 /\
  borrow_position_health_with_collateral_atoms m p (swept_collateral_atoms p) co so = Ok hb /\
  borrow_position_health m' p' co so = Ok (health_after_settlement r) /\
  i_bits (ltv (health_after_settlement r)) <= i_bits (ltv hb) /\
  liquidation_within (Z.min maxr (borrowed_atoms hb)) (swept_collateral_atoms p) l /\
  collateral_atoms_returned r
    = swept_collateral_atoms p - (liquidate_atoms l + bonus_atoms l) /\
  collateral_atoms_returned r <= maxc /\
  collateral_deposited_atoms p' = collateral_atoms_returned r /\
  (i_bits (ltv hb) < i_bits (unhealthy_ltv (ltv_config (config m))) ->
   repay_atoms l = 0 /\ collateral_atoms_returned r = swept_collateral_atoms p).
Proof.
  intros Hm [Hp Hx] Hmax H. unfold Market.settle_capital_sweep in H. market_inv.
  match goal with H : borrow_position_health_with_collateral_atoms _ _ _ _ _ = Ok ?x |- _ =>
    rename H into Hhb, x into hb; destruct (health_ok _ _ _ _ _ _ Hm Hp Hhb) as [Hba _] end.
  match goal with H : (if ?b then _ else _) = Ok ?x |- _ =>
    rename x into l0;
    assert (Hw : liquidation_within (Z.min maxr (borrowed_atoms hb))
                   (swept_collateral_atoms p) l0);
    [ destruct b in H; run_inv;
      [ destruct Hp as (? & ? & ? & ?); unfold liquidation_within; cbn; widths_lia |] |] end.
  { match goal with H : compute_liquidation_result_with_fee_for_collateral _ _ _ _ _ _ = Ok ?x
      |- _ => destruct x; apply compute_result_ok in H as (Hh & Hun & Hw);
        [| done | done | apply Hp | done] end.
    cbn. rewrite Hhb in Hh. by run_inv. }
  match goal with H : repay_atoms_capped _ _ _ = _ |- _ =>
    apply vault_repay_capped_ok in H as (Hv & Hid & Hf & Hb & Hs & Hle & Hn);
      [| apply Hm | apply Hw | apply Hp] end.
  repeat match goal with H : total_collateral_atoms_to_liquidate _ = Ok _ |- _ =>
    apply total_collateral_ok in H as -> end.
  fixed_inv.
  match goal with H : BorrowPosition.settle_capital_sweep _ _ _ = _ |- _ =>
    apply borrow_settle_ok in H as (Hnz & Hsl & Hbs & Hc & Hsw' & Hau & Hmk & Hq);
      [| done | done | widths_lia] end.
  match goal with H : CollateralVault.deposit_collateral _ _ = _ |- _ =>
    apply deposit_collateral_vault_ok in H as (-> & Hu) end.
  match goal with H : i_ltb (ltv hb) (ltv _) = false |- _ => unfold i_ltb in H end.
  bool_prop. cbn.
  split; [apply (borrow_effect_both m p v); effect_side |].
  do 5 (split; [done |]).
  split; [eapply liquidation_within_mono, bonus_adjust_within, Hw; [lia | lia | done |];
          destruct Hp as (? & ? & ? & ?); widths_lia |].
  do 3 (split; [done |]). intros Hlt.
  match goal with H : (if i_ltb _ _ then _ else _) = Ok _ |- _ =>
    unfold i_ltb in H; rewrite (proj2 (Z.ltb_lt _ _) Hlt) in H; run_inv end.
  unfold bonus_adjust_for_max_repay. cbn. rewrite (proj2 (Z.ltb_ge _ _) Hn). cbn. lia.
Qed.

Lemma socialize_loss_effect co so m p n c m' p' :
  market_ok m -> borrower_ok p ->
  Market.socialize_loss co so (m, p) = (Ok (n, c), (m', p')) ->
  borrow_effect m p m' p' /\
  (exists h, borrow_position_health m p co so = Ok h /\ 2 ^ 48 <= i_bits (ltv h)) /\
  swept_collateral_atoms p = 0 /\ c = collateral_deposited_atoms p /\
  borrowed_shares p' = u_zero /\ collateral_deposited_atoms p' = 0.
Proof.
  intros Hm [Hp Hx] H. unfold Market.socialize_loss in H. market_inv.
  match goal with H : SupplyVault.socialize_loss _ _ = _ |- _ =>
    apply vault_socialize_loss_ok in H as (Hv & Hid & Hf & Hb); [| apply Hm | apply Hp] end.
  unfold BorrowPosition.repay_all in *. run_inv.
  match goal with H : BorrowPosition.withdraw_collateral _ _ = _ |- _ =>
    apply borrow_withdraw_ok in H as (-> & Hc & Hq) end;
    [| destruct Hp as (? & ? & ? & ?); done].
  match goal with H : CollateralVault.withdraw_collateral _ _ = _ |- _ =>
    apply withdraw_collateral_vault_ok in H as (-> & Hu) end.
  unfold i_ltb in *. bool_prop. cbn in *.
  split; [apply (borrow_effect_both m p v); effect_side |].
  split; [eexists; split; [eassumption | lia] |]. repeat split; try done; lia.
Qed.

End Facts.
