(* ===== verification/Creation.v ===== *)
(** * The state of a new market

    What [process_create_market] writes into the zeroed account that the system program
    has just created, and that it is a valid market with nothing in it. *)
From S2P Require Import Prelude.
From S2P Require Import Errors.
From S2P Require Import Monad.
From S2P Require Import FixedPoint.
From S2P Require Import FixedFacts.
From S2P Require Import SharesTracker.
From S2P Require Import InterestRatePerSecond.
From S2P Require Import InterestRateCurve.
From S2P Require Import PodOption.
From S2P Require Import Pda.
From S2P Require Import OracleRate.
From S2P Require Import Oracle.
From S2P Require Import GlobalConfig.
From S2P Require Import MarketConfig.
From S2P Require Import SupplyPosition.
From S2P Require Import BorrowPosition.
From S2P Require Import PositionFacts.
From S2P Require Import CollateralVault.
From S2P Require Import SupplyVault.
From S2P Require Import Market.

(** The values that the bytes of a new account stand for. *)
Definition zero_key : Pubkey := replicate 32 0.
Definition zero_oracle_config : OracleConfig :=
  mkOracleConfig (mkPodOracleProvider KPyth (replicate ORACLE_UNION_SIZE 0))
    (mkValidation (mkPodOption 0) (mkPodOption (IFP 0))).
Definition zero_market : Market :=
  mkMarket
    (mkMarketConfig [0] [0] 0 0 zero_key (mkLtv (IFP 0) (IFP 0) (IFP 0)) (IFP 0) 0 0)
    (mkCollateralVault zero_key 0 zero_key 0 zero_oracle_config)
    (mkSupplyVault zero_key 0 zero_key zero_oracle_config
       {| total_shares := UFP 0; atoms_per_share := UFP 0 |}
       {| total_shares := UFP 0; atoms_per_share := UFP 0 |}
       {| kind := KFixed; union := replicate POD_UNION_SIZE 0 |}
       (mkRatePerSecond (IFP 0)) 0 (UFP 0) (UFP 0)).
Definition zero_supply_position : SupplyPosition :=
  mkSupplyPosition zero_key zero_key 0 (UFP 0).
Definition zero_borrow_position : BorrowPosition :=
  mkBorrowPosition zero_key zero_key 0 0 (UFP 0) 0.

(** The arguments of [CreateMarketInstruction] and of its accounts. *)
Record CreateMarketArgs : Type := mkCreateMarket {
  cm_bump : Z;
  cm_index : Z;
  cm_curator : Pubkey;
  cm_ltv_config : LtvConfig;
  cm_max_utilisation_rate : IFixedPoint;
  cm_fee_in_bps : Z;
  cm_supply_mint : Pubkey;
  cm_supply_decimals : Z;
  cm_supply_vault : Pubkey;
  cm_supply_oracle : OracleConfig;
  cm_interest_rate : InterestRateCurveKind;
  cm_collateral_mint : Pubkey;
  cm_collateral_decimals : Z;
  cm_collateral_vault : Pubkey;
  cm_collateral_oracle : OracleConfig }.

Section Ops.
Context {FX : FixedCrate}.

Definition create_market_state (a : CreateMarketArgs) (g : GlobalConfig) (unix_timestamp : Z)
  : ST Market () :=
  zoom config_lens
    (MarketConfig.initialize (cm_bump a) (cm_index a) (cm_curator a) (cm_ltv_config a)
       (cm_max_utilisation_rate a) U64_MAX (cm_fee_in_bps a) g) ;;;
  initlize_supply_vault (cm_supply_mint a) (cm_supply_decimals a) (cm_supply_vault a)
    (cm_supply_oracle a) (cm_interest_rate a) unix_timestamp ;;;
  initialize_collateral_vault (cm_collateral_mint a) (cm_collateral_decimals a)
    (cm_collateral_vault a) (cm_collateral_oracle a).

End Ops.

Section Facts.
Context {FX : FixedCrate} {FXL : FixedLaws FX}.

(** The decimals of the two mints are in the range of the powers of ten. *)
Definition decimals_ok (m : Market) : Prop :=
  is_decimals (SupplyVault.mint_decimals (supply_vault m)) /\
  is_decimals (CollateralVault.mint_decimals (collateral_vault m)).

Lemma small_decimals d :
  is_u8 d -> (MAX_EXPONENT_ABS <? as_i64 d) = false -> is_decimals (as_u8 d).
Proof.
  intros Hd H. bool_prop. unfold as_i64, as_u8, is_decimals, MAX_EXPONENT_ABS in *.
  rewrite !Z.mod_small in * by widths_lia. destruct (d <? 2 ^ 63) eqn:E; bool_prop; widths_lia.
Qed.

(** A new market is valid and empty. *)
Lemma create_market_ok a g ts m :
  is_u8 (cm_supply_decimals a) -> is_u8 (cm_collateral_decimals a) ->
  0 <= cm_fee_in_bps a -> 0 <= GlobalConfig.protocol_fee_share_in_bps g ->
  create_market_state a g ts zero_market = (Ok tt, m) ->
  market_ok m /\ config_ok (config m) /\ decimals_ok m /\
  curator (config m) = cm_curator a /\
  SupplyVault.vault (supply_vault m) = cm_supply_vault a /\
  CollateralVault.vault (collateral_vault m) = cm_collateral_vault a /\
  free_shares (supply_vault m) = 0 /\ borrow_total (supply_vault m) = 0 /\
  pending_fees (supply_vault m) = 0 /\ collateral_total m = 0.
Proof.
  intros Hsd Hcd Hfee Hg H. unfold create_market_state in H.
  unfold initlize_supply_vault, initialize_collateral_vault, SupplyVault.initialize,
    CollateralVault.initialize, SharesTracker.initialize in H.
  run_inv. cbn [lget lset config_lens vault_lens collateral_lens] in *.
  match goal with H : MarketConfig.initialize _ _ _ _ _ _ _ _ _ = _ |- _ =>
    apply initialize_ok in H as (Hcfg & Hcur & _ & _ & Hsh); [| done] end.
  repeat match goal with H : (_ <? as_i64 _) = false |- _ => apply small_decimals in H; [| done] end.
  split; [split; [| split; cbn; [widths_lia | lia]] |].
  - repeat split; cbn; widths_lia.
  - split; [done |]. split; [done |]. cbn. done.
Qed.

End Facts.

(** * A market to try the properties on

    A lender supplies 1000 tokens of six decimals, a borrower deposits ten tokens of eight
    decimals at a price of 100 and borrows 500; then the price of the collateral falls.
    The states are those that the operations of the model compute. *)

#[local] Existing Instance fixed_ref.

Definition key_ex (n : Z) : Pubkey := replicate 32 n.
Definition global_ex : GlobalConfig :=
  mkGlobalConfig (key_ex 1) (mkPodOption (key_ex 0)) (key_ex 2) 5000.
Definition oracle_ex (n : Z) : OracleConfig := new_pyth (key_ex n) (key_ex 9).
Definition create_ex : CreateMarketArgs :=
  mkCreateMarket 255 0 (key_ex 3) ltv_ex (IFP (2 ^ 48 * 95 / 100)) 500
    (key_ex 4) 6 (key_ex 5) (oracle_ex 10) (Fixed (mkRatePerSecond (IFP 1000)))
    (key_ex 6) 8 (key_ex 7) (oracle_ex 11).

(** Prices of the supply token, and of the collateral in good and bad times. *)
Definition supply_rate : OracleRate := mkOracleRate (IFP (2 ^ 48)) (IFP 0).
Definition good_rate : OracleRate := mkOracleRate (IFP (100 * 2 ^ 48)) (IFP 0).
Definition bad_rate : OracleRate := mkOracleRate (IFP (543 * 2 ^ 48 / 10)) (IFP 0).
Definition worst_rate : OracleRate := mkOracleRate (IFP (40 * 2 ^ 48)) (IFP 0).

Definition after {A S} (r : Res A * S) : S := snd r.

Definition market_0 : Market :=
  Eval vm_compute in after (create_market_state create_ex global_ex 1000 zero_market).
Definition lender_0 : SupplyPosition := SupplyPosition.new (key_ex 20) (key_ex 8).
Definition borrower_0 : BorrowPosition := mkBorrowPosition (key_ex 21) (key_ex 8) 0 0 (UFP 0) 0.

Definition lent : Market * SupplyPosition :=
  Eval vm_compute in after (Market.lend 1000000000 (market_0, lender_0)).
Definition deposited : Market * BorrowPosition :=
  Eval vm_compute in after (Market.deposit_collateral 1000000000 (fst lent, borrower_0)).
Definition borrowed : Market * BorrowPosition :=
  Eval vm_compute in after (Market.borrow 500000000 supply_rate good_rate deposited).
Definition swept : Market * BorrowPosition :=
  Eval vm_compute in after (Market.begin_capital_sweep bad_rate supply_rate borrowed).

Ltac ex_ok := vm_compute; repeat split; first [congruence | left; reflexivity | right; reflexivity].

Lemma market_0_ok : market_ok market_0. Proof. ex_ok. Qed.
Lemma lender_0_ok : supply_position_ok lender_0. Proof. ex_ok. Qed.
Lemma borrower_0_ok : borrower_ok borrower_0. Proof. ex_ok. Qed.
Lemma lent_ok : market_ok (fst lent) /\ supply_position_ok (snd lent). Proof. ex_ok. Qed.
Lemma deposited_ok : market_ok (fst deposited) /\ borrower_ok (snd deposited).
Proof. ex_ok. Qed.
Lemma borrowed_ok : market_ok (fst borrowed) /\ borrower_ok (snd borrowed).
Proof. ex_ok. Qed.
Lemma swept_ok : market_ok (fst swept) /\ borrower_ok (snd swept). Proof. ex_ok. Qed.
Lemma rates_ok : oracle_ok supply_rate /\ oracle_ok good_rate /\ oracle_ok bad_rate.
Proof. ex_ok. Qed.
