(* ===== verification/MarketProps.v ===== *)
(** * What the operations of a market guarantee

    The limits that borrowing, withdrawing and lending respect, the lock on a position
    whose collateral is swept, what liquidations and settlements do, and who can be
    socialised. *)
From S2P Require Import Prelude.
From S2P Require Import Errors.
From S2P Require Import Monad.
From S2P Require Import FixedPoint.
From S2P Require Import FixedFacts.
From S2P Require Import SharesTracker.
From S2P Require Import InterestRatePerSecond.
From S2P Require Import InterestRateCurve.
From S2P Require Import Pda.
From S2P Require Import OracleRate.
From S2P Require Import Oracle.
From S2P Require Import MarketConfig.
From S2P Require Import SupplyPosition.
From S2P Require Import BorrowPosition.
From S2P Require Import PositionFacts.
From S2P Require Import CollateralVault.
From S2P Require Import SupplyVault.
From S2P Require Import Liquidation.
From S2P Require Import Market.
From S2P Require Import Creation.

(** What the vault owes to lenders is there: the debt, in whole atoms rounded up, against
    the supply rounded down.  The check of the code reads the ratio with 48 fractional
    bits, hence the term [s / 2 ^ 48], which is zero below [2 ^ 48] atoms. *)
Definition debt_covered (b s : Z) : Prop := b <= s + s / 2 ^ 48.

Section Props.
Context {FX : FixedCrate} {FXL : FixedLaws FX}.

Lemma i_from_ratio_ok n d u :
  is_u64 n -> is_u64 d -> i_from_ratio n d = Ok u ->
  d <> 0 /\ i_bits u = n * 2 ^ 48 / d.
Proof.
  intros Hn Hd H. unfold i_from_ratio in H. rewrite !i_from_num_u64 in H by done. run_inv.
  match goal with H : safe_div _ _ = Ok _ |- _ =>
    apply i_div_ok in H as (Hnz & -> & _); cbn [i_bits i_from_u64] in *; [| widths_lia..] end.
  split; [lia |]. rewrite Z.mul_comm, (Z.mul_comm d), (Z.mul_comm n).
  by rewrite Z.div_mul_cancel_l by lia.
Qed.

Lemma check_reserves_ok v :
  vault_ok v -> check_reserves v = Ok tt ->
  exists s b, total_supply v = Ok s /\ total_borrow v = Ok b /\ debt_covered b s.
Proof.
  intros Hv H. unfold check_reserves, SupplyVault.utilisation_rate in H. run_inv.
  destruct (i_ltb _ _) eqn:E in *; [done |].
  match goal with H : total_supply v = Ok ?s, H2 : total_borrow v = Ok ?b |- _ =>
    exists s, b; do 2 (split; [done |]);
    apply shares_to_atoms_u64 in H; [| apply Hv..];
    apply shares_to_atoms_u64 in H2; [| apply Hv..]; set (S := s) in *; set (B := b) in * end.
  unfold i_ltb, compute_utilisation_rate in *. bool_prop. unfold debt_covered.
  destruct (i_from_ratio B S) as [u | e |] eqn:Er; run_inv.
  - apply i_from_ratio_ok in Er as [Hnz Hu]; [| done..]. rewrite Hu in E. cbn in E.
    assert (0 < S) by widths_lia. div_bounds (B * 2 ^ 48) S. div_bounds S (2 ^ 48). nia.
  - destruct (B =? 0) eqn:Hz; cbn in *; [| done]. bool_prop.
    assert (0 <= S / 2 ^ 48) by (apply div_nonneg; widths_lia). widths_lia.
Qed.

(** C6: a loan is only granted within the limits of the market: afterwards the position's
    loan to value is at most the maximum, and the utilisation of the vault at most its
    maximum, both read from the state the loan leaves behind. *)
Theorem borrow_respects_limits atoms so co m p m' p' :
  market_ok m -> borrower_ok p -> 0 <= atoms ->
  Market.borrow atoms so co (m, p) = (Ok tt, (m', p')) ->
  (exists h, borrow_position_health m' p' co so = Ok h /\
             i_bits (ltv h) <= i_bits (max_ltv (ltv_config (config m')))) /\
  (exists u, SupplyVault.utilisation_rate (supply_vault m') = Ok u /\
             i_bits u <= i_bits (max_utilisation_rate (config m'))) /\
  config m' = config m.
Proof.
  intros Hm Hp Ha H. apply borrow_op_effect in H as (He & Hl & Hu); [| done..].
  split; [done |]. split; [done | apply He].
Qed.

(** Collateral can only be withdrawn while the position stays healthy: afterwards its
    loan to value is at most the maximum, and a position with debt keeps collateral. *)
Theorem collateral_withdrawal_keeps_health atoms co so m p m' p' :
  market_ok m -> borrower_ok p ->
  Market.withdraw_collateral atoms co so (m, p) = (Ok tt, (m', p')) ->
  (exists h, borrow_position_health m' p' co so = Ok h /\
             i_bits (ltv h) <= i_bits (max_ltv (ltv_config (config m')))) /\
  (u_bits (borrowed_shares p') <> 0 -> 0 < collateral_deposited_atoms p').
Proof. intros Hm Hp H. by apply withdraw_collateral_effect in H as (_ & Hh & Hc). Qed.

(** C9: no withdrawal of lenders and no redemption of fees takes out what is lent: after
    each of them the debt of borrowers is at most the supply of lenders, up to the
    [2 ^ -48] part of the supply that the check of the utilisation rate cannot see. *)
Theorem withdrawals_leave_debt_covered m :
  market_ok m ->
  (forall atoms p m' p', 0 <= atoms -> supply_position_ok p ->
     Market.withdraw atoms (m, p) = (Ok tt, (m', p')) ->
     exists s b, total_supply (supply_vault m') = Ok s /\
       total_borrow (supply_vault m') = Ok b /\ debt_covered b s) /\
  (forall p n m' p', supply_position_ok p ->
     Market.withdraw_all (m, p) = (Ok n, (m', p')) ->
     exists s b, total_supply (supply_vault m') = Ok s /\
       total_borrow (supply_vault m') = Ok b /\ debt_covered b s) /\
  (forall n m', Market.redeem_protocol_fees m = (Ok n, m') ->
     exists s b, total_supply (supply_vault m') = Ok s /\
       total_borrow (supply_vault m') = Ok b /\ debt_covered b s) /\
  (forall n m', redeem_curator_fess m = (Ok n, m') ->
     exists s b, total_supply (supply_vault m') = Ok s /\
       total_borrow (supply_vault m') = Ok b /\ debt_covered b s).
Proof.
  intros Hm. repeat split.
  - intros atoms p m' p' Ha Hp H. apply withdraw_effect in H as [He Hc]; [| done..].
    apply check_reserves_ok; [apply He | done].
  - intros p n m' p' Hp H. apply withdraw_all_effect in H as (He & Hc & _); [| done..].
    apply check_reserves_ok; [apply He | done].
  - intros n m' H. apply redeem_protocol_fees_effect in H as (He & _ & Hc); [| done].
    apply check_reserves_ok; [apply He | done].
  - intros n m' H. apply redeem_curator_fees_effect in H as (He & _ & Hc); [| done].
    apply check_reserves_ok; [apply He | done].
Qed.

(** Lending mints shares to the position, for the atoms lent and no more, and leaves
    the supply within the configured maximum. *)
Theorem lending_respects_supply_cap atoms m p m' p' :
  market_ok m -> supply_position_ok p -> 0 <= atoms ->
  Market.lend atoms (m, p) = (Ok tt, (m', p')) ->
  (exists total, total_supply (supply_vault m') = Ok total /\
                 total <= max_supply_atoms (config m)) /\
  u_bits (shares p) <= u_bits (shares p') /\
  free_shares (supply_vault m') - free_shares (supply_vault m)
    = u_bits (shares p') - u_bits (shares p).
Proof.
  intros Hm Hp Ha H. pose proof H as H0.
  apply lend_effect in H as [He (t & Ht & Hle)]; [| done..].
  destruct (se_same _ _ _ _ He) as [Hcfg _]. rewrite Hcfg in Hle.
  split; [by exists t |]. pose proof (se_shares _ _ _ _ He). split; [| lia].
  unfold Market.lend in H0. market_inv.
  match goal with H : SupplyPosition.lend _ _ _ = _ |- _ =>
    apply supply_lend_ok in H as (-> & Hq) end.
  match goal with H : SupplyVault.lend _ _ = _ |- _ =>
    apply vault_lend_ok in H as (_ & _ & _ & _ & [Hs _]); [| apply Hm | done] end.
  cbn. lia.
Qed.

(** C10: while its collateral is swept, a position is locked: every operation of its owner,
    of a liquidator and of the curator on it is refused with [CapitalSweepPending] and
    leaves the market and the position as they were; without a sweep there is nothing to
    settle. *)
Theorem swept_position_is_locked m p :
  (swept_collateral_atoms p <> 0 ->
   (forall a, Market.deposit_collateral a (m, p) = (Err CapitalSweepPending, (m, p))) /\
   (forall a co so,
      Market.withdraw_collateral a co so (m, p) = (Err CapitalSweepPending, (m, p))) /\
   (forall a so co, Market.borrow a so co (m, p) = (Err CapitalSweepPending, (m, p))) /\
   (forall a, Market.repay a (m, p) = (Err CapitalSweepPending, (m, p))) /\
   Market.repay_all (m, p) = (Err CapitalSweepPending, (m, p)) /\
   (forall co so n, Market.liquidate co so n (m, p) = (Err CapitalSweepPending, (m, p))) /\
   (forall co so,
      Market.begin_capital_sweep co so (m, p) = (Err CapitalSweepPending, (m, p))) /\
   (forall co so, Market.socialize_loss co so (m, p) = (Err CapitalSweepPending, (m, p)))) /\
  (swept_collateral_atoms p = 0 -> forall co so n c,
   Market.settle_capital_sweep co so n c (m, p) = (Err NoCapitalSweepPending, (m, p))).
Proof.
  split; intros Hs.
  - assert (Hl : ensure_unswept (m, p) = (Err CapitalSweepPending, (m, p))).
    { unfold ensure_unswept, ensure_capital_sweep_inactive, capital_sweep_pending.
      cbn. rewrite (proj2 (Z.eqb_neq _ _) Hs). done. }
    repeat split; intros; cbv beta delta [Market.deposit_collateral Market.withdraw_collateral
      Market.borrow Market.repay Market.repay_all Market.liquidate
      Market.begin_capital_sweep Market.socialize_loss];
      unfold st_bind at 1; by rewrite Hl.
  - intros. unfold Market.settle_capital_sweep, capital_sweep_pending, st_bind, st_get, st_guard.
    cbn. by rewrite Hs.
Qed.

(** C7: a liquidation only happens to a position whose loan to value reached the unhealthy
    level and does not raise it; it repays at most the debt and at most what the liquidator
    allows, seizes at most the collateral, bonus included, and the position loses exactly
    the collateral reported. *)
Theorem liquidation_is_justified_and_bounded co so maxr m p r m' p' :
  market_ok m -> borrower_ok p -> 0 <= maxr ->
  Market.liquidate co so maxr (m, p) = (Ok r, (m', p')) ->
  let hb := health_before_liquidation r in
  let ha := health_after_liquidation r in
  let l := liquidation_result_with_bonus r in
  borrow_position_health m p co so = Ok hb /\
  borrow_position_health m' p' co so = Ok ha /\
  i_bits (unhealthy_ltv (ltv_config (config m))) <= i_bits (ltv hb) /\
  i_bits (ltv ha) <= i_bits (ltv hb) /\
  0 <= repay_atoms l <= Z.min maxr (borrowed_atoms hb) /\
  0 <= liquidate_atoms l /\ 0 <= bonus_atoms l /\
  collateral_deposited_atoms p'
    = collateral_deposited_atoms p - (liquidate_atoms l + bonus_atoms l) /\
  0 <= collateral_deposited_atoms p'.
Proof.
  intros Hm Hp Hmax H hb ha l.
  apply liquidate_effect in H as (He & Hb & Ha & Hu & Hl & (Hr & Hc & Hbo & Ht) & Hd);
    [| done..].
  do 8 (split; [done |]). subst l. lia.
Qed.

(** C8: a liquidator of a solvent position is paid at most the value repaid plus the
    bonus: at the price that favours the borrower on both sides, the collateral taken for
    the debt is worth at most the debt repaid (up to one unit of the 80.48 format per atom
    and one more), and the bonus is at most the configured share of it. *)
Theorem liquidator_is_paid_at_most_the_bonus m p c co so maxr h r :
  market_ok m -> borrower_ok p -> is_u64 c -> 0 <= maxr ->
  oracle_ok co -> oracle_ok so ->
  is_decimals (SupplyVault.mint_decimals (supply_vault m)) ->
  is_decimals (CollateralVault.mint_decimals (collateral_vault m)) ->
  0 <= i_bits (liquidation_bonus (ltv_config (config m))) ->
  compute_liquidation_result_with_fee_for_collateral m p c co so maxr = Ok (h, r) ->
  i_bits (ltv h) < 2 ^ 48 ->
  fair so co (SupplyVault.mint_decimals (supply_vault m))
    (CollateralVault.mint_decimals (collateral_vault m)) (repay_atoms r) (liquidate_atoms r) /\
  bonus_atoms r * 2 ^ 48
    <= liquidate_atoms r * i_bits (liquidation_bonus (ltv_config (config m))).
Proof.
  intros Hm [Hp _] Hc Hmax Hco Hso Hds Hdc Hbonus H Hsolvent.
  unfold compute_liquidation_result_with_fee_for_collateral in H. run_inv.
  destruct (i_ltb _ _); [done |]. run_inv.
  match goal with H : borrow_position_health_with_collateral_atoms _ _ _ _ _ = Ok _ |- _ =>
    destruct (health_ok _ _ _ _ _ _ Hm Hp H) as [Hb _] end.
  unfold i_leb in *. rewrite (proj2 (Z.leb_gt _ _)) in * by (cbn; lia).
  match goal with H : compute_liquidation_with_fee _ _ _ _ _ _ _ _ _ = Ok _ |- _ =>
    apply compute_liquidation_with_fee_fair in H; [done | done.. | apply Hb | done | done] end.
Qed.

(** C11: settling a sweep ends it: the position was swept and no longer is, gets back all
    of the swept collateral but what the liquidation seized and no more than the sweeper
    allows, its loan to value does not rise, and if it had become healthy again nothing is
    seized. *)
Theorem settlement_returns_the_rest co so maxr maxc m p r m' p' :
  market_ok m -> borrower_ok p -> 0 <= maxr ->
  Market.settle_capital_sweep co so maxr maxc (m, p) = (Ok r, (m', p')) ->
  let l := settlement_liquidation r in
  let hb := health_before_settlement r in
  swept_collateral_atoms p <> 0 /\ swept_collateral_atoms p' = 0 /\
  collateral_deposited_atoms p'
    = swept_collateral_atoms p - (liquidate_atoms l + bonus_atoms l) /\
  0 <= collateral_deposited_atoms p' <= maxc /\
  0 <= repay_atoms l <= Z.min maxr (borrowed_atoms hb) /\
  i_bits (ltv (health_after_settlement r)) <= i_bits (ltv hb) /\
  (i_bits (ltv hb) < i_bits (unhealthy_ltv (ltv_config (config m))) ->
   repay_atoms l = 0 /\ collateral_deposited_atoms p' = swept_collateral_atoms p).
Proof.
  intros Hm Hp Hmax H l hb.
  apply settle_sweep_effect in H
    as (He & Hn & Hz & Hh & Ha & Hl & (Hr & Hc & Hb & Ht) & Hret & Hmaxc & Hd & Hhealthy);
    [| done..].
  subst l hb. rewrite Hd, Hret in *. repeat split; try done; try lia.
Qed.

(** C12: debt is only socialised when it is worth at least its collateral; the position is
    then left with no debt and no collateral, and the collateral reported is all it had. *)
Theorem only_insolvent_debt_is_socialized co so m p n c m' p' :
  market_ok m -> borrower_ok p ->
  Market.socialize_loss co so (m, p) = (Ok (n, c), (m', p')) ->
  (exists h, borrow_position_health m p co so = Ok h /\ 2 ^ 48 <= i_bits (ltv h)) /\
  c = collateral_deposited_atoms p /\
  borrowed_shares p' = u_zero /\ collateral_deposited_atoms p' = 0 /\
  borrow_total (supply_vault m') = borrow_total (supply_vault m) - u_bits (borrowed_shares p) /\
  collateral_total m' = collateral_total m - c.
Proof.
  intros Hm Hp H. apply socialize_loss_effect in H as (He & Hh & _ & -> & Hs & Hc); [| done..].
  pose proof (be_borrow _ _ _ _ He) as Hb. pose proof (be_collateral _ _ _ _ He) as Hct.
  rewrite Hs in Hb. cbn in Hb. repeat split; try done; lia.
Qed.

End Props.


(** ** Witnesses *)

#[local] Existing Instance fixed_ref.
#[local] Existing Instance fixed_ref_laws.

(** Runs an operation of the model on concrete states. *)
Ltac run_ex := vm_compute; reflexivity.

Lemma borrow_respects_limits_witness :
  exists m' p', Market.borrow 500000000 supply_rate good_rate deposited = (Ok tt, (m', p')) /\
    exists u, SupplyVault.utilisation_rate (supply_vault m') = Ok u /\
              i_bits u <= i_bits (max_utilisation_rate (config m')).
Proof.
  eexists _, _. split; [run_ex |].
  eapply (borrow_respects_limits 500000000 supply_rate good_rate (fst deposited)
    (snd deposited)); [apply deposited_ok | apply deposited_ok | lia | run_ex].
Defined.

Lemma collateral_withdrawal_witness :
  exists m' p', Market.withdraw_collateral 1000 good_rate supply_rate borrowed
                = (Ok tt, (m', p')) /\ 0 < collateral_deposited_atoms p'.
Proof.
  eexists _, _. split; [run_ex |].
  eapply (collateral_withdrawal_keeps_health 1000 good_rate supply_rate (fst borrowed)
    (snd borrowed)); [apply borrowed_ok | apply borrowed_ok | run_ex |].
  vm_compute. congruence.
Defined.

Lemma withdrawals_leave_debt_covered_witness :
  exists m' p', Market.withdraw 300000000 (fst borrowed, snd lent) = (Ok tt, (m', p')) /\
    exists s b, total_supply (supply_vault m') = Ok s /\
      total_borrow (supply_vault m') = Ok b /\ debt_covered b s.
Proof.
  eexists _, _. split; [run_ex |].
  eapply (proj1 (withdrawals_leave_debt_covered (fst borrowed) (proj1 borrowed_ok))
    300000000 (snd lent)); [lia | apply lent_ok | run_ex].
Defined.

Lemma lending_respects_supply_cap_witness :
  exists m' p', Market.lend 5000 lent = (Ok tt, (m', p')) /\
    u_bits (shares (snd lent)) <= u_bits (shares p').
Proof.
  eexists _, _. split; [run_ex |].
  eapply (lending_respects_supply_cap 5000 (fst lent) (snd lent));
    [apply lent_ok | apply lent_ok | lia | run_ex].
Defined.

Lemma swept_position_is_locked_witness :
  Market.repay 10 swept = (Err CapitalSweepPending, swept).
Proof.
  apply (proj1 (swept_position_is_locked (fst swept) (snd swept))).
  vm_compute. congruence.
Defined.

Lemma liquidation_is_justified_witness :
  exists r m' p', Market.liquidate bad_rate supply_rate 100000000 borrowed
                  = (Ok r, (m', p')) /\
    i_bits (ltv (health_after_liquidation r)) <= i_bits (ltv (health_before_liquidation r)).
Proof.
  eexists _, _, _. split; [run_ex |].
  eapply (liquidation_is_justified_and_bounded bad_rate supply_rate 100000000 (fst borrowed)
    (snd borrowed)); [apply borrowed_ok | apply borrowed_ok | lia | run_ex].
Defined.

Lemma liquidator_is_paid_witness :
  exists h r, compute_liquidation_result_with_fee_for_collateral (fst borrowed) (snd borrowed)
                1000000000 bad_rate supply_rate 100000000 = Ok (h, r) /\
    fair supply_rate bad_rate 6 8 (repay_atoms r) (liquidate_atoms r).
Proof.
  eexists _, _. split; [run_ex |].
  eapply (liquidator_is_paid_at_most_the_bonus (fst borrowed) (snd borrowed) 1000000000
    bad_rate supply_rate 100000000);
    [apply borrowed_ok | apply borrowed_ok | vm_compute; split; congruence | lia
    | apply rates_ok | apply rates_ok | vm_compute; split; congruence
    | vm_compute; split; congruence | vm_compute; congruence | run_ex | vm_compute; congruence].
Defined.

Lemma settlement_returns_the_rest_witness :
  exists r m' p', Market.settle_capital_sweep bad_rate supply_rate 100000000 1000000000 swept
                  = (Ok r, (m', p')) /\ swept_collateral_atoms p' = 0.
Proof.
  eexists _, _, _. split; [run_ex |].
  eapply (settlement_returns_the_rest bad_rate supply_rate 100000000 1000000000 (fst swept)
    (snd swept)); [apply swept_ok | apply swept_ok | lia | run_ex].
Defined.

Lemma only_insolvent_debt_witness :
  exists n c m' p', Market.socialize_loss worst_rate supply_rate borrowed
                    = (Ok (n, c), (m', p')) /\ c = 1000000000.
Proof.
  eexists _, _, _, _. split; [run_ex |].
  eapply (only_insolvent_debt_is_socialized worst_rate supply_rate (fst borrowed)
    (snd borrowed)); [apply borrowed_ok | apply borrowed_ok | run_ex].
Defined.
