(* ===== verification/SupplyNet.v ===== *)
(** * The net claim on the tokens of the supply vault

    Lenders and fees hold shares of the supply tracker, borrowers owe shares of the borrow
    tracker; what is left when the debts are deducted must lie in the token account of the
    vault.  Here: how each operation of [autara-lib/src/state/market.rs] and
    [supply_vault.rs] moves this net claim, against the tokens that it moves. *)
From S2P Require Import Prelude.
From S2P Require Import Errors.
From S2P Require Import Monad.
From S2P Require Import FixedPoint.
From S2P Require Import FixedFacts.
From S2P Require Import SharesTracker.
From S2P Require Import InterestRatePerSecond.
From S2P Require Import InterestRateCurve.
From S2P Require Import OracleRate.
From S2P Require Import MarketConfig.
From S2P Require Import SupplyPosition.
From S2P Require Import BorrowPosition.
From S2P Require Import PositionFacts.
From S2P Require Import CollateralVault.
From S2P Require Import SupplyVault.
From S2P Require Import Liquidation.
From S2P Require Import Market.
From S2P Require Import Creation.
From S2P Require Import MarketProps.

(** What the lenders own less what the borrowers owe, in units of [2 ^ -128] atoms. *)
Definition net (v : SupplyVault) : Z :=
  value (supply_shares_tracker v) - value (borrow_shares_tracker v).

(** One unit of each rounding: of the shares for a number of atoms, of the loss spread over
    the shares, of a debt rounded up. *)
Definition dust (v : SupplyVault) : Z :=
  u_bits (atoms_per_share (supply_shares_tracker v))
  + u_bits (atoms_per_share (borrow_shares_tracker v))
  + u_bits (total_shares (supply_shares_tracker v)) + 2 ^ 64.

(** The debt of all borrowers together is a number of atoms in [u64]. *)
Definition debt_fits (v : SupplyVault) : Prop :=
  value (borrow_shares_tracker v) <= U64_MAX * ATOM.

(** The net claim grows by at most [n] atoms and the dust. *)
Definition grows_by (n : Z) (v v' : SupplyVault) : Prop :=
  net v' - net v <= n * ATOM + dust v.

Section Tracker.
Context {FX : FixedCrate} {FXL : FixedLaws FX}.
Implicit Types (t : SharesTracker).

Lemma value_set_total x t : value (set_total_shares x t) = u_bits x * u_bits (atoms_per_share t).
Proof. done. Qed.
Lemma value_set_price x t : value (set_atoms_per_share x t) = u_bits (total_shares t) * u_bits x.
Proof. done. Qed.

(** The value of [s] shares taken out of, or put into, the pool. *)
Lemma value_burn t s :
  value (set_total_shares (UFP (u_bits (total_shares t) - u_bits s)) t)
  = value t - u_bits s * u_bits (atoms_per_share t).
Proof. rewrite value_set_total. unfold value. cbn. ring. Qed.

Lemma value_mint t s :
  value (set_total_shares (UFP (u_bits (total_shares t) + u_bits s)) t)
  = value t + u_bits s * u_bits (atoms_per_share t).
Proof. rewrite value_set_total. unfold value. cbn. ring. Qed.

Lemma deposit_value t atoms s t' :
  tracker_ok t -> 0 <= atoms -> deposit_atoms atoms t = (Ok s, t') ->
  atoms * ATOM - u_bits (atoms_per_share t) < value t' - value t <= atoms * ATOM.
Proof.
  intros Ht Ha H. apply deposit_atoms_ok in H as (Hp & Hs & -> & _); [| done..].
  rewrite value_mint. pose proof (minted_value_bounds atoms _ Hp Ha). subst s. cbn. lia.
Qed.

Lemma withdraw_atoms_value t atoms s t' :
  tracker_ok t -> 0 <= atoms -> SharesTracker.withdraw_atoms atoms t = (Ok s, t') ->
  atoms * ATOM - u_bits (atoms_per_share t) < value t - value t' <= atoms * ATOM.
Proof.
  intros Ht Ha H. apply withdraw_atoms_ok in H as (Hp & Hs & -> & _); [| done..].
  rewrite value_burn. pose proof (minted_value_bounds atoms _ Hp Ha). subst s. cbn. lia.
Qed.

Lemma withdraw_down_value t s n t' :
  tracker_ok t -> u_ok s -> SharesTracker.withdraw_shares s RoundDown t = (Ok n, t') ->
  n * ATOM <= value t - value t' < (n + 1) * ATOM.
Proof.
  intros Ht Hs H. apply withdraw_shares_ok in H as (Hn & -> & _); [| done..].
  apply shares_to_atoms_down_ok in Hn as [-> _]; [| done..]. rewrite value_burn.
  set (x := u_bits s * u_bits (atoms_per_share t)). pose proof ATOM_pos.
  div_bounds x ATOM. lia.
Qed.

(** A debt rounded up covers its value, unless it saturates. *)
Lemma withdraw_up_value t s n t' :
  tracker_ok t -> u_ok s -> value t <= U64_MAX * ATOM ->
  SharesTracker.withdraw_shares s RoundUp t = (Ok n, t') ->
  value t - value t' < n * ATOM + 2 ^ 64.
Proof.
  intros Ht Hs Hfit H. apply withdraw_shares_ok in H as (Hn & -> & [Ht' _]); [| done..].
  apply shares_to_atoms_up_ok in Hn as ->; [| done..]. rewrite value_burn.
  destruct Ht as [Ht Hp]. unfold u_ok in *. cbn [u_bits total_shares set_total_shares] in *.
  assert (Hle : u_bits s * u_bits (atoms_per_share t) <= value t)
    by (apply Z.mul_le_mono_nonneg_r; lia).
  set (x := u_bits s * u_bits (atoms_per_share t)) in *.
  pose proof (ceil64_bounds (x / 2 ^ 64)). div_bounds x (2 ^ 64).
  apply Z.min_case_strong; intros; unfold ATOM in *; lia.
Qed.

Lemma capped_value t atoms m n s t' :
  tracker_ok t -> is_u64 atoms -> u_ok m ->
  withdraw_atoms_capped atoms m RoundUp t = (Ok (n, s), t') ->
  0 <= n <= atoms /\ value t - value t' < n * ATOM + 2 ^ 64.
Proof.
  intros Ht Ha Hm H. pose proof (capped_bounds _ _ _ _ _ _ Ht Ha Hm H) as [Hn Hv].
  apply withdraw_atoms_capped_ok in H as (-> & _); [| done | widths_lia | done].
  rewrite value_burn. lia.
Qed.

Lemma donate_value t atoms t' :
  tracker_ok t -> 0 <= atoms -> donate_atoms atoms t = (Ok tt, t') ->
  value t' - value t <= atoms * ATOM.
Proof.
  intros Ht Ha H. apply donate_atoms_ok in H as (Hp & -> & _); [| done..].
  rewrite value_set_price. unfold value. cbn.
  div_bounds (atoms * ATOM) (u_bits (total_shares t)). lia.
Qed.

Lemma loss_value t atoms t' :
  tracker_ok t -> 0 <= atoms -> socialize_loss_atoms atoms t = (Ok tt, t') ->
  atoms * ATOM - u_bits (total_shares t) < value t - value t'.
Proof.
  intros Ht Ha H. apply socialize_loss_atoms_ok in H as (Hp & -> & _); [| done..].
  rewrite value_set_price. unfold value. cbn.
  div_bounds (atoms * ATOM) (u_bits (total_shares t)). lia.
Qed.

End Tracker.

Section Operations.
Context {FX : FixedCrate} {FXL : FixedLaws FX}.
Implicit Types (v : SupplyVault) (m : Market).

Lemma dust_parts v :
  vault_ok v ->
  0 <= u_bits (atoms_per_share (supply_shares_tracker v)) /\
  0 <= u_bits (atoms_per_share (borrow_shares_tracker v)) /\
  0 <= u_bits (total_shares (supply_shares_tracker v)).
Proof. intros ([Hs Hp] & [_ Hb] & _). widths_lia. Qed.

(** An operation on the supply shares only, and one on the borrow shares only. *)
Lemma grows_supply n v t' :
  vault_ok v ->
  value t' - value (supply_shares_tracker v)
    <= n * ATOM + u_bits (atoms_per_share (supply_shares_tracker v)) ->
  grows_by n v (set_supply t' v).
Proof.
  intros Hv H. destruct (dust_parts v Hv) as (? & ? & ?).
  unfold grows_by, net, dust. cbn [supply_shares_tracker borrow_shares_tracker set_supply]. lia.
Qed.

Lemma grows_borrow n v t' :
  vault_ok v ->
  value (borrow_shares_tracker v) - value t'
    <= n * ATOM + u_bits (atoms_per_share (borrow_shares_tracker v)) + 2 ^ 64 ->
  grows_by n v (set_borrow t' v).
Proof.
  intros Hv H. destruct (dust_parts v Hv) as (? & ? & ?).
  unfold grows_by, net, dust. cbn [supply_shares_tracker borrow_shares_tracker set_borrow]. lia.
Qed.

Lemma grows_refl v : vault_ok v -> grows_by 0 v v.
Proof.
  intros Hv. destruct (dust_parts v Hv) as (? & ? & ?). unfold grows_by, dust. lia.
Qed.

(** The price of a share of either kind is a part of the dust. *)
Ltac prices Hv := destruct (dust_parts _ Hv) as (? & ? & ?).
Ltac open_vault H :=
  unfold SupplyVault.lend, SupplyVault.withdraw_atoms, SupplyVault.withdraw_shares,
    SupplyVault.borrow, SupplyVault.repay_atoms, repay_shares, repay_atoms_capped,
    donate_supply in H;
  run_inv; cbn [lget lset supply_lens borrow_lens] in *.

Lemma lend_grows n v s v' :
  vault_ok v -> 0 <= n -> SupplyVault.lend n v = (Ok s, v') -> grows_by n v v'.
Proof.
  intros Hv Hn H. open_vault H. prices Hv.
  match goal with H : _ = (Ok _, _) |- _ => apply deposit_value in H; [| apply Hv | done] end.
  apply grows_supply; [done | lia].
Qed.

Lemma withdraw_atoms_grows n v s v' :
  vault_ok v -> 0 <= n -> SupplyVault.withdraw_atoms n v = (Ok s, v') -> grows_by (- n) v v'.
Proof.
  intros Hv Hn H. open_vault H. prices Hv.
  match goal with H : _ = (Ok _, _) |- _ =>
    apply withdraw_atoms_value in H; [| apply Hv | done] end.
  apply grows_supply; [done | lia].
Qed.

Lemma withdraw_shares_grows s v n v' :
  vault_ok v -> u_ok s -> SupplyVault.withdraw_shares s v = (Ok n, v') ->
  grows_by (- n) v v'.
Proof.
  intros Hv Hs H. open_vault H. prices Hv.
  match goal with H : _ = (Ok _, _) |- _ =>
    apply withdraw_down_value in H; [| apply Hv | done] end.
  apply grows_supply; [done | lia].
Qed.

Lemma borrow_grows n v s v' :
  vault_ok v -> 0 <= n -> SupplyVault.borrow n v = (Ok s, v') -> grows_by (- n) v v'.
Proof.
  intros Hv Hn H. open_vault H. prices Hv.
  match goal with H : _ = (Ok _, _) |- _ => apply deposit_value in H; [| apply Hv | done] end.
  apply grows_borrow; [done | lia].
Qed.

Lemma repay_atoms_grows n v s v' :
  vault_ok v -> 0 <= n -> SupplyVault.repay_atoms n v = (Ok s, v') -> grows_by n v v'.
Proof.
  intros Hv Hn H. open_vault H. prices Hv.
  match goal with H : _ = (Ok _, _) |- _ =>
    apply withdraw_atoms_value in H; [| apply Hv | done] end.
  apply grows_borrow; [done | lia].
Qed.

Lemma repay_shares_grows s v n v' :
  vault_ok v -> debt_fits v -> u_ok s -> repay_shares s v = (Ok n, v') -> grows_by n v v'.
Proof.
  intros Hv Hf Hs H. open_vault H. prices Hv.
  match goal with H : _ = (Ok _, _) |- _ =>
    apply withdraw_up_value in H; [| apply Hv | done | done] end.
  apply grows_borrow; [done | lia].
Qed.

Lemma repay_capped_grows atoms mx v n s v' :
  vault_ok v -> is_u64 atoms -> u_ok mx -> repay_atoms_capped atoms mx v = (Ok (n, s), v') ->
  n <= atoms /\ grows_by n v v'.
Proof.
  intros Hv Ha Hm H. open_vault H. prices Hv.
  match goal with H : _ = (Ok _, _) |- _ =>
    apply capped_value in H as [Hn H]; [| apply Hv | done | done] end.
  split; [lia |]. apply grows_borrow; [done | lia].
Qed.

Lemma donate_grows n v v' :
  vault_ok v -> 0 <= n -> donate_supply n v = (Ok tt, v') -> grows_by n v v'.
Proof.
  intros Hv Hn H. open_vault H. prices Hv.
  match goal with H : _ = (Ok _, _) |- _ => apply donate_value in H; [| apply Hv | done] end.
  apply grows_supply; [done | lia].
Qed.

(** The debt that is written off is taken from the lenders, who bear all of it. *)
Lemma loss_grows s v n v' :
  vault_ok v -> debt_fits v -> u_ok s -> SupplyVault.socialize_loss s v = (Ok n, v') ->
  grows_by 0 v v'.
Proof.
  intros Hv Hf Hs H. unfold SupplyVault.socialize_loss in H. run_inv.
  cbn [lget lset supply_lens borrow_lens set_borrow supply_shares_tracker] in *. prices Hv.
  match goal with H : SharesTracker.withdraw_shares _ _ _ = _ |- _ =>
    pose proof H as Hn; apply withdraw_shares_ok in Hn as (Hn & _); [| apply Hv | done];
    apply shares_to_atoms_u64 in Hn; [| apply Hv | done];
    apply withdraw_up_value in H; [| apply Hv | done | done] end.
  match goal with H : socialize_loss_atoms _ _ = _ |- _ =>
    apply loss_value in H; [| apply Hv | apply Hn] end.
  unfold grows_by, net, dust.
  cbn [supply_shares_tracker borrow_shares_tracker set_borrow set_supply]. lia.
Qed.

End Operations.

(** The tokens that the operation of a market and a position moves into its supply vault
    cover the growth of the net claim. *)
Definition market_grows (n : Z) (m m' : Market) : Prop :=
  grows_by n (supply_vault m) (supply_vault m').

Section Markets.
Context {FX : FixedCrate} {FXL : FixedLaws FX}.
Implicit Types (m : Market).

Lemma redeem_protocol_grows m n m' :
  market_ok m -> Market.redeem_protocol_fees m = (Ok n, m') -> market_grows (- n) m m'.
Proof.
  intros [Hv _] H. unfold Market.redeem_protocol_fees, SupplyVault.redeem_protocol_fees in H.
  run_inv. pose proof Hv as (Hs & Hb & Hp & Hc).
  match goal with H : SupplyVault.withdraw_shares _ _ = _ |- _ =>
    apply withdraw_shares_grows in H; [exact H | | done] end.
  split; [done |]. split; [done |]. split; [split; vm_compute; discriminate | done].
Qed.

Lemma redeem_curator_grows m n m' :
  market_ok m -> redeem_curator_fess m = (Ok n, m') -> market_grows (- n) m m'.
Proof.
  intros [Hv _] H. unfold redeem_curator_fess, SupplyVault.redeem_curator_fees in H.
  run_inv. pose proof Hv as (Hs & Hb & Hp & Hc).
  match goal with H : SupplyVault.withdraw_shares _ _ = _ |- _ =>
    apply withdraw_shares_grows in H; [exact H | | done] end.
  do 3 (split; [done |]). split; vm_compute; discriminate.
Qed.

Lemma donate_market_grows n m m' :
  market_ok m -> 0 <= n -> donate_supply_atoms n m = (Ok tt, m') -> market_grows n m m'.
Proof.
  intros [Hv _] Hn H. unfold donate_supply_atoms in H. run_inv. by eapply donate_grows.
Qed.

Lemma market_lend_grows n m p m' p' :
  market_ok m -> 0 <= n -> Market.lend n (m, p) = (Ok tt, (m', p')) -> market_grows n m m'.
Proof.
  intros [Hv _] Hn H. unfold Market.lend in H. market_inv. by eapply lend_grows.
Qed.

Lemma market_withdraw_grows n m p m' p' :
  market_ok m -> 0 <= n -> Market.withdraw n (m, p) = (Ok tt, (m', p')) ->
  market_grows (- n) m m'.
Proof.
  intros [Hv _] Hn H. unfold Market.withdraw in H. market_inv. by eapply withdraw_atoms_grows.
Qed.

Lemma market_withdraw_all_grows n m p m' p' :
  market_ok m -> supply_position_ok p -> Market.withdraw_all (m, p) = (Ok n, (m', p')) ->
  market_grows (- n) m m'.
Proof.
  intros [Hv _] Hp H. unfold Market.withdraw_all in H. market_inv.
  eapply withdraw_shares_grows; [done | apply Hp | eassumption].
Qed.

Lemma market_borrow_grows n so co m p m' p' :
  market_ok m -> 0 <= n -> Market.borrow n so co (m, p) = (Ok tt, (m', p')) ->
  market_grows (- n) m m'.
Proof.
  intros [Hv _] Hn H. unfold Market.borrow in H. market_inv. by eapply borrow_grows.
Qed.

Lemma market_repay_grows n m p m' p' :
  market_ok m -> 0 <= n -> Market.repay n (m, p) = (Ok tt, (m', p')) -> market_grows n m m'.
Proof.
  intros [Hv _] Hn H. unfold Market.repay in H. market_inv. by eapply repay_atoms_grows.
Qed.

Lemma market_repay_all_grows n m p m' p' :
  market_ok m -> borrower_ok p -> debt_fits (supply_vault m) ->
  Market.repay_all (m, p) = (Ok n, (m', p')) -> market_grows n m m'.
Proof.
  intros [Hv _] [Hp _] Hf H. unfold Market.repay_all in H. market_inv.
  eapply repay_shares_grows; [done | done | apply Hp | eassumption].
Qed.

(** The repayment that is asked for in the end is the one that the vault booked. *)
Lemma adjusted_repay l n :
  n <= repay_atoms l -> repay_atoms (bonus_adjust_for_max_repay l n) = n.
Proof.
  intros H. unfold bonus_adjust_for_max_repay. destruct (n <? repay_atoms l) eqn:E; [done |].
  bool_prop. lia.
Qed.

Lemma market_liquidate_grows co so maxr m p r m' p' :
  market_ok m -> borrower_ok p -> 0 <= maxr ->
  Market.liquidate co so maxr (m, p) = (Ok r, (m', p')) ->
  market_grows (repay_atoms (liquidation_result_with_bonus r)) m m'.
Proof.
  intros Hm [Hp _] Hmax H. unfold Market.liquidate in H. market_inv.
  unfold compute_liquidation_result_with_fee in *. run_inv.
  match goal with H : compute_liquidation_result_with_fee_for_collateral _ _ _ _ _ _ = _ |- _ =>
    apply compute_result_ok in H as (Hh & _ & Hw); [| done | done | apply Hp | done] end.
  destruct (health_ok _ _ _ _ _ _ Hm Hp Hh) as [Hb _].
  match goal with H : repay_atoms_capped _ _ _ = _ |- _ =>
    apply repay_capped_grows in H as [Hn Hg]; [| apply Hm | | apply Hp] end.
  - cbn [liquidation_result_with_bonus]. by rewrite adjusted_repay.
  - destruct Hw as (Hr & _). widths_lia.
Qed.

Lemma market_settle_grows co so maxr maxc m p r m' p' :
  market_ok m -> borrower_ok p -> 0 <= maxr ->
  Market.settle_capital_sweep co so maxr maxc (m, p) = (Ok r, (m', p')) ->
  market_grows (repay_atoms (settlement_liquidation r)) m m'.
Proof.
  intros Hm [Hp _] Hmax H. unfold Market.settle_capital_sweep in H. market_inv.
  match goal with H : borrow_position_health_with_collateral_atoms _ _ _ _ _ = Ok ?x |- _ =>
    rename H into Hhb; destruct (health_ok _ _ _ _ _ _ Hm Hp Hhb) as [Hba _] end.
  match goal with H : (if ?b then _ else _) = Ok ?x |- _ =>
    assert (Hr : is_u64 (repay_atoms x)) end.
  { match goal with H : (if ?b then _ else _) = Ok _ |- _ => destruct b in H end; run_inv;
      [split; vm_compute; discriminate |].
    match goal with H : compute_liquidation_result_with_fee_for_collateral _ _ _ _ _ _ = Ok ?x
      |- _ => destruct x; apply compute_result_ok in H as (Hh & _ & (Hr & _));
        [| done | done | apply Hp | done] end.
    rewrite Hhb in Hh. run_inv. cbn. widths_lia. }
  match goal with H : repay_atoms_capped _ _ _ = _ |- _ =>
    apply repay_capped_grows in H as [Hn Hg]; [| apply Hm | done | apply Hp] end.
  cbn [settlement_liquidation]. by rewrite adjusted_repay.
Qed.

Lemma market_loss_grows co so n c m p m' p' :
  market_ok m -> borrower_ok p -> debt_fits (supply_vault m) ->
  Market.socialize_loss co so (m, p) = (Ok (n, c), (m', p')) -> market_grows 0 m m'.
Proof.
  intros [Hv _] [Hp _] Hf H. unfold Market.socialize_loss in H. market_inv.
  eapply loss_grows; [done | done | apply Hp | eassumption].
Qed.

End Markets.

(** ** Interest *)

Section Interest.
Context {FX : FixedCrate} {FXL : FixedLaws FX}.
Implicit Types (v : SupplyVault) (m : Market).

(** What interest at the rate [r] adds to a debt, from below. *)
Lemma charged_value t r t' :
  tracker_ok t -> 0 <= i_bits (SharesTracker.rate r) -> apply_interest_rate r t = (Ok tt, t') ->
  i_bits (SharesTracker.rate r) * value t
    - u_bits (total_shares t) * (2 ^ 65 + 2 ^ 16 * i_bits (SharesTracker.rate r))
  <= 2 ^ 48 * (value t' - value t).
Proof.
  intros Ht Hr H. pose proof Ht as [[Hs _] _].
  apply apply_interest_rate_ok in H as [[Hz ->] | (_ & -> & _)]; [| | done..].
  - unfold value. rewrite Hz. lia.
  - pose proof (price48_bounds t Ht) as [_ Hp]. rewrite value_set_price. unfold value. cbn.
    div_bounds (i_bits (SharesTracker.rate r) * price48 t) (2 ^ 48).
    set (d := i_bits (SharesTracker.rate r) * price48 t / 2 ^ 48) in *.
    set (a := u_bits (atoms_per_share t)) in *.
    assert (Hd : i_bits (SharesTracker.rate r) * a - (2 ^ 65 + 2 ^ 16 * i_bits (SharesTracker.rate r))
                 <= 2 ^ 48 * (2 ^ 16 * (price48 t + d) - a)) by nia.
    apply (Z.mul_le_mono_nonneg_l _ _ _ Hs) in Hd. lia.
Qed.

(** What interest with a fee adds to the supply, fee shares included, from above. *)
Lemma earned_value t r fee s t' :
  tracker_ok t -> 0 <= i_bits (SharesTracker.rate r) -> 0 <= u_bits fee <= 2 ^ 64 ->
  apply_interest_rate_with_fee r fee t = (Ok s, t') ->
  2 ^ 48 * (value t' - value t) <= i_bits (SharesTracker.rate r) * (pool_atoms t + 1) * ATOM.
Proof.
  intros Ht Hr Hf H. pose proof ATOM_pos.
  apply apply_interest_rate_with_fee_ok in H as [(Hz & _ & ->) | Hrun]; [| | done..].
  - rewrite Hz. nia.
  - pose proof (fee_run_value _ _ _ _ _ Ht Hrun) as Hv.
    assert (Hp : value t <= (pool_atoms t + 1) * ATOM)
      by (unfold pool_atoms; div_bounds (value t) ATOM; lia).
    apply (Z.mul_le_mono_nonneg_l _ _ _ Hr) in Hp. lia.
Qed.

(** The rate of the lenders is that of the borrowers spread over the supply. *)
Lemma spread_rate v u r l :
  vault_ok v -> 0 <= i_bits (SharesTracker.rate r) ->
  SupplyVault.utilisation_rate v = Ok u -> adjust_for_utilisation_rate r u = Ok l ->
  0 <= i_bits (SharesTracker.rate l) /\
  i_bits (SharesTracker.rate l) * pool_atoms (supply_shares_tracker v) * ATOM
    <= i_bits (SharesTracker.rate r) * (value (borrow_shares_tracker v) + ATOM).
Proof.
  intros (Hs & Hb & _) Hr Hu Hl. unfold SupplyVault.utilisation_rate in Hu. run_inv.
  match goal with H : total_supply v = Ok ?x |- _ => rename H into HS, x into S end.
  match goal with H : total_borrow v = Ok ?x |- _ => rename H into HB, x into B end.
  apply total_atoms_down_ok in HS as [HS HSu]; [| done]. fold (pool_atoms (supply_shares_tracker v)) in HS.
  unfold total_borrow in HB. rewrite total_atoms_shares in HB.
  pose proof (shares_to_atoms_u64 _ _ _ _ Hb (proj1 Hb) HB) as HBu.
  apply shares_to_atoms_up_ok in HB; [| done | apply Hb].
  fold (value (borrow_shares_tracker v)) in HB. set (V := value (borrow_shares_tracker v)) in *.
  assert (HBV : B * ATOM <= V + ATOM).
  { pose proof (ceil64_bounds (V / 2 ^ 64)). div_bounds V (2 ^ 64). unfold ATOM in *. lia. }
  rewrite <- HS. clear HS HB. set (R := i_bits (SharesTracker.rate r)) in *.
  assert (Hub : 0 <= i_bits u /\ i_bits u * S <= B * 2 ^ 48).
  { unfold compute_utilisation_rate in *. destruct (i_from_ratio B S) as [x | e |] eqn:Er.
    - apply i_from_ratio_ok in Er as [Hnz Hx]; [| done..]. run_inv. rewrite Hx.
      assert (0 < S) by widths_lia. div_bounds (B * 2 ^ 48) S.
      assert (0 <= B * 2 ^ 48 / S) by (apply div_nonneg; widths_lia). lia.
    - destruct (B =? 0) eqn:E; cbn [negb] in *; run_inv. cbn. widths_lia.
    - done. }
  unfold adjust_for_utilisation_rate in Hl. run_inv.
  match goal with H : safe_mul (SharesTracker.rate r) u = Ok _ |- _ =>
    apply i_mul_ok in H as [-> _]; [| fold R; nia] end.
  cbn [SharesTracker.rate i_bits]. fold R. split; [apply div_nonneg; nia |].
  div_bounds (R * i_bits u) (2 ^ 48). set (L := R * i_bits u / 2 ^ 48) in *.
  pose proof ATOM_pos. assert (0 <= S) by widths_lia. assert (0 <= B) by widths_lia.
  assert (Hrb : R * (i_bits u * S) <= R * (B * 2 ^ 48)) by (apply Z.mul_le_mono_nonneg_l; lia).
  assert (Hls : L * S <= R * B) by nia.
  transitivity (R * (B * ATOM)); [nia |]. by apply Z.mul_le_mono_nonneg_l.
Qed.

(** The interest of a period, when the stored rate is not negative. *)
Lemma sync_net ts fee bps v v' :
  vault_ok v -> 0 <= u_bits fee <= 2 ^ 64 -> last_update_unix_timestamp v < ts ->
  SupplyVault.sync_clock ts fee bps v = (Ok tt, v') ->
  0 <= i_bits (per_second (last_borrow_interest_rate v')) ->
  exists u r l,
    SupplyVault.utilisation_rate v = Ok u /\
    coumpounding_interest_rate_during_elapsed_seconds (last_borrow_interest_rate v')
      (as_u64 (ts - last_update_unix_timestamp v)) = Ok r /\
    adjust_for_utilisation_rate r u = Ok l /\ 0 <= i_bits (SharesTracker.rate r) /\
    2 ^ 48 * (net v' - net v)
      <= (i_bits (SharesTracker.rate r) + i_bits (SharesTracker.rate l)) * ATOM
         + borrow_total v * (2 ^ 65 + 2 ^ 16 * i_bits (SharesTracker.rate r)).
Proof.
  intros Hv Hf Ht H Hrate. pose proof Hv as (Hs & Hb & _).
  unfold SupplyVault.sync_clock in H. run_inv. rewrite (proj2 (Z.ltb_lt _ _) Ht) in H0. run_inv.
  cbn [lget lset supply_lens borrow_lens curve_lens set_curve set_borrow set_supply
    borrow_shares_tracker supply_shares_tracker] in *.
  match goal with H : SupplyVault.utilisation_rate v = Ok ?x |- _ => exists x; rename H into Hu end.
  match goal with H : coumpounding_interest_rate_during_elapsed_seconds _ _ = Ok ?x |- _ =>
    exists x; rename H into Hr end.
  match goal with H : adjust_for_utilisation_rate _ _ = Ok ?x |- _ =>
    exists x; rename H into Hl end.
  do 3 (split; [done |]).
  apply compounding_nonneg in Hr as [Hr _]; [| done | unfold as_u64; apply Z.mod_pos_bound; lia].
  split; [done |]. destruct (spread_rate _ _ _ _ Hv Hr Hu Hl) as [Hl0 Hsp].
  match goal with H : apply_interest_rate _ _ = _ |- _ => apply charged_value in H; [| done..] end.
  match goal with H : apply_interest_rate_with_fee _ _ _ = _ |- _ =>
    apply earned_value in H; [| done..] end.
  unfold net, borrow_total. cbn. lia.
Qed.

Lemma fee_fixed_bounds c :
  config_ok c -> 0 <= u_bits (lending_market_fee_fixed c) <= 2 ^ 64.
Proof.
  intros (_ & Hf & _). unfold lending_market_fee_fixed, bps_to_fixed_point, from_u64_u64_ratio.
  cbn [u_bits]. change ONE_IN_BPS with 10000.
  split; [apply div_nonneg; lia | apply div_le_upper; lia].
Qed.

(** C5: lenders and fees earn what borrowers are charged.  When a market accrues the interest
    of a period at a rate that is not negative, the claims of lenders and fees grow by no
    more than the debts, up to the roundings: the compounded rate [r] on one atom, because
    the utilisation takes the debt rounded up, the rate of the lenders [l] on one atom, because it
    takes the supply rounded down, and [2 ^ -47 + r * 2 ^ -48] atoms per borrowed share. *)
Theorem interest_is_paid_by_borrowers ts m m' :
  market_ok m -> config_ok (config m) ->
  last_update_unix_timestamp (supply_vault m) < ts ->
  Market.sync_clock ts m = (Ok tt, m') ->
  0 <= i_bits (per_second (last_borrow_interest_rate (supply_vault m'))) ->
  exists u r l,
    SupplyVault.utilisation_rate (supply_vault m) = Ok u /\
    coumpounding_interest_rate_during_elapsed_seconds
      (last_borrow_interest_rate (supply_vault m'))
      (as_u64 (ts - last_update_unix_timestamp (supply_vault m))) = Ok r /\
    adjust_for_utilisation_rate r u = Ok l /\ 0 <= i_bits (SharesTracker.rate r) /\
    2 ^ 48 * (net (supply_vault m') - net (supply_vault m))
      <= (i_bits (SharesTracker.rate r) + i_bits (SharesTracker.rate l)) * ATOM
         + borrow_total (supply_vault m) * (2 ^ 65 + 2 ^ 16 * i_bits (SharesTracker.rate r)).
Proof.
  intros Hm Hc Ht H Hr. unfold Market.sync_clock in H. run_inv. cbn [lget lset vault_lens] in *.
  eapply sync_net; [apply Hm | by apply fee_fixed_bounds | done | eassumption | done].
Qed.

End Interest.

(** A year of interest on the loan of the example. *)
Definition accrued : Market := snd (Market.sync_clock (FX := fixed_ref) 31536000 (fst borrowed)).

Lemma interest_is_paid_witness :
  exists u r l,
    SupplyVault.utilisation_rate (FX := fixed_ref) (supply_vault (fst borrowed)) = Ok u /\
    adjust_for_utilisation_rate (FX := fixed_ref) r u = Ok l /\
    2 ^ 48 * (net (supply_vault accrued) - net (supply_vault (fst borrowed)))
      <= (i_bits (SharesTracker.rate r) + i_bits (SharesTracker.rate l)) * ATOM
         + borrow_total (supply_vault (fst borrowed))
           * (2 ^ 65 + 2 ^ 16 * i_bits (SharesTracker.rate r)).
Proof.
  destruct (interest_is_paid_by_borrowers (FX := fixed_ref) (FXL := fixed_ref_laws)
    31536000 (fst borrowed) accrued) as (u & r & l & Hu & _ & Hl & _ & H).
  - apply borrowed_ok.
  - repeat split; vm_compute; discriminate.
  - vm_compute. reflexivity.
  - vm_compute. reflexivity.
  - vm_compute. discriminate.
  - exists u, r, l. split; [exact Hu |]. split; [exact Hl | exact H].
Defined.
