(* ===== verification/Protocol.v ===== *)
(** * A market and all its positions

    The state machine that the instructions of the program drive: one market, the supply
    and the borrow positions opened on it, and the operations on them in any order, with
    any amounts, clock values and prices.  An instruction that fails leaves no trace (the
    transaction is rolled back), so only successful operations are steps.

    The invariant [accounted] says that the totals of the market are the sums over the
    positions: nobody's shares or collateral appear or disappear. *)
From stdpp Require Import gmap fin_maps.
From S2P Require Import Prelude.
From S2P Require Import Errors.
From S2P Require Import Monad.
From S2P Require Import FixedPoint.
From S2P Require Import FixedFacts.
From S2P Require Import SharesTracker.
From S2P Require Import Pda.
From S2P Require Import OracleRate.
From S2P Require Import Oracle.
From S2P Require Import GlobalConfig.
From S2P Require Import MarketConfig.
From S2P Require Import SupplyPosition.
From S2P Require Import BorrowPosition.
From S2P Require Import PositionFacts.
From S2P Require Import CollateralVault.
From S2P Require Import SupplyVault.
From S2P Require Import Market.
From S2P Require Import Creation.

(** ** Sums over the positions *)

Section Sums.
Context {A : Type} (f : A -> Z).

Definition map_sum (m : gmap Pubkey A) : Z := map_fold (fun _ a acc => f a + acc) 0 m.

Lemma map_sum_empty : map_sum ∅ = 0.
Proof. apply map_fold_empty. Qed.

Lemma map_sum_new m k a : m !! k = None -> map_sum (<[k := a]> m) = f a + map_sum m.
Proof.
  intros Hk. unfold map_sum. rewrite map_fold_insert_L; [done | | done].
  intros. lia.
Qed.

Lemma map_sum_update m k a b :
  m !! k = Some a -> map_sum (<[k := b]> m) = map_sum m - f a + f b.
Proof.
  intros Hk. rewrite <- (insert_delete_id m k a Hk) at 2.
  rewrite <- (insert_delete_eq m k b).
  rewrite !map_sum_new by apply lookup_delete_eq. lia.
Qed.

Lemma map_sum_bound m k a :
  map_Forall (fun _ x => 0 <= f x) m -> m !! k = Some a -> 0 <= f a <= map_sum m.
Proof.
  revert k a. induction m as [| i x m Hi IH] using map_ind; intros k a Hall Hk.
  - by rewrite lookup_empty in Hk.
  - apply map_Forall_insert in Hall as [Hx Hall]; [| done].
    rewrite map_sum_new by done.
    assert (Hnn : 0 <= map_sum m).
    { clear -Hall. induction m as [| j y m Hj IH] using map_ind.
      - by rewrite map_sum_empty.
      - apply map_Forall_insert in Hall as [Hy Hall]; [| done].
        rewrite map_sum_new by done. specialize (IH Hall). lia. }
    destruct (decide (k = i)) as [-> | Hne].
    + rewrite lookup_insert_eq in Hk. simplify_eq. lia.
    + rewrite lookup_insert_ne in Hk by done. specialize (IH k a Hall Hk). lia.
Qed.

End Sums.

(** ** States and operations *)

Record Protocol : Type := mkProtocol {
  the_market : Market;
  suppliers : gmap Pubkey SupplyPosition;
  borrowers : gmap Pubkey BorrowPosition }.

(** Instructions on the market alone: the clock, the fees, donations, the parts of
    [UpdateConfig], and the number of whitelisted liquidators. *)
Inductive MarketOp : Type :=
| SyncClock (unix_timestamp : Z)
| RedeemProtocolFees
| RedeemCuratorFees
| DonateSupply (atoms : Z)
| SetSupplyOracle (c : OracleConfig)
| SetCollateralOracle (c : OracleConfig)
| UpdateLtv (l : LtvConfig)
| UpdateMaxUtilisation (r : IFixedPoint)
| UpdateMaxSupply (atoms : Z)
| SetFee (bps : Z)
| SyncGlobalConfig (g : GlobalConfig)
| AddLiquidator
| RemoveLiquidator.

Inductive SupplyOp : Type :=
| Lend (atoms : Z)
| Withdraw (atoms : Z)
| WithdrawAll.

Inductive BorrowOp : Type :=
| DepositCollateral (atoms : Z)
| WithdrawCollateral (atoms : Z) (collateral_oracle supply_oracle : OracleRate)
| Borrow (atoms : Z) (supply_oracle collateral_oracle : OracleRate)
| Repay (atoms : Z)
| RepayAll
| Liquidate (collateral_oracle supply_oracle : OracleRate) (max_repay : Z)
| BeginSweep (collateral_oracle supply_oracle : OracleRate)
| SettleSweep (collateral_oracle supply_oracle : OracleRate) (max_repay max_return : Z)
| SocializeLoss (collateral_oracle supply_oracle : OracleRate).

(** Amounts are unsigned. *)
Definition market_args (o : MarketOp) : Prop :=
  match o with
  | DonateSupply a | SetFee a => 0 <= a
  | SyncGlobalConfig g => 0 <= GlobalConfig.protocol_fee_share_in_bps g
  | _ => True
  end.
Definition supply_args (o : SupplyOp) : Prop :=
  match o with Lend a | Withdraw a => 0 <= a | WithdrawAll => True end.
Definition borrow_args (o : BorrowOp) : Prop :=
  match o with
  | Borrow a _ _ | Repay a => 0 <= a
  | Liquidate _ _ n | SettleSweep _ _ n _ => 0 <= n
  | _ => True
  end.

(** The result of an operation is dropped: the machine follows the state. *)
Definition drop_result {S A} (m : ST S A) : ST S () := m ;;; st_ret tt.

Section Machine.
Context {FX : FixedCrate}.

Definition run_market (o : MarketOp) : ST Market () :=
  match o with
  | SyncClock ts => Market.sync_clock ts
  | RedeemProtocolFees => drop_result Market.redeem_protocol_fees
  | RedeemCuratorFees => drop_result redeem_curator_fess
  | DonateSupply a => donate_supply_atoms a
  | SetSupplyOracle c => set_supply_oracle_config c
  | SetCollateralOracle c => set_collateral_oracle_config c
  | UpdateLtv l => zoom config_lens (update_ltv l)
  | UpdateMaxUtilisation r => zoom config_lens (update_max_utilisation_rate r)
  | UpdateMaxSupply a => zoom config_lens (update_max_supply_atoms a)
  | SetFee b => zoom config_lens (set_lending_market_fee b)
  | SyncGlobalConfig g => zoom config_lens (sync_global_config g)
  | AddLiquidator => zoom config_lens increment_active_whitelisted_liquidators
  | RemoveLiquidator => zoom config_lens decrement_active_whitelisted_liquidators
  end.

Definition run_supply (o : SupplyOp) : ST (Market * SupplyPosition) () :=
  match o with
  | Lend a => Market.lend a
  | Withdraw a => Market.withdraw a
  | WithdrawAll => drop_result Market.withdraw_all
  end.

Definition run_borrow (o : BorrowOp) : ST (Market * BorrowPosition) () :=
  match o with
  | DepositCollateral a => Market.deposit_collateral a
  | WithdrawCollateral a co so => Market.withdraw_collateral a co so
  | Borrow a so co => Market.borrow a so co
  | Repay a => Market.repay a
  | RepayAll => drop_result Market.repay_all
  | Liquidate co so n => drop_result (Market.liquidate co so n)
  | BeginSweep co so => drop_result (Market.begin_capital_sweep co so)
  | SettleSweep co so n c => drop_result (Market.settle_capital_sweep co so n c)
  | SocializeLoss co so => drop_result (Market.socialize_loss co so)
  end.

Inductive step : Protocol -> Protocol -> Prop :=
| step_open_supply m ss bs k owner mk p :
    ss !! k = None -> SupplyPosition.initialize owner mk zero_supply_position = (Ok tt, p) ->
    step (mkProtocol m ss bs) (mkProtocol m (<[k := p]> ss) bs)
| step_open_borrow m ss bs k owner mk p :
    bs !! k = None -> BorrowPosition.initialize owner mk zero_borrow_position = (Ok tt, p) ->
    step (mkProtocol m ss bs) (mkProtocol m ss (<[k := p]> bs))
| step_market m ss bs o m' :
    market_args o -> run_market o m = (Ok tt, m') ->
    step (mkProtocol m ss bs) (mkProtocol m' ss bs)
| step_supply m ss bs k p o m' p' :
    ss !! k = Some p -> supply_args o -> run_supply o (m, p) = (Ok tt, (m', p')) ->
    step (mkProtocol m ss bs) (mkProtocol m' (<[k := p']> ss) bs)
| step_borrow m ss bs k p o m' p' :
    bs !! k = Some p -> borrow_args o -> run_borrow o (m, p) = (Ok tt, (m', p')) ->
    step (mkProtocol m ss bs) (mkProtocol m' ss (<[k := p']> bs)).

(** The states reachable from the creation of the market. *)
Inductive reachable : Protocol -> Prop :=
| reach_created a g ts m :
    is_u8 (cm_supply_decimals a) -> is_u8 (cm_collateral_decimals a) ->
    0 <= cm_fee_in_bps a -> 0 <= GlobalConfig.protocol_fee_share_in_bps g ->
    create_market_state a g ts zero_market = (Ok tt, m) ->
    reachable (mkProtocol m ∅ ∅)
| reach_step s s' : reachable s -> step s s' -> reachable s'.

End Machine.

(** ** The invariant *)

Record accounted (s : Protocol) : Prop := {
  acc_market : market_ok (the_market s);
  acc_suppliers : map_Forall (fun _ p => supply_position_ok p) (suppliers s);
  acc_borrowers : map_Forall (fun _ p => borrower_ok p) (borrowers s);
  acc_shares : map_sum (fun p => u_bits (shares p)) (suppliers s)
               = free_shares (supply_vault (the_market s));
  acc_debt : map_sum (fun p => u_bits (borrowed_shares p)) (borrowers s)
             = borrow_total (supply_vault (the_market s));
  acc_collateral : map_sum collateral_deposited_atoms (borrowers s)
                   = collateral_total (the_market s) }.

Section Invariant.
Context {FX : FixedCrate} {FXL : FixedLaws FX}.

Lemma drop_result_ok {S A} (m : ST S A) s s' :
  drop_result m s = (Ok tt, s') -> exists a, m s = (Ok a, s').
Proof. intros H. unfold drop_result in H. run_inv. eauto. Qed.

Lemma config_effect m c :
  market_ok m -> 0 <= MarketConfig.protocol_fee_share_in_bps c ->
  market_effect m (set_config c m).
Proof. intros (Hv & Hc & Hf) Hs. by split. Qed.

Lemma run_market_effect o m m' :
  market_ok m -> market_args o -> run_market o m = (Ok tt, m') -> market_effect m m'.
Proof.
  intros Hm Ha H.
  destruct o; cbn [run_market market_args run_supply supply_args run_borrow borrow_args] in H, Ha;
    try (apply drop_result_ok in H as [n H]);
    [ by apply sync_clock_effect in H as [He _]
    | by apply redeem_protocol_fees_effect in H as [He _]
    | by apply redeem_curator_fees_effect in H as [He _]
    | by apply donate_effect in H as [He _]
    | .. ].
  all: unfold set_supply_oracle_config, set_collateral_oracle_config, SupplyVault.set_oracle_config,
    CollateralVault.set_oracle_config, update_max_supply_atoms, sync_global_config,
    increment_active_whitelisted_liquidators, decrement_active_whitelisted_liquidators in H;
    run_inv.
  - destruct Hm as (Hv & Hc & Hf). split; [split; [exact Hv | done] | done..].
  - destruct Hm as (Hv & Hc & Hf). split; [split; [exact Hv | done] | done..].
  - apply update_ltv_ok in H as (_ & -> & _). apply config_effect; [done | apply Hm].
  - apply update_max_utilisation_ok in H as [-> _]. apply config_effect; [done | apply Hm].
  - apply config_effect; [done | apply Hm].
  - unfold set_lending_market_fee in H. run_inv. apply config_effect; [done | apply Hm].
  - apply config_effect; [done | apply Ha].
  - apply config_effect; [done | apply Hm].
  - apply config_effect; [done | apply Hm].
Qed.

Lemma run_supply_effect o m p m' p' :
  market_ok m -> supply_position_ok p -> supply_args o ->
  run_supply o (m, p) = (Ok tt, (m', p')) -> supply_effect m p m' p'.
Proof.
  intros Hm Hp Ha H. destruct o; cbn [run_market market_args run_supply supply_args run_borrow borrow_args] in H, Ha; try (apply drop_result_ok in H as [n H]);
    [ by apply lend_effect in H as [He _] | by apply withdraw_effect in H as [He _]
    | by apply withdraw_all_effect in H as [He _] ].
Qed.

Lemma run_borrow_effect o m p m' p' :
  market_ok m -> borrower_ok p -> borrow_args o ->
  run_borrow o (m, p) = (Ok tt, (m', p')) -> borrow_effect m p m' p'.
Proof.
  intros Hm Hp Ha H. destruct o; cbn [run_market market_args run_supply supply_args run_borrow borrow_args] in H, Ha; try (apply drop_result_ok in H as [n H]);
    [ by apply deposit_collateral_effect in H
    | by apply withdraw_collateral_effect in H as [He _]
    | by apply borrow_op_effect in H as [He _]
    | by apply repay_effect in H
    | by apply repay_all_effect in H as [He _]
    | by apply liquidate_effect in H as [He _]
    | by apply begin_sweep_effect in H as [He _]
    | by apply settle_sweep_effect in H as [He _]
    | destruct n; by apply socialize_loss_effect in H as [He _] ].
Qed.

Lemma step_accounted s s' : step s s' -> accounted s -> accounted s'.
Proof.
  intros Hst [Hm Hss Hbs Hsh Hd Hc].
  destruct Hst as [m ss bs k ow mk p Hk Hp | m ss bs k ow mk p Hk Hp | m ss bs o m' Ha H
    | m ss bs k p o m' p' Hk Ha H | m ss bs k p o m' p' Hk Ha H]; cbn in *.
  - unfold SupplyPosition.initialize in Hp. run_inv.
    split; cbn; try done; [by apply map_Forall_insert_2 | by rewrite map_sum_new].
  - unfold BorrowPosition.initialize in Hp. run_inv.
    split; cbn; try done; try by rewrite map_sum_new.
    apply map_Forall_insert_2; [| done]. split; [done | by left].
  - apply run_market_effect in H as [Hm' Hf Hb Hcol]; [| done..].
    split; cbn; try done; congruence.
  - apply run_supply_effect in H as [Hm' Hp' _ _ Hf Hb Hcol]; [| done | | done];
      [| by apply (Hss k)].
    split; cbn; try done; [by apply map_Forall_insert_2 | | congruence..].
    rewrite (map_sum_update _ _ _ _ _ Hk). lia.
  - apply run_borrow_effect in H as [Hm' Hp' _ _ Hf Hb Hcol]; [| done | | done];
      [| by apply (Hbs k)].
    split; cbn; try done; [by apply map_Forall_insert_2 | congruence | |];
      rewrite (map_sum_update _ _ _ _ _ Hk); lia.
Qed.

Lemma created_accounted a g ts m :
  is_u8 (cm_supply_decimals a) -> is_u8 (cm_collateral_decimals a) ->
  0 <= cm_fee_in_bps a -> 0 <= GlobalConfig.protocol_fee_share_in_bps g ->
  create_market_state a g ts zero_market = (Ok tt, m) -> accounted (mkProtocol m ∅ ∅).
Proof.
  intros Hs Hc Hf Hg H.
  destruct (create_market_ok a g ts m Hs Hc Hf Hg H)
    as (Hm & _ & _ & _ & _ & _ & Hfree & Hb & _ & Hcol).
  split; cbn; rewrite ?map_sum_empty; done.
Qed.

Lemma reachable_accounted s : reachable s -> accounted s.
Proof.
  induction 1 as [a g ts m Hs Hc Hf Hg H | s s' _ IH Hst];
    [by eapply created_accounted | by eapply step_accounted].
Qed.

(** ** The configuration *)

Definition configured (m : Market) : Prop := config_ok (config m) /\ decimals_ok m.

Lemma same_market_configured m m' : same_market m m' -> configured m -> configured m'.
Proof.
  intros (Hc & (_ & Hd & _ & _) & _ & Hd' & _) [Hok [H1 H2]]. split; [by rewrite Hc |].
  unfold decimals_ok, SupplyVault.mint_decimals, CollateralVault.mint_decimals in *.
  by rewrite Hd, Hd'.
Qed.

Lemma run_market_configured o m m' :
  market_ok m -> market_args o -> run_market o m = (Ok tt, m') ->
  configured m -> configured m'.
Proof.
  intros Hm Ha H Hcf.
  destruct o; cbn [run_market market_args] in H, Ha; try (apply drop_result_ok in H as [n H]);
    [ apply sync_clock_effect in H as [_ Hs]; [| done]; by eapply same_market_configured
    | apply redeem_protocol_fees_effect in H as (_ & Hs & _); [| done];
      by eapply same_market_configured
    | apply redeem_curator_fees_effect in H as (_ & Hs & _); [| done];
      by eapply same_market_configured
    | apply donate_effect in H as [_ Hs]; [| done..]; by eapply same_market_configured
    | unfold set_supply_oracle_config, SupplyVault.set_oracle_config in H; by run_inv
    | unfold set_collateral_oracle_config, CollateralVault.set_oracle_config in H; by run_inv
    | .. ].
  all: apply zoom_ok in H as (c & H & ->); cbn [lget lset config_lens] in *.
  all: destruct Hcf as [(Hl & Hf & Hu) Hd]; split; [| exact Hd]; cbn.
  - by apply update_ltv_ok in H as (Hl' & -> & _).
  - by apply update_max_utilisation_ok in H as [-> Hu'].
  - unfold update_max_supply_atoms in H. by run_inv.
  - by apply set_fee_ok in H as [-> Hf'].
  - unfold sync_global_config in H. by run_inv.
  - unfold increment_active_whitelisted_liquidators in H. by run_inv.
  - unfold decrement_active_whitelisted_liquidators in H. by run_inv.
Qed.

Lemma reachable_configured s : reachable s -> configured (the_market s).
Proof.
  induction 1 as [a g ts m Hs Hc Hf Hg H | s s' Hr IH Hst].
  - by destruct (create_market_ok a g ts m Hs Hc Hf Hg H) as (_ & Hcf & Hd & _).
  - apply reachable_accounted in Hr as [Hm Hss Hbs _ _ _].
    destruct Hst as [| | m ss bs o m' Ha H | m ss bs k p o m' p' Hk Ha H
      | m ss bs k p o m' p' Hk Ha H]; cbn in *; try done.
    + by eapply run_market_configured.
    + apply run_supply_effect in H as [_ _ Hs _ _ _ _]; [| done | by apply (Hss k) | done].
      by eapply same_market_configured.
    + apply run_borrow_effect in H as [_ _ Hs _ _ _ _]; [| done | by apply (Hbs k) | done].
      by eapply same_market_configured.
Qed.

End Invariant.

(** * What holds in every reachable state of a market

    The totals are the sums over the positions, and therefore nobody is locked in: debt can
    always be repaid in full, and without debt every lender can leave. *)

Section Props.
Context {FX : FixedCrate} {FXL : FixedLaws FX}.

(** C35: in every reachable state the totals of a market are the sums over its positions:
    the shares of the lenders and the pending fees add up to the supply shares, the debt
    shares of the borrowers to the borrow shares, their collateral to the total
    collateral; and no position holds collateral while its collateral is swept. *)
Theorem totals_are_the_sums_of_the_positions s :
  reachable s ->
  map_sum (fun p => u_bits (shares p)) (suppliers s)
    + u_bits (pending_protocol_fee_shares (supply_vault (the_market s)))
    + u_bits (pending_curator_fee_shares (supply_vault (the_market s)))
  = u_bits (total_shares (supply_shares_tracker (supply_vault (the_market s)))) /\
  map_sum (fun p => u_bits (borrowed_shares p)) (borrowers s)
  = u_bits (total_shares (borrow_shares_tracker (supply_vault (the_market s)))) /\
  map_sum collateral_deposited_atoms (borrowers s)
  = total_collateral_atoms (collateral_vault (the_market s)) /\
  map_Forall (fun _ p => swept_collateral_atoms p = 0 \/ collateral_deposited_atoms p = 0)
    (borrowers s).
Proof.
  intros Hr. apply reachable_accounted in Hr as [Hm Hs Hb Hsh Hd Hc].
  rewrite Hsh, Hd, Hc. unfold free_shares, supply_total, pending_fees.
  split; [lia |]. do 2 (split; [done |]). intros k p Hk. by apply (Hb k).
Qed.

Lemma borrowed_le_total s k p :
  accounted s -> borrowers s !! k = Some p ->
  u_bits (borrowed_shares p) <= borrow_total (supply_vault (the_market s)).
Proof.
  intros Ha Hk. rewrite <- (acc_debt s Ha).
  eapply (map_sum_bound (fun p => u_bits (borrowed_shares p))); [| exact Hk].
  intros k' p' Hk'. destruct (acc_borrowers s Ha k' p' Hk') as [(_ & _ & [Hok _] & _) _]. done.
Qed.

Lemma shares_le_total s k p :
  accounted s -> suppliers s !! k = Some p ->
  u_bits (shares p) <= supply_total (supply_vault (the_market s)).
Proof.
  intros Ha Hk.
  assert (u_bits (shares p) <= free_shares (supply_vault (the_market s))).
  { rewrite <- (acc_shares s Ha).
    eapply (map_sum_bound (fun p => u_bits (shares p))); [| exact Hk].
    intros k' p' Hk'. destruct (acc_suppliers s Ha k' p' Hk') as [_ [Hok _]]. done. }
  destruct (acc_market s Ha) as [(_ & _ & [Hp _] & [Hc _]) _].
  unfold free_shares, pending_fees in *. lia.
Qed.

(** C36: a borrower can repay in full as long as the debt of the market can be counted: in
    every reachable state in which the value of all the debt fits [u64] ([total_borrow] gives
    it), [repay_all] on an open position that is not swept succeeds, takes the value of the
    debt rounded up and leaves the position without debt, its collateral untouched. *)
Theorem debt_can_always_be_repaid s k p total :
  reachable s -> borrowers s !! k = Some p -> swept_collateral_atoms p = 0 ->
  total_borrow (supply_vault (the_market s)) = Ok total ->
  exists n m' p',
    Market.repay_all (the_market s, p) = (Ok n, (m', p')) /\
    borrow_shares_to_atoms (supply_vault (the_market s)) (borrowed_shares p) = Ok n /\
    borrowed_shares p' = u_zero /\ initial_borrowed_atoms p' = 0 /\
    collateral_deposited_atoms p' = collateral_deposited_atoms p.
Proof.
  intros Hr Hk Hsw Ht. pose proof (reachable_accounted s Hr) as Ha.
  pose proof (borrowed_le_total s k p Ha Hk) as Hle.
  destruct (acc_borrowers s Ha k p Hk) as [(_ & _ & Hu & _) _].
  destruct (acc_market s Ha) as [(_ & Hbt & _) _].
  destruct (withdraw_shares_succeeds _ _ RoundUp _ _ Hbt Hu Hle Ht) as [n Hw].
  exists n. unfold Market.repay_all, ensure_unswept, ensure_capital_sweep_inactive,
    capital_sweep_pending, on_vault, repay_shares, zoom, st_bind, st_get, st_lift.
  cbn -[SharesTracker.withdraw_shares]. rewrite Hsw. cbn -[SharesTracker.withdraw_shares].
  rewrite Hw. cbn.
  eexists _, _. split; [done |]. split; [| done].
  apply withdraw_shares_ok in Hw as [Hn _]; done.
Qed.

Lemma zero_shares_are_worth_nothing t s r :
  tracker_ok t -> u_bits s = 0 -> shares_to_atoms t s r = Ok 0.
Proof.
  intros [_ Hp] Hs. unfold shares_to_atoms.
  assert (safe_mul s (atoms_per_share t) = Ok (UFP 0)) as ->.
  { apply u_mul_ok; [widths_lia.. | rewrite Hs; split; [done | vm_compute; congruence]]. }
  destruct r; [by apply u_round_down_ok | by apply u_round_up_ok].
Qed.

Lemma no_debt_no_utilisation s : is_u64 s -> compute_utilisation_rate 0 s = Ok i_zero.
Proof.
  intros Hs. unfold compute_utilisation_rate, i_from_ratio.
  rewrite !i_from_num_u64 by widths_lia. cbn [res_bind].
  destruct (Z.eq_dec s 0) as [-> | Hnz]; [by rewrite i_div_zero |].
  assert (safe_div (i_from_u64 0) (i_from_u64 s) = Ok i_zero) as ->; [| done].
  apply i_div_ok; cbn; [lia | widths_lia |]. split; [lia |].
  rewrite Z.div_0_l by lia. done.
Qed.

Lemma no_debt_check_reserves v s :
  tracker_ok (borrow_shares_tracker v) -> tracker_ok (supply_shares_tracker v) ->
  borrow_total v = 0 -> total_supply v = Ok s -> check_reserves v = Ok tt.
Proof.
  intros Hb Hst H0 Hs. unfold check_reserves, SupplyVault.utilisation_rate. rewrite Hs.
  cbn [res_bind]. unfold total_borrow. rewrite total_atoms_shares.
  rewrite zero_shares_are_worth_nothing by done. cbn [res_bind].
  rewrite no_debt_no_utilisation; [done |].
  eapply shares_to_atoms_u64; [exact Hst | | exact Hs]. apply Hst.
Qed.

(** C37: when nothing is borrowed, every lender can leave as long as the supply can be counted:
    in every reachable state with no debt in which the value of all the supply fits [u64]
    ([total_supply] gives it), [withdraw_all] succeeds on every position, pays the value of its
    shares rounded down and empties it. *)
Theorem lenders_can_leave_without_debt s k p total :
  reachable s -> suppliers s !! k = Some p ->
  borrow_total (supply_vault (the_market s)) = 0 ->
  total_supply (supply_vault (the_market s)) = Ok total ->
  exists n m' p',
    Market.withdraw_all (the_market s, p) = (Ok n, (m', p')) /\
    supply_position_info (the_market s) p = Ok n /\
    shares p' = u_zero /\ deposited_atoms p' = 0.
Proof.
  intros Hr Hk Hnb Ht. pose proof (reachable_accounted s Hr) as Ha.
  pose proof (shares_le_total s k p Ha Hk) as Hle.
  destruct (acc_suppliers s Ha k p Hk) as [_ Hu].
  destruct (acc_market s Ha) as [(Hst & Hbt & _) _].
  destruct (withdraw_shares_succeeds _ _ RoundDown _ _ Hst Hu Hle Ht) as [n Hw].
  exists n. unfold Market.withdraw_all, SupplyVault.withdraw_shares, on_vault, zoom, st_bind,
    st_get, st_lift. cbn -[SharesTracker.withdraw_shares check_reserves]. rewrite Hw.
  cbn -[check_reserves].
  pose proof (withdraw_shares_ok _ _ _ _ _ Hst Hu Hw) as (Hn & _ & Hok).
  set (t := supply_shares_tracker (supply_vault (the_market s))) in *.
  set (rest := UFP (u_bits (total_shares t) - u_bits (shares p))) in *.
  destruct (shares_to_atoms_defined t rest RoundDown RoundDown total Hst) as [x Hx];
    [apply Hok | destruct Hu; cbn; lia | exact Ht |].
  rewrite (no_debt_check_reserves _ x); [| done..].
  eexists _, _. split; [reflexivity | done].
Qed.

End Props.

(** ** Witnesses: the market of the example with its lender and its borrower *)

#[local] Existing Instance fixed_ref.
#[local] Existing Instance fixed_ref_laws.

Definition k_lender : Pubkey := key_ex 30.
Definition k_borrower : Pubkey := key_ex 31.
Definition state_0 : Protocol := mkProtocol market_0 ∅ ∅.
Definition state_lent : Protocol := mkProtocol (fst lent) {[k_lender := snd lent]} ∅.
Definition state_borrowed : Protocol :=
  mkProtocol (fst borrowed) {[k_lender := snd lent]} {[k_borrower := snd borrowed]}.

Lemma state_0_reachable : reachable state_0.
Proof.
  apply (reach_created create_ex global_ex 1000);
    [vm_compute; split; congruence.. | vm_compute; congruence | vm_compute; congruence |].
  vm_compute. reflexivity.
Qed.

Lemma reach_supply m ss bs k p o m' p' :
  reachable (mkProtocol m (<[k := p]> ss) bs) -> supply_args o ->
  run_supply o (m, p) = (Ok tt, (m', p')) -> reachable (mkProtocol m' (<[k := p']> ss) bs).
Proof.
  intros Hr Ha H. eapply reach_step; [exact Hr |]. rewrite <- (insert_insert_eq ss k p' p).
  eapply step_supply; [apply lookup_insert_eq | exact Ha | exact H].
Qed.

Lemma reach_borrow m ss bs k p o m' p' :
  reachable (mkProtocol m ss (<[k := p]> bs)) -> borrow_args o ->
  run_borrow o (m, p) = (Ok tt, (m', p')) -> reachable (mkProtocol m' ss (<[k := p']> bs)).
Proof.
  intros Hr Ha H. eapply reach_step; [exact Hr |]. rewrite <- (insert_insert_eq bs k p' p).
  eapply step_borrow; [apply lookup_insert_eq | exact Ha | exact H].
Qed.

Lemma state_lent_reachable : reachable state_lent.
Proof.
  apply (reach_supply market_0 ∅ ∅ k_lender lender_0 (Lend 1000000000));
    [| vm_compute; congruence | vm_compute; reflexivity].
  eapply reach_step; [apply state_0_reachable |].
  apply (step_open_supply _ _ _ k_lender (key_ex 20) (key_ex 8)); reflexivity.
Qed.

Lemma state_borrowed_reachable : reachable state_borrowed.
Proof.
  apply (reach_borrow (fst deposited) _ ∅ k_borrower (snd deposited)
    (Borrow 500000000 supply_rate good_rate));
    [| vm_compute; congruence | vm_compute; reflexivity].
  apply (reach_borrow (fst lent) _ ∅ k_borrower borrower_0 (DepositCollateral 1000000000));
    [| done | vm_compute; reflexivity].
  eapply reach_step; [apply state_lent_reachable |].
  apply (step_open_borrow _ _ _ k_borrower (key_ex 21) (key_ex 8)); reflexivity.
Qed.

Lemma totals_are_the_sums_witness :
  map_sum collateral_deposited_atoms (borrowers state_borrowed) = 1000000000.
Proof.
  destruct (totals_are_the_sums_of_the_positions state_borrowed state_borrowed_reachable)
    as (_ & _ & H & _).
  exact H.
Defined.

Lemma debt_can_always_be_repaid_witness :
  exists n m' p', Market.repay_all (fst borrowed, snd borrowed) = (Ok n, (m', p')) /\
    borrowed_shares p' = u_zero.
Proof.
  destruct (debt_can_always_be_repaid state_borrowed k_borrower (snd borrowed) 500000000
    state_borrowed_reachable) as (n & m' & p' & H & _ & Hz & _).
  - apply lookup_singleton_eq.
  - reflexivity.
  - vm_compute. reflexivity.
  - exists n, m', p'. split; [exact H | exact Hz].
Defined.

Lemma lenders_can_leave_witness :
  exists n m' p', Market.withdraw_all (fst lent, snd lent) = (Ok n, (m', p')) /\
    shares p' = u_zero.
Proof.
  destruct (lenders_can_leave_without_debt state_lent k_lender (snd lent) 1000000000
    state_lent_reachable) as (n & m' & p' & H & _ & Hz & _).
  - apply lookup_singleton_eq.
  - vm_compute. reflexivity.
  - vm_compute. reflexivity.
  - exists n, m', p'. split; [exact H | exact Hz].
Defined.
