(* ===== verification/ProgramErrors.v ===== *)
(** * Errors of the program

    [programs/autara-program/src/error.rs] and the error type of
    [autara-program-lib/src/accounts/mod.rs].  [ProgramError] is the type of the
    [arch_program] crate: the variants that the programs name are constructors here, and
    [Other] stands for the rest, by number.  Messages and stacks are diagnostics and not
    modelled. *)
From S2P Require Import Prelude.
From S2P Require Import Errors.
From S2P Require Import Monad.

Inductive ProgramError : Type :=
| Custom (code : Z)
| InvalidInstructionData
| MissingRequiredSignature
| NotEnoughAccountKeys
| IncorrectAuthority
| InvalidArgument
| InvalidAccountData
| IllegalOwner
| IncorrectProgramId
| AccountDataTooSmall
| AccountAlreadyInitialized
| AccountBorrowFailed
| ArithmeticOverflow
| Other (n : Z).

Inductive AccountValidationError : Type :=
| NotSigner
| InvalidData
| InvalidOwner
| InvalidKey
| AlreadyLoaded
| NotWritable
| AccountNotInitialized.

Module Validation.
Inductive LendingAccountValidationError : Type :=
| InvalidAuthority
| InvalidMarketAuthority
| InvalidMarket
| InvalidMarketVault
| InvalidMintForTokenAccount
| InvalidProtocolAuthority
| InvalidLiquidatorWhitelistEntry
| MissingLiquidatorWhitelistEntry
| LiquidatorNotWhitelisted.
End Validation.
Notation LendingAccountValidationError := Validation.LendingAccountValidationError.

Inductive LendingProgramErrorKind : Type :=
| KProgramError (e : ProgramError)
| KAccountValidationError (e : AccountValidationError)
| KLendingAccountValidationError (e : LendingAccountValidationError)
| KLendingError (e : LendingError).

#[global] Instance ProgramError_eq_dec : EqDecision ProgramError.
Proof. solve_decision. Defined.
#[global] Instance AccountValidationError_eq_dec : EqDecision AccountValidationError.
Proof. solve_decision. Defined.
#[global] Instance LendingAccountValidationError_eq_dec :
  EqDecision LendingAccountValidationError.
Proof. solve_decision. Defined.
#[global] Instance LendingProgramErrorKind_eq_dec : EqDecision LendingProgramErrorKind.
Proof. solve_decision. Defined.

(** The discriminants, [err as u32], and [try_from(u8)] of the [TryFromPrimitive] derive. *)
Definition all_account_errors : list AccountValidationError :=
  [NotSigner; InvalidData; InvalidOwner; InvalidKey; AlreadyLoaded; NotWritable;
   AccountNotInitialized].
Definition account_error_code (e : AccountValidationError) : Z :=
  match e with
  | NotSigner => 0 | InvalidData => 1 | InvalidOwner => 2 | InvalidKey => 3
  | AlreadyLoaded => 4 | NotWritable => 5 | AccountNotInitialized => 6
  end.
Definition account_error_of_code (c : Z) : option AccountValidationError :=
  if 0 <=? c then all_account_errors !! Z.to_nat c else None.

Definition all_validation_errors : list LendingAccountValidationError :=
  [Validation.InvalidAuthority; Validation.InvalidMarketAuthority; Validation.InvalidMarket;
   Validation.InvalidMarketVault; Validation.InvalidMintForTokenAccount;
   Validation.InvalidProtocolAuthority; Validation.InvalidLiquidatorWhitelistEntry;
   Validation.MissingLiquidatorWhitelistEntry; Validation.LiquidatorNotWhitelisted].
Definition validation_error_code (e : LendingAccountValidationError) : Z :=
  match e with
  | Validation.InvalidAuthority => 0 | Validation.InvalidMarketAuthority => 1
  | Validation.InvalidMarket => 2 | Validation.InvalidMarketVault => 3
  | Validation.InvalidMintForTokenAccount => 4 | Validation.InvalidProtocolAuthority => 5
  | Validation.InvalidLiquidatorWhitelistEntry => 6
  | Validation.MissingLiquidatorWhitelistEntry => 7
  | Validation.LiquidatorNotWhitelisted => 8
  end.
Definition validation_error_of_code (c : Z) : option LendingAccountValidationError :=
  if 0 <=? c then all_validation_errors !! Z.to_nat c else None.

Definition ACCOUNT_VALIDATION_ERROR_OFFSET : Z := 6000.
Definition LENDING_ACCOUNT_VALIDATION_ERROR_OFFSET : Z := 6500.
Definition LENDING_ERROR_OFFSET : Z := 7000.

(** [impl Into<ProgramError> for LendingProgramError] *)
Definition into_program_error (e : LendingProgramErrorKind) : ProgramError :=
  match e with
  | KProgramError err => err
  | KAccountValidationError err =>
      Custom (ACCOUNT_VALIDATION_ERROR_OFFSET + account_error_code err)
  | KLendingError err => Custom (LENDING_ERROR_OFFSET + lending_error_code err)
  | KLendingAccountValidationError err =>
      Custom (LENDING_ACCOUNT_VALIDATION_ERROR_OFFSET + validation_error_code err)
  end.

(** [ProgramError::from(u64)] of [arch_program]. *)
Class ProgramErrorCrate : Type := program_error_from_u64 : Z -> ProgramError.

(** Documented: a nonzero code that fits 32 bits is a custom error. *)
Class ProgramErrorLaws (PE : ProgramErrorCrate) : Prop :=
  program_error_custom : forall c, 0 < c < 2 ^ 32 -> program_error_from_u64 c = Custom c.

(** [LendingProgramErrorKind::from_error_code]: every [as u8] keeps the low eight bits. *)
Definition from_error_code {PE : ProgramErrorCrate} (code : Z) : LendingProgramErrorKind :=
  match program_error_from_u64 code with
  | Custom custom =>
    let kind :=
      if (ACCOUNT_VALIDATION_ERROR_OFFSET <=? custom)
         && (custom <? LENDING_ACCOUNT_VALIDATION_ERROR_OFFSET) then
        KAccountValidationError <$>
          account_error_of_code (as_u8 (custom - ACCOUNT_VALIDATION_ERROR_OFFSET))
      else if (LENDING_ACCOUNT_VALIDATION_ERROR_OFFSET <=? custom)
              && (custom <? LENDING_ERROR_OFFSET) then
        KLendingAccountValidationError <$>
          validation_error_of_code (as_u8 (custom - LENDING_ACCOUNT_VALIDATION_ERROR_OFFSET))
      else if LENDING_ERROR_OFFSET <=? custom then
        KLendingError <$> lending_error_of_code (as_u8 (custom - LENDING_ERROR_OFFSET))
      else Some (KProgramError (Custom custom)) in
    default (KProgramError (Custom custom)) kind
  | err => KProgramError err
  end.

(** ** Facts *)

Lemma program_error_decodes {PE : ProgramErrorCrate} {PEL : ProgramErrorLaws PE} e :
  (forall p, e <> KProgramError p) ->
  exists code, into_program_error e = Custom code /\ 6000 <= code < 7045 /\
               from_error_code code = e.
Proof.
  intros He. destruct e as [p | a | v | l]; [by destruct (He p) | destruct a | destruct v
    | destruct l]; (eexists; split; [reflexivity |]; split; [vm_compute; split; congruence |];
    unfold from_error_code; rewrite program_error_custom by (vm_compute; split; reflexivity);
    vm_compute; reflexivity).
Qed.

(** The codes that clients see identify the error: decoding the code of an account
    error, a validation error or a lending error gives the error back, and no two of them
    share a code. *)
Theorem error_codes_identify_the_error {PE : ProgramErrorCrate} {PEL : ProgramErrorLaws PE} e :
  (forall p, e <> KProgramError p) ->
  exists code, into_program_error e = Custom code /\ 6000 <= code < 7045 /\
               from_error_code code = e /\
  forall e', (forall p, e' <> KProgramError p) -> into_program_error e' = Custom code -> e' = e.
Proof.
  intros He. destruct (program_error_decodes e He) as (code & H1 & H2 & H3). exists code.
  do 3 (split; [done |]). intros e' He' H'.
  destruct (program_error_decodes e' He') as (code' & H1' & _ & H3'). congruence.
Qed.

(** A code far outside of the table is decoded to an error that no instruction raised. *)
Lemma from_error_code_truncates {PE : ProgramErrorCrate} {PEL : ProgramErrorLaws PE} :
  from_error_code 7256 = KLendingError MathOverflow.
Proof.
  unfold from_error_code. rewrite program_error_custom by (vm_compute; split; reflexivity).
  reflexivity.
Qed.

Definition program_error_ex : ProgramErrorCrate :=
  fun c => if (0 <? c) && (c <? 2 ^ 32) then Custom c else Other c.

Lemma program_error_ex_laws : ProgramErrorLaws program_error_ex.
Proof.
  intros c [H1 H2]. unfold program_error_from_u64, program_error_ex.
  rewrite (proj2 (Z.ltb_lt _ _) H1), (proj2 (Z.ltb_lt _ _) H2). done.
Qed.

Lemma error_codes_witness :
  from_error_code (PE := program_error_ex) 7007 = KLendingError MaxLtvReached.
Proof.
  destruct (error_codes_identify_the_error (PE := program_error_ex)
    (PEL := program_error_ex_laws) (KLendingError MaxLtvReached)) as (c & H1 & _ & H3 & _);
    [congruence |].
  injection H1 as <-. exact H3.
Defined.
