(* ===== verification/Accounts.v ===== *)
(** * Accounts and their validation

    [autara-program-lib/src/accounts] (the typed account wrappers),
    [programs/autara-program/src/state.rs] (which accounts are the program's, and when they
    are initialised) and [id] of [programs/autara-program/src/lib.rs].

    Reading a struct out of the bytes of an account is the job of the [bytemuck] and
    [apl_token] crates: the decoders are parameters ([AccountCodec]).  Of a token account
    and of a mint the program reads the fields given here. *)
From S2P Require Import Prelude.
From S2P Require Import Errors.
From S2P Require Import Monad.
From S2P Require Import FixedPoint.
From S2P Require Import Pda.
From S2P Require Import OracleRate.
From S2P Require Import Oracle.
From S2P Require Import GlobalConfig.
From S2P Require Import LiquidatorWhitelist.
From S2P Require Import MarketConfig.
From S2P Require Import SupplyPosition.
From S2P Require Import BorrowPosition.
From S2P Require Import CollateralVault.
From S2P Require Import SupplyVault.
From S2P Require Import Market.
From S2P Require Import ProgramErrors.

(** [arch_program::account::AccountInfo] *)
Record AccountInfo : Type := mkAccountInfo {
  ai_key : Pubkey;
  ai_owner : Pubkey;
  ai_is_signer : bool;
  ai_is_writable : bool;
  ai_data : list Z }.

Record TokenAccount : Type := mkTokenAccount { ta_mint : Pubkey; ta_owner : Pubkey }.
Record Mint : Type := mkMint { mi_decimals : Z }.

(** Constants and functions of the token crates and of the system program. *)
Class Chain : Type := {
  apl_token_id : Pubkey;
  apl_ata_id : Pubkey;
  SYSTEM_PROGRAM_ID : Pubkey;
  get_associated_token_address : Pubkey -> Pubkey -> Pubkey;
  minimum_rent : Z -> Z }.

(** [bytemuck::try_from_bytes] and [Pack::unpack]. *)
Class AccountCodec : Type := {
  market_of_bytes : list Z -> option Market;
  supply_position_of_bytes : list Z -> option SupplyPosition;
  borrow_position_of_bytes : list Z -> option BorrowPosition;
  global_config_of_bytes : list Z -> option GlobalConfig;
  whitelist_entry_of_bytes : list Z -> option LiquidatorWhitelistEntry;
  token_account_of_bytes : list Z -> option TokenAccount;
  mint_of_bytes : list Z -> option Mint }.

(** [id()], the bytes of the hexadecimal literal. *)
Definition id : Pubkey :=
  [0x2a; 0xa4; 0x1c; 0x8f; 0x71; 0xf0; 0xed; 0xe3; 0xf3; 0x74; 0xc1; 0x5e; 0xa1; 0xca; 0x60;
   0x96; 0xc3; 0xf1; 0xc1; 0x5a; 0x10; 0xda; 0x65; 0x30; 0xc0; 0xec; 0xfa; 0x48; 0xba; 0x10;
   0x95; 0x13].

Definition ZEROED_PUBKEY : Pubkey := replicate 32 0.

(** [ZeroCopyInitialized] *)
Class ZeroCopyInitialized (T : Type) : Type := is_initialized : T -> bool.
#[global] Instance market_is_initialized : ZeroCopyInitialized Market :=
  fun m => negb (bool_decide (curator (config m) = ZEROED_PUBKEY)).
#[global] Instance borrow_position_is_initialized : ZeroCopyInitialized BorrowPosition :=
  fun p => negb (bool_decide (BorrowPosition.authority p = ZEROED_PUBKEY)).
#[global] Instance supply_position_is_initialized : ZeroCopyInitialized SupplyPosition :=
  fun p => negb (bool_decide (SupplyPosition.authority p = ZEROED_PUBKEY)).
#[global] Instance global_config_is_initialized : ZeroCopyInitialized GlobalConfig :=
  fun g => negb (bool_decide (admin g = ZEROED_PUBKEY)).
#[global] Instance whitelist_entry_is_initialized
  : ZeroCopyInitialized LiquidatorWhitelistEntry :=
  fun e => negb (bool_decide (LiquidatorWhitelist.market e = ZEROED_PUBKEY)).

(** [AutaraUninitializedAccount<T>]: an account that is still zeroed. *)
Definition uninitialized {T} `{ZeroCopyInitialized T} : ZeroCopyInitialized T :=
  fun x => negb (is_initialized x).

(** An account with the struct read from it: [ZeroCopyOwnedAccount],
    [ZeroCopyOwnedAccountMut] and [PackedOwnedAccount]. *)
Record Account (T : Type) : Type := mkAccount {
  key : Pubkey;
  acc_is_signer : bool;
  value : T }.
Arguments mkAccount {T}.
Arguments key {T}.
Arguments acc_is_signer {T}.
Arguments value {T}.

(** The conversions from [AccountInfo], each with the error of the first check that fails.
    Nothing is borrowed when they run, so [try_borrow] succeeds. *)
Definition AccRes : Type -> Type := Result AccountValidationError.

Definition zero_copy {T} `{ZeroCopyInitialized T} (of_bytes : list Z -> option T)
  (a : AccountInfo) : AccRes (Account T) :=
  if negb (bool_decide (ai_owner a = id)) then Err InvalidOwner
  else match of_bytes (ai_data a) with
       | None => Err InvalidData
       | Some this =>
         if negb (is_initialized this) then Err AccountNotInitialized
         else Ok (mkAccount (ai_key a) (ai_is_signer a) this)
       end.

Definition zero_copy_mut {T} `{ZeroCopyInitialized T} (of_bytes : list Z -> option T)
  (a : AccountInfo) : AccRes (Account T) :=
  let? account := zero_copy of_bytes a in
  if negb (ai_is_writable a) then Err NotWritable else Ok account.

Definition signer (a : AccountInfo) : AccRes Pubkey :=
  if ai_is_signer a then Ok (ai_key a) else Err NotSigner.

Section Ops.
Context {CH : Chain} {AC : AccountCodec}.

Definition packed {T} (of_bytes : list Z -> option T) (a : AccountInfo) : AccRes (Account T) :=
  if negb (bool_decide (ai_owner a = apl_token_id)) then Err InvalidOwner
  else match of_bytes (ai_data a) with
       | None => Err InvalidData
       | Some inner => Ok (mkAccount (ai_key a) (ai_is_signer a) inner)
       end.

Definition program (expected : Pubkey) (a : AccountInfo) : AccRes Pubkey :=
  if negb (bool_decide (ai_key a = expected)) then Err InvalidKey else Ok (ai_key a).

(** ** Reading the accounts of an instruction *)

(** [From] of errors, the [?] of the program. *)
Definition res_from {E F A} (f : E -> F) (r : Result E A) : Result F A :=
  match r with Ok a => Ok a | Err e => Err (f e) | Panic => Panic end.

Definition Parser (A : Type) : Type := STE LendingProgramErrorKind (list AccountInfo) A.

(** [next_account_info(accounts)?] *)
Definition next_account_info : Parser AccountInfo :=
  fun l => match l with
           | [] => (Err (KProgramError NotEnoughAccountKeys), [])
           | a :: l => (Ok a, l)
           end.

(** [next_account_info(accounts)?.try_into()?] *)
Definition next_as {A} (conv : AccountInfo -> AccRes A) : Parser A :=
  let! a := next_account_info in st_lift (res_from KAccountValidationError (conv a)).

Definition next_market : Parser (Account Market) := next_as (zero_copy_mut market_of_bytes).
Definition next_supply_position : Parser (Account SupplyPosition) :=
  next_as (zero_copy_mut supply_position_of_bytes).
Definition next_borrow_position : Parser (Account BorrowPosition) :=
  next_as (zero_copy_mut borrow_position_of_bytes).
Definition next_signer : Parser Pubkey := next_as signer.
Definition next_token : Parser (Account TokenAccount) := next_as (packed token_account_of_bytes).
Definition next_token_program : Parser Pubkey := next_as (program apl_token_id).
Definition next_system_program : Parser Pubkey := next_as (program SYSTEM_PROGRAM_ID).

(** [if b { return Err(LendingAccountValidationError::e.into()) }] *)
Definition reject_if (b : bool) (e : LendingAccountValidationError)
  : Result LendingProgramErrorKind () :=
  if b then Err (KLendingAccountValidationError e) else Ok tt.

End Ops.

(** [a != b] of keys. *)
Definition key_ne (a b : Pubkey) : bool := negb (bool_decide (a = b)).

Lemma key_ne_false a b : key_ne a b = false <-> a = b.
Proof. unfold key_ne. rewrite negb_false_iff, bool_decide_eq_true. done. Qed.

Lemma reject_if_ok b e : reject_if b e = Ok tt <-> b = false.
Proof. unfold reject_if. destruct b; naive_solver. Qed.

Lemma res_from_ok {E F A} (f : E -> F) (r : Result E A) a :
  res_from f r = Ok a <-> r = Ok a.
Proof. destruct r; simpl; naive_solver. Qed.

Lemma next_as_ok {A} (conv : AccountInfo -> AccRes A) l x l' :
  next_as conv l = (Ok x, l') -> exists a, l = a :: l' /\ conv a = Ok x.
Proof.
  intros H. unfold next_as, next_account_info in H. run_inv.
  destruct l as [| b l]; [discriminate |]. run_inv.
  match goal with H : res_from _ _ = Ok _ |- _ => apply res_from_ok in H end. eauto.
Qed.

Lemma signer_ok a k : signer a = Ok k -> ai_is_signer a = true /\ k = ai_key a.
Proof. unfold signer. destruct (ai_is_signer a); naive_solver. Qed.

Lemma zero_copy_ok {T} `{ZeroCopyInitialized T} of_bytes a (x : Account T) :
  zero_copy of_bytes a = Ok x ->
  ai_owner a = id /\ key x = ai_key a /\ of_bytes (ai_data a) = Some (value x) /\
  is_initialized (value x) = true.
Proof.
  unfold zero_copy. destruct (bool_decide _) eqn:E; cbn; [| discriminate]. bool_prop.
  destruct (of_bytes _) as [v |] eqn:Ev; [| discriminate].
  destruct (is_initialized v) eqn:Ei; cbn; [| discriminate]. intros [= <-]. done.
Qed.

Lemma zero_copy_mut_ok {T} `{ZeroCopyInitialized T} of_bytes a (x : Account T) :
  zero_copy_mut of_bytes a = Ok x ->
  ai_is_writable a = true /\ ai_owner a = id /\ key x = ai_key a /\
  of_bytes (ai_data a) = Some (value x) /\ is_initialized (value x) = true.
Proof.
  unfold zero_copy_mut. intros Hx. run_inv.
  destruct (ai_is_writable a) eqn:Ew; cbn in *; [| discriminate]. run_inv.
  match goal with H : zero_copy _ _ = Ok _ |- _ => apply zero_copy_ok in H as (? & ? & ? & ?) end.
  done.
Qed.

(** * The system program

    The calls to the system program that create an account or move its balance, for the
    programs whose result depends on what an account holds after them; and the growth of an
    account.  The system program is a parameter with documented rules. *)

Module Sys.
Inductive SysCall : Type :=
| create_account (from to : Pubkey) (lamports space : Z) (owner : Pubkey)
    (signer_seeds : list (list Z))
| create_account_with_seed (from to base : Pubkey) (seed : list Z) (lamports space : Z)
    (owner : Pubkey) (signer_seeds : list (list Z))
| transfer (from to : Pubkey) (lamports : Z).
End Sys.
Notation SysCall := Sys.SysCall.

(** The answer to a call, with the account it is about after it. *)
Class SystemProgram : Type :=
  sys_invoke : SysCall -> AccountInfo -> Result ProgramError AccountInfo.

(** Documented: a created account belongs to the owner named and is zeroed; a transfer
    leaves owners and data alone. *)
Class SystemLaws (SY : SystemProgram) : Prop := {
  create_zeroes f l n o s a a' :
    sys_invoke (Sys.create_account f (ai_key a) l n o s) a = Ok a' ->
    ai_key a' = ai_key a /\ ai_owner a' = o /\ ai_data a' = replicate (Z.to_nat n) 0;
  create_with_seed_zeroes f b sd l n o s a a' :
    sys_invoke (Sys.create_account_with_seed f (ai_key a) b sd l n o s) a = Ok a' ->
    ai_key a' = ai_key a /\ ai_owner a' = o /\ ai_data a' = replicate (Z.to_nat n) 0;
  transfer_keeps f l a a' :
    sys_invoke (Sys.transfer f (ai_key a) l) a = Ok a' ->
    ai_key a' = ai_key a /\ ai_owner a' = ai_owner a /\ ai_data a' = ai_data a }.

(** The account with other data. *)
Definition with_data (data : list Z) (a : AccountInfo) : AccountInfo :=
  mkAccountInfo (ai_key a) (ai_owner a) (ai_is_signer a) (ai_is_writable a) data.

(** [account.realloc(new_len, _)]: the data is cut, or grows with zeroes. *)
Definition realloc (new_len : nat) (a : AccountInfo) : AccountInfo :=
  with_data (take new_len (ai_data a) ++ replicate (new_len - length (ai_data a)) 0) a.

(** A system program that does what it is asked. *)
Definition sys_ex : SystemProgram := fun c a =>
  match c with
  | Sys.create_account _ _ _ n o _ | Sys.create_account_with_seed _ _ _ _ _ n o _ =>
    Ok (mkAccountInfo (ai_key a) o (ai_is_signer a) (ai_is_writable a)
          (replicate (Z.to_nat n) 0))
  | Sys.transfer _ _ _ => Ok a
  end.

Lemma sys_ex_laws : SystemLaws sys_ex.
Proof. split; intros *; simpl; intros [= <-]; done. Qed.
