(* ===== verification/OracleProgram.v ===== *)
(** * The oracle program

    [programs/autara-oracle/src/lib.rs]: anyone may open a price feed; the signer that opens
    it becomes its authority, and only the authority may push prices to it afterwards.  The
    accounts are the bytes of [PythPriceAccount] ([autara-lib/src/oracle/pyth.rs]). *)
From stdpp Require Import gmap relations.
From S2P Require Import Prelude.
From S2P Require Import Errors.
From S2P Require Import Monad.
From S2P Require Import FixedPoint.
From S2P Require Import Bytes.
From S2P Require Import Pda.
From S2P Require Import OracleRate.
From S2P Require Import Oracle.
From S2P Require Import ProgramErrors.
From S2P Require Import Accounts.
From S2P Require Import FixedFacts.

(** ** Data *)

Module Feed.
Record Metadata : Type := mkMetadata {
  slot : Z;
  proof_available_time : Z;
  prev_publish_time : Z }.
Record PythPrice : Type := mkPythPrice {
  id : list Z;
  price : PythPriceData;
  ema_price : PythPriceData;
  metadata : Metadata }.
Record PythPriceAccount : Type := mkPythPriceAccount {
  pyth_price : PythPrice;
  authority : Pubkey }.
End Feed.

(** The [repr(C)] layout, written and read. *)
Definition price_data_bytes (d : PythPriceData) : list Z :=
  le_bytes 8 (pd_price d) ++ le_bytes 8 (pd_conf d) ++ le_bytes 8 (pd_expo d)
  ++ le_bytes 8 (pd_publish_time d).
Definition price_data_of (l : list Z) : PythPriceData :=
  mkPythPriceData (le_val (slice 0 8 l)) (le_val (slice 8 8 l)) (le_sval (slice 16 8 l))
    (le_sval (slice 24 8 l)).

Definition metadata_bytes (m : Feed.Metadata) : list Z :=
  le_bytes 8 (Feed.slot m) ++ le_bytes 8 (Feed.proof_available_time m)
  ++ le_bytes 8 (Feed.prev_publish_time m).
Definition metadata_of (l : list Z) : Feed.Metadata :=
  Feed.mkMetadata (le_val (slice 0 8 l)) (le_sval (slice 8 8 l)) (le_sval (slice 16 8 l)).

Definition price_bytes (p : Feed.PythPrice) : list Z :=
  Feed.id p ++ price_data_bytes (Feed.price p) ++ price_data_bytes (Feed.ema_price p)
  ++ metadata_bytes (Feed.metadata p).
Definition price_of (l : list Z) : Feed.PythPrice :=
  Feed.mkPythPrice (slice 0 32 l) (price_data_of (slice 32 32 l)) (price_data_of (slice 64 32 l))
    (metadata_of (slice 96 24 l)).

Definition account_bytes (a : Feed.PythPriceAccount) : list Z :=
  price_bytes (Feed.pyth_price a) ++ Feed.authority a.
Definition account_of (l : list Z) : Feed.PythPriceAccount :=
  Feed.mkPythPriceAccount (price_of (slice 0 PYTH_PRICE_SIZE l)) (slice PYTH_PRICE_SIZE 32 l).

Definition set_publish_time (t : Z) (d : PythPriceData) : PythPriceData :=
  mkPythPriceData (pd_price d) (pd_conf d) (pd_expo d) t.

(** ** The program *)

Section Ops.
Context {PC : PdaCrate} {CH : Chain} {SY : SystemProgram}.

(** The account of the feed after it, and whether the signer becomes its authority. *)
Definition ensure_feed_account (program_id signer : Pubkey) (oracle : AccountInfo)
  (lamports : Z) (feed_id : list Z) : Result ProgramError (AccountInfo * bool) :=
  let new_len := PYTH_PRICE_ACCOUNT_SIZE in
  if negb (bool_decide (ai_owner oracle = program_id)) then
    let '(_, bump) := find_program_address [feed_id] program_id in
    let? oracle := sys_invoke
      (Sys.create_account signer (ai_key oracle) (minimum_rent (Z.of_nat new_len))
         (Z.of_nat new_len) program_id [feed_id; [bump]]) oracle in
    Ok (oracle, true)
  else if (length (ai_data oracle) =? PYTH_PRICE_SIZE)%nat then
    let required := minimum_rent (Z.of_nat new_len) in
    let current := lamports in
    let? oracle :=
      (if current <? required
       then sys_invoke (Sys.transfer signer (ai_key oracle) (required - current)) oracle
       else Ok oracle) in
    Ok (realloc new_len oracle, true)
  else if negb (length (ai_data oracle) =? new_len)%nat then Err InvalidAccountData
  else Ok (oracle, false).

Definition apply_price_update (oracle_data : Feed.PythPriceAccount) (signer : Pubkey)
  (pyth_data : Feed.PythPrice) (just_created : bool) (unix_timestamp : Z)
  : Result ProgramError Feed.PythPriceAccount :=
  let? authority :=
    (if just_created then Ok signer
     else if negb (bool_decide (Feed.authority oracle_data = signer))
     then Err IncorrectAuthority
     else if negb (bool_decide (Feed.id (Feed.pyth_price oracle_data) = Feed.id pyth_data))
     then Err InvalidArgument
     else Ok (Feed.authority oracle_data)) in
  Ok (Feed.mkPythPriceAccount
        (Feed.mkPythPrice (Feed.id pyth_data)
           (set_publish_time unix_timestamp (Feed.price pyth_data))
           (set_publish_time unix_timestamp (Feed.ema_price pyth_data))
           (Feed.metadata pyth_data))
        authority).

(** [clock()]: no clock is a panic. *)
Definition clock (unix_timestamp : Z) : Result ProgramError Z :=
  if unix_timestamp =? 0 then Panic else Ok unix_timestamp.

(** The account of the feed after the instruction.  [lamports] is the balance of the feed
    account, [ts] the time of the chain. *)
Definition process_instruction (program_id : Pubkey) (accounts : list AccountInfo)
  (lamports : Z) (instruction_data : list Z) (ts : Z) : Result ProgramError AccountInfo :=
  match accounts with
  | signer :: oracle :: _ =>
    if negb (ai_is_signer signer) then Err MissingRequiredSignature
    else
      let? pyth_data :=
        (if (length instruction_data =? PYTH_PRICE_SIZE)%nat
         then Ok (price_of instruction_data) else Err InvalidInstructionData) in
      let? (oracle, just_created) := ensure_feed_account program_id (ai_key signer) oracle
                                       lamports (Feed.id pyth_data) in
      if negb (length (ai_data oracle) =? PYTH_PRICE_ACCOUNT_SIZE)%nat then Panic
      else
        let? ts := clock ts in
        let? updated := apply_price_update (account_of (ai_data oracle)) (ai_key signer)
                          pyth_data just_created ts in
        Ok (mkAccountInfo (ai_key oracle) (ai_owner oracle) (ai_is_signer oracle)
              (ai_is_writable oracle) (account_bytes updated))
  | _ => Err NotEnoughAccountKeys
  end.

End Ops.

(** * Facts about the oracle program

    A feed keeps the authority that opened it and the id it was opened with, nobody else can
    change it, and what its authority pushes is what the markets load. *)

(** ** The layout *)

Record price_data_ok (d : PythPriceData) : Prop := {
  pdo_price : is_u64 (pd_price d);
  pdo_conf : is_u64 (pd_conf d);
  pdo_expo : is_i64 (pd_expo d);
  pdo_time : is_i64 (pd_publish_time d) }.

Record price_ok (p : Feed.PythPrice) : Prop := {
  po_id : length (Feed.id p) = 32%nat;
  po_price : price_data_ok (Feed.price p);
  po_ema : price_data_ok (Feed.ema_price p);
  po_slot : is_u64 (Feed.slot (Feed.metadata p));
  po_proof : is_i64 (Feed.proof_available_time (Feed.metadata p));
  po_prev : is_i64 (Feed.prev_publish_time (Feed.metadata p)) }.

Lemma length_price_data d : length (price_data_bytes d) = 32%nat.
Proof. unfold price_data_bytes. by rewrite !length_app, !length_le_bytes. Qed.

Lemma length_metadata m : length (metadata_bytes m) = 24%nat.
Proof. unfold metadata_bytes. by rewrite !length_app, !length_le_bytes. Qed.

Lemma price_data_roundtrip d : price_data_ok d -> price_data_of (price_data_bytes d) = d.
Proof.
  intros [Hp Hc He Ht]. unfold price_data_of, price_data_bytes.
  cut_field 8%nat.
  rewrite !le_u64, !le_i64 by done. by destruct d.
Qed.

Lemma metadata_roundtrip m :
  is_u64 (Feed.slot m) -> is_i64 (Feed.proof_available_time m) ->
  is_i64 (Feed.prev_publish_time m) -> metadata_of (metadata_bytes m) = m.
Proof.
  intros Hs Hp Hv. unfold metadata_of, metadata_bytes.
  cut_field 8%nat.
  rewrite !le_u64, !le_i64 by done. by destruct m.
Qed.

Lemma length_price p : length (Feed.id p) = 32%nat -> length (price_bytes p) = PYTH_PRICE_SIZE.
Proof.
  intros H. unfold price_bytes. by rewrite !length_app, !length_price_data, length_metadata, H.
Qed.

(** What the markets read of a feed is what was written. *)
Lemma price_roundtrip p : price_ok p -> price_of (price_bytes p) = p.
Proof.
  intros [Hi Hp He Hs Hf Hv]. unfold price_of, price_bytes.
  rewrite (slice_first _ _ 32) by done.
  rewrite (slice_skip 32 32 32), (slice_skip 64 32 32), (slice_skip 96 24 32) by (done || lia).
  cbn [Nat.sub].
  rewrite (slice_first _ _ 32) by apply length_price_data.
  rewrite (slice_skip 32 32 32), (slice_skip 64 24 32) by (apply length_price_data || lia).
  cbn [Nat.sub].
  rewrite (slice_first _ _ 32), (slice_skip 32 24 32) by (apply length_price_data || lia).
  cbn [Nat.sub].
  rewrite (slice_whole 24) by apply length_metadata.
  rewrite !price_data_roundtrip, metadata_roundtrip by done. by destruct p.
Qed.

Lemma account_roundtrip a :
  price_ok (Feed.pyth_price a) -> length (Feed.authority a) = 32%nat ->
  length (account_bytes a) = PYTH_PRICE_ACCOUNT_SIZE /\ account_of (account_bytes a) = a.
Proof.
  intros Hp Ha. pose proof (length_price _ (po_id _ Hp)) as Hl.
  unfold account_of, account_bytes. split; [by rewrite length_app, Hl, Ha |].
  rewrite slice_first, (slice_skip _ _ PYTH_PRICE_SIZE) by (done || lia).
  rewrite Nat.sub_diag, slice_whole by done. rewrite price_roundtrip by done. by destruct a.
Qed.

Lemma price_data_of_ok l : Forall is_byte l -> length l = 32%nat -> price_data_ok (price_data_of l).
Proof.
  intros Hb Hl.
  constructor; [by apply le_val_u64 | by apply le_val_u64 | apply le_sval_i64 | apply le_sval_i64];
    (done || lia).
Qed.

Lemma price_of_ok l : Forall is_byte l -> length l = PYTH_PRICE_SIZE -> price_ok (price_of l).
Proof.
  intros Hb Hl. unfold PYTH_PRICE_SIZE in Hl.
  assert (length (slice 96 24 l) = 24%nat) by (apply length_slice; lia).
  assert (Forall is_byte (slice 96 24 l)) by (by apply Forall_slice).
  constructor; cbn [Feed.id Feed.price Feed.ema_price Feed.metadata price_of metadata_of
    Feed.slot Feed.proof_available_time Feed.prev_publish_time].
  - apply length_slice. lia.
  - apply price_data_of_ok; [by apply Forall_slice | apply length_slice; lia].
  - apply price_data_of_ok; [by apply Forall_slice | apply length_slice; lia].
  - by apply le_val_u64.
  - apply le_sval_i64; (done || lia).
  - apply le_sval_i64; (done || lia).
Qed.

(** ** One instruction *)

Lemma apply_price_update_ok a s p c ts a' :
  apply_price_update a s p c ts = Ok a' ->
  (c = true /\ Feed.authority a' = s \/
   Feed.authority a = s /\ Feed.authority a' = s /\
   Feed.id (Feed.pyth_price a) = Feed.id p) /\
  Feed.pyth_price a' = Feed.mkPythPrice (Feed.id p) (set_publish_time ts (Feed.price p))
                         (set_publish_time ts (Feed.ema_price p)) (Feed.metadata p).
Proof.
  unfold apply_price_update. intros H. destruct c; simpl in H; [injection H as <-; by split; [left |] |].
  destruct (bool_decide (Feed.authority a = s)) eqn:E1; simpl in H; [| done].
  destruct (bool_decide (Feed.id (Feed.pyth_price a) = Feed.id p)) eqn:E2; simpl in H; [| done].
  apply bool_decide_eq_true in E1, E2. injection H as <-. split; [right |]; done.
Qed.

Lemma updated_price_ok p ts :
  price_ok p -> is_i64 ts ->
  price_ok (Feed.mkPythPrice (Feed.id p) (set_publish_time ts (Feed.price p))
              (set_publish_time ts (Feed.ema_price p)) (Feed.metadata p)).
Proof. intros [Hi [] [] ? ? ?] Ht. by do 2 (constructor; simpl; try done). Qed.

Section Push.
Context {PC : PdaCrate} {CH : Chain} {SY : SystemProgram} {SL : SystemLaws SY}.

(** The account that is updated is the one passed, in the hands of the program, and an
    existing feed is passed on as it is. *)
Lemma ensure_feed_account_ok pid s o n i o' c :
  ensure_feed_account pid s o n i = Ok (o', c) ->
  ai_key o' = ai_key o /\ ai_owner o' = pid /\
  (ai_owner o = pid -> length (ai_data o) = PYTH_PRICE_ACCOUNT_SIZE -> o' = o /\ c = false) /\
  (c = false -> o' = o).
Proof.
  unfold ensure_feed_account. intros H.
  destruct (bool_decide (ai_owner o = pid)) eqn:E1; simpl in H.
  2: { apply bool_decide_eq_false in E1.
       destruct (find_program_address [i] pid) as [q b].
       destruct (sys_invoke _ o) as [x | |] eqn:E2; simpl in H; [| done..].
       injection H as <- <-. apply create_zeroes in E2 as (-> & -> & _). done. }
  apply bool_decide_eq_true in E1.
  destruct (length (ai_data o) =? PYTH_PRICE_SIZE)%nat eqn:E2; simpl in H.
  - apply Nat.eqb_eq in E2.
    destruct (_ <? _) eqn:E3 in H; simpl in H.
    + destruct (sys_invoke _ o) as [x | |] eqn:E4; simpl in H; [| done..].
      injection H as <- <-. apply transfer_keeps in E4 as (H1 & H2 & _).
      cbn [realloc with_data ai_key ai_owner ai_data]. rewrite H1, H2.
      split_and!; [done | done | by rewrite E2 | done].
    + injection H as <- <-. simpl. split_and!; [done | done | by rewrite E2 | done].
  - destruct (length (ai_data o) =? PYTH_PRICE_ACCOUNT_SIZE)%nat eqn:E3; simpl in H; [| done].
    by injection H as <- <-.
Qed.

Lemma process_instruction_ok pid l n d ts a :
  process_instruction pid l n d ts = Ok a ->
  exists s o rest o' c u, l = s :: o :: rest /\ ai_is_signer s = true /\
    length d = PYTH_PRICE_SIZE /\
    ensure_feed_account pid (ai_key s) o n (Feed.id (price_of d)) = Ok (o', c) /\
    apply_price_update (account_of (ai_data o')) (ai_key s) (price_of d) c ts = Ok u /\
    ai_key a = ai_key o /\ ai_owner a = pid /\ ai_data a = account_bytes u.
Proof.
  unfold process_instruction. intros H. destruct l as [| s [| o rest]]; [done | done |].
  destruct (ai_is_signer s) eqn:Es; cbn [res_bind negb] in H; [| done].
  destruct (length d =? PYTH_PRICE_SIZE)%nat eqn:Ed; cbn [res_bind negb] in H; [| done].
  apply Nat.eqb_eq in Ed.
  destruct (ensure_feed_account pid (ai_key s) o n (Feed.id (price_of d))) as [[o' c] | |] eqn:Ee;
    cbn [res_bind negb] in H; [| done..].
  destruct (length (ai_data o') =? PYTH_PRICE_ACCOUNT_SIZE)%nat; cbn [res_bind negb] in H; [| done].
  unfold clock in H. destruct (ts =? 0); cbn [res_bind negb] in H; [done |].
  destruct (apply_price_update (account_of (ai_data o')) (ai_key s) (price_of d) c ts)
    as [u | |] eqn:Eu; cbn [res_bind negb] in H; [| done..].
  injection H as <-. pose proof (ensure_feed_account_ok _ _ _ _ _ _ _ Ee) as (Hk & Ho & _).
  exists s, o, rest, o', c, u. simpl. by rewrite Hk, Ho.
Qed.

End Push.

(** ** All the feeds of the program *)

(** The accounts that the program owns, with their bytes. *)
Notation Feeds := (gmap Pubkey (list Z)).

Section Feeds.
Context {PC : PdaCrate} {CH : Chain}.

(** An account passed to an instruction, on a chain where [Sg] has signed. *)
Record feed_shown (pid : Pubkey) (F : Feeds) (Sg : Pubkey -> Prop) (ai : AccountInfo) : Prop := {
  fs_signer : ai_is_signer ai = true -> Sg (ai_key ai);
  fs_key : length (ai_key ai) = 32%nat;
  fs_bytes : Forall is_byte (ai_data ai);
  fs_owned : ai_owner ai = pid -> F !! ai_key ai = Some (ai_data ai);
  fs_foreign : ai_owner ai <> pid -> F !! ai_key ai = None }.

(** A successful instruction, with any runtime that keeps the rules of the system program. *)
Inductive feed_step (pid : Pubkey) (Sg : Pubkey -> Prop) (ts : Z) (F : Feeds) : Feeds -> Prop :=
| feed_push SY accounts lamports data a :
    SystemLaws SY -> Forall (feed_shown pid F Sg) accounts -> Forall is_byte data ->
    is_i64 ts -> @process_instruction PC CH SY pid accounts lamports data ts = Ok a ->
    feed_step pid Sg ts F (<[ai_key a := ai_data a]> F).

(** Any number of instructions, and any number of them without the signature of [K]. *)
Definition feed_run (pid : Pubkey) : relation Feeds :=
  rtc (fun F F' => exists Sg ts, feed_step pid Sg ts F F').
Definition feed_run_without (K pid : Pubkey) : relation Feeds :=
  rtc (fun F F' => exists Sg ts, ~ Sg K /\ feed_step pid Sg ts F F').

Definition feed_authority (l : list Z) : Pubkey := Feed.authority (account_of l).
Definition feed_id (l : list Z) : list Z := Feed.id (Feed.pyth_price (account_of l)).

(** What a successful push writes. *)
Lemma push_ok SY {SL : SystemLaws SY} pid Sg F l n d ts a :
  @process_instruction PC CH SY pid l n d ts = Ok a -> Forall (feed_shown pid F Sg) l ->
  Forall is_byte d -> is_i64 ts ->
  exists s o rest o' c, l = s :: o :: rest /\ ai_is_signer s = true /\
    ensure_feed_account pid (ai_key s) o n (Feed.id (price_of d)) = Ok (o', c) /\
    apply_price_update (account_of (ai_data o')) (ai_key s) (price_of d) c ts
      = Ok (account_of (ai_data a)) /\
    ai_key a = ai_key o /\ ai_owner a = pid /\ length (ai_data a) = PYTH_PRICE_ACCOUNT_SIZE.
Proof.
  intros H Hl Hd Ht.
  apply process_instruction_ok in H
    as (s & o & r & o' & c & u & -> & Hs & Hn & He & Hu & Hk & Ho & Ha).
  apply Forall_cons_1 in Hl as [Hsh _].
  pose proof Hu as Hu'. apply apply_price_update_ok in Hu' as [Hau Hp].
  destruct (account_roundtrip u) as [Hlen Hof].
  - rewrite Hp. apply updated_price_ok; [by apply price_of_ok | done].
  - destruct Hau as [[_ ->] | (_ & -> & _)]; apply (fs_key _ _ _ _ Hsh).
  - exists s, o, r, o', c. by rewrite Ha, Hof.
Qed.

(** A step leaves a feed alone, or its authority has signed and stays, as does the id. *)
Lemma feed_step_keeps pid Sg ts F F' k l :
  feed_step pid Sg ts F F' -> F !! k = Some l -> length l = PYTH_PRICE_ACCOUNT_SIZE ->
  F' !! k = Some l \/
  Sg (feed_authority l) /\
  exists l', F' !! k = Some l' /\ length l' = PYTH_PRICE_ACCOUNT_SIZE /\
    feed_authority l' = feed_authority l /\ feed_id l' = feed_id l.
Proof.
  intros [SY accounts lam data a SL Hsh Hd Ht H] Hk Hl.
  destruct (decide (ai_key a = k)) as [<- | Hne]; [| left; by rewrite lookup_insert_ne].
  right. rewrite lookup_insert_eq.
  destruct (push_ok SY pid Sg F accounts lam data ts a H Hsh Hd Ht)
    as (s & o & r & o' & c & -> & Hs & He & Hu & Hko & _ & Hlen).
  apply Forall_cons_1 in Hsh as [Hss Hsh]. apply Forall_cons_1 in Hsh as [Hso _].
  destruct (ensure_feed_account_ok _ _ _ _ _ _ _ He) as (_ & _ & Hex & _).
  assert (Ho : ai_owner o = pid).
  { destruct (decide (ai_owner o = pid)) as [? | Hno]; [done |].
    apply (fs_foreign _ _ _ _ Hso) in Hno. by rewrite Hko, Hno in Hk. }
  pose proof (fs_owned _ _ _ _ Hso Ho) as Ho'. rewrite Hko, Ho' in Hk. injection Hk as <-.
  destruct (Hex Ho Hl) as [-> ->].
  apply apply_price_update_ok in Hu as [[[? _] | (Hau & Hau' & Hid)] Hp]; [done |].
  unfold feed_authority, feed_id. rewrite Hau. split; [by apply (fs_signer _ _ _ _ Hss) |].
  exists (ai_data a). split_and!; [done | done | done |]. by rewrite Hp, Hid.
Qed.

Lemma feed_runs_keep pid F F' k l :
  F !! k = Some l -> length l = PYTH_PRICE_ACCOUNT_SIZE ->
  (feed_run pid F F' ->
   exists l', F' !! k = Some l' /\ feed_authority l' = feed_authority l /\
     feed_id l' = feed_id l) /\
  (feed_run_without (feed_authority l) pid F F' -> F' !! k = Some l).
Proof.
  intros Hk Hl. split; intros Hr.
  - enough (exists l', F' !! k = Some l' /\ length l' = PYTH_PRICE_ACCOUNT_SIZE /\
      feed_authority l' = feed_authority l /\ feed_id l' = feed_id l)
      as (l' & H1 & _ & H2 & H3) by eauto.
    induction Hr as [| F F1 F' (Sg & ts & Hs) _ IH] in l, Hk, Hl |- *; [by exists l |].
    destruct (feed_step_keeps _ _ _ _ _ _ _ Hs Hk Hl) as [H | (_ & l1 & H & Hl1 & Ha & Hi)].
    + by apply IH.
    + destruct (IH l1 H Hl1) as (l' & ? & ? & ? & ?). exists l'. by rewrite <- Ha, <- Hi.
  - induction Hr as [| F F1 F' (Sg & ts & Hns & Hs) _ IH]; [done |].
    destruct (feed_step_keeps _ _ _ _ _ _ _ Hs Hk Hl) as [H | (H & _)]; [by apply IH | done].
Qed.

(** A push to an account that is no feed yet, or one of the legacy layout, binds it to the key
    that signed as the first account, and to the id that was pushed. *)
Lemma feed_is_bound SY {SL : SystemLaws SY} pid Sg F l n d ts a :
  @process_instruction PC CH SY pid l n d ts = Ok a -> Forall (feed_shown pid F Sg) l ->
  Forall is_byte d -> is_i64 ts ->
  (forall l0, F !! ai_key a = Some l0 -> length l0 = PYTH_PRICE_SIZE) ->
  length (ai_data a) = PYTH_PRICE_ACCOUNT_SIZE /\ feed_id (ai_data a) = Feed.id (price_of d) /\
  exists s rest, l = s :: rest /\ Sg (ai_key s) /\ feed_authority (ai_data a) = ai_key s.
Proof.
  intros H Hsh Hd Ht Hn.
  destruct (push_ok SY pid Sg F l n d ts a H Hsh Hd Ht)
    as (s & o & r & o' & c & -> & Hs & He & Hu & Hko & _ & Hlen).
  apply Forall_cons_1 in Hsh as [Hss Hsh]. apply Forall_cons_1 in Hsh as [Hso _].
  assert (c = true) as ->.
  { destruct c; [done |]. unfold ensure_feed_account in He.
    destruct (bool_decide_reflect (ai_owner o = pid)) as [Ho |]; cbn [negb] in He.
    - rewrite Hko in Hn. specialize (Hn _ (fs_owned _ _ _ _ Hso Ho)). rewrite Hn, Nat.eqb_refl in He.
      by apply res_bind_ok in He as (? & _ & ?).
    - destruct (find_program_address _ _). by apply res_bind_ok in He as (? & _ & ?). }
  apply apply_price_update_ok in Hu as [Hau Hp].
  split; [done |]. split; [unfold feed_id; by rewrite Hp |].
  exists s, (o :: r). split_and!; [done | by apply (fs_signer _ _ _ _ Hss) |].
  by destruct Hau as [[_ Hau] | (_ & Hau & _)].
Qed.

(** C34: a price feed belongs to the key that opened it.  Whatever instructions the program
    runs, with whatever accounts and data, a feed in the present layout keeps its authority and
    its id, and as long as the authority does not sign not a byte of it changes.  A successful
    push to an account that is no feed yet, or to one of the legacy layout, which has no
    authority and which any signer can push to, makes it a feed in the present layout with the
    id that was pushed, and its authority is the key that signed the push. *)
Theorem price_feed_belongs_to_its_authority pid F :
  (forall F' k l, F !! k = Some l -> length l = PYTH_PRICE_ACCOUNT_SIZE ->
     (feed_run pid F F' ->
      exists l', F' !! k = Some l' /\ feed_authority l' = feed_authority l /\
        feed_id l' = feed_id l) /\
     (feed_run_without (feed_authority l) pid F F' -> F' !! k = Some l)) /\
  (forall SY Sg l n d ts a, SystemLaws SY ->
     @process_instruction PC CH SY pid l n d ts = Ok a -> Forall (feed_shown pid F Sg) l ->
     Forall is_byte d -> is_i64 ts ->
     (forall l0, F !! ai_key a = Some l0 -> length l0 = PYTH_PRICE_SIZE) ->
     length (ai_data a) = PYTH_PRICE_ACCOUNT_SIZE /\ feed_id (ai_data a) = Feed.id (price_of d) /\
     exists s rest, l = s :: rest /\ Sg (ai_key s) /\ feed_authority (ai_data a) = ai_key s).
Proof.
  split; [intros F' k l; apply feed_runs_keep |].
  intros SY Sg l n d ts a SL. by apply feed_is_bound.
Qed.

Context {FX : FixedCrate} {BC : OracleBuild}.

(** The fields that the markets read, out of the whole account. *)
Lemma pyth_try_from_account l :
  length l = PYTH_PRICE_ACCOUNT_SIZE ->
  pyth_try_from_bytes client_feature l = Some (mkPythPrice (Feed.id (Feed.pyth_price (account_of l)))
                                  (Feed.price (Feed.pyth_price (account_of l)))).
Proof.
  intros H. unfold pyth_try_from_bytes, pyth_price_at_start. rewrite H, Nat.eqb_refl.
  unfold account_of, price_of, price_data_of.
  cbn [Feed.pyth_price Feed.id Feed.price].
  rewrite !slice_slice by (unfold PYTH_PRICE_SIZE; lia). done.
Qed.

Lemma push_loaded SY (SL : SystemLaws SY) pid Sg F l n d ts a :
  @process_instruction PC CH SY pid l n d ts = Ok a -> Forall (feed_shown pid F Sg) l ->
  Forall is_byte d -> is_i64 ts ->
  - MAX_EXPONENT_ABS <= pd_expo (Feed.price (price_of d)) <= MAX_EXPONENT_ABS ->
  pyth_load_oracle_price (mkPyth (Feed.id (price_of d)) pid)
    (mkAccountView (ai_key a) (ai_data a) (ai_owner a)) =
  res_map (fun r => mkUnchecked r ts)
    (try_from_price_expo_conf (pd_price (Feed.price (price_of d)))
       (pd_conf (Feed.price (price_of d))) (as_i8 (pd_expo (Feed.price (price_of d))))).
Proof.
  intros H Hl Hd Ht Hx.
  destruct (push_ok SY pid Sg F l n d ts a H Hl Hd Ht)
    as (s & o & r & o' & c & -> & _ & _ & Hu & _ & Ho & Hlen).
  apply apply_price_update_ok in Hu as [_ Hp].
  unfold pyth_load_oracle_price. cbn [owner data pyth_program_id pyth_feed_id].
  rewrite Ho, bool_decide_eq_true_2 by done. cbn [negb].
  rewrite pyth_try_from_account, Hp by done.
  cbn [ok_or res_bind pp_id pp_price Feed.id Feed.price set_publish_time pd_expo pd_price
    pd_conf pd_publish_time].
  rewrite bool_decide_eq_true_2 by done. cbn [negb].
  rewrite (proj2 (Z.ltb_ge _ _)), (proj2 (Z.ltb_ge _ _)) by lia. done.
Qed.

(** What is pushed is what the markets read.  After a successful push, loading the feed
    as a Pyth oracle gives the price, confidence and exponent of the instruction, published
    at the time of the chain, whatever time the pusher claims. *)
Theorem pushed_price_is_loaded SY (SL : SystemLaws SY) pid Sg F l n d ts a :
  @process_instruction PC CH SY pid l n d ts = Ok a -> Forall (feed_shown pid F Sg) l ->
  Forall is_byte d -> is_i64 ts ->
  - MAX_EXPONENT_ABS <= pd_expo (Feed.price (price_of d)) <= MAX_EXPONENT_ABS ->
  pyth_load_oracle_price (mkPyth (Feed.id (price_of d)) pid)
    (mkAccountView (ai_key a) (ai_data a) (ai_owner a)) =
  res_map (fun r => mkUnchecked r ts)
    (try_from_price_expo_conf (pd_price (Feed.price (price_of d)))
       (pd_conf (Feed.price (price_of d))) (as_i8 (pd_expo (Feed.price (price_of d))))).
Proof. apply push_loaded; assumption. Qed.

End Feeds.

(** ** A feed to try the properties on *)

(** A chain with a flat rent. *)
Definition feed_chain_ex : Chain := {|
  apl_token_id := replicate 32 50;
  apl_ata_id := replicate 32 51;
  SYSTEM_PROGRAM_ID := replicate 32 52;
  get_associated_token_address := fun _ mint => mint;
  minimum_rent := fun n => n |}.
#[local] Existing Instances feed_chain_ex pda_ex borsh_ex.

Definition push_ex (price time : Z) : list Z :=
  price_bytes (Feed.mkPythPrice (replicate 32 7) (mkPythPriceData price 5 (-8) time)
    (mkPythPriceData price 5 (-8) time) (Feed.mkMetadata 1 2 3)).
Definition pusher_ex : AccountInfo :=
  mkAccountInfo (replicate 32 1) (replicate 32 52) true true [].
Definition feed_account_ex (data : list Z) : AccountInfo :=
  mkAccountInfo (replicate 32 7) (if decide (data = []) then replicate 32 52 else replicate 32 9)
    false true data.

(** The bytes of the feed after its creation, and after a second push. *)
Definition feed_bytes (r : Result ProgramError AccountInfo) : list Z :=
  match r with Ok a => ai_data a | _ => [] end.
Definition feed_1 : list Z :=
  Eval vm_compute in feed_bytes (@process_instruction _ _ sys_ex (replicate 32 9)
    [pusher_ex; feed_account_ex []] 0 (push_ex 100 17) 1000).
Definition feed_2 : list Z :=
  Eval vm_compute in feed_bytes (@process_instruction _ _ sys_ex (replicate 32 9)
    [pusher_ex; feed_account_ex feed_1] 152 (push_ex 200 17) 2000).

Definition pusher_signed (k : Pubkey) : Prop := k = replicate 32 1.

Lemma accounts_ex_shown :
  Forall (feed_shown (replicate 32 9) {[ replicate 32 7 := feed_1 ]} pusher_signed)
    [pusher_ex; feed_account_ex feed_1].
Proof.
  repeat constructor; try done; try (vm_compute; congruence); try (intros H; vm_compute in H; done).
Qed.

Lemma push_ex_bytes : Forall is_byte (push_ex 200 17).
Proof. repeat (constructor; [by vm_compute |]). constructor. Qed.

Lemma feed_ex_step :
  feed_step (replicate 32 9) pusher_signed 2000 {[ replicate 32 7 := feed_1 ]}
    {[ replicate 32 7 := feed_2 ]}.
Proof.
  replace {[ replicate 32 7 := feed_2 ]}
    with (<[ replicate 32 7 := feed_2 ]> ({[ replicate 32 7 := feed_1 ]} : Feeds))
    by apply insert_singleton_eq.
  eapply (feed_push _ _ _ _ sys_ex _ 152 (push_ex 200 17)
            (mkAccountInfo (replicate 32 7) (replicate 32 9) false true feed_2));
    [exact sys_ex_laws | exact accounts_ex_shown | exact push_ex_bytes | by vm_compute
    | vm_compute; reflexivity].
Qed.

(** The feed that [pusher_ex] opens, and the same from the legacy layout. *)
Definition legacy_feed : list Z := take PYTH_PRICE_SIZE feed_1.

Lemma legacy_shown :
  Forall (feed_shown (replicate 32 9) {[ replicate 32 7 := legacy_feed ]} pusher_signed)
    [pusher_ex; feed_account_ex legacy_feed].
Proof.
  repeat constructor; try done; try (vm_compute; congruence); try (intros H; vm_compute in H; done).
Qed.

Lemma price_feed_witness :
  feed_1 <> feed_2 /\
  (exists l', ({[ replicate 32 7 := feed_2 ]} : Feeds) !! replicate 32 7 = Some l' /\
    feed_authority l' = replicate 32 1 /\ feed_id l' = replicate 32 7) /\
  feed_authority (feed_bytes (@process_instruction _ _ sys_ex (replicate 32 9)
    [pusher_ex; feed_account_ex legacy_feed] 120 (push_ex 200 17) 2000)) = replicate 32 1.
Proof.
  split; [by vm_compute |]. split.
  - apply (proj1 (price_feed_belongs_to_its_authority (replicate 32 9)
             {[ replicate 32 7 := feed_1 ]}) {[ replicate 32 7 := feed_2 ]} (replicate 32 7) feed_1);
      [apply lookup_singleton_eq | reflexivity |].
    apply rtc_once. exists pusher_signed, 2000. exact feed_ex_step.
  - destruct (proj2 (price_feed_belongs_to_its_authority (replicate 32 9)
      {[ replicate 32 7 := legacy_feed ]}) sys_ex pusher_signed
      [pusher_ex; feed_account_ex legacy_feed] 120 (push_ex 200 17) 2000
      (mkAccountInfo (replicate 32 7) (replicate 32 9) false true feed_2))
      as (_ & _ & s & rest & E & _ & Ha).
    + exact sys_ex_laws.
    + vm_compute. reflexivity.
    + exact legacy_shown.
    + exact push_ex_bytes.
    + by vm_compute.
    + intros l0. cbn [ai_key]. rewrite lookup_singleton_eq. intros [= <-]. reflexivity.
    + injection E as <- _. exact Ha.
Defined.

#[local] Existing Instance fixed_ref.

Lemma pushed_price_witness :
  exists r, pyth_load_oracle_price (mkPyth (replicate 32 7) (replicate 32 9))
    (mkAccountView (replicate 32 7) feed_2 (replicate 32 9)) = Ok (mkUnchecked r 2000).
Proof.
  eexists.
  etransitivity;
    [apply (pushed_price_is_loaded sys_ex sys_ex_laws (replicate 32 9) pusher_signed
       {[ replicate 32 7 := feed_1 ]} [pusher_ex; feed_account_ex feed_1] 152 (push_ex 200 17) 2000
       (mkAccountInfo (replicate 32 7) (replicate 32 9) false true feed_2)) |].
  - vm_compute; reflexivity.
  - exact accounts_ex_shown.
  - exact push_ex_bytes.
  - by vm_compute.
  - vm_compute. split; congruence.
  - vm_compute. reflexivity.
Defined.
