(* ===== verification/IxsUser.v ===== *)
(** * Accounts of the instructions of users

    [programs/autara-program/src/ixs]: for each instruction of a lender, a borrower or a
    donor, the accounts it takes in order and the checks on them.  Every account is
    converted in order and the first failure is returned; then [validate] runs. *)
From S2P Require Import Prelude.
From S2P Require Import Errors.
From S2P Require Import Monad.
From S2P Require Import FixedPoint.
From S2P Require Import Pda.
From S2P Require Import OracleRate.
From S2P Require Import Oracle.
From S2P Require Import GlobalConfig.
From S2P Require Import LiquidatorWhitelist.
From S2P Require Import MarketConfig.
From S2P Require Import SupplyPosition.
From S2P Require Import BorrowPosition.
From S2P Require Import CollateralVault.
From S2P Require Import SupplyVault.
From S2P Require Import Market.
From S2P Require Import ProgramErrors.
From S2P Require Import Accounts.

(** [programs/autara-program/src/ixs/supply_apl.rs] *)
Module SupplyApl.
Record Accounts : Type := mkAccounts {
  market : Account Market;
  supply_position : Account SupplyPosition;
  authority : Pubkey;
  authority_supply_ata : Account TokenAccount;
  market_supply_vault : Account TokenAccount;
  apl_token_program : Pubkey;
  supply_oracle : AccountInfo;
  collateral_oracle : AccountInfo }.

Section Ops.
Context {CH : Chain} {AC : AccountCodec} {PC : PdaCrate}.

Definition validate (self : Accounts) : Result LendingProgramErrorKind () :=
  let supply_position' := value (supply_position self) in
  let market' := value (market self) in
  let? _ := reject_if
    (key_ne (SupplyPosition.authority supply_position') (authority self))
    Validation.InvalidAuthority in
  let? _ := reject_if
    (key_ne (SupplyPosition.market supply_position') (key (market self)))
    Validation.InvalidMarket in
  let? _ := reject_if
    (key_ne (SupplyVault.vault (supply_vault market')) (key (market_supply_vault self)))
    Validation.InvalidMarketVault in
  reject_if
    (key_ne (ta_mint (value (authority_supply_ata self))) (SupplyVault.mint (supply_vault market')))
    Validation.InvalidMintForTokenAccount.

Definition from_accounts : Parser Accounts :=
  let! market' := next_market in
  let! supply_position' := next_supply_position in
  let! authority' := next_signer in
  let! authority_supply_ata' := next_token in
  let! market_supply_vault' := next_token in
  let! apl_token_program' := next_token_program in
  let! supply_oracle' := next_account_info in
  let! collateral_oracle' := next_account_info in
  let this := mkAccounts market' supply_position' authority' authority_supply_ata'
    market_supply_vault' apl_token_program' supply_oracle' collateral_oracle' in
  let! _ := st_lift (validate this) in
  st_ret this.

End Ops.
End SupplyApl.

(** [programs/autara-program/src/ixs/withdraw_supply.rs] *)
Module WithdrawSupply.
Record Accounts : Type := mkAccounts {
  market : Account Market;
  supply_position : Account SupplyPosition;
  authority : Pubkey;
  authority_supply_ata : Account TokenAccount;
  market_supply_vault : Account TokenAccount;
  apl_token_program : Pubkey;
  supply_oracle : AccountInfo;
  collateral_oracle : AccountInfo }.

Section Ops.
Context {CH : Chain} {AC : AccountCodec} {PC : PdaCrate}.

Definition validate (self : Accounts) : Result LendingProgramErrorKind () :=
  let supply_position' := value (supply_position self) in
  let market' := value (market self) in
  let? _ := reject_if
    (key_ne (SupplyPosition.authority supply_position') (authority self))
    Validation.InvalidAuthority in
  let? _ := reject_if
    (key_ne (SupplyPosition.market supply_position') (key (market self)))
    Validation.InvalidMarket in
  let? _ := reject_if
    (key_ne (SupplyVault.vault (supply_vault market')) (key (market_supply_vault self)))
    Validation.InvalidMarketVault in
  reject_if
    (key_ne (ta_mint (value (authority_supply_ata self))) (SupplyVault.mint (supply_vault market')))
    Validation.InvalidMintForTokenAccount.

Definition from_accounts : Parser Accounts :=
  let! market' := next_market in
  let! supply_position' := next_supply_position in
  let! authority' := next_signer in
  let! authority_supply_ata' := next_token in
  let! market_supply_vault' := next_token in
  let! apl_token_program' := next_token_program in
  let! supply_oracle' := next_account_info in
  let! collateral_oracle' := next_account_info in
  let this := mkAccounts market' supply_position' authority' authority_supply_ata'
    market_supply_vault' apl_token_program' supply_oracle' collateral_oracle' in
  let! _ := st_lift (validate this) in
  st_ret this.

End Ops.
End WithdrawSupply.

(** [programs/autara-program/src/ixs/borrow_apl.rs] *)
Module BorrowApl.
Record Accounts : Type := mkAccounts {
  market : Account Market;
  borrow_position : Account BorrowPosition;
  authority : Pubkey;
  authority_supply_ata : Account TokenAccount;
  market_supply_vault : Account TokenAccount;
  apl_token_program : Pubkey;
  supply_oracle : AccountInfo;
  collateral_oracle : AccountInfo }.

Section Ops.
Context {CH : Chain} {AC : AccountCodec} {PC : PdaCrate}.

Definition validate (self : Accounts) : Result LendingProgramErrorKind () :=
  let borrow_position' := value (borrow_position self) in
  let market' := value (market self) in
  let? _ := reject_if
    (key_ne (BorrowPosition.authority borrow_position') (authority self))
    Validation.InvalidAuthority in
  let? _ := reject_if
    (key_ne (BorrowPosition.market borrow_position') (key (market self)))
    Validation.InvalidMarket in
  let? _ := reject_if
    (key_ne (SupplyVault.vault (supply_vault market')) (key (market_supply_vault self)))
    Validation.InvalidMarketVault in
  reject_if
    (key_ne (ta_mint (value (authority_supply_ata self))) (SupplyVault.mint (supply_vault market')))
    Validation.InvalidMintForTokenAccount.

Definition from_accounts : Parser Accounts :=
  let! market' := next_market in
  let! borrow_position' := next_borrow_position in
  let! authority' := next_signer in
  let! authority_supply_ata' := next_token in
  let! market_supply_vault' := next_token in
  let! apl_token_program' := next_token_program in
  let! supply_oracle' := next_account_info in
  let! collateral_oracle' := next_account_info in
  let this := mkAccounts market' borrow_position' authority' authority_supply_ata'
    market_supply_vault' apl_token_program' supply_oracle' collateral_oracle' in
  let! _ := st_lift (validate this) in
  st_ret this.

End Ops.
End BorrowApl.

(** [programs/autara-program/src/ixs/repay_apl.rs] *)
Module RepayApl.
Record Accounts : Type := mkAccounts {
  market : Account Market;
  borrow_position : Account BorrowPosition;
  authority : Pubkey;
  authority_supply_ata : Account TokenAccount;
  market_supply_vault : Account TokenAccount;
  apl_token_program : Pubkey;
  supply_oracle : AccountInfo;
  collateral_oracle : AccountInfo }.

Section Ops.
Context {CH : Chain} {AC : AccountCodec} {PC : PdaCrate}.

Definition validate (self : Accounts) : Result LendingProgramErrorKind () :=
  let borrow_position' := value (borrow_position self) in
  let market' := value (market self) in
  let? _ := reject_if
    (key_ne (BorrowPosition.authority borrow_position') (authority self))
    Validation.InvalidAuthority in
  let? _ := reject_if
    (key_ne (BorrowPosition.market borrow_position') (key (market self)))
    Validation.InvalidMarket in
  let? _ := reject_if
    (key_ne (SupplyVault.vault (supply_vault market')) (key (market_supply_vault self)))
    Validation.InvalidMarketVault in
  reject_if
    (key_ne (ta_mint (value (authority_supply_ata self))) (SupplyVault.mint (supply_vault market')))
    Validation.InvalidMintForTokenAccount.

Definition from_accounts : Parser Accounts :=
  let! market' := next_market in
  let! borrow_position' := next_borrow_position in
  let! authority' := next_signer in
  let! authority_supply_ata' := next_token in
  let! market_supply_vault' := next_token in
  let! apl_token_program' := next_token_program in
  let! supply_oracle' := next_account_info in
  let! collateral_oracle' := next_account_info in
  let this := mkAccounts market' borrow_position' authority' authority_supply_ata'
    market_supply_vault' apl_token_program' supply_oracle' collateral_oracle' in
  let! _ := st_lift (validate this) in
  st_ret this.

End Ops.
End RepayApl.

(** [programs/autara-program/src/ixs/deposit_apl_collateral.rs] *)
Module DepositAplCollateral.
Record Accounts : Type := mkAccounts {
  market : Account Market;
  borrow_position : Account BorrowPosition;
  authority : Pubkey;
  authority_collateral_ata : Account TokenAccount;
  market_collateral_vault : Account TokenAccount;
  apl_token_program : Pubkey;
  supply_oracle : AccountInfo;
  collateral_oracle : AccountInfo }.

Section Ops.
Context {CH : Chain} {AC : AccountCodec} {PC : PdaCrate}.

Definition validate (self : Accounts) : Result LendingProgramErrorKind () :=
  let borrow_position' := value (borrow_position self) in
  let market' := value (market self) in
  let? _ := reject_if
    (key_ne (BorrowPosition.authority borrow_position') (authority self))
    Validation.InvalidAuthority in
  let? _ := reject_if
    (key_ne (BorrowPosition.market borrow_position') (key (market self)))
    Validation.InvalidMarket in
  let? _ := reject_if
    (key_ne (CollateralVault.vault (collateral_vault market')) (key (market_collateral_vault self)))
    Validation.InvalidMarketVault in
  reject_if
    (key_ne (ta_mint (value (authority_collateral_ata self))) (CollateralVault.mint (collateral_vault market')))
    Validation.InvalidMintForTokenAccount.

Definition from_accounts : Parser Accounts :=
  let! market' := next_market in
  let! borrow_position' := next_borrow_position in
  let! authority' := next_signer in
  let! authority_collateral_ata' := next_token in
  let! market_collateral_vault' := next_token in
  let! apl_token_program' := next_token_program in
  let! supply_oracle' := next_account_info in
  let! collateral_oracle' := next_account_info in
  let this := mkAccounts market' borrow_position' authority' authority_collateral_ata'
    market_collateral_vault' apl_token_program' supply_oracle' collateral_oracle' in
  let! _ := st_lift (validate this) in
  st_ret this.

End Ops.
End DepositAplCollateral.

(** [programs/autara-program/src/ixs/withdraw_apl_collateral.rs] *)
Module WithdrawAplCollateral.
Record Accounts : Type := mkAccounts {
  market : Account Market;
  borrow_position : Account BorrowPosition;
  authority : Pubkey;
  authority_collateral_ata : Account TokenAccount;
  market_collateral_vault : Account TokenAccount;
  apl_token_program : Pubkey;
  supply_oracle : AccountInfo;
  collateral_oracle : AccountInfo }.

Section Ops.
Context {CH : Chain} {AC : AccountCodec} {PC : PdaCrate}.

Definition validate (self : Accounts) : Result LendingProgramErrorKind () :=
  let borrow_position' := value (borrow_position self) in
  let market' := value (market self) in
  let? _ := reject_if
    (key_ne (BorrowPosition.authority borrow_position') (authority self))
    Validation.InvalidAuthority in
  let? _ := reject_if
    (key_ne (BorrowPosition.market borrow_position') (key (market self)))
    Validation.InvalidMarket in
  let? _ := reject_if
    (key_ne (CollateralVault.vault (collateral_vault market')) (key (market_collateral_vault self)))
    Validation.InvalidMarketVault in
  reject_if
    (key_ne (ta_mint (value (authority_collateral_ata self))) (CollateralVault.mint (collateral_vault market')))
    Validation.InvalidMintForTokenAccount.

Definition from_accounts : Parser Accounts :=
  let! market' := next_market in
  let! borrow_position' := next_borrow_position in
  let! authority' := next_signer in
  let! authority_collateral_ata' := next_token in
  let! market_collateral_vault' := next_token in
  let! apl_token_program' := next_token_program in
  let! supply_oracle' := next_account_info in
  let! collateral_oracle' := next_account_info in
  let this := mkAccounts market' borrow_position' authority' authority_collateral_ata'
    market_collateral_vault' apl_token_program' supply_oracle' collateral_oracle' in
  let! _ := st_lift (validate this) in
  st_ret this.

End Ops.
End WithdrawAplCollateral.

(** [programs/autara-program/src/ixs/borrow_deposit_apl.rs] *)
Module BorrowDepositApl.
Record Accounts : Type := mkAccounts {
  market : Account Market;
  borrow_position : Account BorrowPosition;
  authority : Pubkey;
  authority_supply_ata : Account TokenAccount;
  market_supply_vault : Account TokenAccount;
  authority_collateral_ata : Account TokenAccount;
  market_collateral_vault : Account TokenAccount;
  apl_token_program : Pubkey;
  supply_oracle : AccountInfo;
  collateral_oracle : AccountInfo }.

Section Ops.
Context {CH : Chain} {AC : AccountCodec} {PC : PdaCrate}.

Definition validate (self : Accounts) : Result LendingProgramErrorKind () :=
  let borrow_position' := value (borrow_position self) in
  let market' := value (market self) in
  let? _ := reject_if
    (key_ne (BorrowPosition.authority borrow_position') (authority self))
    Validation.InvalidAuthority in
  let? _ := reject_if
    (key_ne (BorrowPosition.market borrow_position') (key (market self)))
    Validation.InvalidMarket in
  let? _ := reject_if
    (key_ne (SupplyVault.vault (supply_vault market')) (key (market_supply_vault self)))
    Validation.InvalidMarketVault in
  let? _ := reject_if
    (key_ne (ta_mint (value (authority_supply_ata self))) (SupplyVault.mint (supply_vault market')))
    Validation.InvalidMintForTokenAccount in
  let? _ := reject_if
    (key_ne (CollateralVault.vault (collateral_vault market')) (key (market_collateral_vault self)))
    Validation.InvalidMarketVault in
  reject_if
    (key_ne (ta_mint (value (authority_collateral_ata self))) (CollateralVault.mint (collateral_vault market')))
    Validation.InvalidMintForTokenAccount.

Definition from_accounts : Parser Accounts :=
  let! market' := next_market in
  let! borrow_position' := next_borrow_position in
  let! authority' := next_signer in
  let! authority_supply_ata' := next_token in
  let! market_supply_vault' := next_token in
  let! authority_collateral_ata' := next_token in
  let! market_collateral_vault' := next_token in
  let! apl_token_program' := next_token_program in
  let! supply_oracle' := next_account_info in
  let! collateral_oracle' := next_account_info in
  let this := mkAccounts market' borrow_position' authority' authority_supply_ata'
    market_supply_vault' authority_collateral_ata' market_collateral_vault'
    apl_token_program' supply_oracle' collateral_oracle' in
  let! _ := st_lift (validate this) in
  st_ret this.

End Ops.
End BorrowDepositApl.

(** [programs/autara-program/src/ixs/withdraw_repay_apl.rs] *)
Module WithdrawRepayApl.
Record Accounts : Type := mkAccounts {
  market : Account Market;
  borrow_position : Account BorrowPosition;
  authority : Pubkey;
  authority_supply_ata : Account TokenAccount;
  market_supply_vault : Account TokenAccount;
  authority_collateral_ata : Account TokenAccount;
  market_collateral_vault : Account TokenAccount;
  supply_mint_program : Pubkey;
  supply_oracle : AccountInfo;
  collateral_oracle : AccountInfo }.

Section Ops.
Context {CH : Chain} {AC : AccountCodec} {PC : PdaCrate}.

Definition validate (self : Accounts) : Result LendingProgramErrorKind () :=
  let borrow_position' := value (borrow_position self) in
  let market' := value (market self) in
  let? _ := reject_if
    (key_ne (BorrowPosition.authority borrow_position') (authority self))
    Validation.InvalidAuthority in
  let? _ := reject_if
    (key_ne (BorrowPosition.market borrow_position') (key (market self)))
    Validation.InvalidMarket in
  let? _ := reject_if
    (key_ne (SupplyVault.vault (supply_vault market')) (key (market_supply_vault self)))
    Validation.InvalidMarketVault in
  let? _ := reject_if
    (key_ne (ta_mint (value (authority_supply_ata self))) (SupplyVault.mint (supply_vault market')))
    Validation.InvalidMintForTokenAccount in
  let? _ := reject_if
    (key_ne (CollateralVault.vault (collateral_vault market')) (key (market_collateral_vault self)))
    Validation.InvalidMarketVault in
  reject_if
    (key_ne (ta_mint (value (authority_collateral_ata self))) (CollateralVault.mint (collateral_vault market')))
    Validation.InvalidMintForTokenAccount.

Definition from_accounts : Parser Accounts :=
  let! market' := next_market in
  let! borrow_position' := next_borrow_position in
  let! authority' := next_signer in
  let! authority_supply_ata' := next_token in
  let! market_supply_vault' := next_token in
  let! authority_collateral_ata' := next_token in
  let! market_collateral_vault' := next_token in
  let! supply_mint_program' := next_token_program in
  let! supply_oracle' := next_account_info in
  let! collateral_oracle' := next_account_info in
  let this := mkAccounts market' borrow_position' authority' authority_supply_ata'
    market_supply_vault' authority_collateral_ata' market_collateral_vault'
    supply_mint_program' supply_oracle' collateral_oracle' in
  let! _ := st_lift (validate this) in
  st_ret this.

End Ops.
End WithdrawRepayApl.

(** [programs/autara-program/src/ixs/donate_supply.rs] *)
Module DonateSupply.
Record Accounts : Type := mkAccounts {
  market : Account Market;
  authority : Pubkey;
  authority_supply_ata : Account TokenAccount;
  market_supply_vault : Account TokenAccount;
  apl_token_program : Pubkey }.

Section Ops.
Context {CH : Chain} {AC : AccountCodec} {PC : PdaCrate}.

Definition validate (self : Accounts) : Result LendingProgramErrorKind () :=
  let market' := value (market self) in
  let? _ := reject_if
    (key_ne (SupplyVault.vault (supply_vault market')) (key (market_supply_vault self)))
    Validation.InvalidMarketVault in
  reject_if
    (key_ne (ta_mint (value (authority_supply_ata self))) (SupplyVault.mint (supply_vault market')))
    Validation.InvalidMintForTokenAccount.

Definition from_accounts : Parser Accounts :=
  let! market' := next_market in
  let! authority' := next_signer in
  let! authority_supply_ata' := next_token in
  let! market_supply_vault' := next_token in
  let! apl_token_program' := next_token_program in
  let this := mkAccounts market' authority' authority_supply_ata' market_supply_vault'
    apl_token_program' in
  let! _ := st_lift (validate this) in
  st_ret this.

End Ops.
End DonateSupply.

