(* ===== verification/IxsAdmin.v ===== *)
(** * Accounts of the instructions of curators, liquidators and the admin

    [programs/autara-program/src/ixs]: for each instruction, the accounts it takes in order
    and the checks on them. *)
From S2P Require Import Prelude.
From S2P Require Import Errors.
From S2P Require Import Monad.
From S2P Require Import FixedPoint.
From S2P Require Import Pda.
From S2P Require Import OracleRate.
From S2P Require Import Oracle.
From S2P Require Import GlobalConfig.
From S2P Require Import LiquidatorWhitelist.
From S2P Require Import MarketConfig.
From S2P Require Import SupplyPosition.
From S2P Require Import BorrowPosition.
From S2P Require Import CollateralVault.
From S2P Require Import SupplyVault.
From S2P Require Import Market.
From S2P Require Import ProgramErrors.
From S2P Require Import Accounts.

(** [programs/autara-program/src/ixs/begin_capital_sweep.rs] *)
Module BeginCapitalSweep.
Record Accounts : Type := mkAccounts {
  market : Account Market;
  borrow_position : Account BorrowPosition;
  curator : Pubkey;
  curator_collateral_ata : Account TokenAccount;
  market_collateral_vault : Account TokenAccount;
  apl_token_program : Pubkey;
  supply_oracle : AccountInfo;
  collateral_oracle : AccountInfo }.

Section Ops.
Context {CH : Chain} {AC : AccountCodec} {PC : PdaCrate}.

Definition validate (self : Accounts) : Result LendingProgramErrorKind () :=
  let borrow_position' := value (borrow_position self) in
  let market' := value (market self) in
  let? _ := reject_if
    (key_ne (BorrowPosition.market borrow_position') (key (market self)))
    Validation.InvalidMarket in
  let? _ := reject_if
    (key_ne (MarketConfig.curator (config market')) (curator self))
    Validation.InvalidMarketAuthority in
  let? _ := reject_if
    (key_ne (ta_mint (value (curator_collateral_ata self))) (CollateralVault.mint (collateral_vault market')))
    Validation.InvalidMintForTokenAccount in
  let? _ := reject_if
    (key_ne (CollateralVault.vault (collateral_vault market')) (key (market_collateral_vault self)))
    Validation.InvalidMarketVault in
  reject_if
    (key_ne (ta_mint (value (market_collateral_vault self))) (CollateralVault.mint (collateral_vault market')))
    Validation.InvalidMintForTokenAccount.

Definition from_accounts : Parser Accounts :=
  let! market' := next_market in
  let! borrow_position' := next_borrow_position in
  let! curator' := next_signer in
  let! curator_collateral_ata' := next_token in
  let! market_collateral_vault' := next_token in
  let! apl_token_program' := next_token_program in
  let! supply_oracle' := next_account_info in
  let! collateral_oracle' := next_account_info in
  let this := mkAccounts market' borrow_position' curator' curator_collateral_ata'
    market_collateral_vault' apl_token_program' supply_oracle' collateral_oracle' in
  let! _ := st_lift (validate this) in
  st_ret this.

End Ops.
End BeginCapitalSweep.

(** [programs/autara-program/src/ixs/settle_capital_sweep.rs] *)
Module SettleCapitalSweep.
Record Accounts : Type := mkAccounts {
  market : Account Market;
  borrow_position : Account BorrowPosition;
  curator : Pubkey;
  curator_supply_ata : Account TokenAccount;
  curator_collateral_ata : Account TokenAccount;
  market_supply_vault : Account TokenAccount;
  market_collateral_vault : Account TokenAccount;
  apl_token_program : Pubkey;
  supply_oracle : AccountInfo;
  collateral_oracle : AccountInfo }.

Section Ops.
Context {CH : Chain} {AC : AccountCodec} {PC : PdaCrate}.

Definition validate (self : Accounts) : Result LendingProgramErrorKind () :=
  let borrow_position' := value (borrow_position self) in
  let market' := value (market self) in
  let? _ := reject_if
    (key_ne (BorrowPosition.market borrow_position') (key (market self)))
    Validation.InvalidMarket in
  let? _ := reject_if
    (key_ne (MarketConfig.curator (config market')) (curator self))
    Validation.InvalidMarketAuthority in
  let? _ := reject_if
    (key_ne (ta_mint (value (curator_supply_ata self))) (SupplyVault.mint (supply_vault market'))
    || key_ne (ta_mint (value (market_supply_vault self))) (SupplyVault.mint (supply_vault market')))
    Validation.InvalidMintForTokenAccount in
  let? _ := reject_if
    (key_ne (ta_mint (value (curator_collateral_ata self))) (CollateralVault.mint (collateral_vault market'))
    || key_ne (ta_mint (value (market_collateral_vault self))) (CollateralVault.mint (collateral_vault market')))
    Validation.InvalidMintForTokenAccount in
  reject_if
    (key_ne (SupplyVault.vault (supply_vault market')) (key (market_supply_vault self))
    || key_ne (CollateralVault.vault (collateral_vault market')) (key (market_collateral_vault self)))
    Validation.InvalidMarketVault.

Definition from_accounts : Parser Accounts :=
  let! market' := next_market in
  let! borrow_position' := next_borrow_position in
  let! curator' := next_signer in
  let! curator_supply_ata' := next_token in
  let! curator_collateral_ata' := next_token in
  let! market_supply_vault' := next_token in
  let! market_collateral_vault' := next_token in
  let! apl_token_program' := next_token_program in
  let! supply_oracle' := next_account_info in
  let! collateral_oracle' := next_account_info in
  let this := mkAccounts market' borrow_position' curator' curator_supply_ata'
    curator_collateral_ata' market_supply_vault' market_collateral_vault'
    apl_token_program' supply_oracle' collateral_oracle' in
  let! _ := st_lift (validate this) in
  st_ret this.

End Ops.
End SettleCapitalSweep.

(** [programs/autara-program/src/ixs/socialize_loss.rs] *)
Module SocializeLoss.
Record Accounts : Type := mkAccounts {
  market : Account Market;
  borrow_position : Account BorrowPosition;
  curator : Pubkey;
  receiver_collateral_ata : Account TokenAccount;
  market_collateral_vault : Account TokenAccount;
  apl_token_program : Pubkey;
  supply_oracle : AccountInfo;
  collateral_oracle : AccountInfo }.

Section Ops.
Context {CH : Chain} {AC : AccountCodec} {PC : PdaCrate}.

Definition validate (self : Accounts) : Result LendingProgramErrorKind () :=
  let borrow_position' := value (borrow_position self) in
  let market' := value (market self) in
  let? _ := reject_if
    (key_ne (BorrowPosition.market borrow_position') (key (market self)))
    Validation.InvalidMarket in
  let? _ := reject_if
    (key_ne (MarketConfig.curator (config market')) (curator self))
    Validation.InvalidMarketAuthority in
  let? _ := reject_if
    (key_ne (ta_mint (value (receiver_collateral_ata self))) (CollateralVault.mint (collateral_vault market')))
    Validation.InvalidMintForTokenAccount in
  let? _ := reject_if
    (key_ne (CollateralVault.vault (collateral_vault market')) (key (market_collateral_vault self)))
    Validation.InvalidMarketVault in
  reject_if
    (key_ne (ta_mint (value (market_collateral_vault self))) (CollateralVault.mint (collateral_vault market')))
    Validation.InvalidMintForTokenAccount.

Definition from_accounts : Parser Accounts :=
  let! market' := next_market in
  let! borrow_position' := next_borrow_position in
  let! curator' := next_signer in
  let! receiver_collateral_ata' := next_token in
  let! market_collateral_vault' := next_token in
  let! apl_token_program' := next_token_program in
  let! supply_oracle' := next_account_info in
  let! collateral_oracle' := next_account_info in
  let this := mkAccounts market' borrow_position' curator' receiver_collateral_ata'
    market_collateral_vault' apl_token_program' supply_oracle' collateral_oracle' in
  let! _ := st_lift (validate this) in
  st_ret this.

End Ops.
End SocializeLoss.

(** [programs/autara-program/src/ixs/redeem_curator_fees.rs] *)
Module RedeemCuratorFees.
Record Accounts : Type := mkAccounts {
  curator : Pubkey;
  market : Account Market;
  curator_supply_ata : Account TokenAccount;
  market_supply_vault : Account TokenAccount;
  apl_token_program : Pubkey }.

Section Ops.
Context {CH : Chain} {AC : AccountCodec} {PC : PdaCrate}.

Definition validate (self : Accounts) : Result LendingProgramErrorKind () :=
  let market' := value (market self) in
  let? _ := reject_if
    (key_ne (MarketConfig.curator (config market')) (curator self))
    Validation.InvalidAuthority in
  reject_if
    (key_ne (SupplyVault.vault (supply_vault market')) (key (market_supply_vault self)))
    Validation.InvalidMarketVault.

Definition from_accounts : Parser Accounts :=
  let! curator' := next_signer in
  let! market' := next_market in
  let! curator_supply_ata' := next_token in
  let! market_supply_vault' := next_token in
  let! apl_token_program' := next_token_program in
  let this := mkAccounts curator' market' curator_supply_ata' market_supply_vault'
    apl_token_program' in
  let! _ := st_lift (validate this) in
  st_ret this.

End Ops.
End RedeemCuratorFees.

(** [programs/autara-program/src/ixs/redeem_protocol_fees.rs] *)
Module RedeemProtocolFees.
Record Accounts : Type := mkAccounts {
  signer_ : Pubkey;
  global_config : Account GlobalConfig;
  market : Account Market;
  receiver_supply_ata : Account TokenAccount;
  market_supply_vault : Account TokenAccount;
  apl_token_program : Pubkey }.

Section Ops.
Context {CH : Chain} {AC : AccountCodec} {PC : PdaCrate}.

Definition validate (self : Accounts) : Result LendingProgramErrorKind () :=
  let market' := value (market self) in
  let? _ := reject_if
    (key_ne (key (global_config self)) (fst (find_global_config_pda id)))
    Validation.InvalidProtocolAuthority in
  let? _ := reject_if
    (negb (can_redeem_fees (value (global_config self)) (signer_ self)))
    Validation.InvalidAuthority in
  reject_if
    (key_ne (SupplyVault.vault (supply_vault market')) (key (market_supply_vault self)))
    Validation.InvalidMarketVault.

Definition from_accounts : Parser Accounts :=
  let! signer_' := next_signer in
  let! global_config' := next_as (zero_copy global_config_of_bytes) in
  let! market' := next_market in
  let! receiver_supply_ata' := next_token in
  let! market_supply_vault' := next_token in
  let! apl_token_program' := next_token_program in
  let this := mkAccounts signer_' global_config' market' receiver_supply_ata' market_supply_vault'
    apl_token_program' in
  let! _ := st_lift (validate this) in
  st_ret this.

End Ops.
End RedeemProtocolFees.

(** [programs/autara-program/src/ixs/update_config.rs] *)
Module UpdateConfig.
Record Accounts : Type := mkAccounts {
  market : Account Market;
  global_config : Account GlobalConfig;
  curator : Pubkey;
  updated_supply_oracle : AccountInfo;
  updated_collateral_oracle : AccountInfo }.

Section Ops.
Context {CH : Chain} {AC : AccountCodec} {PC : PdaCrate}.

Definition validate (self : Accounts) : Result LendingProgramErrorKind () :=
  let market' := value (market self) in
  let? _ := reject_if
    (key_ne (key (global_config self)) (fst (find_global_config_pda id)))
    Validation.InvalidProtocolAuthority in
  reject_if
    (key_ne (MarketConfig.curator (config market')) (curator self))
    Validation.InvalidMarketAuthority.

Definition from_accounts : Parser Accounts :=
  let! market' := next_market in
  let! global_config' := next_as (zero_copy global_config_of_bytes) in
  let! curator' := next_signer in
  let! updated_supply_oracle' := next_account_info in
  let! updated_collateral_oracle' := next_account_info in
  let this := mkAccounts market' global_config' curator' updated_supply_oracle'
    updated_collateral_oracle' in
  let! _ := st_lift (validate this) in
  st_ret this.

End Ops.
End UpdateConfig.

(** [programs/autara-program/src/ixs/liquidate.rs]: a market with whitelisted liquidators
    takes one more account, the entry of the liquidator. *)
Module Liquidate.
Record Accounts : Type := mkAccounts {
  market : Account Market;
  borrow_position : Account BorrowPosition;
  liquidator : Pubkey;
  liquidator_supply_ata : Account TokenAccount;
  liquidator_collateral_ata : Account TokenAccount;
  market_supply_vault : Account TokenAccount;
  market_collateral_vault : Account TokenAccount;
  apl_token_program : Pubkey;
  supply_oracle : AccountInfo;
  collateral_oracle : AccountInfo;
  liquidator_whitelist_entry : option (Account LiquidatorWhitelistEntry) }.

Section Ops.
Context {CH : Chain} {AC : AccountCodec} {PC : PdaCrate}.

Definition validate (self : Accounts) : Result LendingProgramErrorKind () :=
  let borrow_position' := value (borrow_position self) in
  let market' := value (market self) in
  let? _ := reject_if
    (key_ne (ta_mint (value (liquidator_collateral_ata self)))
       (CollateralVault.mint (collateral_vault market')))
    Validation.InvalidMintForTokenAccount in
  let? _ := reject_if
    (key_ne (ta_mint (value (liquidator_supply_ata self)))
       (SupplyVault.mint (supply_vault market')))
    Validation.InvalidMintForTokenAccount in
  let? _ := reject_if
    (key_ne (BorrowPosition.market borrow_position') (key (market self)))
    Validation.InvalidMarket in
  let? _ := reject_if
    (key_ne (key (market_collateral_vault self))
       (CollateralVault.vault (collateral_vault market')))
    Validation.InvalidMarketVault in
  let? _ := reject_if
    (key_ne (key (market_supply_vault self)) (SupplyVault.vault (supply_vault market')))
    Validation.InvalidMarketVault in
  if negb (liquidations_are_permissionless (config market')) then
    let? entry := ok_or
      (KLendingAccountValidationError Validation.MissingLiquidatorWhitelistEntry)
      (liquidator_whitelist_entry self) in
    let expected_entry :=
      fst (find_liquidator_whitelist_entry_pda id (key (market self)) (liquidator self)) in
    reject_if
      (key_ne (key entry) expected_entry
       || key_ne (LiquidatorWhitelist.market (value entry)) (key (market self))
       || key_ne (LiquidatorWhitelist.liquidator (value entry)) (liquidator self)
       || negb (is_active (value entry)))
      Validation.LiquidatorNotWhitelisted
  else Ok tt.

(** The entry account: absent, or the program itself in its place, counts as missing; any
    account that is not an initialised entry of the program as not whitelisted. *)
Definition next_entry : Parser (Account LiquidatorWhitelistEntry) :=
  let! entry_account := fun l =>
    match next_account_info l with
    | (Ok a, l') => (Ok a, l')
    | (_, l') =>
      (Err (KLendingAccountValidationError Validation.MissingLiquidatorWhitelistEntry), l')
    end in
  let! _ := st_lift (reject_if (bool_decide (ai_key entry_account = id))
                       Validation.MissingLiquidatorWhitelistEntry) in
  st_lift (map_err (KLendingAccountValidationError Validation.LiquidatorNotWhitelisted)
             (zero_copy whitelist_entry_of_bytes entry_account)).

Definition from_accounts : Parser Accounts :=
  let! market' := next_market in
  let! borrow_position' := next_borrow_position in
  let! liquidator' := next_signer in
  let! liquidator_supply_ata' := next_token in
  let! liquidator_collateral_ata' := next_token in
  let! market_supply_vault' := next_token in
  let! market_collateral_vault' := next_token in
  let! apl_token_program' := next_token_program in
  let! supply_oracle' := next_account_info in
  let! collateral_oracle' := next_account_info in
  let! entry' :=
    (if negb (liquidations_are_permissionless (config (value market'))) then
       let! entry := next_entry in st_ret (Some entry)
     else st_ret None) in
  let this := mkAccounts market' borrow_position' liquidator' liquidator_supply_ata'
    liquidator_collateral_ata' market_supply_vault' market_collateral_vault'
    apl_token_program' supply_oracle' collateral_oracle' entry' in
  let! _ := st_lift (validate this) in
  st_ret this.

End Ops.
End Liquidate.

(** [programs/autara-program/src/ixs/liquidator_whitelist.rs] *)
Module AddWhitelistedLiquidator.
Record Accounts : Type := mkAccounts {
  market : Account Market;
  curator : Pubkey;
  whitelist_entry : AccountInfo;
  system_program : Pubkey }.

Section Ops.
Context {CH : Chain} {AC : AccountCodec} {PC : PdaCrate}.

Definition validate (self : Accounts) (data_liquidator : Pubkey) (data_bump : Z)
  : Result LendingProgramErrorKind () :=
  let market' := value (market self) in
  let? _ := reject_if
    (key_ne (MarketConfig.curator (config market')) (curator self))
    Validation.InvalidMarketAuthority in
  let '(expected_entry, expected_bump) :=
    find_liquidator_whitelist_entry_pda id (key (market self)) data_liquidator in
  let? _ := reject_if
    (key_ne (ai_key (whitelist_entry self)) expected_entry
     || negb (data_bump =? expected_bump))
    Validation.InvalidLiquidatorWhitelistEntry in
  if bool_decide (ai_owner (whitelist_entry self) = id) then
    let? entry := res_from KAccountValidationError
      (zero_copy whitelist_entry_of_bytes (whitelist_entry self)) in
    reject_if
      (key_ne (LiquidatorWhitelist.market (value entry)) (key (market self))
       || key_ne (LiquidatorWhitelist.liquidator (value entry)) data_liquidator)
      Validation.InvalidLiquidatorWhitelistEntry
  else
    reject_if (key_ne (ai_owner (whitelist_entry self)) SYSTEM_PROGRAM_ID)
      Validation.InvalidLiquidatorWhitelistEntry.

Definition from_accounts (data_liquidator : Pubkey) (data_bump : Z) : Parser Accounts :=
  let! market' := next_market in
  let! curator' := next_signer in
  let! whitelist_entry' := next_account_info in
  let! system_program' := next_system_program in
  let this := mkAccounts market' curator' whitelist_entry' system_program' in
  let! _ := st_lift (validate this data_liquidator data_bump) in
  st_ret this.

End Ops.
End AddWhitelistedLiquidator.

Module RemoveWhitelistedLiquidator.
Record Accounts : Type := mkAccounts {
  market : Account Market;
  curator : Pubkey;
  whitelist_entry : Account LiquidatorWhitelistEntry }.

Section Ops.
Context {CH : Chain} {AC : AccountCodec} {PC : PdaCrate}.

Definition validate (self : Accounts) (data_liquidator : Pubkey)
  : Result LendingProgramErrorKind () :=
  let market' := value (market self) in
  let? _ := reject_if
    (key_ne (MarketConfig.curator (config market')) (curator self))
    Validation.InvalidMarketAuthority in
  let expected_entry :=
    fst (find_liquidator_whitelist_entry_pda id (key (market self)) data_liquidator) in
  let entry := value (whitelist_entry self) in
  reject_if
    (key_ne (key (whitelist_entry self)) expected_entry
     || key_ne (LiquidatorWhitelist.market entry) (key (market self))
     || key_ne (LiquidatorWhitelist.liquidator entry) data_liquidator)
    Validation.InvalidLiquidatorWhitelistEntry.

Definition from_accounts (data_liquidator : Pubkey) : Parser Accounts :=
  let! market' := next_market in
  let! curator' := next_signer in
  let! whitelist_entry' := next_as (zero_copy_mut whitelist_entry_of_bytes) in
  let this := mkAccounts market' curator' whitelist_entry' in
  let! _ := st_lift (validate this data_liquidator) in
  st_ret this.

End Ops.
End RemoveWhitelistedLiquidator.

(** [programs/autara-program/src/ixs/update_global_config.rs] *)
Module UpdateGlobalConfig.
Record Accounts : Type := mkAccounts {
  signer_ : Pubkey;
  global_config : Account GlobalConfig }.

Section Ops.
Context {CH : Chain} {AC : AccountCodec}.

Definition validate (self : Accounts) : Result LendingProgramErrorKind () :=
  let config := value (global_config self) in
  reject_if
    (negb (can_update_config config (signer_ self))
     && negb (can_upgrade_nomination config (signer_ self)))
    Validation.InvalidProtocolAuthority.

Definition from_accounts : Parser Accounts :=
  let! signer_' := next_signer in
  let! global_config' := next_as (zero_copy_mut global_config_of_bytes) in
  let this := mkAccounts signer_' global_config' in
  let! _ := st_lift (validate this) in
  st_ret this.

End Ops.
End UpdateGlobalConfig.

(** [programs/autara-program/src/ixs/create_market.rs] *)
Module CreateMarket.
Record Accounts : Type := mkAccounts {
  curator : Pubkey;
  payer : Pubkey;
  global_config : Account GlobalConfig;
  market : AccountInfo;
  supply_mint : Account Mint;
  supply_vault : AccountInfo;
  collateral_mint : Account Mint;
  collateral_vault : AccountInfo;
  apl_token_program : Pubkey;
  associated_token_program : Pubkey;
  system_program : Pubkey }.

Section Ops.
Context {CH : Chain} {AC : AccountCodec} {PC : PdaCrate}.

Definition validate (self : Accounts) : Result LendingProgramErrorKind () :=
  let? _ := reject_if
    (key_ne (key (global_config self)) (fst (find_global_config_pda id)))
    Validation.InvalidProtocolAuthority in
  let? _ := reject_if
    (key_ne (ai_key (supply_vault self))
       (get_associated_token_address (ai_key (market self)) (key (supply_mint self))))
    Validation.InvalidMarketVault in
  reject_if
    (key_ne (ai_key (collateral_vault self))
       (get_associated_token_address (ai_key (market self)) (key (collateral_mint self))))
    Validation.InvalidMarketVault.

Definition from_accounts : Parser Accounts :=
  let! curator' := next_signer in
  let! payer' := next_signer in
  let! global_config' := next_as (zero_copy global_config_of_bytes) in
  let! market' := next_account_info in
  let! supply_mint' := next_as (packed mint_of_bytes) in
  let! supply_vault' := next_account_info in
  let! collateral_mint' := next_as (packed mint_of_bytes) in
  let! collateral_vault' := next_account_info in
  let! apl_token_program' := next_token_program in
  let! associated_token_program' := next_as (program apl_ata_id) in
  let! system_program' := next_system_program in
  let this := mkAccounts curator' payer' global_config' market' supply_mint' supply_vault'
    collateral_mint' collateral_vault' apl_token_program' associated_token_program'
    system_program' in
  let! _ := st_lift (validate this) in
  st_ret this.

End Ops.
End CreateMarket.

(** [programs/autara-program/src/ixs/create_supply_position.rs] *)
Module CreateSupplyPosition.
Record Accounts : Type := mkAccounts {
  market : Account Market;
  supply_position : AccountInfo;
  authority : Pubkey;
  payer : Pubkey;
  system_program : Pubkey }.

Definition from_accounts {CH : Chain} {AC : AccountCodec} : Parser Accounts :=
  let! market' := next_market in
  let! supply_position' := next_account_info in
  let! authority' := next_signer in
  let! payer' := next_signer in
  let! system_program' := next_system_program in
  st_ret (mkAccounts market' supply_position' authority' payer' system_program').
End CreateSupplyPosition.

(** [programs/autara-program/src/ixs/create_borrow_position.rs] *)
Module CreateBorrowPosition.
Record Accounts : Type := mkAccounts {
  market : Account Market;
  borrow_position : AccountInfo;
  authority : Pubkey;
  payer : Pubkey;
  system_program : Pubkey }.

Definition from_accounts {CH : Chain} {AC : AccountCodec} : Parser Accounts :=
  let! market' := next_market in
  let! borrow_position' := next_account_info in
  let! authority' := next_signer in
  let! payer' := next_signer in
  let! system_program' := next_system_program in
  st_ret (mkAccounts market' borrow_position' authority' payer' system_program').
End CreateBorrowPosition.

(** [programs/autara-program/src/ixs/create_global_config.rs] *)
Module CreateGlobalConfig.
Record Accounts : Type := mkAccounts {
  payer : Pubkey;
  global_config : AccountInfo;
  system_program : Pubkey }.

Definition from_accounts {CH : Chain} : Parser Accounts :=
  let! payer' := next_signer in
  let! global_config' := next_account_info in
  let! system_program' := next_system_program in
  st_ret (mkAccounts payer' global_config' system_program').
End CreateGlobalConfig.

(** [programs/autara-program/src/ixs/log.rs]: only the program itself can sign for a
    market, so only its own calls are accepted. *)
Module LogAccounts.
Record Accounts : Type := mkAccounts { market : Account Market }.

Definition from_accounts {AC : AccountCodec} : Parser Accounts :=
  let! market' := next_as (zero_copy market_of_bytes) in
  if negb (acc_is_signer market') then st_raise (KProgramError MissingRequiredSignature)
  else st_ret (mkAccounts market').
End LogAccounts.
