(* ===== verification/Events.v ===== *)
(** * Events and calls to other programs

    [autara-lib/src/event.rs] (the events; [EventCodec] has their Borsh form),
    [log_ix] of [autara-lib/src/ixs/log.rs], and what the program asks the runtime to do:
    every [invoke_signed_unchecked] is recorded, with the seeds it signs with, in the order
    of the calls.  The answer of the runtime is a parameter ([Runtime]): any function of
    the calls made before and of the call. *)
From S2P Require Import Prelude.
From S2P Require Import Errors.
From S2P Require Import Monad.
From S2P Require Import FixedPoint.
From S2P Require Import Pda.
From S2P Require Import BorrowPosition.
From S2P Require Import SupplyVault.
From S2P Require Import Market.
From S2P Require Import MarketWrapper.
From S2P Require Import ProgramErrors.

Record LiquidateEvent : Type := mkLiquidateEvent {
  le_market : Pubkey; le_liquidator : Pubkey; le_liquidatee_position : Pubkey;
  le_supply_mint : Pubkey; le_collateral_mint : Pubkey;
  le_health_before_liquidation : BorrowPositionHealth;
  le_health_after_liquidation : BorrowPositionHealth;
  le_supply_repaid : Z; le_collateral_liquidated : Z; le_liquidator_fee : Z }.

Record ReedeemFeeEvent : Type := mkReedeemFeeEvent {
  rf_market : Pubkey; rf_fee_receiver : Pubkey; rf_fee_amount : Z; rf_mint : Pubkey;
  rf_supply_vault_snapshot : SupplyVaultSummary }.

Record SocializeLossEvent : Type := mkSocializeLossEvent {
  sl_market : Pubkey; sl_position : Pubkey; sl_debt_socialized : Z;
  sl_collateral_liquidated : Z }.

Record DonateSupplyEvent : Type := mkDonateSupplyEvent {
  ds_market : Pubkey; ds_donor : Pubkey; ds_mint : Pubkey; ds_amount : Z }.

Record CapitalSweepStartedEvent : Type := mkCapitalSweepStartedEvent {
  cs_market : Pubkey; cs_curator : Pubkey; cs_position : Pubkey; cs_collateral_mint : Pubkey;
  cs_health_before_sweep : BorrowPositionHealth; cs_collateral_swept : Z }.

Record CapitalSweepSettledEvent : Type := mkCapitalSweepSettledEvent {
  ss_market : Pubkey; ss_curator : Pubkey; ss_position : Pubkey; ss_supply_mint : Pubkey;
  ss_collateral_mint : Pubkey;
  ss_health_before_settlement : BorrowPositionHealth;
  ss_health_after_settlement : BorrowPositionHealth;
  ss_supply_repaid : Z; ss_collateral_liquidated : Z; ss_curator_bonus : Z;
  ss_collateral_returned : Z }.

Record LiquidatorWhitelistUpdatedEvent : Type := mkLiquidatorWhitelistUpdatedEvent {
  wl_market : Pubkey; wl_curator : Pubkey; wl_liquidator : Pubkey;
  wl_active_whitelisted_liquidators : Z }.

Module Event.
Inductive AutaraEvent : Type :=
| Liquidate (e : LiquidateEvent)
| Supply (e : SingleMarketTransactionEvent)
| Withdraw (e : SingleMarketTransactionEvent)
| DepositCollateral (e : SingleMarketTransactionEvent)
| WithdrawCollateral (e : SingleMarketTransactionEvent)
| BorrowAndDeposit (e : DoubleMarketTransactionEvent)
| WithdrawAndRepay (e : DoubleMarketTransactionEvent)
| Borrow (e : SingleMarketTransactionEvent)
| Repay (e : SingleMarketTransactionEvent)
| ReedeemProtocolFees (e : ReedeemFeeEvent)
| ReedeemCuratorFees (e : ReedeemFeeEvent)
| SocializeLoss (e : SocializeLossEvent)
| DonateSupply (e : DonateSupplyEvent)
| CapitalSweepStarted (e : CapitalSweepStartedEvent)
| CapitalSweepSettled (e : CapitalSweepSettledEvent)
| LiquidatorWhitelistEntryAdded (e : LiquidatorWhitelistUpdatedEvent)
| LiquidatorWhitelistEntryRemoved (e : LiquidatorWhitelistUpdatedEvent).
End Event.
Notation AutaraEvent := Event.AutaraEvent.

(** [arch_program::instruction::Instruction]: the program, the accounts with their signer
    and writable flags, the data. *)
Record Instruction : Type := mkInstruction {
  ix_program_id : Pubkey;
  ix_accounts : list (Pubkey * bool * bool);
  ix_data : list Z }.

(** The instructions that the program builds: a log to itself ([log_ix]), a token transfer
    ([apl_token::instruction::transfer], which only fails for another program id), the
    creation of an account ([system_instruction::create_account]) and of an associated
    token account ([create_ata_ix]), and an instruction given by the caller. *)
Inductive Cpi : Type :=
| log_ix (autara_program_id market : Pubkey) (event : AutaraEvent)
| transfer (source destination authority : Pubkey) (amount : Z)
| create_account (from to : Pubkey) (lamports space : Z) (owner : Pubkey)
| create_ata_ix (funder ata wallet mint : Pubkey)
| callback (ix : Instruction).

Record Call : Type := mkCall {
  call : Cpi;
  signer_seeds : list (list (list Z)) }.

Class Runtime : Type := cpi_answer : list Call -> Call -> option ProgramError.

(** The state of a handler: the accounts it has borrowed mutably and the calls so far. *)
Record Ctx (S : Type) : Type := mkCtx {
  cx_state : S;
  cx_calls : list Call }.
Arguments mkCtx {S}.
Arguments cx_state {S}.
Arguments cx_calls {S}.

Definition Handler (S A : Type) : Type := STE LendingProgramErrorKind (Ctx S) A.

(** Most handlers borrow a market and a position. *)
Definition cx_market {P} (c : Ctx (Market * P)) : Market := fst (cx_state c).
Definition cx_other {P} (c : Ctx (Market * P)) : P := snd (cx_state c).

(** [?] on a result of the library. *)
Definition from_lending {A} (r : Res A) : Result LendingProgramErrorKind A :=
  match r with Ok a => Ok a | Err e => Err (KLendingError e) | Panic => Panic end.

Section Ops.
Context {RT : Runtime} {S : Type}.

(** [invoke_signed_unchecked(&ix, accounts, seeds)?] *)
Definition invoke_signed_unchecked (ix : Cpi) (seeds : list (list (list Z))) : Handler S () :=
  fun s =>
    let c := mkCall ix seeds in
    match cpi_answer (cx_calls s) c with
    | Some e => (Err (KProgramError e), s)
    | None => (Ok tt, mkCtx (cx_state s) (cx_calls s ++ [c]))
    end.

(** A call of the library on the borrowed accounts, with [?]. *)
Definition lending {A} (m : ST S A) : Handler S A :=
  fun s => let '(r, x) := m (cx_state s) in (from_lending r, mkCtx x (cx_calls s)).

(** A pure call of the library, with [?]. *)
Definition lending_pure {A} (r : Res A) : Handler S A := st_lift (from_lending r).

Lemma from_lending_ok {A} (r : Res A) a : from_lending r = Ok a <-> r = Ok a.
Proof. destruct r; simpl; naive_solver. Qed.

Lemma invoke_ok ix seeds (s : Ctx S) u s' :
  invoke_signed_unchecked ix seeds s = (Ok u, s') ->
  s' = mkCtx (cx_state s) (cx_calls s ++ [mkCall ix seeds]).
Proof. unfold invoke_signed_unchecked. destruct (cpi_answer _ _); naive_solver. Qed.

Lemma lending_ok {A} (m : ST S A) s a s' :
  lending m s = (Ok a, s') ->
  m (cx_state s) = (Ok a, cx_state s') /\ cx_calls s' = cx_calls s.
Proof.
  unfold lending. destruct (m _) as [[x | e |] y]; naive_solver.
Qed.

Lemma lending_pure_ok {A} (r : Res A) (s : Ctx S) a s' :
  lending_pure r s = (Ok a, s') -> r = Ok a /\ s' = s.
Proof.
  intros H. apply st_lift_ok in H as [H ->]. by apply from_lending_ok in H.
Qed.

End Ops.
