(* ===== verification/Processor.v ===== *)
(** * Instruction handlers

    [programs/autara-program/src/processor]: what each instruction does once its accounts
    are read.  A handler runs on a [Ctx]: the market and the position (or other accounts)
    that it borrows mutably, and the calls it makes to the runtime.  [program_id] is the
    id the runtime passes, [ts] is [clock.unix_timestamp]. *)
From S2P Require Import Prelude.
From S2P Require Import Errors.
From S2P Require Import Monad.
From S2P Require Import FixedPoint.
From S2P Require Import Pda.
From S2P Require Import OracleRate.
From S2P Require Import Oracle.
From S2P Require Import GlobalConfig.
From S2P Require Import LiquidatorWhitelist.
From S2P Require Import MarketConfig.
From S2P Require Import SupplyPosition.
From S2P Require Import BorrowPosition.
From S2P Require Import CollateralVault.
From S2P Require Import SupplyVault.
From S2P Require Import Liquidation.
From S2P Require Import Market.
From S2P Require Import MarketWrapper.
From S2P Require Import ProgramErrors.
From S2P Require Import Accounts.
From S2P Require Import IxsUser.
From S2P Require Import IxsAdmin.
From S2P Require Import Events.

(** ** Instruction data *)

Record WithdrawSupplyInstruction : Type := mkWithdrawSupply {
  ws_amount : Z; ws_withdraw_all : bool }.
Record WithdrawAplCollateralInstruction : Type := mkWithdrawAplCollateral {
  wc_amount : Z; wc_withdraw_all : bool }.
Record RepayAplInstruction : Type := mkRepayApl { ra_amount : Z; ra_repay_all : bool }.
Record BorrowDepositAplInstruction : Type := mkBorrowDepositApl {
  bd_deposit_amount : Z; bd_borrow_amount : Z; bd_ix_callback : option Instruction }.
Record WithdrawRepayAplInstruction : Type := mkWithdrawRepayApl {
  wr_repay_amount : Z; wr_withdraw_amount : Z; wr_repay_all : bool; wr_withdraw_all : bool;
  wr_ix_callback : option Instruction }.
Record LiquidateInstruction : Type := mkLiquidate {
  lq_max_borrowed_atoms_to_repay : Z; lq_min_collateral_atoms_to_receive : Z;
  lq_ix_callback : option Instruction }.
Record SettleCapitalSweepInstruction : Type := mkSettleCapitalSweep {
  sc_max_borrowed_atoms_to_repay : Z; sc_max_collateral_atoms_to_return : Z }.
Record UpdateConfigInstruction : Type := mkUpdateConfig {
  uc_supply_oracle_config : option OracleConfig;
  uc_collateral_oracle_config : option OracleConfig;
  uc_ltv_config : option LtvConfig;
  uc_max_supply_atoms : option Z;
  uc_max_utilisation_rate : option IFixedPoint;
  uc_lending_market_fee_in_bps : option Z }.
Record UpdateGlobalConfigInstruction : Type := mkUpdateGlobalConfig {
  ug_accept_nomination : bool;
  ug_nominated_admin : option Pubkey;
  ug_fee_receiver : option Pubkey;
  ug_protocol_fee_share_in_bps : option Z }.

(** [if let Some(x) = o { f(x)?; }] *)
Definition when_some {E S A} (o : option A) (f : A -> STE E S ()) : STE E S () :=
  match o with Some x => f x | None => st_ret tt end.

Section Ops.
Context {FX : FixedCrate} {PC : PdaCrate} {BC : OracleBuild} {RT : Runtime}.

(** ** The market with its oracles *)

(** [AccountView::try_from(account_info)]: fails on an account borrowed mutably. *)
Definition account_view (borrowed : list Pubkey) (a : AccountInfo) : Res AccountView :=
  if bool_decide (ai_key a ∈ borrowed) then Err FailedToLoadAccount
  else Ok (mkAccountView (ai_key a) (ai_data a) (ai_owner a)).

(** [market_ref.wrapper_mut(supply.try_into()?, collateral.try_into()?, ts)?]: the rates
    that the wrapper holds from then on. *)
Definition wrapper_mut {P} (borrowed : list Pubkey) (supply collateral : AccountInfo) (ts : Z)
  : Handler (Market * P) (OracleRate * OracleRate) :=
  let! s := lending_pure (account_view borrowed supply) in
  let! c := lending_pure (account_view borrowed collateral) in
  let! ctx := st_get in
  let! w := lending_pure (MarketWrapper.try_new (cx_market ctx) s c ts) in
  st_ret (supply_oracle w, collateral_oracle w).

(** The wrapper around the borrowed market. *)
Definition the_wrapper (rates : OracleRate * OracleRate) (m : Market) : MarketWrapper :=
  mkWrapper m (fst rates) (snd rates).

(** A method of the wrapper on the borrowed position. *)
Definition on_wrapper {P A} (rates : OracleRate * OracleRate) (f : ST (MarketWrapper * P) A)
  : Handler (Market * P) A :=
  lending (fun '(m, p) =>
    let '(r, (w', p')) := f (the_wrapper rates m, p) in (r, (MarketWrapper.market w', p'))).

(** ** Lenders *)

Definition process_supply_apl (a : SupplyApl.Accounts) (amount : Z) (program_id : Pubkey)
  (ts : Z) : Handler (Market * SupplyPosition) () :=
  let! rates := wrapper_mut [key (SupplyApl.market a); key (SupplyApl.supply_position a)]
                  (SupplyApl.supply_oracle a) (SupplyApl.collateral_oracle a) ts in
  on_wrapper rates (zoom lens_fst (MarketWrapper.sync_clock ts)) ;;;
  on_wrapper rates (MarketWrapper.lend amount) ;;;
  let! ctx := st_get in
  let seed := Market.seed (cx_market ctx) in
  let! supply_event := lending_pure
    (get_single_market_transaction_event (the_wrapper rates (cx_market ctx))
       (key (SupplyApl.market a)) (SupplyApl.authority a) (key (SupplyApl.supply_position a))
       (ti_mint (supply_token_info (cx_market ctx))) amount) in
  invoke_signed_unchecked
    (log_ix program_id (key (SupplyApl.market a)) (Event.Supply supply_event)) [seed] ;;;
  invoke_signed_unchecked
    (transfer (key (SupplyApl.authority_supply_ata a)) (key (SupplyApl.market_supply_vault a))
       (SupplyApl.authority a) amount) [].

Definition process_withdraw_supply (a : WithdrawSupply.Accounts)
  (data : WithdrawSupplyInstruction) (program_id : Pubkey) (ts : Z)
  : Handler (Market * SupplyPosition) () :=
  let! rates := wrapper_mut
    [key (WithdrawSupply.market a); key (WithdrawSupply.supply_position a)]
    (WithdrawSupply.supply_oracle a) (WithdrawSupply.collateral_oracle a) ts in
  on_wrapper rates (zoom lens_fst (MarketWrapper.sync_clock ts)) ;;;
  let! withdraw_amount :=
    (if ws_withdraw_all data then on_wrapper rates MarketWrapper.withdraw_all
     else on_wrapper rates (MarketWrapper.withdraw (ws_amount data)) ;;;
          st_ret (ws_amount data)) in
  let! ctx := st_get in
  let seed := Market.seed (cx_market ctx) in
  let! withdraw_event := lending_pure
    (get_single_market_transaction_event (the_wrapper rates (cx_market ctx))
       (key (WithdrawSupply.market a)) (WithdrawSupply.authority a)
       (key (WithdrawSupply.supply_position a))
       (ti_mint (supply_token_info (cx_market ctx))) withdraw_amount) in
  invoke_signed_unchecked
    (log_ix program_id (key (WithdrawSupply.market a)) (Event.Withdraw withdraw_event))
    [seed] ;;;
  invoke_signed_unchecked
    (transfer (key (WithdrawSupply.market_supply_vault a))
       (key (WithdrawSupply.authority_supply_ata a)) (key (WithdrawSupply.market a))
       withdraw_amount) [seed].

(** ** Borrowers *)

Definition process_deposit_apl_collateral (a : DepositAplCollateral.Accounts) (amount : Z)
  (program_id : Pubkey) (ts : Z) : Handler (Market * BorrowPosition) () :=
  let! rates := wrapper_mut [key (DepositAplCollateral.market a)]
    (DepositAplCollateral.supply_oracle a) (DepositAplCollateral.collateral_oracle a) ts in
  on_wrapper rates (zoom lens_fst (MarketWrapper.sync_clock ts)) ;;;
  on_wrapper rates (MarketWrapper.deposit_collateral amount) ;;;
  let! ctx := st_get in
  let seed := Market.seed (cx_market ctx) in
  let! deposit_collateral_event := lending_pure
    (get_single_market_transaction_event (the_wrapper rates (cx_market ctx))
       (key (DepositAplCollateral.market a)) (DepositAplCollateral.authority a)
       (key (DepositAplCollateral.borrow_position a))
       (ti_mint (collateral_token_info (cx_market ctx))) amount) in
  invoke_signed_unchecked
    (log_ix program_id (key (DepositAplCollateral.market a))
       (Event.DepositCollateral deposit_collateral_event)) [seed] ;;;
  invoke_signed_unchecked
    (transfer (key (DepositAplCollateral.authority_collateral_ata a))
       (key (DepositAplCollateral.market_collateral_vault a))
       (DepositAplCollateral.authority a) amount) [].

Definition process_withdraw_apl_collateral (a : WithdrawAplCollateral.Accounts)
  (data : WithdrawAplCollateralInstruction) (program_id : Pubkey) (ts : Z)
  : Handler (Market * BorrowPosition) () :=
  let! rates := wrapper_mut [key (WithdrawAplCollateral.market a)]
    (WithdrawAplCollateral.supply_oracle a) (WithdrawAplCollateral.collateral_oracle a) ts in
  on_wrapper rates (zoom lens_fst (MarketWrapper.sync_clock ts)) ;;;
  let! ctx := st_get in
  let atoms := if wc_withdraw_all data then collateral_deposited_atoms (cx_other ctx)
               else wc_amount data in
  on_wrapper rates (MarketWrapper.withdraw_collateral atoms) ;;;
  let! ctx := st_get in
  let seed := Market.seed (cx_market ctx) in
  let! withdraw_collateral_event := lending_pure
    (get_single_market_transaction_event (the_wrapper rates (cx_market ctx))
       (key (WithdrawAplCollateral.market a)) (WithdrawAplCollateral.authority a)
       (key (WithdrawAplCollateral.borrow_position a))
       (ti_mint (collateral_token_info (cx_market ctx))) atoms) in
  invoke_signed_unchecked
    (log_ix program_id (key (WithdrawAplCollateral.market a))
       (Event.WithdrawCollateral withdraw_collateral_event)) [seed] ;;;
  invoke_signed_unchecked
    (transfer (key (WithdrawAplCollateral.market_collateral_vault a))
       (key (WithdrawAplCollateral.authority_collateral_ata a))
       (key (WithdrawAplCollateral.market a)) atoms) [seed].

Definition process_borrow_apl (a : BorrowApl.Accounts) (amount : Z) (program_id : Pubkey)
  (ts : Z) : Handler (Market * BorrowPosition) () :=
  let! rates := wrapper_mut [key (BorrowApl.market a); key (BorrowApl.borrow_position a)]
                  (BorrowApl.supply_oracle a) (BorrowApl.collateral_oracle a) ts in
  on_wrapper rates (zoom lens_fst (MarketWrapper.sync_clock ts)) ;;;
  on_wrapper rates (MarketWrapper.borrow amount) ;;;
  let! ctx := st_get in
  let seed := Market.seed (cx_market ctx) in
  let! borrow_event := lending_pure
    (get_single_market_transaction_event (the_wrapper rates (cx_market ctx))
       (key (BorrowApl.market a)) (BorrowApl.authority a) (key (BorrowApl.borrow_position a))
       (ti_mint (supply_token_info (cx_market ctx))) amount) in
  invoke_signed_unchecked
    (log_ix program_id (key (BorrowApl.market a)) (Event.Borrow borrow_event)) [seed] ;;;
  invoke_signed_unchecked
    (transfer (key (BorrowApl.market_supply_vault a)) (key (BorrowApl.authority_supply_ata a))
       (key (BorrowApl.market a)) amount) [seed].

Definition process_repay_apl (a : RepayApl.Accounts) (data : RepayAplInstruction)
  (program_id : Pubkey) (ts : Z) : Handler (Market * BorrowPosition) () :=
  let! rates := wrapper_mut [key (RepayApl.market a); key (RepayApl.borrow_position a)]
                  (RepayApl.supply_oracle a) (RepayApl.collateral_oracle a) ts in
  on_wrapper rates (zoom lens_fst (MarketWrapper.sync_clock ts)) ;;;
  let! amount :=
    (if ra_repay_all data then on_wrapper rates MarketWrapper.repay_all
     else on_wrapper rates (MarketWrapper.repay (ra_amount data)) ;;; st_ret (ra_amount data)) in
  let! ctx := st_get in
  let seed := Market.seed (cx_market ctx) in
  let! repay_event := lending_pure
    (get_single_market_transaction_event (the_wrapper rates (cx_market ctx))
       (key (RepayApl.market a)) (RepayApl.authority a) (key (RepayApl.borrow_position a))
       (ti_mint (supply_token_info (cx_market ctx))) amount) in
  invoke_signed_unchecked
    (log_ix program_id (key (RepayApl.market a)) (Event.Repay repay_event)) [seed] ;;;
  invoke_signed_unchecked
    (transfer (key (RepayApl.authority_supply_ata a)) (key (RepayApl.market_supply_vault a))
       (RepayApl.authority a) amount) [].

Definition process_borrow_deposit_apl (a : BorrowDepositApl.Accounts)
  (data : BorrowDepositAplInstruction) (program_id : Pubkey) (ts : Z)
  : Handler (Market * BorrowPosition) () :=
  let! rates := wrapper_mut
    [key (BorrowDepositApl.market a); key (BorrowDepositApl.borrow_position a)]
    (BorrowDepositApl.supply_oracle a) (BorrowDepositApl.collateral_oracle a) ts in
  on_wrapper rates (zoom lens_fst (MarketWrapper.sync_clock ts)) ;;;
  on_wrapper rates (MarketWrapper.deposit_collateral (bd_deposit_amount data)) ;;;
  on_wrapper rates (MarketWrapper.borrow (bd_borrow_amount data)) ;;;
  let! ctx := st_get in
  let seed := Market.seed (cx_market ctx) in
  let! event := lending_pure
    (get_double_market_transaction_event (the_wrapper rates (cx_market ctx))
       (key (BorrowDepositApl.market a)) (BorrowDepositApl.authority a)
       (key (BorrowDepositApl.borrow_position a))
       (CollateralVault.mint (collateral_vault (cx_market ctx))) (bd_deposit_amount data)
       (SupplyVault.mint (supply_vault (cx_market ctx))) (bd_borrow_amount data)) in
  invoke_signed_unchecked
    (log_ix program_id (key (BorrowDepositApl.market a)) (Event.BorrowAndDeposit event))
    [seed] ;;;
  invoke_signed_unchecked
    (transfer (key (BorrowDepositApl.market_supply_vault a))
       (key (BorrowDepositApl.authority_supply_ata a)) (key (BorrowDepositApl.market a))
       (bd_borrow_amount data)) [seed] ;;;
  when_some (bd_ix_callback data) (fun ix => invoke_signed_unchecked (callback ix) []) ;;;
  invoke_signed_unchecked
    (transfer (key (BorrowDepositApl.authority_collateral_ata a))
       (key (BorrowDepositApl.market_collateral_vault a)) (BorrowDepositApl.authority a)
       (bd_deposit_amount data)) [].

Definition process_withdraw_repay_apl (a : WithdrawRepayApl.Accounts)
  (data : WithdrawRepayAplInstruction) (program_id : Pubkey) (ts : Z)
  : Handler (Market * BorrowPosition) () :=
  let! rates := wrapper_mut
    [key (WithdrawRepayApl.market a); key (WithdrawRepayApl.borrow_position a)]
    (WithdrawRepayApl.supply_oracle a) (WithdrawRepayApl.collateral_oracle a) ts in
  on_wrapper rates (zoom lens_fst (MarketWrapper.sync_clock ts)) ;;;
  let! repay_amount :=
    (if wr_repay_all data then on_wrapper rates MarketWrapper.repay_all
     else on_wrapper rates (MarketWrapper.repay (wr_repay_amount data)) ;;;
          st_ret (wr_repay_amount data)) in
  let! ctx := st_get in
  let withdraw_amount :=
    if wr_withdraw_all data then collateral_deposited_atoms (cx_other ctx)
    else wr_withdraw_amount data in
  on_wrapper rates (MarketWrapper.withdraw_collateral withdraw_amount) ;;;
  let! ctx := st_get in
  let seed := Market.seed (cx_market ctx) in
  let! event := lending_pure
    (get_double_market_transaction_event (the_wrapper rates (cx_market ctx))
       (key (WithdrawRepayApl.market a)) (WithdrawRepayApl.authority a)
       (key (WithdrawRepayApl.borrow_position a))
       (SupplyVault.mint (supply_vault (cx_market ctx))) repay_amount
       (CollateralVault.mint (collateral_vault (cx_market ctx))) withdraw_amount) in
  invoke_signed_unchecked
    (log_ix program_id (key (WithdrawRepayApl.market a)) (Event.WithdrawAndRepay event))
    [seed] ;;;
  invoke_signed_unchecked
    (transfer (key (WithdrawRepayApl.market_collateral_vault a))
       (key (WithdrawRepayApl.authority_collateral_ata a)) (key (WithdrawRepayApl.market a))
       withdraw_amount) [seed] ;;;
  when_some (wr_ix_callback data) (fun ix => invoke_signed_unchecked (callback ix) []) ;;;
  invoke_signed_unchecked
    (transfer (key (WithdrawRepayApl.authority_supply_ata a))
       (key (WithdrawRepayApl.market_supply_vault a)) (WithdrawRepayApl.authority a)
       repay_amount) [].

End Ops.
