(* ===== verification/ProcessorAdmin.v ===== *)
(** * Instruction handlers of curators, liquidators and the admin

    The rest of [programs/autara-program/src/processor]: liquidations, capital sweeps, bad
    debt, donations, fees, configuration, the whitelist and the creation of accounts.

    A handler that creates an account reads it back after the system program has run; what
    an account holds after some calls is a parameter ([Memory]). *)
From S2P Require Import Prelude.
From S2P Require Import Errors.
From S2P Require Import Monad.
From S2P Require Import FixedPoint.
From S2P Require Import Pda.
From S2P Require Import InterestRateCurve.
From S2P Require Import OracleRate.
From S2P Require Import Oracle.
From S2P Require Import GlobalConfig.
From S2P Require Import LiquidatorWhitelist.
From S2P Require Import MarketConfig.
From S2P Require Import SupplyPosition.
From S2P Require Import BorrowPosition.
From S2P Require Import CollateralVault.
From S2P Require Import SupplyVault.
From S2P Require Import Liquidation.
From S2P Require Import Market.
From S2P Require Import MarketWrapper.
From S2P Require Import ProgramErrors.
From S2P Require Import Accounts.
From S2P Require Import IxsUser.
From S2P Require Import IxsAdmin.
From S2P Require Import Events.
From S2P Require Import Processor.

(** ** Instruction data *)

Record CreateMarketInstruction : Type := mkCreateMarketIx {
  ci_market_bump : Z; ci_index : Z; ci_ltv_config : LtvConfig;
  ci_max_utilisation_rate : IFixedPoint;
  ci_supply_oracle_config : OracleConfig; ci_collateral_oracle_config : OracleConfig;
  ci_interest_rate : InterestRateCurveKind; ci_lending_market_fee_in_bps : Z }.
Record CreateGlobalConfigInstruction : Type := mkCreateGlobalConfigIx {
  cg_bump : Z; cg_admin : Pubkey; cg_fee_receiver : Pubkey;
  cg_protocol_fee_share_in_bps : Z }.
Record AddWhitelistedLiquidatorInstruction : Type := mkAddWhitelistedLiquidatorIx {
  aw_liquidator : Pubkey; aw_bump : Z }.

(** [validate_struct!] of the account structs: their sizes. *)
Definition size_of_Market : Z := 1448.
Definition size_of_BorrowPosition : Z := 224.
Definition size_of_SupplyPosition : Z := 216.
Definition size_of_GlobalConfig : Z := 256.
Definition size_of_LiquidatorWhitelistEntry : Z := 80.

(** What an account is after the calls made so far. *)
Class Memory : Type := account_after : list Call -> AccountInfo -> AccountInfo.

Section Ops.
Context {FX : FixedCrate} {PC : PdaCrate} {BC : OracleBuild} {RT : Runtime}.
Context {CH : Chain} {AC : AccountCodec} {ME : Memory}.

(** ** Liquidations *)

Definition process_liquidate (a : Liquidate.Accounts) (data : LiquidateInstruction)
  (program_id : Pubkey) (ts : Z) : Handler (Market * BorrowPosition) () :=
  let! rates := wrapper_mut [key (Liquidate.market a); key (Liquidate.borrow_position a)]
                  (Liquidate.supply_oracle a) (Liquidate.collateral_oracle a) ts in
  on_wrapper rates (zoom lens_fst (MarketWrapper.sync_clock ts)) ;;;
  let! liquidation := on_wrapper rates
    (MarketWrapper.liquidate (lq_max_borrowed_atoms_to_repay data)) in
  let result := liquidation_result_with_bonus liquidation in
  let! total_collateral_liquidated :=
    lending_pure (total_collateral_atoms_to_liquidate result) in
  st_guard (total_collateral_liquidated <? lq_min_collateral_atoms_to_receive data)
    (KLendingError LiquidationDidNotMeetRequirements) ;;;
  let! ctx := st_get in
  let seed := Market.seed (cx_market ctx) in
  let liquidation_event := mkLiquidateEvent
    (key (Liquidate.market a)) (Liquidate.liquidator a) (key (Liquidate.borrow_position a))
    (ti_mint (supply_token_info (cx_market ctx)))
    (ti_mint (collateral_token_info (cx_market ctx)))
    (health_before_liquidation liquidation) (health_after_liquidation liquidation)
    (Liquidation.repay_atoms result) (liquidate_atoms result)
    (bonus_atoms result) in
  invoke_signed_unchecked
    (log_ix program_id (key (Liquidate.market a)) (Event.Liquidate liquidation_event))
    [seed] ;;;
  invoke_signed_unchecked
    (transfer (key (Liquidate.market_collateral_vault a))
       (key (Liquidate.liquidator_collateral_ata a)) (key (Liquidate.market a))
       total_collateral_liquidated) [seed] ;;;
  when_some (lq_ix_callback data) (fun ix => invoke_signed_unchecked (callback ix) []) ;;;
  invoke_signed_unchecked
    (transfer (key (Liquidate.liquidator_supply_ata a))
       (key (Liquidate.market_supply_vault a)) (Liquidate.liquidator a)
       (Liquidation.repay_atoms result)) [].

Definition process_begin_capital_sweep (a : BeginCapitalSweep.Accounts)
  (program_id : Pubkey) (ts : Z) : Handler (Market * BorrowPosition) () :=
  let! rates := wrapper_mut
    [key (BeginCapitalSweep.market a); key (BeginCapitalSweep.borrow_position a)]
    (BeginCapitalSweep.supply_oracle a) (BeginCapitalSweep.collateral_oracle a) ts in
  on_wrapper rates (zoom lens_fst (MarketWrapper.sync_clock ts)) ;;;
  let! health_before_sweep := on_wrapper rates MarketWrapper.begin_capital_sweep in
  let! ctx := st_get in
  let collateral_swept := swept_collateral_atoms (cx_other ctx) in
  let collateral_mint := ti_mint (collateral_token_info (cx_market ctx)) in
  let seed := Market.seed (cx_market ctx) in
  invoke_signed_unchecked
    (log_ix program_id (key (BeginCapitalSweep.market a))
       (Event.CapitalSweepStarted (mkCapitalSweepStartedEvent
          (key (BeginCapitalSweep.market a)) (BeginCapitalSweep.curator a)
          (key (BeginCapitalSweep.borrow_position a)) collateral_mint health_before_sweep
          collateral_swept))) [seed] ;;;
  invoke_signed_unchecked
    (transfer (key (BeginCapitalSweep.market_collateral_vault a))
       (key (BeginCapitalSweep.curator_collateral_ata a)) (key (BeginCapitalSweep.market a))
       collateral_swept) [seed].

Definition process_settle_capital_sweep (a : SettleCapitalSweep.Accounts)
  (data : SettleCapitalSweepInstruction) (program_id : Pubkey) (ts : Z)
  : Handler (Market * BorrowPosition) () :=
  let! rates := wrapper_mut
    [key (SettleCapitalSweep.market a); key (SettleCapitalSweep.borrow_position a)]
    (SettleCapitalSweep.supply_oracle a) (SettleCapitalSweep.collateral_oracle a) ts in
  on_wrapper rates (zoom lens_fst (MarketWrapper.sync_clock ts)) ;;;
  let! settlement := on_wrapper rates
    (MarketWrapper.settle_capital_sweep (sc_max_borrowed_atoms_to_repay data)
       (sc_max_collateral_atoms_to_return data)) in
  let liquidation := settlement_liquidation settlement in
  let supply_repaid := Liquidation.repay_atoms liquidation in
  let collateral_returned := collateral_atoms_returned settlement in
  let! ctx := st_get in
  let seed := Market.seed (cx_market ctx) in
  invoke_signed_unchecked
    (log_ix program_id (key (SettleCapitalSweep.market a))
       (Event.CapitalSweepSettled (mkCapitalSweepSettledEvent
          (key (SettleCapitalSweep.market a)) (SettleCapitalSweep.curator a)
          (key (SettleCapitalSweep.borrow_position a))
          (ti_mint (supply_token_info (cx_market ctx)))
          (ti_mint (collateral_token_info (cx_market ctx)))
          (health_before_settlement settlement) (health_after_settlement settlement)
          supply_repaid (liquidate_atoms liquidation)
          (bonus_atoms liquidation) collateral_returned))) [seed] ;;;
  invoke_signed_unchecked
    (transfer (key (SettleCapitalSweep.curator_supply_ata a))
       (key (SettleCapitalSweep.market_supply_vault a)) (SettleCapitalSweep.curator a)
       supply_repaid) [] ;;;
  invoke_signed_unchecked
    (transfer (key (SettleCapitalSweep.curator_collateral_ata a))
       (key (SettleCapitalSweep.market_collateral_vault a)) (SettleCapitalSweep.curator a)
       collateral_returned) [].

Definition process_socialize_loss (a : SocializeLoss.Accounts) (program_id : Pubkey) (ts : Z)
  : Handler (Market * BorrowPosition) () :=
  let! rates := wrapper_mut
    [key (SocializeLoss.market a); key (SocializeLoss.borrow_position a)]
    (SocializeLoss.supply_oracle a) (SocializeLoss.collateral_oracle a) ts in
  on_wrapper rates (zoom lens_fst (MarketWrapper.sync_clock ts)) ;;;
  let! (debt_socialized, collateral_liquidated) :=
    on_wrapper rates MarketWrapper.socialize_loss in
  let! ctx := st_get in
  let seed := Market.seed (cx_market ctx) in
  invoke_signed_unchecked
    (log_ix program_id (key (SocializeLoss.market a))
       (Event.SocializeLoss (mkSocializeLossEvent (key (SocializeLoss.market a))
          (key (SocializeLoss.borrow_position a)) debt_socialized collateral_liquidated)))
    [seed] ;;;
  invoke_signed_unchecked
    (transfer (key (SocializeLoss.market_collateral_vault a))
       (key (SocializeLoss.receiver_collateral_ata a)) (key (SocializeLoss.market a))
       collateral_liquidated) [seed].

(** ** Donations and fees *)

Definition process_donate_supply (a : DonateSupply.Accounts) (amount : Z)
  (program_id : Pubkey) (ts : Z) : Handler Market () :=
  lending (Market.sync_clock ts) ;;;
  lending (Market.donate_supply_atoms amount) ;;;
  let! ctx := st_get in
  let seed := Market.seed (cx_state ctx) in
  invoke_signed_unchecked
    (log_ix program_id (key (DonateSupply.market a))
       (Event.DonateSupply (mkDonateSupplyEvent (key (DonateSupply.market a))
          (DonateSupply.authority a) (ti_mint (supply_token_info (cx_state ctx))) amount)))
    [seed] ;;;
  invoke_signed_unchecked
    (transfer (key (DonateSupply.authority_supply_ata a))
       (key (DonateSupply.market_supply_vault a)) (DonateSupply.authority a) amount) [].

Definition process_redeem_curator_fees (a : RedeemCuratorFees.Accounts)
  (program_id : Pubkey) (ts : Z) : Handler Market () :=
  lending (Market.sync_clock ts) ;;;
  let! to_withdraw := lending Market.redeem_curator_fess in
  let! ctx := st_get in
  let seed := Market.seed (cx_state ctx) in
  let! supply_vault_snapshot := lending_pure (get_summary (supply_vault (cx_state ctx))) in
  invoke_signed_unchecked
    (log_ix program_id (key (RedeemCuratorFees.market a))
       (Event.ReedeemCuratorFees (mkReedeemFeeEvent (key (RedeemCuratorFees.market a))
          (ta_owner (value (RedeemCuratorFees.curator_supply_ata a))) to_withdraw
          (SupplyVault.mint (supply_vault (cx_state ctx))) supply_vault_snapshot)))
    [seed] ;;;
  invoke_signed_unchecked
    (transfer (key (RedeemCuratorFees.market_supply_vault a))
       (key (RedeemCuratorFees.curator_supply_ata a)) (key (RedeemCuratorFees.market a))
       to_withdraw) [seed].

(** The event is the one of the curator's fees, as in the source. *)
Definition process_redeem_protocol_fees (a : RedeemProtocolFees.Accounts)
  (program_id : Pubkey) (ts : Z) : Handler Market () :=
  lending (Market.sync_clock ts) ;;;
  let! to_withdraw := lending Market.redeem_protocol_fees in
  let! ctx := st_get in
  let seed := Market.seed (cx_state ctx) in
  let! supply_vault_snapshot := lending_pure (get_summary (supply_vault (cx_state ctx))) in
  invoke_signed_unchecked
    (log_ix program_id (key (RedeemProtocolFees.market a))
       (Event.ReedeemCuratorFees (mkReedeemFeeEvent (key (RedeemProtocolFees.market a))
          (ta_owner (value (RedeemProtocolFees.receiver_supply_ata a))) to_withdraw
          (SupplyVault.mint (supply_vault (cx_state ctx))) supply_vault_snapshot)))
    [seed] ;;;
  invoke_signed_unchecked
    (transfer (key (RedeemProtocolFees.market_supply_vault a))
       (key (RedeemProtocolFees.receiver_supply_ata a)) (key (RedeemProtocolFees.market a))
       to_withdraw) [seed].

(** ** Configuration *)

(** The market's part of an update, before the oracles are loaded again. *)
Definition update_config_market (data : UpdateConfigInstruction) (g : GlobalConfig) (ts : Z)
  : ST Market () :=
  Market.sync_clock ts ;;;
  when_some (uc_supply_oracle_config data) set_supply_oracle_config ;;;
  when_some (uc_collateral_oracle_config data) set_collateral_oracle_config ;;;
  when_some (uc_ltv_config data) (fun x => zoom config_lens (update_ltv x)) ;;;
  when_some (uc_max_utilisation_rate data)
    (fun x => zoom config_lens (update_max_utilisation_rate x)) ;;;
  when_some (uc_max_supply_atoms data)
    (fun x => zoom config_lens (update_max_supply_atoms x)) ;;;
  when_some (uc_lending_market_fee_in_bps data)
    (fun x => zoom config_lens (set_lending_market_fee x)) ;;;
  zoom config_lens (sync_global_config g).

Definition process_update_config (a : UpdateConfig.Accounts) (data : UpdateConfigInstruction)
  (ts : Z) : Handler (Market * ()) () :=
  lending (zoom lens_fst (update_config_market data (value (UpdateConfig.global_config a)) ts)) ;;;
  let! _ := wrapper_mut [key (UpdateConfig.market a)] (UpdateConfig.updated_supply_oracle a)
              (UpdateConfig.updated_collateral_oracle a) ts in
  st_ret tt.

Definition process_update_global_config (a : UpdateGlobalConfig.Accounts)
  (data : UpdateGlobalConfigInstruction) : Handler GlobalConfig () :=
  (if ug_accept_nomination data then
     let! ctx := st_get in
     if can_upgrade_nomination (cx_state ctx) (UpdateGlobalConfig.signer_ a)
     then lending upgrade_nomination
     else st_raise (KLendingError InvalidNomination)
   else st_ret tt) ;;;
  let! ctx := st_get in
  st_guard (negb (can_update_config (cx_state ctx) (UpdateGlobalConfig.signer_ a)))
    (KLendingAccountValidationError Validation.InvalidProtocolAuthority) ;;;
  when_some (ug_protocol_fee_share_in_bps data)
    (fun x => lending (update_protocol_fee_share_in_bps x)) ;;;
  when_some (ug_fee_receiver data) (fun x => lending (set_fee_receiver x)) ;;;
  when_some (ug_nominated_admin data) (fun x => lending (set_nominated_admin x)).

(** ** The whitelist *)

(** [ZeroCopyOwnedAccountMut::try_from(account)?.load_mut()] on an account of this
    instruction: reads it as it is after the calls so far and runs a method on it. *)
Definition load_mut {X T A} (init : ZeroCopyInitialized T) (of_bytes : list Z -> option T)
  (a : AccountInfo) (m : ST T A) : Handler (X * option T) A :=
  let! ctx := st_get in
  let! account := st_lift (res_from KAccountValidationError
    (@zero_copy_mut T init of_bytes (account_after (cx_calls ctx) a))) in
  lending (fun '(x, _) => let '(r, t) := m (value account) in (r, (x, Some t))).

Definition process_add_whitelisted_liquidator (a : AddWhitelistedLiquidator.Accounts)
  (data : AddWhitelistedLiquidatorInstruction) (program_id : Pubkey)
  : Handler (Market * option LiquidatorWhitelistEntry) () :=
  let entry := AddWhitelistedLiquidator.whitelist_entry a in
  let market_key := key (AddWhitelistedLiquidator.market a) in
  (if key_ne (ai_owner entry) program_id then
     let seed := liquidator_whitelist_entry_seed_with_bump market_key (aw_liquidator data)
                   [aw_bump data] in
     invoke_signed_unchecked
       (create_account (AddWhitelistedLiquidator.curator a) (ai_key entry)
          (minimum_rent size_of_LiquidatorWhitelistEntry) size_of_LiquidatorWhitelistEntry
          program_id) [seed] ;;;
     load_mut uninitialized whitelist_entry_of_bytes entry
       (LiquidatorWhitelist.initialize market_key (aw_liquidator data) (aw_bump data))
   else
     load_mut whitelist_entry_is_initialized whitelist_entry_of_bytes entry activate) ;;;
  lending (zoom lens_fst (zoom config_lens increment_active_whitelisted_liquidators)) ;;;
  let! ctx := st_get in
  invoke_signed_unchecked
    (log_ix program_id market_key
       (Event.LiquidatorWhitelistEntryAdded (mkLiquidatorWhitelistUpdatedEvent market_key
          (AddWhitelistedLiquidator.curator a) (aw_liquidator data)
          (active_whitelisted_liquidators (config (cx_market ctx))))))
    [Market.seed (cx_market ctx)].

Definition process_remove_whitelisted_liquidator (a : RemoveWhitelistedLiquidator.Accounts)
  (liquidator : Pubkey) (program_id : Pubkey)
  : Handler (Market * LiquidatorWhitelistEntry) () :=
  let market_key := key (RemoveWhitelistedLiquidator.market a) in
  lending (zoom lens_snd deactivate) ;;;
  lending (zoom lens_fst (zoom config_lens decrement_active_whitelisted_liquidators)) ;;;
  let! ctx := st_get in
  invoke_signed_unchecked
    (log_ix program_id market_key
       (Event.LiquidatorWhitelistEntryRemoved (mkLiquidatorWhitelistUpdatedEvent market_key
          (RemoveWhitelistedLiquidator.curator a) liquidator
          (active_whitelisted_liquidators (config (cx_market ctx))))))
    [Market.seed (cx_market ctx)].

(** ** Creation of accounts *)

(** What [process_create_market] writes into the market. *)
Definition initialize_market (a : CreateMarket.Accounts) (data : CreateMarketInstruction)
  (ts : Z) : ST Market () :=
  zoom config_lens
    (MarketConfig.initialize (ci_market_bump data) (ci_index data) (CreateMarket.curator a)
       (ci_ltv_config data) (ci_max_utilisation_rate data) U64_MAX
       (ci_lending_market_fee_in_bps data) (value (CreateMarket.global_config a))) ;;;
  initlize_supply_vault (key (CreateMarket.supply_mint a))
    (mi_decimals (value (CreateMarket.supply_mint a))) (ai_key (CreateMarket.supply_vault a))
    (ci_supply_oracle_config data) (ci_interest_rate data) ts ;;;
  initialize_collateral_vault (key (CreateMarket.collateral_mint a))
    (mi_decimals (value (CreateMarket.collateral_mint a)))
    (ai_key (CreateMarket.collateral_vault a)) (ci_collateral_oracle_config data).

(** [if vault.owner != apl_token_program.key { create_ata_ix }] *)
Definition create_vault {S} (a : CreateMarket.Accounts) (vault : AccountInfo) (mint : Pubkey)
  : Handler S () :=
  let! ctx := st_get in
  if key_ne (ai_owner (account_after (cx_calls ctx) vault)) (CreateMarket.apl_token_program a)
  then invoke_signed_unchecked
         (create_ata_ix (CreateMarket.payer a) (ai_key vault)
            (ai_key (CreateMarket.market a)) mint) []
  else st_ret tt.

Definition process_create_market (a : CreateMarket.Accounts) (data : CreateMarketInstruction)
  (program_id : Pubkey) (ts : Z) : Handler (() * option Market) () :=
  let seed := market_seed_with_bump (CreateMarket.curator a) (key (CreateMarket.supply_mint a))
                (key (CreateMarket.collateral_mint a)) [ci_index data]
                [ci_market_bump data] in
  invoke_signed_unchecked
    (create_account (CreateMarket.payer a) (ai_key (CreateMarket.market a))
       (minimum_rent size_of_Market) size_of_Market program_id) [seed] ;;;
  create_vault a (CreateMarket.supply_vault a) (key (CreateMarket.supply_mint a)) ;;;
  create_vault a (CreateMarket.collateral_vault a) (key (CreateMarket.collateral_mint a)) ;;;
  load_mut uninitialized market_of_bytes (CreateMarket.market a)
    (initialize_market a data ts).

Definition process_create_supply_position (a : CreateSupplyPosition.Accounts) (bump : Z)
  (program_id : Pubkey) : Handler (() * option SupplyPosition) () :=
  let market_key := key (CreateSupplyPosition.market a) in
  invoke_signed_unchecked
    (create_account (CreateSupplyPosition.payer a)
       (ai_key (CreateSupplyPosition.supply_position a)) (minimum_rent size_of_SupplyPosition)
       size_of_SupplyPosition program_id)
    [supply_position_seed_with_bump market_key (CreateSupplyPosition.authority a) [bump]] ;;;
  load_mut uninitialized supply_position_of_bytes (CreateSupplyPosition.supply_position a)
    (SupplyPosition.initialize (CreateSupplyPosition.authority a) market_key).

Definition process_create_borrow_position (a : CreateBorrowPosition.Accounts) (bump : Z)
  (program_id : Pubkey) : Handler (() * option BorrowPosition) () :=
  let market_key := key (CreateBorrowPosition.market a) in
  invoke_signed_unchecked
    (create_account (CreateBorrowPosition.payer a)
       (ai_key (CreateBorrowPosition.borrow_position a)) (minimum_rent size_of_BorrowPosition)
       size_of_BorrowPosition program_id)
    [borrow_position_seed_with_bump market_key (CreateBorrowPosition.authority a) [bump]] ;;;
  load_mut uninitialized borrow_position_of_bytes (CreateBorrowPosition.borrow_position a)
    (BorrowPosition.initialize (CreateBorrowPosition.authority a) market_key).

Definition process_create_global_config (a : CreateGlobalConfig.Accounts)
  (data : CreateGlobalConfigInstruction) (program_id : Pubkey)
  : Handler (() * option GlobalConfig) () :=
  invoke_signed_unchecked
    (create_account (CreateGlobalConfig.payer a) (ai_key (CreateGlobalConfig.global_config a))
       (minimum_rent size_of_GlobalConfig) size_of_GlobalConfig program_id)
    [global_config_seed_with_bump [cg_bump data]] ;;;
  load_mut uninitialized global_config_of_bytes (CreateGlobalConfig.global_config a)
    (GlobalConfig.initialize (cg_admin data) (cg_fee_receiver data)
       (cg_protocol_fee_share_in_bps data)).

End Ops.
