(* ===== verification/Program.v ===== *)
(** * The program

    [autara_process_instruction] of [programs/autara-program/src/lib.rs], from the decoded
    instruction on: the accounts of the instruction are read and validated, then its handler
    runs.  The outcome of a successful instruction is the accounts it has written, in order,
    and the calls it has made.  A failed instruction has no outcome but its error: the
    runtime drops everything it wrote.

    Decoding the instruction (Borsh) and the instructions of the IDL account are not part of
    this file; the logs ([msg!]) have no effect on the state. *)
From S2P Require Import Prelude.
From S2P Require Import Errors.
From S2P Require Import Monad.
From S2P Require Import FixedPoint.
From S2P Require Import Pda.
From S2P Require Import InterestRateCurve.
From S2P Require Import OracleRate.
From S2P Require Import Oracle.
From S2P Require Import GlobalConfig.
From S2P Require Import LiquidatorWhitelist.
From S2P Require Import MarketConfig.
From S2P Require Import SupplyPosition.
From S2P Require Import BorrowPosition.
From S2P Require Import CollateralVault.
From S2P Require Import SupplyVault.
From S2P Require Import Liquidation.
From S2P Require Import Market.
From S2P Require Import MarketWrapper.
From S2P Require Import ProgramErrors.
From S2P Require Import Accounts.
From S2P Require Import IxsUser.
From S2P Require Import IxsAdmin.
From S2P Require Import Events.
From S2P Require Import Processor.
From S2P Require Import Processor.
From S2P Require Import ProcessorAdmin.

(** [autara-lib/src/ixs/types.rs] *)
Module Ix.
Inductive AurataInstruction : Type :=
| CreateMarket (data : CreateMarketInstruction)
| CreateSupplyPosition (bump : Z)
| SupplyApl (amount : Z)
| WithdrawSupply (data : WithdrawSupplyInstruction)
| CreateBorrowPosition (bump : Z)
| BorrowApl (amount : Z)
| DepositAplCollateral (amount : Z)
| WithdrawAplCollateral (data : WithdrawAplCollateralInstruction)
| RepayApl (data : RepayAplInstruction)
| UpdateConfig (data : UpdateConfigInstruction)
| Liquidate (data : LiquidateInstruction)
| Log
| CreateGlobalConfig (data : CreateGlobalConfigInstruction)
| ReedeemCuratorFees
| ReedeemProtocolFees
| UpdateGlobalConfig (data : UpdateGlobalConfigInstruction)
| BorrowDepositApl (data : BorrowDepositAplInstruction)
| WithdrawRepayApl (data : WithdrawRepayAplInstruction)
| SocializeLoss
| DonateSupply (amount : Z)
| BeginCapitalSweep
| SettleCapitalSweep (data : SettleCapitalSweepInstruction)
| AddWhitelistedLiquidator (data : AddWhitelistedLiquidatorInstruction)
| RemoveWhitelistedLiquidator (liquidator : Pubkey).
End Ix.
Notation AurataInstruction := Ix.AurataInstruction.

(** The contents of the accounts of the program. *)
Inductive AccountData : Type :=
| DMarket (m : Market)
| DSupply (p : SupplyPosition)
| DBorrow (p : BorrowPosition)
| DGlobalConfig (g : GlobalConfig)
| DWhitelistEntry (e : LiquidatorWhitelistEntry).

Definition Writes : Type := list (Pubkey * AccountData).

Record Outcome : Type := mkOutcome {
  written : Writes;
  calls : list Call }.

(** Runs a handler on the accounts it borrows and collects what it leaves in them. *)
Definition finish {S} (h : Handler S ()) (s : S) (w : S -> Writes)
  : Result LendingProgramErrorKind Outcome :=
  let '(r, ctx) := h (mkCtx s []) in
  let? _ := r in Ok (mkOutcome (w (cx_state ctx)) (cx_calls ctx)).

(** [XAccounts::from_accounts(&mut accounts_iter)?] *)
Definition parse {A} (p : Parser A) (accounts : list AccountInfo)
  : Result LendingProgramErrorKind A := fst (p accounts).

(** What a handler on a market and a position leaves. *)
Definition write_supply (m : Account Market) (p : Account SupplyPosition)
  (s : Market * SupplyPosition) : Writes :=
  [(key m, DMarket (fst s)); (key p, DSupply (snd s))].
Definition write_borrow (m : Account Market) (p : Account BorrowPosition)
  (s : Market * BorrowPosition) : Writes :=
  [(key m, DMarket (fst s)); (key p, DBorrow (snd s))].
Definition write_market (m : Account Market) (s : Market) : Writes :=
  [(key m, DMarket s)].
Definition write_new {X T} (k : Pubkey) (d : T -> AccountData) (s : X * option T) : Writes :=
  match snd s with Some t => [(k, d t)] | None => [] end.

Section Program.
Context {FX : FixedCrate} {PC : PdaCrate} {BC : OracleBuild} {RT : Runtime}.
Context {CH : Chain} {AC : AccountCodec} {ME : Memory}.

Definition autara_process_instruction (program_id : Pubkey) (accounts : list AccountInfo)
  (ix : AurataInstruction) (ts : Z) : Result LendingProgramErrorKind Outcome :=
  match ix with
  | Ix.CreateMarket data =>
    let? a := parse CreateMarket.from_accounts accounts in
    finish (process_create_market a data program_id ts) (tt, None)
      (write_new (ai_key (CreateMarket.market a)) DMarket)
  | Ix.CreateSupplyPosition bump =>
    let? a := parse CreateSupplyPosition.from_accounts accounts in
    finish (process_create_supply_position a bump program_id) (tt, None)
      (write_new (ai_key (CreateSupplyPosition.supply_position a)) DSupply)
  | Ix.SupplyApl amount =>
    let? a := parse SupplyApl.from_accounts accounts in
    finish (process_supply_apl a amount program_id ts)
      (value (SupplyApl.market a), value (SupplyApl.supply_position a))
      (write_supply (SupplyApl.market a) (SupplyApl.supply_position a))
  | Ix.WithdrawSupply data =>
    let? a := parse WithdrawSupply.from_accounts accounts in
    finish (process_withdraw_supply a data program_id ts)
      (value (WithdrawSupply.market a), value (WithdrawSupply.supply_position a))
      (write_supply (WithdrawSupply.market a) (WithdrawSupply.supply_position a))
  | Ix.CreateBorrowPosition bump =>
    let? a := parse CreateBorrowPosition.from_accounts accounts in
    finish (process_create_borrow_position a bump program_id) (tt, None)
      (write_new (ai_key (CreateBorrowPosition.borrow_position a)) DBorrow)
  | Ix.BorrowApl amount =>
    let? a := parse BorrowApl.from_accounts accounts in
    finish (process_borrow_apl a amount program_id ts)
      (value (BorrowApl.market a), value (BorrowApl.borrow_position a))
      (write_borrow (BorrowApl.market a) (BorrowApl.borrow_position a))
  | Ix.DepositAplCollateral amount =>
    let? a := parse DepositAplCollateral.from_accounts accounts in
    finish (process_deposit_apl_collateral a amount program_id ts)
      (value (DepositAplCollateral.market a), value (DepositAplCollateral.borrow_position a))
      (write_borrow (DepositAplCollateral.market a) (DepositAplCollateral.borrow_position a))
  | Ix.RepayApl data =>
    let? a := parse RepayApl.from_accounts accounts in
    finish (process_repay_apl a data program_id ts)
      (value (RepayApl.market a), value (RepayApl.borrow_position a))
      (write_borrow (RepayApl.market a) (RepayApl.borrow_position a))
  | Ix.UpdateConfig data =>
    let? a := parse UpdateConfig.from_accounts accounts in
    finish (process_update_config a data ts) (value (UpdateConfig.market a), tt)
      (fun s => write_market (UpdateConfig.market a) (fst s))
  | Ix.WithdrawAplCollateral data =>
    let? a := parse WithdrawAplCollateral.from_accounts accounts in
    finish (process_withdraw_apl_collateral a data program_id ts)
      (value (WithdrawAplCollateral.market a), value (WithdrawAplCollateral.borrow_position a))
      (write_borrow (WithdrawAplCollateral.market a) (WithdrawAplCollateral.borrow_position a))
  | Ix.Liquidate data =>
    let? a := parse Liquidate.from_accounts accounts in
    finish (process_liquidate a data program_id ts)
      (value (Liquidate.market a), value (Liquidate.borrow_position a))
      (write_borrow (Liquidate.market a) (Liquidate.borrow_position a))
  | Ix.CreateGlobalConfig data =>
    let? a := parse CreateGlobalConfig.from_accounts accounts in
    finish (process_create_global_config a data program_id) (tt, None)
      (write_new (ai_key (CreateGlobalConfig.global_config a)) DGlobalConfig)
  | Ix.ReedeemCuratorFees =>
    let? a := parse RedeemCuratorFees.from_accounts accounts in
    finish (process_redeem_curator_fees a program_id ts) (value (RedeemCuratorFees.market a))
      (write_market (RedeemCuratorFees.market a))
  | Ix.ReedeemProtocolFees =>
    let? a := parse RedeemProtocolFees.from_accounts accounts in
    finish (process_redeem_protocol_fees a program_id ts)
      (value (RedeemProtocolFees.market a)) (write_market (RedeemProtocolFees.market a))
  | Ix.UpdateGlobalConfig data =>
    let? a := parse UpdateGlobalConfig.from_accounts accounts in
    finish (process_update_global_config a data) (value (UpdateGlobalConfig.global_config a))
      (fun g => [(key (UpdateGlobalConfig.global_config a), DGlobalConfig g)])
  | Ix.BorrowDepositApl data =>
    let? a := parse BorrowDepositApl.from_accounts accounts in
    finish (process_borrow_deposit_apl a data program_id ts)
      (value (BorrowDepositApl.market a), value (BorrowDepositApl.borrow_position a))
      (write_borrow (BorrowDepositApl.market a) (BorrowDepositApl.borrow_position a))
  | Ix.WithdrawRepayApl data =>
    let? a := parse WithdrawRepayApl.from_accounts accounts in
    finish (process_withdraw_repay_apl a data program_id ts)
      (value (WithdrawRepayApl.market a), value (WithdrawRepayApl.borrow_position a))
      (write_borrow (WithdrawRepayApl.market a) (WithdrawRepayApl.borrow_position a))
  | Ix.SocializeLoss =>
    let? a := parse SocializeLoss.from_accounts accounts in
    finish (process_socialize_loss a program_id ts)
      (value (SocializeLoss.market a), value (SocializeLoss.borrow_position a))
      (write_borrow (SocializeLoss.market a) (SocializeLoss.borrow_position a))
  | Ix.DonateSupply amount =>
    let? a := parse DonateSupply.from_accounts accounts in
    finish (process_donate_supply a amount program_id ts) (value (DonateSupply.market a))
      (write_market (DonateSupply.market a))
  | Ix.BeginCapitalSweep =>
    let? a := parse BeginCapitalSweep.from_accounts accounts in
    finish (process_begin_capital_sweep a program_id ts)
      (value (BeginCapitalSweep.market a), value (BeginCapitalSweep.borrow_position a))
      (write_borrow (BeginCapitalSweep.market a) (BeginCapitalSweep.borrow_position a))
  | Ix.SettleCapitalSweep data =>
    let? a := parse SettleCapitalSweep.from_accounts accounts in
    finish (process_settle_capital_sweep a data program_id ts)
      (value (SettleCapitalSweep.market a), value (SettleCapitalSweep.borrow_position a))
      (write_borrow (SettleCapitalSweep.market a) (SettleCapitalSweep.borrow_position a))
  | Ix.AddWhitelistedLiquidator data =>
    let? a := parse (AddWhitelistedLiquidator.from_accounts (aw_liquidator data)
                       (aw_bump data)) accounts in
    finish (process_add_whitelisted_liquidator a data program_id)
      (value (AddWhitelistedLiquidator.market a), None)
      (fun s => write_market (AddWhitelistedLiquidator.market a) (fst s) ++
                write_new (ai_key (AddWhitelistedLiquidator.whitelist_entry a))
                  DWhitelistEntry s)
  | Ix.RemoveWhitelistedLiquidator liquidator =>
    let? a := parse (RemoveWhitelistedLiquidator.from_accounts liquidator) accounts in
    finish (process_remove_whitelisted_liquidator a liquidator program_id)
      (value (RemoveWhitelistedLiquidator.market a),
       value (RemoveWhitelistedLiquidator.whitelist_entry a))
      (fun s => write_market (RemoveWhitelistedLiquidator.market a) (fst s) ++
                [(key (RemoveWhitelistedLiquidator.whitelist_entry a),
                  DWhitelistEntry (snd s))])
  | Ix.Log =>
    let? _ := parse LogAccounts.from_accounts accounts in Ok (mkOutcome [] [])
  end.

End Program.
