(* ===== verification/Borsh.v ===== *)
(** * Borsh codecs

    The crate [borsh] is a parameter: its codecs of integers, booleans, options, arrays and
    vectors, and those that [arch_program] has for its own types.  What [derive] generates
    for the structs and enums of the repository is built from them: the fields one after the
    other, the number of the variant in a byte before its fields.

    [AccountCells] has the wrappers that read an account through a decoder, Borsh accounts
    among them, with the borrows of its data. *)
From S2P Require Import Prelude.
From S2P Require Import Bytes.
From S2P Require Import Pda.
From S2P Require Import Monad.
From S2P Require Import ProgramErrors.
From S2P Require Import Accounts.
From S2P Require Import Events.

(** A decoder gives the value and the bytes that are left. *)
Record Codec (T : Type) : Type := mkCodec {
  encode : T -> list Z;
  decode : list Z -> option (T * list Z) }.
Arguments mkCodec {T}.
Arguments encode {T}.
Arguments decode {T}.

(** A codec for the values that satisfy [P]: it is lossless on them, with anything behind,
    and reads nothing else from bytes. *)
Record codec_for {T} (P : T -> Prop) (c : Codec T) : Prop := {
  lossless x rest : P x -> decode c (encode c x ++ rest) = Some (x, rest);
  typed l x rest : Forall is_byte l -> decode c l = Some (x, rest) ->
    P x /\ Forall is_byte rest }.
Arguments lossless {T P c}.
Arguments typed {T P c}.

Create HintDb borsh.

(** ** Building codecs *)

Notation "'let*' x ':=' o 'in' k" := (mbind (fun x => k) o)
  (at level 10, x pattern, o at level 200, k at level 200).

(** A struct without fields. *)
Definition c_unit : Codec () := mkCodec (fun _ => []) (fun l => Some (tt, l)).

Definition c_pair {A B} (a : Codec A) (b : Codec B) : Codec (A * B) :=
  mkCodec (fun p => encode a (fst p) ++ encode b (snd p))
    (fun l => let* (x, l) := decode a l in let* (y, l) := decode b l in Some ((x, y), l)).

(** A codec along a view of the type. *)
Definition c_map {A B} (f : A -> B) (g : B -> A) (a : Codec A) : Codec B :=
  mkCodec (fun y => encode a (g y)) (fun l => let* (x, l) := decode a l in Some (f x, l)).

(** Values that a check after decoding accepts. *)
Definition c_filter {A B} (f : A -> option B) (g : B -> A) (a : Codec A) : Codec B :=
  mkCodec (fun y => encode a (g y))
    (fun l => let* (x, l) := decode a l in let* y := f x in Some (y, l)).

Lemma codec_unit : codec_for (fun _ => True) c_unit.
Proof. split; [by intros [] |]. intros l [] r Hl [= <-]. done. Qed.

Lemma codec_pair {A B} (P : A -> Prop) (Q : B -> Prop) a b :
  codec_for P a -> codec_for Q b ->
  codec_for (fun p => P (fst p) /\ Q (snd p)) (c_pair a b).
Proof.
  intros Ha Hb. split.
  - intros [x y] rest [Hx Hy]. simpl in *. rewrite <- app_assoc, (lossless Ha) by done. simpl.
    by rewrite (lossless Hb).
  - intros l [x y] rest Hl H. simpl in H.
    destruct (decode a l) as [[x' l1] |] eqn:E1; [simpl in H | done].
    destruct (decode b l1) as [[y' l2] |] eqn:E2; [simpl in H | done].
    injection H as <- <- <-. apply (typed Ha) in E1 as [? Hl1]; [| done].
    apply (typed Hb) in E2 as [? ?]; done.
Qed.

Lemma codec_filter {A B} (P : A -> Prop) (Q : B -> Prop) (f : A -> option B) g a :
  codec_for P a -> (forall y, Q y -> P (g y) /\ f (g y) = Some y) ->
  (forall x y, P x -> f x = Some y -> Q y) -> codec_for Q (c_filter f g a).
Proof.
  intros Ha Hg Hf. split.
  - intros y rest Hy. destruct (Hg y Hy) as [Hp He]. simpl. rewrite (lossless Ha) by done.
    simpl. by rewrite He.
  - intros l y rest Hl H. simpl in H.
    destruct (decode a l) as [[x l1] |] eqn:E1; [simpl in H | done].
    destruct (f x) as [y' |] eqn:E2; [simpl in H | done]. injection H as <- <-.
    apply (typed Ha) in E1 as [? ?]; [| done]. split; [by eapply Hf | done].
Qed.

Lemma codec_map {A B} (P : A -> Prop) (Q : B -> Prop) (f : A -> B) g a :
  codec_for P a -> (forall y, Q y -> P (g y) /\ f (g y) = y) ->
  (forall x, P x -> Q (f x)) -> codec_for Q (c_map f g a).
Proof.
  intros Ha Hg Hf. apply (codec_filter P Q (fun x => Some (f x)) g a Ha).
  - intros y Hy. destruct (Hg y Hy) as [? ->]. done.
  - intros x y Hx [= <-]. by apply Hf.
Qed.

(** Bytes that hold a little-endian two's complement number. *)
Lemma codec_twos n (c : Codec (list Z)) :
  codec_for (fun l => length l = n /\ Forall is_u8 l) c ->
  codec_for (fun x => - 256 ^ Z.of_nat n <= 2 * x < 256 ^ Z.of_nat n)
    (c_map le_sval (le_bytes n) c).
Proof.
  intros Hc. eapply codec_map; [exact Hc | |].
  - intros x Hx. cbv beta. rewrite length_le_bytes, le_sval_signed by done. split_and!; [done | | done].
    eapply Forall_impl; [| apply le_bytes_are_bytes]. unfold is_byte. intros. widths_lia.
  - intros l [<- Hl].
    assert (Hb : Forall is_byte l)
      by (eapply Forall_impl; [| exact Hl]; unfold is_byte; intros; widths_lia).
    pose proof (le_val_bounds l Hb). unfold le_sval.
    destruct (Z.ltb_spec (2 * le_val l) (256 ^ Z.of_nat (length l))); lia.
Qed.

(** ** The crate *)

Class BorshCrate : Type := {
  borsh_u8 : Codec Z;
  borsh_u16 : Codec Z;
  borsh_u32 : Codec Z;
  borsh_u64 : Codec Z;
  borsh_i64 : Codec Z;
  borsh_bool : Codec bool;
  borsh_option {T} : Codec T -> Codec (option T);
  borsh_array {T} : nat -> Codec T -> Codec (list T);
  borsh_vec {T} : Codec T -> Codec (list T);
  (* of arch_program *)
  borsh_pubkey : Codec Pubkey;
  borsh_instruction : Codec Instruction }.

(** A key is thirty-two bytes. *)
Definition is_pubkey (k : Pubkey) : Prop := length k = 32%nat /\ Forall is_u8 k.

Definition option_all {T} (P : T -> Prop) (o : option T) : Prop :=
  match o with Some x => P x | None => True end.

(** Documented: the codecs are inverse to each other on the values of their types, arrays
    have their length, vectors at most the length of a [u32], and a byte is itself. *)
Class BorshLaws (BO : BorshCrate) : Type := {
  is_instruction : Instruction -> Prop;
  codec_u8 : codec_for is_u8 borsh_u8;
  codec_u16 : codec_for is_u16 borsh_u16;
  codec_u32 : codec_for is_u32 borsh_u32;
  codec_u64 : codec_for is_u64 borsh_u64;
  codec_i64 : codec_for is_i64 borsh_i64;
  codec_bool : codec_for (fun _ => True) borsh_bool;
  codec_option T P (c : Codec T) : codec_for P c -> codec_for (option_all P) (borsh_option c);
  codec_array T P n (c : Codec T) : codec_for P c ->
    codec_for (fun l => length l = n /\ Forall P l) (borsh_array n c);
  codec_vec T P (c : Codec T) : codec_for P c ->
    codec_for (fun l => is_u32 (Z.of_nat (length l)) /\ Forall P l) (borsh_vec c);
  codec_pubkey : codec_for is_pubkey borsh_pubkey;
  codec_instruction : codec_for is_instruction borsh_instruction;
  encode_u8 x : is_u8 x -> encode borsh_u8 x = [x] }.

(** Documented, for code that writes the bytes itself: integers are little endian, a vector
    of bytes is its length in four bytes and the bytes. *)
Class BorshFormat (BO : BorshCrate) : Prop := {
  encode_u64 x : is_u64 x -> encode borsh_u64 x = le_bytes 8 x;
  encode_bytes l : Forall is_u8 l ->
    encode (borsh_vec borsh_u8) l = le_bytes 4 (Z.of_nat (length l)) ++ l }.

#[export] Hint Resolve codec_unit codec_u8 codec_u16 codec_u32 codec_u64 codec_i64 codec_bool codec_option
  codec_array codec_vec codec_pubkey codec_instruction codec_pair : borsh.

Section Derived.
Context {BO : BorshCrate} {BOL : BorshLaws BO}.

(** [derive] on an enum without fields: the number of the variant. *)
Definition c_enum {T} (number : T -> Z) (of_number : Z -> option T) : Codec T :=
  c_filter of_number number borsh_u8.

Lemma codec_enum {T} (number : T -> Z) of_number :
  (forall t, is_u8 (number t) /\ of_number (number t) = Some t) ->
  codec_for (fun _ => True) (c_enum number of_number).
Proof.
  intros H. eapply codec_filter; [apply codec_u8 | intros t _; apply H | done].
Qed.

(** [Padding<n>]: the model has no padding, which is zero when it is written and any bytes
    when it is read. *)
Definition c_pad (n : nat) : Codec () :=
  c_map (fun _ => tt) (fun _ => replicate n 0) (borsh_array n borsh_u8).

Lemma codec_pad n : codec_for (fun _ => True) (c_pad n).
Proof.
  eapply codec_map; [apply codec_array, codec_u8 | | done].
  intros [] _. split; [| done]. rewrite length_replicate. split; [done |].
  apply Forall_replicate. widths_lia.
Qed.

Definition c_le_signed (n : nat) : Codec Z :=
  c_map le_sval (le_bytes n) (borsh_array n borsh_u8).

Lemma codec_le_signed n :
  codec_for (fun x => - 256 ^ Z.of_nat n <= 2 * x < 256 ^ Z.of_nat n) (c_le_signed n).
Proof. apply codec_twos, codec_array, codec_u8. Qed.

End Derived.

#[export] Hint Resolve codec_pad codec_le_signed : borsh.

(** * A Borsh crate to try the properties on

    The format of the Borsh specification: integers in little-endian order, a byte before an
    option, four bytes of length before a vector.  It satisfies [BorshLaws]. *)

Definition ref_le (n : nat) : Codec Z :=
  mkCodec (le_bytes n)
    (fun l => if (length l <? n)%nat then None else Some (le_val (take n l), drop n l)).

Lemma ref_le_codec n : codec_for (fun x => 0 <= x < 256 ^ Z.of_nat n) (ref_le n).
Proof.
  split.
  - intros x rest Hx. simpl. rewrite length_app, length_le_bytes.
    rewrite (proj2 (Nat.ltb_ge _ _)) by lia.
    rewrite take_app_length', drop_app_length' by by rewrite length_le_bytes.
    by rewrite le_val_unsigned.
  - intros l x rest Hl H. simpl in H. destruct (Nat.ltb_spec (length l) n); [done |].
    injection H as <- <-. split; [| by apply Forall_drop].
    pose proof (le_val_bounds (take n l) (Forall_take _ _ _ Hl)) as Hb.
    by rewrite length_take, Nat.min_l in Hb by lia.
Qed.

(** A codec for the same values in other words. *)
Lemma codec_iff {T} (P Q : T -> Prop) c :
  (forall x, P x <-> Q x) -> codec_for P c -> codec_for Q c.
Proof.
  intros Hpq Hc. split.
  - intros x rest Hx. apply (lossless Hc). by apply Hpq.
  - intros l x rest Hl H. apply (typed Hc) in H as [? ?]; [| done]. by rewrite <- Hpq.
Qed.

Definition ref_bool : Codec bool :=
  c_filter (fun n => match n with 0 => Some false | 1 => Some true | _ => None end)
    (fun b : bool => if b then 1 else 0) (ref_le 1).

Definition ref_option {T} (c : Codec T) : Codec (option T) :=
  mkCodec (fun o => match o with None => [0] | Some x => 1 :: encode c x end)
    (fun l => match l with
              | 0 :: l => Some (None, l)
              | 1 :: l => let* (x, l) := decode c l in Some (Some x, l)
              | _ => None
              end).

Fixpoint decode_list {T} (c : Codec T) (n : nat) (l : list Z) : option (list T * list Z) :=
  match n with
  | O => Some ([], l)
  | S n => let* (x, l) := decode c l in let* (xs, l) := decode_list c n l in Some (x :: xs, l)
  end.
Fixpoint encode_list {T} (c : Codec T) (xs : list T) : list Z :=
  match xs with [] => [] | x :: xs => encode c x ++ encode_list c xs end.

Definition ref_array {T} (n : nat) (c : Codec T) : Codec (list T) :=
  mkCodec (encode_list c) (decode_list c n).
Definition ref_vec {T} (c : Codec T) : Codec (list T) :=
  mkCodec (fun xs => le_bytes 4 (Z.of_nat (length xs)) ++ encode_list c xs)
    (fun l => let* (n, l) := decode (ref_le 4) l in decode_list c (Z.to_nat n) l).

Definition ref_pubkey : Codec Pubkey := ref_array 32 (ref_le 1).
Definition ref_meta : Codec (Pubkey * bool * bool) :=
  c_pair (c_pair ref_pubkey ref_bool) ref_bool.
Definition ref_instruction : Codec Instruction :=
  c_map (fun '(p, (a, d)) => mkInstruction p a d)
    (fun i => (ix_program_id i, (ix_accounts i, ix_data i)))
    (c_pair ref_pubkey (c_pair (ref_vec ref_meta) (ref_vec (ref_le 1)))).

(** Two's complement. *)
Definition ref_signed (n : nat) : Codec Z :=
  c_map le_sval (le_bytes n) (ref_array n (ref_le 1)).

Definition borsh_ref : BorshCrate := {|
  borsh_u8 := ref_le 1;
  borsh_u16 := ref_le 2;
  borsh_u32 := ref_le 4;
  borsh_u64 := ref_le 8;
  borsh_i64 := ref_signed 8;
  borsh_bool := ref_bool;
  borsh_option := @ref_option;
  borsh_array := @ref_array;
  borsh_vec := @ref_vec;
  borsh_pubkey := ref_pubkey;
  borsh_instruction := ref_instruction |}.

(** ** The laws *)

Lemma ref_u8 : codec_for is_u8 (ref_le 1).
Proof. eapply codec_iff; [| apply ref_le_codec]. intros x. split; intros; widths_lia. Qed.

Lemma ref_bool_codec : codec_for (fun _ => True) ref_bool.
Proof.
  eapply codec_filter; [apply ref_u8 | | done]. intros [] _; split; (done || widths_lia).
Qed.

Lemma ref_option_codec {T} (P : T -> Prop) c :
  codec_for P c -> codec_for (option_all P) (ref_option c).
Proof.
  intros Hc. split.
  - intros [x |] rest Hx; simpl; [| done]. by rewrite (lossless Hc).
  - intros l o rest Hl H. destruct l as [| b l]; [done |]. apply Forall_cons_1 in Hl as [_ Hl].
    destruct b as [| [] |]; try discriminate H; cbn [ref_option decode] in H.
    + injection H as <- <-. done.
    + destruct (decode c l) as [[x l1] |] eqn:E; [| discriminate H]. injection H as <- <-.
      by apply (typed Hc) in E.
Qed.

Lemma decode_list_codec {T} (P : T -> Prop) (c : Codec T) n :
  codec_for P c -> codec_for (fun l => length l = n /\ Forall P l) (ref_array n c).
Proof.
  intros Hc. split.
  - intros xs rest [<- Hx]. cbn [ref_array encode decode].
    induction Hx as [| x xs Hx Hxs IH]; [done |]. cbn [length decode_list encode_list]. rewrite <- app_assoc, (lossless Hc) by done.
    cbn [mbind option_bind]. by rewrite IH.
  - intros l xs rest. cbn [decode ref_array]. revert l xs.
    induction n as [| n IH]; intros l xs Hl H; cbn [decode_list] in H.
    + injection H as <- <-. done.
    + destruct (decode c l) as [[x l1] |] eqn:E; [cbn [mbind option_bind] in H | done].
      apply (typed Hc) in E as [Hx Hl1]; [| done].
      destruct (decode_list c n l1) as [[ys l2] |] eqn:E2; [cbn [mbind option_bind] in H | done].
      injection H as <- <-. apply IH in E2 as [[<- Hys] ?]; [| done].
      split; [split; [done | by constructor] | done].
Qed.

Lemma ref_vec_codec {T} (P : T -> Prop) (c : Codec T) :
  codec_for P c -> codec_for (fun l => is_u32 (Z.of_nat (length l)) /\ Forall P l) (ref_vec c).
Proof.
  intros Hc. split.
  - intros xs rest [Hn Hx]. cbn [ref_vec encode decode]. rewrite <- app_assoc.
    change (le_bytes 4 ?x) with (encode (ref_le 4) x).
    rewrite (lossless (ref_le_codec 4)) by (simpl; widths_lia). cbn [mbind option_bind].
    rewrite Nat2Z.id. by apply (lossless (decode_list_codec P c _ Hc)).
  - intros l xs rest Hl H. cbn [ref_vec decode] in H.
    destruct (decode (ref_le 4) l) as [[n l1] |] eqn:E; [cbn [mbind option_bind] in H | done].
    apply (typed (ref_le_codec 4)) in E as [Hn Hl1]; [| done].
    apply (typed (decode_list_codec P c _ Hc)) in H as [[Hlen Hx] ?]; [| done].
    split; [split; [| done] | done]. rewrite Hlen. simpl in Hn. widths_lia.
Qed.

Lemma ref_pubkey_codec : codec_for is_pubkey ref_pubkey.
Proof. apply decode_list_codec, ref_u8. Qed.

Definition ref_is_instruction (i : Instruction) : Prop :=
  is_pubkey (ix_program_id i) /\
  (is_u32 (Z.of_nat (length (ix_accounts i))) /\
   Forall (fun m => (is_pubkey (fst (fst m)) /\ True) /\ True) (ix_accounts i)) /\
  is_u32 (Z.of_nat (length (ix_data i))) /\ Forall is_u8 (ix_data i).

Lemma ref_instruction_codec : codec_for ref_is_instruction ref_instruction.
Proof.
  eapply codec_map.
  - apply codec_pair; [apply ref_pubkey_codec | apply codec_pair; apply ref_vec_codec].
    + apply codec_pair; [apply codec_pair |]; [apply ref_pubkey_codec | apply ref_bool_codec..].
    + apply ref_u8.
  - intros [p a d] H. split; [exact H | done].
  - intros [p [a d]] H. exact H.
Qed.

#[global] Instance borsh_ref_laws : BorshLaws borsh_ref.
Proof.
  refine {| is_instruction := ref_is_instruction |}.
  - apply ref_u8.
  - eapply codec_iff; [| apply ref_le_codec]. intros x. split; intros; widths_lia.
  - eapply codec_iff; [| apply ref_le_codec]. intros x. split; intros; widths_lia.
  - eapply codec_iff; [| apply ref_le_codec]. intros x. split; intros; widths_lia.
  - eapply codec_iff; [| apply (codec_twos 8), decode_list_codec, ref_u8].
    intros x. split; intros; widths_lia.
  - apply ref_bool_codec.
  - intros T P c. apply ref_option_codec.
  - intros T P n c. apply decode_list_codec.
  - intros T P c. apply ref_vec_codec.
  - apply ref_pubkey_codec.
  - apply ref_instruction_codec.
  - intros x Hx. simpl. rewrite Z.mod_small by widths_lia. done.
Defined.

Lemma encode_list_bytes l : Forall is_u8 l -> encode_list (ref_le 1) l = l.
Proof.
  induction 1 as [| x l Hx _ IH]; [done |]. cbn [encode_list]. rewrite IH. simpl.
  by rewrite Z.mod_small by widths_lia.
Qed.

#[global] Instance borsh_ref_format : BorshFormat borsh_ref.
Proof.
  split; [done |]. intros l Hl. cbn [borsh_vec borsh_u8 borsh_ref ref_vec encode].
  by rewrite encode_list_bytes.
Qed.

(** * Accounts whose data is borrowed

    The data of an account is a [RefCell]: the conversions of
    [autara-program-lib/src/accounts] ask for a shared borrow and answer [AlreadyLoaded] when
    the data is being written, [load_ref] and [load_mut] hand out a borrow that lives until it
    is dropped and panic when it is refused.  Here the borrow flag is explicit, with the
    wrappers of [borsh.rs], [packed.rs], [zero_copy.rs] and [token.rs] over it.

    The conversions of [Accounts], which every handler runs while nothing is borrowed, are
    those given here on a cell that nobody writes ([conversions_without_writer]). *)
Module AccountCells.

(** ** The cell *)

(** The flag of a [RefCell]: free, read through so many [Ref]s, or written through the only
    [RefMut]. *)
Inductive BorrowFlag : Type :=
| Unused
| ReadBy (readers : positive)
| Written.

#[global] Instance BorrowFlag_eq_dec : EqDecision BorrowFlag.
Proof. solve_decision. Defined.

Record Cell : Type := mkCell { info : AccountInfo; flag : BorrowFlag }.

Definition set_flag (f : BorrowFlag) (c : Cell) : Cell := mkCell (info c) f.
Definition set_data (bytes : list Z) (c : Cell) : Cell :=
  mkCell (with_data bytes (info c)) (flag c).

(** [try_borrow], the drop of a [Ref], [try_borrow_mut] and the drop of a [RefMut]. *)
Definition try_borrow (c : Cell) : option Cell :=
  match flag c with
  | Unused => Some (set_flag (ReadBy 1) c)
  | ReadBy n => Some (set_flag (ReadBy (Pos.succ n)) c)
  | Written => None
  end.

Definition drop_ref (c : Cell) : Cell :=
  match flag c with
  | ReadBy n => set_flag (if bool_decide (n = 1%positive) then Unused
                          else ReadBy (Pos.pred n)) c
  | _ => c
  end.

Definition try_borrow_mut (c : Cell) : option Cell :=
  match flag c with Unused => Some (set_flag Written c) | _ => None end.

Definition drop_mut (c : Cell) : Cell :=
  match flag c with Written => set_flag Unused c | _ => c end.

(** What runs while the data is read through a [Ref] that is dropped at the end; [None] when
    the borrow is refused. *)
Definition borrowed {A} (f : list Z -> A) (c : Cell) : option A * Cell :=
  match try_borrow c with
  | Some c' => (Some (f (ai_data (info c'))), drop_ref c')
  | None => (None, c)
  end.

(** ** The conversions

    [is_valid_owner] is the trait [OwnedAccount] of the type. *)

(** [OwnedAccount] of the accounts of the program, and of token accounts and mints. *)
Definition program_owner (owner : Pubkey) : bool := bool_decide (owner = id).
Definition token_owner {CH : Chain} (owner : Pubkey) : bool :=
  bool_decide (owner = apl_token_id).

Section Conversions.
Context {T : Type} (is_valid_owner : Pubkey -> bool).

(** The steps that the conversions share: the owner, the borrow, then what is read. *)
Definition of_cell (read : list Z -> AccRes T) (c : Cell) : AccRes (Account T) * Cell :=
  if negb (is_valid_owner (ai_owner (info c))) then (Err InvalidOwner, c)
  else let '(r, c) := borrowed read c in
       (let? inner := match r with Some r => r | None => Err AlreadyLoaded end in
        Ok (mkAccount (ai_key (info c)) (ai_is_signer (info c)) inner), c).

(** [BorshOwnedAccount::try_from] and [PackedOwnedAccount::try_from]: the decoders are
    [T::try_from_slice] and [T::unpack]. *)
Definition owned_try_from (decoder : list Z -> option T) : Cell -> AccRes (Account T) * Cell :=
  of_cell (fun bytes => ok_or InvalidData (decoder bytes)).

(** [reload]: the wrapper is replaced only by a conversion that succeeds. *)
Definition reload (decoder : list Z -> option T) (self : Account T) (c : Cell)
  : AccRes () * Account T * Cell :=
  match owned_try_from decoder c with
  | (Ok fresh, c) => (Ok tt, fresh, c)
  | (Err e, c) => (Err e, self, c)
  | (Panic, c) => (Panic, self, c)
  end.

(** [ZeroCopyOwnedAccount::try_from] and [ZeroCopyOwnedAccountMut::try_from]. *)
Definition zero_copy_try_from `{ZeroCopyInitialized T} (of_bytes : list Z -> option T)
  : Cell -> AccRes (Account T) * Cell :=
  of_cell (fun bytes =>
    let? this := ok_or InvalidData (of_bytes bytes) in
    if negb (is_initialized this) then Err AccountNotInitialized else Ok this).

Definition zero_copy_mut_try_from `{ZeroCopyInitialized T} (of_bytes : list Z -> option T)
  (c : Cell) : AccRes (Account T) * Cell :=
  let '(r, c) := zero_copy_try_from of_bytes c in
  (let? account := r in
   if negb (ai_is_writable (info c)) then Err NotWritable else Ok account, c).

(** [load_ref]: the value, and the cell with the borrow that lives on. *)
Definition load_ref (of_bytes : list Z -> option T) (c : Cell) : AccRes (T * Cell) :=
  let? c := or_panic (try_borrow c) in
  let? this := or_panic (of_bytes (ai_data (info c))) in
  Ok (this, c).

(** [load_mut], likewise; the caller writes through it with [store]. *)
Definition load_mut (of_bytes : list Z -> option T) (c : Cell) : AccRes (T * Cell) :=
  let? c := or_panic (try_borrow_mut c) in
  let? this := or_panic (of_bytes (ai_data (info c))) in
  Ok (this, c).

End Conversions.

(** [T::try_from_slice] of [borsh]: nothing may be left. *)
Definition try_from_slice {T} (codec : Codec T) (bytes : list Z) : option T :=
  match decode codec bytes with Some (x, []) => Some x | _ => None end.

(** [data.get(a..b)] *)
Definition get_range (a b : nat) (l : list Z) : option (list Z) :=
  if (a <=? b)%nat && (b <=? length l)%nat then Some (slice a (b - a) l) else None.

(** [PackedOwnedAccount::token_amount], of either type of token account. *)
Definition token_amount (c : Cell) : option Z * Cell :=
  let '(r, c) := borrowed (get_range 64 72) c in
  (bytes ← mjoin r; Some (le_val bytes), c).

(** ** What a borrow leaves *)

Lemma drop_after_borrow c c' : try_borrow c = Some c' -> drop_ref c' = c.
Proof.
  destruct c as [i []]; cbn; intros [= <-]; cbn; [done |].
  rewrite bool_decide_eq_false_2 by lia. unfold set_flag. cbn. by rewrite Pos.pred_succ.
Qed.

Lemma drop_after_borrow_mut c c' : try_borrow_mut c = Some c' -> drop_mut c' = c.
Proof. destruct c as [i []]; cbn; by intros [= <-]. Qed.

(** A borrow that is dropped at the end leaves the cell as it was, and reads its data unless
    it is being written. *)
Lemma borrowed_spec {A} (f : list Z -> A) c :
  borrowed f c = (if bool_decide (flag c = Written) then None else Some (f (ai_data (info c))), c).
Proof.
  unfold borrowed. destruct (try_borrow c) as [c' |] eqn:E.
  - rewrite (drop_after_borrow _ _ E). destruct c as [i []]; cbn in *; by simplify_eq.
  - destruct c as [i []]; by cbn in *.
Qed.

(** ** The conversions *)

Section ConversionFacts.
Context {T : Type} (is_valid_owner : Pubkey -> bool).

(** A conversion gives the cell back as it found it, and checks the owner first, the borrow
    next. *)
Lemma of_cell_spec (read : list Z -> AccRes T) c :
  of_cell is_valid_owner read c =
  ((if negb (is_valid_owner (ai_owner (info c))) then Err InvalidOwner
    else if bool_decide (flag c = Written) then Err AlreadyLoaded
    else let? inner := read (ai_data (info c)) in
         Ok (mkAccount (ai_key (info c)) (ai_is_signer (info c)) inner)), c).
Proof.
  unfold of_cell. rewrite borrowed_spec.
  destruct (is_valid_owner _); cbn; [| done]. by case_bool_decide.
Qed.

Lemma owned_try_from_ok (decoder : list Z -> option T) c a c' :
  owned_try_from is_valid_owner decoder c = (Ok a, c') <->
  c' = c /\ flag c <> Written /\ is_valid_owner (ai_owner (info c)) = true /\
  key a = ai_key (info c) /\ acc_is_signer a = ai_is_signer (info c) /\
  decoder (ai_data (info c)) = Some (value a).
Proof.
  unfold owned_try_from. rewrite of_cell_spec.
  destruct (is_valid_owner _), (decoder _), a; case_bool_decide; cbn; naive_solver.
Qed.

(** A value that is stored is the one a conversion reads, when the decoder is inverse to what
    stored it. *)
Lemma stored_is_loaded (decoder : list Z -> option T) bytes x c :
  decoder bytes = Some x -> flag c <> Written -> is_valid_owner (ai_owner (info c)) = true ->
  owned_try_from is_valid_owner decoder (set_data bytes c) =
  (Ok (mkAccount (ai_key (info c)) (ai_is_signer (info c)) x), set_data bytes c).
Proof. intros ? ? ?. apply owned_try_from_ok. done. Qed.

(** [reload] shows what the account holds now, and keeps the old value when it fails. *)
Lemma reload_spec (decoder : list Z -> option T) self c :
  reload is_valid_owner decoder self c =
  match fst (owned_try_from is_valid_owner decoder c) with
  | Ok fresh => (Ok tt, fresh, c)
  | Err e => (Err e, self, c)
  | Panic => (Panic, self, c)
  end.
Proof.
  unfold reload, owned_try_from. rewrite of_cell_spec. cbn.
  destruct (negb _); [done |]. case_bool_decide; cbn; by try destruct (ok_or _ _).
Qed.

(** A [load_ref] after a validation, with nothing written in between, shows the value that
    was validated; its drop gives the cell back. *)
Lemma validated_can_be_read `{ZeroCopyInitialized T} of_bytes c a c' :
  zero_copy_try_from is_valid_owner of_bytes c = (Ok a, c') ->
  c' = c /\ is_initialized (value a) = true /\
  exists c2, load_ref of_bytes c = Ok (value a, c2) /\ drop_ref c2 = c.
Proof.
  unfold zero_copy_try_from. rewrite of_cell_spec. intros [= Hr <-].
  destruct (is_valid_owner _); cbn in Hr; [| done].
  case_bool_decide as Hw; cbn in Hr; [done |].
  destruct (of_bytes _) as [x |] eqn:Ex; cbn in Hr; [| done].
  destruct (is_initialized x) eqn:Ei; cbn in Hr; [| done]. injection Hr as <-. cbn.
  split_and!; [done.. |]. destruct (try_borrow c) as [c2 |] eqn:Eb.
  - exists c2. split; [| by eapply drop_after_borrow]. unfold load_ref. rewrite Eb. cbn.
    replace (info c2) with (info c) by (destruct c as [i []]; cbn in Eb; by simplify_eq).
    by rewrite Ex.
  - destruct c as [i []]; cbn in *; congruence.
Qed.

(** While a [RefMut] lives, every other access is refused: conversions answer
    [AlreadyLoaded], [load_ref] and [load_mut] panic. *)
Theorem writer_is_alone (of_bytes decoder : list Z -> option T)
  `{ZeroCopyInitialized T} c x c1 :
  load_mut of_bytes c = Ok (x, c1) -> is_valid_owner (ai_owner (info c)) = true ->
  flag c = Unused /\
  fst (owned_try_from is_valid_owner decoder c1) = Err AlreadyLoaded /\
  fst (zero_copy_try_from is_valid_owner of_bytes c1) = Err AlreadyLoaded /\
  load_ref of_bytes c1 = Panic /\ load_mut of_bytes c1 = Panic.
Proof.
  intros Hl Ho. destruct c as [i []]; cbn in Hl; [| done..].
  unfold load_mut in Hl. cbn in Hl. destruct (of_bytes _) as [y |]; cbn in Hl; [| done].
  injection Hl as <- <-. unfold owned_try_from, zero_copy_try_from. rewrite !of_cell_spec. cbn in *.
  by rewrite Ho.
Qed.

(** What is written through [load_mut] is what the next conversion and the next [load_ref]
    read, once the [RefMut] is dropped. *)
Theorem written_is_read (of_bytes : list Z -> option T) (to_bytes : T -> list Z) c x c1 y :
  (forall v, of_bytes (to_bytes v) = Some v) ->
  is_valid_owner (ai_owner (info c)) = true ->
  load_mut of_bytes c = Ok (x, c1) ->
  let c2 := drop_mut (set_data (to_bytes y) c1) in
  owned_try_from is_valid_owner of_bytes c2 =
    (Ok (mkAccount (ai_key (info c)) (ai_is_signer (info c)) y), c2) /\
  exists c3, load_ref of_bytes c2 = Ok (y, c3) /\ drop_ref c3 = c2.
Proof.
  intros Hcodec Ho Hl. destruct c as [i []]; cbn in Hl; [| done..].
  unfold load_mut in Hl. cbn in Hl. destruct (of_bytes _) as [z |]; cbn in Hl; [| done].
  injection Hl as <- <-. cbn. split.
  - apply owned_try_from_ok. by cbn.
  - eexists. unfold load_ref. cbn. rewrite Hcodec. cbn. done.
Qed.

End ConversionFacts.

(** The conversions of [Accounts] are those of the code on every cell that is not being
    written. *)
Theorem conversions_without_writer {CH : Chain} {T} `{ZeroCopyInitialized T}
  (of_bytes : list Z -> option T) c :
  flag c <> Written ->
  zero_copy_try_from program_owner of_bytes c = (zero_copy of_bytes (info c), c) /\
  zero_copy_mut_try_from program_owner of_bytes c = (zero_copy_mut of_bytes (info c), c) /\
  owned_try_from token_owner of_bytes c = (packed of_bytes (info c), c).
Proof.
  intros Hw.
  assert (Hz : zero_copy_try_from program_owner of_bytes c = (zero_copy of_bytes (info c), c)).
  { unfold zero_copy_try_from, zero_copy, program_owner. rewrite of_cell_spec.
    rewrite (bool_decide_eq_false_2 _ Hw). destruct (negb _); [done |].
    destruct (of_bytes _) as [x |]; cbn; [| done]. by destruct (is_initialized x). }
  split_and!; [done | |].
  - unfold zero_copy_mut_try_from, zero_copy_mut. by rewrite Hz.
  - unfold owned_try_from, packed, token_owner. rewrite of_cell_spec, (bool_decide_eq_false_2 _ Hw).
    destruct (negb _); [done |]. by destruct (of_bytes _).
Qed.

(** ** Borsh accounts *)

(** An account that holds an encoded value is loaded as that value, by a codec that is
    lossless; with anything behind the value it is refused. *)
Theorem borsh_account_roundtrip {T} (is_valid_owner : Pubkey -> bool) (P : T -> Prop)
  (codec : Codec T) x tail c :
  codec_for P codec -> P x -> flag c <> Written ->
  is_valid_owner (ai_owner (info c)) = true ->
  fst (owned_try_from is_valid_owner (try_from_slice codec)
    (set_data (encode codec x ++ tail) c)) =
  if bool_decide (tail = []) then Ok (mkAccount (ai_key (info c)) (ai_is_signer (info c)) x)
  else Err InvalidData.
Proof.
  intros Hc Hx Hw Ho. unfold owned_try_from. rewrite of_cell_spec. cbn.
  rewrite Ho, (bool_decide_eq_false_2 _ Hw). cbn. unfold try_from_slice.
  rewrite (lossless Hc x tail Hx). by destruct tail.
Qed.

(** ** The amount of a token account *)

Lemma get_range_field l m r a b :
  length l = a -> (a + length m)%nat = b -> get_range a b (l ++ m ++ r) = Some m.
Proof.
  intros Ha Hb. unfold get_range. rewrite !length_app.
  rewrite (proj2 (Nat.leb_le _ _)), (proj2 (Nat.leb_le _ _)) by lia.
  cbn [andb]. f_equal. apply slice_exact; lia.
Qed.

(** The amount is the little-endian number after the mint and the owner; it is not read from
    an account that is too short or being written. *)
Theorem token_amount_spec c :
  snd (token_amount c) = c /\
  (forall mint owner amount rest, length mint = 32%nat -> length owner = 32%nat ->
     is_u64 amount -> ai_data (info c) = mint ++ owner ++ le_bytes 8 amount ++ rest ->
     flag c <> Written -> fst (token_amount c) = Some amount) /\
  (fst (token_amount c) = None <-> flag c = Written \/ (length (ai_data (info c)) < 72)%nat).
Proof.
  unfold token_amount. rewrite borrowed_spec. cbn [fst snd]. split_and!; [done | |].
  - intros m o n r Hm Ho Hn Hd Hw. rewrite (bool_decide_eq_false_2 _ Hw), Hd, app_assoc.
    change (mjoin (Some ?x)) with x.
    rewrite (get_range_field (m ++ o) (le_bytes 8 n) r 64 72)
      by (rewrite ?length_app, ?length_le_bytes; lia).
    cbn [mbind option_bind]. by rewrite le_u64.
  - case_bool_decide as Hw; cbn; [naive_solver |]. unfold get_range.
    destruct (Nat.leb_spec 72 (length (ai_data (info c)))); cbn; split; try naive_solver lia.
Qed.

(** ** A run

    The scenario of the unit tests of [borsh.rs]: a little-endian number of eight bytes in an
    account of the right owner. *)
Module CellExample.
Definition number (n : nat) : Codec Z :=
  mkCodec (le_bytes n)
    (fun l => if (n <=? length l)%nat then Some (le_val (take n l), drop n l) else None).

Definition owner : Pubkey := replicate 32 1.
Definition valid (k : Pubkey) : bool := bool_decide (k = owner).
Definition cell (o : Pubkey) (f : BorrowFlag) (x : Z) : Cell :=
  mkCell (mkAccountInfo (replicate 32 7) o true true (le_bytes 8 x)) f.
Definition load (n : nat) (c : Cell) : AccRes (Account Z) :=
  fst (owned_try_from valid (try_from_slice (number n)) c).

Lemma number_is_codec n : codec_for (fun x => 0 <= x < 256 ^ Z.of_nat n) (number n).
Proof.
  split.
  - intros x rest Hx. cbn. rewrite length_app, length_le_bytes.
    rewrite (proj2 (Nat.leb_le _ _)) by lia.
    rewrite take_app_length', drop_app_length' by (by rewrite length_le_bytes).
    by rewrite le_val_unsigned.
  - intros l x rest Hl H. cbn in H. destruct (Nat.leb_spec n (length l)); [| done].
    injection H as <- <-. split; [| by apply Forall_drop].
    pose proof (le_val_bounds (take n l) (Forall_take _ n _ Hl)) as Hb.
    by rewrite length_take_le in Hb.
Qed.

Example tests_of_borsh_accounts :
  load 8 (cell owner Unused 42) = Ok (mkAccount (replicate 32 7) true 42) /\
  load 16 (cell owner Unused 42) = Err InvalidData /\
  load 4 (cell owner Unused 42) = Err InvalidData /\
  load 8 (cell id Unused 42) = Err InvalidOwner /\
  load 8 (cell owner Written 42) = Err AlreadyLoaded /\
  reload valid (try_from_slice (number 8)) (mkAccount (replicate 32 7) true 42)
    (cell owner (ReadBy 2) 84) =
    (Ok tt, mkAccount (replicate 32 7) true 84, cell owner (ReadBy 2) 84).
Proof. vm_compute. done. Qed.

Lemma borsh_account_roundtrip_witness :
  load 8 (set_data (le_bytes 8 42 ++ []) (cell owner Unused 0)) =
  Ok (mkAccount (replicate 32 7) true 42).
Proof.
  apply (borsh_account_roundtrip valid _ _ 42 [] (cell owner Unused 0) (number_is_codec 8));
    [lia | done | reflexivity].
Defined.

Lemma written_is_read_witness :
  let decoder := try_from_slice (mkCodec (fun x : bool => [if x then 1 else 0])
    (fun l => match l with b :: l => Some (bool_decide (b = 1), l) | [] => None end)) in
  let c := mkCell (mkAccountInfo (replicate 32 7) owner true true [0]) Unused in
  exists c3, load_ref decoder (set_data [1] c) = Ok (true, c3).
Proof.
  intros decoder c.
  destruct (written_is_read valid decoder (fun x : bool => [if x then 1 else 0]) c false
    (set_flag Written c) true) as [_ (c3 & H & _)];
    [intros [] | | |]; [reflexivity.. |]. by exists c3.
Defined.
End CellExample.

End AccountCells.
