(* ===== verification/InstructionCodec.v ===== *)
(** * The wire format of instructions

    [autara-lib/src/ixs/types.rs]: the tags and the hand-written codec of
    [AurataInstruction]; the codecs that [derive] generates for the payloads, from
    [autara-lib/src/ixs], [state/market_config.rs], [oracle] and [interest_rate]. *)
From S2P Require Import Prelude.
From S2P Require Import Errors.
From S2P Require Import Monad.
From S2P Require Import FixedPoint.
From S2P Require Import InterestRatePerSecond.
From S2P Require Import Polyline.
From S2P Require Import AdaptiveCurve.
From S2P Require Import Bytes.
From S2P Require Import InterestRateCurve.
From S2P Require Import PodOption.
From S2P Require Import Pda.
From S2P Require Import Oracle.
From S2P Require Import MarketConfig.
From S2P Require Import Events.
From S2P Require Import Processor.
From S2P Require Import ProcessorAdmin.
From S2P Require Import Program.
From S2P Require Import Borsh.

(** ** Tags *)

Module Tag.
Inductive AurataInstructionTag : Type :=
| CreateMarket | CreateSupplyPosition | SupplyApl | WithdrawSupply | CreateBorrowPosition
| DepositAplCollateral | WithdrawAplCollateral | BorrowApl | RepayApl | UpdateConfig
| Liquidate | Log | CreateGlobalConfig | ReedeemCuratorFees | ReedeemProtocolFees
| UpdateGlobalConfig | BorrowDepositApl | WithdrawRepayApl | SocializeLoss | DonateSupply
| BeginCapitalSweep | SettleCapitalSweep | AddWhitelistedLiquidator
| RemoveWhitelistedLiquidator.
End Tag.
Notation AurataInstructionTag := Tag.AurataInstructionTag.

#[global] Instance AurataInstructionTag_eq_dec : EqDecision AurataInstructionTag.
Proof. solve_decision. Defined.

(** The variants in the order of their declaration, which numbers them. *)
Definition all_tags : list AurataInstructionTag :=
  [Tag.CreateMarket; Tag.CreateSupplyPosition; Tag.SupplyApl; Tag.WithdrawSupply;
   Tag.CreateBorrowPosition; Tag.DepositAplCollateral; Tag.WithdrawAplCollateral;
   Tag.BorrowApl; Tag.RepayApl; Tag.UpdateConfig; Tag.Liquidate; Tag.Log;
   Tag.CreateGlobalConfig; Tag.ReedeemCuratorFees; Tag.ReedeemProtocolFees;
   Tag.UpdateGlobalConfig; Tag.BorrowDepositApl; Tag.WithdrawRepayApl; Tag.SocializeLoss;
   Tag.DonateSupply; Tag.BeginCapitalSweep; Tag.SettleCapitalSweep;
   Tag.AddWhitelistedLiquidator; Tag.RemoveWhitelistedLiquidator].

Definition tag_number (t : AurataInstructionTag) : Z :=
  match list_find (fun u => u = t) all_tags with
  | Some (i, _) => Z.of_nat i
  | None => 255
  end.
Definition tag_of_number (n : Z) : option AurataInstructionTag :=
  if n <? 0 then None else all_tags !! Z.to_nat n.

(** [TryFrom<u8> for AurataInstructionTag] *)
Definition tag_try_from (value : Z) : Result Z AurataInstructionTag :=
  match value with
  | 0 => Ok Tag.CreateMarket
  | 1 => Ok Tag.CreateSupplyPosition
  | 2 => Ok Tag.SupplyApl
  | 3 => Ok Tag.WithdrawSupply
  | 4 => Ok Tag.CreateBorrowPosition
  | 5 => Ok Tag.DepositAplCollateral
  | 6 => Ok Tag.WithdrawAplCollateral
  | 7 => Ok Tag.BorrowApl
  | 8 => Ok Tag.RepayApl
  | 9 => Ok Tag.UpdateConfig
  | 10 => Ok Tag.Liquidate
  | 11 => Ok Tag.Log
  | 12 => Ok Tag.CreateGlobalConfig
  | 13 => Ok Tag.ReedeemCuratorFees
  | 14 => Ok Tag.ReedeemProtocolFees
  | 15 => Ok Tag.UpdateGlobalConfig
  | 16 => Ok Tag.BorrowDepositApl
  | 17 => Ok Tag.WithdrawRepayApl
  | 18 => Ok Tag.SocializeLoss
  | 19 => Ok Tag.DonateSupply
  | 20 => Ok Tag.BeginCapitalSweep
  | 21 => Ok Tag.SettleCapitalSweep
  | 22 => Ok Tag.AddWhitelistedLiquidator
  | 23 => Ok Tag.RemoveWhitelistedLiquidator
  | _ => Err value
  end.

(** The table of [try_from] and the numbers that [derive] gives agree. *)
Lemma tag_try_from_number t : tag_try_from (tag_number t) = Ok t.
Proof. by destruct t. Qed.

Lemma tag_number_range t : 0 <= tag_number t <= 23.
Proof. destruct t; vm_compute; split; congruence. Qed.

Lemma tag_of_number_number t : tag_of_number (tag_number t) = Some t.
Proof. by destruct t. Qed.

Section Codecs.
Context {BO : BorshCrate}.

Definition c_tag : Codec AurataInstructionTag := c_enum tag_number tag_of_number.

(** ** Payloads *)

(** [IFixedPoint]: sixteen bytes. *)
Definition c_ifixed : Codec IFixedPoint := c_map IFP i_bits (c_le_signed 16).

Definition c_ltv_config : Codec LtvConfig :=
  c_map (fun '(a, (b, c)) => mkLtv a b c)
    (fun x => (max_ltv x, (unhealthy_ltv x, liquidation_bonus x)))
    (c_pair c_ifixed (c_pair c_ifixed c_ifixed)).

Definition c_rate_per_second : Codec InterestRatePerSecond :=
  c_map mkRatePerSecond per_second c_ifixed.
Definition c_point : Codec PolylineInterestRatePoint :=
  c_map (fun '(u, b) => mkPoint u b) (fun p => (utilization_rate_bps p, borrow_rate_bps p))
    (c_pair borsh_u32 borsh_u32).
Definition c_polyline : Codec PolylineInterestRateCurve :=
  c_map mkPolyline points_array (borsh_array POLYLINE_MAX_POINTS c_point).
Definition c_adaptive : Codec AdaptiveInterestRateCurve :=
  c_map mkAdaptive rate_at_target c_rate_per_second.

Definition c_curve_kind : Codec InterestRateCurveKind :=
  mkCodec
    (fun k => match k with
              | Fixed r => encode borsh_u8 0 ++ encode c_rate_per_second r
              | Polyline c => encode borsh_u8 1 ++ encode c_polyline c
              | Adaptive c => encode borsh_u8 2 ++ encode c_adaptive c
              end)
    (fun l => let* (n, l) := decode borsh_u8 l in
              match n with
              | 0 => let* (r, l) := decode c_rate_per_second l in Some (Fixed r, l)
              | 1 => let* (c, l) := decode c_polyline l in Some (Polyline c, l)
              | 2 => let* (c, l) := decode c_adaptive l in Some (Adaptive c, l)
              | _ => None
              end).

(** [#[borsh(use_discriminant = true)]]: the discriminants are 0 and 1. *)
Definition c_provider_kind : Codec PodOracleProviderKind :=
  c_enum (fun k => match k with KPyth => 0 | KChaos => 1 end)
    (fun n => match n with 0 => Some KPyth | 1 => Some KChaos | _ => None end).
Definition c_pod_provider : Codec PodOracleProvider :=
  c_map (fun '(k, u) => mkPodOracleProvider k u) (fun p => (provider_kind p, provider_union p))
    (c_pair c_provider_kind (borsh_array ORACLE_UNION_SIZE borsh_u8)).
Definition c_pod_option {T} (c : Codec T) : Codec (PodOption T) := c_map mkPodOption pod_value c.
Definition c_validation : Codec OracleValidationConfig :=
  c_map (fun '(a, c) => mkValidation a c)
    (fun v => (max_age_ v, min_relative_confidence_ v))
    (c_pair (c_pod_option borsh_u64) (c_pod_option c_ifixed)).
Definition c_oracle_config : Codec OracleConfig :=
  c_map (fun '(p, (v, _)) => mkOracleConfig p v)
    (fun c => (config_provider c, (validation_config c, tt)))
    (c_pair c_pod_provider (c_pair c_validation (c_pad 160))).

Definition c_create_market : Codec CreateMarketInstruction :=
  c_map (fun '(a, (b, (c, (d, (e, (f, (g, h))))))) => mkCreateMarketIx a b c d e f g h)
    (fun x => (ci_market_bump x, (ci_index x, (ci_ltv_config x, (ci_max_utilisation_rate x,
       (ci_supply_oracle_config x, (ci_collateral_oracle_config x, (ci_interest_rate x,
        ci_lending_market_fee_in_bps x))))))))
    (c_pair borsh_u8 (c_pair borsh_u8 (c_pair c_ltv_config (c_pair c_ifixed
       (c_pair c_oracle_config (c_pair c_oracle_config (c_pair c_curve_kind borsh_u16))))))).
Definition c_withdraw_supply : Codec WithdrawSupplyInstruction :=
  c_map (fun '(a, b) => mkWithdrawSupply a b) (fun x => (ws_amount x, ws_withdraw_all x))
    (c_pair borsh_u64 borsh_bool).
Definition c_withdraw_collateral : Codec WithdrawAplCollateralInstruction :=
  c_map (fun '(a, b) => mkWithdrawAplCollateral a b) (fun x => (wc_amount x, wc_withdraw_all x))
    (c_pair borsh_u64 borsh_bool).
Definition c_repay : Codec RepayAplInstruction :=
  c_map (fun '(a, b) => mkRepayApl a b) (fun x => (ra_amount x, ra_repay_all x))
    (c_pair borsh_u64 borsh_bool).
Definition c_update_config : Codec UpdateConfigInstruction :=
  c_map (fun '(a, (b, (c, (d, (e, f))))) => mkUpdateConfig a b c d e f)
    (fun x => (uc_supply_oracle_config x, (uc_collateral_oracle_config x, (uc_ltv_config x,
       (uc_max_supply_atoms x, (uc_max_utilisation_rate x, uc_lending_market_fee_in_bps x))))))
    (c_pair (borsh_option c_oracle_config) (c_pair (borsh_option c_oracle_config)
       (c_pair (borsh_option c_ltv_config) (c_pair (borsh_option borsh_u64)
          (c_pair (borsh_option c_ifixed) (borsh_option borsh_u16)))))).
Definition c_liquidate : Codec LiquidateInstruction :=
  c_map (fun '(a, (b, c)) => mkLiquidate a b c)
    (fun x => (lq_max_borrowed_atoms_to_repay x, (lq_min_collateral_atoms_to_receive x,
       lq_ix_callback x)))
    (c_pair borsh_u64 (c_pair borsh_u64 (borsh_option borsh_instruction))).
Definition c_create_global_config : Codec CreateGlobalConfigInstruction :=
  c_map (fun '(a, (b, (c, d))) => mkCreateGlobalConfigIx a b c d)
    (fun x => (cg_bump x, (cg_admin x, (cg_fee_receiver x, cg_protocol_fee_share_in_bps x))))
    (c_pair borsh_u8 (c_pair borsh_pubkey (c_pair borsh_pubkey borsh_u16))).
Definition c_update_global_config : Codec UpdateGlobalConfigInstruction :=
  c_map (fun '(a, (b, (c, d))) => mkUpdateGlobalConfig a b c d)
    (fun x => (ug_accept_nomination x, (ug_nominated_admin x, (ug_fee_receiver x,
       ug_protocol_fee_share_in_bps x))))
    (c_pair borsh_bool (c_pair (borsh_option borsh_pubkey) (c_pair (borsh_option borsh_pubkey)
       (borsh_option borsh_u16)))).
Definition c_borrow_deposit : Codec BorrowDepositAplInstruction :=
  c_map (fun '(a, (b, c)) => mkBorrowDepositApl a b c)
    (fun x => (bd_deposit_amount x, (bd_borrow_amount x, bd_ix_callback x)))
    (c_pair borsh_u64 (c_pair borsh_u64 (borsh_option borsh_instruction))).
Definition c_withdraw_repay : Codec WithdrawRepayAplInstruction :=
  c_map (fun '(a, (b, (c, (d, e)))) => mkWithdrawRepayApl a b c d e)
    (fun x => (wr_repay_amount x, (wr_withdraw_amount x, (wr_repay_all x, (wr_withdraw_all x,
       wr_ix_callback x)))))
    (c_pair borsh_u64 (c_pair borsh_u64 (c_pair borsh_bool (c_pair borsh_bool
       (borsh_option borsh_instruction))))).
Definition c_settle : Codec SettleCapitalSweepInstruction :=
  c_map (fun '(a, b) => mkSettleCapitalSweep a b)
    (fun x => (sc_max_borrowed_atoms_to_repay x, sc_max_collateral_atoms_to_return x))
    (c_pair borsh_u64 borsh_u64).
Definition c_add_whitelisted : Codec AddWhitelistedLiquidatorInstruction :=
  c_map (fun '(a, b) => mkAddWhitelistedLiquidatorIx a b) (fun x => (aw_liquidator x, aw_bump x))
    (c_pair borsh_pubkey borsh_u8).

(** ** Instructions *)

(** [impl BorshSerialize for AurataInstruction] *)
Definition serialize (self : AurataInstruction) : list Z :=
  match self with
  | Ix.CreateMarket ix => encode c_tag Tag.CreateMarket ++ encode c_create_market ix
  | Ix.CreateSupplyPosition ix => encode c_tag Tag.CreateSupplyPosition ++ encode borsh_u8 ix
  | Ix.SupplyApl ix => encode c_tag Tag.SupplyApl ++ encode borsh_u64 ix
  | Ix.WithdrawSupply ix => encode c_tag Tag.WithdrawSupply ++ encode c_withdraw_supply ix
  | Ix.BorrowApl ix => encode c_tag Tag.BorrowApl ++ encode borsh_u64 ix
  | Ix.CreateBorrowPosition ix => encode c_tag Tag.CreateBorrowPosition ++ encode borsh_u8 ix
  | Ix.DepositAplCollateral ix => encode c_tag Tag.DepositAplCollateral ++ encode borsh_u64 ix
  | Ix.WithdrawAplCollateral ix =>
    encode c_tag Tag.WithdrawAplCollateral ++ encode c_withdraw_collateral ix
  | Ix.RepayApl ix => encode c_tag Tag.RepayApl ++ encode c_repay ix
  | Ix.UpdateConfig ix => encode c_tag Tag.UpdateConfig ++ encode c_update_config ix
  | Ix.Liquidate ix => encode c_tag Tag.Liquidate ++ encode c_liquidate ix
  | Ix.Log => encode c_tag Tag.Log
  | Ix.CreateGlobalConfig ix =>
    encode c_tag Tag.CreateGlobalConfig ++ encode c_create_global_config ix
  | Ix.ReedeemCuratorFees => encode c_tag Tag.ReedeemCuratorFees
  | Ix.ReedeemProtocolFees => encode c_tag Tag.ReedeemProtocolFees
  | Ix.UpdateGlobalConfig ix =>
    encode c_tag Tag.UpdateGlobalConfig ++ encode c_update_global_config ix
  | Ix.BorrowDepositApl ix => encode c_tag Tag.BorrowDepositApl ++ encode c_borrow_deposit ix
  | Ix.WithdrawRepayApl ix => encode c_tag Tag.WithdrawRepayApl ++ encode c_withdraw_repay ix
  | Ix.SocializeLoss => encode c_tag Tag.SocializeLoss ++ encode c_unit tt
  | Ix.DonateSupply ix => encode c_tag Tag.DonateSupply ++ encode borsh_u64 ix
  | Ix.BeginCapitalSweep => encode c_tag Tag.BeginCapitalSweep ++ encode c_unit tt
  | Ix.SettleCapitalSweep ix => encode c_tag Tag.SettleCapitalSweep ++ encode c_settle ix
  | Ix.AddWhitelistedLiquidator ix =>
    encode c_tag Tag.AddWhitelistedLiquidator ++ encode c_add_whitelisted ix
  | Ix.RemoveWhitelistedLiquidator ix =>
    encode c_tag Tag.RemoveWhitelistedLiquidator ++ encode borsh_pubkey ix
  end.

(** A payload behind its tag. *)
Definition payload {A B} (c : Codec A) (f : A -> B) (l : list Z) : option (B * list Z) :=
  let* (x, l) := decode c l in Some (f x, l).

(** [impl BorshDeserialize for AurataInstruction] *)
Definition deserialize (l : list Z) : option (AurataInstruction * list Z) :=
  let* (tag, l) := decode c_tag l in
  match tag with
  | Tag.CreateMarket => payload c_create_market Ix.CreateMarket l
  | Tag.CreateSupplyPosition => payload borsh_u8 Ix.CreateSupplyPosition l
  | Tag.SupplyApl => payload borsh_u64 Ix.SupplyApl l
  | Tag.WithdrawSupply => payload c_withdraw_supply Ix.WithdrawSupply l
  | Tag.BorrowApl => payload borsh_u64 Ix.BorrowApl l
  | Tag.CreateBorrowPosition => payload borsh_u8 Ix.CreateBorrowPosition l
  | Tag.DepositAplCollateral => payload borsh_u64 Ix.DepositAplCollateral l
  | Tag.WithdrawAplCollateral => payload c_withdraw_collateral Ix.WithdrawAplCollateral l
  | Tag.RepayApl => payload c_repay Ix.RepayApl l
  | Tag.UpdateConfig => payload c_update_config Ix.UpdateConfig l
  | Tag.Liquidate => payload c_liquidate Ix.Liquidate l
  | Tag.Log => Some (Ix.Log, l)
  | Tag.CreateGlobalConfig => payload c_create_global_config Ix.CreateGlobalConfig l
  | Tag.ReedeemCuratorFees => Some (Ix.ReedeemCuratorFees, l)
  | Tag.ReedeemProtocolFees => Some (Ix.ReedeemProtocolFees, l)
  | Tag.UpdateGlobalConfig => payload c_update_global_config Ix.UpdateGlobalConfig l
  | Tag.BorrowDepositApl => payload c_borrow_deposit Ix.BorrowDepositApl l
  | Tag.WithdrawRepayApl => payload c_withdraw_repay Ix.WithdrawRepayApl l
  | Tag.SocializeLoss => payload c_unit (fun _ => Ix.SocializeLoss) l
  | Tag.DonateSupply => payload borsh_u64 Ix.DonateSupply l
  | Tag.BeginCapitalSweep => payload c_unit (fun _ => Ix.BeginCapitalSweep) l
  | Tag.SettleCapitalSweep => payload c_settle Ix.SettleCapitalSweep l
  | Tag.AddWhitelistedLiquidator => payload c_add_whitelisted Ix.AddWhitelistedLiquidator l
  | Tag.RemoveWhitelistedLiquidator => payload borsh_pubkey Ix.RemoveWhitelistedLiquidator l
  end.

End Codecs.

(** * Facts about the wire format

    Every instruction survives the wire, and whatever bytes are decoded, the arguments have
    the values of their types. *)

(** ** The values of the types *)

Definition is_ifixed (x : IFixedPoint) : Prop := I128_MIN <= i_bits x <= I128_MAX.
Definition is_ltv (x : LtvConfig) : Prop :=
  is_ifixed (max_ltv x) /\ is_ifixed (unhealthy_ltv x) /\ is_ifixed (liquidation_bonus x).
Definition is_point (p : PolylineInterestRatePoint) : Prop :=
  is_u32 (utilization_rate_bps p) /\ is_u32 (borrow_rate_bps p).
Definition is_curve (k : InterestRateCurveKind) : Prop :=
  match k with
  | Fixed r => is_ifixed (per_second r)
  | Polyline c => length (points_array c) = POLYLINE_MAX_POINTS /\ Forall is_point (points_array c)
  | Adaptive c => is_ifixed (per_second (rate_at_target c))
  end.
Definition is_oracle_config (c : OracleConfig) : Prop :=
  (length (provider_union (config_provider c)) = ORACLE_UNION_SIZE /\
   Forall is_u8 (provider_union (config_provider c))) /\
  is_u64 (pod_value (max_age_ (validation_config c))) /\
  is_ifixed (pod_value (min_relative_confidence_ (validation_config c))).

Section Facts.
Context {BO : BorshCrate} {BOL : BorshLaws BO}.

(** The arguments of an instruction have the values of their types. *)
Definition ix_typed (ix : AurataInstruction) : Prop :=
  match ix with
  | Ix.CreateMarket d =>
    is_u8 (ci_market_bump d) /\ is_u8 (ci_index d) /\ is_ltv (ci_ltv_config d) /\
    is_ifixed (ci_max_utilisation_rate d) /\ is_oracle_config (ci_supply_oracle_config d) /\
    is_oracle_config (ci_collateral_oracle_config d) /\ is_curve (ci_interest_rate d) /\
    is_u16 (ci_lending_market_fee_in_bps d)
  | Ix.CreateSupplyPosition b | Ix.CreateBorrowPosition b => is_u8 b
  | Ix.SupplyApl n | Ix.BorrowApl n | Ix.DepositAplCollateral n | Ix.DonateSupply n => is_u64 n
  | Ix.WithdrawSupply d => is_u64 (ws_amount d)
  | Ix.WithdrawAplCollateral d => is_u64 (wc_amount d)
  | Ix.RepayApl d => is_u64 (ra_amount d)
  | Ix.UpdateConfig d =>
    option_all is_oracle_config (uc_supply_oracle_config d) /\
    option_all is_oracle_config (uc_collateral_oracle_config d) /\
    option_all is_ltv (uc_ltv_config d) /\ option_all is_u64 (uc_max_supply_atoms d) /\
    option_all is_ifixed (uc_max_utilisation_rate d) /\
    option_all is_u16 (uc_lending_market_fee_in_bps d)
  | Ix.Liquidate d =>
    is_u64 (lq_max_borrowed_atoms_to_repay d) /\ is_u64 (lq_min_collateral_atoms_to_receive d) /\
    option_all is_instruction (lq_ix_callback d)
  | Ix.CreateGlobalConfig d =>
    is_u8 (cg_bump d) /\ is_pubkey (cg_admin d) /\ is_pubkey (cg_fee_receiver d) /\
    is_u16 (cg_protocol_fee_share_in_bps d)
  | Ix.UpdateGlobalConfig d =>
    option_all is_pubkey (ug_nominated_admin d) /\ option_all is_pubkey (ug_fee_receiver d) /\
    option_all is_u16 (ug_protocol_fee_share_in_bps d)
  | Ix.BorrowDepositApl d =>
    is_u64 (bd_deposit_amount d) /\ is_u64 (bd_borrow_amount d) /\
    option_all is_instruction (bd_ix_callback d)
  | Ix.WithdrawRepayApl d =>
    is_u64 (wr_repay_amount d) /\ is_u64 (wr_withdraw_amount d) /\
    option_all is_instruction (wr_ix_callback d)
  | Ix.SettleCapitalSweep d =>
    is_u64 (sc_max_borrowed_atoms_to_repay d) /\ is_u64 (sc_max_collateral_atoms_to_return d)
  | Ix.AddWhitelistedLiquidator d => is_pubkey (aw_liquidator d) /\ is_u8 (aw_bump d)
  | Ix.RemoveWhitelistedLiquidator k => is_pubkey k
  | Ix.Log | Ix.ReedeemCuratorFees | Ix.ReedeemProtocolFees | Ix.SocializeLoss
  | Ix.BeginCapitalSweep => True
  end.

(** ** The codecs of the payloads *)

(** A codec along the fields of a record. *)
Ltac codec_struct :=
  eapply codec_map;
  [ eauto 20 with borsh
  | let y := fresh in intros y; destruct y; simpl; tauto
  | let x := fresh in intros x;
    repeat match goal with p : (_ * _)%type |- _ => destruct p end; simpl; tauto ].

Lemma codec_tag : codec_for (fun _ => True) c_tag.
Proof.
  apply codec_enum. intros t. split; [| apply tag_of_number_number].
  pose proof (tag_number_range t). widths_lia.
Qed.

Lemma codec_ifixed : codec_for is_ifixed c_ifixed.
Proof.
  eapply codec_map; [apply codec_le_signed | |].
  - intros [x] Hx. split; [| done]. unfold is_ifixed in Hx. simpl in *. widths_lia.
  - intros x Hx. unfold is_ifixed. simpl in *. widths_lia.
Qed.
#[local] Hint Resolve codec_tag codec_ifixed : borsh.

Lemma codec_ltv : codec_for is_ltv c_ltv_config.
Proof. unfold is_ltv. codec_struct. Qed.

Lemma codec_rate : codec_for (fun r => is_ifixed (per_second r)) c_rate_per_second.
Proof. codec_struct. Qed.

Lemma codec_point : codec_for is_point c_point.
Proof. unfold is_point. codec_struct. Qed.
#[local] Hint Resolve codec_ltv codec_rate codec_point : borsh.

Lemma codec_polyline :
  codec_for (fun c => length (points_array c) = POLYLINE_MAX_POINTS /\
                      Forall is_point (points_array c)) c_polyline.
Proof. codec_struct. Qed.

Lemma codec_adaptive : codec_for (fun c => is_ifixed (per_second (rate_at_target c))) c_adaptive.
Proof. codec_struct. Qed.

Lemma codec_curve : codec_for is_curve c_curve_kind.
Proof.
  assert (H : forall n, 0 <= n <= 2 -> is_u8 n) by (intros; widths_lia). split.
  - intros [r | c | c] rest Hk; cbn [c_curve_kind encode decode];
      rewrite <- app_assoc, (lossless codec_u8) by (apply H; lia);
      cbn [mbind option_bind]; [rewrite (lossless codec_rate) by done | rewrite (lossless codec_polyline) by done
             | rewrite (lossless codec_adaptive) by done]; done.
  - intros l k rest Hl Hd. cbn [c_curve_kind decode] in Hd.
    destruct (decode borsh_u8 l) as [[n l1] |] eqn:E; [cbn [mbind option_bind] in Hd | done].
    apply (typed codec_u8) in E as [_ Hl1]; [| done].
    destruct n as [| [[] | [] |] |]; try done;
      [ destruct (decode c_rate_per_second l1) as [[x l2] |] eqn:E2
      | destruct (decode c_adaptive l1) as [[x l2] |] eqn:E2
      | destruct (decode c_polyline l1) as [[x l2] |] eqn:E2 ];
      try done; injection Hd as <- <-.
    + by apply (typed codec_rate) in E2.
    + by apply (typed codec_adaptive) in E2.
    + by apply (typed codec_polyline) in E2.
Qed.

Lemma codec_provider_kind : codec_for (fun _ => True) c_provider_kind.
Proof. apply codec_enum. intros []; split; try done; widths_lia. Qed.

Lemma codec_pod_option {T} (P : T -> Prop) c :
  codec_for P c -> codec_for (fun o => P (pod_value o)) (c_pod_option c).
Proof. intros. codec_struct. Qed.
#[local] Hint Resolve codec_polyline codec_adaptive codec_curve codec_provider_kind
  codec_pod_option : borsh.

Lemma codec_pod_provider :
  codec_for (fun p => length (provider_union p) = ORACLE_UNION_SIZE /\
                      Forall is_u8 (provider_union p)) c_pod_provider.
Proof. codec_struct. Qed.

Lemma codec_validation :
  codec_for (fun v => is_u64 (pod_value (max_age_ v)) /\
                      is_ifixed (pod_value (min_relative_confidence_ v))) c_validation.
Proof. codec_struct. Qed.
#[local] Hint Resolve codec_pod_provider codec_validation : borsh.

Lemma codec_oracle_config : codec_for is_oracle_config c_oracle_config.
Proof. unfold is_oracle_config. codec_struct. Qed.
#[local] Hint Resolve codec_oracle_config : borsh.

(** The fields of a payload, for the constructor [f] of the instruction. *)
Ltac codec_payload := unfold ix_typed; codec_struct.

Lemma codec_create_market : codec_for (fun d => ix_typed (Ix.CreateMarket d)) c_create_market.
Proof. codec_payload. Qed.
Lemma codec_withdraw_supply :
  codec_for (fun d => ix_typed (Ix.WithdrawSupply d)) c_withdraw_supply.
Proof. codec_payload. Qed.
Lemma codec_withdraw_collateral :
  codec_for (fun d => ix_typed (Ix.WithdrawAplCollateral d)) c_withdraw_collateral.
Proof. codec_payload. Qed.
Lemma codec_repay : codec_for (fun d => ix_typed (Ix.RepayApl d)) c_repay.
Proof. codec_payload. Qed.
Lemma codec_update_config : codec_for (fun d => ix_typed (Ix.UpdateConfig d)) c_update_config.
Proof. codec_payload. Qed.
Lemma codec_liquidate : codec_for (fun d => ix_typed (Ix.Liquidate d)) c_liquidate.
Proof. codec_payload. Qed.
Lemma codec_create_global_config :
  codec_for (fun d => ix_typed (Ix.CreateGlobalConfig d)) c_create_global_config.
Proof. codec_payload. Qed.
Lemma codec_update_global_config :
  codec_for (fun d => ix_typed (Ix.UpdateGlobalConfig d)) c_update_global_config.
Proof. codec_payload. Qed.
Lemma codec_borrow_deposit :
  codec_for (fun d => ix_typed (Ix.BorrowDepositApl d)) c_borrow_deposit.
Proof. codec_payload. Qed.
Lemma codec_withdraw_repay :
  codec_for (fun d => ix_typed (Ix.WithdrawRepayApl d)) c_withdraw_repay.
Proof. codec_payload. Qed.
Lemma codec_settle : codec_for (fun d => ix_typed (Ix.SettleCapitalSweep d)) c_settle.
Proof. codec_payload. Qed.
Lemma codec_add_whitelisted :
  codec_for (fun d => ix_typed (Ix.AddWhitelistedLiquidator d)) c_add_whitelisted.
Proof. codec_payload. Qed.
#[local] Hint Resolve codec_create_market codec_withdraw_supply codec_withdraw_collateral
  codec_repay codec_update_config codec_liquidate codec_create_global_config
  codec_update_global_config codec_borrow_deposit codec_withdraw_repay codec_settle
  codec_add_whitelisted : borsh.

(** ** Instructions *)

Lemma payload_lossless {A B} (P : A -> Prop) c (f : A -> B) x rest :
  codec_for P c -> P x -> payload c f (encode c x ++ rest) = Some (f x, rest).
Proof. intros Hc Hx. unfold payload. by rewrite (lossless Hc). Qed.

Lemma payload_typed {A B} (P : A -> Prop) c (f : A -> B) l y rest :
  codec_for P c -> Forall is_byte l -> payload c f l = Some (y, rest) ->
  exists x, y = f x /\ P x /\ Forall is_byte rest.
Proof.
  intros Hc Hl H. unfold payload in H.
  destruct (decode c l) as [[x l1] |] eqn:E; [simpl in H | done]. injection H as <- <-.
  apply (typed Hc) in E as [? ?]; [| done]. by exists x.
Qed.

Lemma deserialize_serialize ix rest :
  ix_typed ix -> deserialize (serialize ix ++ rest) = Some (ix, rest).
Proof.
  intros H. unfold deserialize.
  destruct ix; cbn [serialize]; rewrite <- ?app_assoc, (lossless codec_tag) by done;
    cbn [mbind option_bind]; try reflexivity;
    (eapply payload_lossless; [eauto with borsh | exact H || exact I]).
Qed.

Lemma deserialize_typed l ix rest :
  Forall is_byte l -> deserialize l = Some (ix, rest) -> ix_typed ix.
Proof.
  intros Hl H. unfold deserialize in H.
  destruct (decode c_tag l) as [[t l1] |] eqn:E; [simpl in H | done].
  apply (typed codec_tag) in E as [_ Hl1]; [| done].
  destruct t; try (injection H as <- <-; exact I);
    (eapply payload_typed in H as (x & -> & Hx & _); [| eauto with borsh | done]);
    (exact Hx || exact I).
Qed.

End Facts.
