(* ===== verification/EventCodec.v ===== *)
(** * The wire format of events

    [autara-lib/src/event.rs]: the tags and the hand-written codec of [AutaraEvent], what
    [derive] generates for the events and for the records in them, [from_bytes] and
    [AutaraEvents::from_processed_tx], with which a client reads the events of a
    transaction; [log_ix] of [autara-lib/src/ixs/log.rs], with which the program writes
    them. *)
From S2P Require Import Prelude.
From S2P Require Import FixedPoint.
From S2P Require Import InterestRatePerSecond.
From S2P Require Import Pda.
From S2P Require Import OracleRate.
From S2P Require Import BorrowPosition.
From S2P Require Import SupplyVault.
From S2P Require Import MarketWrapper.
From S2P Require Import Events.
From S2P Require Import Program.
From S2P Require Import Borsh.
From S2P Require Import InstructionCodec.

(** ** Tags *)

Module EventTag.
Inductive AurataEventTag : Type :=
| Liquidate | Supply | Withdraw | DepositCollateral | WithdrawCollateral | Borrow | Repay
| RedeemProtocolFees | RedeemCuratorFees | DepositAndBorrow | WithdrawAndRepay
| SocializeLoss | Donation | CapitalSweepStarted | CapitalSweepSettled
| LiquidatorWhitelistEntryAdded | LiquidatorWhitelistEntryRemoved.
End EventTag.
Notation AurataEventTag := EventTag.AurataEventTag.

#[global] Instance AurataEventTag_eq_dec : EqDecision AurataEventTag.
Proof. solve_decision. Defined.

(** The variants in the order of their declaration, which numbers them. *)
Definition all_event_tags : list AurataEventTag :=
  [EventTag.Liquidate; EventTag.Supply; EventTag.Withdraw; EventTag.DepositCollateral;
   EventTag.WithdrawCollateral; EventTag.Borrow; EventTag.Repay; EventTag.RedeemProtocolFees;
   EventTag.RedeemCuratorFees; EventTag.DepositAndBorrow; EventTag.WithdrawAndRepay;
   EventTag.SocializeLoss; EventTag.Donation; EventTag.CapitalSweepStarted;
   EventTag.CapitalSweepSettled; EventTag.LiquidatorWhitelistEntryAdded;
   EventTag.LiquidatorWhitelistEntryRemoved].

Definition event_tag_number (t : AurataEventTag) : Z :=
  match list_find (fun u => u = t) all_event_tags with
  | Some (i, _) => Z.of_nat i
  | None => 255
  end.
Definition event_tag_of_number (n : Z) : option AurataEventTag :=
  if n <? 0 then None else all_event_tags !! Z.to_nat n.

Section Codecs.
Context {BO : BorshCrate}.

Definition c_event_tag : Codec AurataEventTag := c_enum event_tag_number event_tag_of_number.

(** ** The records in the events *)

Definition c_oracle_rate : Codec OracleRate :=
  c_map (fun '(r, c) => mkOracleRate r c) (fun x => (rate x, confidence x))
    (c_pair c_ifixed c_ifixed).

Definition c_health : Codec BorrowPositionHealth :=
  c_map (fun '(a, (b, (c, (d, e)))) => mkHealth a b c d e)
    (fun x => (ltv x, (borrowed_atoms x, (collateral_atoms x, (borrow_value x,
       collateral_value x)))))
    (c_pair c_ifixed (c_pair borsh_u64 (c_pair borsh_u64 (c_pair c_ifixed c_ifixed)))).

Definition c_summary : Codec SupplyVaultSummary :=
  c_map (fun '(a, (b, (c, (d, (e, (f, (g, h))))))) => mkSupplyVaultSummary a b c d e f g h)
    (fun x => (summary_last_update x, (summary_total_supply x, (summary_total_borrow x,
       (summary_pending_curator_fee_atoms x, (summary_pending_protocol_fee_atoms x,
          (summary_utilisation_rate x, (summary_borrow_interest_rate x,
             summary_lending_interest_rate x))))))))
    (c_pair borsh_i64 (c_pair borsh_u64 (c_pair borsh_u64 (c_pair borsh_u64 (c_pair borsh_u64
       (c_pair c_ifixed (c_pair c_rate_per_second c_rate_per_second))))))).

(** ** The events *)

Definition c_liquidate_event : Codec LiquidateEvent :=
  c_map (fun '(a, (b, (c, (d, (e, (f, (g, (h, (i, j))))))))) =>
           mkLiquidateEvent a b c d e f g h i j)
    (fun x => (le_market x, (le_liquidator x, (le_liquidatee_position x, (le_supply_mint x,
       (le_collateral_mint x, (le_health_before_liquidation x, (le_health_after_liquidation x,
          (le_supply_repaid x, (le_collateral_liquidated x, le_liquidator_fee x))))))))))
    (c_pair borsh_pubkey (c_pair borsh_pubkey (c_pair borsh_pubkey (c_pair borsh_pubkey
       (c_pair borsh_pubkey (c_pair c_health (c_pair c_health
          (c_pair borsh_u64 (c_pair borsh_u64 borsh_u64))))))))).

Definition c_single_event : Codec SingleMarketTransactionEvent :=
  c_map (fun '(a, (b, (c, (d, (e, (f, (g, (h, i)))))))) => mkSingleEvent a b c d e f g h i)
    (fun x => (se_market x, (se_user x, (se_position x, (se_mint x, (se_amount x,
       (se_supply_vault_summary x, (se_collateral_vault_atoms x, (se_supply_oracle_rate x,
          se_collateral_oracle_rate x)))))))))
    (c_pair borsh_pubkey (c_pair borsh_pubkey (c_pair borsh_pubkey (c_pair borsh_pubkey
       (c_pair borsh_u64 (c_pair c_summary (c_pair borsh_u64
          (c_pair c_oracle_rate c_oracle_rate)))))))).

Definition c_double_event : Codec DoubleMarketTransactionEvent :=
  c_map (fun '(a, (b, (c, (d, (e, (f, (g, (h, (i, (j, k)))))))))) =>
           mkDoubleEvent a b c d e f g h i j k)
    (fun x => (de_market x, (de_user x, (de_position x, (de_mint_in x, (de_amount_in x,
       (de_mint_out x, (de_amount_out x, (de_supply_vault_summary x,
          (de_collateral_vault_atoms x, (de_supply_oracle_rate x,
             de_collateral_oracle_rate x)))))))))))
    (c_pair borsh_pubkey (c_pair borsh_pubkey (c_pair borsh_pubkey (c_pair borsh_pubkey
       (c_pair borsh_u64 (c_pair borsh_pubkey (c_pair borsh_u64 (c_pair c_summary
          (c_pair borsh_u64 (c_pair c_oracle_rate c_oracle_rate)))))))))).

Definition c_fee_event : Codec ReedeemFeeEvent :=
  c_map (fun '(a, (b, (c, (d, e)))) => mkReedeemFeeEvent a b c d e)
    (fun x => (rf_market x, (rf_fee_receiver x, (rf_fee_amount x, (rf_mint x,
       rf_supply_vault_snapshot x)))))
    (c_pair borsh_pubkey (c_pair borsh_pubkey (c_pair borsh_u64
       (c_pair borsh_pubkey c_summary)))).

Definition c_loss_event : Codec SocializeLossEvent :=
  c_map (fun '(a, (b, (c, d))) => mkSocializeLossEvent a b c d)
    (fun x => (sl_market x, (sl_position x, (sl_debt_socialized x,
       sl_collateral_liquidated x))))
    (c_pair borsh_pubkey (c_pair borsh_pubkey (c_pair borsh_u64 borsh_u64))).

Definition c_donate_event : Codec DonateSupplyEvent :=
  c_map (fun '(a, (b, (c, d))) => mkDonateSupplyEvent a b c d)
    (fun x => (ds_market x, (ds_donor x, (ds_mint x, ds_amount x))))
    (c_pair borsh_pubkey (c_pair borsh_pubkey (c_pair borsh_pubkey borsh_u64))).

Definition c_sweep_started_event : Codec CapitalSweepStartedEvent :=
  c_map (fun '(a, (b, (c, (d, (e, f))))) => mkCapitalSweepStartedEvent a b c d e f)
    (fun x => (cs_market x, (cs_curator x, (cs_position x, (cs_collateral_mint x,
       (cs_health_before_sweep x, cs_collateral_swept x))))))
    (c_pair borsh_pubkey (c_pair borsh_pubkey (c_pair borsh_pubkey (c_pair borsh_pubkey
       (c_pair c_health borsh_u64))))).

Definition c_sweep_settled_event : Codec CapitalSweepSettledEvent :=
  c_map (fun '(a, (b, (c, (d, (e, (f, (g, (h, (i, (j, k)))))))))) =>
           mkCapitalSweepSettledEvent a b c d e f g h i j k)
    (fun x => (ss_market x, (ss_curator x, (ss_position x, (ss_supply_mint x,
       (ss_collateral_mint x, (ss_health_before_settlement x, (ss_health_after_settlement x,
          (ss_supply_repaid x, (ss_collateral_liquidated x, (ss_curator_bonus x,
             ss_collateral_returned x)))))))))))
    (c_pair borsh_pubkey (c_pair borsh_pubkey (c_pair borsh_pubkey (c_pair borsh_pubkey
       (c_pair borsh_pubkey (c_pair c_health (c_pair c_health (c_pair borsh_u64
          (c_pair borsh_u64 (c_pair borsh_u64 borsh_u64)))))))))).

Definition c_whitelist_event : Codec LiquidatorWhitelistUpdatedEvent :=
  c_map (fun '(a, (b, (c, d))) => mkLiquidatorWhitelistUpdatedEvent a b c d)
    (fun x => (wl_market x, (wl_curator x, (wl_liquidator x,
       wl_active_whitelisted_liquidators x))))
    (c_pair borsh_pubkey (c_pair borsh_pubkey (c_pair borsh_pubkey borsh_u64))).

(** [impl BorshSerialize for AutaraEvent] *)
Definition serialize_event (self : AutaraEvent) : list Z :=
  match self with
  | Event.Liquidate event =>
    encode c_event_tag EventTag.Liquidate ++ encode c_liquidate_event event
  | Event.Supply event => encode c_event_tag EventTag.Supply ++ encode c_single_event event
  | Event.Withdraw event => encode c_event_tag EventTag.Withdraw ++ encode c_single_event event
  | Event.DepositCollateral event =>
    encode c_event_tag EventTag.DepositCollateral ++ encode c_single_event event
  | Event.WithdrawCollateral event =>
    encode c_event_tag EventTag.WithdrawCollateral ++ encode c_single_event event
  | Event.Borrow event => encode c_event_tag EventTag.Borrow ++ encode c_single_event event
  | Event.Repay event => encode c_event_tag EventTag.Repay ++ encode c_single_event event
  | Event.ReedeemProtocolFees event =>
    encode c_event_tag EventTag.RedeemProtocolFees ++ encode c_fee_event event
  | Event.ReedeemCuratorFees event =>
    encode c_event_tag EventTag.RedeemCuratorFees ++ encode c_fee_event event
  | Event.BorrowAndDeposit event =>
    encode c_event_tag EventTag.DepositAndBorrow ++ encode c_double_event event
  | Event.WithdrawAndRepay event =>
    encode c_event_tag EventTag.WithdrawAndRepay ++ encode c_double_event event
  | Event.SocializeLoss event =>
    encode c_event_tag EventTag.SocializeLoss ++ encode c_loss_event event
  | Event.DonateSupply event =>
    encode c_event_tag EventTag.Donation ++ encode c_donate_event event
  | Event.CapitalSweepStarted event =>
    encode c_event_tag EventTag.CapitalSweepStarted ++ encode c_sweep_started_event event
  | Event.CapitalSweepSettled event =>
    encode c_event_tag EventTag.CapitalSweepSettled ++ encode c_sweep_settled_event event
  | Event.LiquidatorWhitelistEntryAdded event =>
    encode c_event_tag EventTag.LiquidatorWhitelistEntryAdded ++ encode c_whitelist_event event
  | Event.LiquidatorWhitelistEntryRemoved event =>
    encode c_event_tag EventTag.LiquidatorWhitelistEntryRemoved
      ++ encode c_whitelist_event event
  end.

(** [impl BorshDeserialize for AutaraEvent] *)
Definition deserialize_event (l : list Z) : option (AutaraEvent * list Z) :=
  let* (tag, l) := decode c_event_tag l in
  match tag with
  | EventTag.Liquidate => payload c_liquidate_event Event.Liquidate l
  | EventTag.Supply => payload c_single_event Event.Supply l
  | EventTag.Withdraw => payload c_single_event Event.Withdraw l
  | EventTag.DepositCollateral => payload c_single_event Event.DepositCollateral l
  | EventTag.WithdrawCollateral => payload c_single_event Event.WithdrawCollateral l
  | EventTag.Borrow => payload c_single_event Event.Borrow l
  | EventTag.Repay => payload c_single_event Event.Repay l
  | EventTag.RedeemProtocolFees => payload c_fee_event Event.ReedeemProtocolFees l
  | EventTag.RedeemCuratorFees => payload c_fee_event Event.ReedeemCuratorFees l
  | EventTag.DepositAndBorrow => payload c_double_event Event.BorrowAndDeposit l
  | EventTag.WithdrawAndRepay => payload c_double_event Event.WithdrawAndRepay l
  | EventTag.SocializeLoss => payload c_loss_event Event.SocializeLoss l
  | EventTag.Donation => payload c_donate_event Event.DonateSupply l
  | EventTag.CapitalSweepStarted => payload c_sweep_started_event Event.CapitalSweepStarted l
  | EventTag.CapitalSweepSettled => payload c_sweep_settled_event Event.CapitalSweepSettled l
  | EventTag.LiquidatorWhitelistEntryAdded =>
    payload c_whitelist_event Event.LiquidatorWhitelistEntryAdded l
  | EventTag.LiquidatorWhitelistEntryRemoved =>
    payload c_whitelist_event Event.LiquidatorWhitelistEntryRemoved l
  end.

(** [AutaraEvent::from_bytes]: bytes behind the event are ignored. *)
Definition from_bytes (bytes : list Z) : option AutaraEvent :=
  let* (tag, cursor) := decode c_tag bytes in
  if bool_decide (tag <> Tag.Log) then None
  else let* (event, _) := deserialize_event cursor in Some event.

(** [log_ix] of [ixs/log.rs] *)
Definition log_instruction (autara_program_id market : Pubkey) (event : AutaraEvent)
  : Instruction :=
  mkInstruction autara_program_id [(market, true, false)]
    (serialize Ix.Log ++ serialize_event event).

(** What a client is told of a transaction: the instructions that each of its instructions
    called, with the index of the program in the table of the keys, which is read with
    [get_account_key] of the message. *)
Record InnerInstruction : Type := mkInner {
  in_program_id_index : Z;
  in_data : list Z }.
Record ProcessedTransaction : Type := mkProcessed {
  inner_instructions_list : list (list InnerInstruction);
  get_account_key : Z -> option Pubkey }.

Definition get_ix_data_with_program_ids (tx : ProcessedTransaction) : list (Pubkey * list Z) :=
  omap (fun ix => let* k := get_account_key tx (in_program_id_index ix) in
                  Some (k, in_data ix))
    (concat (inner_instructions_list tx)).

(** [AutaraEvents::from_processed_tx] *)
Definition from_processed_tx (tx : ProcessedTransaction) (validate_program_id : Pubkey -> bool)
  : list AutaraEvent :=
  omap (fun ix => if validate_program_id (fst ix) then from_bytes (snd ix) else None)
    (get_ix_data_with_program_ids tx).

End Codecs.
