(* ===== verification/IxBuilders.v ===== *)
(** * Instructions that clients build

    The builders of [autara-lib/src/ixs] and [autara-lib/src/token.rs]: the accounts that an
    instruction names, with the rights it asks for, and its bytes.  Writing into a [Vec]
    cannot fail, so [serialize(..).unwrap()] is the bytes. *)
From S2P Require Import Prelude.
From S2P Require Import Errors.
From S2P Require Import Monad.
From S2P Require Import FixedPoint.
From S2P Require Import Bytes.
From S2P Require Import Pda.
From S2P Require Import InterestRateCurve.
From S2P Require Import Oracle.
From S2P Require Import MarketConfig.
From S2P Require Import SupplyVault.
From S2P Require Import CollateralVault.
From S2P Require Import Market.
From S2P Require Import ProgramErrors.
From S2P Require Import Accounts.
From S2P Require Import Events.
From S2P Require Import Processor.
From S2P Require Import ProcessorAdmin.
From S2P Require Import Program.
From S2P Require Import Borsh.
From S2P Require Import InstructionCodec.

(** [AccountMeta::new] and [AccountMeta::new_readonly]: key, signer, writable. *)
Definition meta (k : Pubkey) (is_signer : bool) : Pubkey * bool * bool := (k, is_signer, true).
Definition meta_ro (k : Pubkey) (is_signer : bool) : Pubkey * bool * bool := (k, is_signer, false).

(** The key of the feed of a stored provider: [oracle_feed_pubkey().unwrap()]. *)
Definition feed_pubkey {PC : PdaCrate} {E} (p : PodOracleProvider) : Result E Pubkey :=
  or_panic (oracle_feed_pubkey (oracle_provider p)).

(** [Market::get_oracle_keys] *)
Definition get_oracle_keys {PC : PdaCrate} {E} (self : Market) : Result E (Pubkey * Pubkey) :=
  let? supply := feed_pubkey (config_provider (SupplyVault.oracle_config (supply_vault self))) in
  let? collateral :=
    feed_pubkey (config_provider (CollateralVault.oracle_config (collateral_vault self))) in
  Ok (supply, collateral).

Module Ixs.
Section Ops.
Context {PC : PdaCrate} {CH : Chain} {BO : BorshCrate}.

(** ** [supply.rs] *)

Definition create_supply_position_ix (autara_program_id market authority payer : Pubkey) :
  Pubkey * Instruction :=
  let '(supply_position, bump) :=
    find_program_address (supply_position_seed market authority) autara_program_id in
  (supply_position, mkInstruction autara_program_id
    [ meta market false;
      meta supply_position false;
      meta_ro authority true;
      meta payer true;
      meta_ro SYSTEM_PROGRAM_ID false;
      meta_ro autara_program_id false ]
    (serialize (Ix.CreateSupplyPosition bump))).

Definition supply_apl_ix (autara_program_id market supply_position authority
  authority_supply_ata supply_vault supply_oracle collateral_oracle : Pubkey) (amount : Z) :
  Instruction :=
  mkInstruction autara_program_id
    [ meta market false;
      meta supply_position false;
      meta_ro authority true;
      meta authority_supply_ata false;
      meta supply_vault false;
      meta_ro apl_token_id false;
      meta_ro supply_oracle false;
      meta_ro collateral_oracle false;
      meta_ro autara_program_id false ]
    (serialize (Ix.SupplyApl amount)).

Definition withdraw_supply_ix (autara_program_id market supply_position authority
  authority_supply_ata market_supply_vault supply_oracle collateral_oracle : Pubkey) (amount :
  Z) (withdraw_all : bool) : Instruction :=
  mkInstruction autara_program_id
    [ meta market false;
      meta supply_position false;
      meta_ro authority true;
      meta authority_supply_ata false;
      meta market_supply_vault false;
      meta_ro apl_token_id false;
      meta_ro supply_oracle false;
      meta_ro collateral_oracle false;
      meta_ro autara_program_id false ]
    (serialize (Ix.WithdrawSupply (mkWithdrawSupply amount withdraw_all))).

Definition donate_supply_ix (autara_program_id market authority authority_supply_ata
  supply_vault : Pubkey) (amount : Z) : Instruction :=
  mkInstruction autara_program_id
    [ meta market false;
      meta_ro authority true;
      meta authority_supply_ata false;
      meta supply_vault false;
      meta_ro apl_token_id false;
      meta_ro autara_program_id false ]
    (serialize (Ix.DonateSupply amount)).

(** ** [borrow.rs] *)

Definition create_borrow_position_ix (autara_program_id market authority payer : Pubkey) :
  Pubkey * Instruction :=
  let '(borrow_position, bump) :=
    find_program_address (borrow_position_seed market authority) autara_program_id in
  (borrow_position, mkInstruction autara_program_id
    [ meta market false;
      meta borrow_position false;
      meta_ro authority true;
      meta payer true;
      meta_ro SYSTEM_PROGRAM_ID false;
      meta_ro autara_program_id false ]
    (serialize (Ix.CreateBorrowPosition bump))).

Definition borrow_apl_ix (autara_program_id market authority borrow_position
  authority_supply_ata market_supply_vault supply_oracle collateral_oracle : Pubkey) (amount :
  Z) : Instruction :=
  mkInstruction autara_program_id
    [ meta market false;
      meta borrow_position false;
      meta_ro authority true;
      meta authority_supply_ata false;
      meta market_supply_vault false;
      meta_ro apl_token_id false;
      meta_ro supply_oracle false;
      meta_ro collateral_oracle false;
      meta_ro autara_program_id false ]
    (serialize (Ix.BorrowApl amount)).

Definition deposit_apl_collateral_ix (autara_program_id market authority borrow_position
  authority_collateral_ata market_collateral_vault supply_oracle collateral_oracle : Pubkey)
  (amount : Z) : Instruction :=
  mkInstruction autara_program_id
    [ meta market false;
      meta borrow_position false;
      meta_ro authority true;
      meta authority_collateral_ata false;
      meta market_collateral_vault false;
      meta_ro apl_token_id false;
      meta_ro supply_oracle false;
      meta_ro collateral_oracle false;
      meta_ro autara_program_id false ]
    (serialize (Ix.DepositAplCollateral amount)).

Definition withdraw_apl_collateral_ix (autara_program_id market authority borrow_position
  authority_collateral_ata market_collateral_vault supply_oracle collateral_oracle : Pubkey)
  (amount : Z) (withdraw_all : bool) : Instruction :=
  mkInstruction autara_program_id
    [ meta market false;
      meta borrow_position false;
      meta_ro authority true;
      meta authority_collateral_ata false;
      meta market_collateral_vault false;
      meta_ro apl_token_id false;
      meta_ro supply_oracle false;
      meta_ro collateral_oracle false;
      meta_ro autara_program_id false ]
    (serialize (Ix.WithdrawAplCollateral (mkWithdrawAplCollateral amount withdraw_all))).

Definition repay_apl_ix (autara_program_id market borrow_position authority authority_supply_ata
  market_supply_vault supply_oracle collateral_oracle : Pubkey) (amount : Z) (repay_all : bool)
  : Instruction :=
  mkInstruction autara_program_id
    [ meta market false;
      meta borrow_position false;
      meta_ro authority true;
      meta authority_supply_ata false;
      meta market_supply_vault false;
      meta_ro apl_token_id false;
      meta_ro supply_oracle false;
      meta_ro collateral_oracle false;
      meta_ro autara_program_id false ]
    (serialize (Ix.RepayApl (mkRepayApl amount repay_all))).

(** [accounts.extend(ix_callback.accounts)] *)
Definition callback_accounts (ix_callback : option Instruction) : list (Pubkey * bool * bool) :=
  match ix_callback with Some cb => ix_accounts cb | None => [] end.

Definition withdraw_repay_apl_ix (autara_program_id market authority borrow_position
  authority_supply_ata market_supply_vault authority_collateral_ata market_collateral_vault
  supply_oracle collateral_oracle : Pubkey) (ix : WithdrawRepayAplInstruction) : Instruction :=
  mkInstruction autara_program_id
    ([ meta market false;
      meta borrow_position false;
      meta_ro authority true;
      meta authority_supply_ata false;
      meta market_supply_vault false;
      meta authority_collateral_ata false;
      meta market_collateral_vault false;
      meta_ro apl_token_id false;
      meta_ro supply_oracle false;
      meta_ro collateral_oracle false;
      meta_ro autara_program_id false ] ++ callback_accounts (wr_ix_callback ix))
    (serialize (Ix.WithdrawRepayApl ix)).

Definition borrow_deposit_apl_ix (autara_program_id market authority borrow_position
  authority_supply_ata market_supply_vault authority_collateral_ata market_collateral_vault
  supply_oracle collateral_oracle : Pubkey) (ix : BorrowDepositAplInstruction) : Instruction :=
  mkInstruction autara_program_id
    ([ meta market false;
      meta borrow_position false;
      meta_ro authority true;
      meta authority_supply_ata false;
      meta market_supply_vault false;
      meta authority_collateral_ata false;
      meta market_collateral_vault false;
      meta_ro apl_token_id false;
      meta_ro supply_oracle false;
      meta_ro collateral_oracle false;
      meta_ro autara_program_id false ] ++ callback_accounts (bd_ix_callback ix))
    (serialize (Ix.BorrowDepositApl ix)).

(** ** [market.rs] *)

(** [create_market.market_bump = market_bump] *)
Definition set_market_bump (market_bump : Z) (d : CreateMarketInstruction)
  : CreateMarketInstruction :=
  mkCreateMarketIx market_bump (ci_index d) (ci_ltv_config d) (ci_max_utilisation_rate d)
    (ci_supply_oracle_config d) (ci_collateral_oracle_config d) (ci_interest_rate d)
    (ci_lending_market_fee_in_bps d).

Definition create_market_ix (create_market : CreateMarketInstruction) (supply_mint
  collateral_mint autara_program_id curator payer : Pubkey) : Pubkey * Instruction :=
  let '(market_pda, market_bump) :=
    find_market_pda autara_program_id curator supply_mint collateral_mint
      (ci_index create_market) in
  let create_market := set_market_bump market_bump create_market in
  (market_pda, mkInstruction autara_program_id
    [ meta_ro curator true;
      meta payer true;
      meta_ro (fst (find_global_config_pda autara_program_id)) false;
      meta market_pda false;
      meta_ro supply_mint false;
      meta (get_associated_token_address market_pda supply_mint) false;
      meta_ro collateral_mint false;
      meta (get_associated_token_address market_pda collateral_mint) false;
      meta_ro apl_token_id false;
      meta_ro apl_ata_id false;
      meta_ro SYSTEM_PROGRAM_ID false;
      meta_ro autara_program_id false ]
    (serialize (Ix.CreateMarket create_market))).

Definition updated_oracle {E} (config : option OracleConfig) (key : Pubkey) : Result E Pubkey :=
  match config with Some oracle => feed_pubkey (config_provider oracle) | None => Ok key end.

Definition update_config_ix {E} (autara_program_id market curator : Pubkey)
  (config : UpdateConfigInstruction) (supply_oracle_key collateral_oracle_key : Pubkey)
  : Result E Instruction :=
  let? supply_oracle := updated_oracle (uc_supply_oracle_config config) supply_oracle_key in
  let? collateral_oracle :=
    updated_oracle (uc_collateral_oracle_config config) collateral_oracle_key in
  Ok (mkInstruction autara_program_id
    [ meta market false;
      meta_ro (fst (find_global_config_pda autara_program_id)) false;
      meta_ro curator true;
      meta_ro supply_oracle false;
      meta_ro collateral_oracle false;
      meta_ro autara_program_id false ]
    (serialize (Ix.UpdateConfig config))).

Definition reedeem_curator_fees_ix (autara_program_id market curator curator_supply_ata
  market_supply_vault : Pubkey) : Instruction :=
  mkInstruction autara_program_id
    [ meta_ro curator true;
      meta market false;
      meta curator_supply_ata false;
      meta market_supply_vault false;
      meta_ro apl_token_id false;
      meta_ro autara_program_id false ]
    (serialize (Ix.ReedeemCuratorFees)).

(** ** [liquidation.rs] *)

Definition liquidate_ix (autara_program_id market borrow_position liquidator
  liquidator_supply_ata liquidator_collateral_ata market_supply_vault market_collateral_vault
  supply_oracle collateral_oracle : Pubkey) (max_borrowed_atoms_to_repay
  min_collateral_atoms_to_receive : Z) (liquidator_whitelist_entry : option Pubkey) (ix_callback
  : option Instruction) : Instruction :=
  mkInstruction autara_program_id
    ([ meta market false;
      meta borrow_position false;
      meta_ro liquidator true;
      meta liquidator_supply_ata false;
      meta liquidator_collateral_ata false;
      meta market_supply_vault false;
      meta market_collateral_vault false;
      meta_ro apl_token_id false;
      meta_ro supply_oracle false;
      meta_ro collateral_oracle false ]
     ++ match liquidator_whitelist_entry with
        | Some entry => [meta_ro entry false]
        | None => []
        end
     ++ [meta_ro autara_program_id false]
     ++ match ix_callback with
        | Some cb => meta_ro (ix_program_id cb) false :: ix_accounts cb
        | None => []
        end)
    (serialize (Ix.Liquidate (mkLiquidate max_borrowed_atoms_to_repay
                                min_collateral_atoms_to_receive ix_callback))).

Definition socialize_loss_ix (autara_program_id market borrow_position curator
  receiver_collateral_ata market_collateral_vault supply_oracle collateral_oracle : Pubkey) :
  Instruction :=
  mkInstruction autara_program_id
    [ meta market false;
      meta borrow_position false;
      meta_ro curator true;
      meta receiver_collateral_ata false;
      meta market_collateral_vault false;
      meta_ro apl_token_id false;
      meta_ro supply_oracle false;
      meta_ro collateral_oracle false;
      meta_ro autara_program_id false ]
    (serialize (Ix.SocializeLoss)).

Definition begin_capital_sweep_ix (autara_program_id market borrow_position curator
  curator_collateral_ata market_collateral_vault supply_oracle collateral_oracle : Pubkey) :
  Instruction :=
  mkInstruction autara_program_id
    [ meta market false;
      meta borrow_position false;
      meta_ro curator true;
      meta curator_collateral_ata false;
      meta market_collateral_vault false;
      meta_ro apl_token_id false;
      meta_ro supply_oracle false;
      meta_ro collateral_oracle false;
      meta_ro autara_program_id false ]
    (serialize (Ix.BeginCapitalSweep)).

Definition settle_capital_sweep_ix (autara_program_id market borrow_position curator
  curator_supply_ata curator_collateral_ata market_supply_vault market_collateral_vault
  supply_oracle collateral_oracle : Pubkey) (max_borrowed_atoms_to_repay
  max_collateral_atoms_to_return : Z) : Instruction :=
  mkInstruction autara_program_id
    [ meta market false;
      meta borrow_position false;
      meta_ro curator true;
      meta curator_supply_ata false;
      meta curator_collateral_ata false;
      meta market_supply_vault false;
      meta market_collateral_vault false;
      meta_ro apl_token_id false;
      meta_ro supply_oracle false;
      meta_ro collateral_oracle false;
      meta_ro autara_program_id false ]
    (serialize (Ix.SettleCapitalSweep (mkSettleCapitalSweep max_borrowed_atoms_to_repay
                                         max_collateral_atoms_to_return))).

(** ** [admin.rs] *)

Definition create_global_config_ix (autara_program_id payer admin fee_receiver : Pubkey)
  (protocol_fee_share_in_bps : Z) : Pubkey * Instruction :=
  let '(global_config_pda, bump) := find_global_config_pda autara_program_id in
  (global_config_pda, mkInstruction autara_program_id
    [ meta payer true;
      meta global_config_pda false;
      meta_ro SYSTEM_PROGRAM_ID false;
      meta_ro autara_program_id false ]
    (serialize (Ix.CreateGlobalConfig
      (mkCreateGlobalConfigIx bump admin fee_receiver protocol_fee_share_in_bps)))).

Definition update_global_config_ix (autara_program_id admin : Pubkey) (update :
  UpdateGlobalConfigInstruction) : Instruction :=
  let '(global_config_pda, _) := find_global_config_pda autara_program_id in
  mkInstruction autara_program_id
    [ meta admin true;
      meta global_config_pda false;
      meta_ro autara_program_id false ]
    (serialize (Ix.UpdateGlobalConfig update)).

Definition reedeem_protocol_fees_ix (autara_program_id market admin protocol_fee_receiver
  market_vault : Pubkey) : Instruction :=
  let '(global_config_pda, _) := find_global_config_pda autara_program_id in
  mkInstruction autara_program_id
    [ meta admin true;
      meta_ro global_config_pda false;
      meta market false;
      meta protocol_fee_receiver false;
      meta market_vault false;
      meta_ro apl_token_id false;
      meta_ro autara_program_id false ]
    (serialize (Ix.ReedeemProtocolFees)).

(** ** [liquidator_whitelist.rs] *)

Definition add_whitelisted_liquidator_ix (autara_program_id market curator liquidator : Pubkey)
  : Pubkey * Instruction :=
  let '(entry, bump) :=
    find_liquidator_whitelist_entry_pda autara_program_id market liquidator in
  (entry, mkInstruction autara_program_id
    [ meta market false;
      meta curator true;
      meta entry false;
      meta_ro SYSTEM_PROGRAM_ID false;
      meta_ro autara_program_id false ]
    (serialize (Ix.AddWhitelistedLiquidator (mkAddWhitelistedLiquidatorIx liquidator bump)))).

Definition remove_whitelisted_liquidator_ix (autara_program_id market curator liquidator :
  Pubkey) : Pubkey * Instruction :=
  let '(entry, _) :=
    find_liquidator_whitelist_entry_pda autara_program_id market liquidator in
  (entry, mkInstruction autara_program_id
    [ meta market false;
      meta_ro curator true;
      meta entry false;
      meta_ro autara_program_id false ]
    (serialize (Ix.RemoveWhitelistedLiquidator liquidator))).

(** ** [token.rs] *)

Definition create_ata_ix (funder_info : Pubkey) (associated_token_account_info : option Pubkey)
  (owner_account_info spl_token_mint_info : Pubkey) : Instruction :=
  let associated_token_account_info :=
    match associated_token_account_info with
    | Some info => info
    | None => get_associated_token_address owner_account_info spl_token_mint_info
    end in
  mkInstruction apl_ata_id
    [ meta funder_info true;
      meta associated_token_account_info false;
      meta_ro owner_account_info false;
      meta_ro spl_token_mint_info false;
      meta_ro SYSTEM_PROGRAM_ID false;
      meta_ro apl_token_id false ]
    [1].

End Ops.
End Ixs.
