(* ===== verification/TxBuilder.v ===== *)
(** * Transactions that the client builds

    [AutaraTransactionBuilder] of [autara-client/src/client/tx_builder.rs]: from what the
    client has read of a market, the instructions of a transaction.  The block hash, the
    message and its signatures are the job of [arch_sdk]; here a transaction is the list of
    its instructions ([TransactionToSign::instructions]). *)
From S2P Require Import Prelude.
From S2P Require Import Errors.
From S2P Require Import Monad.
From S2P Require Import FixedPoint.
From S2P Require Import Bytes.
From S2P Require Import Pda.
From S2P Require Import Oracle.
From S2P Require Import MarketConfig.
From S2P Require Import SupplyPosition.
From S2P Require Import BorrowPosition.
From S2P Require Import SupplyVault.
From S2P Require Import CollateralVault.
From S2P Require Import Market.
From S2P Require Import ProgramErrors.
From S2P Require Import Accounts.
From S2P Require Import Events.
From S2P Require Import Processor.
From S2P Require Import ProcessorAdmin.
From S2P Require Import Program.
From S2P Require Import Borsh.
From S2P Require Import InstructionCodec.
From S2P Require Import IxBuilders.

(** [AutaraReadClient], as far as the builder asks it ([client/read.rs]). *)
Class AutaraReadClient : Type := {
  get_market : Pubkey -> option Market;
  get_supply_position : Pubkey -> Pubkey -> Pubkey * option SupplyPosition;
  get_borrow_position : Pubkey -> Pubkey -> Pubkey * option BorrowPosition }.

(** [.context("market not found")] *)
Inductive ClientError : Type := MarketNotFound.

Definition ClientRes : Type -> Type := Result ClientError.
Definition Transaction : Type := list Instruction.

Module Tx.
Section Ops.
Context {PC : PdaCrate} {CH : Chain} {BO : BorshCrate} {RC : AutaraReadClient}.
Variable autara_program_id : Pubkey.
Variable authority_key : Pubkey.

Definition ensure_ata_ix (owner mint : Pubkey) : Instruction :=
  let ata := get_associated_token_address owner mint in
  Ixs.create_ata_ix owner (Some ata) owner mint.

Definition find_market (market_key : Pubkey) : ClientRes Market :=
  ok_or MarketNotFound (get_market market_key).

(** [token_info().get_associated_token_address(&self.authority_key)] *)
Definition token_address (token : TokenInfo) : Pubkey :=
  get_associated_token_address authority_key (ti_mint token).

Definition create_market (curator payer : Pubkey) (create_market : CreateMarketInstruction)
  (supply_mint collateral_mint : Pubkey) : ClientRes (Pubkey * Transaction) :=
  let '(market, ix) := Ixs.create_market_ix create_market supply_mint collateral_mint
                         autara_program_id curator payer in
  Ok (market, [ix]).

Definition create_global_config (payer admin fee_receiver : Pubkey)
  (protocol_fee_share_in_bps : Z) : ClientRes (Pubkey * Transaction) :=
  let '(global_config_pda, ix) := Ixs.create_global_config_ix autara_program_id payer admin
                                    fee_receiver protocol_fee_share_in_bps in
  Ok (global_config_pda, [ix]).

Definition supply (market_key : Pubkey) (atoms : Z) : ClientRes Transaction :=
  let? market := find_market market_key in
  let '(supply_pda, supply_position) := get_supply_position market_key authority_key in
  let? (supply_oracle_id, collateral_oracle_id) := get_oracle_keys market in
  Ok ([ensure_ata_ix authority_key (ti_mint (supply_token_info market))]
      ++ match supply_position with
         | None => [snd (Ixs.create_supply_position_ix autara_program_id market_key authority_key
                           authority_key)]
         | Some _ => []
         end
      ++ [Ixs.supply_apl_ix autara_program_id market_key supply_pda authority_key
            (token_address (supply_token_info market))
            (SupplyVault.vault (supply_vault market))
            supply_oracle_id collateral_oracle_id atoms]).

Definition deposit_collateral (market_key : Pubkey) (atoms : Z) : ClientRes Transaction :=
  let? market := find_market market_key in
  let '(borrow_pda, borrow_position) := get_borrow_position market_key authority_key in
  let? (supply_oracle_id, collateral_oracle_id) := get_oracle_keys market in
  Ok ([ensure_ata_ix authority_key (ti_mint (collateral_token_info market))]
      ++ match borrow_position with
         | None => [snd (Ixs.create_borrow_position_ix autara_program_id market_key authority_key
                           authority_key)]
         | Some _ => []
         end
      ++ [Ixs.deposit_apl_collateral_ix autara_program_id market_key authority_key borrow_pda
            (token_address (collateral_token_info market))
            (CollateralVault.vault (collateral_vault market))
            supply_oracle_id collateral_oracle_id atoms]).

Definition borrow (market_key : Pubkey) (atoms : Z) : ClientRes Transaction :=
  let? market := find_market market_key in
  let '(borrow_pda, _) := get_borrow_position market_key authority_key in
  let? (supply_oracle_id, collateral_oracle_id) := get_oracle_keys market in
  Ok [ensure_ata_ix authority_key (ti_mint (supply_token_info market));
      Ixs.borrow_apl_ix autara_program_id market_key authority_key borrow_pda
        (token_address (supply_token_info market))
        (SupplyVault.vault (supply_vault market))
        supply_oracle_id collateral_oracle_id atoms].

Definition repay (market_key : Pubkey) (atoms : option Z) : ClientRes Transaction :=
  let? market := find_market market_key in
  let '(borrow_pda, _) := get_borrow_position market_key authority_key in
  let? (supply_oracle_id, collateral_oracle_id) := get_oracle_keys market in
  Ok [ensure_ata_ix authority_key (ti_mint (supply_token_info market));
      Ixs.repay_apl_ix autara_program_id market_key borrow_pda authority_key
        (token_address (supply_token_info market))
        (SupplyVault.vault (supply_vault market))
        supply_oracle_id collateral_oracle_id (default 0 atoms) (negb (bool_decide (is_Some atoms)))].

Definition withdraw_supply (market_key : Pubkey) (atoms : option Z) : ClientRes Transaction :=
  let? market := find_market market_key in
  let '(supply_pda, _) := get_supply_position market_key authority_key in
  let? (supply_oracle_id, collateral_oracle_id) := get_oracle_keys market in
  Ok [ensure_ata_ix authority_key (ti_mint (supply_token_info market));
      Ixs.withdraw_supply_ix autara_program_id market_key supply_pda authority_key
        (token_address (supply_token_info market))
        (SupplyVault.vault (supply_vault market))
        supply_oracle_id collateral_oracle_id (default 0 atoms) (negb (bool_decide (is_Some atoms)))].

Definition withdraw_collateral (market_key : Pubkey) (atoms : option Z) : ClientRes Transaction :=
  let? market := find_market market_key in
  let '(borrow_pda, _) := get_borrow_position market_key authority_key in
  let? (supply_oracle_id, collateral_oracle_id) := get_oracle_keys market in
  Ok [ensure_ata_ix authority_key (ti_mint (collateral_token_info market));
      Ixs.withdraw_apl_collateral_ix autara_program_id market_key authority_key borrow_pda
        (token_address (collateral_token_info market))
        (CollateralVault.vault (collateral_vault market))
        supply_oracle_id collateral_oracle_id (default 0 atoms) (negb (bool_decide (is_Some atoms)))].

Definition update_config (market_key : Pubkey) (config : UpdateConfigInstruction)
  : ClientRes Transaction :=
  let? market := find_market market_key in
  let? (supply_oracle_id, collateral_oracle_id) := get_oracle_keys market in
  let? update_ix := Ixs.update_config_ix autara_program_id market_key authority_key config
                      supply_oracle_id collateral_oracle_id in
  Ok [update_ix].

Definition add_whitelisted_liquidator (market_key liquidator : Pubkey)
  : ClientRes (Pubkey * Transaction) :=
  let '(entry, instruction) := Ixs.add_whitelisted_liquidator_ix autara_program_id market_key
                                 authority_key liquidator in
  Ok (entry, [instruction]).

Definition remove_whitelisted_liquidator (market_key liquidator : Pubkey)
  : ClientRes (Pubkey * Transaction) :=
  let '(entry, instruction) := Ixs.remove_whitelisted_liquidator_ix autara_program_id market_key
                                 authority_key liquidator in
  Ok (entry, [instruction]).

Definition liquidate (market_key borrow_position_key : Pubkey)
  (max_borrowed_atoms_to_repay min_collateral_atoms_to_receive : option Z)
  (ix_callback : option Instruction) : ClientRes Transaction :=
  let? market := find_market market_key in
  let? (supply_oracle_id, collateral_oracle_id) := get_oracle_keys market in
  let liquidator_whitelist_entry :=
    if negb (liquidations_are_permissionless (config market))
    then Some (fst (find_liquidator_whitelist_entry_pda autara_program_id market_key
                      authority_key))
    else None in
  Ok [ensure_ata_ix authority_key (SupplyVault.mint (supply_vault market));
      ensure_ata_ix authority_key (CollateralVault.mint (collateral_vault market));
      Ixs.liquidate_ix autara_program_id market_key borrow_position_key authority_key
        (token_address (supply_token_info market))
        (token_address (collateral_token_info market))
        (SupplyVault.vault (supply_vault market))
        (CollateralVault.vault (collateral_vault market))
        supply_oracle_id collateral_oracle_id
        (default U64_MAX max_borrowed_atoms_to_repay)
        (default 0 min_collateral_atoms_to_receive)
        liquidator_whitelist_entry ix_callback].

Definition begin_capital_sweep (market_key borrow_position_key : Pubkey)
  : ClientRes Transaction :=
  let? market := find_market market_key in
  let? (supply_oracle, collateral_oracle) := get_oracle_keys market in
  Ok [ensure_ata_ix authority_key (CollateralVault.mint (collateral_vault market));
      Ixs.begin_capital_sweep_ix autara_program_id market_key borrow_position_key authority_key
        (token_address (collateral_token_info market))
        (CollateralVault.vault (collateral_vault market))
        supply_oracle collateral_oracle].

Definition settle_capital_sweep (market_key borrow_position_key : Pubkey)
  (max_borrowed_atoms_to_repay max_collateral_atoms_to_return : option Z)
  : ClientRes Transaction :=
  let? market := find_market market_key in
  let? (supply_oracle, collateral_oracle) := get_oracle_keys market in
  Ok [ensure_ata_ix authority_key (SupplyVault.mint (supply_vault market));
      ensure_ata_ix authority_key (CollateralVault.mint (collateral_vault market));
      Ixs.settle_capital_sweep_ix autara_program_id market_key borrow_position_key authority_key
        (token_address (supply_token_info market))
        (token_address (collateral_token_info market))
        (SupplyVault.vault (supply_vault market))
        (CollateralVault.vault (collateral_vault market))
        supply_oracle collateral_oracle
        (default U64_MAX max_borrowed_atoms_to_repay)
        (default U64_MAX max_collateral_atoms_to_return)].

Definition redeem_curator_fees (market_key : Pubkey) : ClientRes Transaction :=
  let? market := find_market market_key in
  Ok [ensure_ata_ix authority_key (SupplyVault.mint (supply_vault market));
      Ixs.reedeem_curator_fees_ix autara_program_id market_key authority_key
        (token_address (supply_token_info market))
        (SupplyVault.vault (supply_vault market))].

Definition redeem_protocol_fees (market_key : Pubkey) : ClientRes Transaction :=
  let? market := find_market market_key in
  let fee_receiver := authority_key in
  Ok [ensure_ata_ix fee_receiver (ti_mint (supply_token_info market));
      Ixs.reedeem_protocol_fees_ix autara_program_id market_key fee_receiver
        (get_associated_token_address fee_receiver (ti_mint (supply_token_info market)))
        (SupplyVault.vault (supply_vault market))].

Definition update_global_config (update : UpdateGlobalConfigInstruction)
  : ClientRes Transaction :=
  Ok [Ixs.update_global_config_ix autara_program_id authority_key update].

(** Only the token account of the supply is created on the way. *)
Definition borrow_deposit (market_key : Pubkey) (ix : BorrowDepositAplInstruction)
  : ClientRes Transaction :=
  let? market := find_market market_key in
  let '(borrow_pda, borrow_position) := get_borrow_position market_key authority_key in
  let? (supply_oracle_id, collateral_oracle_id) := get_oracle_keys market in
  Ok (match borrow_position with
      | None => [snd (Ixs.create_borrow_position_ix autara_program_id market_key authority_key
                        authority_key)]
      | Some _ => []
      end
      ++ [ensure_ata_ix authority_key (SupplyVault.mint (supply_vault market));
          Ixs.borrow_deposit_apl_ix autara_program_id market_key authority_key borrow_pda
            (token_address (supply_token_info market))
            (SupplyVault.vault (supply_vault market))
            (token_address (collateral_token_info market))
            (CollateralVault.vault (collateral_vault market))
            supply_oracle_id collateral_oracle_id ix]).

Definition withdraw_repay (market_key : Pubkey) (ix : WithdrawRepayAplInstruction)
  : ClientRes Transaction :=
  let? market := find_market market_key in
  let '(borrow_pda, _) := get_borrow_position market_key authority_key in
  let? (supply_oracle_id, collateral_oracle_id) := get_oracle_keys market in
  Ok [ensure_ata_ix authority_key (SupplyVault.mint (supply_vault market));
      ensure_ata_ix authority_key (CollateralVault.mint (collateral_vault market));
      Ixs.withdraw_repay_apl_ix autara_program_id market_key authority_key borrow_pda
        (token_address (supply_token_info market))
        (SupplyVault.vault (supply_vault market))
        (token_address (collateral_token_info market))
        (CollateralVault.vault (collateral_vault market))
        supply_oracle_id collateral_oracle_id ix].

Definition socialize_loss (market_key position : Pubkey) : ClientRes Transaction :=
  let? market := find_market market_key in
  let? (supply_oracle, collateral_oracle) := get_oracle_keys market in
  Ok [ensure_ata_ix authority_key (CollateralVault.mint (collateral_vault market));
      Ixs.socialize_loss_ix autara_program_id market_key position authority_key
        (token_address (collateral_token_info market))
        (CollateralVault.vault (collateral_vault market))
        supply_oracle collateral_oracle].

Definition donate_supply (market_key : Pubkey) (atoms : Z) : ClientRes Transaction :=
  let? market := find_market market_key in
  Ok [ensure_ata_ix authority_key (ti_mint (supply_token_info market));
      Ixs.donate_supply_ix autara_program_id market_key authority_key
        (token_address (supply_token_info market))
        (SupplyVault.vault (supply_vault market)) atoms].

End Ops.
End Tx.
