(* ===== verification/TxFacts.v ===== *)
(** * The client and the program agree

    The program reads the accounts of an instruction by position and checks them against
    each other; the client fills the positions from what it has read.  [requested] says what
    a request of the client means: the instruction, and the account in each role. *)
From S2P Require Import Prelude.
From S2P Require Import Errors.
From S2P Require Import Monad.
From S2P Require Import FixedPoint.
From S2P Require Import Bytes.
From S2P Require Import Pda.
From S2P Require Import InterestRateCurve.
From S2P Require Import OracleRate.
From S2P Require Import Oracle.
From S2P Require Import GlobalConfig.
From S2P Require Import LiquidatorWhitelist.
From S2P Require Import MarketConfig.
From S2P Require Import SupplyPosition.
From S2P Require Import BorrowPosition.
From S2P Require Import SupplyVault.
From S2P Require Import CollateralVault.
From S2P Require Import Market.
From S2P Require Import ProgramErrors.
From S2P Require Import Accounts.
From S2P Require Import IxsUser.
From S2P Require Import IxsAdmin.
From S2P Require Import Events.
From S2P Require Import Processor.
From S2P Require Import ProcessorAdmin.
From S2P Require Import Program.
From S2P Require Import Borsh.
From S2P Require Import InstructionCodec.
From S2P Require Import IxBuilders.
From S2P Require Import TxBuilder.

(** ** What the program reads *)

Section Roles.
Context {PC : PdaCrate} {CH : Chain} {AC : AccountCodec}.

(** The keys of the accounts of an instruction in the order of the fields of its struct,
    once they have been read and validated. *)
Definition roles (ix : AurataInstruction) (l : list AccountInfo)
  : Result LendingProgramErrorKind (list Pubkey) :=
  match ix with
  | Ix.CreateMarket _ =>
    let? a := parse CreateMarket.from_accounts l in
    Ok [CreateMarket.curator a; CreateMarket.payer a; key (CreateMarket.global_config a);
        ai_key (CreateMarket.market a); key (CreateMarket.supply_mint a);
        ai_key (CreateMarket.supply_vault a); key (CreateMarket.collateral_mint a);
        ai_key (CreateMarket.collateral_vault a)]
  | Ix.CreateSupplyPosition _ =>
    let? a := parse CreateSupplyPosition.from_accounts l in
    Ok [key (CreateSupplyPosition.market a); ai_key (CreateSupplyPosition.supply_position a);
        CreateSupplyPosition.authority a; CreateSupplyPosition.payer a]
  | Ix.SupplyApl _ =>
    let? a := parse SupplyApl.from_accounts l in
    Ok [key (SupplyApl.market a); key (SupplyApl.supply_position a); SupplyApl.authority a;
        key (SupplyApl.authority_supply_ata a); key (SupplyApl.market_supply_vault a);
        ai_key (SupplyApl.supply_oracle a); ai_key (SupplyApl.collateral_oracle a)]
  | Ix.WithdrawSupply _ =>
    let? a := parse WithdrawSupply.from_accounts l in
    Ok [key (WithdrawSupply.market a); key (WithdrawSupply.supply_position a);
        WithdrawSupply.authority a; key (WithdrawSupply.authority_supply_ata a);
        key (WithdrawSupply.market_supply_vault a); ai_key (WithdrawSupply.supply_oracle a);
        ai_key (WithdrawSupply.collateral_oracle a)]
  | Ix.CreateBorrowPosition _ =>
    let? a := parse CreateBorrowPosition.from_accounts l in
    Ok [key (CreateBorrowPosition.market a); ai_key (CreateBorrowPosition.borrow_position a);
        CreateBorrowPosition.authority a; CreateBorrowPosition.payer a]
  | Ix.BorrowApl _ =>
    let? a := parse BorrowApl.from_accounts l in
    Ok [key (BorrowApl.market a); key (BorrowApl.borrow_position a); BorrowApl.authority a;
        key (BorrowApl.authority_supply_ata a); key (BorrowApl.market_supply_vault a);
        ai_key (BorrowApl.supply_oracle a); ai_key (BorrowApl.collateral_oracle a)]
  | Ix.DepositAplCollateral _ =>
    let? a := parse DepositAplCollateral.from_accounts l in
    Ok [key (DepositAplCollateral.market a); key (DepositAplCollateral.borrow_position a);
        DepositAplCollateral.authority a; key (DepositAplCollateral.authority_collateral_ata a);
        key (DepositAplCollateral.market_collateral_vault a);
        ai_key (DepositAplCollateral.supply_oracle a);
        ai_key (DepositAplCollateral.collateral_oracle a)]
  | Ix.WithdrawAplCollateral _ =>
    let? a := parse WithdrawAplCollateral.from_accounts l in
    Ok [key (WithdrawAplCollateral.market a); key (WithdrawAplCollateral.borrow_position a);
        WithdrawAplCollateral.authority a;
        key (WithdrawAplCollateral.authority_collateral_ata a);
        key (WithdrawAplCollateral.market_collateral_vault a);
        ai_key (WithdrawAplCollateral.supply_oracle a);
        ai_key (WithdrawAplCollateral.collateral_oracle a)]
  | Ix.RepayApl _ =>
    let? a := parse RepayApl.from_accounts l in
    Ok [key (RepayApl.market a); key (RepayApl.borrow_position a); RepayApl.authority a;
        key (RepayApl.authority_supply_ata a); key (RepayApl.market_supply_vault a);
        ai_key (RepayApl.supply_oracle a); ai_key (RepayApl.collateral_oracle a)]
  | Ix.UpdateConfig _ =>
    let? a := parse UpdateConfig.from_accounts l in
    Ok [key (UpdateConfig.market a); key (UpdateConfig.global_config a);
        UpdateConfig.curator a; ai_key (UpdateConfig.updated_supply_oracle a);
        ai_key (UpdateConfig.updated_collateral_oracle a)]
  | Ix.Liquidate _ =>
    let? a := parse Liquidate.from_accounts l in
    Ok ([key (Liquidate.market a); key (Liquidate.borrow_position a); Liquidate.liquidator a;
         key (Liquidate.liquidator_supply_ata a); key (Liquidate.liquidator_collateral_ata a);
         key (Liquidate.market_supply_vault a); key (Liquidate.market_collateral_vault a);
         ai_key (Liquidate.supply_oracle a); ai_key (Liquidate.collateral_oracle a)]
        ++ match Liquidate.liquidator_whitelist_entry a with
           | Some e => [key e]
           | None => []
           end)
  | Ix.CreateGlobalConfig _ =>
    let? a := parse CreateGlobalConfig.from_accounts l in
    Ok [CreateGlobalConfig.payer a; ai_key (CreateGlobalConfig.global_config a)]
  | Ix.ReedeemCuratorFees =>
    let? a := parse RedeemCuratorFees.from_accounts l in
    Ok [RedeemCuratorFees.curator a; key (RedeemCuratorFees.market a);
        key (RedeemCuratorFees.curator_supply_ata a);
        key (RedeemCuratorFees.market_supply_vault a)]
  | Ix.ReedeemProtocolFees =>
    let? a := parse RedeemProtocolFees.from_accounts l in
    Ok [RedeemProtocolFees.signer_ a; key (RedeemProtocolFees.global_config a);
        key (RedeemProtocolFees.market a); key (RedeemProtocolFees.receiver_supply_ata a);
        key (RedeemProtocolFees.market_supply_vault a)]
  | Ix.UpdateGlobalConfig _ =>
    let? a := parse UpdateGlobalConfig.from_accounts l in
    Ok [UpdateGlobalConfig.signer_ a; key (UpdateGlobalConfig.global_config a)]
  | Ix.BorrowDepositApl _ =>
    let? a := parse BorrowDepositApl.from_accounts l in
    Ok [key (BorrowDepositApl.market a); key (BorrowDepositApl.borrow_position a);
        BorrowDepositApl.authority a; key (BorrowDepositApl.authority_supply_ata a);
        key (BorrowDepositApl.market_supply_vault a);
        key (BorrowDepositApl.authority_collateral_ata a);
        key (BorrowDepositApl.market_collateral_vault a);
        ai_key (BorrowDepositApl.supply_oracle a); ai_key (BorrowDepositApl.collateral_oracle a)]
  | Ix.WithdrawRepayApl _ =>
    let? a := parse WithdrawRepayApl.from_accounts l in
    Ok [key (WithdrawRepayApl.market a); key (WithdrawRepayApl.borrow_position a);
        WithdrawRepayApl.authority a; key (WithdrawRepayApl.authority_supply_ata a);
        key (WithdrawRepayApl.market_supply_vault a);
        key (WithdrawRepayApl.authority_collateral_ata a);
        key (WithdrawRepayApl.market_collateral_vault a);
        ai_key (WithdrawRepayApl.supply_oracle a); ai_key (WithdrawRepayApl.collateral_oracle a)]
  | Ix.SocializeLoss =>
    let? a := parse SocializeLoss.from_accounts l in
    Ok [key (SocializeLoss.market a); key (SocializeLoss.borrow_position a);
        SocializeLoss.curator a; key (SocializeLoss.receiver_collateral_ata a);
        key (SocializeLoss.market_collateral_vault a); ai_key (SocializeLoss.supply_oracle a);
        ai_key (SocializeLoss.collateral_oracle a)]
  | Ix.DonateSupply _ =>
    let? a := parse DonateSupply.from_accounts l in
    Ok [key (DonateSupply.market a); DonateSupply.authority a;
        key (DonateSupply.authority_supply_ata a); key (DonateSupply.market_supply_vault a)]
  | Ix.BeginCapitalSweep =>
    let? a := parse BeginCapitalSweep.from_accounts l in
    Ok [key (BeginCapitalSweep.market a); key (BeginCapitalSweep.borrow_position a);
        BeginCapitalSweep.curator a; key (BeginCapitalSweep.curator_collateral_ata a);
        key (BeginCapitalSweep.market_collateral_vault a);
        ai_key (BeginCapitalSweep.supply_oracle a); ai_key (BeginCapitalSweep.collateral_oracle a)]
  | Ix.SettleCapitalSweep _ =>
    let? a := parse SettleCapitalSweep.from_accounts l in
    Ok [key (SettleCapitalSweep.market a); key (SettleCapitalSweep.borrow_position a);
        SettleCapitalSweep.curator a; key (SettleCapitalSweep.curator_supply_ata a);
        key (SettleCapitalSweep.curator_collateral_ata a);
        key (SettleCapitalSweep.market_supply_vault a);
        key (SettleCapitalSweep.market_collateral_vault a);
        ai_key (SettleCapitalSweep.supply_oracle a);
        ai_key (SettleCapitalSweep.collateral_oracle a)]
  | Ix.AddWhitelistedLiquidator d =>
    let? a := parse (AddWhitelistedLiquidator.from_accounts (aw_liquidator d) (aw_bump d)) l in
    Ok [key (AddWhitelistedLiquidator.market a); AddWhitelistedLiquidator.curator a;
        ai_key (AddWhitelistedLiquidator.whitelist_entry a)]
  | Ix.RemoveWhitelistedLiquidator k =>
    let? a := parse (RemoveWhitelistedLiquidator.from_accounts k) l in
    Ok [key (RemoveWhitelistedLiquidator.market a); RemoveWhitelistedLiquidator.curator a;
        key (RemoveWhitelistedLiquidator.whitelist_entry a)]
  | Ix.Log =>
    let? a := parse LogAccounts.from_accounts l in Ok [key (LogAccounts.market a)]
  end.

(** The handlers run on nothing else: an instruction whose accounts are refused fails with
    the same error. *)
Lemma roles_gate {FX : FixedCrate} {BC : OracleBuild} {RT : Runtime} {ME : Memory} pid l ix ts e :
  roles ix l = Err e -> autara_process_instruction pid l ix ts = Err e.
Proof.
  destruct ix; cbn [roles autara_process_instruction]; intros H;
    match type of H with
    | (let? _ := ?r in _) = _ => destruct r; try discriminate H; by injection H as ->
    end.
Qed.

End Roles.

(** ** What a request means *)

(** The accounts of the chain when an instruction runs: owner and contents. *)
Definition Store : Type := Pubkey -> Pubkey * list Z.

(** How the runtime shows an account that an instruction names. *)
Definition present (A : Store) (m : Pubkey * bool * bool) : AccountInfo :=
  let '(k, is_signer, is_writable) := m in
  mkAccountInfo k (fst (A k)) is_signer is_writable (snd (A k)).

(** The requests that the client can build. *)
Inductive Request : Type :=
| RCreateMarket (curator payer : Pubkey) (d : CreateMarketInstruction) (sm cm : Pubkey)
| RCreateGlobalConfig (payer admin fee_receiver : Pubkey) (share : Z)
| RSupply (market : Pubkey) (atoms : Z)
| RDepositCollateral (market : Pubkey) (atoms : Z)
| RBorrow (market : Pubkey) (atoms : Z)
| RRepay (market : Pubkey) (atoms : option Z)
| RWithdrawSupply (market : Pubkey) (atoms : option Z)
| RWithdrawCollateral (market : Pubkey) (atoms : option Z)
| RUpdateConfig (market : Pubkey) (d : UpdateConfigInstruction)
| RAddWhitelistedLiquidator (market liquidator : Pubkey)
| RRemoveWhitelistedLiquidator (market liquidator : Pubkey)
| RLiquidate (market position : Pubkey) (max_repay min_receive : option Z)
    (ix_callback : option Instruction)
| RBeginCapitalSweep (market position : Pubkey)
| RSettleCapitalSweep (market position : Pubkey) (max_repay max_return : option Z)
| RRedeemCuratorFees (market : Pubkey)
| RRedeemProtocolFees (market : Pubkey)
| RUpdateGlobalConfig (d : UpdateGlobalConfigInstruction)
| RBorrowDeposit (market : Pubkey) (d : BorrowDepositAplInstruction)
| RWithdrawRepay (market : Pubkey) (d : WithdrawRepayAplInstruction)
| RSocializeLoss (market position : Pubkey)
| RDonateSupply (market : Pubkey) (atoms : Z).

Section Agreement.
Context {PC : PdaCrate} {CH : Chain} {AC : AccountCodec} {BO : BorshCrate}.
Context {RC : AutaraReadClient}.
Variable authority : Pubkey.

Definition build (r : Request) : ClientRes Transaction :=
  match r with
  | RCreateMarket c p d sm cm => let? (_, t) := Tx.create_market id c p d sm cm in Ok t
  | RCreateGlobalConfig p a f s => let? (_, t) := Tx.create_global_config id p a f s in Ok t
  | RSupply k n => Tx.supply id authority k n
  | RDepositCollateral k n => Tx.deposit_collateral id authority k n
  | RBorrow k n => Tx.borrow id authority k n
  | RRepay k n => Tx.repay id authority k n
  | RWithdrawSupply k n => Tx.withdraw_supply id authority k n
  | RWithdrawCollateral k n => Tx.withdraw_collateral id authority k n
  | RUpdateConfig k d => Tx.update_config id authority k d
  | RAddWhitelistedLiquidator k l =>
    let? (_, t) := Tx.add_whitelisted_liquidator id authority k l in Ok t
  | RRemoveWhitelistedLiquidator k l =>
    let? (_, t) := Tx.remove_whitelisted_liquidator id authority k l in Ok t
  | RLiquidate k p x y c => Tx.liquidate id authority k p x y c
  | RBeginCapitalSweep k p => Tx.begin_capital_sweep id authority k p
  | RSettleCapitalSweep k p x y => Tx.settle_capital_sweep id authority k p x y
  | RRedeemCuratorFees k => Tx.redeem_curator_fees id authority k
  | RRedeemProtocolFees k => Tx.redeem_protocol_fees id authority k
  | RUpdateGlobalConfig d => Tx.update_global_config id authority d
  | RBorrowDeposit k d => Tx.borrow_deposit id authority k d
  | RWithdrawRepay k d => Tx.withdraw_repay id authority k d
  | RSocializeLoss k p => Tx.socialize_loss id authority k p
  | RDonateSupply k n => Tx.donate_supply id authority k n
  end.

(** An initialised account of the program. *)
Definition holds {T} `{ZeroCopyInitialized T} (A : Store) (of_bytes : list Z -> option T)
  (k : Pubkey) (x : T) : Prop :=
  fst (A k) = id /\ of_bytes (snd (A k)) = Some x /\ is_initialized x = true.

(** A token account of a mint, and a mint. *)
Definition token (A : Store) (k mint : Pubkey) : Prop :=
  exists t, fst (A k) = apl_token_id /\ token_account_of_bytes (snd (A k)) = Some t /\
            ta_mint t = mint.
Definition mint_account (A : Store) (k : Pubkey) : Prop :=
  exists t, fst (A k) = apl_token_id /\ mint_of_bytes (snd (A k)) = Some t.

Definition supply_mint (m : Market) : Pubkey := SupplyVault.mint (supply_vault m).
Definition collateral_mint (m : Market) : Pubkey := CollateralVault.mint (collateral_vault m).
Definition supply_vault_key (m : Market) : Pubkey := SupplyVault.vault (supply_vault m).
Definition collateral_vault_key (m : Market) : Pubkey := CollateralVault.vault (collateral_vault m).
Definition ata (mint : Pubkey) : Pubkey := get_associated_token_address authority mint.

(** The feeds of a market. *)
Definition oracle_of (c : OracleConfig) : Pubkey :=
  default ZEROED_PUBKEY (oracle_feed_pubkey (oracle_provider (config_provider c))).
Definition supply_oracle_of (m : Market) : Pubkey :=
  oracle_of (SupplyVault.oracle_config (supply_vault m)).
Definition collateral_oracle_of (m : Market) : Pubkey :=
  oracle_of (CollateralVault.oracle_config (collateral_vault m)).

(** What the client has read of a market is its keys and its configuration; it may have
    accrued interest since. *)
Definition same_keys (m m' : Market) : Prop :=
  supply_mint m = supply_mint m' /\ collateral_mint m = collateral_mint m' /\
  supply_vault_key m = supply_vault_key m' /\ collateral_vault_key m = collateral_vault_key m' /\
  SupplyVault.oracle_config (supply_vault m) = SupplyVault.oracle_config (supply_vault m') /\
  CollateralVault.oracle_config (collateral_vault m)
    = CollateralVault.oracle_config (collateral_vault m') /\
  config m = config m'.

(** A market that the client knows, with the token accounts of its vaults. *)
Definition known (A : Store) (k : Pubkey) (m : Market) : Prop :=
  holds A market_of_bytes k m /\ (exists m', get_market k = Some m' /\ same_keys m' m) /\
  token A (supply_vault_key m) (supply_mint m) /\
  token A (collateral_vault_key m) (collateral_mint m).

(** The positions of the user, where the client looks for them. *)
Definition my_supply (A : Store) (market k : Pubkey) : Prop :=
  fst (get_supply_position market authority) = k /\
  exists p, holds A supply_position_of_bytes k p /\ SupplyPosition.authority p = authority /\
            SupplyPosition.market p = market.
Definition my_borrow (A : Store) (market k : Pubkey) : Prop :=
  fst (get_borrow_position market authority) = k /\
  exists p, holds A borrow_position_of_bytes k p /\ BorrowPosition.authority p = authority /\
            BorrowPosition.market p = market.
Definition some_borrow (A : Store) (market k : Pubkey) : Prop :=
  exists p, holds A borrow_position_of_bytes k p /\ BorrowPosition.market p = market.

Definition global_config_key : Pubkey := fst (find_global_config_pda id).
Definition entry_key (market liquidator : Pubkey) : Pubkey :=
  fst (find_liquidator_whitelist_entry_pda id market liquidator).
Definition entry_of (A : Store) (market liquidator : Pubkey) (e : LiquidatorWhitelistEntry) : Prop :=
  holds A whitelist_entry_of_bytes (entry_key market liquidator) e /\
  LiquidatorWhitelist.market e = market /\ LiquidatorWhitelist.liquidator e = liquidator.

(** What the client asks for, when it may: the instruction and its roles. *)
Inductive requested (A : Store) : Request -> AurataInstruction -> list Pubkey -> Prop :=
| q_create_market d sm cm g pda bump :
    find_market_pda id authority sm cm (ci_index d) = (pda, bump) ->
    holds A global_config_of_bytes global_config_key g -> mint_account A sm ->
    mint_account A cm ->
    requested A (RCreateMarket authority authority d sm cm)
      (Ix.CreateMarket (Ixs.set_market_bump bump d))
      [authority; authority; global_config_key; pda; sm; get_associated_token_address pda sm;
       cm; get_associated_token_address pda cm]
| q_create_global_config a f n bump :
    find_global_config_pda id = (global_config_key, bump) ->
    requested A (RCreateGlobalConfig authority a f n)
      (Ix.CreateGlobalConfig (mkCreateGlobalConfigIx bump a f n)) [authority; global_config_key]
| q_supply k m p n :
    known A k m -> my_supply A k p -> token A (ata (supply_mint m)) (supply_mint m) ->
    requested A (RSupply k n) (Ix.SupplyApl n)
      [k; p; authority; ata (supply_mint m); supply_vault_key m;
       supply_oracle_of m; collateral_oracle_of m]
| q_deposit_collateral k m p n :
    known A k m -> my_borrow A k p -> token A (ata (collateral_mint m)) (collateral_mint m) ->
    requested A (RDepositCollateral k n) (Ix.DepositAplCollateral n)
      [k; p; authority; ata (collateral_mint m); collateral_vault_key m;
       supply_oracle_of m; collateral_oracle_of m]
| q_borrow k m p n :
    known A k m -> my_borrow A k p -> token A (ata (supply_mint m)) (supply_mint m) ->
    requested A (RBorrow k n) (Ix.BorrowApl n)
      [k; p; authority; ata (supply_mint m); supply_vault_key m;
       supply_oracle_of m; collateral_oracle_of m]
| q_repay k m p n :
    known A k m -> my_borrow A k p -> token A (ata (supply_mint m)) (supply_mint m) ->
    requested A (RRepay k n)
      (Ix.RepayApl (match n with Some x => mkRepayApl x false | None => mkRepayApl 0 true end))
      [k; p; authority; ata (supply_mint m); supply_vault_key m;
       supply_oracle_of m; collateral_oracle_of m]
| q_withdraw_supply k m p n :
    known A k m -> my_supply A k p -> token A (ata (supply_mint m)) (supply_mint m) ->
    requested A (RWithdrawSupply k n)
      (Ix.WithdrawSupply
         (match n with Some x => mkWithdrawSupply x false | None => mkWithdrawSupply 0 true end))
      [k; p; authority; ata (supply_mint m); supply_vault_key m;
       supply_oracle_of m; collateral_oracle_of m]
| q_withdraw_collateral k m p n :
    known A k m -> my_borrow A k p -> token A (ata (collateral_mint m)) (collateral_mint m) ->
    requested A (RWithdrawCollateral k n)
      (Ix.WithdrawAplCollateral
         (match n with
          | Some x => mkWithdrawAplCollateral x false
          | None => mkWithdrawAplCollateral 0 true
          end))
      [k; p; authority; ata (collateral_mint m); collateral_vault_key m;
       supply_oracle_of m; collateral_oracle_of m]
| q_update_config k m g d :
    known A k m -> curator (config m) = authority ->
    holds A global_config_of_bytes global_config_key g ->
    requested A (RUpdateConfig k d) (Ix.UpdateConfig d)
      [k; global_config_key; authority;
       from_option oracle_of (supply_oracle_of m) (uc_supply_oracle_config d);
       from_option oracle_of (collateral_oracle_of m) (uc_collateral_oracle_config d)]
| q_add_whitelisted k m l bump :
    known A k m -> curator (config m) = authority ->
    find_liquidator_whitelist_entry_pda id k l = (entry_key k l, bump) ->
    fst (A (entry_key k l)) = SYSTEM_PROGRAM_ID /\ SYSTEM_PROGRAM_ID <> id \/
    (exists e, entry_of A k l e) ->
    requested A (RAddWhitelistedLiquidator k l)
      (Ix.AddWhitelistedLiquidator (mkAddWhitelistedLiquidatorIx l bump))
      [k; authority; entry_key k l]
| q_remove_whitelisted k m l e :
    known A k m -> curator (config m) = authority -> entry_of A k l e ->
    requested A (RRemoveWhitelistedLiquidator k l) (Ix.RemoveWhitelistedLiquidator l)
      [k; authority; entry_key k l]
| q_liquidate k m p x y c :
    known A k m -> some_borrow A k p -> token A (ata (supply_mint m)) (supply_mint m) ->
    token A (ata (collateral_mint m)) (collateral_mint m) ->
    liquidations_are_permissionless (config m) = true ->
    requested A (RLiquidate k p x y c)
      (Ix.Liquidate (mkLiquidate (default U64_MAX x) (default 0 y) c))
      [k; p; authority; ata (supply_mint m); ata (collateral_mint m); supply_vault_key m;
       collateral_vault_key m; supply_oracle_of m; collateral_oracle_of m]
| q_liquidate_whitelisted k m p e x y c :
    known A k m -> some_borrow A k p -> token A (ata (supply_mint m)) (supply_mint m) ->
    token A (ata (collateral_mint m)) (collateral_mint m) ->
    liquidations_are_permissionless (config m) = false ->
    entry_of A k authority e -> is_active e = true -> entry_key k authority <> id ->
    requested A (RLiquidate k p x y c)
      (Ix.Liquidate (mkLiquidate (default U64_MAX x) (default 0 y) c))
      [k; p; authority; ata (supply_mint m); ata (collateral_mint m); supply_vault_key m;
       collateral_vault_key m; supply_oracle_of m; collateral_oracle_of m; entry_key k authority]
| q_begin_capital_sweep k m p :
    known A k m -> some_borrow A k p -> token A (ata (collateral_mint m)) (collateral_mint m) ->
    curator (config m) = authority ->
    requested A (RBeginCapitalSweep k p) Ix.BeginCapitalSweep
      [k; p; authority; ata (collateral_mint m); collateral_vault_key m;
       supply_oracle_of m; collateral_oracle_of m]
| q_settle_capital_sweep k m p x y :
    known A k m -> some_borrow A k p -> token A (ata (supply_mint m)) (supply_mint m) ->
    token A (ata (collateral_mint m)) (collateral_mint m) -> curator (config m) = authority ->
    requested A (RSettleCapitalSweep k p x y)
      (Ix.SettleCapitalSweep (mkSettleCapitalSweep (default U64_MAX x) (default U64_MAX y)))
      [k; p; authority; ata (supply_mint m); ata (collateral_mint m); supply_vault_key m;
       collateral_vault_key m; supply_oracle_of m; collateral_oracle_of m]
| q_redeem_curator_fees k m :
    known A k m -> token A (ata (supply_mint m)) (supply_mint m) ->
    curator (config m) = authority ->
    requested A (RRedeemCuratorFees k) Ix.ReedeemCuratorFees
      [authority; k; ata (supply_mint m); supply_vault_key m]
| q_redeem_protocol_fees k m g :
    known A k m -> token A (ata (supply_mint m)) (supply_mint m) ->
    holds A global_config_of_bytes global_config_key g -> can_redeem_fees g authority = true ->
    requested A (RRedeemProtocolFees k) Ix.ReedeemProtocolFees
      [authority; global_config_key; k; ata (supply_mint m); supply_vault_key m]
| q_update_global_config d g :
    holds A global_config_of_bytes global_config_key g ->
    can_update_config g authority || can_upgrade_nomination g authority = true ->
    requested A (RUpdateGlobalConfig d) (Ix.UpdateGlobalConfig d) [authority; global_config_key]
| q_borrow_deposit k m p d :
    known A k m -> my_borrow A k p -> token A (ata (supply_mint m)) (supply_mint m) ->
    token A (ata (collateral_mint m)) (collateral_mint m) ->
    requested A (RBorrowDeposit k d) (Ix.BorrowDepositApl d)
      [k; p; authority; ata (supply_mint m); supply_vault_key m; ata (collateral_mint m);
       collateral_vault_key m; supply_oracle_of m; collateral_oracle_of m]
| q_withdraw_repay k m p d :
    known A k m -> my_borrow A k p -> token A (ata (supply_mint m)) (supply_mint m) ->
    token A (ata (collateral_mint m)) (collateral_mint m) ->
    requested A (RWithdrawRepay k d) (Ix.WithdrawRepayApl d)
      [k; p; authority; ata (supply_mint m); supply_vault_key m; ata (collateral_mint m);
       collateral_vault_key m; supply_oracle_of m; collateral_oracle_of m]
| q_socialize_loss k m p :
    known A k m -> some_borrow A k p -> token A (ata (collateral_mint m)) (collateral_mint m) ->
    curator (config m) = authority ->
    requested A (RSocializeLoss k p) Ix.SocializeLoss
      [k; p; authority; ata (collateral_mint m); collateral_vault_key m;
       supply_oracle_of m; collateral_oracle_of m]
| q_donate_supply k m n :
    known A k m -> token A (ata (supply_mint m)) (supply_mint m) ->
    requested A (RDonateSupply k n) (Ix.DonateSupply n)
      [k; authority; ata (supply_mint m); supply_vault_key m].

(** ** Reading presented accounts *)

Lemma bind_run {E S T U} (p : STE E S T) (f : T -> STE E S U) s s' x :
  p s = (Ok x, s') -> st_bind p f s = f x s'.
Proof. intros H. unfold st_bind. by rewrite H. Qed.

Lemma next_info a l : next_account_info (a :: l) = (Ok a, l).
Proof. done. Qed.

Lemma next_as_run {T} (conv : AccountInfo -> AccRes T) a l x :
  conv a = Ok x -> next_as conv (a :: l) = (Ok x, l).
Proof. intros H. unfold next_as. rewrite (bind_run _ _ _ l a) by done. by rewrite H. Qed.

Lemma read_zero_copy {T} `{ZeroCopyInitialized T} A of_bytes k (x : T) s w l :
  holds A of_bytes k x ->
  next_as (zero_copy of_bytes) (present A (k, s, w) :: l) = (Ok (mkAccount k s x), l).
Proof.
  intros (Ho & Hx & Hi). apply next_as_run. unfold zero_copy, present. cbn.
  by rewrite Ho, bool_decide_eq_true_2, Hx, Hi.
Qed.

Lemma read_zero_copy_mut {T} `{ZeroCopyInitialized T} A of_bytes k (x : T) s l :
  holds A of_bytes k x ->
  next_as (zero_copy_mut of_bytes) (present A (k, s, true) :: l) = (Ok (mkAccount k s x), l).
Proof.
  intros (Ho & Hx & Hi). apply next_as_run. unfold zero_copy_mut, zero_copy, present. cbn.
  by rewrite Ho, bool_decide_eq_true_2, Hx, Hi.
Qed.

Lemma read_signer A k w l : next_signer (present A (k, true, w) :: l) = (Ok k, l).
Proof. by apply next_as_run. Qed.

Lemma read_program e A s w l :
  next_as (program e) (present A (e, s, w) :: l) = (Ok e, l).
Proof. apply next_as_run. unfold program. cbn. by rewrite bool_decide_eq_true_2. Qed.

Lemma read_token A k t s w l :
  fst (A k) = apl_token_id -> token_account_of_bytes (snd (A k)) = Some t ->
  next_token (present A (k, s, w) :: l) = (Ok (mkAccount k s t), l).
Proof.
  intros Ho Ht. apply next_as_run. unfold packed, present. cbn.
  by rewrite Ho, bool_decide_eq_true_2, Ht.
Qed.

Lemma read_mint A k t s w l :
  fst (A k) = apl_token_id -> mint_of_bytes (snd (A k)) = Some t ->
  next_as (packed mint_of_bytes) (present A (k, s, w) :: l) = (Ok (mkAccount k s t), l).
Proof.
  intros Ho Ht. apply next_as_run. unfold packed, present. cbn.
  by rewrite Ho, bool_decide_eq_true_2, Ht.
Qed.

Lemma same_key a b : a = b -> key_ne a b = false.
Proof. by rewrite key_ne_false. Qed.

(** ** Agreement *)

Lemma oracle_keys_ok {E} m :
  get_oracle_keys (E := E) m = Ok (supply_oracle_of m, collateral_oracle_of m).
Proof.
  unfold get_oracle_keys, feed_pubkey, supply_oracle_of, collateral_oracle_of, oracle_of.
  by destruct (oracle_provider _), (oracle_provider _).
Qed.

Lemma updated_oracle_ok {E} c k :
  Ixs.updated_oracle (E := E) c k = Ok (from_option oracle_of k c).
Proof.
  destruct c as [c |]; [| done]. cbn. unfold feed_pubkey, oracle_of.
  by destruct (oracle_provider _).
Qed.

(** What the builder takes from a market that it knows. *)
Lemma known_read A k m :
  known A k m ->
  exists m', Tx.find_market k = Ok m' /\
    get_oracle_keys (E := ClientError) m' = Ok (supply_oracle_of m, collateral_oracle_of m) /\
    SupplyVault.mint (supply_vault m') = supply_mint m /\
    CollateralVault.mint (collateral_vault m') = collateral_mint m /\
    SupplyVault.vault (supply_vault m') = supply_vault_key m /\
    CollateralVault.vault (collateral_vault m') = collateral_vault_key m /\
    config m' = config m.
Proof.
  intros (_ & (m' & Hg & E1 & E2 & E3 & E4 & E5 & E6 & E7) & _). exists m'.
  unfold Tx.find_market. rewrite Hg, oracle_keys_ok.
  unfold supply_oracle_of, collateral_oracle_of. rewrite E5, E6. done.
Qed.

(** Opens the premises of a request. *)
Ltac open_request :=
  repeat match goal with
  | H : known ?A ?k ?m |- _ =>
    let m' := fresh "m'" in
    destruct (known_read A k m H) as (m' & ? & ? & ? & ? & ? & ? & ?);
    destruct H as (? & _ & ? & ?)
  | H : my_supply _ _ _ |- _ => destruct H as (? & ? & ? & ? & ?)
  | H : my_borrow _ _ _ |- _ => destruct H as (? & ? & ? & ? & ?)
  | H : some_borrow _ _ _ |- _ => destruct H as (? & ? & ?)
  | H : entry_of _ _ _ _ |- _ => destruct H as (? & ? & ?)
  | H : token _ _ _ |- _ => destruct H as (? & ? & ? & ?)
  | H : mint_account _ _ |- _ => destruct H as (? & ? & ?)
  end.

(** Reads presented accounts one by one. *)
Ltac read_accounts :=
  repeat (erewrite bind_run; cycle 1;
    [ first [ apply next_info | apply read_signer | apply read_program
            | eapply read_zero_copy_mut; eassumption | eapply read_zero_copy; eassumption
            | eapply read_token; eassumption | eapply read_mint; eassumption ] |]).

(** Checks of accounts that belong together. *)
Ltac same := first [reflexivity | eassumption | symmetry; eassumption].
Ltac pass :=
  cbn; repeat (rewrite same_key by same; cbn [orb reject_if res_bind]); try reflexivity.

(** Presents the accounts of a built instruction, runs [from_accounts], then [validate]. *)
Tactic Notation "accepted" reference(ix) reference(from) reference(v) :=
  intros; open_request; unfold ix, meta, meta_ro, roles, parse, from;
  cbn [ix_accounts fmap list_fmap]; read_accounts;
  match goal with |- context [st_lift ?V] => assert (HV : V = Ok tt) by (unfold v; pass);
    rewrite HV end;
  reflexivity.

Lemma supply_agrees A k m p n :
  known A k m -> my_supply A k p -> token A (ata (supply_mint m)) (supply_mint m) ->
  roles (Ix.SupplyApl n) (present A <$> ix_accounts
    (Ixs.supply_apl_ix id k p authority (ata (supply_mint m)) (supply_vault_key m)
       (supply_oracle_of m) (collateral_oracle_of m) n))
  = Ok [k; p; authority; ata (supply_mint m); supply_vault_key m;
       supply_oracle_of m; collateral_oracle_of m].
Proof. accepted Ixs.supply_apl_ix SupplyApl.from_accounts SupplyApl.validate. Qed.

Lemma withdraw_supply_agrees A k m p n b d :
  known A k m -> my_supply A k p -> token A (ata (supply_mint m)) (supply_mint m) ->
  roles (Ix.WithdrawSupply d) (present A <$> ix_accounts
    (Ixs.withdraw_supply_ix id k p authority (ata (supply_mint m)) (supply_vault_key m)
       (supply_oracle_of m) (collateral_oracle_of m) n b))
  = Ok [k; p; authority; ata (supply_mint m); supply_vault_key m;
       supply_oracle_of m; collateral_oracle_of m].
Proof. accepted Ixs.withdraw_supply_ix WithdrawSupply.from_accounts WithdrawSupply.validate. Qed.

Lemma deposit_agrees A k m p n :
  known A k m -> my_borrow A k p -> token A (ata (collateral_mint m)) (collateral_mint m) ->
  roles (Ix.DepositAplCollateral n) (present A <$> ix_accounts
    (Ixs.deposit_apl_collateral_ix id k authority p (ata (collateral_mint m)) (collateral_vault_key m)
       (supply_oracle_of m) (collateral_oracle_of m) n))
  = Ok [k; p; authority; ata (collateral_mint m); collateral_vault_key m;
       supply_oracle_of m; collateral_oracle_of m].
Proof. accepted Ixs.deposit_apl_collateral_ix DepositAplCollateral.from_accounts DepositAplCollateral.validate. Qed.

Lemma borrow_agrees A k m p n :
  known A k m -> my_borrow A k p -> token A (ata (supply_mint m)) (supply_mint m) ->
  roles (Ix.BorrowApl n) (present A <$> ix_accounts
    (Ixs.borrow_apl_ix id k authority p (ata (supply_mint m)) (supply_vault_key m)
       (supply_oracle_of m) (collateral_oracle_of m) n))
  = Ok [k; p; authority; ata (supply_mint m); supply_vault_key m;
       supply_oracle_of m; collateral_oracle_of m].
Proof. accepted Ixs.borrow_apl_ix BorrowApl.from_accounts BorrowApl.validate. Qed.

Lemma repay_agrees A k m p n b d :
  known A k m -> my_borrow A k p -> token A (ata (supply_mint m)) (supply_mint m) ->
  roles (Ix.RepayApl d) (present A <$> ix_accounts
    (Ixs.repay_apl_ix id k p authority (ata (supply_mint m)) (supply_vault_key m)
       (supply_oracle_of m) (collateral_oracle_of m) n b))
  = Ok [k; p; authority; ata (supply_mint m); supply_vault_key m;
       supply_oracle_of m; collateral_oracle_of m].
Proof. accepted Ixs.repay_apl_ix RepayApl.from_accounts RepayApl.validate. Qed.

Lemma withdraw_collateral_agrees A k m p n b d :
  known A k m -> my_borrow A k p -> token A (ata (collateral_mint m)) (collateral_mint m) ->
  roles (Ix.WithdrawAplCollateral d) (present A <$> ix_accounts
    (Ixs.withdraw_apl_collateral_ix id k authority p (ata (collateral_mint m)) (collateral_vault_key m)
       (supply_oracle_of m) (collateral_oracle_of m) n b))
  = Ok [k; p; authority; ata (collateral_mint m); collateral_vault_key m;
       supply_oracle_of m; collateral_oracle_of m].
Proof. accepted Ixs.withdraw_apl_collateral_ix WithdrawAplCollateral.from_accounts WithdrawAplCollateral.validate. Qed.

Lemma borrow_deposit_agrees A k m p d :
  known A k m -> my_borrow A k p -> token A (ata (supply_mint m)) (supply_mint m) ->
  token A (ata (collateral_mint m)) (collateral_mint m) ->
  roles (Ix.BorrowDepositApl d) (present A <$> ix_accounts
    (Ixs.borrow_deposit_apl_ix id k authority p (ata (supply_mint m)) (supply_vault_key m)
       (ata (collateral_mint m)) (collateral_vault_key m) (supply_oracle_of m) (collateral_oracle_of m) d))
  = Ok [k; p; authority; ata (supply_mint m); supply_vault_key m; ata (collateral_mint m);
       collateral_vault_key m; supply_oracle_of m; collateral_oracle_of m].
Proof. accepted Ixs.borrow_deposit_apl_ix BorrowDepositApl.from_accounts BorrowDepositApl.validate. Qed.

Lemma withdraw_repay_agrees A k m p d :
  known A k m -> my_borrow A k p -> token A (ata (supply_mint m)) (supply_mint m) ->
  token A (ata (collateral_mint m)) (collateral_mint m) ->
  roles (Ix.WithdrawRepayApl d) (present A <$> ix_accounts
    (Ixs.withdraw_repay_apl_ix id k authority p (ata (supply_mint m)) (supply_vault_key m)
       (ata (collateral_mint m)) (collateral_vault_key m) (supply_oracle_of m) (collateral_oracle_of m) d))
  = Ok [k; p; authority; ata (supply_mint m); supply_vault_key m; ata (collateral_mint m);
       collateral_vault_key m; supply_oracle_of m; collateral_oracle_of m].
Proof. accepted Ixs.withdraw_repay_apl_ix WithdrawRepayApl.from_accounts WithdrawRepayApl.validate. Qed.

Lemma socialize_agrees A k m p :
  known A k m -> some_borrow A k p -> token A (ata (collateral_mint m)) (collateral_mint m) ->
  curator (config m) = authority ->
  roles Ix.SocializeLoss (present A <$> ix_accounts
    (Ixs.socialize_loss_ix id k p authority (ata (collateral_mint m)) (collateral_vault_key m)
       (supply_oracle_of m) (collateral_oracle_of m)))
  = Ok [k; p; authority; ata (collateral_mint m); collateral_vault_key m;
       supply_oracle_of m; collateral_oracle_of m].
Proof. accepted Ixs.socialize_loss_ix SocializeLoss.from_accounts SocializeLoss.validate. Qed.

Lemma begin_sweep_agrees A k m p :
  known A k m -> some_borrow A k p -> token A (ata (collateral_mint m)) (collateral_mint m) ->
  curator (config m) = authority ->
  roles Ix.BeginCapitalSweep (present A <$> ix_accounts
    (Ixs.begin_capital_sweep_ix id k p authority (ata (collateral_mint m)) (collateral_vault_key m)
       (supply_oracle_of m) (collateral_oracle_of m)))
  = Ok [k; p; authority; ata (collateral_mint m); collateral_vault_key m;
       supply_oracle_of m; collateral_oracle_of m].
Proof. accepted Ixs.begin_capital_sweep_ix BeginCapitalSweep.from_accounts BeginCapitalSweep.validate. Qed.

Lemma settle_sweep_agrees A k m p x y d :
  known A k m -> some_borrow A k p -> token A (ata (supply_mint m)) (supply_mint m) ->
  token A (ata (collateral_mint m)) (collateral_mint m) ->
  curator (config m) = authority ->
  roles (Ix.SettleCapitalSweep d) (present A <$> ix_accounts
    (Ixs.settle_capital_sweep_ix id k p authority (ata (supply_mint m))
       (ata (collateral_mint m)) (supply_vault_key m) (collateral_vault_key m)
       (supply_oracle_of m) (collateral_oracle_of m) x y))
  = Ok [k; p; authority; ata (supply_mint m); ata (collateral_mint m); supply_vault_key m;
       collateral_vault_key m; supply_oracle_of m; collateral_oracle_of m].
Proof. accepted Ixs.settle_capital_sweep_ix SettleCapitalSweep.from_accounts SettleCapitalSweep.validate. Qed.

Lemma curator_fees_agrees A k m :
  known A k m -> token A (ata (supply_mint m)) (supply_mint m) ->
  curator (config m) = authority ->
  roles Ix.ReedeemCuratorFees (present A <$> ix_accounts
    (Ixs.reedeem_curator_fees_ix id k authority (ata (supply_mint m)) (supply_vault_key m)))
  = Ok [authority; k; ata (supply_mint m); supply_vault_key m].
Proof. accepted Ixs.reedeem_curator_fees_ix RedeemCuratorFees.from_accounts RedeemCuratorFees.validate. Qed.

Lemma donate_agrees A k m n :
  known A k m -> token A (ata (supply_mint m)) (supply_mint m) ->
  roles (Ix.DonateSupply n) (present A <$> ix_accounts
    (Ixs.donate_supply_ix id k authority (ata (supply_mint m)) (supply_vault_key m) n))
  = Ok [k; authority; ata (supply_mint m); supply_vault_key m].
Proof. accepted Ixs.donate_supply_ix DonateSupply.from_accounts DonateSupply.validate. Qed.

Lemma protocol_fees_agrees A k m g :
  known A k m -> token A (ata (supply_mint m)) (supply_mint m) ->
  holds A global_config_of_bytes global_config_key g -> can_redeem_fees g authority = true ->
  roles Ix.ReedeemProtocolFees (present A <$> ix_accounts
    (Ixs.reedeem_protocol_fees_ix id k authority (ata (supply_mint m)) (supply_vault_key m)))
  = Ok [authority; global_config_key; k; ata (supply_mint m); supply_vault_key m].
Proof.
  intros Hk Ht Hg Hc. open_request. unfold Ixs.reedeem_protocol_fees_ix.
  destruct (find_global_config_pda id) as [gk gb] eqn:Eg.
  assert (global_config_key = gk) as E by (unfold global_config_key; by rewrite Eg).
  rewrite <- E. unfold meta, meta_ro, roles, parse, RedeemProtocolFees.from_accounts.
  cbn [ix_accounts fmap list_fmap]. read_accounts.
  match goal with |- context [st_lift ?V] => assert (HV : V = Ok tt) end.
  { unfold RedeemProtocolFees.validate. cbn. rewrite Eg. cbn. rewrite same_key by done. cbn.
    rewrite Hc. cbn. by rewrite same_key by same. }
  by rewrite HV.
Qed.

Lemma update_config_agrees A k m g d so co :
  known A k m -> curator (config m) = authority ->
  holds A global_config_of_bytes global_config_key g ->
  roles (Ix.UpdateConfig d) (present A <$>
    [meta k false; meta_ro global_config_key false; meta_ro authority true; meta_ro so false;
     meta_ro co false; meta_ro id false])
  = Ok [k; global_config_key; authority; so; co].
Proof. accepted meta UpdateConfig.from_accounts UpdateConfig.validate. Qed.

Lemma update_global_config_agrees A d g :
  holds A global_config_of_bytes global_config_key g ->
  can_update_config g authority || can_upgrade_nomination g authority = true ->
  roles (Ix.UpdateGlobalConfig d) (present A <$>
    [meta authority true; meta global_config_key false; meta_ro id false])
  = Ok [authority; global_config_key].
Proof.
  intros Hg Hc. unfold meta, meta_ro, roles, parse, UpdateGlobalConfig.from_accounts.
  cbn [fmap list_fmap]. read_accounts.
  match goal with |- context [st_lift ?V] => assert (HV : V = Ok tt) end.
  { unfold UpdateGlobalConfig.validate. cbn. rewrite <- negb_orb, Hc. done. }
  by rewrite HV.
Qed.

Lemma create_market_agrees A d sm cm g pda :
  holds A global_config_of_bytes global_config_key g -> mint_account A sm -> mint_account A cm ->
  roles (Ix.CreateMarket d) (present A <$>
    [meta_ro authority true; meta authority true; meta_ro global_config_key false;
     meta pda false; meta_ro sm false; meta (get_associated_token_address pda sm) false;
     meta_ro cm false; meta (get_associated_token_address pda cm) false;
     meta_ro apl_token_id false; meta_ro apl_ata_id false; meta_ro SYSTEM_PROGRAM_ID false;
     meta_ro id false])
  = Ok [authority; authority; global_config_key; pda; sm; get_associated_token_address pda sm;
        cm; get_associated_token_address pda cm].
Proof. accepted meta CreateMarket.from_accounts CreateMarket.validate. Qed.

Lemma create_global_config_agrees A d :
  roles (Ix.CreateGlobalConfig d) (present A <$>
    [meta authority true; meta global_config_key false; meta_ro SYSTEM_PROGRAM_ID false;
     meta_ro id false])
  = Ok [authority; global_config_key].
Proof.
  unfold meta, meta_ro, roles, parse, CreateGlobalConfig.from_accounts.
  cbn [fmap list_fmap]. read_accounts. done.
Qed.

Lemma add_whitelisted_agrees A k m l bump :
  known A k m -> curator (config m) = authority ->
  find_liquidator_whitelist_entry_pda id k l = (entry_key k l, bump) ->
  fst (A (entry_key k l)) = SYSTEM_PROGRAM_ID /\ SYSTEM_PROGRAM_ID <> id \/
  (exists e, entry_of A k l e) ->
  roles (Ix.AddWhitelistedLiquidator (mkAddWhitelistedLiquidatorIx l bump)) (present A <$>
    [meta k false; meta authority true; meta (entry_key k l) false;
     meta_ro SYSTEM_PROGRAM_ID false; meta_ro id false])
  = Ok [k; authority; entry_key k l].
Proof.
  intros Hk Hc Hp He. open_request. unfold meta, meta_ro, roles, parse, AddWhitelistedLiquidator.from_accounts.
  cbn [fmap list_fmap aw_liquidator aw_bump]. read_accounts.
  match goal with |- context [st_lift ?V] => assert (HV : V = Ok tt) end.
  { unfold AddWhitelistedLiquidator.validate. cbn. rewrite same_key by done. cbn. rewrite Hp.
    rewrite same_key, Z.eqb_refl by done. cbn.
    destruct He as [[Ho Hs] | (e & (Ho & Hb & Hi) & Hem & Hel)].
    - rewrite Ho, bool_decide_eq_false_2, same_key by done. done.
    - rewrite Ho. rewrite (bool_decide_eq_true_2 (id = id)) by done.
      unfold zero_copy. cbn. rewrite ?Ho, Hb. rewrite (bool_decide_eq_true_2 (id = id)) by done.
      rewrite Hi. cbn. rewrite !same_key by done. done. }
  by rewrite HV.
Qed.

Lemma remove_whitelisted_agrees A k m l e :
  known A k m -> curator (config m) = authority -> entry_of A k l e ->
  roles (Ix.RemoveWhitelistedLiquidator l) (present A <$>
    [meta k false; meta_ro authority true; meta (entry_key k l) false; meta_ro id false])
  = Ok [k; authority; entry_key k l].
Proof.
  accepted meta RemoveWhitelistedLiquidator.from_accounts RemoveWhitelistedLiquidator.validate.
Qed.

(** The liquidator's entry is read only when the market has a whitelist. *)
Lemma read_entry A k l e r :
  entry_of A k l e -> entry_key k l <> id ->
  Liquidate.next_entry (present A (entry_key k l, false, false) :: r)
  = (Ok (mkAccount (entry_key k l) false e), r).
Proof.
  intros ((Ho & Hb & Hi) & _ & _) Hne. unfold Liquidate.next_entry.
  erewrite bind_run by reflexivity. erewrite bind_run; cycle 1.
  { unfold st_lift, present. cbn [ai_key]. rewrite bool_decide_eq_false_2 by done. reflexivity. }
  unfold st_lift, zero_copy, present. cbn.
  by rewrite Ho, bool_decide_eq_true_2, Hb, Hi.
Qed.

Lemma liquidate_agrees A k m p x y c d entry ks :
  known A k m -> some_borrow A k p -> token A (ata (supply_mint m)) (supply_mint m) ->
  token A (ata (collateral_mint m)) (collateral_mint m) ->
  (liquidations_are_permissionless (config m) = true /\ entry = None /\ ks = []) \/
  (liquidations_are_permissionless (config m) = false /\
   entry = Some (entry_key k authority) /\ ks = [entry_key k authority] /\
   exists e, entry_of A k authority e /\ is_active e = true /\ entry_key k authority <> id) ->
  roles (Ix.Liquidate d) (present A <$> ix_accounts
    (Ixs.liquidate_ix id k p authority (ata (supply_mint m)) (ata (collateral_mint m))
       (supply_vault_key m) (collateral_vault_key m) (supply_oracle_of m)
       (collateral_oracle_of m) x y entry c))
  = Ok ([k; p; authority; ata (supply_mint m); ata (collateral_mint m); supply_vault_key m;
         collateral_vault_key m; supply_oracle_of m; collateral_oracle_of m] ++ ks).
Proof.
  intros Hk Hp Hs Hc He. open_request.
  unfold Ixs.liquidate_ix, meta, meta_ro, roles, parse, Liquidate.from_accounts.
  destruct He as [(Hpl & -> & ->) | (Hpl & -> & -> & e & He & Ha & Hne)];
    cbn [ix_accounts fmap list_fmap app]; read_accounts; cbn [value];
    rewrite Hpl; cbn [negb].
  - erewrite bind_run; [| reflexivity].
    match goal with |- context [st_lift ?V] => assert (HV : V = Ok tt) end.
    { unfold Liquidate.validate. pass. by rewrite Hpl. }
    by rewrite HV.
  - erewrite bind_run; cycle 1.
    { erewrite bind_run; [| by apply read_entry]. reflexivity. }
    destruct He as (_ & Hem & Hel).
    match goal with |- context [st_lift ?V] => assert (HV : V = Ok tt) end.
    { unfold Liquidate.validate. pass. rewrite Hpl. cbn. rewrite ?same_key by same. by rewrite Ha. }
    by rewrite HV.
Qed.

(** ** The transaction of a request *)

Definition callback_of (ix : AurataInstruction) : option Instruction :=
  match ix with
  | Ix.Liquidate d => lq_ix_callback d
  | Ix.BorrowDepositApl d => bd_ix_callback d
  | Ix.WithdrawRepayApl d => wr_ix_callback d
  | _ => None
  end.

(** The user signs, and nobody else but for the callback. *)
Definition signed_by_user (ix : AurataInstruction) (m : Pubkey * bool * bool) : Prop :=
  snd (fst m) = true -> fst (fst m) = authority \/ m ∈ Ixs.callback_accounts (callback_of ix).

(** What the program needs of the last instruction of a transaction. *)
Definition asks (A : Store) (ix : AurataInstruction) (ks : list Pubkey) (i : Instruction) : Prop :=
  ix_program_id i = id /\ ix_data i = serialize ix /\
  roles ix (present A <$> ix_accounts i) = Ok ks /\ Forall (signed_by_user ix) (ix_accounts i).

Lemma callback_signed ix : Forall (signed_by_user ix) (Ixs.callback_accounts (callback_of ix)).
Proof. apply Forall_forall. intros m Hm _. right. by apply list_elem_of_In. Qed.

Ltac signers :=
  repeat match goal with
  | |- Forall _ (_ ++ _) => apply Forall_app; split
  | |- Forall _ (_ :: _) => apply Forall_cons; [intros Hs; (discriminate Hs || by left) |]
  | |- Forall _ [] => apply Forall_nil
  end; try apply (callback_signed (Ix.BorrowDepositApl _)); try apply (callback_signed (Ix.WithdrawRepayApl _)).

(** The last of a list of instructions. *)
Ltac split_last :=
  first [ refine (eq_refl (Ok ([] ++ [_]))) | refine (eq_refl (Ok ([_] ++ [_])))
        | refine (eq_refl (Ok ([_; _] ++ [_])))
        | refine (f_equal Ok (app_assoc _ [_] [_])) | refine (f_equal Ok (app_assoc _ _ [_])) ].

(** Builds the transaction of a request on a market that the client knows. *)
Ltac position :=
  repeat match goal with
  | H : my_supply ?A ?k ?p |- context [get_supply_position ?k authority] =>
    let E := fresh in destruct (get_supply_position k authority) as [? ?] eqn:E;
    let X := fresh in pose proof (proj1 H) as X; rewrite E in X; cbn in X; subst p
  | H : my_borrow ?A ?k ?p |- context [get_borrow_position ?k authority] =>
    let E := fresh in destruct (get_borrow_position k authority) as [? ?] eqn:E;
    let X := fresh in pose proof (proj1 H) as X; rewrite E in X; cbn in X; subst p
  end.

Tactic Notation "build_known" reference(tx) :=
  match goal with
  | H : known ?A ?k ?m |- _ =>
    let m' := fresh "m'" in
    destruct (known_read A k m H) as (m' & Hf & Ho & E1 & E2 & E3 & E4 & E5);
    cbn [build]; unfold tx, Tx.token_address, supply_token_info, collateral_token_info;
    rewrite Hf; cbn [res_bind ti_mint]; position;
    rewrite ?Ho, ?E1, ?E2, ?E3, ?E4, ?E5; cbn [res_bind]; eexists _, _; split; [split_last |]
  end.

Tactic Notation "answers" reference(ix) constr(lem) :=
  split_and!;
  [ done | match goal with |- context [match ?n with _ => _ end] => by destruct n | _ => done end
  | by apply lem | unfold ix, meta, meta_ro; cbn [ix_accounts]; signers ].

Ltac answer := split_and!; [done | done | | unfold meta, meta_ro; cbn [ix_accounts]; signers].

Lemma update_config_built A k m g d :
  known A k m -> curator (config m) = authority ->
  holds A global_config_of_bytes global_config_key g ->
  exists pre i, build (RUpdateConfig k d) = Ok (pre ++ [i]) /\
    asks A (Ix.UpdateConfig d)
      [k; global_config_key; authority;
       from_option oracle_of (supply_oracle_of m) (uc_supply_oracle_config d);
       from_option oracle_of (collateral_oracle_of m) (uc_collateral_oracle_config d)] i.
Proof.
  intros Hk Hc Hg. destruct (known_read A k m Hk) as (m' & Hf & Ho & _).
  cbn [build]. unfold Tx.update_config. rewrite Hf. cbn [res_bind]. rewrite Ho. cbn [res_bind].
  unfold Ixs.update_config_ix. rewrite !updated_oracle_ok. cbn [res_bind].
  eexists _, _. split; [split_last |]. answer. by eapply update_config_agrees.
Qed.

Lemma global_config_built A d g :
  holds A global_config_of_bytes global_config_key g ->
  can_update_config g authority || can_upgrade_nomination g authority = true ->
  exists pre i, build (RUpdateGlobalConfig d) = Ok (pre ++ [i]) /\
    asks A (Ix.UpdateGlobalConfig d) [authority; global_config_key] i.
Proof.
  intros Hg Hc. cbn [build]. unfold Tx.update_global_config, Ixs.update_global_config_ix.
  destruct (find_global_config_pda id) as [gk gb] eqn:Eg.
  assert (gk = global_config_key) as -> by (unfold global_config_key; by rewrite Eg).
  eexists _, _. split; [split_last |]. answer. by eapply update_global_config_agrees.
Qed.

Lemma liquidate_signed p k so co ks c x y e d :
  callback_of d = c ->
  Forall (signed_by_user d) (ix_accounts
    (Ixs.liquidate_ix id k p authority (ata (supply_mint ks)) (ata (collateral_mint ks))
       (supply_vault_key ks) (collateral_vault_key ks) so co x y e c)).
Proof.
  intros <-. unfold Ixs.liquidate_ix, meta, meta_ro. cbn [ix_accounts]. signers.
  - destruct e; signers.
  - pose proof (callback_signed d) as H. destruct (callback_of d); [| apply Forall_nil]. signers.
    exact H.
Qed.

Lemma liquidate_built A k m p x y c entry ks :
  known A k m -> some_borrow A k p -> token A (ata (supply_mint m)) (supply_mint m) ->
  token A (ata (collateral_mint m)) (collateral_mint m) ->
  (if negb (liquidations_are_permissionless (config m)) then Some (entry_key k authority) else None)
    = entry ->
  (liquidations_are_permissionless (config m) = true /\ entry = None /\ ks = []) \/
  (liquidations_are_permissionless (config m) = false /\
   entry = Some (entry_key k authority) /\ ks = [entry_key k authority] /\
   exists e, entry_of A k authority e /\ is_active e = true /\ entry_key k authority <> id) ->
  exists pre i, build (RLiquidate k p x y c) = Ok (pre ++ [i]) /\
    asks A (Ix.Liquidate (mkLiquidate (default U64_MAX x) (default 0 y) c))
      ([k; p; authority; ata (supply_mint m); ata (collateral_mint m); supply_vault_key m;
        collateral_vault_key m; supply_oracle_of m; collateral_oracle_of m] ++ ks) i.
Proof.
  intros Hk Hp Hs Hc He H. build_known Tx.liquidate.
  change (fst (find_liquidator_whitelist_entry_pda id k authority)) with (entry_key k authority).
  rewrite He. split_and!; [done | done | by apply liquidate_agrees | by apply liquidate_signed].
Qed.

Lemma build_agrees A r ix ks :
  requested A r ix ks -> exists pre i, build r = Ok (pre ++ [i]) /\ asks A ix ks i.
Proof.
  intros [].
  - cbn [build]. unfold Tx.create_market, Ixs.create_market_ix. rewrite H. cbn [res_bind].
    eexists _, _. split; [split_last |].
    answer. by eapply create_market_agrees.
  - cbn [build]. unfold Tx.create_global_config, Ixs.create_global_config_ix. rewrite H.
    eexists _, _. split; [split_last |].
    answer. apply create_global_config_agrees.
  - build_known Tx.supply. answers Ixs.supply_apl_ix supply_agrees.
  - build_known Tx.deposit_collateral. answers Ixs.deposit_apl_collateral_ix deposit_agrees.
  - build_known Tx.borrow. answers Ixs.borrow_apl_ix borrow_agrees.
  - build_known Tx.repay. answers Ixs.repay_apl_ix repay_agrees.
  - build_known Tx.withdraw_supply. answers Ixs.withdraw_supply_ix withdraw_supply_agrees.
  - build_known Tx.withdraw_collateral. answers Ixs.withdraw_apl_collateral_ix withdraw_collateral_agrees.
  - by eapply update_config_built.
  - cbn [build]. unfold Tx.add_whitelisted_liquidator, Ixs.add_whitelisted_liquidator_ix. rewrite H1.
    eexists _, _. split; [split_last |].
    answer. by eapply add_whitelisted_agrees.
  - cbn [build]. unfold Tx.remove_whitelisted_liquidator, Ixs.remove_whitelisted_liquidator_ix.
    destruct (find_liquidator_whitelist_entry_pda id k l) as [ek eb] eqn:Ee.
    assert (ek = entry_key k l) as -> by (unfold entry_key; by rewrite Ee).
    eexists _, _. split; [split_last |].
    answer. by eapply remove_whitelisted_agrees.
  - eapply (liquidate_built A k m p x y c None []); [done.. | by rewrite H3 | left; done].
  - eapply (liquidate_built A k m p x y c (Some (entry_key k authority)) [entry_key k authority]);
      [done.. | by rewrite H3 | right; split_and!; [done.. | by exists e]].
  - build_known Tx.begin_capital_sweep. answers Ixs.begin_capital_sweep_ix begin_sweep_agrees.
  - build_known Tx.settle_capital_sweep. answers Ixs.settle_capital_sweep_ix settle_sweep_agrees.
  - build_known Tx.redeem_curator_fees. answers Ixs.reedeem_curator_fees_ix curator_fees_agrees.
  - build_known Tx.redeem_protocol_fees. split_and!; [| | by eapply protocol_fees_agrees |];
      unfold Ixs.reedeem_protocol_fees_ix; destruct (find_global_config_pda id); [done | done |].
    unfold meta, meta_ro. cbn [ix_accounts]. signers.
  - by eapply global_config_built.
  - build_known Tx.borrow_deposit. answers Ixs.borrow_deposit_apl_ix borrow_deposit_agrees.
  - build_known Tx.withdraw_repay. answers Ixs.withdraw_repay_apl_ix withdraw_repay_agrees.
  - build_known Tx.socialize_loss. answers Ixs.socialize_loss_ix socialize_agrees.
  - build_known Tx.donate_supply. answers Ixs.donate_supply_ix donate_agrees.
Qed.

(** A leveraged deposit prepares the token account of the supply and, when it is missing, the
    position; the token account of the collateral, which it also needs, has to be there. *)
Lemma borrow_deposit_prepares_only_supply A k m d :
  known A k m ->
  exists pre i, build (RBorrowDeposit k d) = Ok (pre ++ [i]) /\
    Forall (fun j => j = Tx.ensure_ata_ix authority (supply_mint m) \/
                     j = snd (Ixs.create_borrow_position_ix id k authority authority)) pre.
Proof.
  intros H. destruct (known_read A k m H) as (m' & Hf & Ho & E1 & E2 & E3 & E4 & E5).
  cbn [build]. unfold Tx.borrow_deposit. rewrite Hf. cbn [res_bind].
  destruct (get_borrow_position k authority) as [p o]. rewrite Ho, E1. cbn [res_bind].
  eexists _, _. split; [split_last |]. apply Forall_app. split; [destruct o |]; auto.
Qed.

Context {BOL : BorshLaws BO}.

Lemma request_accepted A r ix ks :
  requested A r ix ks -> ix_typed ix ->
  exists pre i, build r = Ok (pre ++ [i]) /\ ix_program_id i = id /\
    deserialize (ix_data i) = Some (ix, []) /\
    roles ix (present A <$> ix_accounts i) = Ok ks /\
    Forall (signed_by_user ix) (ix_accounts i).
Proof.
  intros H Ht. destruct (build_agrees A r ix ks H) as (pre & i & Hb & Hp & Hd & Hr & Hs).
  exists pre, i. rewrite Hd. split_and!; try done.
  pose proof (deserialize_serialize ix [] Ht) as E. by rewrite app_nil_r in E.
Qed.

(** The client and the program agree on every request.  When the accounts of the chain
    are such that the user may ask for it, the transaction that the client builds ends with
    an instruction for the program that decodes to the request, whose accounts pass all the
    checks of the program, each in the role that the request means (market, position,
    authority, token accounts, vaults, oracles, whitelist entry), and that nobody but the
    user needs to sign, the accounts of a callback apart. *)
Theorem client_requests_are_accepted A r ix ks :
  requested A r ix ks -> ix_typed ix ->
  exists pre i, build r = Ok (pre ++ [i]) /\ ix_program_id i = id /\
    deserialize (ix_data i) = Some (ix, []) /\
    roles ix (present A <$> ix_accounts i) = Ok ks /\
    Forall (signed_by_user ix) (ix_accounts i).
Proof. apply request_accepted. Qed.

End Agreement.
