(* ===== verification/Idl.v ===== *)
(** * The account of the interface description

    [programs/autara-program/src/processor/idl.rs]: the program keeps a description of its
    interface in an account of its own, behind a header of a discriminator, an authority and
    a length.  The authority writes it in pieces, directly or through a buffer account. *)
From Stdlib Require String.
From S2P Require Import Prelude.
From S2P Require Import Errors.
From S2P Require Import Monad.
From S2P Require Import Bytes.
From S2P Require Import Pda.
From S2P Require Import ProgramErrors.
From S2P Require Import Accounts.
From S2P Require Import Borsh.
Import String.StringSyntax.
#[local] Open Scope string_scope.
#[local] Open Scope Z_scope.

Definition IDL_IX_TAG_LE : list Z := [0x40; 0xf4; 0xbc; 0x78; 0xa7; 0xe9; 0x69; 0x0a].
Definition IDL_ACCOUNT_DISCRIMINATOR : list Z :=
  [0x18; 0x46; 0x62; 0xbf; 0x3a; 0x90; 0x7b; 0x9e].
Definition IDL_SEED : list Z := bytes_of "anchor:idl".
Definition DISCRIMINATOR_LEN : nat := 8.
Definition AUTHORITY_OFFSET : nat := DISCRIMINATOR_LEN.
Definition DATA_LEN_OFFSET : nat := DISCRIMINATOR_LEN + 32.
Definition HEADER_LEN : nat := DISCRIMINATOR_LEN + 32 + 4.
Definition MAX_SPACE_PER_OP : Z := 10000.
Definition ERASED_AUTHORITY : Pubkey := replicate 32 0.

Inductive IdlInstruction : Type :=
| Create (data_len : Z)
| CreateBuffer
| Write (data : list Z)
| SetBuffer
| SetAuthority (new_authority : list Z)
| Close
| Resize (data_len : Z).

Definition is_idl_instruction (instruction_data : list Z) : bool :=
  bool_decide (IDL_IX_TAG_LE `prefix_of` instruction_data).

(** An account with its balance. *)
Record Acc : Type := mkAcc { info : AccountInfo; lamports : Z }.

(** What an instruction leaves: accounts with new contents, and new balances. *)
Record IdlEffect : Type := mkIdlEffect {
  ie_accounts : list AccountInfo;
  ie_lamports : list (Pubkey * Z) }.

(** [Pubkey::create_with_seed] *)
Class SeedCrate : Type := create_with_seed : Pubkey -> list Z -> Pubkey -> option Pubkey.

(** Result of a handler on the accounts that are left. *)
Notation IdlRes := (Result ProgramError).

(** [data[off..off + bs.len()].copy_from_slice(bs)] *)
Definition write_at (off : nat) (bs l : list Z) : list Z :=
  take off l ++ bs ++ drop (off + length bs) l.

Definition read_data_len (data : list Z) : nat :=
  Z.to_nat (le_val (slice DATA_LEN_OFFSET 4 data)).

(** [len as u32] keeps the low four bytes. *)
Definition write_data_len (len : nat) (data : list Z) : list Z :=
  write_at DATA_LEN_OFFSET (le_bytes 4 (Z.of_nat len)) data.

(** The header of a new account: discriminator, authority, no data. *)
Definition init_header (authority : Pubkey) (data : list Z) : list Z :=
  write_data_len 0 (write_at AUTHORITY_OFFSET authority
                      (write_at 0 IDL_ACCOUNT_DISCRIMINATOR data)).

Definition next (iter : list Acc) : IdlRes (Acc * list Acc) :=
  match iter with
  | [] => Err NotEnoughAccountKeys
  | a :: iter => Ok (a, iter)
  end.

Definition fail_if (b : bool) (e : ProgramError) : IdlRes () := if b then Err e else Ok tt.

Definition has_idl_header (data : list Z) : bool :=
  negb ((length data <? HEADER_LEN)%nat
        || negb (bool_decide (take DISCRIMINATOR_LEN data = IDL_ACCOUNT_DISCRIMINATOR))).

Section Ops.
Context {PC : PdaCrate} {SC : SeedCrate} {CH : Chain} {SY : SystemProgram}.

Definition derive_idl (program_id : Pubkey) : IdlRes (Pubkey * Pubkey * Z) :=
  let '(base, bump) := find_program_address [] program_id in
  let? idl := ok_or InvalidArgument (create_with_seed base IDL_SEED program_id) in
  Ok (idl, base, bump).

Definition check_canonical_idl (program_id : Pubkey) (idl : AccountInfo) : IdlRes () :=
  let? _ := fail_if (key_ne (ai_owner idl) program_id) IllegalOwner in
  let? (expected, _, _) := derive_idl program_id in
  let? _ := fail_if (key_ne (ai_key idl) expected) InvalidArgument in
  fail_if (negb (has_idl_header (ai_data idl))) InvalidAccountData.

Definition check_owned_idl (program_id : Pubkey) (acc : AccountInfo) : IdlRes () :=
  let? _ := fail_if (key_ne (ai_owner acc) program_id) IllegalOwner in
  fail_if (negb (has_idl_header (ai_data acc))) InvalidAccountData.

Definition check_authority (idl authority : AccountInfo) : IdlRes () :=
  let? _ := fail_if (negb (ai_is_signer authority)) MissingRequiredSignature in
  let? _ := fail_if (bool_decide (ai_key authority = ERASED_AUTHORITY)) InvalidArgument in
  fail_if (key_ne (slice AUTHORITY_OFFSET 32 (ai_data idl)) (ai_key authority)) InvalidArgument.

(** Accounts: from, to, base, system_program, program.  The build that is deployed has no
    overflow checks, so the sum of the space wraps. *)
Definition idl_create_account (program_id : Pubkey) (iter : list Acc) (data_len : Z)
  : IdlRes IdlEffect :=
  let? (from, iter) := next iter in
  let? (to, iter) := next iter in
  let? (base, iter) := next iter in
  let? (system_program, iter) := next iter in
  let? (program, iter) := next iter in
  let? _ := fail_if (key_ne (ai_key (info program)) program_id) IncorrectProgramId in
  let? _ := fail_if (negb (ai_is_signer (info from))) MissingRequiredSignature in
  let? (expected_idl, expected_base, bump) := derive_idl program_id in
  let? _ := fail_if (key_ne (ai_key (info to)) expected_idl
                     || key_ne (ai_key (info base)) expected_base) InvalidArgument in
  let space := Z.min (as_u64 (Z.of_nat HEADER_LEN + data_len)) MAX_SPACE_PER_OP in
  let? to := sys_invoke
    (Sys.create_account_with_seed (ai_key (info from)) (ai_key (info to)) (ai_key (info base))
       IDL_SEED (minimum_rent space) space program_id [[bump]]) (info to) in
  let? _ := fail_if (length (ai_data to) <? HEADER_LEN)%nat AccountDataTooSmall in
  Ok (mkIdlEffect [with_data (init_header (ai_key (info from)) (ai_data to)) to] []).

(** Accounts: buffer, authority. *)
Definition idl_create_buffer (program_id : Pubkey) (iter : list Acc) : IdlRes IdlEffect :=
  let? (buffer, iter) := next iter in
  let? (authority, iter) := next iter in
  let? _ := fail_if (key_ne (ai_owner (info buffer)) program_id) IllegalOwner in
  let? _ := fail_if (negb (ai_is_signer (info authority))
                     || bool_decide (ai_key (info authority) = ERASED_AUTHORITY))
              MissingRequiredSignature in
  let data := ai_data (info buffer) in
  let? _ := fail_if (length data <? HEADER_LEN)%nat AccountDataTooSmall in
  let? _ := fail_if (existsb (fun b => negb (b =? 0)) data) AccountAlreadyInitialized in
  Ok (mkIdlEffect [with_data (init_header (ai_key (info authority)) data) (info buffer)] []).

(** Accounts: idl, authority. *)
Definition idl_write (program_id : Pubkey) (iter : list Acc) (idl_data : list Z)
  : IdlRes IdlEffect :=
  let? (idl, iter) := next iter in
  let? (authority, iter) := next iter in
  let? _ := check_owned_idl program_id (info idl) in
  let? _ := check_authority (info idl) (info authority) in
  let data := ai_data (info idl) in
  let prev_len := read_data_len data in
  let new_len := (prev_len + length idl_data)%nat in
  let? _ := fail_if (U64_MAX <? Z.of_nat new_len) ArithmeticOverflow in
  let? _ := fail_if (length data <? HEADER_LEN + new_len)%nat AccountDataTooSmall in
  Ok (mkIdlEffect
        [with_data (write_data_len new_len (write_at (HEADER_LEN + prev_len) idl_data data))
           (info idl)] []).

(** Accounts: buffer, idl, authority.  The buffer stays borrowed while the other account is
    written, and its contents are sliced by the length it claims. *)
Definition idl_set_buffer (program_id : Pubkey) (iter : list Acc) : IdlRes IdlEffect :=
  let? (buffer, iter) := next iter in
  let? (idl, iter) := next iter in
  let? (authority, iter) := next iter in
  let? _ := check_owned_idl program_id (info buffer) in
  let? _ := check_canonical_idl program_id (info idl) in
  let? _ := check_authority (info idl) (info authority) in
  let buffer_data := ai_data (info buffer) in
  let idl_data := ai_data (info idl) in
  let? _ := fail_if (key_ne (slice AUTHORITY_OFFSET 32 buffer_data)
                       (slice AUTHORITY_OFFSET 32 idl_data)) InvalidArgument in
  let buffer_len := read_data_len buffer_data in
  let? _ := fail_if (bool_decide (ai_key (info buffer) = ai_key (info idl)))
              AccountBorrowFailed in
  let? _ := fail_if (length idl_data <? HEADER_LEN + buffer_len)%nat AccountDataTooSmall in
  if (length buffer_data <? HEADER_LEN + buffer_len)%nat then Panic
  else
    Ok (mkIdlEffect
          [with_data (write_data_len buffer_len
                        (write_at HEADER_LEN (slice HEADER_LEN buffer_len buffer_data) idl_data))
             (info idl)] []).

(** Accounts: idl, authority. *)
Definition idl_set_authority (program_id : Pubkey) (iter : list Acc) (new_authority : list Z)
  : IdlRes IdlEffect :=
  let? (idl, iter) := next iter in
  let? (authority, iter) := next iter in
  let? _ := check_owned_idl program_id (info idl) in
  let? _ := check_authority (info idl) (info authority) in
  Ok (mkIdlEffect
        [with_data (write_at AUTHORITY_OFFSET new_authority (ai_data (info idl))) (info idl)] []).

(** Accounts: idl, authority, system_program. *)
Definition idl_resize_account (program_id : Pubkey) (iter : list Acc) (data_len : Z)
  : IdlRes IdlEffect :=
  let? (idl, iter) := next iter in
  let? (authority, iter) := next iter in
  let? (system_program, iter) := next iter in
  let? _ := check_canonical_idl program_id (info idl) in
  let? _ := check_authority (info idl) (info authority) in
  let? _ := fail_if (negb (read_data_len (ai_data (info idl)) =? 0)%nat)
              AccountAlreadyInitialized in
  let current_space := Z.of_nat (length (ai_data (info idl))) in
  let growth := Z.min (Z.max 0 (data_len - current_space)) MAX_SPACE_PER_OP in
  let new_space := current_space + growth in
  let? _ := fail_if (U64_MAX <? new_space) ArithmeticOverflow in
  if current_space <? new_space then
    let topup := Z.max 0 (minimum_rent new_space - lamports idl) in
    let? idl :=
      (if 0 <? topup
       then sys_invoke (Sys.transfer (ai_key (info authority)) (ai_key (info idl)) topup) (info idl)
       else Ok (info idl)) in
    Ok (mkIdlEffect [realloc (Z.to_nat new_space) idl] [])
  else Ok (mkIdlEffect [] []).

(** Accounts: account, authority, destination. *)
Definition idl_close_account (program_id : Pubkey) (iter : list Acc) : IdlRes IdlEffect :=
  let? (account, iter) := next iter in
  let? (authority, iter) := next iter in
  let? (destination, iter) := next iter in
  let? _ := check_owned_idl program_id (info account) in
  let? _ := check_authority (info account) (info authority) in
  let? _ := fail_if (bool_decide (ai_key (info account) = ai_key (info destination)))
              AccountBorrowFailed in
  let total := lamports destination + lamports account in
  let? _ := fail_if (U64_MAX <? total) ArithmeticOverflow in
  Ok (mkIdlEffect
        [mkAccountInfo (ai_key (info account)) SYSTEM_PROGRAM_ID (ai_is_signer (info account))
           (ai_is_writable (info account)) []]
        [(ai_key (info destination), total); (ai_key (info account), 0)]).

Context {BO : BorshCrate}.

(** [derive] on [IdlInstruction]. *)
Definition c_idl_decode (l : list Z) : option (IdlInstruction * list Z) :=
  let* (n, l) := decode borsh_u8 l in
  match n with
  | 0 => let* (x, l) := decode borsh_u64 l in Some (Create x, l)
  | 1 => Some (CreateBuffer, l)
  | 2 => let* (x, l) := decode (borsh_vec borsh_u8) l in Some (Write x, l)
  | 3 => Some (SetBuffer, l)
  | 4 => let* (x, l) := decode (borsh_array 32 borsh_u8) l in Some (SetAuthority x, l)
  | 5 => Some (Close, l)
  | 6 => let* (x, l) := decode borsh_u64 l in Some (Resize x, l)
  | _ => None
  end.

(** [IdlInstruction::try_from_slice]: nothing may be left. *)
Definition idl_try_from_slice (data : list Z) : option IdlInstruction :=
  match c_idl_decode data with
  | Some (ix, []) => Some ix
  | _ => None
  end.

Definition run_idl (program_id : Pubkey) (iter : list Acc) (ix : IdlInstruction)
  : IdlRes IdlEffect :=
  match ix with
  | Create data_len => idl_create_account program_id iter data_len
  | CreateBuffer => idl_create_buffer program_id iter
  | Write data => idl_write program_id iter data
  | SetBuffer => idl_set_buffer program_id iter
  | SetAuthority new_authority => idl_set_authority program_id iter new_authority
  | Resize data_len => idl_resize_account program_id iter data_len
  | Close => idl_close_account program_id iter
  end.

Definition process_idl_instruction (program_id : Pubkey) (accounts : list Acc) (data : list Z)
  : Result LendingProgramErrorKind IdlEffect :=
  res_from KProgramError
    (let? ix := ok_or InvalidInstructionData (idl_try_from_slice data) in
     run_idl program_id accounts ix).

End Ops.
