(* ===== verification/IdlFacts.v ===== *)
(** * Facts about the account of the interface description

    The bytes of the account implement an authority with a growing text, and no instruction
    of this protocol touches an account that does not carry its header. *)
From stdpp Require Import sets.
From S2P Require Import Prelude.
From S2P Require Import Errors.
From S2P Require Import Monad.
From S2P Require Import Bytes.
From S2P Require Import Pda.
From S2P Require Import MarketConfig.
From S2P Require Import Market.
From S2P Require Import ProgramErrors.
From S2P Require Import Accounts.
From S2P Require Import Borsh.
From S2P Require Import Idl.

(** ** Writing into bytes *)

Lemma length_write_at off bs l :
  (off + length bs <= length l)%nat -> length (write_at off bs l) = length l.
Proof. intros H. unfold write_at. rewrite !length_app, length_take, length_drop. lia. Qed.

Lemma slice_write_same off n bs l :
  length bs = n -> (off <= length l)%nat -> slice off n (write_at off bs l) = bs.
Proof.
  intros <- H. unfold write_at. apply slice_exact; [| done]. rewrite length_take. lia.
Qed.

Lemma slice_write_before a n off bs l :
  (a + n <= off)%nat -> (off <= length l)%nat ->
  slice a n (write_at off bs l) = slice a n l.
Proof.
  intros H Ho. unfold write_at. rewrite slice_app_l by (rewrite length_take; lia).
  unfold slice. by rewrite skipn_firstn_comm, take_take, Nat.min_l by lia.
Qed.

Lemma slice_write_after a n off bs l :
  (off + length bs <= a)%nat -> (off + length bs <= length l)%nat ->
  slice a n (write_at off bs l) = slice a n l.
Proof.
  intros H Ho. unfold write_at.
  rewrite !slice_app_r by (rewrite ?length_take; lia). rewrite length_take.
  unfold slice. rewrite drop_drop. do 2 f_equal. lia.
Qed.

Lemma slice_app_split a n m l :
  (a + n + m <= length l)%nat -> slice a (n + m) l = slice a n l ++ slice (a + n) m l.
Proof.
  intros H. unfold slice. rewrite <- drop_drop.
  rewrite <- (take_drop n (take (n + m) (drop a l))) at 1.
  rewrite take_take, Nat.min_l, skipn_firstn_comm by lia. do 2 f_equal. lia.
Qed.

(** ** What the bytes mean *)

(** An account with a header: who may change it, the text so far, and the room for it. *)
Record IdlView : Type := mkView {
  iv_authority : Pubkey;
  iv_text : list Z;
  iv_room : nat }.

Definition view_of (l : list Z) : IdlView :=
  mkView (slice AUTHORITY_OFFSET 32 l) (slice HEADER_LEN (read_data_len l) l)
    (length l - HEADER_LEN).

(** The length in the header is that of a text in the account, and fits its four bytes. *)
Definition idl_ok (l : list Z) : Prop :=
  has_idl_header l = true /\ (HEADER_LEN + read_data_len l <= length l)%nat /\
  Z.of_nat (length l) < 2 ^ 32.

Lemma has_header_spec l :
  has_idl_header l = true <->
  (HEADER_LEN <= length l)%nat /\ slice 0 8 l = IDL_ACCOUNT_DISCRIMINATOR.
Proof.
  unfold has_idl_header. rewrite negb_true_iff, orb_false_iff, negb_false_iff,
    bool_decide_eq_true, Nat.ltb_ge. unfold slice. rewrite drop_0. done.
Qed.

Lemma read_write_len n l :
  (HEADER_LEN <= length l)%nat -> Z.of_nat n < 2 ^ 32 ->
  read_data_len (write_data_len n l) = n.
Proof.
  intros Hl Hn. unfold read_data_len, write_data_len.
  rewrite slice_write_same by (rewrite ?length_le_bytes; unfold HEADER_LEN, DATA_LEN_OFFSET, DISCRIMINATOR_LEN in *; lia).
  rewrite le_val_unsigned by (simpl; lia). lia.
Qed.

Lemma length_write_len n l :
  (HEADER_LEN <= length l)%nat -> length (write_data_len n l) = length l.
Proof.
  intros Hl. apply length_write_at. rewrite length_le_bytes.
  unfold HEADER_LEN, DATA_LEN_OFFSET, DISCRIMINATOR_LEN in *. lia.
Qed.

(** Sizes of the header. *)
Ltac header := unfold HEADER_LEN, DATA_LEN_OFFSET, AUTHORITY_OFFSET, DISCRIMINATOR_LEN in *;
  rewrite ?length_le_bytes; simpl length in *; lia.

(** Setting the length keeps the rest. *)
Lemma write_len_slice a m n l :
  (HEADER_LEN <= length l)%nat -> (a + m <= DATA_LEN_OFFSET \/ HEADER_LEN <= a)%nat ->
  slice a m (write_data_len n l) = slice a m l.
Proof.
  intros Hl [H | H]; [apply slice_write_before; header |].
  apply slice_write_after; header.
Qed.

(** The meaning of bytes from their parts. *)
Lemma view_intro k t r l :
  slice 0 8 l = IDL_ACCOUNT_DISCRIMINATOR -> slice AUTHORITY_OFFSET 32 l = k ->
  read_data_len l = length t -> (HEADER_LEN + length t <= length l)%nat ->
  Z.of_nat (length l) < 2 ^ 32 -> slice HEADER_LEN (length t) l = t ->
  (length l - HEADER_LEN)%nat = r -> idl_ok l /\ view_of l = mkView k t r.
Proof.
  intros Hd Hk Hn Hl Hm Ht <-. unfold idl_ok, view_of. rewrite has_header_spec, Hn, Hk, Ht.
  split; [| done]. split_and!; [lia | done | done | done].
Qed.

Lemma ok_parts l :
  idl_ok l -> slice 0 8 l = IDL_ACCOUNT_DISCRIMINATOR /\ (HEADER_LEN <= length l)%nat /\
  (HEADER_LEN + read_data_len l <= length l)%nat /\ Z.of_nat (length l) < 2 ^ 32.
Proof. intros (H & ? & ?). apply has_header_spec in H as [? ?]. done. Qed.

Lemma length_text l : idl_ok l -> length (iv_text (view_of l)) = read_data_len l.
Proof. intros (_ & H & _). simpl. apply length_slice. lia. Qed.

Lemma init_view k l :
  (HEADER_LEN <= length l)%nat -> Z.of_nat (length l) < 2 ^ 32 -> length k = 32%nat ->
  idl_ok (init_header k l) /\ view_of (init_header k l) = mkView k [] (length l - HEADER_LEN).
Proof.
  intros Hl Hm Hk. unfold init_header.
  set (l1 := write_at 0 IDL_ACCOUNT_DISCRIMINATOR l).
  set (l2 := write_at AUTHORITY_OFFSET k l1).
  assert (H1 : length l1 = length l) by (apply length_write_at; header).
  assert (H2 : length l2 = length l)
    by (unfold l2; rewrite length_write_at, H1; [done | rewrite H1, Hk; header]).
  assert (H3 : length (write_data_len 0 l2) = length l) by (rewrite length_write_len; lia).
  apply view_intro.
  - rewrite write_len_slice by (rewrite ?H2; header).
    unfold l2. rewrite slice_write_before by (rewrite ?H1; header).
    apply slice_write_same; [done | header].
  - rewrite write_len_slice by (rewrite ?H2; header).
    apply slice_write_same; [done | rewrite H1; header].
  - rewrite read_write_len by (rewrite ?H2; lia). done.
  - rewrite H3. header.
  - lia.
  - done.
  - by rewrite H3.
Qed.

(** A text written over the old one, from an offset into it. *)
Lemma text_view l n t :
  idl_ok l -> (n <= read_data_len l)%nat -> (HEADER_LEN + n + length t <= length l)%nat ->
  let l' := write_data_len (n + length t) (write_at (HEADER_LEN + n) t l) in
  idl_ok l' /\
  view_of l' = mkView (iv_authority (view_of l)) (take n (iv_text (view_of l)) ++ t)
                 (iv_room (view_of l)).
Proof.
  intros Hok Hn Hfit l'. destruct (ok_parts l Hok) as (Hd & Hh & Hr & Hm).
  set (l1 := write_at (HEADER_LEN + n) t l).
  assert (H1 : length l1 = length l) by (apply length_write_at; lia).
  assert (H2 : length l' = length l) by (unfold l'; fold l1; rewrite length_write_len; lia).
  assert (Ht : length (take n (iv_text (view_of l)) ++ t) = (n + length t)%nat)
    by (rewrite length_app, length_take, length_text by done; lia).
  apply view_intro.
  - unfold l'. fold l1. rewrite write_len_slice by (rewrite ?H1; header).
    unfold l1. by rewrite slice_write_before by header.
  - unfold l'. fold l1. rewrite write_len_slice by (rewrite ?H1; header).
    unfold l1. by rewrite slice_write_before by header.
  - rewrite Ht. apply read_write_len; fold l1; lia.
  - lia.
  - lia.
  - rewrite Ht. unfold l'. fold l1. rewrite write_len_slice by (lia || (right; lia)).
    rewrite slice_app_split by lia. f_equal.
    + unfold l1. rewrite slice_write_before by lia. simpl. unfold slice.
      by rewrite take_take, Nat.min_l by lia.
    + apply slice_write_same; [done | lia].
  - by rewrite H2.
Qed.

Lemma authority_view l k :
  idl_ok l -> length k = 32%nat ->
  idl_ok (write_at AUTHORITY_OFFSET k l) /\
  view_of (write_at AUTHORITY_OFFSET k l)
    = mkView k (iv_text (view_of l)) (iv_room (view_of l)).
Proof.
  intros Hok Hk. destruct (ok_parts l Hok) as (Hd & Hh & Hr & Hm).
  assert (H1 : length (write_at AUTHORITY_OFFSET k l) = length l)
    by (apply length_write_at; header).
  assert (Hn : read_data_len (write_at AUTHORITY_OFFSET k l) = read_data_len l)
    by (unfold read_data_len; by rewrite slice_write_after by header).
  apply view_intro.
  - by rewrite slice_write_before by header.
  - apply slice_write_same; [done | header].
  - by rewrite Hn, length_text.
  - rewrite length_text by done. lia.
  - lia.
  - rewrite length_text by done. rewrite slice_write_after by header. done.
  - by rewrite H1.
Qed.

Lemma realloc_view n l :
  idl_ok l -> read_data_len l = 0%nat -> (length l <= n)%nat -> Z.of_nat n < 2 ^ 32 ->
  let l' := take n l ++ replicate (n - length l) 0 in
  idl_ok l' /\ view_of l' = mkView (iv_authority (view_of l)) [] (n - HEADER_LEN).
Proof.
  intros Hok H0 Hn Hm l'. destruct (ok_parts l Hok) as (Hd & Hh & Hr & _).
  unfold l'. rewrite take_ge by lia.
  assert (H1 : length (l ++ replicate (n - length l) 0) = n)
    by (rewrite length_app, length_replicate; lia).
  apply view_intro.
  - by rewrite slice_app_l by header.
  - by rewrite slice_app_l by header.
  - unfold read_data_len in *. rewrite slice_app_l by header. by rewrite H0.
  - rewrite H1. header.
  - by rewrite H1.
  - done.
  - by rewrite H1.
Qed.

(** ** The specification *)

Section Spec.
Context {PC : PdaCrate} {SC : SeedCrate} {CH : Chain}.

Definition signed (accs : list Acc) (k : Pubkey) : Prop :=
  exists a, a ∈ accs /\ ai_key (info a) = k /\ ai_is_signer (info a) = true.

(** An account of the protocol among those passed, whose authority has signed. *)
Definition writable_idl (pid : Pubkey) (accs : list Acc) (a : AccountInfo) : Prop :=
  (exists n, mkAcc a n ∈ accs) /\ ai_owner a = pid /\ has_idl_header (ai_data a) = true /\
  signed accs (iv_authority (view_of (ai_data a))) /\
  iv_authority (view_of (ai_data a)) <> ERASED_AUTHORITY.

(** [a'] is the account [a] with other bytes of the given meaning. *)
Definition becomes (a a' : AccountInfo) (v : IdlView) : Prop :=
  ai_key a' = ai_key a /\ ai_owner a' = ai_owner a /\ idl_ok (ai_data a') /\
  view_of (ai_data a') = v.

Inductive idl_spec (pid : Pubkey) (accs : list Acc) : IdlInstruction -> IdlEffect -> Prop :=
| spec_create n idl base bump from a' :
    derive_idl pid = Ok (idl, base, bump) -> signed accs from ->
    ai_key a' = idl -> ai_owner a' = pid -> idl_ok (ai_data a') ->
    view_of (ai_data a') = mkView from [] (length (ai_data a') - HEADER_LEN) ->
    Z.of_nat (length (ai_data a'))
      = Z.min (as_u64 (Z.of_nat HEADER_LEN + n)) MAX_SPACE_PER_OP ->
    idl_spec pid accs (Create n) (mkIdlEffect [a'] [])
| spec_create_buffer a m k a' :
    mkAcc a m ∈ accs -> ai_owner a = pid -> Forall (eq 0) (ai_data a) ->
    signed accs k -> k <> ERASED_AUTHORITY ->
    becomes a a' (mkView k [] (length (ai_data a) - HEADER_LEN)) ->
    idl_spec pid accs CreateBuffer (mkIdlEffect [a'] [])
| spec_write t a a' (v := view_of (ai_data a)) :
    writable_idl pid accs a -> (length (iv_text v) + length t <= iv_room v)%nat ->
    becomes a a' (mkView (iv_authority v) (iv_text v ++ t) (iv_room v)) ->
    idl_spec pid accs (Write t) (mkIdlEffect [a'] [])
| spec_set_buffer b m a a' (v := view_of (ai_data a)) (w := view_of (ai_data b)) :
    mkAcc b m ∈ accs -> idl_ok (ai_data b) -> writable_idl pid accs a ->
    iv_authority w = iv_authority v -> (length (iv_text w) <= iv_room v)%nat ->
    becomes a a' (mkView (iv_authority v) (iv_text w) (iv_room v)) ->
    idl_spec pid accs SetBuffer (mkIdlEffect [a'] [])
| spec_set_authority k a a' (v := view_of (ai_data a)) :
    writable_idl pid accs a -> becomes a a' (mkView k (iv_text v) (iv_room v)) ->
    idl_spec pid accs (SetAuthority k) (mkIdlEffect [a'] [])
| spec_resize_nothing n : idl_spec pid accs (Resize n) (mkIdlEffect [] [])
| spec_resize n r a a' (v := view_of (ai_data a)) :
    writable_idl pid accs a -> iv_text v = [] -> (iv_room v < r)%nat ->
    becomes a a' (mkView (iv_authority v) [] r) ->
    idl_spec pid accs (Resize n) (mkIdlEffect [a'] [])
| spec_close a m a' d md :
    mkAcc a m ∈ accs -> writable_idl pid accs a -> mkAcc d md ∈ accs ->
    ai_key a' = ai_key a -> ai_owner a' = SYSTEM_PROGRAM_ID -> ai_data a' = [] ->
    idl_spec pid accs Close
      (mkIdlEffect [a'] [(ai_key d, md + m); (ai_key a, 0)]).

(** What the chain passes: keys of thirty-two bytes, accounts of a bounded size, and in
    those of the protocol a text inside of the account. *)
Record acc_ok (pid : Pubkey) (a : Acc) : Prop := {
  ao_key : length (ai_key (info a)) = 32%nat;
  ao_size : Z.of_nat (length (ai_data (info a))) < 2 ^ 31;
  ao_idl : ai_owner (info a) = pid -> has_idl_header (ai_data (info a)) = true ->
    idl_ok (ai_data (info a)) }.

Definition idl_ix_ok (ix : IdlInstruction) : Prop :=
  match ix with
  | SetAuthority k => length k = 32%nat
  | Create n | Resize n => is_u64 n
  | _ => True
  end.

Lemma fail_if_ok b e u : fail_if b e = Ok u -> b = false.
Proof. by destruct b. Qed.

Lemma next_ok l a l' : next l = Ok (a, l') -> l = a :: l'.
Proof. destruct l; [done |]. by intros [= -> ->]. Qed.

Lemma check_owned_ok pid a u :
  check_owned_idl pid a = Ok u -> ai_owner a = pid /\ has_idl_header (ai_data a) = true.
Proof.
  unfold check_owned_idl. intros H. apply res_bind_ok in H as (? & H1 & H2).
  apply fail_if_ok in H1, H2. by rewrite key_ne_false in H1; apply negb_false_iff in H2.
Qed.

Lemma check_canonical_ok pid a u :
  check_canonical_idl pid a = Ok u -> ai_owner a = pid /\ has_idl_header (ai_data a) = true.
Proof.
  unfold check_canonical_idl. intros H. apply res_bind_ok in H as (? & H1 & H).
  apply res_bind_ok in H as ([[e ?] ?] & _ & H). apply res_bind_ok in H as (? & _ & H2).
  apply fail_if_ok in H1, H2. by rewrite key_ne_false in H1; apply negb_false_iff in H2.
Qed.

Lemma check_authority_ok i a u :
  check_authority i a = Ok u ->
  ai_is_signer a = true /\ ai_key a <> ERASED_AUTHORITY /\
  iv_authority (view_of (ai_data i)) = ai_key a.
Proof.
  unfold check_authority. intros H. apply res_bind_ok in H as (? & H1 & H).
  apply res_bind_ok in H as (? & H2 & H3). apply fail_if_ok in H1, H2, H3.
  apply negb_false_iff in H1. rewrite key_ne_false in H3.
  by apply bool_decide_eq_false in H2.
Qed.

(** Decomposes a handler that succeeded. *)
Ltac idl_inv :=
  repeat match goal with
  | H : res_bind _ _ = Ok _ |- _ =>
    let x := fresh "x" in let E := fresh "E" in apply res_bind_ok in H as (x & E & H)
  | H : next _ = Ok ?x |- _ => destruct x as [? ?]; apply next_ok in H; subst
  | H : derive_idl _ = Ok ?x |- _ => is_var x; destruct x as [[? ?] ?]
  | H : fail_if _ _ = Ok _ |- _ => apply fail_if_ok in H
  | H : check_owned_idl _ _ = Ok _ |- _ => apply check_owned_ok in H as [? ?]
  | H : check_canonical_idl _ _ = Ok _ |- _ => apply check_canonical_ok in H as [? ?]
  | H : check_authority _ _ = Ok _ |- _ => apply check_authority_ok in H as (? & ? & ?)
  | H : key_ne _ _ = false |- _ => apply key_ne_false in H
  | H : (_ || _) = false |- _ => apply orb_false_iff in H as [? ?]
  | H : negb _ = false |- _ => apply negb_false_iff in H
  | H : (_ <? _)%nat = false |- _ => apply Nat.ltb_ge in H
  | H : bool_decide _ = false |- _ => apply bool_decide_eq_false in H
  end.

Lemma writable_intro pid accs a b :
  a ∈ accs -> b ∈ accs -> ai_owner (info a) = pid -> has_idl_header (ai_data (info a)) = true ->
  ai_is_signer (info b) = true -> ai_key (info b) <> ERASED_AUTHORITY ->
  iv_authority (view_of (ai_data (info a))) = ai_key (info b) -> writable_idl pid accs (info a).
Proof.
  intros Ha Hb Ho Hh Hs He Hk. unfold writable_idl, signed. rewrite Hk.
  split_and!; [| done | done | by exists b | done]. exists (lamports a). by destruct a.
Qed.

Lemma acc_eta (a : Acc) (l : list Acc) : a ∈ l -> mkAcc (info a) (lamports a) ∈ l.
Proof. by destruct a. Qed.

Lemma existsb_nonzero l : existsb (fun b => negb (b =? 0)) l = false -> Forall (eq 0) l.
Proof.
  induction l as [| b l IH]; simpl; [constructor |]. rewrite orb_false_iff, negb_false_iff, Z.eqb_eq.
  intros [-> H]. constructor; [done | by apply IH].
Qed.

Context {SY : SystemProgram} {SL : SystemLaws SY}.

Lemma create_spec pid accs n eff :
  Forall (acc_ok pid) accs -> idl_create_account pid accs n = Ok eff ->
  idl_spec pid accs (Create n) eff.
Proof.
  intros Hok H. unfold idl_create_account in H. idl_inv.
  injection H as <-.
  apply Forall_cons_1 in Hok as [Hf _].
  match goal with E : sys_invoke _ _ = Ok ?t |- _ =>
    apply create_with_seed_zeroes in E as (Hk & Ho & Hd); rename t into to' end.
  set (space := Z.min _ _) in *.
  assert (Hlen : length (ai_data to') = Z.to_nat space) by (by rewrite Hd, length_replicate).
  assert (Hsp : space <= MAX_SPACE_PER_OP) by (unfold space; lia).
  assert (Hsp0 : 0 <= space)
    by (unfold space, MAX_SPACE_PER_OP; pose proof (as_u64_range (Z.of_nat HEADER_LEN + n)); widths_lia).
  unfold MAX_SPACE_PER_OP in Hsp.
  match goal with |- idl_spec _ _ _ (mkIdlEffect [with_data (init_header ?k _) _] _) =>
    destruct (init_view k (ai_data to')) as [Hi Hv]; [lia | lia | apply (ao_key _ _ Hf) |] end.
  assert (Hle : forall k, length k = 32%nat ->
    length (init_header k (ai_data to')) = length (ai_data to')).
  { intros k' Hk'. unfold init_header.
    rewrite length_write_len; rewrite !length_write_at; rewrite ?length_write_at; header. }
  eapply spec_create; cbn [ai_key ai_owner ai_data with_data].
  - eassumption.
  - eexists. split; [| split; [reflexivity | eassumption]]. set_solver.
  - congruence.
  - congruence.
  - exact Hi.
  - rewrite Hle by (apply (ao_key _ _ Hf)). exact Hv.
  - rewrite Hle by (apply (ao_key _ _ Hf)). lia.
Qed.

Lemma acc_in {P : Acc -> Prop} {l a} : Forall P l -> a ∈ l -> P a.
Proof. intros H Ha. apply list_elem_of_In in Ha. by eapply List.Forall_forall in H. Qed.

Lemma becomes_intro a d v : idl_ok d -> view_of d = v -> becomes a (with_data d a) v.
Proof. intros. unfold becomes. auto. Qed.

Lemma create_buffer_spec pid accs eff :
  Forall (acc_ok pid) accs -> idl_create_buffer pid accs = Ok eff ->
  idl_spec pid accs CreateBuffer eff.
Proof.
  intros Hok H. unfold idl_create_buffer in H. idl_inv. injection H as <-.
  match goal with H : existsb _ _ = false |- _ => apply existsb_nonzero in H end.
  match goal with |- idl_spec _ (?b :: ?k :: _) _ _ =>
    pose proof (acc_in (a := b) Hok ltac:(set_solver)) as Hb;
    pose proof (acc_in (a := k) Hok ltac:(set_solver)) as Hk;
    destruct (init_view (ai_key (info k)) (ai_data (info b))) as [Hi Hv];
    [assumption | pose proof (ao_size _ _ Hb); lia | apply (ao_key _ _ Hk) |];
    apply (spec_create_buffer pid _ (info b) (lamports b) (ai_key (info k)));
    [ apply acc_eta; set_solver | assumption | assumption | | assumption
    | by apply becomes_intro ] end.
  eexists. split; [| split; [reflexivity | eassumption]]. set_solver.
Qed.

Lemma write_spec pid accs t eff :
  Forall (acc_ok pid) accs -> idl_write pid accs t = Ok eff -> idl_spec pid accs (Write t) eff.
Proof.
  intros Hok H. unfold idl_write in H. idl_inv. injection H as <-.
  match goal with |- idl_spec _ (?b :: ?k :: _) _ _ =>
    pose proof (ao_idl _ _ (acc_in (a := b) Hok ltac:(set_solver)) ltac:(assumption) ltac:(assumption)) as Hb;
    destruct (text_view (ai_data (info b)) (read_data_len (ai_data (info b))) t)
      as [Hi Hv]; [done | done | lia |];
    apply (spec_write pid _ t (info b));
    [ apply (writable_intro pid _ b k); assumption || set_solver
    | rewrite length_text by done; simpl; lia
    | rewrite take_ge in Hv by (by rewrite length_text); by apply becomes_intro ] end.
Qed.

Lemma set_buffer_spec pid accs eff :
  Forall (acc_ok pid) accs -> idl_set_buffer pid accs = Ok eff ->
  idl_spec pid accs SetBuffer eff.
Proof.
  intros Hok H. unfold idl_set_buffer in H. idl_inv.
  destruct (_ <? _)%nat eqn:Ep in H; [done |]. apply Nat.ltb_ge in Ep. injection H as <-.
  match goal with |- idl_spec _ (?c :: ?b :: ?k :: _) _ _ =>
    pose proof (ao_idl _ _ (acc_in (a := c) Hok ltac:(set_solver)) ltac:(assumption) ltac:(assumption)) as Hc;
    pose proof (ao_idl _ _ (acc_in (a := b) Hok ltac:(set_solver)) ltac:(assumption) ltac:(assumption)) as Hb;
    pose proof (length_text _ Hc) as Hl; cbn [iv_text view_of] in Hl;
    destruct (text_view (ai_data (info b)) 0 (iv_text (view_of (ai_data (info c)))))
      as [Hi Hv]; [done | lia | rewrite length_text by done; lia |];
    cbn [iv_text view_of Nat.add] in Hi, Hv; rewrite Hl, Nat.add_0_r in Hi, Hv;
    apply (spec_set_buffer pid _ (info c) (lamports c) (info b));
    [ apply acc_eta; set_solver | assumption | apply (writable_intro pid _ b k); assumption || set_solver | assumption
    | rewrite length_text by done; simpl; lia | by apply becomes_intro ] end.
Qed.

Lemma set_authority_spec pid accs k eff :
  Forall (acc_ok pid) accs -> length k = 32%nat -> idl_set_authority pid accs k = Ok eff ->
  idl_spec pid accs (SetAuthority k) eff.
Proof.
  intros Hok Hlk H. unfold idl_set_authority in H. idl_inv. injection H as <-.
  match goal with |- idl_spec _ (?b :: ?a :: _) _ _ =>
    pose proof (ao_idl _ _ (acc_in (a := b) Hok ltac:(set_solver)) ltac:(assumption) ltac:(assumption)) as Hb;
    destruct (authority_view (ai_data (info b)) k) as [Hi Hv]; [done | done |];
    apply (spec_set_authority pid _ k (info b));
    [apply (writable_intro pid _ b a); assumption || set_solver | by apply becomes_intro] end.
Qed.

Lemma resize_spec pid accs n eff :
  Forall (acc_ok pid) accs -> idl_resize_account pid accs n = Ok eff ->
  idl_spec pid accs (Resize n) eff.
Proof.
  intros Hok H. unfold idl_resize_account in H. idl_inv.
  match goal with H : (_ =? 0)%nat = true |- _ => apply Nat.eqb_eq in H; rename H into Hnone end.
  set (old := Z.of_nat (length _)) in *. set (new := old + _) in *.
  destruct (old <? new) eqn:En in H; [apply Z.ltb_lt in En | injection H as <-; constructor].
  apply res_bind_ok in H as (idl & Ei & H). injection H as <-.
  match goal with |- idl_spec _ (?b :: ?k :: _) _ _ =>
    pose proof (acc_in (a := b) Hok ltac:(set_solver)) as Hbo;
    pose proof (ao_idl _ _ Hbo ltac:(assumption) ltac:(assumption)) as Hb;
    pose proof (ao_size _ _ Hbo) as Hsz;
    assert (Ha : ai_key idl = ai_key (info b) /\ ai_owner idl = ai_owner (info b) /\
                 ai_data idl = ai_data (info b))
      by (destruct (0 <? _) in Ei; [by apply transfer_keeps in Ei | by injection Ei as <-]);
    destruct Ha as (Hk & Ho & Hd);
    destruct (realloc_view (Z.to_nat new) (ai_data (info b))) as [Hi Hv];
    [ assumption | assumption | unfold old in *; lia | unfold new, old, MAX_SPACE_PER_OP in *; lia |];
    pose proof (ok_parts _ Hb) as (_ & Hh & _ & _);
    apply (spec_resize pid _ n (Z.to_nat new - HEADER_LEN) (info b));
    [ apply (writable_intro pid _ b k); assumption || set_solver
    | apply length_zero_iff_nil; by rewrite length_text
    | simpl; unfold old in *; lia
    | unfold becomes, realloc; cbn [with_data ai_key ai_owner ai_data]; by rewrite Hk, Ho, Hd ]
  end.
Qed.

Lemma close_spec pid accs eff :
  Forall (acc_ok pid) accs -> idl_close_account pid accs = Ok eff ->
  idl_spec pid accs Close eff.
Proof.
  intros Hok H. unfold idl_close_account in H. idl_inv. injection H as <-.
  match goal with |- idl_spec _ (?b :: ?k :: ?d :: _) _ _ =>
    apply (spec_close pid _ (info b) (lamports b) _ (info d) (lamports d));
    [ apply acc_eta; set_solver | apply (writable_intro pid _ b k); assumption || set_solver
    | apply acc_eta; set_solver | reflexivity | reflexivity | reflexivity ] end.
Qed.

Lemma run_idl_spec pid accs ix eff :
  Forall (acc_ok pid) accs -> idl_ix_ok ix -> run_idl pid accs ix = Ok eff ->
  idl_spec pid accs ix eff.
Proof.
  intros Hok Hix H. destruct ix; simpl in H;
    [ by apply create_spec | by apply create_buffer_spec | by apply write_spec
    | by apply set_buffer_spec | by apply set_authority_spec | by apply close_spec
    | by apply resize_spec ].
Qed.

(** C22: the interface account implements its specification.  Whatever a successful
    instruction of the protocol does to bytes, it does one of these things to what they
    mean: open an account with the signer as authority and no text, append to the text,
    replace it with that of a buffer of the same authority, hand over the authority, add
    room, or close; each but the openings with the signature of the authority, and what is
    left is well formed again. *)
Theorem idl_implements_its_specification pid accs ix eff :
  Forall (acc_ok pid) accs -> idl_ix_ok ix -> run_idl pid accs ix = Ok eff ->
  idl_spec pid accs ix eff.
Proof. apply run_idl_spec. Qed.

(** Which accounts a successful instruction changes, whatever it was passed. *)
Lemma run_idl_writes pid accs ix eff a' :
  run_idl pid accs ix = Ok eff -> a' ∈ ie_accounts eff ->
  (exists base bump, derive_idl pid = Ok (ai_key a', base, bump)) \/
  exists a, a ∈ accs /\ ai_key (info a) = ai_key a' /\ ai_owner (info a) = pid /\
    (Forall (eq 0) (ai_data (info a)) \/ has_idl_header (ai_data (info a)) = true).
Proof.
  intros H Ha. destruct ix; cbn [run_idl] in H.
  - left. unfold idl_create_account in H. idl_inv. injection H as <-.
    apply list_elem_of_singleton in Ha as ->.
    match goal with E : sys_invoke _ _ = Ok _ |- _ =>
      apply create_with_seed_zeroes in E as (Hk & _) end.
    cbn [with_data ai_key]. rewrite Hk.
    match goal with H : derive_idl _ = Ok (_, ?b, ?n) |- _ => exists b, n; congruence end.
  - right. unfold idl_create_buffer in H. idl_inv. injection H as <-.
    apply list_elem_of_singleton in Ha as ->.
    match goal with H : existsb _ _ = false |- _ => apply existsb_nonzero in H end.
    eexists. split; [apply list_elem_of_here |]. cbn. auto.
  - right. unfold idl_write in H. idl_inv. injection H as <-.
    apply list_elem_of_singleton in Ha as ->.
    eexists. split; [apply list_elem_of_here |]. cbn. auto.
  - right. unfold idl_set_buffer in H. idl_inv. destruct (_ <? _)%nat in H; [done |].
    injection H as <-. apply list_elem_of_singleton in Ha as ->.
    eexists. split; [apply list_elem_of_further, list_elem_of_here |]. cbn. auto.
  - right. unfold idl_set_authority in H. idl_inv. injection H as <-.
    apply list_elem_of_singleton in Ha as ->.
    eexists. split; [apply list_elem_of_here |]. cbn. auto.
  - right. unfold idl_close_account in H. idl_inv. injection H as <-.
    apply list_elem_of_singleton in Ha as ->.
    eexists. split; [apply list_elem_of_here |]. cbn. auto.
  - right. unfold idl_resize_account in H. idl_inv.
    destruct (_ <? _) in H; [| injection H as <-; by apply not_elem_of_nil in Ha].
    apply res_bind_ok in H as (idl & Ei & H). injection H as <-.
    apply list_elem_of_singleton in Ha as ->.
    eexists. split; [apply list_elem_of_here |]. cbn [realloc with_data ai_key].
    destruct (0 <? _) in Ei; [apply transfer_keeps in Ei as (-> & _) | injection Ei as <-]; auto.
Qed.

(** C23: the protocol never touches the state of the lending program.  An account that a
    successful instruction changes is the interface account that it creates, or was passed
    to it as an account of the program that is all zeroes, or carries the header of the
    protocol and its authority has signed.  A market or a position that starts with other
    bytes than the discriminator is out of reach. *)
Theorem idl_touches_only_its_accounts pid accs ix eff a' :
  Forall (acc_ok pid) accs -> idl_ix_ok ix -> run_idl pid accs ix = Ok eff ->
  a' ∈ ie_accounts eff ->
  (exists n base bump, ix = Create n /\ derive_idl pid = Ok (ai_key a', base, bump)) \/
  exists a, a ∈ accs /\ ai_key (info a) = ai_key a' /\ ai_owner (info a) = pid /\
    (Forall (eq 0) (ai_data (info a)) \/
     has_idl_header (ai_data (info a)) = true /\
     signed accs (slice AUTHORITY_OFFSET 32 (ai_data (info a)))).
Proof.
  intros Hok Hix H Ha. pose proof (run_idl_spec _ _ _ _ Hok Hix H) as Hs.
  destruct Hs; cbn [ie_accounts] in Ha; apply list_elem_of_singleton in Ha || set_solver; subst a';
    [left; subst; repeat eexists; eassumption | right ..];
    repeat match goal with
    | H : writable_idl _ _ _ |- _ => destruct H as ([? ?] & ? & ? & ? & _)
    | H : becomes _ _ _ |- _ => destruct H as (? & _)
    end;
    match goal with Hm : mkAcc ?a ?n ∈ accs |- _ =>
      exists (mkAcc a n); cbn [info]; split_and!; [done | congruence | done | by eauto] end.
Qed.

(** ** A buffer that passes for a market *)

(** The markets are told apart from other accounts by their size, and the curator stands in
    the bytes where the header has the authority.  So a buffer of the size of a market,
    which anyone can open, is an initialised market to the rest of the program, with the
    authority of the buffer as its curator. *)
Lemma idl_buffer_passes_for_market {AC : AccountCodec} k l a u :
  (forall d, Z.of_nat (length d) = 1448 ->
     exists m, market_of_bytes d = Some m /\ curator (config m) = slice AUTHORITY_OFFSET 32 d) ->
  idl_create_buffer id [mkAcc a l; k] = Ok u -> Z.of_nat (length (ai_data a)) = 1448 ->
  length (ai_key (info k)) = 32%nat ->
  exists a' m, ie_accounts u = [a'] /\
    zero_copy market_of_bytes a' = Ok (mkAccount (ai_key a) (ai_is_signer a) m) /\
    curator (config m) = ai_key (info k).
Proof.
  intros Hlay H Hl Hk. unfold idl_create_buffer in H. cbn [next res_bind info] in H. idl_inv. injection H as <-.
  cbn [info] in *. destruct (init_view (ai_key (info k)) (ai_data a)) as [Hi Hv];
    [header | lia | done |].
  set (d := init_header (ai_key (info k)) (ai_data a)) in *.
  assert (Hd : Z.of_nat (length d) = 1448).
  { destruct (ok_parts d Hi) as (_ & Hh & _). pose proof (f_equal iv_room Hv) as Hr. cbn [iv_room view_of] in Hr. lia. }
  destruct (Hlay d Hd) as (m & Hm & Hc). pose proof (f_equal iv_authority Hv) as Hau. cbn [iv_authority view_of] in Hau.
  exists (with_data d a), m. split; [done |]. split; [| congruence].
  unfold zero_copy. cbn [with_data ai_owner ai_data ai_key ai_is_signer].
  rewrite bool_decide_eq_true_2, Hm by done. cbn [negb].
  replace (is_initialized m) with true; [done |]. symmetry.
  unfold is_initialized, market_is_initialized. rewrite Hc, Hau.
  by rewrite bool_decide_eq_false_2.
Qed.

End Spec.

(** ** An account to try the properties on *)

Definition idl_chain_ex : Chain := {|
  apl_token_id := replicate 32 50;
  apl_ata_id := replicate 32 51;
  SYSTEM_PROGRAM_ID := replicate 32 52;
  get_associated_token_address := fun _ mint => mint;
  minimum_rent := fun n => n |}.
Definition seed_ex : SeedCrate := fun base seed _ => Some (base ++ seed).
Definition idl_pda_ex : PdaCrate := fun seeds _ => (concat seeds, 255).
#[local] Existing Instances idl_chain_ex seed_ex idl_pda_ex sys_ex sys_ex_laws.

Definition idl_bytes_ex : list Z :=
  Eval vm_compute in init_header (replicate 32 1) (replicate 60 0).
Definition idl_accs_ex : list Acc :=
  [ mkAcc (mkAccountInfo (replicate 32 20) (replicate 32 9) false true idl_bytes_ex) 60;
    mkAcc (mkAccountInfo (replicate 32 1) (replicate 32 52) true true []) 1000 ].
Definition idl_write_ex : IdlEffect :=
  Eval vm_compute in match run_idl (replicate 32 9) idl_accs_ex (Write [7; 8; 9]) with
                     | Ok e => e | _ => mkIdlEffect [] [] end.

Lemma idl_accs_ex_ok : Forall (acc_ok (replicate 32 9)) idl_accs_ex.
Proof.
  apply Forall_cons; [| apply Forall_cons; [| apply Forall_nil]].
  - split; [done | vm_compute; done |]. intros _ _. split; [done |].
    split; [vm_compute; lia | vm_compute; done].
  - split; [done | vm_compute; done |]. intros H. vm_compute in H. discriminate H.
Qed.

Lemma idl_specification_witness :
  run_idl (replicate 32 9) idl_accs_ex (Write [7; 8; 9]) = Ok idl_write_ex /\
  idl_spec (replicate 32 9) idl_accs_ex (Write [7; 8; 9]) idl_write_ex.
Proof.
  split; [vm_compute; reflexivity |].
  apply idl_implements_its_specification;
    [exact idl_accs_ex_ok | exact I | vm_compute; reflexivity].
Defined.

Lemma idl_touches_witness :
  (exists n base bump, Write [7; 8; 9] = Create n /\
     derive_idl (replicate 32 9) = Ok (replicate 32 20, base, bump)) \/
  exists a, a ∈ idl_accs_ex /\ ai_key (info a) = replicate 32 20 /\
    ai_owner (info a) = replicate 32 9 /\
    (Forall (eq 0) (ai_data (info a)) \/
     has_idl_header (ai_data (info a)) = true /\
     signed idl_accs_ex (slice AUTHORITY_OFFSET 32 (ai_data (info a)))).
Proof.
  apply (idl_touches_only_its_accounts (replicate 32 9) idl_accs_ex (Write [7; 8; 9]) idl_write_ex
    (match ie_accounts idl_write_ex with a :: _ => a | [] => info (mkAcc (mkAccountInfo [] [] false false []) 0) end));
    [exact idl_accs_ex_ok | exact I | vm_compute; reflexivity | vm_compute; constructor].
Defined.
