(* ===== verification/ProcessorFacts.v ===== *)
(** * Facts about the handlers

    How a successful handler decomposes: the oracles are loaded, the clock is synced, one
    or two operations run on the borrowed accounts, and the calls follow.  [move] is one
    operation of the market on the borrowed accounts; the lemmas [*_moves] say that a
    handler is a sequence of them, and keep the calls it makes. *)
From stdpp Require Import relations.
From S2P Require Import Prelude.
From S2P Require Import Errors.
From S2P Require Import Monad.
From S2P Require Import FixedPoint.
From S2P Require Import InterestRateCurve.
From S2P Require Import Pda.
From S2P Require Import OracleRate.
From S2P Require Import Oracle.
From S2P Require Import GlobalConfig.
From S2P Require Import LiquidatorWhitelist.
From S2P Require Import MarketConfig.
From S2P Require Import SupplyPosition.
From S2P Require Import BorrowPosition.
From S2P Require Import CollateralVault.
From S2P Require Import SupplyVault.
From S2P Require Import Liquidation.
From S2P Require Import Market.
From S2P Require Import MarketWrapper.
From S2P Require Import PositionFacts.
From S2P Require Import Protocol.
From S2P Require Import ProgramErrors.
From S2P Require Import Accounts.
From S2P Require Import IxsUser.
From S2P Require Import IxsAdmin.
From S2P Require Import Events.
From S2P Require Import Processor.
From S2P Require Import ProcessorAdmin.

(** One operation on a market alone; the clock or one operation on a market and a
    position. *)
Inductive market_move {FX : FixedCrate} : relation Market :=
| market_move_op o m m' :
    market_args o -> run_market o m = (Ok tt, m') -> market_move m m'.

Inductive move {FX : FixedCrate} {P Op} (args : Op -> Prop) (run : Op -> ST (Market * P) ())
  : relation (Market * P) :=
| move_sync ts m p m' :
    Market.sync_clock ts m = (Ok tt, m') -> move args run (m, p) (m', p)
| move_position o s s' :
    args o -> run o s = (Ok tt, s') -> move args run s s'.

Section Steps.
Context {FX : FixedCrate} {PC : PdaCrate} {BC : OracleBuild} {RT : Runtime}.
Context {CH : Chain} {AC : AccountCodec} {ME : Memory} {P : Type}.
Implicit Types (m : Market) (p : P) (cs : list Call).

(** ** Steps of a handler *)

Lemma wrapper_mut_ok borrowed s c ts (ctx ctx' : Ctx (Market * P)) rates :
  wrapper_mut borrowed s c ts ctx = (Ok rates, ctx') -> ctx' = ctx.
Proof.
  intros H. unfold wrapper_mut in H. run_inv.
  repeat match goal with H : lending_pure _ _ = _ |- _ =>
    apply lending_pure_ok in H as [? ->] end. done.
Qed.

Lemma lending_run {S A} (f : ST S A) s cs a ctx' :
  lending f (mkCtx s cs) = (Ok a, ctx') ->
  exists s', f s = (Ok a, s') /\ ctx' = mkCtx s' cs.
Proof.
  unfold lending. cbn. destruct (f s) as [[x | e |] y]; cbn; intros [=]; subst; eauto.
Qed.

Lemma invoke_run {S} ix seeds (s : S) cs u ctx' :
  invoke_signed_unchecked ix seeds (mkCtx s cs) = (Ok u, ctx') ->
  ctx' = mkCtx s (cs ++ [mkCall ix seeds]).
Proof. apply invoke_ok. Qed.

Lemma create_vault_ok {S} a v mint (s : S) cs u ctx' :
  create_vault a v mint (mkCtx s cs) = (Ok u, ctx') ->
  exists cs', ctx' = mkCtx s (cs ++ cs').
Proof.
  intros H. unfold create_vault in H. apply st_bind_ok in H as (c & ctx & Hc & H).
  apply pair_equal_spec in Hc as [Hc <-]. destruct (key_ne _ _).
  - apply invoke_run in H as ->. eauto.
  - run_inv. exists []. by rewrite app_nil_r.
Qed.

Lemma sync_on_wrapper_ok rates ts m p cs ctx' :
  on_wrapper rates (zoom lens_fst (MarketWrapper.sync_clock ts)) (mkCtx (m, p) cs)
    = (Ok tt, ctx') ->
  exists m', Market.sync_clock ts m = (Ok tt, m') /\ ctx' = mkCtx (m', p) cs.
Proof.
  unfold on_wrapper, lending, MarketWrapper.sync_clock.
  unfold zoom at 1. cbn [lget lset lens_fst fst snd cx_state cx_calls].
  unfold zoom at 1. cbn [lget lset market_lens the_wrapper MarketWrapper.market].
  destruct (Market.sync_clock ts m) as [[[] | e |] m1]; cbn; intros [=]; subst; eauto.
Qed.

Lemma on_wrapper_ok {A} rates (f : MarketWrapper -> ST (Market * P) A) m p cs a ctx' :
  on_wrapper rates (with_position f) (mkCtx (m, p) cs) = (Ok a, ctx') ->
  exists m' p', f (the_wrapper rates m) (m, p) = (Ok a, (m', p')) /\
                ctx' = mkCtx (m', p') cs.
Proof.
  unfold on_wrapper, lending, with_position. cbn.
  destruct (f (the_wrapper rates m) (m, p)) as [[x | e |] [m1 p1]]; cbn; intros [=]; subst; eauto.
Qed.

Lemma when_some_ok {E S A} (o : option A) (f : A -> STE E S ()) ctx ctx' :
  when_some o f ctx = (Ok tt, ctx') ->
  (o = None /\ ctx' = ctx) \/ exists x, o = Some x /\ f x ctx = (Ok tt, ctx').
Proof. destruct o; cbn; [eauto | intros [= <-]; auto]. Qed.

Lemma load_mut_ok {X T A} (init : ZeroCopyInitialized T) of_bytes ai (f : ST T A)
  (x : X) o cs a ctx' :
  load_mut init of_bytes ai f (mkCtx (x, o) cs) = (Ok a, ctx') ->
  exists t t', of_bytes (ai_data (account_after cs ai)) = Some t /\ init t = true /\
    ai_owner (account_after cs ai) = id /\
    f t = (Ok a, t') /\ ctx' = mkCtx (x, Some t') cs.
Proof.
  intros H. unfold load_mut in H. run_inv.
  match goal with H : res_from _ _ = Ok _ |- _ => apply res_from_ok in H;
    apply zero_copy_mut_ok in H as (_ & Ho & _ & Hb & Hi) end.
  match goal with H : lending _ _ = _ |- _ => apply lending_run in H as ([y t] & Hr & ->) end.
  cbn in Hr. destruct (f (value _)) as [r t'] eqn:Ef. injection Hr as -> <- <-. eauto 10.
Qed.

End Steps.

(** Decomposes a successful handler. *)
Ltac handler_step :=
  match goal with
  | H : wrapper_mut _ _ _ _ _ = (Ok _, _) |- _ =>
      apply wrapper_mut_ok in H; subst_eq H
  | H : lending_pure _ _ = (Ok _, _) |- _ =>
      let E := fresh "Heq" in apply lending_pure_ok in H as [H E]; subst_eq E
  | H : invoke_signed_unchecked _ _ (mkCtx _ _) = (Ok _, _) |- _ =>
      apply invoke_run in H; subst_eq H
  | H : create_vault _ _ _ (mkCtx _ _) = (Ok _, _) |- _ =>
      let cs := fresh "cs" in let E := fresh "Heq" in
      apply create_vault_ok in H as (cs & E); subst_eq E
  | H : on_wrapper _ (zoom lens_fst _) _ = (Ok ?u, _) |- _ =>
      destruct u; let m := fresh "m" in let E := fresh "Heq" in
      apply sync_on_wrapper_ok in H as (m & H & E); subst_eq E
  | H : on_wrapper _ ?f (mkCtx (_, _) _) = (Ok _, _) |- _ =>
      let m := fresh "m" in let p := fresh "p" in let E := fresh "Heq" in
      unfold MarketWrapper.lend, MarketWrapper.withdraw, MarketWrapper.withdraw_all,
        MarketWrapper.deposit_collateral, MarketWrapper.withdraw_collateral,
        MarketWrapper.borrow, MarketWrapper.repay, MarketWrapper.repay_all,
        MarketWrapper.liquidate, MarketWrapper.begin_capital_sweep,
        MarketWrapper.settle_capital_sweep, MarketWrapper.socialize_loss in H;
      apply on_wrapper_ok in H as (m & p & H & E); subst_eq E
  | H : lending _ (mkCtx _ _) = (Ok _, _) |- _ =>
      let s := fresh "s" in let E := fresh "Heq" in
      apply lending_run in H as (s & H & E); subst_eq E
  | H : when_some _ _ _ = (Ok ?u, _) |- _ =>
      destruct u; apply when_some_ok in H as [[? ?] | (? & ? & ?)]; [subst |]
  | H : load_mut _ _ _ _ (mkCtx (_, _) _) = (Ok _, _) |- _ =>
      let t := fresh "t" in let t' := fresh "t'" in let E := fresh "Heq" in
      apply load_mut_ok in H as (t & t' & ? & ? & ? & H & E); subst_eq E
  | H : (if ?b then _ else _) _ = (Ok _, _) |- _ => destruct b eqn:?
  | H : (let '(_, _) := ?x in _) _ = (Ok _, _) |- _ => is_var x; destruct x
  end.
Ltac handler_inv := repeat (run_inv_step || handler_step).

Section Moves.
Context {FX : FixedCrate} {PC : PdaCrate} {BC : OracleBuild} {RT : Runtime}.
Context {CH : Chain} {AC : AccountCodec} {ME : Memory}.

Lemma drop_result_run {S A} (f : ST S A) s a s' :
  f s = (Ok a, s') -> drop_result f s = (Ok tt, s').
Proof. intros H. unfold drop_result, st_bind. by rewrite H. Qed.

Notation smove := (move supply_args run_supply).
Notation bmove := (move borrow_args run_borrow).

Lemma mmove_sync ts m m' : Market.sync_clock ts m = (Ok tt, m') -> market_move m m'.
Proof. by apply (market_move_op (SyncClock ts)). Qed.
Lemma mmove_donate n m m' :
  0 <= n -> donate_supply_atoms n m = (Ok tt, m') -> market_move m m'.
Proof. by apply (market_move_op (Protocol.DonateSupply n)). Qed.
Lemma mmove_redeem_curator n m m' : redeem_curator_fess m = (Ok n, m') -> market_move m m'.
Proof.
  intros H. apply (market_move_op Protocol.RedeemCuratorFees); [done |].
  by eapply drop_result_run.
Qed.
Lemma mmove_redeem_protocol n m m' :
  Market.redeem_protocol_fees m = (Ok n, m') -> market_move m m'.
Proof.
  intros H. apply (market_move_op Protocol.RedeemProtocolFees); [done |].
  by eapply drop_result_run.
Qed.
Lemma mmove_supply_oracle c m m' :
  set_supply_oracle_config c m = (Ok tt, m') -> market_move m m'.
Proof. by apply (market_move_op (SetSupplyOracle c)). Qed.
Lemma mmove_collateral_oracle c m m' :
  set_collateral_oracle_config c m = (Ok tt, m') -> market_move m m'.
Proof. by apply (market_move_op (SetCollateralOracle c)). Qed.
Lemma mmove_ltv l m m' :
  zoom config_lens (update_ltv l) m = (Ok tt, m') -> market_move m m'.
Proof. by apply (market_move_op (UpdateLtv l)). Qed.
Lemma mmove_utilisation r m m' :
  zoom config_lens (update_max_utilisation_rate r) m = (Ok tt, m') -> market_move m m'.
Proof. by apply (market_move_op (UpdateMaxUtilisation r)). Qed.
Lemma mmove_max_supply n m m' :
  zoom config_lens (update_max_supply_atoms n) m = (Ok tt, m') -> market_move m m'.
Proof. by apply (market_move_op (UpdateMaxSupply n)). Qed.
Lemma mmove_fee n m m' :
  0 <= n -> zoom config_lens (set_lending_market_fee n) m = (Ok tt, m') -> market_move m m'.
Proof. by apply (market_move_op (SetFee n)). Qed.
Lemma mmove_global g m m' :
  0 <= GlobalConfig.protocol_fee_share_in_bps g ->
  zoom config_lens (sync_global_config g) m = (Ok tt, m') -> market_move m m'.
Proof. by apply (market_move_op (SyncGlobalConfig g)). Qed.
Lemma mmove_add m c :
  increment_active_whitelisted_liquidators (config m) = (Ok tt, c) ->
  market_move m (set_config c m).
Proof.
  intros H. apply (market_move_op AddLiquidator); [done |]. cbn [run_market].
  apply zoom_ok. eauto.
Qed.
Lemma mmove_remove m c :
  decrement_active_whitelisted_liquidators (config m) = (Ok tt, c) ->
  market_move m (set_config c m).
Proof.
  intros H. apply (market_move_op RemoveLiquidator); [done |]. cbn [run_market].
  apply zoom_ok. eauto.
Qed.

(** [if let Some(x) = o { f(x)?; }] on the market *)
Lemma mmoves_when {A} (o : option A) (f : A -> ST Market ()) m m' :
  (forall x s s', o = Some x -> f x s = (Ok tt, s') -> market_move s s') ->
  when_some o f m = (Ok tt, m') -> rtc market_move m m'.
Proof.
  intros Hf H. apply when_some_ok in H as [[_ ->] | (x & Hx & H)];
    [apply rtc_refl | eapply rtc_once, Hf; eassumption].
Qed.

Definition fee_arg (d : UpdateConfigInstruction) : Prop :=
  match uc_lending_market_fee_in_bps d with Some n => 0 <= n | None => True end.

Lemma update_config_moves d g ts m m' :
  0 <= GlobalConfig.protocol_fee_share_in_bps g -> fee_arg d ->
  update_config_market d g ts m = (Ok tt, m') -> rtc market_move m m'.
Proof.
  intros Hg Hd H. unfold update_config_market in H. unfold fee_arg in Hd.
  repeat match goal with
  | H : st_bind _ _ _ = _ |- _ => apply st_bind_ok in H as ([] & ? & ? & H)
  end.
  eapply rtc_l; [by eapply mmove_sync |].
  etrans; [eapply mmoves_when; [| eassumption]; intros; by eapply mmove_supply_oracle |].
  etrans; [eapply mmoves_when; [| eassumption]; intros; by eapply mmove_collateral_oracle |].
  etrans; [eapply mmoves_when; [| eassumption]; cbv beta; intros; by eapply mmove_ltv |].
  etrans; [eapply mmoves_when; [| eassumption]; cbv beta; intros; by eapply mmove_utilisation |].
  etrans; [eapply mmoves_when; [| eassumption]; cbv beta; intros; by eapply mmove_max_supply |].
  etrans; [eapply mmoves_when; [| eassumption]; cbv beta; intros x6 s s' E;
           rewrite E in Hd; by eapply mmove_fee |].
  apply rtc_once. by eapply mmove_global.
Qed.

Lemma move_lend n s s' : 0 <= n -> Market.lend n s = (Ok tt, s') -> smove s s'.
Proof. by apply (move_position supply_args run_supply (Lend n)). Qed.
Lemma move_withdraw n s s' : 0 <= n -> Market.withdraw n s = (Ok tt, s') -> smove s s'.
Proof. by apply (move_position supply_args run_supply (Withdraw n)). Qed.
Lemma move_withdraw_all r s s' : Market.withdraw_all s = (Ok r, s') -> smove s s'.
Proof. intros H. apply (move_position supply_args run_supply WithdrawAll); [done |]. by eapply drop_result_run. Qed.

Lemma move_deposit n s s' : Market.deposit_collateral n s = (Ok tt, s') -> bmove s s'.
Proof. by apply (move_position borrow_args run_borrow (DepositCollateral n)). Qed.
Lemma move_withdraw_collateral n co so s s' :
  Market.withdraw_collateral n co so s = (Ok tt, s') -> bmove s s'.
Proof. by apply (move_position borrow_args run_borrow (WithdrawCollateral n co so)). Qed.
Lemma move_borrow n so co s s' :
  0 <= n -> Market.borrow n so co s = (Ok tt, s') -> bmove s s'.
Proof. by apply (move_position borrow_args run_borrow (Borrow n so co)). Qed.
Lemma move_repay n s s' : 0 <= n -> Market.repay n s = (Ok tt, s') -> bmove s s'.
Proof. by apply (move_position borrow_args run_borrow (Repay n)). Qed.
Lemma move_repay_all r s s' : Market.repay_all s = (Ok r, s') -> bmove s s'.
Proof. intros H. apply (move_position borrow_args run_borrow RepayAll); [done |]. by eapply drop_result_run. Qed.
Lemma move_liquidate n co so r s s' :
  0 <= n -> Market.liquidate co so n s = (Ok r, s') -> bmove s s'.
Proof.
  intros Hn H. apply (move_position borrow_args run_borrow (Protocol.Liquidate co so n)); [done |].
  by eapply drop_result_run.
Qed.
Lemma move_begin_sweep co so r s s' :
  Market.begin_capital_sweep co so s = (Ok r, s') -> bmove s s'.
Proof.
  intros H. apply (move_position borrow_args run_borrow (BeginSweep co so)); [done |].
  by eapply drop_result_run.
Qed.
Lemma move_settle_sweep n c co so r s s' :
  0 <= n -> Market.settle_capital_sweep co so n c s = (Ok r, s') -> bmove s s'.
Proof.
  intros Hn H. apply (move_position borrow_args run_borrow (SettleSweep co so n c)); [done |].
  by eapply drop_result_run.
Qed.
Lemma move_socialize co so r s s' :
  Market.socialize_loss co so s = (Ok r, s') -> bmove s s'.
Proof.
  intros H. apply (move_position borrow_args run_borrow (Protocol.SocializeLoss co so)); [done |].
  by eapply drop_result_run.
Qed.

End Moves.

Create HintDb moves.
#[export] Hint Resolve mmove_sync mmove_donate mmove_redeem_curator mmove_redeem_protocol
  mmove_add mmove_remove move_sync move_lend move_withdraw move_withdraw_all move_deposit
  move_withdraw_collateral move_borrow move_repay move_repay_all move_liquidate
  move_begin_sweep move_settle_sweep move_socialize rtc_l rtc_refl : moves.

(** A handler on a market and a position, as a sequence of operations. *)
Ltac solve_moves h :=
  match goal with s : (Market * _)%type |- _ => destruct s end;
  unfold h in *; handler_inv; cbn [cx_state cx_calls]; eauto 8 with moves.

Section Handlers.
Context {FX : FixedCrate} {PC : PdaCrate} {BC : OracleBuild} {RT : Runtime}.
Context {CH : Chain} {AC : AccountCodec} {ME : Memory}.

Notation smoves := (rtc (move supply_args run_supply)).
Notation bmoves := (rtc (move borrow_args run_borrow)).

Lemma supply_apl_moves a n pid ts s cs ctx' :
  0 <= n -> process_supply_apl a n pid ts (mkCtx s cs) = (Ok tt, ctx') ->
  smoves s (cx_state ctx').
Proof. intros. solve_moves (@process_supply_apl). Qed.

Lemma withdraw_supply_moves a d pid ts s cs ctx' :
  0 <= ws_amount d -> process_withdraw_supply a d pid ts (mkCtx s cs) = (Ok tt, ctx') ->
  smoves s (cx_state ctx').
Proof. intros. solve_moves (@process_withdraw_supply). Qed.

Lemma deposit_apl_collateral_moves a n pid ts s cs ctx' :
  process_deposit_apl_collateral a n pid ts (mkCtx s cs) = (Ok tt, ctx') ->
  bmoves s (cx_state ctx').
Proof. intros. solve_moves (@process_deposit_apl_collateral). Qed.

Lemma withdraw_apl_collateral_moves a d pid ts s cs ctx' :
  process_withdraw_apl_collateral a d pid ts (mkCtx s cs) = (Ok tt, ctx') ->
  bmoves s (cx_state ctx').
Proof. intros. solve_moves (@process_withdraw_apl_collateral). Qed.

Lemma borrow_apl_moves a n pid ts s cs ctx' :
  0 <= n -> process_borrow_apl a n pid ts (mkCtx s cs) = (Ok tt, ctx') ->
  bmoves s (cx_state ctx').
Proof. intros. solve_moves (@process_borrow_apl). Qed.

Lemma repay_apl_moves a d pid ts s cs ctx' :
  0 <= ra_amount d -> process_repay_apl a d pid ts (mkCtx s cs) = (Ok tt, ctx') ->
  bmoves s (cx_state ctx').
Proof. intros. solve_moves (@process_repay_apl). Qed.

Lemma borrow_deposit_apl_moves a d pid ts s cs ctx' :
  0 <= bd_borrow_amount d ->
  process_borrow_deposit_apl a d pid ts (mkCtx s cs) = (Ok tt, ctx') ->
  bmoves s (cx_state ctx').
Proof. intros. solve_moves (@process_borrow_deposit_apl). Qed.

Lemma withdraw_repay_apl_moves a d pid ts s cs ctx' :
  0 <= wr_repay_amount d ->
  process_withdraw_repay_apl a d pid ts (mkCtx s cs) = (Ok tt, ctx') ->
  bmoves s (cx_state ctx').
Proof. intros. solve_moves (@process_withdraw_repay_apl). Qed.

Lemma liquidate_moves a d pid ts s cs ctx' :
  0 <= lq_max_borrowed_atoms_to_repay d ->
  process_liquidate a d pid ts (mkCtx s cs) = (Ok tt, ctx') -> bmoves s (cx_state ctx').
Proof. intros. solve_moves (@process_liquidate). Qed.

Lemma begin_capital_sweep_moves a pid ts s cs ctx' :
  process_begin_capital_sweep a pid ts (mkCtx s cs) = (Ok tt, ctx') ->
  bmoves s (cx_state ctx').
Proof. intros. solve_moves (@process_begin_capital_sweep). Qed.

Lemma settle_capital_sweep_moves a d pid ts s cs ctx' :
  0 <= sc_max_borrowed_atoms_to_repay d ->
  process_settle_capital_sweep a d pid ts (mkCtx s cs) = (Ok tt, ctx') ->
  bmoves s (cx_state ctx').
Proof. intros. solve_moves (@process_settle_capital_sweep). Qed.

Lemma socialize_loss_moves a pid ts s cs ctx' :
  process_socialize_loss a pid ts (mkCtx s cs) = (Ok tt, ctx') -> bmoves s (cx_state ctx').
Proof. intros. solve_moves (@process_socialize_loss). Qed.

Lemma donate_supply_moves a n pid ts m cs ctx' :
  0 <= n -> process_donate_supply a n pid ts (mkCtx m cs) = (Ok tt, ctx') ->
  rtc market_move m (cx_state ctx').
Proof.
  intros. unfold process_donate_supply in *. handler_inv. cbn [cx_state]. eauto 8 with moves.
Qed.

Lemma redeem_curator_fees_moves a pid ts m cs ctx' :
  process_redeem_curator_fees a pid ts (mkCtx m cs) = (Ok tt, ctx') ->
  rtc market_move m (cx_state ctx').
Proof.
  intros. unfold process_redeem_curator_fees in *. handler_inv. cbn [cx_state].
  eauto 8 with moves.
Qed.

Lemma redeem_protocol_fees_moves a pid ts m cs ctx' :
  process_redeem_protocol_fees a pid ts (mkCtx m cs) = (Ok tt, ctx') ->
  rtc market_move m (cx_state ctx').
Proof.
  intros. unfold process_redeem_protocol_fees in *. handler_inv. cbn [cx_state].
  eauto 8 with moves.
Qed.

(** The fees of the protocol are logged as fees of the curator. *)
Lemma redeem_protocol_fees_logs_curator_event a pid ts m ctx' :
  process_redeem_protocol_fees a pid ts (mkCtx m []) = (Ok tt, ctx') ->
  exists e seeds rest, cx_calls ctx'
    = mkCall (log_ix pid (key (RedeemProtocolFees.market a)) (Event.ReedeemCuratorFees e)) seeds
      :: rest.
Proof.
  intros H. unfold process_redeem_protocol_fees in H. handler_inv.
  eexists _, _, _. reflexivity.
Qed.

Lemma process_update_config_moves a d ts s cs ctx' :
  0 <= GlobalConfig.protocol_fee_share_in_bps (value (UpdateConfig.global_config a)) ->
  fee_arg d -> process_update_config a d ts (mkCtx s cs) = (Ok tt, ctx') ->
  rtc market_move (fst s) (fst (cx_state ctx')).
Proof.
  intros Hg Hd H. destruct s as [m []]. unfold process_update_config in H. handler_inv.
  by eapply update_config_moves.
Qed.

Lemma add_whitelisted_moves a d pid s cs ctx' :
  process_add_whitelisted_liquidator a d pid (mkCtx s cs) = (Ok tt, ctx') ->
  rtc market_move (fst s) (fst (cx_state ctx')).
Proof.
  intros H. destruct s as [m e]. unfold process_add_whitelisted_liquidator in H.
  handler_inv; cbn [cx_state fst]; eauto 8 with moves.
Qed.

(** The two ways of adding a liquidator: a new entry, or an old one switched on again. *)
Lemma add_whitelisted_run a d pid m e cs ctx' :
  let entry := AddWhitelistedLiquidator.whitelist_entry a in
  process_add_whitelisted_liquidator a d pid (mkCtx (m, e) cs) = (Ok tt, ctx') ->
  exists c t t', increment_active_whitelisted_liquidators (config m) = (Ok tt, c) /\
    cx_state ctx' = (set_config c m, Some t') /\
    ((ai_owner entry <> pid /\
      (exists f l n o seeds,
         mkCall (create_account f (ai_key entry) l n o) seeds ∈ cx_calls ctx') /\
      LiquidatorWhitelist.initialize (key (AddWhitelistedLiquidator.market a))
        (aw_liquidator d) (aw_bump d) t = (Ok tt, t')) \/
     (ai_owner entry = pid /\ ai_owner (account_after cs entry) = id /\
      whitelist_entry_of_bytes (ai_data (account_after cs entry)) = Some t /\
      is_initialized t = true /\ activate t = (Ok tt, t'))).
Proof.
  intros entry H. unfold process_add_whitelisted_liquidator in H. handler_inv;
    (eexists _, _, _; split; [eassumption |]; split; [reflexivity |]); [left | right].
  - split; [unfold key_ne in *; by bool_prop |]. split; [| eassumption].
    eexists _, _, _, _, _. cbn [cx_calls]. apply elem_of_app. left. apply elem_of_app. right.
    apply list_elem_of_here.
  - split; [by apply key_ne_false |]. done.
Qed.

Lemma remove_whitelisted_run a l pid m e cs ctx' :
  process_remove_whitelisted_liquidator a l pid (mkCtx (m, e) cs) = (Ok tt, ctx') ->
  exists c e', decrement_active_whitelisted_liquidators (config m) = (Ok tt, c) /\
    deactivate e = (Ok tt, e') /\ cx_state ctx' = (set_config c m, e').
Proof.
  intros H. unfold process_remove_whitelisted_liquidator in H. handler_inv. eauto 10.
Qed.

Lemma remove_whitelisted_moves a l pid s cs ctx' :
  process_remove_whitelisted_liquidator a l pid (mkCtx s cs) = (Ok tt, ctx') ->
  rtc market_move (fst s) (fst (cx_state ctx')).
Proof.
  intros H. destruct s as [m e]. unfold process_remove_whitelisted_liquidator in H.
  handler_inv. cbn [cx_state fst]. eauto 8 with moves.
Qed.

End Handlers.
