(* ===== verification/ProgramFacts.v ===== *)
(** * What the validated accounts of an instruction are

    The accounts of the program as a map from keys to contents ([World]).  An account passed
    to an instruction shows what the world holds under its key ([shown]).  The lemmas say
    what is known once the accounts of an instruction have been validated: which accounts
    are the market and the position, that they belong together, and who has signed. *)
From stdpp Require Import gmap relations.
From S2P Require Import Prelude.
From S2P Require Import Errors.
From S2P Require Import Monad.
From S2P Require Import FixedPoint.
From S2P Require Import InterestRateCurve.
From S2P Require Import Pda.
From S2P Require Import OracleRate.
From S2P Require Import Oracle.
From S2P Require Import GlobalConfig.
From S2P Require Import LiquidatorWhitelist.
From S2P Require Import MarketConfig.
From S2P Require Import SupplyPosition.
From S2P Require Import BorrowPosition.
From S2P Require Import CollateralVault.
From S2P Require Import SupplyVault.
From S2P Require Import Liquidation.
From S2P Require Import Market.
From S2P Require Import MarketWrapper.
From S2P Require Import PositionFacts.
From S2P Require Import Protocol.
From S2P Require Import ProgramErrors.
From S2P Require Import Accounts.
From S2P Require Import IxsUser.
From S2P Require Import IxsAdmin.
From S2P Require Import Events.
From S2P Require Import Processor.
From S2P Require Import ProcessorAdmin.
From S2P Require Import Processor.
From S2P Require Import ProcessorAdmin.
From S2P Require Import ProcessorFacts.
From S2P Require Import Program.

Notation World := (gmap Pubkey AccountData).

(** [ai] is an account of a transaction on the world [W], signed by the keys in [Sg]: what reads
    as an account of the protocol is one.  The program tells its accounts apart by owner and
    size only, so this leaves out accounts that the interface description has made to read like
    that; [Entry.passed] and [Entry.no_forgery] have both kinds. *)
Record shown {AC : AccountCodec} (W : World) (Sg : Pubkey -> Prop) (ai : AccountInfo)
  : Prop := {
  shown_signer : ai_is_signer ai = true -> Sg (ai_key ai);
  shown_market m : ai_owner ai = id -> market_of_bytes (ai_data ai) = Some m ->
    is_initialized m = true -> W !! ai_key ai = Some (DMarket m);
  shown_supply p : ai_owner ai = id -> supply_position_of_bytes (ai_data ai) = Some p ->
    is_initialized p = true -> W !! ai_key ai = Some (DSupply p);
  shown_borrow p : ai_owner ai = id -> borrow_position_of_bytes (ai_data ai) = Some p ->
    is_initialized p = true -> W !! ai_key ai = Some (DBorrow p);
  shown_config g : ai_owner ai = id -> global_config_of_bytes (ai_data ai) = Some g ->
    is_initialized g = true -> W !! ai_key ai = Some (DGlobalConfig g);
  shown_entry e : ai_owner ai = id -> whitelist_entry_of_bytes (ai_data ai) = Some e ->
    is_initialized e = true -> W !! ai_key ai = Some (DWhitelistEntry e) }.

(** The market of an instruction, and a position of it. *)
Definition is_market (W : World) (m : Account Market) : Prop :=
  W !! key m = Some (DMarket (value m)).

Record is_supply (W : World) (m : Account Market) (p : Account SupplyPosition) : Prop := {
  is_supply_market : is_market W m;
  is_supply_stored : W !! key p = Some (DSupply (value p));
  is_supply_of : SupplyPosition.market (value p) = key m }.

Record is_borrow (W : World) (m : Account Market) (p : Account BorrowPosition) : Prop := {
  is_borrow_market : is_market W m;
  is_borrow_stored : W !! key p = Some (DBorrow (value p));
  is_borrow_of : BorrowPosition.market (value p) = key m }.

(** A liquidator is free to liquidate on a market: no one is whitelisted, or it is. *)
Definition may_liquidate {PC : PdaCrate} (W : World) (k : Pubkey) (m : Market)
  (liquidator : Pubkey) : Prop :=
  liquidations_are_permissionless (config m) = true \/
  exists e, W !! fst (find_liquidator_whitelist_entry_pda id k liquidator)
              = Some (DWhitelistEntry e) /\
            LiquidatorWhitelist.market e = k /\
            LiquidatorWhitelist.liquidator e = liquidator /\ is_active e = true.

Section Parsing.
Context {FX : FixedCrate} {PC : PdaCrate} {CH : Chain} {AC : AccountCodec}.
Context (W : World) (Sg : Pubkey -> Prop).
Notation shows := (Forall (shown W Sg)).

Lemma next_account_info_ok l ai l' :
  next_account_info l = (Ok ai, l') -> l = ai :: l'.
Proof. destruct l; [discriminate |]. intros [= <- <-]. done. Qed.

Lemma next_market_shown l m l' :
  shows l -> next_market l = (Ok m, l') -> is_market W m /\ shows l'.
Proof.
  intros Hl H. apply next_as_ok in H as (ai & -> & H). apply Forall_cons_iff in Hl as [Ha Hl].
  apply zero_copy_mut_ok in H as (_ & Ho & Hk & Hb & Hi). split; [| done].
  unfold is_market. rewrite Hk. by eapply shown_market.
Qed.

Lemma next_supply_shown l p l' :
  shows l -> next_supply_position l = (Ok p, l') ->
  W !! key p = Some (DSupply (value p)) /\ shows l'.
Proof.
  intros Hl H. apply next_as_ok in H as (ai & -> & H). apply Forall_cons_iff in Hl as [Ha Hl].
  apply zero_copy_mut_ok in H as (_ & Ho & Hk & Hb & Hi). split; [| done].
  rewrite Hk. by eapply shown_supply.
Qed.

Lemma next_borrow_shown l p l' :
  shows l -> next_borrow_position l = (Ok p, l') ->
  W !! key p = Some (DBorrow (value p)) /\ shows l'.
Proof.
  intros Hl H. apply next_as_ok in H as (ai & -> & H). apply Forall_cons_iff in Hl as [Ha Hl].
  apply zero_copy_mut_ok in H as (_ & Ho & Hk & Hb & Hi). split; [| done].
  rewrite Hk. by eapply shown_borrow.
Qed.

Lemma next_config_shown l g l' :
  shows l -> next_as (zero_copy global_config_of_bytes) l = (Ok g, l') ->
  W !! key g = Some (DGlobalConfig (value g)) /\ shows l'.
Proof.
  intros Hl H. apply next_as_ok in H as (ai & -> & H). apply Forall_cons_iff in Hl as [Ha Hl].
  apply zero_copy_ok in H as (Ho & Hk & Hb & Hi). split; [| done].
  rewrite Hk. by eapply shown_config.
Qed.

Lemma next_config_mut_shown l g l' :
  shows l -> next_as (zero_copy_mut global_config_of_bytes) l = (Ok g, l') ->
  W !! key g = Some (DGlobalConfig (value g)) /\ shows l'.
Proof.
  intros Hl H. apply next_as_ok in H as (ai & -> & H). apply Forall_cons_iff in Hl as [Ha Hl].
  apply zero_copy_mut_ok in H as (_ & Ho & Hk & Hb & Hi). split; [| done].
  rewrite Hk. by eapply shown_config.
Qed.

Lemma next_entry_mut_shown l e l' :
  shows l -> next_as (zero_copy_mut whitelist_entry_of_bytes) l = (Ok e, l') ->
  W !! key e = Some (DWhitelistEntry (value e)) /\ shows l'.
Proof.
  intros Hl H. apply next_as_ok in H as (ai & -> & H). apply Forall_cons_iff in Hl as [Ha Hl].
  apply zero_copy_mut_ok in H as (_ & Ho & Hk & Hb & Hi). split; [| done].
  rewrite Hk. by eapply shown_entry.
Qed.

Lemma next_signer_shown l k l' :
  shows l -> next_signer l = (Ok k, l') -> Sg k /\ shows l'.
Proof.
  intros Hl H. apply next_as_ok in H as (ai & -> & H). apply Forall_cons_iff in Hl as [Ha Hl].
  apply signer_ok in H as [Hs ->]. split; [| done]. by apply Ha.
Qed.

Lemma next_mint_shown l x l' :
  shows l -> next_as (packed mint_of_bytes) l = (Ok x, l') ->
  (exists b, mint_of_bytes b = Some (value x)) /\ shows l'.
Proof.
  intros Hl H. apply next_as_ok in H as (ai & -> & H). apply Forall_cons_iff in Hl as [_ Hl].
  split; [| done]. unfold packed in H. destruct (negb _); [discriminate |].
  destruct (mint_of_bytes (ai_data ai)) eqn:E; [| discriminate]. run_inv. eauto.
Qed.

(** The rest: token accounts, programs, accounts that are not looked into. *)
Lemma next_as_shown {A} (conv : AccountInfo -> AccRes A) l x l' :
  shows l -> next_as conv l = (Ok x, l') -> shows l'.
Proof. intros Hl H. apply next_as_ok in H as (ai & -> & _). by apply Forall_cons_iff in Hl as []. Qed.

Lemma next_account_info_shown l ai l' :
  shows l -> next_account_info l = (Ok ai, l') -> shown W Sg ai /\ shows l'.
Proof. intros Hl H. apply next_account_info_ok in H as ->. by apply Forall_cons_iff in Hl. Qed.

Lemma next_entry_shown l e l' :
  shows l -> Liquidate.next_entry l = (Ok e, l') ->
  W !! key e = Some (DWhitelistEntry (value e)).
Proof.
  intros Hl H. unfold Liquidate.next_entry in H. run_inv.
  destruct (next_account_info l) as [[ai | |] l1] eqn:E; run_inv. apply next_account_info_shown in E as [Ha _]; [| done].
  match goal with H : zero_copy _ _ = Ok _ |- _ => apply zero_copy_ok in H as (Ho & Hk & Hb & Hi) end.
  rewrite Hk. by eapply shown_entry.
Qed.

End Parsing.

(** Reads the accounts of an instruction off a successful [from_accounts]. *)
Ltac parse_step :=
  match goal with
  | Hl : Forall (shown ?W ?Sg) ?l, H : ?p ?l = (Ok _, _) |- _ =>
      first
      [ apply (next_market_shown W Sg) in H as [? ?]; [| exact Hl]
      | apply (next_supply_shown W Sg) in H as [? ?]; [| exact Hl]
      | apply (next_borrow_shown W Sg) in H as [? ?]; [| exact Hl]
      | apply (next_config_shown W Sg) in H as [? ?]; [| exact Hl]
      | apply (next_config_mut_shown W Sg) in H as [? ?]; [| exact Hl]
      | apply (next_entry_mut_shown W Sg) in H as [? ?]; [| exact Hl]
      | apply (next_mint_shown W Sg) in H as [? ?]; [| exact Hl]
      | apply (next_signer_shown W Sg) in H as [? ?]; [| exact Hl]
      | apply (next_account_info_shown W Sg) in H as [? ?]; [| exact Hl]
      | apply (next_as_shown W Sg) in H; [| exact Hl] ]; clear Hl
  | H : reject_if _ _ = Ok ?u |- _ => destruct u; apply reject_if_ok in H
  | H : key_ne _ _ = false |- _ => apply key_ne_false in H
  | H : (_ || _) = false |- _ => apply orb_false_iff in H as [? ?]
  end.
Ltac parse_inv := repeat (run_inv_step || parse_step).

Ltac parse_done :=
  parse_inv; cbn in *; bool_prop; split_and!; try (split; assumption); congruence.

Section Instructions.
Context {FX : FixedCrate} {PC : PdaCrate} {CH : Chain} {AC : AccountCodec}.
Context (W : World) (Sg : Pubkey -> Prop).
Notation shows := (Forall (shown W Sg)).

Lemma supply_apl_shown l a l' :
  shows l -> SupplyApl.from_accounts l = (Ok a, l') ->
  is_supply W (SupplyApl.market a) (SupplyApl.supply_position a) /\ Sg (SupplyApl.authority a) /\
  SupplyPosition.authority (value (SupplyApl.supply_position a)) = SupplyApl.authority a /\
  SupplyVault.vault (supply_vault (value (SupplyApl.market a)))
    = key (SupplyApl.market_supply_vault a).
Proof. intros Hl H. unfold SupplyApl.from_accounts, SupplyApl.validate in H. parse_done. Qed.

Lemma withdraw_supply_shown l a l' :
  shows l -> WithdrawSupply.from_accounts l = (Ok a, l') ->
  is_supply W (WithdrawSupply.market a) (WithdrawSupply.supply_position a) /\ Sg (WithdrawSupply.authority a) /\
  SupplyPosition.authority (value (WithdrawSupply.supply_position a)) = WithdrawSupply.authority a /\
  SupplyVault.vault (supply_vault (value (WithdrawSupply.market a)))
    = key (WithdrawSupply.market_supply_vault a).
Proof. intros Hl H. unfold WithdrawSupply.from_accounts, WithdrawSupply.validate in H. parse_done. Qed.

Lemma borrow_apl_shown l a l' :
  shows l -> BorrowApl.from_accounts l = (Ok a, l') ->
  is_borrow W (BorrowApl.market a) (BorrowApl.borrow_position a) /\ Sg (BorrowApl.authority a) /\
  BorrowPosition.authority (value (BorrowApl.borrow_position a)) = BorrowApl.authority a /\
  SupplyVault.vault (supply_vault (value (BorrowApl.market a)))
    = key (BorrowApl.market_supply_vault a).
Proof. intros Hl H. unfold BorrowApl.from_accounts, BorrowApl.validate in H. parse_done. Qed.

Lemma repay_apl_shown l a l' :
  shows l -> RepayApl.from_accounts l = (Ok a, l') ->
  is_borrow W (RepayApl.market a) (RepayApl.borrow_position a) /\ Sg (RepayApl.authority a) /\
  BorrowPosition.authority (value (RepayApl.borrow_position a)) = RepayApl.authority a /\
  SupplyVault.vault (supply_vault (value (RepayApl.market a)))
    = key (RepayApl.market_supply_vault a).
Proof. intros Hl H. unfold RepayApl.from_accounts, RepayApl.validate in H. parse_done. Qed.

Lemma deposit_apl_collateral_shown l a l' :
  shows l -> DepositAplCollateral.from_accounts l = (Ok a, l') ->
  is_borrow W (DepositAplCollateral.market a) (DepositAplCollateral.borrow_position a) /\ Sg (DepositAplCollateral.authority a) /\
  BorrowPosition.authority (value (DepositAplCollateral.borrow_position a)) = DepositAplCollateral.authority a /\
  CollateralVault.vault (collateral_vault (value (DepositAplCollateral.market a)))
    = key (DepositAplCollateral.market_collateral_vault a).
Proof. intros Hl H. unfold DepositAplCollateral.from_accounts, DepositAplCollateral.validate in H. parse_done. Qed.

Lemma withdraw_apl_collateral_shown l a l' :
  shows l -> WithdrawAplCollateral.from_accounts l = (Ok a, l') ->
  is_borrow W (WithdrawAplCollateral.market a) (WithdrawAplCollateral.borrow_position a) /\ Sg (WithdrawAplCollateral.authority a) /\
  BorrowPosition.authority (value (WithdrawAplCollateral.borrow_position a)) = WithdrawAplCollateral.authority a /\
  CollateralVault.vault (collateral_vault (value (WithdrawAplCollateral.market a)))
    = key (WithdrawAplCollateral.market_collateral_vault a).
Proof. intros Hl H. unfold WithdrawAplCollateral.from_accounts, WithdrawAplCollateral.validate in H. parse_done. Qed.

Lemma borrow_deposit_apl_shown l a l' :
  shows l -> BorrowDepositApl.from_accounts l = (Ok a, l') ->
  is_borrow W (BorrowDepositApl.market a) (BorrowDepositApl.borrow_position a) /\ Sg (BorrowDepositApl.authority a) /\
  BorrowPosition.authority (value (BorrowDepositApl.borrow_position a)) = BorrowDepositApl.authority a /\
  SupplyVault.vault (supply_vault (value (BorrowDepositApl.market a)))
    = key (BorrowDepositApl.market_supply_vault a) /\
  CollateralVault.vault (collateral_vault (value (BorrowDepositApl.market a)))
    = key (BorrowDepositApl.market_collateral_vault a).
Proof. intros Hl H. unfold BorrowDepositApl.from_accounts, BorrowDepositApl.validate in H. parse_done. Qed.

Lemma withdraw_repay_apl_shown l a l' :
  shows l -> WithdrawRepayApl.from_accounts l = (Ok a, l') ->
  is_borrow W (WithdrawRepayApl.market a) (WithdrawRepayApl.borrow_position a) /\ Sg (WithdrawRepayApl.authority a) /\
  BorrowPosition.authority (value (WithdrawRepayApl.borrow_position a)) = WithdrawRepayApl.authority a /\
  SupplyVault.vault (supply_vault (value (WithdrawRepayApl.market a)))
    = key (WithdrawRepayApl.market_supply_vault a) /\
  CollateralVault.vault (collateral_vault (value (WithdrawRepayApl.market a)))
    = key (WithdrawRepayApl.market_collateral_vault a).
Proof. intros Hl H. unfold WithdrawRepayApl.from_accounts, WithdrawRepayApl.validate in H. parse_done. Qed.

Lemma begin_capital_sweep_shown l a l' :
  shows l -> BeginCapitalSweep.from_accounts l = (Ok a, l') ->
  is_borrow W (BeginCapitalSweep.market a) (BeginCapitalSweep.borrow_position a) /\ Sg (BeginCapitalSweep.curator a) /\
  MarketConfig.curator (config (value (BeginCapitalSweep.market a))) = BeginCapitalSweep.curator a /\
  CollateralVault.vault (collateral_vault (value (BeginCapitalSweep.market a)))
    = key (BeginCapitalSweep.market_collateral_vault a).
Proof. intros Hl H. unfold BeginCapitalSweep.from_accounts, BeginCapitalSweep.validate in H. parse_done. Qed.

Lemma settle_capital_sweep_shown l a l' :
  shows l -> SettleCapitalSweep.from_accounts l = (Ok a, l') ->
  is_borrow W (SettleCapitalSweep.market a) (SettleCapitalSweep.borrow_position a) /\ Sg (SettleCapitalSweep.curator a) /\
  MarketConfig.curator (config (value (SettleCapitalSweep.market a))) = SettleCapitalSweep.curator a /\
  SupplyVault.vault (supply_vault (value (SettleCapitalSweep.market a)))
    = key (SettleCapitalSweep.market_supply_vault a) /\
  CollateralVault.vault (collateral_vault (value (SettleCapitalSweep.market a)))
    = key (SettleCapitalSweep.market_collateral_vault a).
Proof. intros Hl H. unfold SettleCapitalSweep.from_accounts, SettleCapitalSweep.validate in H. parse_done. Qed.

Lemma socialize_loss_shown l a l' :
  shows l -> SocializeLoss.from_accounts l = (Ok a, l') ->
  is_borrow W (SocializeLoss.market a) (SocializeLoss.borrow_position a) /\ Sg (SocializeLoss.curator a) /\
  MarketConfig.curator (config (value (SocializeLoss.market a))) = SocializeLoss.curator a /\
  CollateralVault.vault (collateral_vault (value (SocializeLoss.market a)))
    = key (SocializeLoss.market_collateral_vault a).
Proof. intros Hl H. unfold SocializeLoss.from_accounts, SocializeLoss.validate in H. parse_done. Qed.

Lemma redeem_curator_fees_shown l a l' :
  shows l -> RedeemCuratorFees.from_accounts l = (Ok a, l') ->
  is_market W (RedeemCuratorFees.market a) /\ Sg (RedeemCuratorFees.curator a) /\
  MarketConfig.curator (config (value (RedeemCuratorFees.market a))) = RedeemCuratorFees.curator a /\
  SupplyVault.vault (supply_vault (value (RedeemCuratorFees.market a)))
    = key (RedeemCuratorFees.market_supply_vault a).
Proof. intros Hl H. unfold RedeemCuratorFees.from_accounts, RedeemCuratorFees.validate in H. parse_done. Qed.

Lemma redeem_protocol_fees_shown l a l' :
  shows l -> RedeemProtocolFees.from_accounts l = (Ok a, l') ->
  is_market W (RedeemProtocolFees.market a) /\ Sg (RedeemProtocolFees.signer_ a) /\
  W !! fst (find_global_config_pda id) = Some (DGlobalConfig (value (RedeemProtocolFees.global_config a))) /\
  can_redeem_fees (value (RedeemProtocolFees.global_config a)) (RedeemProtocolFees.signer_ a) = true /\
  SupplyVault.vault (supply_vault (value (RedeemProtocolFees.market a)))
    = key (RedeemProtocolFees.market_supply_vault a).
Proof. intros Hl H. unfold RedeemProtocolFees.from_accounts, RedeemProtocolFees.validate in H. parse_done. Qed.

Lemma update_config_shown l a l' :
  shows l -> UpdateConfig.from_accounts l = (Ok a, l') ->
  is_market W (UpdateConfig.market a) /\ Sg (UpdateConfig.curator a) /\
  MarketConfig.curator (config (value (UpdateConfig.market a))) = UpdateConfig.curator a /\
  W !! fst (find_global_config_pda id) = Some (DGlobalConfig (value (UpdateConfig.global_config a))).
Proof. intros Hl H. unfold UpdateConfig.from_accounts, UpdateConfig.validate in H. parse_done. Qed.

Lemma donate_supply_shown l a l' :
  shows l -> DonateSupply.from_accounts l = (Ok a, l') ->
  is_market W (DonateSupply.market a) /\ Sg (DonateSupply.authority a) /\
  SupplyVault.vault (supply_vault (value (DonateSupply.market a)))
    = key (DonateSupply.market_supply_vault a).
Proof. intros Hl H. unfold DonateSupply.from_accounts, DonateSupply.validate in H. parse_done. Qed.

Lemma update_global_config_shown l a l' :
  shows l -> UpdateGlobalConfig.from_accounts l = (Ok a, l') ->
  W !! key (UpdateGlobalConfig.global_config a) = Some (DGlobalConfig (value (UpdateGlobalConfig.global_config a))) /\
  Sg (UpdateGlobalConfig.signer_ a).
Proof. intros Hl H. unfold UpdateGlobalConfig.from_accounts, UpdateGlobalConfig.validate in H. parse_done. Qed.

Lemma add_whitelisted_shown liq b l a l' :
  shows l -> AddWhitelistedLiquidator.from_accounts liq b l = (Ok a, l') ->
  is_market W (AddWhitelistedLiquidator.market a) /\
  Sg (AddWhitelistedLiquidator.curator a) /\
  MarketConfig.curator (config (value (AddWhitelistedLiquidator.market a)))
    = AddWhitelistedLiquidator.curator a /\
  shown W Sg (AddWhitelistedLiquidator.whitelist_entry a) /\
  ai_key (AddWhitelistedLiquidator.whitelist_entry a)
    = fst (find_liquidator_whitelist_entry_pda id
             (key (AddWhitelistedLiquidator.market a)) liq) /\
  (forall e, ai_owner (AddWhitelistedLiquidator.whitelist_entry a) = id ->
     whitelist_entry_of_bytes (ai_data (AddWhitelistedLiquidator.whitelist_entry a)) = Some e ->
     LiquidatorWhitelist.market e = key (AddWhitelistedLiquidator.market a) /\
     LiquidatorWhitelist.liquidator e = liq).
Proof.
  intros Hl H. unfold AddWhitelistedLiquidator.from_accounts,
    AddWhitelistedLiquidator.validate in H. parse_inv.
  destruct (find_liquidator_whitelist_entry_pda _ _ _) as [e eb] eqn:E. parse_inv.
  cbn [AddWhitelistedLiquidator.market AddWhitelistedLiquidator.curator
    AddWhitelistedLiquidator.whitelist_entry] in *.
  split_and!; [congruence || done .. |].
  intros e' Ho He. rewrite bool_decide_true in * by done. parse_inv.
  match goal with H : res_from _ _ = Ok _ |- _ =>
    apply res_from_ok, zero_copy_ok in H as (_ & _ & Hb & _) end.
  rewrite He in Hb. injection Hb as ->. done.
Qed.

Lemma remove_whitelisted_shown liq l a l' :
  shows l -> RemoveWhitelistedLiquidator.from_accounts liq l = (Ok a, l') ->
  is_market W (RemoveWhitelistedLiquidator.market a) /\
  Sg (RemoveWhitelistedLiquidator.curator a) /\
  MarketConfig.curator (config (value (RemoveWhitelistedLiquidator.market a)))
    = RemoveWhitelistedLiquidator.curator a /\
  W !! key (RemoveWhitelistedLiquidator.whitelist_entry a)
    = Some (DWhitelistEntry (value (RemoveWhitelistedLiquidator.whitelist_entry a))) /\
  key (RemoveWhitelistedLiquidator.whitelist_entry a)
    = fst (find_liquidator_whitelist_entry_pda id
             (key (RemoveWhitelistedLiquidator.market a)) liq) /\
  LiquidatorWhitelist.market (value (RemoveWhitelistedLiquidator.whitelist_entry a))
    = key (RemoveWhitelistedLiquidator.market a) /\
  LiquidatorWhitelist.liquidator (value (RemoveWhitelistedLiquidator.whitelist_entry a)) = liq.
Proof.
  intros Hl H. unfold RemoveWhitelistedLiquidator.from_accounts,
    RemoveWhitelistedLiquidator.validate in H. parse_done.
Qed.

Lemma liquidate_shown l a l' :
  shows l -> Liquidate.from_accounts l = (Ok a, l') ->
  is_borrow W (Liquidate.market a) (Liquidate.borrow_position a) /\
  Sg (Liquidate.liquidator a) /\
  may_liquidate W (key (Liquidate.market a)) (value (Liquidate.market a)) (Liquidate.liquidator a) /\
  SupplyVault.vault (supply_vault (value (Liquidate.market a)))
    = key (Liquidate.market_supply_vault a) /\
  CollateralVault.vault (collateral_vault (value (Liquidate.market a)))
    = key (Liquidate.market_collateral_vault a).
Proof.
  intros Hl H. unfold Liquidate.from_accounts, Liquidate.validate in H. parse_inv.
  cbn in *. unfold may_liquidate.
  destruct (liquidations_are_permissionless _) eqn:Ep; cbn in *; parse_inv; cbn in *;
    split_and!; auto; try (split; assumption).
  right.
  match goal with H : Some _ = Some _ |- _ => injection H as -> end.
  match goal with H : Liquidate.next_entry _ = _ |- _ =>
    apply (next_entry_shown W Sg) in H; [| eassumption] end.
  bool_prop. eexists. split_and!; [| eassumption..].
  match goal with H : key _ = fst _ |- _ => by rewrite <- H end.
Qed.

Lemma create_supply_position_shown l a l' :
  shows l -> CreateSupplyPosition.from_accounts l = (Ok a, l') ->
  is_market W (CreateSupplyPosition.market a) /\ Sg (CreateSupplyPosition.authority a).
Proof. intros Hl H. unfold CreateSupplyPosition.from_accounts in H. parse_done. Qed.

Lemma create_borrow_position_shown l a l' :
  shows l -> CreateBorrowPosition.from_accounts l = (Ok a, l') ->
  is_market W (CreateBorrowPosition.market a) /\ Sg (CreateBorrowPosition.authority a).
Proof. intros Hl H. unfold CreateBorrowPosition.from_accounts in H. parse_done. Qed.

Lemma create_market_shown l a l' :
  shows l -> CreateMarket.from_accounts l = (Ok a, l') ->
  Sg (CreateMarket.curator a) /\
  W !! fst (find_global_config_pda id)
    = Some (DGlobalConfig (value (CreateMarket.global_config a))) /\
  (exists b, mint_of_bytes b = Some (value (CreateMarket.supply_mint a))) /\
  (exists b, mint_of_bytes b = Some (value (CreateMarket.collateral_mint a))).
Proof.
  intros Hl H. unfold CreateMarket.from_accounts, CreateMarket.validate in H.
  parse_inv. cbn in *. split_and!; eauto; congruence.
Qed.

End Instructions.
