(* ===== verification/Ledger.v ===== *)
(** * The ledger and its refinement to the protocol

    All the accounts of the program on one chain, and the instructions that change them, in
    any order and with any accounts, arguments and clock.  [ledger_step] is one successful
    instruction; what is assumed of the runtime is in [RuntimeLaws] and [fresh]: a created
    account did not exist before and holds zeros, and an account is read as it is.

    Each market with its positions is one instance of the state machine of [Protocol]: the
    ledger refines it ([ledger_refines]). *)
From stdpp Require Import gmap relations.
From S2P Require Import Prelude.
From S2P Require Import Errors.
From S2P Require Import Monad.
From S2P Require Import FixedPoint.
From S2P Require Import InterestRateCurve.
From S2P Require Import Pda.
From S2P Require Import OracleRate.
From S2P Require Import Oracle.
From S2P Require Import GlobalConfig.
From S2P Require Import LiquidatorWhitelist.
From S2P Require Import MarketConfig.
From S2P Require Import SupplyPosition.
From S2P Require Import BorrowPosition.
From S2P Require Import PositionFacts.
From S2P Require Import CollateralVault.
From S2P Require Import SupplyVault.
From S2P Require Import Liquidation.
From S2P Require Import Market.
From S2P Require Import MarketWrapper.
From S2P Require Import Creation.
From S2P Require Import Protocol.
From S2P Require Import ProgramErrors.
From S2P Require Import Accounts.
From S2P Require Import IxsUser.
From S2P Require Import IxsAdmin.
From S2P Require Import Events.
From S2P Require Import Processor.
From S2P Require Import ProcessorAdmin.
From S2P Require Import Processor.
From S2P Require Import ProcessorAdmin.
From S2P Require Import ProcessorFacts.
From S2P Require Import Program.
From S2P Require Import ProgramFacts.

(** ** The machine *)

Definition apply_writes (ws : Writes) (W : World) : World :=
  foldl (fun W '(k, d) => <[k := d]> W) W ws.

Definition created (cs : list Call) (k : Pubkey) : Prop :=
  exists c f l n o, c ∈ cs /\ call c = create_account f k l n o.

(** The system program creates only accounts that do not exist. *)
Definition fresh (W : World) (cs : list Call) : Prop := forall k, created cs k -> W !! k = None.

(** Amounts and basis points are unsigned. *)
Definition ix_args (ix : AurataInstruction) : Prop :=
  match ix with
  | Ix.CreateMarket d => 0 <= ci_lending_market_fee_in_bps d
  | Ix.SupplyApl n | Ix.BorrowApl n | Ix.DonateSupply n => 0 <= n
  | Ix.WithdrawSupply d => 0 <= ws_amount d
  | Ix.RepayApl d => 0 <= ra_amount d
  | Ix.UpdateConfig d => fee_arg d
  | Ix.Liquidate d => 0 <= lq_max_borrowed_atoms_to_repay d
  | Ix.CreateGlobalConfig d => 0 <= cg_protocol_fee_share_in_bps d
  | Ix.UpdateGlobalConfig d =>
    match ug_protocol_fee_share_in_bps d with Some n => 0 <= n | None => True end
  | Ix.BorrowDepositApl d => 0 <= bd_borrow_amount d
  | Ix.WithdrawRepayApl d => 0 <= wr_repay_amount d
  | Ix.SettleCapitalSweep d => 0 <= sc_max_borrowed_atoms_to_repay d
  | _ => True
  end.

Class RuntimeLaws {AC : AccountCodec} {ME : Memory} : Prop := {
  after_nothing a : account_after [] a = a;
  created_market cs a m : created cs (ai_key a) ->
    market_of_bytes (ai_data (account_after cs a)) = Some m -> m = zero_market;
  created_supply cs a p : created cs (ai_key a) ->
    supply_position_of_bytes (ai_data (account_after cs a)) = Some p ->
    p = zero_supply_position;
  created_borrow cs a p : created cs (ai_key a) ->
    borrow_position_of_bytes (ai_data (account_after cs a)) = Some p ->
    p = zero_borrow_position;
  mint_decimals_u8 b m : mint_of_bytes b = Some m -> is_u8 (mi_decimals m) }.

Section Ledger.
Context {FX : FixedCrate} {PC : PdaCrate} {BC : OracleBuild} {RT : Runtime}.
Context {CH : Chain} {AC : AccountCodec} {ME : Memory}.

Inductive ledger_step (W : World) : World -> Prop :=
| ledger_ix Sg accounts ix ts o :
    Forall (shown W Sg) accounts -> ix_args ix ->
    autara_process_instruction id accounts ix ts = Ok o -> fresh W (calls o) ->
    ledger_step W (apply_writes (written o) W).

Definition ledger_reachable (W : World) : Prop := rtc ledger_step ∅ W.

End Ledger.

(** ** The view of one market *)

Definition sel_supply (k : Pubkey) (d : AccountData) : option SupplyPosition :=
  match d with
  | DSupply p => if decide (SupplyPosition.market p = k) then Some p else None
  | _ => None
  end.
Definition sel_borrow (k : Pubkey) (d : AccountData) : option BorrowPosition :=
  match d with
  | DBorrow p => if decide (BorrowPosition.market p = k) then Some p else None
  | _ => None
  end.

Definition view (k : Pubkey) (m : Market) (W : World) : Protocol :=
  mkProtocol m (omap (sel_supply k) W) (omap (sel_borrow k) W).

(** A write that a selection does not see, on an account that it did not see. *)
Lemma omap_unseen {A} (f : AccountData -> option A) (W : World) j d :
  f d = None -> W !! j ≫= f = None -> omap f (<[j := d]> W) = omap f W.
Proof.
  intros Hd Hj. rewrite omap_insert, Hd. apply delete_id. by rewrite lookup_omap.
Qed.

Lemma omap_seen {A} (f : AccountData -> option A) (W : World) j d x :
  f d = Some x -> omap f (<[j := d]> W) = <[j := x]> (omap f W).
Proof. intros Hd. by rewrite omap_insert, Hd. Qed.

Lemma sel_supply_some k p : SupplyPosition.market p = k -> sel_supply k (DSupply p) = Some p.
Proof. intros H. cbn. by rewrite decide_True. Qed.
Lemma sel_supply_none k p : SupplyPosition.market p <> k -> sel_supply k (DSupply p) = None.
Proof. intros H. cbn. by rewrite decide_False. Qed.
Lemma sel_borrow_some k p : BorrowPosition.market p = k -> sel_borrow k (DBorrow p) = Some p.
Proof. intros H. cbn. by rewrite decide_True. Qed.
Lemma sel_borrow_none k p : BorrowPosition.market p <> k -> sel_borrow k (DBorrow p) = None.
Proof. intros H. cbn. by rewrite decide_False. Qed.

Section Refinement.
Context {FX : FixedCrate} {FXL : FixedLaws FX}.

Lemma reachable_steps s s' : reachable s -> rtc step s s' -> reachable s'.
Proof. intros Hr H. induction H as [| s s1 s' H _ IH]; [done | apply IH, (reach_step s); done]. Qed.

(** ** Moves of the handlers are steps of the protocol *)

Lemma market_moves_steps m m' ss bs :
  rtc market_move m m' -> rtc step (mkProtocol m ss bs) (mkProtocol m' ss bs).
Proof.
  induction 1 as [| m m1 m' [o x y Ha Ho] _ IH]; [apply rtc_refl |].
  eapply rtc_l; [by eapply step_market | done].
Qed.

Lemma supply_moves_steps s s' ss bs k :
  rtc (move supply_args run_supply) s s' -> ss !! k = Some (snd s) ->
  rtc step (mkProtocol (fst s) ss bs) (mkProtocol (fst s') (<[k := snd s']> ss) bs).
Proof.
  intros H. revert ss. induction H as [s | s s1 s' Hm _ IH]; intros ss Hk.
  - rewrite insert_id by done. apply rtc_refl.
  - destruct Hm as [ts m p m' Ho | o [m p] [m1 p1] Ha Ho]; cbn in *.
    + eapply rtc_l; [by apply (step_market _ _ _ (SyncClock ts)) |]. by apply IH.
    + eapply rtc_l; [by eapply step_supply |].
      specialize (IH (<[k := p1]> ss)). rewrite insert_insert_eq in IH. apply IH.
      apply lookup_insert_eq.
Qed.

Lemma borrow_moves_steps s s' ss bs k :
  rtc (move borrow_args run_borrow) s s' -> bs !! k = Some (snd s) ->
  rtc step (mkProtocol (fst s) ss bs) (mkProtocol (fst s') ss (<[k := snd s']> bs)).
Proof.
  intros H. revert bs. induction H as [s | s s1 s' Hm _ IH]; intros bs Hk.
  - rewrite insert_id by done. apply rtc_refl.
  - destruct Hm as [ts m p m' Ho | o [m p] [m1 p1] Ha Ho]; cbn in *.
    + eapply rtc_l; [by apply (step_market _ _ _ (SyncClock ts)) |]. by apply IH.
    + eapply rtc_l; [by eapply step_borrow |].
      specialize (IH (<[k := p1]> bs)). rewrite insert_insert_eq in IH. apply IH.
      apply lookup_insert_eq.
Qed.

(** The owner and the market of a position never change, and its operations leave the
    configuration of the market alone. *)
Lemma supply_moves_owner s s' :
  market_ok (fst s) -> supply_position_ok (snd s) ->
  rtc (move supply_args run_supply) s s' ->
  SupplyPosition.authority (snd s') = SupplyPosition.authority (snd s) /\
  SupplyPosition.market (snd s') = SupplyPosition.market (snd s) /\
  config (fst s') = config (fst s).
Proof.
  intros Hm Hp H. induction H as [| s s1 s' Hs _ IH]; [done |].
  destruct Hs as [ts m p m' Ho | o [m p] [m1 p1] Ha Ho]; cbn in *.
  - apply sync_clock_effect in Ho as [[Hm' _ _ _] [Hcf _]]; [| done].
    rewrite <- Hcf. by apply IH.
  - apply run_supply_effect in Ho as [Hm' Hp' [Hcf _] [Hau Hmk] _ _ _]; [| done..].
    destruct (IH Hm' Hp') as (E1 & E2 & E3). by rewrite E1, E2, E3.
Qed.

Lemma borrow_moves_owner s s' :
  market_ok (fst s) -> borrower_ok (snd s) ->
  rtc (move borrow_args run_borrow) s s' ->
  BorrowPosition.authority (snd s') = BorrowPosition.authority (snd s) /\
  BorrowPosition.market (snd s') = BorrowPosition.market (snd s) /\
  config (fst s') = config (fst s).
Proof.
  intros Hm Hp H. induction H as [| s s1 s' Hs _ IH]; [done |].
  destruct Hs as [ts m p m' Ho | o [m p] [m1 p1] Ha Ho]; cbn in *.
  - apply sync_clock_effect in Ho as [[Hm' _ _ _] [Hcf _]]; [| done].
    rewrite <- Hcf. by apply IH.
  - apply run_borrow_effect in Ho as [Hm' Hp' [Hcf _] [Hau Hmk] _ _ _]; [| done..].
    destruct (IH Hm' Hp') as (E1 & E2 & E3). by rewrite E1, E2, E3.
Qed.

(** ** The invariant of the ledger *)

Record ledger_ok (W : World) : Prop := {
  lo_markets k m : W !! k = Some (DMarket m) -> reachable (view k m W);
  lo_supply k p : W !! k = Some (DSupply p) ->
    exists m, W !! SupplyPosition.market p = Some (DMarket m);
  lo_borrow k p : W !! k = Some (DBorrow p) ->
    exists m, W !! BorrowPosition.market p = Some (DMarket m);
  lo_config k g : W !! k = Some (DGlobalConfig g) ->
    0 <= GlobalConfig.protocol_fee_share_in_bps g }.

Lemma ledger_empty : ledger_ok ∅.
Proof. split; intros ? ?; rewrite lookup_empty; discriminate. Qed.

Definition holds_market (W : World) (k : Pubkey) : Prop := exists m, W !! k = Some (DMarket m).

(** A write keeps the markets where they are, unless it replaces one by something else. *)
Lemma holds_market_write W j d k :
  holds_market (<[j := d]> W) j \/ ~ holds_market W j -> holds_market W k ->
  holds_market (<[j := d]> W) k.
Proof.
  intros Hj Hk. destruct (decide (k = j)) as [-> | Hne]; [tauto |].
  destruct Hk as [m Hk]. exists m. by rewrite lookup_insert_ne.
Qed.

Lemma holds_market_new W j m : holds_market (<[j := DMarket m]> W) j.
Proof. exists m. apply lookup_insert_eq. Qed.

Ltac ledger_lookup H :=
  apply lookup_insert_Some in H as [[? H] | [? H]]; [simplify_eq H |].

(** An account that no view sees. *)
Lemma ledger_write_other W j d :
  ledger_ok W -> ~ holds_market W j ->
  (forall m, d <> DMarket m) -> (forall k, sel_supply k d = None) ->
  (forall k, sel_borrow k d = None) ->
  (forall k, W !! j ≫= sel_supply k = None) -> (forall k, W !! j ≫= sel_borrow k = None) ->
  (forall p, d <> DSupply p) -> (forall p, d <> DBorrow p) ->
  (forall g, d = DGlobalConfig g -> 0 <= GlobalConfig.protocol_fee_share_in_bps g) ->
  ledger_ok (<[j := d]> W).
Proof.
  intros [Hm Hs Hb Hc] Hj Hnm Hds Hdb Hjs Hjb Hns Hnb Hg.
  split; intros k x Hx; apply lookup_insert_Some in Hx as [[-> Hx] | [Hne Hx]];
    try (by destruct (Hnm x)); try (by destruct (Hns x)); try (by destruct (Hnb x)); eauto.
  - unfold view. rewrite !omap_unseen by done. by apply Hm.
  - apply holds_market_write; [by right | by eapply Hs].
  - apply holds_market_write; [by right | by eapply Hb].
Qed.

Lemma ledger_write_market W k m m' :
  ledger_ok W -> W !! k = Some (DMarket m) -> rtc market_move m m' ->
  ledger_ok (<[k := DMarket m']> W).
Proof.
  intros [Hm Hs Hb Hc] Hk Hmv.
  split; intros j x Hx; apply lookup_insert_Some in Hx as [[-> Hx] | [Hne Hx]];
    try discriminate Hx; eauto.
  - injection Hx as ->. unfold view. rewrite !omap_unseen by (done || by rewrite Hk).
    eapply reachable_steps; [by apply Hm |]. by apply market_moves_steps.
  - unfold view. rewrite !omap_unseen by (done || by rewrite Hk). by apply Hm.
  - apply holds_market_write; [left; apply holds_market_new | by eapply Hs].
  - apply holds_market_write; [left; apply holds_market_new | by eapply Hb].
Qed.

(** The positions of a market are seen by its view only. *)
Definition position_of (k : Pubkey) (d : AccountData) : Prop :=
  match d with
  | DSupply p => SupplyPosition.market p = k
  | DBorrow p => BorrowPosition.market p = k
  | _ => False
  end.

Lemma position_unseen k k' d :
  position_of k d -> k' <> k -> sel_supply k' d = None /\ sel_borrow k' d = None.
Proof.
  destruct d; cbn; try done; intros <- Hne; by rewrite decide_False.
Qed.

(** A market and one of its positions are written. *)
Lemma ledger_write_pair W km kp m m' d d' :
  ledger_ok W -> W !! km = Some (DMarket m) -> W !! kp = Some d ->
  position_of km d -> position_of km d' ->
  reachable (view km m' (<[kp := d']> (<[km := DMarket m']> W))) ->
  ledger_ok (<[kp := d']> (<[km := DMarket m']> W)).
Proof.
  intros [Hm Hs Hb Hc] Hkm Hkp Hd Hd' Hr.
  assert (Hne : kp <> km) by (intros ->; rewrite Hkm in Hkp; by simplify_eq).
  assert (Hmkts : forall k, holds_market W k ->
    holds_market (<[kp := d']> (<[km := DMarket m']> W)) k).
  { intros k H. apply holds_market_write.
    - right. intros [x Hx]. rewrite lookup_insert_ne in Hx by done. by simplify_eq.
    - apply holds_market_write; [left; apply holds_market_new | done]. }
  split; intros k x Hx; apply lookup_insert_Some in Hx as [[-> Hx] | [Hk Hx]];
    try apply lookup_insert_Some in Hx as [[-> Hx] | [Hk' Hx]]; simplify_eq; try done; eauto.
  - destruct (position_unseen km k d Hd), (position_unseen km k d' Hd'); [done.. |].
    unfold view. rewrite !omap_unseen;
      rewrite ?lookup_insert_ne, ?Hkp, ?Hkm by done; try done. by apply Hm.
  - apply Hmkts. cbn in Hd'. rewrite Hd'. by exists m.
  - apply Hmkts. by eapply Hs.
  - apply Hmkts. cbn in Hd'. rewrite Hd'. by exists m.
  - apply Hmkts. by eapply Hb.
Qed.

Lemma ledger_write_supply W m p s' :
  ledger_ok W -> is_supply W m p -> rtc (move supply_args run_supply) (value m, value p) s' ->
  ledger_ok (<[key p := DSupply (snd s')]> (<[key m := DMarket (fst s')]> W)).
Proof.
  intros Hok [Hkm Hkp Hof] Hmv. pose proof (lo_markets _ Hok _ _ Hkm) as Hr.
  assert (Hsel : omap (sel_supply (key m)) W !! key p = Some (value p)).
  { rewrite lookup_omap, Hkp. by apply sel_supply_some. }
  destruct (reachable_accounted _ Hr) as [Hma Hsu _ _ _ _].
  destruct (supply_moves_owner (_, _) _ Hma (Hsu _ _ Hsel) Hmv) as (_ & Hmk & _).
  cbn [snd] in Hmk. rewrite Hof in Hmk.
  assert (Hne : key p <> key m) by (intros E; rewrite E in Hkp; unfold is_market in Hkm; congruence).
  eapply ledger_write_pair; [done.. |].
  unfold view. rewrite (omap_seen _ _ _ _ (snd s')) by by apply sel_supply_some.
  rewrite !omap_unseen by (rewrite ?lookup_insert_ne, ?Hkp, ?Hkm by done; done).
  eapply reachable_steps; [exact Hr |]. by apply (supply_moves_steps (value m, value p)).
Qed.

Lemma ledger_write_borrow W m p s' :
  ledger_ok W -> is_borrow W m p -> rtc (move borrow_args run_borrow) (value m, value p) s' ->
  ledger_ok (<[key p := DBorrow (snd s')]> (<[key m := DMarket (fst s')]> W)).
Proof.
  intros Hok [Hkm Hkp Hof] Hmv. pose proof (lo_markets _ Hok _ _ Hkm) as Hr.
  assert (Hsel : omap (sel_borrow (key m)) W !! key p = Some (value p)).
  { rewrite lookup_omap, Hkp. by apply sel_borrow_some. }
  destruct (reachable_accounted _ Hr) as [Hma _ Hbo _ _ _].
  destruct (borrow_moves_owner (_, _) _ Hma (Hbo _ _ Hsel) Hmv) as (_ & Hmk & _).
  cbn [snd] in Hmk. rewrite Hof in Hmk.
  assert (Hne : key p <> key m) by (intros E; rewrite E in Hkp; unfold is_market in Hkm; congruence).
  eapply ledger_write_pair; [done.. |].
  unfold view. rewrite (omap_seen _ _ _ _ (snd s')) by by apply sel_borrow_some.
  rewrite !omap_unseen by (rewrite ?lookup_insert_ne, ?Hkp, ?Hkm by done; done).
  eapply reachable_steps; [exact Hr |]. by apply (borrow_moves_steps (value m, value p)).
Qed.

(** ** Creation *)

(** No position belongs to a market that is not there. *)
Lemma no_market_no_positions W k :
  ledger_ok W -> W !! k = None ->
  omap (sel_supply k) W = ∅ /\ omap (sel_borrow k) W = ∅.
Proof.
  intros [_ Hs Hb _] Hk.
  split; apply map_empty; intros j; rewrite lookup_omap;
    destruct (W !! j) as [[m | p | p | g | e] |] eqn:E; cbn; try done;
    case_decide as D; try done; [destruct (Hs j p E) | destruct (Hb j p E)]; congruence.
Qed.

Lemma ledger_create_market W k m a g ts :
  ledger_ok W -> W !! k = None ->
  is_u8 (cm_supply_decimals a) -> is_u8 (cm_collateral_decimals a) ->
  0 <= cm_fee_in_bps a -> 0 <= GlobalConfig.protocol_fee_share_in_bps g ->
  create_market_state a g ts zero_market = (Ok tt, m) ->
  ledger_ok (<[k := DMarket m]> W).
Proof.
  intros Hok Hk Hsd Hcd Hf Hg H.
  destruct (no_market_no_positions W k Hok Hk) as [Es Eb]. destruct Hok as [Hm Hs Hb Hc].
  split; intros j x Hx; apply lookup_insert_Some in Hx as [[-> Hx] | [Hne Hx]];
    simplify_eq; eauto.
  - unfold view. rewrite !omap_unseen by (done || by rewrite Hk). rewrite Es, Eb.
    by eapply reach_created.
  - unfold view. rewrite !omap_unseen by (done || by rewrite Hk). by apply Hm.
  - apply holds_market_write; [left; apply holds_market_new | by eapply Hs].
  - apply holds_market_write; [left; apply holds_market_new | by eapply Hb].
Qed.

Lemma ledger_create_position W km k m d :
  ledger_ok W -> W !! km = Some (DMarket m) -> W !! k = None -> position_of km d ->
  step (view km m W) (view km m (<[k := d]> W)) -> ledger_ok (<[k := d]> W).
Proof.
  intros [Hm Hs Hb Hc] Hkm Hk Hd Hst.
  assert (Hmkts : forall j, holds_market W j -> holds_market (<[k := d]> W) j).
  { intros j. apply holds_market_write. right. intros [x Hx]. congruence. }
  split; intros j x Hx; apply lookup_insert_Some in Hx as [[-> Hx] | [Hne Hx]];
    simplify_eq; try done; eauto.
  - destruct (decide (j = km)) as [-> | Hj].
    + rewrite Hkm in Hx. injection Hx as <-. by eapply reach_step; [apply Hm |].
    + destruct (position_unseen km j d Hd Hj) as [E1 E2].
      unfold view. rewrite !omap_unseen by (done || by rewrite Hk). by apply Hm.
  - apply Hmkts. cbn in Hd. rewrite Hd. by exists m.
  - apply Hmkts. by eapply Hs.
  - apply Hmkts. cbn in Hd. rewrite Hd. by exists m.
  - apply Hmkts. by eapply Hb.
Qed.

Lemma ledger_create_supply W km k m ow p :
  ledger_ok W -> W !! km = Some (DMarket m) -> W !! k = None ->
  SupplyPosition.initialize ow km zero_supply_position = (Ok tt, p) ->
  ledger_ok (<[k := DSupply p]> W).
Proof.
  intros Hok Hkm Hk Hp.
  assert (Hmk : SupplyPosition.market p = km)
    by (unfold SupplyPosition.initialize in Hp; run_inv; done).
  eapply ledger_create_position; [done.. |].
  unfold view. rewrite (omap_seen _ _ _ _ p) by by apply sel_supply_some.
  rewrite omap_unseen by (done || by rewrite Hk).
  eapply step_open_supply; [| exact Hp]. by rewrite lookup_omap, Hk.
Qed.

Lemma ledger_create_borrow W km k m ow p :
  ledger_ok W -> W !! km = Some (DMarket m) -> W !! k = None ->
  BorrowPosition.initialize ow km zero_borrow_position = (Ok tt, p) ->
  ledger_ok (<[k := DBorrow p]> W).
Proof.
  intros Hok Hkm Hk Hp.
  assert (Hmk : BorrowPosition.market p = km)
    by (unfold BorrowPosition.initialize in Hp; run_inv; done).
  eapply ledger_create_position; [done.. |].
  unfold view. rewrite (omap_seen _ _ _ _ p) by by apply sel_borrow_some.
  rewrite omap_unseen by (done || by rewrite Hk).
  eapply step_open_borrow; [| exact Hp]. by rewrite lookup_omap, Hk.
Qed.

End Refinement.

(** ** Every instruction keeps the invariant *)

Lemma parse_ok {A} (p : Parser A) l a : parse p l = Ok a -> exists l', p l = (Ok a, l').
Proof. unfold parse. destruct (p l) as [r l']. cbn. intros ->. eauto. Qed.

Lemma finish_ok {S} (h : Handler S ()) s w o :
  finish h s w = Ok o ->
  exists ctx, h (mkCtx s []) = (Ok tt, ctx) /\ o = mkOutcome (w (cx_state ctx)) (cx_calls ctx).
Proof.
  unfold finish. destruct (h (mkCtx s [])) as [[[] | |] ctx]; cbn; intros [=]; subst; eauto.
Qed.

(** Opens an instruction: its accounts and the run of its handler. *)
Ltac ix_inv H :=
  let a := fresh "a" in let Hp := fresh "Hp" in let l' := fresh "l'" in
  let ctx := fresh "ctx" in let Hh := fresh "Hh" in
  cbn [autara_process_instruction] in H;
  apply res_bind_ok in H as (a & Hp & H); apply parse_ok in Hp as (l' & Hp);
  apply finish_ok in H as (ctx & Hh & ->); cbn [written calls] in *.

Lemma created_in cs f k l n o seeds :
  mkCall (create_account f k l n o) seeds ∈ cs -> created cs k.
Proof. intros H. by eexists _, f, l, n, o. Qed.

Ltac solve_created :=
  eapply created_in; cbn [app];
  repeat first [apply list_elem_of_here | apply elem_of_app; left].

Section Preservation.
Context {FX : FixedCrate} {FXL : FixedLaws FX} {PC : PdaCrate} {BC : OracleBuild} {RT : Runtime}.
Context {CH : Chain} {AC : AccountCodec} {ME : Memory} {RL : RuntimeLaws}.

Lemma create_market_ledger W Sg l d ts o :
  ledger_ok W -> Forall (shown W Sg) l -> 0 <= ci_lending_market_fee_in_bps d ->
  autara_process_instruction id l (Ix.CreateMarket d) ts = Ok o -> fresh W (calls o) ->
  ledger_ok (apply_writes (written o) W).
Proof.
  intros Hok Hl Ha H Hf. ix_inv H.
  apply (create_market_shown W Sg) in Hp as (_ & Hg & [b1 Hm1] & [b2 Hm2]); [| done].
  unfold process_create_market in Hh. handler_inv. cbn [cx_state cx_calls] in *.
  match goal with H : market_of_bytes _ = Some t |- _ =>
    apply created_market in H; [subst t | solve_created] end.
  eapply (ledger_create_market W _ t'
    (mkCreateMarket (ci_market_bump d) (ci_index d) (CreateMarket.curator a)
       (ci_ltv_config d) (ci_max_utilisation_rate d) (ci_lending_market_fee_in_bps d)
       (key (CreateMarket.supply_mint a)) (mi_decimals (value (CreateMarket.supply_mint a)))
       (ai_key (CreateMarket.supply_vault a)) (ci_supply_oracle_config d)
       (ci_interest_rate d) (key (CreateMarket.collateral_mint a))
       (mi_decimals (value (CreateMarket.collateral_mint a)))
       (ai_key (CreateMarket.collateral_vault a)) (ci_collateral_oracle_config d)));
    [done | apply Hf; solve_created | by eapply mint_decimals_u8 | by eapply mint_decimals_u8
    | done | by eapply lo_config | eassumption].
Qed.

Lemma create_positions_ledger W Sg l ix b ts o :
  ledger_ok W -> Forall (shown W Sg) l ->
  ix = Ix.CreateSupplyPosition b \/ ix = Ix.CreateBorrowPosition b ->
  autara_process_instruction id l ix ts = Ok o -> fresh W (calls o) ->
  ledger_ok (apply_writes (written o) W).
Proof.
  intros Hok Hl [-> | ->] H Hf; ix_inv H.
  - apply (create_supply_position_shown W Sg) in Hp as [Hm _]; [| done].
    unfold process_create_supply_position in Hh. handler_inv. cbn [cx_state cx_calls] in *.
    match goal with H : supply_position_of_bytes _ = Some t |- _ =>
      apply created_supply in H; [subst t | solve_created] end.
    eapply ledger_create_supply; [done | exact Hm | apply Hf; solve_created | eassumption].
  - apply (create_borrow_position_shown W Sg) in Hp as [Hm _]; [| done].
    unfold process_create_borrow_position in Hh. handler_inv. cbn [cx_state cx_calls] in *.
    match goal with H : borrow_position_of_bytes _ = Some t |- _ =>
      apply created_borrow in H; [subst t | solve_created] end.
    eapply ledger_create_borrow; [done | exact Hm | apply Hf; solve_created | eassumption].
Qed.

(** The configuration: writes that no view sees. *)
Lemma ledger_write_config W j g :
  ledger_ok W -> (W !! j = None \/ exists g0, W !! j = Some (DGlobalConfig g0)) ->
  0 <= GlobalConfig.protocol_fee_share_in_bps g -> ledger_ok (<[j := DGlobalConfig g]> W).
Proof.
  intros Hok Hj Hg.
  apply ledger_write_other; try done; try (intros; by destruct Hj as [-> | [? ->]]).
  - intros [m Hm]. destruct Hj as [Hj | [? Hj]]; congruence.
  - naive_solver.
Qed.

Lemma ledger_write_entry W j e :
  ledger_ok W -> (W !! j = None \/ exists e0, W !! j = Some (DWhitelistEntry e0)) ->
  ledger_ok (<[j := DWhitelistEntry e]> W).
Proof.
  intros Hok Hj.
  apply ledger_write_other; try done; try (intros; by destruct Hj as [-> | [? ->]]).
  intros [m Hm]. destruct Hj as [Hj | [? Hj]]; congruence.
Qed.

Lemma upgrade_share g g' :
  upgrade_nomination g = (Ok tt, g') ->
  GlobalConfig.protocol_fee_share_in_bps g' = GlobalConfig.protocol_fee_share_in_bps g.
Proof.
  unfold upgrade_nomination, st_bind, zoom. cbn [lget lset nominated_admin_lens].
  destruct (PodOption.take (nominated_admin g)) as [[[k |] | |] n]; intros [=]; by subst.
Qed.

Lemma update_global_share a d g cs ctx' :
  0 <= GlobalConfig.protocol_fee_share_in_bps g ->
  match ug_protocol_fee_share_in_bps d with Some n => 0 <= n | None => True end ->
  process_update_global_config a d (mkCtx g cs) = (Ok tt, ctx') ->
  0 <= GlobalConfig.protocol_fee_share_in_bps (cx_state ctx').
Proof.
  intros Hg Hd H. unfold process_update_global_config in H. handler_inv.
  all: try (match goal with H : upgrade_nomination _ = _ |- _ => apply upgrade_share in H end).
  all: try (match goal with H : ug_protocol_fee_share_in_bps _ = Some _, Hd : _ |- _ =>
              rewrite H in Hd end).
  all: unfold set_fee_receiver, set_nominated_admin, update_protocol_fee_share_in_bps in *;
    run_inv; cbn in *; lia.
Qed.

(** The instructions on a market and one of its positions. *)
Definition supply_ix (ix : AurataInstruction) : Prop :=
  match ix with Ix.SupplyApl _ | Ix.WithdrawSupply _ => True | _ => False end.
Definition borrow_ix (ix : AurataInstruction) : Prop :=
  match ix with
  | Ix.BorrowApl _ | Ix.DepositAplCollateral _ | Ix.WithdrawAplCollateral _ | Ix.RepayApl _
  | Ix.BorrowDepositApl _ | Ix.WithdrawRepayApl _ | Ix.Liquidate _ | Ix.SocializeLoss
  | Ix.BeginCapitalSweep | Ix.SettleCapitalSweep _ => True
  | _ => False
  end.

Lemma supply_ix_run W Sg l ix ts o :
  Forall (shown W Sg) l -> ix_args ix -> supply_ix ix ->
  autara_process_instruction id l ix ts = Ok o ->
  exists m p s', is_supply W m p /\
    rtc (move supply_args run_supply) (value m, value p) s' /\
    written o = write_supply m p s'.
Proof.
  intros Hl Ha Hix H. destruct ix; try done; ix_inv H; cbn [ix_args] in Ha;
    [ apply (supply_apl_shown W Sg) in Hp as (Hp & _); [| done]; apply supply_apl_moves in Hh
    | apply (withdraw_supply_shown W Sg) in Hp as (Hp & _); [| done];
      apply withdraw_supply_moves in Hh ]; try done; eexists _, _, _; eauto.
Qed.

Ltac borrow_case shown_lemma moves_lemma :=
  match goal with
  | Hp : _ ?l = (Ok _, _), Hh : _ = (Ok tt, _), Hl : Forall (shown ?W ?Sg) ?l |- _ =>
      apply (shown_lemma W Sg) in Hp as (Hp & _); [| exact Hl];
      apply moves_lemma in Hh; [| done ..]; by eexists _, _, _
  end.

Lemma borrow_ix_run W Sg l ix ts o :
  Forall (shown W Sg) l -> ix_args ix -> borrow_ix ix ->
  autara_process_instruction id l ix ts = Ok o ->
  exists m p s', is_borrow W m p /\
    rtc (move borrow_args run_borrow) (value m, value p) s' /\
    written o = write_borrow m p s'.
Proof.
  intros Hl Ha Hix H. destruct ix; try done; ix_inv H; cbn [ix_args] in Ha.
  - borrow_case borrow_apl_shown borrow_apl_moves.
  - borrow_case deposit_apl_collateral_shown deposit_apl_collateral_moves.
  - borrow_case withdraw_apl_collateral_shown withdraw_apl_collateral_moves.
  - borrow_case repay_apl_shown repay_apl_moves.
  - borrow_case liquidate_shown liquidate_moves.
  - borrow_case borrow_deposit_apl_shown borrow_deposit_apl_moves.
  - borrow_case withdraw_repay_apl_shown withdraw_repay_apl_moves.
  - borrow_case socialize_loss_shown socialize_loss_moves.
  - borrow_case begin_capital_sweep_shown begin_capital_sweep_moves.
  - borrow_case settle_capital_sweep_shown settle_capital_sweep_moves.
Qed.

Lemma position_ix_ledger W Sg l ix ts o :
  ledger_ok W -> Forall (shown W Sg) l -> ix_args ix -> supply_ix ix \/ borrow_ix ix ->
  autara_process_instruction id l ix ts = Ok o -> ledger_ok (apply_writes (written o) W).
Proof.
  intros Hok Hl Ha [Hix | Hix] H.
  - destruct (supply_ix_run _ _ _ _ _ _ Hl Ha Hix H) as (m & p & s' & Hp & Hmv & ->).
    by apply ledger_write_supply.
  - destruct (borrow_ix_run _ _ _ _ _ _ Hl Ha Hix H) as (m & p & s' & Hp & Hmv & ->).
    by apply ledger_write_borrow.
Qed.

(** The instructions on a market alone. *)
Lemma market_ix_ledger W Sg l ix ts o :
  ledger_ok W -> Forall (shown W Sg) l -> ix_args ix ->
  match ix with
  | Ix.UpdateConfig _ | Ix.ReedeemCuratorFees | Ix.ReedeemProtocolFees | Ix.DonateSupply _ =>
    True
  | _ => False
  end ->
  autara_process_instruction id l ix ts = Ok o -> ledger_ok (apply_writes (written o) W).
Proof.
  intros Hok Hl Ha Hix H. destruct ix; try done; ix_inv H; cbn [ix_args] in Ha.
  - apply (update_config_shown W Sg) in Hp as (Hp & _ & _ & Hg); [| done].
    apply process_update_config_moves in Hh; [| by eapply lo_config | done].
    by eapply ledger_write_market.
  - apply (redeem_curator_fees_shown W Sg) in Hp as (Hp & _); [| done].
    apply redeem_curator_fees_moves in Hh. by eapply ledger_write_market.
  - apply (redeem_protocol_fees_shown W Sg) in Hp as (Hp & _); [| done].
    apply redeem_protocol_fees_moves in Hh. by eapply ledger_write_market.
  - apply (donate_supply_shown W Sg) in Hp as (Hp & _); [| done].
    apply donate_supply_moves in Hh; [| done]. by eapply ledger_write_market.
Qed.

(** The global configuration and the whitelist. *)
Lemma config_ix_ledger W Sg l ix ts o :
  ledger_ok W -> Forall (shown W Sg) l -> ix_args ix ->
  match ix with Ix.CreateGlobalConfig _ | Ix.UpdateGlobalConfig _ => True | _ => False end ->
  autara_process_instruction id l ix ts = Ok o -> fresh W (calls o) ->
  ledger_ok (apply_writes (written o) W).
Proof.
  intros Hok Hl Ha Hix H Hf. destruct ix; try done; ix_inv H; cbn [ix_args] in Ha.
  - unfold process_create_global_config in Hh. handler_inv. cbn [cx_state cx_calls] in *.
    unfold GlobalConfig.initialize in *. run_inv.
    apply ledger_write_config; [done | left; apply Hf; solve_created | done].
  - apply (update_global_config_shown W Sg) in Hp as [Hp _]; [| done].
    apply update_global_share in Hh; [| by eapply lo_config | done].
    apply ledger_write_config; eauto.
Qed.

Lemma whitelist_ix_ledger W Sg l ix ts o :
  ledger_ok W -> Forall (shown W Sg) l ->
  match ix with
  | Ix.AddWhitelistedLiquidator _ | Ix.RemoveWhitelistedLiquidator _ => True
  | _ => False
  end ->
  autara_process_instruction id l ix ts = Ok o -> fresh W (calls o) ->
  ledger_ok (apply_writes (written o) W).
Proof.
  intros Hok Hl Hix H Hf. destruct ix; try done; ix_inv H.
  - apply (add_whitelisted_shown W Sg) in Hp as (Hp & _ & _ & He & _); [| done].
    pose proof (ledger_write_market _ _ _ _ Hok Hp (add_whitelisted_moves _ _ _ _ _ _ Hh)).
    apply add_whitelisted_run in Hh as (c & t & t' & _ & Hs & Hcase).
    rewrite Hs in *. cbn [fst write_market write_new snd app apply_writes foldl] in *.
    apply ledger_write_entry; [done |].
    destruct Hcase as [(_ & (f & n & k & o & sd & Hc) & _) | (_ & Ho & Hb & Hi & _)].
    + left. apply created_in, Hf in Hc.
      rewrite lookup_insert_ne; [done |]. intros E. rewrite <- E in Hc.
      unfold is_market in Hp. congruence.
    + right. exists t. rewrite after_nothing in Ho, Hb.
      pose proof (shown_entry _ _ _ He _ Ho Hb Hi) as Hw.
      rewrite lookup_insert_ne; [done |]. intros E. rewrite <- E in Hw.
      unfold is_market in Hp. congruence.
  - apply (remove_whitelisted_shown W Sg) in Hp as (Hp & _ & _ & He & _); [| done].
    pose proof (ledger_write_market _ _ _ _ Hok Hp (remove_whitelisted_moves _ _ _ _ _ _ Hh)).
    apply ledger_write_entry; [done |]. right. eexists.
    rewrite lookup_insert_ne; [exact He |]. intros E. rewrite <- E in He.
    unfold is_market in Hp. congruence.
Qed.

Lemma ledger_step_ok W W' : ledger_ok W -> ledger_step W W' -> ledger_ok W'.
Proof.
  intros Hok [Sg l ix ts o Hl Ha H Hf]. pose proof Ha as Ha'. destruct ix.
  all: try (eapply position_ix_ledger; [done | done | exact Ha | first [left; exact I | right; exact I] | exact H]);
    try (by eapply market_ix_ledger); try (by eapply config_ix_ledger);
    try (eapply whitelist_ix_ledger; [exact Hok | exact Hl | | exact H | exact Hf]; exact I);
    try (by eapply create_market_ledger);
    try (eapply create_positions_ledger; [exact Hok | exact Hl | | exact H | exact Hf];
         first [by left | by right]).
  cbn [autara_process_instruction] in H. run_inv. done.
Qed.

(** Each market of a reachable ledger, with its positions, is a reachable state of the
    protocol. *)
Lemma ledger_reachable_ok W : ledger_reachable W -> ledger_ok W.
Proof.
  unfold ledger_reachable. intros H. revert H. generalize ledger_empty.
  generalize (∅ : World). intros W0 H0 H. induction H as [| W0 W1 W H _ IH]; [done |].
  apply IH. by eapply ledger_step_ok.
Qed.



End Preservation.
