(* ===== verification/LedgerExample.v ===== *)
(** * A ledger to try the properties on

    A chain on which every call is accepted, and the accounts of the program on it: the
    global configuration, a market and a borrow position are created by the instructions,
    and the borrower deposits collateral.  The contents of an account are given by a number
    in its data. *)
From stdpp Require Import gmap relations.
From S2P Require Import Prelude.
From S2P Require Import Errors.
From S2P Require Import Monad.
From S2P Require Import FixedPoint.
From S2P Require Import FixedFacts.
From S2P Require Import InterestRatePerSecond.
From S2P Require Import InterestRateCurve.
From S2P Require Import PodOption.
From S2P Require Import Pda.
From S2P Require Import OracleRate.
From S2P Require Import Oracle.
From S2P Require Import GlobalConfig.
From S2P Require Import LiquidatorWhitelist.
From S2P Require Import MarketConfig.
From S2P Require Import SupplyPosition.
From S2P Require Import BorrowPosition.
From S2P Require Import PositionFacts.
From S2P Require Import CollateralVault.
From S2P Require Import SupplyVault.
From S2P Require Import Liquidation.
From S2P Require Import Market.
From S2P Require Import MarketWrapper.
From S2P Require Import Creation.
From S2P Require Import Protocol.
From S2P Require Import ProgramErrors.
From S2P Require Import Accounts.
From S2P Require Import IxsUser.
From S2P Require Import IxsAdmin.
From S2P Require Import Events.
From S2P Require Import Processor.
From S2P Require Import ProcessorAdmin.
From S2P Require Import Processor.
From S2P Require Import ProcessorAdmin.
From S2P Require Import ProcessorFacts.
From S2P Require Import Program.
From S2P Require Import ProgramFacts.
From S2P Require Import Ledger.
From S2P Require Import Ledger.

(** ** The chain *)

Definition chain_ex : Chain := {|
  apl_token_id := key_ex 50;
  apl_ata_id := key_ex 51;
  SYSTEM_PROGRAM_ID := key_ex 52;
  get_associated_token_address := fun _ mint =>
    if bool_decide (mint = key_ex 4) then key_ex 5 else key_ex 7;
  minimum_rent := fun n => n |}.
Definition runtime_ex : Runtime := fun _ _ => None.

Definition creates (k : Pubkey) (c : Call) : bool :=
  match call c with create_account _ k' _ _ _ => bool_decide (k' = k) | _ => false end.
Definition memory_ex : Memory := fun cs a =>
  if existsb (creates (ai_key a)) cs
  then mkAccountInfo (ai_key a) id (ai_is_signer a) (ai_is_writable a) [0] else a.

#[local] Existing Instance fixed_ref.
#[local] Existing Instance fixed_ref_laws.
#[local] Existing Instance pda_ex.
#[local] Existing Instance borsh_ex.
#[local] Existing Instance chain_ex.
#[local] Existing Instance runtime_ex.
#[local] Existing Instance memory_ex.

Definition config_key : Pubkey := Eval vm_compute in fst (find_global_config_pda id).
Definition market_key : Pubkey := key_ex 8.
Definition position_key : Pubkey := key_ex 31.

Definition config_1 : GlobalConfig :=
  mkGlobalConfig (key_ex 1) (mkPodOption (key_ex 0)) (key_ex 2) 5000.
Definition market_ix : CreateMarketInstruction :=
  mkCreateMarketIx 255 0 ltv_ex (IFP (2 ^ 48 * 95 / 100)) Oracle.config_ex
    Oracle.config_ex
    (Fixed (mkRatePerSecond (IFP 1000))) 500.

Definition some_account (k owner : Pubkey) (signer : bool) (n : Z) : AccountInfo :=
  mkAccountInfo k owner signer true [n].
Definition signer_account (k : Pubkey) : AccountInfo := some_account k (key_ex 52) true 9.
Definition system_account : AccountInfo := some_account (key_ex 52) (key_ex 52) false 9.
Definition token_program : AccountInfo := some_account (key_ex 50) (key_ex 52) false 9.
Definition feed_account : AccountInfo :=
  mkAccountInfo feed_id_ex program_ex false false (data feed_ex).

(** ** The instructions *)

Definition create_config_accounts : list AccountInfo :=
  [signer_account (key_ex 1); some_account config_key (key_ex 52) false 9; system_account].
Definition create_market_accounts : list AccountInfo :=
  [signer_account (key_ex 3); signer_account (key_ex 3); some_account config_key id false 3;
   some_account market_key (key_ex 52) false 9;
   some_account (key_ex 4) (key_ex 50) false 5; some_account (key_ex 5) (key_ex 52) false 9;
   some_account (key_ex 6) (key_ex 50) false 6; some_account (key_ex 7) (key_ex 52) false 9;
   token_program; some_account (key_ex 51) (key_ex 52) false 9; system_account].
Definition create_position_accounts : list AccountInfo :=
  [some_account market_key id false 1; some_account position_key (key_ex 52) false 9;
   signer_account (key_ex 21); signer_account (key_ex 21); system_account].
Definition deposit_accounts : list AccountInfo :=
  [some_account market_key id false 1; some_account position_key id false 2;
   signer_account (key_ex 21); some_account (key_ex 60) (key_ex 50) false 4;
   some_account (key_ex 7) (key_ex 50) false 7; token_program; feed_account; feed_account].

Definition market_1 : Market := Eval vm_compute in
  match CreateMarket.from_accounts (CH := chain_ex) (AC := {|
    market_of_bytes := fun _ => None; supply_position_of_bytes := fun _ => None;
    borrow_position_of_bytes := fun _ => None;
    global_config_of_bytes := fun _ => Some config_1;
    whitelist_entry_of_bytes := fun _ => None; token_account_of_bytes := fun _ => None;
    mint_of_bytes := fun b => Some (mkMint (if bool_decide (b = [5]) then 6 else 8)) |})
    create_market_accounts with
  | (Ok a, _) => snd (initialize_market a market_ix 1000 zero_market)
  | _ => zero_market
  end.
Definition position_1 : BorrowPosition :=
  mkBorrowPosition (key_ex 21) market_key 0 0 (UFP 0) 0.

Definition codec_ex : AccountCodec := {|
  market_of_bytes := fun b =>
    match b with [0] => Some zero_market | [1] => Some market_1 | _ => None end;
  supply_position_of_bytes := fun b =>
    match b with [0] => Some zero_supply_position | _ => None end;
  borrow_position_of_bytes := fun b =>
    match b with [0] => Some zero_borrow_position | [2] => Some position_1 | _ => None end;
  global_config_of_bytes := fun b =>
    match b with
    | [0] => Some (mkGlobalConfig zero_key (mkPodOption zero_key) zero_key 0)
    | [3] => Some config_1
    | _ => None
    end;
  whitelist_entry_of_bytes := fun b =>
    match b with [0] => Some (mkEntry zero_key zero_key [0] [0]) | _ => None end;
  token_account_of_bytes := fun b =>
    match b with
    | [4] => Some (mkTokenAccount (key_ex 6) (key_ex 21))
    | [7] => Some (mkTokenAccount (key_ex 6) market_key)
    | _ => None
    end;
  mint_of_bytes := fun b =>
    match b with [5] => Some (mkMint 6) | [6] => Some (mkMint 8) | _ => None end |}.

#[local] Existing Instance codec_ex.

Lemma created_by cs k : created cs k -> existsb (creates k) cs = true.
Proof.
  intros (c & f & l & n & o & Hc & E). apply existsb_exists. exists c.
  split; [by apply list_elem_of_In |]. unfold creates. rewrite E. by apply bool_decide_eq_true.
Qed.

Lemma runtime_laws_ex : RuntimeLaws.
Proof.
  split.
  - done.
  - intros cs a m Hc. unfold account_after, memory_ex. rewrite created_by by done. cbn. congruence.
  - intros cs a m Hc. unfold account_after, memory_ex. rewrite created_by by done. cbn. congruence.
  - intros cs a m Hc. unfold account_after, memory_ex. rewrite created_by by done. cbn. congruence.
  - intros b m H. cbn in H. repeat case_match; simplify_eq; by vm_compute.
Qed.

(** ** The run *)

Definition run_ex (l : list AccountInfo) (ix : AurataInstruction) : Outcome :=
  match autara_process_instruction id l ix 1000 with
  | Ok o => o
  | _ => mkOutcome [] []
  end.

Definition config_ix : AurataInstruction :=
  Ix.CreateGlobalConfig (mkCreateGlobalConfigIx 255 (key_ex 1) (key_ex 2) 5000).
Definition deposit_ix : AurataInstruction := Ix.DepositAplCollateral 700.

Definition ledger_1 : World := {[config_key := DGlobalConfig config_1]}.
Definition ledger_2 : World := <[market_key := DMarket market_1]> ledger_1.
Definition ledger_3 : World := <[position_key := DBorrow position_1]> ledger_2.

Example run_config : written (run_ex create_config_accounts config_ix)
  = [(config_key, DGlobalConfig config_1)].
Proof. vm_compute. reflexivity. Qed.
Example run_market_1 : written (run_ex create_market_accounts (Ix.CreateMarket market_ix))
  = [(market_key, DMarket market_1)].
Proof. vm_compute. reflexivity. Qed.
Example run_position : written (run_ex create_position_accounts (Ix.CreateBorrowPosition 255))
  = [(position_key, DBorrow position_1)].
Proof. vm_compute. reflexivity. Qed.

Definition signs (ks : list Pubkey) (k : Pubkey) : Prop := k ∈ ks.

(** Shows the accounts of an example one by one. *)
Ltac show_accounts :=
  repeat (apply Forall_cons_iff; split); [.. | apply Forall_nil];
  (split; cbn [ai_is_signer ai_owner ai_data ai_key some_account signer_account system_account
     token_program feed_account];
   [ intros H; try discriminate H; unfold signs; set_solver
   | intros x Ho H Hi; cbn in H; try discriminate H; try (vm_compute in Ho; discriminate Ho);
     injection H as <-; vm_compute; reflexivity .. ]).

(** No created account was there. *)
Definition fresh_check (W : World) (cs : list Call) : bool :=
  forallb (fun c => match call c with
                    | create_account _ k _ _ _ => match W !! k with None => true | _ => false end
                    | _ => true
                    end) cs.
Lemma fresh_by W cs : fresh_check W cs = true -> fresh W cs.
Proof.
  intros H k (c & f & l & n & o & Hc & E). unfold fresh_check in H.
  rewrite forallb_forall in H. apply list_elem_of_In in Hc. specialize (H c Hc).
  cbn in H. rewrite E in H. by destruct (W !! k).
Qed.

Lemma ledger_1_step : ledger_step ∅ ledger_1.
Proof.
  apply (ledger_ix ∅ (signs [key_ex 1]) create_config_accounts config_ix 1000
           (run_ex create_config_accounts config_ix)).
  - unfold create_config_accounts. show_accounts.
  - cbn. lia.
  - vm_compute. reflexivity.
  - apply fresh_by. vm_compute. reflexivity.
Qed.

Lemma ledger_2_step : ledger_step ledger_1 ledger_2.
Proof.
  apply (ledger_ix ledger_1 (signs [key_ex 3]) create_market_accounts
           (Ix.CreateMarket market_ix) 1000
           (run_ex create_market_accounts (Ix.CreateMarket market_ix))).
  - unfold create_market_accounts. show_accounts.
  - cbn. lia.
  - vm_compute. reflexivity.
  - apply fresh_by. vm_compute. reflexivity.
Qed.

Lemma ledger_3_step : ledger_step ledger_2 ledger_3.
Proof.
  apply (ledger_ix ledger_2 (signs [key_ex 21]) create_position_accounts
           (Ix.CreateBorrowPosition 255) 1000
           (run_ex create_position_accounts (Ix.CreateBorrowPosition 255))).
  - unfold create_position_accounts. show_accounts.
  - done.
  - vm_compute. reflexivity.
  - apply fresh_by. vm_compute. reflexivity.
Qed.

Lemma ledger_3_reachable : ledger_reachable ledger_3.
Proof.
  unfold ledger_reachable. eapply rtc_l; [apply ledger_1_step |].
  eapply rtc_l; [apply ledger_2_step |]. apply rtc_once, ledger_3_step.
Qed.

Lemma deposit_shown : Forall (shown ledger_3 (signs [key_ex 21])) deposit_accounts.
Proof. unfold deposit_accounts. show_accounts. Qed.

Lemma deposit_run :
  autara_process_instruction id deposit_accounts deposit_ix 1000
  = Ok (run_ex deposit_accounts deposit_ix).
Proof. vm_compute. reflexivity. Qed.

Example deposit_written :
  exists m p, written (run_ex deposit_accounts deposit_ix)
              = [(market_key, DMarket m); (position_key, DBorrow p)] /\
              collateral_total m = 700 /\ collateral_deposited_atoms p = 700.
Proof. vm_compute. eexists _, _. split; [reflexivity | split; reflexivity]. Qed.
