(* ===== verification/LedgerProps.v ===== *)
(** * Properties of the program as a whole

    What holds on every ledger that the instructions of the program can produce, and who
    has to sign for a change. *)
From stdpp Require Import gmap relations.
From S2P Require Import Prelude.
From S2P Require Import Errors.
From S2P Require Import Monad.
From S2P Require Import FixedPoint.
From S2P Require Import FixedFacts.
From S2P Require Import SharesTracker.
From S2P Require Import InterestRateCurve.
From S2P Require Import Pda.
From S2P Require Import OracleRate.
From S2P Require Import Oracle.
From S2P Require Import GlobalConfig.
From S2P Require Import LiquidatorWhitelist.
From S2P Require Import MarketConfig.
From S2P Require Import SupplyPosition.
From S2P Require Import BorrowPosition.
From S2P Require Import PositionFacts.
From S2P Require Import CollateralVault.
From S2P Require Import SupplyVault.
From S2P Require Import Liquidation.
From S2P Require Import Market.
From S2P Require Import MarketWrapper.
From S2P Require Import Creation.
From S2P Require Import Protocol.
From S2P Require Import ProgramErrors.
From S2P Require Import Accounts.
From S2P Require Import IxsUser.
From S2P Require Import IxsAdmin.
From S2P Require Import Events.
From S2P Require Import Processor.
From S2P Require Import ProcessorAdmin.
From S2P Require Import Processor.
From S2P Require Import ProcessorAdmin.
From S2P Require Import ProcessorFacts.
From S2P Require Import Program.
From S2P Require Import ProgramFacts.
From S2P Require Import Ledger.
From S2P Require Import LedgerExample.

(** ** Who may change what *)

(** The ways a borrow position may be changed: by its owner, by the curator of its market
    (sweeps and bad debt), by a liquidator that the market admits. *)
Inductive borrow_consent {PC : PdaCrate} (W : World) (Sg : Pubkey -> Prop)
  (ix : AurataInstruction) (p : BorrowPosition) : Prop :=
| consent_owner : Sg (BorrowPosition.authority p) -> borrow_consent W Sg ix p
| consent_curator m :
    W !! BorrowPosition.market p = Some (DMarket m) -> Sg (curator (config m)) ->
    match ix with
    | Ix.BeginCapitalSweep | Ix.SettleCapitalSweep _ | Ix.SocializeLoss => True
    | _ => False
    end -> borrow_consent W Sg ix p
| consent_liquidator m liquidator d :
    W !! BorrowPosition.market p = Some (DMarket m) -> ix = Ix.Liquidate d ->
    Sg liquidator -> may_liquidate W (BorrowPosition.market p) m liquidator ->
    borrow_consent W Sg ix p.

(** The fees of a market that are pending, in shares. *)
Definition curator_fees (m : Market) : Z :=
  u_bits (pending_curator_fee_shares (supply_vault m)).
Definition protocol_fees (m : Market) : Z :=
  u_bits (pending_protocol_fee_shares (supply_vault m)).

(** Pending fees are taken only by who may redeem them: the curator of the market, and the
    admin or the fee receiver of the protocol. *)
Definition fee_consent {PC : PdaCrate} (W : World) (Sg : Pubkey -> Prop) (m m' : Market)
  : Prop :=
  (curator_fees m <= curator_fees m' \/ Sg (curator (config m))) /\
  (protocol_fees m <= protocol_fees m' \/
   exists g s, W !! fst (find_global_config_pda id) = Some (DGlobalConfig g) /\
     can_redeem_fees g s = true /\ Sg s).

(** A write that an instruction signed by [Sg], with the calls [cs], may make on the ledger
    [W]. *)
Inductive authorised {PC : PdaCrate} (W : World) (Sg : Pubkey -> Prop)
  (ix : AurataInstruction) (cs : list Call) : Pubkey * AccountData -> Prop :=
| auth_new k d : created cs k -> W !! k = None -> authorised W Sg ix cs (k, d)
| auth_market k m m' :
    W !! k = Some (DMarket m) -> curator (config m') = curator (config m) ->
    config m' = config m \/ Sg (curator (config m)) -> fee_consent W Sg m m' ->
    authorised W Sg ix cs (k, DMarket m')
| auth_supply k p p' :
    W !! k = Some (DSupply p) -> Sg (SupplyPosition.authority p) ->
    SupplyPosition.authority p' = SupplyPosition.authority p ->
    SupplyPosition.market p' = SupplyPosition.market p -> authorised W Sg ix cs (k, DSupply p')
| auth_borrow k p p' :
    W !! k = Some (DBorrow p) -> borrow_consent W Sg ix p ->
    BorrowPosition.authority p' = BorrowPosition.authority p ->
    BorrowPosition.market p' = BorrowPosition.market p -> authorised W Sg ix cs (k, DBorrow p')
| auth_config k g g' :
    W !! k = Some (DGlobalConfig g) ->
    (exists s, Sg s /\ (admin g = s \/ can_upgrade_nomination g s = true) /\ admin g' = s) ->
    authorised W Sg ix cs (k, DGlobalConfig g')
| auth_entry k e e' m :
    W !! k = Some (DWhitelistEntry e) ->
    W !! LiquidatorWhitelist.market e = Some (DMarket m) -> Sg (curator (config m)) ->
    LiquidatorWhitelist.market e' = LiquidatorWhitelist.market e ->
    LiquidatorWhitelist.liquidator e' = LiquidatorWhitelist.liquidator e ->
    authorised W Sg ix cs (k, DWhitelistEntry e').

Section Consent.
Context {FX : FixedCrate} {FXL : FixedLaws FX} {PC : PdaCrate} {BC : OracleBuild} {RT : Runtime}.
Context {CH : Chain} {AC : AccountCodec} {ME : Memory} {RL : RuntimeLaws}.
Implicit Types (W : World) (Sg : Pubkey -> Prop).

(** The accounts of a ledger are well formed. *)
Lemma market_in_ledger W m :
  ledger_ok W -> is_market W m -> market_ok (value m).
Proof.
  intros Hok Hm. by destruct (reachable_accounted _ (lo_markets _ Hok _ _ Hm)) as [Hma _ _ _ _ _].
Qed.

(** ** The configuration of a market *)

Lemma run_market_curator o m m' :
  run_market o m = (Ok tt, m') -> curator (config m') = curator (config m).
Proof.
  intros H. destruct o; cbn [run_market] in H; try (apply drop_result_ok in H as [n H]).
  all: try (unfold Market.sync_clock, Market.redeem_protocol_fees, redeem_curator_fess,
    donate_supply_atoms, set_supply_oracle_config, set_collateral_oracle_config in H;
    run_inv; done).
  all: apply zoom_ok in H as (c & H & ->); cbn.
  - by apply update_ltv_ok in H as (_ & -> & _).
  - by apply update_max_utilisation_ok in H as [-> _].
  - unfold update_max_supply_atoms in H. by run_inv.
  - unfold set_lending_market_fee in H. by run_inv.
  - unfold sync_global_config in H. by run_inv.
  - unfold increment_active_whitelisted_liquidators in H. by run_inv.
  - unfold decrement_active_whitelisted_liquidators in H. by run_inv.
Qed.

Lemma market_moves_curator m m' :
  rtc market_move m m' -> curator (config m') = curator (config m).
Proof.
  induction 1 as [| m m1 m' [o x y _ Ho] _ IH]; [done |].
  by rewrite IH, (run_market_curator _ _ _ Ho).
Qed.

Lemma sync_clock_config ts m m' : Market.sync_clock ts m = (Ok tt, m') -> config m' = config m.
Proof. unfold Market.sync_clock. intros H. by run_inv. Qed.

(** What an update of the configuration leaves of a market. *)
Lemma update_config_effect d g ts m m' :
  update_config_market d g ts m = (Ok tt, m') ->
  exists m1 c, Market.sync_clock ts m = (Ok tt, m1) /\
    supply_vault m' = SupplyVault.put_oracle_config c (supply_vault m1) /\
    collateral_total m' = collateral_total m /\
    MarketConfig.protocol_fee_share_in_bps (config m')
      = GlobalConfig.protocol_fee_share_in_bps g /\
    curator (config m') = curator (config m).
Proof.
  intros H. unfold update_config_market in H.
  apply st_bind_ok in H as ([] & m1 & Hs & H). exists m1.
  assert (Hid : supply_vault m1
    = SupplyVault.put_oracle_config (SupplyVault.oracle_config (supply_vault m1))
        (supply_vault m1)) by (by destruct (supply_vault m1)).
  pose proof (sync_clock_config _ _ _ Hs) as Hcf.
  assert (Hct : collateral_total m1 = collateral_total m)
    by (unfold Market.sync_clock in Hs; by run_inv).
  repeat match goal with
  | H : st_bind _ _ _ = _ |- _ => apply st_bind_ok in H as ([] & ? & ? & H)
  end.
  repeat match goal with
  | H : when_some _ _ _ = _ |- _ => apply when_some_ok in H as [[_ ->] | (? & _ & H)]
  end;
  unfold set_supply_oracle_config, set_collateral_oracle_config, SupplyVault.set_oracle_config,
    CollateralVault.set_oracle_config, update_max_supply_atoms, set_lending_market_fee,
    sync_global_config in *; run_inv;
  repeat match goal with
  | H : update_ltv _ _ = _ |- _ => apply update_ltv_ok in H as (_ & -> & _)
  | H : update_max_utilisation_rate _ _ = _ |- _ =>
      apply update_max_utilisation_ok in H as [-> _]
  end; eexists; split_and!; try exact Hs; try exact Hid; try reflexivity;
  unfold collateral_total in *; cbn in *; congruence.
Qed.

(** ** The pending fees *)

Definition fees_kept (m m' : Market) : Prop :=
  curator_fees m <= curator_fees m' /\ protocol_fees m <= protocol_fees m'.

Lemma fees_kept_consent W Sg m m' : fees_kept m m' -> fee_consent W Sg m m'.
Proof. intros [Hc Hp]. split; by left. Qed.

Lemma fees_kept_trans m1 m2 m3 : fees_kept m1 m2 -> fees_kept m2 m3 -> fees_kept m1 m3.
Proof. unfold fees_kept. lia. Qed.

Lemma sync_clock_fees ts m m' :
  market_ok m -> Market.sync_clock ts m = (Ok tt, m') -> fees_kept m m'.
Proof.
  intros (Hv & _ & Hbps) H. unfold Market.sync_clock in H. run_inv.
  match goal with H : SupplyVault.sync_clock _ _ _ _ = _ |- _ =>
    by apply sync_clock_fees_grow in H end.
Qed.

(** The operations on positions leave them alone. *)
Definition vault_fees (v : SupplyVault) : UFixedPoint * UFixedPoint :=
  (pending_curator_fee_shares v, pending_protocol_fee_shares v).
Definition pair_fees {P} (s : Market * P) : UFixedPoint * UFixedPoint :=
  vault_fees (supply_vault (fst s)).

Lemma keeps_on_vault {P A} (m : ST SupplyVault A) :
  keeps vault_fees m -> keeps (pair_fees (P := P)) (on_vault m).
Proof. intros H. eapply keeps_zoom_at; [exact H |]. by intros [m0 p] v. Qed.
Lemma keeps_on_collateral {P A} (m : ST CollateralVault A) :
  keeps (pair_fees (P := P)) (on_collateral m).
Proof. by apply keeps_zoom. Qed.
Lemma keeps_on_position {P A} (m : ST P A) : keeps pair_fees (on_position m).
Proof. by apply keeps_zoom. Qed.
Lemma keeps_supply {A} (m : ST SharesTracker A) : keeps vault_fees (zoom supply_lens m).
Proof. by apply keeps_zoom. Qed.
Lemma keeps_borrow {A} (m : ST SharesTracker A) : keeps vault_fees (zoom borrow_lens m).
Proof. by apply keeps_zoom. Qed.

Ltac keeps_fees :=
  repeat first
    [ progress intros ? | solve [eauto with keeps] | apply keeps_bind
    | apply keeps_on_vault | apply keeps_on_collateral | apply keeps_on_position
    | apply keeps_supply | apply keeps_borrow | case_match ].

Lemma keeps_fees_kept {P} (f : ST (Market * P) ()) m p m' p' :
  keeps pair_fees f -> f (m, p) = (Ok tt, (m', p')) -> fees_kept m m'.
Proof.
  intros H E. specialize (H (m, p)). rewrite E in H. injection H as Hc Hp.
  cbn in *. unfold fees_kept, curator_fees, protocol_fees. rewrite Hc, Hp. lia.
Qed.

Lemma supply_moves_fees s s' :
  market_ok (fst s) -> supply_position_ok (snd s) ->
  rtc (move supply_args run_supply) s s' -> fees_kept (fst s) (fst s').
Proof.
  intros Hm Hp H. induction H as [| s s1 s' Hs _ IH]; [unfold fees_kept; lia |].
  destruct Hs as [ts m p m' Ho | o [m p] [m1 p1] Ha Ho]; cbn in *.
  - pose proof (sync_clock_fees _ _ _ Hm Ho) as Hf.
    apply sync_clock_effect in Ho as [[Hm' _ _ _] _]; [| done].
    by eapply fees_kept_trans; [exact Hf | apply IH].
  - assert (Hf : fees_kept m m1) by (eapply keeps_fees_kept, Ho; destruct o; keeps_fees).
    apply run_supply_effect in Ho as [Hm' Hp' _ _ _ _ _]; [| done..].
    by eapply fees_kept_trans; [exact Hf | apply IH].
Qed.

Lemma borrow_moves_fees s s' :
  market_ok (fst s) -> borrower_ok (snd s) ->
  rtc (move borrow_args run_borrow) s s' -> fees_kept (fst s) (fst s').
Proof.
  intros Hm Hp H. induction H as [| s s1 s' Hs _ IH]; [unfold fees_kept; lia |].
  destruct Hs as [ts m p m' Ho | o [m p] [m1 p1] Ha Ho]; cbn in *.
  - pose proof (sync_clock_fees _ _ _ Hm Ho) as Hf.
    apply sync_clock_effect in Ho as [[Hm' _ _ _] _]; [| done].
    by eapply fees_kept_trans; [exact Hf | apply IH].
  - assert (Hf : fees_kept m m1) by (eapply keeps_fees_kept, Ho; destruct o; keeps_fees).
    apply run_borrow_effect in Ho as [Hm' Hp' _ _ _ _ _]; [| done..].
    by eapply fees_kept_trans; [exact Hf | apply IH].
Qed.

Lemma update_config_fees d g ts m m' :
  market_ok m -> update_config_market d g ts m = (Ok tt, m') -> fees_kept m m'.
Proof.
  intros Hm (m1 & c & Hs & Ev & _)%update_config_effect.
  apply sync_clock_fees in Hs; [| done]. unfold fees_kept, curator_fees, protocol_fees in *.
  by rewrite Ev.
Qed.

(** ** The writes on positions *)

Lemma supply_authorised W Sg ix cs m p s' :
  ledger_ok W -> is_supply W m p -> Sg (SupplyPosition.authority (value p)) ->
  rtc (move supply_args run_supply) (value m, value p) s' ->
  Forall (authorised W Sg ix cs) (write_supply m p s').
Proof.
  intros Hok [Hkm Hkp Hof] HSg Hmv. pose proof (lo_markets _ Hok _ _ Hkm) as Hr.
  assert (Hsel : omap (sel_supply (key m)) W !! key p = Some (value p)).
  { rewrite lookup_omap, Hkp. by apply sel_supply_some. }
  destruct (reachable_accounted _ Hr) as [Hma Hsu _ _ _ _].
  destruct (supply_moves_owner (_, _) _ Hma (Hsu _ _ Hsel) Hmv) as (Ha & Hmk & Hcf).
  pose proof (supply_moves_fees (_, _) _ Hma (Hsu _ _ Hsel) Hmv) as Hfee.
  cbn [fst snd view the_market] in *. unfold write_supply.
  constructor; [| constructor; [| constructor]].
  - eapply auth_market; [exact Hkm | congruence | by left | by apply fees_kept_consent].
  - by eapply auth_supply.
Qed.

Lemma borrow_authorised W Sg ix cs m p s' :
  ledger_ok W -> is_borrow W m p -> borrow_consent W Sg ix (value p) ->
  rtc (move borrow_args run_borrow) (value m, value p) s' ->
  Forall (authorised W Sg ix cs) (write_borrow m p s').
Proof.
  intros Hok [Hkm Hkp Hof] HSg Hmv. pose proof (lo_markets _ Hok _ _ Hkm) as Hr.
  assert (Hsel : omap (sel_borrow (key m)) W !! key p = Some (value p)).
  { rewrite lookup_omap, Hkp. by apply sel_borrow_some. }
  destruct (reachable_accounted _ Hr) as [Hma _ Hbo _ _ _].
  destruct (borrow_moves_owner (_, _) _ Hma (Hbo _ _ Hsel) Hmv) as (Ha & Hmk & Hcf).
  pose proof (borrow_moves_fees (_, _) _ Hma (Hbo _ _ Hsel) Hmv) as Hfee.
  cbn [fst snd view the_market] in *. unfold write_borrow.
  constructor; [| constructor; [| constructor]].
  - eapply auth_market; [exact Hkm | congruence | by left | by apply fees_kept_consent].
  - by eapply auth_borrow.
Qed.

Lemma owner_consent W Sg ix (p : Account BorrowPosition) k :
  Sg k -> BorrowPosition.authority (value p) = k -> borrow_consent W Sg ix (value p).
Proof. intros Hk <-. by apply consent_owner. Qed.

Lemma supply_ix_authorised W Sg l ix ts o :
  ledger_ok W -> Forall (shown W Sg) l -> ix_args ix ->
  match ix with Ix.SupplyApl _ | Ix.WithdrawSupply _ => True | _ => False end ->
  autara_process_instruction id l ix ts = Ok o -> Forall (authorised W Sg ix (calls o)) (written o).
Proof.
  intros Hok Hl Ha Hix H. destruct ix; try done; ix_inv H; cbn [ix_args] in Ha;
    [ apply (supply_apl_shown W Sg) in Hp as (Hp & Hs & Ho & _); [| done];
      apply supply_apl_moves in Hh
    | apply (withdraw_supply_shown W Sg) in Hp as (Hp & Hs & Ho & _); [| done];
      apply withdraw_supply_moves in Hh ]; try done; rewrite <- Ho in Hs;
    by apply supply_authorised.
Qed.

Ltac owner_case shown_lemma moves_lemma :=
  match goal with
  | Hp : _ ?l = (Ok _, _), Hh : _ = (Ok tt, _), Hl : Forall (shown ?W ?Sg) ?l |- _ =>
      apply (shown_lemma W Sg) in Hp as (Hp & ? & ? & _); [| exact Hl];
      apply moves_lemma in Hh; [| done ..];
      eapply borrow_authorised; [done | done | by eapply owner_consent | done]
  end.

Lemma owner_ix_authorised W Sg l ix ts o :
  ledger_ok W -> Forall (shown W Sg) l -> ix_args ix ->
  match ix with
  | Ix.BorrowApl _ | Ix.DepositAplCollateral _ | Ix.WithdrawAplCollateral _ | Ix.RepayApl _
  | Ix.BorrowDepositApl _ | Ix.WithdrawRepayApl _ => True
  | _ => False
  end ->
  autara_process_instruction id l ix ts = Ok o -> Forall (authorised W Sg ix (calls o)) (written o).
Proof.
  intros Hok Hl Ha Hix H. destruct ix; try done; ix_inv H; cbn [ix_args] in Ha.
  - owner_case borrow_apl_shown borrow_apl_moves.
  - owner_case deposit_apl_collateral_shown deposit_apl_collateral_moves.
  - owner_case withdraw_apl_collateral_shown withdraw_apl_collateral_moves.
  - owner_case repay_apl_shown repay_apl_moves.
  - owner_case borrow_deposit_apl_shown borrow_deposit_apl_moves.
  - owner_case withdraw_repay_apl_shown withdraw_repay_apl_moves.
Qed.

Ltac curator_case shown_lemma moves_lemma :=
  match goal with
  | Hp : _ ?l = (Ok _, _), Hh : _ = (Ok tt, _), Hl : Forall (shown ?W ?Sg) ?l |- _ =>
      apply (shown_lemma W Sg) in Hp as (Hp & ? & ? & _); [| exact Hl];
      apply moves_lemma in Hh; [| done ..];
      eapply borrow_authorised; [done | done | | done];
      destruct Hp as [Hkm _ Hof]; eapply consent_curator; [by rewrite Hof | congruence | done]
  end.

Lemma force_ix_authorised W Sg l ix ts o :
  ledger_ok W -> Forall (shown W Sg) l -> ix_args ix ->
  match ix with
  | Ix.Liquidate _ | Ix.SocializeLoss | Ix.BeginCapitalSweep | Ix.SettleCapitalSweep _ => True
  | _ => False
  end ->
  autara_process_instruction id l ix ts = Ok o -> Forall (authorised W Sg ix (calls o)) (written o).
Proof.
  intros Hok Hl Ha Hix H. destruct ix; try done; ix_inv H; cbn [ix_args] in Ha.
  - apply (liquidate_shown W Sg) in Hp as (Hp & Hs & Hml & _); [| done].
    apply liquidate_moves in Hh; [| done].
    apply borrow_authorised; [done | done | | done].
    destruct Hp as [Hkm _ Hof]. rewrite <- Hof in Hml.
    eapply consent_liquidator; [by rewrite Hof | done | exact Hs | exact Hml].
  - curator_case socialize_loss_shown socialize_loss_moves.
  - curator_case begin_capital_sweep_shown begin_capital_sweep_moves.
  - curator_case settle_capital_sweep_shown settle_capital_sweep_moves.
Qed.

(** ** The other writes *)

Lemma market_ix_authorised W Sg l ix ts o :
  ledger_ok W -> Forall (shown W Sg) l -> ix_args ix ->
  match ix with
  | Ix.UpdateConfig _ | Ix.ReedeemCuratorFees | Ix.ReedeemProtocolFees | Ix.DonateSupply _ =>
    True
  | _ => False
  end ->
  autara_process_instruction id l ix ts = Ok o -> Forall (authorised W Sg ix (calls o)) (written o).
Proof.
  intros Hok Hl Ha Hix H. destruct ix; try done; ix_inv H; cbn [ix_args] in Ha;
    (constructor; [| constructor]).
  - apply (update_config_shown W Sg) in Hp as (Hp & Hs & Hc & Hg); [| done].
    assert (Hf : fees_kept (value (UpdateConfig.market a)) (fst (cx_state ctx))).
    { unfold process_update_config in Hh. handler_inv.
      eapply update_config_fees; [by eapply market_in_ledger | eassumption]. }
    apply process_update_config_moves in Hh; [| by eapply lo_config | done].
    eapply auth_market; [exact Hp | by apply market_moves_curator | right; congruence
                        | by apply fees_kept_consent].
  - apply (redeem_curator_fees_shown W Sg) in Hp as (Hp & Hs & Hc & _); [| done].
    pose proof (market_in_ledger _ _ Hok Hp) as Hm.
    unfold process_redeem_curator_fees, redeem_curator_fess, redeem_curator_fees,
      SupplyVault.withdraw_shares in Hh. handler_inv.
    pose proof (sync_clock_fees _ _ _ Hm H) as [_ Hf]. apply sync_clock_config in H.
    eapply auth_market; [exact Hp | cbn; congruence | by left |].
    split; [right; congruence | by left].
  - apply (redeem_protocol_fees_shown W Sg) in Hp as (Hp & Hs & Hg & Hc & _); [| done].
    pose proof (market_in_ledger _ _ Hok Hp) as Hm.
    unfold process_redeem_protocol_fees, Market.redeem_protocol_fees,
      SupplyVault.redeem_protocol_fees, SupplyVault.withdraw_shares in Hh. handler_inv.
    pose proof (sync_clock_fees _ _ _ Hm H) as [Hf _]. apply sync_clock_config in H.
    eapply auth_market; [exact Hp | cbn; congruence | by left |].
    split; [by left | right; by eexists _, _].
  - apply (donate_supply_shown W Sg) in Hp as (Hp & _); [| done].
    pose proof (market_in_ledger _ _ Hok Hp) as Hm.
    unfold process_donate_supply, donate_supply_atoms, donate_supply in Hh. handler_inv.
    pose proof (sync_clock_fees _ _ _ Hm H) as Hf. apply sync_clock_config in H.
    eapply auth_market; [exact Hp | cbn; congruence | by left | by apply fees_kept_consent].
Qed.

Lemma upgrade_admin g k g' :
  can_upgrade_nomination g k = true -> upgrade_nomination g = (Ok tt, g') -> admin g' = k.
Proof.
  unfold can_upgrade_nomination, upgrade_nomination, st_bind, zoom.
  cbn [lget lset nominated_admin_lens]. rewrite PodOption.take_eq.
  destruct (PodOption.as_ref (nominated_admin g)) as [n |]; [| discriminate].
  intros Hk [= <-]. bool_prop. by subst.
Qed.

Lemma update_global_admin a d g cs ctx' :
  process_update_global_config a d (mkCtx g cs) = (Ok tt, ctx') ->
  let s := UpdateGlobalConfig.signer_ a in
  (admin g = s \/ can_upgrade_nomination g s = true) /\ admin (cx_state ctx') = s.
Proof.
  intros H s. unfold process_update_global_config in H. handler_inv.
  all: unfold set_fee_receiver, set_nominated_admin, update_protocol_fee_share_in_bps,
    can_update_config in *; run_inv; cbn in *; bool_prop; auto.
Qed.

Lemma config_ix_authorised W Sg l ix ts o :
  ledger_ok W -> Forall (shown W Sg) l ->
  match ix with Ix.CreateGlobalConfig _ | Ix.UpdateGlobalConfig _ => True | _ => False end ->
  autara_process_instruction id l ix ts = Ok o -> fresh W (calls o) ->
  Forall (authorised W Sg ix (calls o)) (written o).
Proof.
  intros Hok Hl Hix H Hf. destruct ix; try done; ix_inv H.
  - unfold process_create_global_config in Hh. handler_inv. cbn [cx_state cx_calls] in *.
    constructor; [| constructor]. apply auth_new; [| apply Hf]; solve_created.
  - apply (update_global_config_shown W Sg) in Hp as [Hp Hs]; [| done].
    apply update_global_admin in Hh as [Hc Ha]. constructor; [| constructor].
    eapply auth_config; [exact Hp | by eexists].
Qed.

Lemma whitelist_ix_authorised W Sg l ix ts o :
  ledger_ok W -> Forall (shown W Sg) l ->
  match ix with
  | Ix.AddWhitelistedLiquidator _ | Ix.RemoveWhitelistedLiquidator _ => True
  | _ => False
  end ->
  autara_process_instruction id l ix ts = Ok o -> fresh W (calls o) ->
  Forall (authorised W Sg ix (calls o)) (written o).
Proof.
  intros Hok Hl Hix H Hf. destruct ix; try done; ix_inv H.
  - apply (add_whitelisted_shown W Sg) in Hp as (Hp & Hs & Hc & He & _ & Hent); [| done].
    pose proof (market_moves_curator _ _ (add_whitelisted_moves _ _ _ _ _ _ Hh)) as Hcur.
    apply add_whitelisted_run in Hh as (c & t & t' & _ & Hst & Hcase).
    rewrite Hst in *. constructor; [| constructor; [| constructor]].
    + eapply auth_market; [exact Hp | exact Hcur | right; congruence
                          | by apply fees_kept_consent].
    + destruct Hcase as [(_ & (f & n & k & o & sd & Hc') & _) | (_ & Ho & Hb & Hi & Ht)].
      * apply auth_new; [| apply Hf]; by eapply created_in.
      * rewrite after_nothing in Ho, Hb. destruct (Hent _ Ho Hb) as [Hmk Hlq].
        pose proof (shown_entry _ _ _ He _ Ho Hb Hi) as Hw.
        rewrite activate_eq in Ht. destruct (is_active t); [discriminate |].
        injection Ht as <-.
        eapply auth_entry; [exact Hw | by rewrite Hmk | congruence | done..].
  - apply (remove_whitelisted_shown W Sg) in Hp as (Hp & Hs & Hc & He & _ & Hmk & Hlq); [| done].
    pose proof (market_moves_curator _ _ (remove_whitelisted_moves _ _ _ _ _ _ Hh)) as Hcur.
    apply remove_whitelisted_run in Hh as (c & e' & _ & Hd & Hst). rewrite Hst in *.
    rewrite deactivate_eq in Hd. destruct (is_active _); [| discriminate]. injection Hd as <-.
    constructor; [| constructor; [| constructor]].
    + eapply auth_market; [exact Hp | exact Hcur | right; congruence
                          | by apply fees_kept_consent].
    + eapply auth_entry; [exact He | by rewrite Hmk | congruence | done..].
Qed.

Lemma create_ix_authorised W Sg l ix ts o :
  Forall (shown W Sg) l ->
  match ix with
  | Ix.CreateMarket _ | Ix.CreateSupplyPosition _ | Ix.CreateBorrowPosition _ => True
  | _ => False
  end ->
  autara_process_instruction id l ix ts = Ok o -> fresh W (calls o) ->
  Forall (authorised W Sg ix (calls o)) (written o).
Proof.
  intros Hl Hix H Hf. destruct ix; try done; ix_inv H;
    unfold process_create_market, process_create_supply_position,
      process_create_borrow_position in Hh; handler_inv; cbn [cx_state cx_calls] in *;
    (constructor; [| constructor]);
    (apply auth_new; [| apply Hf]; solve_created).
Qed.

Lemma writes_authorised W Sg l ix ts o :
  ledger_ok W -> Forall (shown W Sg) l -> ix_args ix ->
  autara_process_instruction id l ix ts = Ok o -> fresh W (calls o) ->
  Forall (authorised W Sg ix (calls o)) (written o).
Proof.
  intros Hok Hl Ha H Hf.
  destruct ix eqn:Eix;
    try (eapply supply_ix_authorised; [done | done | exact Ha | done | exact H]);
    try (eapply owner_ix_authorised; [done | done | exact Ha | done | exact H]);
    try (eapply force_ix_authorised; [done | done | exact Ha | done | exact H]);
    try (eapply market_ix_authorised; [done | done | exact Ha | done | exact H]);
    try (eapply (config_ix_authorised W Sg l); [done | done | | exact H | done]; exact I);
    try (eapply (whitelist_ix_authorised W Sg l); [done | done | | exact H | done]; exact I);
    try (eapply (create_ix_authorised W Sg l); [done | | exact H | done]; exact I).
  cbn [autara_process_instruction] in H. run_inv. constructor.
Qed.

(** C2: no write without consent.  On every reachable ledger, whatever accounts of the
    ledger and arguments an instruction is given, everything it writes is either an
    account that it has created, or
    - a market, whose curator stays the same, whose configuration changes only with the
      curator's signature, and whose pending fees shrink only with the signature of who may
      redeem them: the curator for his own, the admin or the fee receiver of the global
      configuration for those of the protocol;
    - a supply position, with the signature of its authority;
    - a borrow position, with the signature of its authority, or of the curator of its
      market (capital sweeps and bad debt), or of a liquidator that the market admits;
    - the global configuration, with the signature of the admin or of the nominated admin,
      who is the admin afterwards;
    - a whitelist entry, with the signature of the curator of its market;
    and the owner and the market of a position never change. *)
Theorem writes_are_authorised W Sg l ix ts o :
  ledger_reachable W -> Forall (shown W Sg) l -> ix_args ix ->
  autara_process_instruction id l ix ts = Ok o -> fresh W (calls o) ->
  Forall (authorised W Sg ix (calls o)) (written o).
Proof. intros Hr%ledger_reachable_ok. by apply writes_authorised. Qed.

End Consent.

(** ** Each market on its own *)

Section Markets.
Context {FX : FixedCrate} {FXL : FixedLaws FX} {PC : PdaCrate} {BC : OracleBuild} {RT : Runtime}.
Context {CH : Chain} {AC : AccountCodec} {ME : Memory} {RL : RuntimeLaws}.

(** The program refines the protocol.  On every ledger that the instructions can
    produce, with any accounts, arguments and clock, each market together with the positions
    opened on it is a reachable state of the protocol: the program cannot do anything to a
    market and its positions that is not a sequence of the operations of the market. *)
Theorem ledger_refines_protocol W k m :
  ledger_reachable W -> W !! k = Some (DMarket m) -> reachable (view k m W).
Proof. intros Hr Hk. apply ledger_reachable_ok in Hr as [Hm _ _ _]. by apply Hm. Qed.


(** C15: a change of the configuration is not retroactive.  It first brings the market up to
    date with the fee and the share that were in force, and only then installs the new
    ones: the accounts of the supply vault are those that a sync alone would give, and the
    collateral and the curator stay. *)
Theorem config_update_is_not_retroactive d g ts m m' :
  update_config_market d g ts m = (Ok tt, m') ->
  exists m1 c, Market.sync_clock ts m = (Ok tt, m1) /\
    supply_vault m' = SupplyVault.put_oracle_config c (supply_vault m1) /\
    collateral_total m' = collateral_total m /\
    MarketConfig.protocol_fee_share_in_bps (config m')
      = GlobalConfig.protocol_fee_share_in_bps g /\
    curator (config m') = curator (config m).
Proof. apply update_config_effect. Qed.

End Markets.

(** ** Witnesses: the ledger of the example *)

#[local] Existing Instance fixed_ref.
#[local] Existing Instance fixed_ref_laws.
#[local] Existing Instance pda_ex.
#[local] Existing Instance borsh_ex.
#[local] Existing Instance chain_ex.
#[local] Existing Instance runtime_ex.
#[local] Existing Instance memory_ex.
#[local] Existing Instance codec_ex.
#[local] Existing Instance runtime_laws_ex.

Lemma ledger_refines_witness : reachable (view market_key market_1 ledger_3).
Proof.
  apply ledger_refines_protocol; [apply ledger_3_reachable | vm_compute; reflexivity].
Defined.


(** The fee of the example goes from 5% to 20%. *)
Definition update_ex : UpdateConfigInstruction :=
  mkUpdateConfig None (Some Oracle.config_ex) None (Some 1000) None (Some 2000).
Lemma config_update_witness :
  exists m1, Market.sync_clock 2000 market_1 = (Ok tt, m1).
Proof.
  destruct (config_update_is_not_retroactive update_ex config_1 2000 market_1
    (snd (update_config_market update_ex config_1 2000 market_1))) as (m1 & c & H & _);
    [vm_compute; reflexivity |].
  exists m1. exact H.
Defined.

Lemma writes_are_authorised_witness :
  Forall (authorised ledger_3 (signs [key_ex 21]) deposit_ix
            (calls (run_ex deposit_accounts deposit_ix)))
    (written (run_ex deposit_accounts deposit_ix)).
Proof.
  apply (writes_are_authorised ledger_3 (signs [key_ex 21]) deposit_accounts deposit_ix 1000).
  - apply ledger_3_reachable.
  - apply deposit_shown.
  - exact I.
  - apply deposit_run.
  - apply fresh_by. vm_compute. reflexivity.
Defined.
