(* ===== verification/Entry.v ===== *)
(** * The entrypoint

    [process_instruction] and the routing of [autara_process_instruction] in
    [programs/autara-program/src/lib.rs]: the bytes of an instruction are those of the
    interface description, behind their selector, or those of an [AurataInstruction]. *)
From stdpp Require Import gmap relations.
From S2P Require Import Prelude.
From S2P Require Import Errors.
From S2P Require Import Monad.
From S2P Require Import FixedPoint.
From S2P Require Import Bytes.
From S2P Require Import Pda.
From S2P Require Import InterestRateCurve.
From S2P Require Import Oracle.
From S2P Require Import MarketConfig.
From S2P Require Import SupplyPosition.
From S2P Require Import BorrowPosition.
From S2P Require Import Creation.
From S2P Require Import FixedFacts.
From S2P Require Import Protocol.
From S2P Require Import IdlFacts.
From S2P Require Import Borsh.
From S2P Require Import ProgramErrors.
From S2P Require Import Accounts.
From S2P Require Import Events.
From S2P Require Import Processor.
From S2P Require Import ProcessorAdmin.
From S2P Require Import Program.
From S2P Require Import InstructionCodec.
From S2P Require Import Idl.
From S2P Require Import ProcessorFacts.
From S2P Require Import ProgramFacts.
From S2P Require Import Ledger.
From S2P Require Import LedgerExample.
From S2P Require Import LedgerProps.

(** What a successful instruction leaves: the accounts of the protocol, or those of the
    interface description. *)
Inductive Effect : Type :=
| Lending (o : Outcome)
| Description (e : IdlEffect).

Section Entry.
Context {FX : FixedCrate} {PC : PdaCrate} {BC : OracleBuild} {RT : Runtime}.
Context {CH : Chain} {AC : AccountCodec} {ME : Memory}.
Context {SC : SeedCrate} {SY : SystemProgram} {BO : BorshCrate}.

(** The bytes behind an instruction are not looked at: [deserialize] reads from a slice and
    leaves the rest. *)
Definition route_instruction (program_id : Pubkey) (accounts : list Acc)
  (instruction_data : list Z) (clock : Z) : Result LendingProgramErrorKind Effect :=
  if is_idl_instruction instruction_data then
    let? e := process_idl_instruction program_id accounts
                (drop (length IDL_IX_TAG_LE) instruction_data) in
    Ok (Description e)
  else
    let? (ix, _) := ok_or (KProgramError InvalidInstructionData)
                      (deserialize instruction_data) in
    let? o := autara_process_instruction program_id (info <$> accounts) ix clock in
    Ok (Lending o).

Definition process_instruction (program_id : Pubkey) (accounts : list Acc)
  (instruction_data : list Z) (clock : Z) : Result ProgramError Effect :=
  res_from into_program_error (route_instruction program_id accounts instruction_data clock).

End Entry.

(** * Facts about the entrypoint

    The properties of the ledger hold of the program as it is called, with bytes: whatever
    is decoded is an instruction of [Ledger], and what clients serialize is what is run. *)

(** The number of an instruction on the wire. *)
Definition ix_tag (ix : AurataInstruction) : AurataInstructionTag :=
  match ix with
  | Ix.CreateMarket _ => Tag.CreateMarket
  | Ix.CreateSupplyPosition _ => Tag.CreateSupplyPosition
  | Ix.SupplyApl _ => Tag.SupplyApl
  | Ix.WithdrawSupply _ => Tag.WithdrawSupply
  | Ix.CreateBorrowPosition _ => Tag.CreateBorrowPosition
  | Ix.BorrowApl _ => Tag.BorrowApl
  | Ix.DepositAplCollateral _ => Tag.DepositAplCollateral
  | Ix.WithdrawAplCollateral _ => Tag.WithdrawAplCollateral
  | Ix.RepayApl _ => Tag.RepayApl
  | Ix.UpdateConfig _ => Tag.UpdateConfig
  | Ix.Liquidate _ => Tag.Liquidate
  | Ix.Log => Tag.Log
  | Ix.CreateGlobalConfig _ => Tag.CreateGlobalConfig
  | Ix.ReedeemCuratorFees => Tag.ReedeemCuratorFees
  | Ix.ReedeemProtocolFees => Tag.ReedeemProtocolFees
  | Ix.UpdateGlobalConfig _ => Tag.UpdateGlobalConfig
  | Ix.BorrowDepositApl _ => Tag.BorrowDepositApl
  | Ix.WithdrawRepayApl _ => Tag.WithdrawRepayApl
  | Ix.SocializeLoss => Tag.SocializeLoss
  | Ix.DonateSupply _ => Tag.DonateSupply
  | Ix.BeginCapitalSweep => Tag.BeginCapitalSweep
  | Ix.SettleCapitalSweep _ => Tag.SettleCapitalSweep
  | Ix.AddWhitelistedLiquidator _ => Tag.AddWhitelistedLiquidator
  | Ix.RemoveWhitelistedLiquidator _ => Tag.RemoveWhitelistedLiquidator
  end.

Section Facts.
Context {BO : BorshCrate} {BOL : BorshLaws BO}.

Lemma encode_tag t : encode c_tag t = [tag_number t].
Proof.
  unfold c_tag, c_enum, c_filter. cbn [encode]. apply encode_u8.
  pose proof (tag_number_range t). widths_lia.
Qed.

(** An instruction starts with its number. *)
Lemma serialize_head ix : exists l, serialize ix = tag_number (ix_tag ix) :: l.
Proof. destruct ix; cbn [serialize ix_tag]; rewrite encode_tag; by eexists. Qed.

(** The selector of the other protocol starts with a byte that is no number. *)
Lemma tag_is_not_idl t l : is_idl_instruction (tag_number t :: l) = false.
Proof.
  unfold is_idl_instruction. apply bool_decide_eq_false. intros [k Hk].
  injection Hk as Ht _. pose proof (tag_number_range t). lia.
Qed.

Lemma typed_args ix : ix_typed ix -> ix_args ix.
Proof.
  destruct ix as [[]| | |[] | | | |[]|[]|[]|[]| |[]| | |[]|[]|[]| | | |[]|[]|]; cbn;
    try (intros; widths_lia); try tauto.
  - unfold fee_arg. cbn. intros (_ & _ & _ & _ & _ & H). repeat case_match; [| done].
    cbn in H. widths_lia.
  - intros (_ & _ & H). case_match; [| done]. cbn in H. widths_lia.
Qed.

(** C20: an instruction is not lost on the wire and cannot be read as another one: decoding
    the bytes that a client serialized, whatever follows them, gives the instruction back
    with the bytes that follow, and its first byte is the number that [TryFrom<u8>] maps to
    its tag; so two instructions with a common encoding are the same. *)
Theorem instruction_roundtrip ix rest :
  ix_typed ix ->
  deserialize (serialize ix ++ rest) = Some (ix, rest) /\
  (exists b l, serialize ix = b :: l /\ tag_try_from b = Ok (ix_tag ix)) /\
  forall ix' rest', ix_typed ix' -> serialize ix ++ rest = serialize ix' ++ rest' ->
    ix' = ix /\ rest' = rest.
Proof.
  intros H. split; [by apply deserialize_serialize |]. split.
  - destruct (serialize_head ix) as [l Hl]. eexists _, l. split; [done |].
    apply tag_try_from_number.
  - intros ix' rest' H' E. apply (f_equal deserialize) in E.
    rewrite !deserialize_serialize in E by done. by injection E as -> ->.
Qed.

(** A byte is read as itself. *)
Lemma decode_byte b l : is_byte b -> decode borsh_u8 (b :: l) = Some (b, l).
Proof.
  intros H. assert (Hb : is_u8 b) by (unfold is_byte in H; widths_lia).
  pose proof (lossless codec_u8 b l Hb) as E. by rewrite encode_u8 in E by done.
Qed.

Lemma tag_of_number_inv n t : tag_of_number n = Some t -> n = tag_number t.
Proof.
  unfold tag_of_number. destruct (Z.ltb_spec n 0); [done |].
  intros E. rewrite <- (Z2Nat.id n) by lia. revert E. generalize (Z.to_nat n) as i. intros i E.
  do 24 (destruct i as [| i]; [injection E as <-; reflexivity |]). discriminate E.
Qed.

Lemma decode_tag b l t l' :
  is_byte b -> decode c_tag (b :: l) = Some (t, l') -> b = tag_number t /\ l' = l.
Proof.
  intros Hb H. unfold c_tag, c_enum, c_filter in H. cbn [decode] in H.
  rewrite decode_byte in H by done. cbn [mbind option_bind] in H.
  destruct (tag_of_number b) as [u |] eqn:E; [cbn in H | done]. injection H as -> ->.
  split; [by apply tag_of_number_inv | done].
Qed.

Lemma decoded_tag b l ix rest :
  is_byte b -> deserialize (b :: l) = Some (ix, rest) -> b = tag_number (ix_tag ix).
Proof.
  intros Hb H. unfold deserialize in H.
  destruct (decode c_tag (b :: l)) as [[t l1] |] eqn:E; [cbn [mbind option_bind] in H | done].
  apply decode_tag in E as [-> _]; [| done].
  destruct t; unfold payload in H;
    try (destruct (decode _ _) as [[x l2] |]; [cbn [mbind option_bind] in H | discriminate H]);
    by injection H as <- <-.
Qed.

(** Whatever bytes the program is given, an instruction that it decodes has arguments
    with the values of their Rust types (amounts below [2^64], keys of thirty-two bytes,
    fixed point numbers that fit [i128], polylines with their number of points), and it is
    the one that the first byte names; in particular no number from 24 on is decoded. *)
Theorem decoded_instruction_is_typed b l ix rest :
  is_byte b -> Forall is_byte l -> deserialize (b :: l) = Some (ix, rest) ->
  ix_typed ix /\ b = tag_number (ix_tag ix) /\ b <= 23.
Proof.
  intros Hb Hl H. split; [eapply deserialize_typed; [| exact H]; by constructor |].
  apply decoded_tag in H as ->; [| done]. split; [done |]. apply tag_number_range.
Qed.

(** ** The program on bytes *)

Context {FX : FixedCrate} {PC : PdaCrate} {BC : OracleBuild} {RT : Runtime}.
Context {CH : Chain} {AC : AccountCodec} {ME : Memory}.
Context {SC : SeedCrate} {SY : SystemProgram}.

(** The bytes of an instruction are routed to its handler. *)
Lemma serialized_runs pid accounts ix rest ts :
  ix_typed ix ->
  process_instruction pid accounts (serialize ix ++ rest) ts
  = match autara_process_instruction pid (info <$> accounts) ix ts with
    | Ok o => Ok (Lending o)
    | Err e => Err (into_program_error e)
    | Panic => Panic
    end.
Proof.
  intros H. unfold process_instruction, route_instruction.
  destruct (serialize_head ix) as [l Hl].
  replace (is_idl_instruction (serialize ix ++ rest)) with false
    by (rewrite Hl; symmetry; apply tag_is_not_idl).
  rewrite deserialize_serialize by done. cbn [ok_or res_bind].
  by destruct (autara_process_instruction _ _ _ _).
Qed.

(** What a client serializes is what is run: the entrypoint on the bytes of an
    instruction, with anything behind them, does what its handler does on the same accounts,
    and never takes it for an instruction of the interface description. *)
Theorem serialized_instruction_is_run pid accounts ix rest ts :
  ix_typed ix ->
  process_instruction pid accounts (serialize ix ++ rest) ts
  = match autara_process_instruction pid (info <$> accounts) ix ts with
    | Ok o => Ok (Lending o)
    | Err e => Err (into_program_error e)
    | Panic => Panic
    end.
Proof. apply serialized_runs. Qed.

(** The accounts of the program on a chain: those of the protocol, and the keys of those that
    the instructions of the interface description have made. *)
Record WireState : Type := mkWire {
  ledger : World;
  described : gset Pubkey }.

(** An account that is passed to the program: one of the protocol as the ledger has it, which
    is not blank, or one of the interface description with any contents. *)
Record passed (s : WireState) (Sg : Pubkey -> Prop) (a : AccountInfo) : Prop := {
  passed_signer : ai_is_signer a = true -> Sg (ai_key a);
  passed_shown : ai_key a ∈ described s \/ shown (ledger s) Sg a;
  passed_live : ledger s !! ai_key a <> None -> ~ Forall (eq 0) (ai_data a) }.

(** The bytes of an account read as an initialised account of the protocol. *)
Definition reads_as_protocol (a : AccountInfo) : Prop :=
  ai_owner a = id /\
  ((exists m, market_of_bytes (ai_data a) = Some m /\ is_initialized m = true) \/
   (exists p, supply_position_of_bytes (ai_data a) = Some p /\ is_initialized p = true) \/
   (exists p, borrow_position_of_bytes (ai_data a) = Some p /\ is_initialized p = true) \/
   (exists g, global_config_of_bytes (ai_data a) = Some g /\ is_initialized g = true) \/
   (exists e, whitelist_entry_of_bytes (ai_data a) = Some e /\ is_initialized e = true)).

(** What the program does not check and a run has to keep to: an account of the interface
    description is not passed off as one of the protocol ([IdlFacts.idl_buffer_passes_for_market]
    shows that it could be), *)
Definition no_forgery (s : WireState) (accounts : list AccountInfo) : Prop :=
  forall a, a ∈ accounts -> ai_key a ∈ described s -> ~ reads_as_protocol a.

(** and no account of the protocol happens to start like one of the interface description, or
    to lie at its address. *)
Definition no_collision (s : WireState) (accounts : list AccountInfo) : Prop :=
  (forall a, a ∈ accounts -> ledger s !! ai_key a <> None ->
     has_idl_header (ai_data a) = false) /\
  (forall k base bump, derive_idl id = Ok (k, base, bump) -> ledger s !! k = None).

(** The description accounts after some were written: one that is closed leaves the program. *)
Definition describe (l : list AccountInfo) (D : gset Pubkey) : gset Pubkey :=
  foldr (fun a D => if decide (ai_owner a = id) then {[ai_key a]} ∪ D else D ∖ {[ai_key a]}) D l.

(** A successful call of the entrypoint. *)
Inductive wire_step (s : WireState) : WireState -> Prop :=
| wire_lending Sg accounts b l ts o :
    Forall (passed s Sg) (info <$> accounts) -> no_forgery s (info <$> accounts) ->
    Forall is_byte (b :: l) -> process_instruction id accounts (b :: l) ts = Ok (Lending o) ->
    (forall k, created (calls o) k -> ledger s !! k = None /\ k ∉ described s) ->
    wire_step s (mkWire (apply_writes (written o) (ledger s)) (described s))
| wire_description Sg accounts l ts e :
    Forall (passed s Sg) (info <$> accounts) -> no_collision s (info <$> accounts) ->
    process_instruction id accounts l ts = Ok (Description e) ->
    wire_step s (mkWire (ledger s) (describe (ie_accounts e) (described s))).

(** An account that is passed and not forged is shown by the ledger. *)
Lemma passed_is_shown s Sg l :
  Forall (passed s Sg) l -> no_forgery s l -> Forall (shown (ledger s) Sg) l.
Proof.
  intros Hp Hf. rewrite list.Forall_forall in Hp |- *. intros a Ha.
  destruct (Hp a Ha) as [Hs [Hd | H] _]; [| done]. specialize (Hf a Ha Hd).
  split; [done | intros x Ho Hx Hi; destruct Hf; split; [done |] ..];
    eauto 10.
Qed.

Lemma lending_is_run accounts b l ts o :
  Forall is_byte (b :: l) -> process_instruction id accounts (b :: l) ts = Ok (Lending o) ->
  exists ix, ix_args ix /\ autara_process_instruction id (info <$> accounts) ix ts = Ok o.
Proof.
  intros Hl H. unfold process_instruction, route_instruction in H.
  destruct (is_idl_instruction (b :: l)).
  - destruct (process_idl_instruction _ _ _); discriminate H.
  - destruct (deserialize (b :: l)) as [[ix rest] |] eqn:E; [| discriminate H].
    cbn [ok_or res_bind] in H.
    destruct (autara_process_instruction _ _ _ _) eqn:Er; try discriminate H.
    injection H as ->. exists ix. split; [| done]. eapply typed_args, deserialize_typed; done.
Qed.

Lemma description_is_run accounts l ts e :
  process_instruction id accounts l ts = Ok (Description e) ->
  exists ix, run_idl id accounts ix = Ok e.
Proof.
  intros H. unfold process_instruction, route_instruction in H.
  destruct (is_idl_instruction l).
  - unfold process_idl_instruction in H.
    destruct (idl_try_from_slice _) as [ix |]; [| discriminate H]. cbn [ok_or res_bind] in H.
    destruct (run_idl _ _ _) eqn:E; try discriminate H. injection H as ->. eauto.
  - destruct (deserialize l) as [[ix rest] |]; [| discriminate H]. cbn [ok_or res_bind] in H.
    destruct (autara_process_instruction _ _ _ _); discriminate H.
Qed.

Context {FXL : FixedLaws FX} {RL : RuntimeLaws} {SL : SystemLaws SY}.

(** The instructions of the interface description never write to the protocol. *)
Lemma description_elsewhere s Sg accounts l ts e a :
  Forall (passed s Sg) (info <$> accounts) -> no_collision s (info <$> accounts) ->
  process_instruction id accounts l ts = Ok (Description e) -> a ∈ ie_accounts e ->
  ledger s !! ai_key a = None.
Proof.
  intros Hp [Hh Hd] H Ha. apply description_is_run in H as [ix H].
  destruct (run_idl_writes _ _ _ _ _ H Ha) as [(base & bump & E) | (x & Hx & Hk & _ & Hz)];
    [by eapply Hd |]. rewrite <- Hk.
  assert (Hin : info x ∈ info <$> accounts) by (by apply list_elem_of_fmap_2).
  destruct (ledger s !! ai_key (info x)) eqn:E; [exfalso | done].
  rewrite list.Forall_forall in Hp. destruct (Hp _ Hin) as [_ _ Hlive].
  destruct Hz as [Hz | Hz]; [apply Hlive; congruence |].
  rewrite (Hh _ Hin) in Hz; congruence.
Qed.

(** No account is of both kinds. *)
Definition apart (s : WireState) : Prop := forall k, ledger s !! k <> None -> k ∉ described s.

Lemma describe_apart (W : World) l D :
  (forall a, a ∈ l -> W !! ai_key a = None) -> (forall k, W !! k <> None -> k ∉ D) ->
  forall k, W !! k <> None -> k ∉ describe l D.
Proof.
  intros Hl HD k Hk. induction l as [| a l IH]; [by apply HD |].
  assert (Ha : k <> ai_key a) by (intros ->; apply Hk, Hl, list_elem_of_here).
  specialize (IH ltac:(intros x Hx; apply Hl; by apply list_elem_of_further)).
  cbn. case_decide; set_solver.
Qed.

Lemma apply_writes_inv ws (W : World) k :
  apply_writes ws W !! k <> None -> W !! k <> None \/ exists d, (k, d) ∈ ws.
Proof.
  unfold apply_writes. revert W. induction ws as [| [j d] ws IH]; intros W H; [by left |].
  cbn in H. apply IH in H as [H | [d' H]]; [| right; exists d'; by apply list_elem_of_further].
  destruct (decide (k = j)) as [-> | Hne]; [right; exists d; apply list_elem_of_here |].
  rewrite lookup_insert_ne in H by done. by left.
Qed.

(** What is written was there or has just been created. *)
Lemma authorised_known W Sg ix cs k d :
  authorised W Sg ix cs (k, d) -> W !! k <> None \/ created cs k.
Proof. intros H. inversion H; subst; [by right | left; congruence ..]. Qed.

Lemma wire_step_ok s s' :
  wire_step s s' -> ledger_ok (ledger s) -> apart s ->
  (ledger s' = ledger s \/ ledger_step (ledger s) (ledger s')) /\ apart s'.
Proof.
  intros [Sg accounts b l ts o Hp Hf Hl H Hn | Sg accounts l ts e Hp Hc H] Hok Ha.
  - apply lending_is_run in H as (ix & Hix & H); [| done].
    pose proof (passed_is_shown _ _ _ Hp Hf) as Hs.
    assert (Hfr : fresh (ledger s) (calls o)) by (intros k Hk; by apply Hn).
    split; [right; by eapply ledger_ix |]. intros k Hk. cbn [ledger described] in *.
    apply apply_writes_inv in Hk as [Hk | [d Hd]]; [by apply Ha |].
    pose proof (writes_authorised _ _ _ _ _ _ Hok Hs Hix H Hfr) as Hw.
    rewrite list.Forall_forall in Hw. apply Hw in Hd.
    apply authorised_known in Hd as [Hk | Hk]; [by apply Ha | by apply Hn].
  - split; [by left |]. intros k. cbn [ledger described]. apply describe_apart; [| done].
    intros a Hin. by eapply description_elsewhere.
Qed.

Lemma wire_run_ok s : rtc wire_step (mkWire ∅ ∅) s -> ledger_ok (ledger s) /\ apart s.
Proof.
  intros H. apply rtc_ind_r with (z := s) (3 := H); clear s H.
  - split; [apply ledger_empty | intros k Hk; cbn in Hk; by rewrite lookup_empty in Hk].
  - intros s1 s2 _ Hs [Hok Ha]. destruct (wire_step_ok _ _ Hs Hok Ha) as [[-> | Hl] Ha'];
      (split; [| done]); [done | by eapply ledger_step_ok].
Qed.

(** C1: the program as it is deployed refines the protocol.  From an empty chain, after any
    sequence of successful calls of the entrypoint with any bytes and accounts, for the
    protocol or for the interface description, every market with its positions is in a state
    that the state machine of the protocol reaches, every position belongs to a market that is
    there, and no account of the protocol was written by an instruction of the interface
    description.  The run has to keep to what the program does not check: no account made
    by the interface description is passed off as one of the protocol, and no account of the
    protocol starts with its header or lies at its address. *)
Theorem bytes_refine_protocol s :
  rtc wire_step (mkWire ∅ ∅) s ->
  (forall k m, ledger s !! k = Some (DMarket m) -> reachable (view k m (ledger s))) /\
  (forall k p, ledger s !! k = Some (DSupply p) ->
     exists m, ledger s !! SupplyPosition.market p = Some (DMarket m)) /\
  (forall k p, ledger s !! k = Some (DBorrow p) ->
     exists m, ledger s !! BorrowPosition.market p = Some (DMarket m)) /\
  (forall k, ledger s !! k <> None -> k ∉ described s).
Proof. intros H. by destruct (wire_run_ok s H) as [[Hm Hs Hb _] Ha]. Qed.

End Facts.

(** ** Witnesses *)

#[local] Existing Instances fixed_ref fixed_ref_laws pda_ex borsh_ex chain_ex runtime_ex memory_ex
  codec_ex runtime_laws_ex borsh_ref borsh_ref_laws seed_ex sys_ex sys_ex_laws.

Lemma bytes_check l : forallb (fun b => (0 <=? b) && (b <? 256)) l = true -> Forall is_byte l.
Proof.
  intros H. apply Forall_forall. intros b Hb. rewrite forallb_forall in H.
  apply H in Hb. unfold is_byte. lia.
Qed.

Lemma byte_check l : forallb (fun b => (0 <=? b) && (b <? 256)) l = true -> Forall is_u8 l.
Proof.
  intros H. eapply Forall_impl; [| by apply bytes_check]. unfold is_byte. intros. widths_lia.
Qed.

Lemma pubkey_check k :
  length k = 32%nat -> forallb (fun b => (0 <=? b) && (b <? 256)) k = true -> is_pubkey k.
Proof. intros Hl H. split; [done | by apply byte_check]. Qed.

Definition update_ex : AurataInstruction :=
  Ix.UpdateGlobalConfig (mkUpdateGlobalConfig false (Some (key_ex 4)) None (Some 100)).
Definition accs_of (l : list AccountInfo) : list Acc := (fun a => mkAcc a 0) <$> l.

Lemma roundtrip_witness :
  deserialize (serialize update_ex ++ [1; 2]) = Some (update_ex, [1; 2]) /\
  (exists b l, serialize update_ex = b :: l /\ tag_try_from b = Ok (ix_tag update_ex)) /\
  forall ix' rest', ix_typed ix' -> serialize update_ex ++ [1; 2] = serialize ix' ++ rest' ->
    ix' = update_ex /\ rest' = [1; 2].
Proof.
  apply instruction_roundtrip. cbn [ix_typed update_ex ug_nominated_admin ug_fee_receiver
    ug_protocol_fee_share_in_bps option_all].
  split_and!; [apply pubkey_check; reflexivity | done | widths_lia].
Defined.

Lemma decoded_witness :
  ix_typed deposit_ix /\ 5 = tag_number (ix_tag deposit_ix) /\ 5 <= 23.
Proof.
  apply (decoded_instruction_is_typed 5 (le_bytes 8 700) deposit_ix []).
  - unfold is_byte. lia.
  - apply le_bytes_are_bytes.
  - vm_compute. reflexivity.
Defined.

Lemma run_witness :
  process_instruction id (accs_of deposit_accounts) (serialize deposit_ix ++ [9]) 1000
  = match autara_process_instruction id (info <$> accs_of deposit_accounts) deposit_ix 1000 with
    | Ok o => Ok (Lending o)
    | Err e => Err (into_program_error e)
    | Panic => Panic
    end.
Proof. apply serialized_instruction_is_run. cbn. widths_lia. Defined.

(** A call with the bytes of an instruction, after some accounts have been made by the
    interface description; the checks are computed. *)
Definition live_check (W : World) (l : list AccountInfo) : bool :=
  forallb (fun a => match W !! ai_key a with
                    | Some _ => existsb (fun b => negb (b =? 0)) (ai_data a)
                    | None => true
                    end) l.
Definition elsewhere_check (D : gset Pubkey) (l : list AccountInfo) (cs : list Call) : bool :=
  forallb (fun a => bool_decide (ai_key a ∉ D)) l &&
  forallb (fun c => match call c with
                    | create_account _ k _ _ _ => bool_decide (k ∉ D)
                    | _ => true
                    end) cs.

Lemma live_by W l a :
  live_check W l = true -> a ∈ l -> W !! ai_key a <> None -> ~ Forall (eq 0) (ai_data a).
Proof.
  unfold live_check. rewrite forallb_forall. intros H Ha%list_elem_of_In Hk Hz.
  specialize (H a Ha). destruct (W !! ai_key a); [| done].
  apply existsb_exists in H as (b & Hb & Hn). apply list_elem_of_In in Hb.
  rewrite list.Forall_forall in Hz. by rewrite <- (Hz b Hb) in Hn.
Qed.

Lemma elsewhere_by D l cs :
  elsewhere_check D l cs = true ->
  (forall a, a ∈ l -> ai_key a ∉ D) /\ (forall k, created cs k -> k ∉ D).
Proof.
  unfold elsewhere_check. intros [Ha Hc]%andb_true_iff. rewrite forallb_forall in Ha, Hc. split.
  - intros a Hin%list_elem_of_In. by apply Ha, bool_decide_eq_true in Hin.
  - intros k (c & f & m & n & o & Hin%list_elem_of_In & E). apply Hc in Hin. rewrite E in Hin.
    by apply bool_decide_eq_true in Hin.
Qed.

Lemma wire_call W D Sg l ix o :
  Forall (shown W Sg) l -> live_check W l = true -> elsewhere_check D l (calls o) = true ->
  ix_typed ix -> Forall is_byte (serialize ix) ->
  autara_process_instruction id l ix 1000 = Ok o -> fresh W (calls o) ->
  wire_step (mkWire W D) (mkWire (apply_writes (written o) W) D).
Proof.
  intros Hs Hv [He Hd]%elsewhere_by Ht Hb H Hf. destruct (serialize_head ix) as [t Hl].
  rewrite Hl in Hb.
  assert (Ha : info <$> accs_of l = l)
    by (unfold accs_of; rewrite <- list_fmap_compose; apply list_fmap_id).
  apply (wire_lending (mkWire W D) Sg (accs_of l) (tag_number (ix_tag ix)) t 1000 o);
    rewrite ?Ha; try done.
  - apply list.Forall_forall. intros a Hin. rewrite list.Forall_forall in Hs.
    split; [apply Hs; done | right; by apply Hs | by apply (live_by W l)].
  - intros a Hin Hk. by destruct (He a Hin).
  - pose proof (serialized_runs id (accs_of l) ix [] 1000 Ht) as E.
    rewrite app_nil_r, Hl, Ha, H in E. exact E.
  - intros k Hk. cbn. auto.
Qed.

(** A buffer for the interface description, which anyone may make. *)
Definition buffer_accounts : list Acc :=
  [mkAcc (mkAccountInfo (key_ex 70) id false true (replicate 60 0)) 0;
   mkAcc (mkAccountInfo (key_ex 71) (key_ex 52) true false []) 0].
Definition buffers : gset Pubkey := {[key_ex 70]}.

Lemma wire_buffer : wire_step (mkWire ∅ ∅) (mkWire ∅ buffers).
Proof.
  assert (H : exists e, process_instruction id buffer_accounts (IDL_IX_TAG_LE ++ [1]) 1000
    = Ok (Description e) /\ describe (ie_accounts e) ∅ = buffers).
  { eexists. split; [vm_compute; reflexivity | vm_compute; reflexivity]. }
  destruct H as (e & H & <-).
  apply (wire_description (mkWire ∅ ∅) (signs [key_ex 71]) buffer_accounts
    (IDL_IX_TAG_LE ++ [1]) 1000 e); [| | exact H].
  - apply Forall_cons_iff. split; [| apply Forall_cons_iff; split; [| apply Forall_nil]];
      (split; cbn; [unfold signs; set_solver | right | by rewrite lookup_empty]);
      (split; cbn; [unfold signs; set_solver | try discriminate; intros ? Ho; vm_compute in Ho; done ..]).
  - split; [intros a _; cbn; by rewrite lookup_empty | intros k base bump _; apply lookup_empty].
Qed.

Lemma config_typed : ix_typed config_ix.
Proof.
  cbn. split_and!; try widths_lia; apply pubkey_check; vm_compute; reflexivity.
Qed.

Lemma wire_ledger_1 : wire_step (mkWire ∅ buffers) (mkWire ledger_1 buffers).
Proof.
  apply (wire_call ∅ buffers (signs [key_ex 1]) create_config_accounts config_ix
           (run_ex create_config_accounts config_ix)).
  - unfold create_config_accounts. show_accounts.
  - vm_compute. reflexivity.
  - vm_compute. reflexivity.
  - apply config_typed.
  - apply bytes_check. vm_compute. reflexivity.
  - vm_compute. reflexivity.
  - apply fresh_by. vm_compute. reflexivity.
Qed.

Lemma market_typed : ix_typed (Ix.CreateMarket market_ix).
Proof.
  cbn. unfold is_ltv, is_oracle_config, is_ifixed. cbn.
  split_and!; try widths_lia; try (vm_compute; congruence); apply byte_check; reflexivity.
Qed.

Lemma wire_ledger_2 : wire_step (mkWire ledger_1 buffers) (mkWire ledger_2 buffers).
Proof.
  apply (wire_call ledger_1 buffers (signs [key_ex 3]) create_market_accounts
           (Ix.CreateMarket market_ix)
           (run_ex create_market_accounts (Ix.CreateMarket market_ix))).
  - unfold create_market_accounts. show_accounts.
  - vm_compute. reflexivity.
  - vm_compute. reflexivity.
  - apply market_typed.
  - apply bytes_check. vm_compute. reflexivity.
  - vm_compute. reflexivity.
  - apply fresh_by. vm_compute. reflexivity.
Qed.

Lemma wire_ledger_3 : wire_step (mkWire ledger_2 buffers) (mkWire ledger_3 buffers).
Proof.
  apply (wire_call ledger_2 buffers (signs [key_ex 21]) create_position_accounts
           (Ix.CreateBorrowPosition 255)
           (run_ex create_position_accounts (Ix.CreateBorrowPosition 255))).
  - unfold create_position_accounts. show_accounts.
  - vm_compute. reflexivity.
  - vm_compute. reflexivity.
  - cbn. widths_lia.
  - apply bytes_check. vm_compute. reflexivity.
  - vm_compute. reflexivity.
  - apply fresh_by. vm_compute. reflexivity.
Qed.

Lemma bytes_refine_witness :
  (forall k m, ledger_3 !! k = Some (DMarket m) -> reachable (view k m ledger_3)) /\
  (forall k p, ledger_3 !! k = Some (DSupply p) ->
     exists m, ledger_3 !! SupplyPosition.market p = Some (DMarket m)) /\
  (forall k p, ledger_3 !! k = Some (DBorrow p) ->
     exists m, ledger_3 !! BorrowPosition.market p = Some (DMarket m)) /\
  (forall k, ledger_3 !! k <> None -> k ∉ buffers).
Proof.
  apply (bytes_refine_protocol (mkWire ledger_3 buffers)).
  eapply rtc_l; [exact wire_buffer |]. eapply rtc_l; [exact wire_ledger_1 |].
  eapply rtc_l; [exact wire_ledger_2 |]. apply rtc_once, wire_ledger_3.
Defined.
