(* ===== verification/IdlPublish.v ===== *)
(** * Publishing the interface description

    [autara-client/src/idl_deploy.rs], from [derive_idl_account] on: the tool that writes the
    compressed description into the account of the program, in pieces that fit a
    transaction, and that can be run again after a failure.  The network is a parameter: for
    every request, whether it is answered, and whether a transaction gets through. *)
From stdpp Require Import gmap relations.
From S2P Require Import Prelude.
From S2P Require Import Errors.
From S2P Require Import Monad.
From S2P Require Import FixedPoint.
From S2P Require Import Bytes.
From S2P Require Import Pda.
From S2P Require Import Oracle.
From S2P Require Import ProgramErrors.
From S2P Require Import Accounts.
From S2P Require Import Events.
From S2P Require Import ProcessorAdmin.
From S2P Require Import Borsh.
From S2P Require Import Idl.
From S2P Require Import Entry.
From S2P Require Import FixedFacts.
From S2P Require Import IdlFacts.

Definition IX_CREATE : Z := 0.
Definition IX_WRITE : Z := 2.
Definition IDL_WRITE_CHUNK : nat := 800.

(** [slice.chunks(n)]: pieces of [n] elements, the last one may be shorter. *)
Fixpoint chunks_from (fuel n : nat) (l : list Z) : list (list Z) :=
  match fuel, l with
  | S fuel, _ :: _ => take n l :: chunks_from fuel n (drop n l)
  | _, _ => []
  end.
Definition chunks (n : nat) (l : list Z) : list (list Z) := chunks_from (length l) n l.

(** The accounts on the chain: owner and data.  An account that is not there is presented
    as an empty one of the system program. *)
Notation IdlStore := (gmap Pubkey (Pubkey * list Z)).

(** What becomes of a transaction: it is executed and the client is told so, it is executed
    and the client is not told, or it is lost. *)
Inductive Delivery : Type := Confirmed | Unconfirmed | Lost.

Class Network : Type := {
  answers : nat -> bool;
  delivery : nat -> Delivery }.

(** [ZlibEncoder] *)
Class ZlibCrate : Type := compress_idl : list Z -> option (list Z).

Record Session : Type := mkSession {
  store : IdlStore;
  requests : nat }.

Inductive PublishError : Type :=
| NoAddress | NotCompressed | NotReached | Rejected (e : ProgramError) | Aborted
| IdlAccountTooSmall | PrefixMismatch | NotPublished.

Notation Publish := (STE PublishError Session).

(** What an instruction on descriptions leaves on the chain. *)
Definition apply_effect (e : IdlEffect) (C : IdlStore) : IdlStore :=
  foldr (fun '(k, n) C => if n =? 0 then delete k C else C)
    (foldr (fun a C => <[ai_key a := (ai_owner a, ai_data a)]> C) C (ie_accounts e))
    (ie_lamports e).

Section Ops.
Context {FX : FixedCrate} {PC : PdaCrate} {BC : OracleBuild} {RT : Runtime}.
Context {CH : Chain} {AC : AccountCodec} {ME : Memory}.
Context {SC : SeedCrate} {SY : SystemProgram} {BO : BorshCrate}.
Context {NW : Network} {ZL : ZlibCrate}.
(** The balances and the clock of the chain. *)
Variable balance : Pubkey -> Z.
Variable clock : Z.

Definition presented (C : IdlStore) (m : Pubkey * bool * bool) : Acc :=
  let '(k, is_signer, is_writable) := m in
  let '(owner, data) := default (SYSTEM_PROGRAM_ID, []) (C !! k) in
  mkAcc (mkAccountInfo k owner is_signer is_writable data) (balance k).

(** The validator runs the entrypoint on the accounts that the instruction names; an
    instruction that fails changes nothing.  Only the accounts of descriptions are kept. *)
Definition execute (C : IdlStore) (ix : Instruction) : Result ProgramError IdlStore :=
  let? e := process_instruction (ix_program_id ix) (presented C <$> ix_accounts ix) (ix_data ix)
              clock in
  match e with
  | Description e => Ok (apply_effect e C)
  | Lending _ => Ok C
  end.

(** The number of this request. *)
Definition request : Publish nat :=
  let! s := st_get in
  st_put (mkSession (store s) (S (requests s))) ;;;
  st_ret (requests s).

Definition read_account_info (k : Pubkey) : Publish (option (Pubkey * list Z)) :=
  let! n := request in
  let! s := st_get in
  st_ret (if answers n then store s !! k else None).

(** [send_ix] with [confirm]. *)
Definition send_ix (ix : Instruction) : Publish () :=
  let! n := request in
  let! s := st_get in
  match delivery n with
  | Lost => st_raise NotReached
  | d =>
    match execute (store s) ix with
    | Ok C =>
      st_put (mkSession C (requests s)) ;;;
      match d with Confirmed => st_ret tt | _ => st_raise NotReached end
    | Err e => st_raise (Rejected e)
    | Panic => st_raise Aborted
    end
  end.

Definition derive_idl_account (program_id : Pubkey) : option (Pubkey * Pubkey) :=
  let '(base, _) := find_program_address [] program_id in
  let* idl := create_with_seed base IDL_SEED program_id in
  Some (idl, base).

(** The two instructions that [publish_idl] builds. *)
Definition create_idl_ix (program_id authority idl_account base : Pubkey) (len : nat)
  : Instruction :=
  mkInstruction program_id
    [(authority, true, true); (idl_account, false, true); (base, false, false);
     (SYSTEM_PROGRAM_ID, false, false); (program_id, false, false)]
    (IDL_IX_TAG_LE ++ [IX_CREATE] ++ le_bytes 8 (Z.of_nat len)).
Definition write_idl_ix (program_id authority idl_account : Pubkey) (chunk : list Z)
  : Instruction :=
  mkInstruction program_id [(idl_account, false, true); (authority, true, true)]
    (IDL_IX_TAG_LE ++ [IX_WRITE] ++ le_bytes 4 (Z.of_nat (length chunk)) ++ chunk).

(** [acc.data[44..44 + n] == bytes]: out of range is a panic. *)
Definition text_is (data : list Z) (n : nat) (bytes : list Z) : Result PublishError bool :=
  if (length data <? 44 + n)%nat then Panic else Ok (bool_decide (slice 44 n data = bytes)).

Fixpoint write_chunks (program_id authority idl_account : Pubkey) (cs : list (list Z))
  : Publish () :=
  match cs with
  | [] => st_ret tt
  | c :: cs =>
    send_ix (write_idl_ix program_id authority idl_account c) ;;;
    write_chunks program_id authority idl_account cs
  end.

(** What is already on the chain, after the account was created if there was none. *)
Definition already_written (program_id authority idl_account base : Pubkey)
  (compressed : list Z) : Publish nat :=
  let! acc := read_account_info idl_account in
  match acc with
  | None =>
    send_ix (create_idl_ix program_id authority idl_account base (length compressed)) ;;;
    st_ret 0%nat
  | Some (_, data) =>
    st_guard (length data <? 44)%nat IdlAccountTooSmall ;;;
    let written := Z.to_nat (le_val (slice 40 4 data)) in
    st_guard (negb (written <=? length compressed)%nat) PrefixMismatch ;;;
    let! same := st_lift (text_is data written (take written compressed)) in
    st_guard (negb same) PrefixMismatch ;;;
    st_ret written
  end.

(** The readback at the end. *)
Definition verify_published (idl_account : Pubkey) (compressed : list Z) : Publish () :=
  let! acc := read_account_info idl_account in
  let! (_, data) := st_lift (ok_or NotReached acc) in
  st_guard (length data <? 44)%nat IdlAccountTooSmall ;;;
  let data_len := Z.to_nat (le_val (slice 40 4 data)) in
  st_guard (negb (data_len =? length compressed)%nat) NotPublished ;;;
  let! same := st_lift (text_is data data_len compressed) in
  st_guard (negb same) NotPublished.

Definition publish_idl (program_id authority : Pubkey) (idl_json : list Z) : Publish Pubkey :=
  let! (idl_account, base) := st_lift (ok_or NoAddress (derive_idl_account program_id)) in
  let! compressed := st_lift (ok_or NotCompressed (compress_idl idl_json)) in
  let! written := already_written program_id authority idl_account base compressed in
  write_chunks program_id authority idl_account (chunks IDL_WRITE_CHUNK (drop written compressed)) ;;;
  verify_published idl_account compressed ;;;
  st_ret idl_account.

End Ops.

(** * Facts about publishing the interface description

    The tool of the client and the handlers of the program together: whatever the network
    does to a run, what is on the chain stays a beginning of the description, and a run that
    gets through completes it. *)

(** ** Pieces *)

Lemma concat_chunks_from fuel n l :
  (0 < n)%nat -> (length l <= fuel)%nat -> concat (chunks_from fuel n l) = l.
Proof.
  intros Hn. revert l. induction fuel as [| fuel IH]; intros [| x l] Hf; try done;
    [simpl in Hf; lia |].
  cbn [chunks_from concat]. rewrite IH by (rewrite length_drop; simpl in *; lia).
  apply take_drop.
Qed.

Lemma concat_chunks n l : (0 < n)%nat -> concat (chunks n l) = l.
Proof. intros Hn. by apply concat_chunks_from. Qed.

Lemma chunks_are_short fuel n l : Forall (fun c => (length c <= n)%nat) (chunks_from fuel n l).
Proof.
  revert l. induction fuel as [| fuel IH]; intros [| x l]; try constructor; [| apply IH].
  rewrite length_take. lia.
Qed.

(** Documented: the system program creates no account where there is already data.  Whether it
    creates one where there is none depends on the funds of the payer, which it is not assumed
    to have. *)
Class CreatesOnlyNew {CH : Chain} (SY : SystemProgram) : Prop :=
  create_only_new f b sd l n o s a a' :
    sys_invoke (Sys.create_account_with_seed f (ai_key a) b sd l n o s) a = Ok a' ->
    ai_data a = [].

Section Facts.
Context {FX : FixedCrate} {PC : PdaCrate} {BC : OracleBuild} {RT : Runtime}.
Context {CH : Chain} {AC : AccountCodec} {ME : Memory}.
Context {SC : SeedCrate} {SY : SystemProgram} {SL : SystemLaws SY} {SCR : CreatesOnlyNew SY}.
Context {BO : BorshCrate} {BOL : BorshLaws BO} {BOF : BorshFormat BO}.
Variables (balance : Pubkey -> Z) (clock : Z).
Variables (pid auth idl base : Pubkey) (text : list Z).
Hypothesis Hderive : derive_idl_account pid = Some (idl, base).
Hypothesis Hkey : length auth = 32%nat.
Hypothesis Hlive : auth <> ERASED_AUTHORITY.
Hypothesis Hbytes : Forall is_u8 text.
Hypothesis Hfits : Z.of_nat (HEADER_LEN + length text) <= MAX_SPACE_PER_OP.

(** ** One instruction *)

Lemma idl_routed C accs data e :
  idl_try_from_slice data = Some e ->
  process_instruction pid (presented balance C <$> accs) (IDL_IX_TAG_LE ++ data) clock
  = match run_idl pid (presented balance C <$> accs) e with
    | Ok r => Ok (Description r)
    | Err x => Err (into_program_error (KProgramError x))
    | Panic => Panic
    end.
Proof.
  intros He. unfold process_instruction, route_instruction, is_idl_instruction.
  rewrite bool_decide_eq_true_2 by (by exists data). rewrite drop_app_length.
  unfold process_idl_instruction. rewrite He. cbn [ok_or res_bind].
  by destruct (run_idl _ _ _).
Qed.

Lemma create_decodes :
  idl_try_from_slice ([IX_CREATE] ++ le_bytes 8 (Z.of_nat (length text)))
  = Some (Create (Z.of_nat (length text))).
Proof.
  assert (Hu : is_u64 (Z.of_nat (length text))) by (unfold MAX_SPACE_PER_OP in *; widths_lia).
  unfold idl_try_from_slice, c_idl_decode, IX_CREATE.
  rewrite <- (encode_u8 0), (lossless codec_u8) by widths_lia. cbn [mbind option_bind].
  rewrite <- encode_u64, <- (app_nil_r (encode _ _)), (lossless codec_u64) by done. done.
Qed.

Lemma write_decodes c :
  Forall is_u8 c -> is_u32 (Z.of_nat (length c)) ->
  idl_try_from_slice ([IX_WRITE] ++ le_bytes 4 (Z.of_nat (length c)) ++ c) = Some (Write c).
Proof.
  intros Hc Hl. unfold idl_try_from_slice, c_idl_decode, IX_WRITE.
  rewrite <- (encode_u8 2), (lossless codec_u8) by widths_lia. cbn [mbind option_bind].
  rewrite <- encode_bytes by done.
  rewrite <- (app_nil_r (encode (borsh_vec borsh_u8) c)).
  rewrite (lossless (codec_vec _ _ _ codec_u8)) by done. done.
Qed.

Lemma presented_some C k s w o d :
  C !! k = Some (o, d) ->
  presented balance C (k, s, w) = mkAcc (mkAccountInfo k o s w d) (balance k).
Proof. intros H. unfold presented. by rewrite H. Qed.

Lemma presented_none C k s w :
  C !! k = None ->
  presented balance C (k, s, w)
  = mkAcc (mkAccountInfo k SYSTEM_PROGRAM_ID s w []) (balance k).
Proof. intros H. unfold presented. by rewrite H. Qed.

Lemma presented_key C k s w :
  exists o d, presented balance C (k, s, w) = mkAcc (mkAccountInfo k o s w d) (balance k).
Proof. unfold presented. destruct (default _ (C !! k)) as [o d]. by exists o, d. Qed.

(** The account of the description holds the beginning [t], with room for the rest. *)
Definition holds (t : list Z) (C : IdlStore) : Prop :=
  exists data, C !! idl = Some (pid, data) /\ idl_ok data /\
    iv_authority (view_of data) = auth /\ iv_text (view_of data) = t /\
    (length text <= iv_room (view_of data))%nat.

Lemma execute_write C t c :
  holds t C -> Forall is_u8 c -> (length (t ++ c) <= length text)%nat ->
  exists C', execute balance clock C (write_idl_ix pid auth idl c) = Ok C' /\ holds (t ++ c) C'.
Proof.
  intros (data & HC & Hok & Ha & Ht & Hr) Hc Hl. rewrite length_app in Hl.
  pose proof (length_text data Hok) as Hlen. rewrite Ht in Hlen.
  destruct (ok_parts data Hok) as (_ & Hh & Hd & Hm). cbn [iv_room view_of] in Hr.
  destruct (text_view data (read_data_len data) c Hok) as [Hok' Hv]; [done | lia |].
  rewrite take_ge in Hv by (rewrite Ht; lia). rewrite Ht, Ha in Hv.
  set (data' := write_data_len _ _) in *.
  exists (<[idl := (pid, data')]> C). split.
  - unfold execute, write_idl_ix. cbn [ix_program_id ix_accounts ix_data].
    rewrite (idl_routed C _ _ (Write c)) by (apply write_decodes; [done | unfold MAX_SPACE_PER_OP in *; widths_lia]).
    cbn [run_idl fmap list_fmap]. rewrite (presented_some _ _ _ _ _ _ HC).
    destruct (presented_key C auth true true) as (o & d & ->).
    unfold idl_write. cbn [next res_bind info]. unfold check_owned_idl, check_authority, fail_if, key_ne.
    cbn [ai_owner ai_data ai_key ai_is_signer].
    rewrite (bool_decide_eq_true_2 (pid = pid)) by done.
    pose proof Hok as [-> _]. cbn [negb res_bind].
    rewrite (bool_decide_eq_false_2 (auth = _)) by done. cbn [iv_authority view_of] in Ha.
    rewrite Ha, bool_decide_eq_true_2 by done. cbn [negb res_bind].
    rewrite (proj2 (Z.ltb_ge _ _)) by (unfold MAX_SPACE_PER_OP in *; widths_lia). cbn [res_bind].
    rewrite (proj2 (Nat.ltb_ge _ _)) by lia. cbn [res_bind]. done.
  - exists data'. rewrite lookup_insert_eq. split; [done |]. split; [done |]. by rewrite Hv.
Qed.

Lemma derived : exists bump, derive_idl pid = Ok (idl, base, bump).
Proof.
  unfold derive_idl_account, derive_idl in *. destruct (find_program_address [] pid) as [b bump].
  destruct (create_with_seed b IDL_SEED pid) as [k |]; [| done]. cbn in Hderive.
  injection Hderive as -> ->. by exists bump.
Qed.

(** The creation of the account that the program asks the system program for: the rent of
    the description, paid by the authority. *)
Definition creation (bump : Z) : SysCall :=
  let space := Z.of_nat (HEADER_LEN + length text) in
  Sys.create_account_with_seed auth idl base IDL_SEED (minimum_rent space) space pid [[bump]].

(** The authority can pay it: the system program accepts the creation. *)
Definition funded : Prop := forall bump, derive_idl pid = Ok (idl, base, bump) ->
  is_ok (sys_invoke (creation bump) (mkAccountInfo idl SYSTEM_PROGRAM_ID false true [])) = true.

(** Creating the account, up to the system program. *)
Lemma create_run C o d :
  presented balance C (idl, false, true)
    = mkAcc (mkAccountInfo idl o false true d) (balance idl) ->
  exists bump, derive_idl pid = Ok (idl, base, bump) /\
  let a := mkAccountInfo idl o false true d in
  execute balance clock C (create_idl_ix pid auth idl base (length text))
  = match sys_invoke (creation bump) a with
    | Ok to =>
      if (length (ai_data to) <? HEADER_LEN)%nat
      then Err (into_program_error (KProgramError AccountDataTooSmall))
      else Ok (<[ai_key to := (ai_owner to, init_header auth (ai_data to))]> C)
    | Err x => Err (into_program_error (KProgramError x))
    | Panic => Panic
    end.
Proof.
  intros Hp. destruct derived as [bump Hd].
  exists bump. split; [done |]. cbn zeta. unfold creation.
  unfold execute, create_idl_ix. cbn [ix_program_id ix_accounts ix_data].
  rewrite (idl_routed C _ _ _ create_decodes). cbn [run_idl fmap list_fmap].
  destruct (presented_key C auth true true) as (o1 & d1 & ->). rewrite Hp.
  destruct (presented_key C base false false) as (o2 & d2 & ->).
  destruct (presented_key C SYSTEM_PROGRAM_ID false false) as (o3 & d3 & ->).
  destruct (presented_key C pid false false) as (o4 & d4 & ->).
  unfold idl_create_account. cbn [next res_bind info ai_key ai_is_signer].
  unfold fail_if, key_ne. rewrite !(bool_decide_eq_true_2 (_ = _)) by done. cbn [negb res_bind].
  rewrite Hd. cbn [res_bind]. rewrite !bool_decide_eq_true_2 by done. cbn [negb orb res_bind].
  replace (Z.min (as_u64 _) MAX_SPACE_PER_OP) with (Z.of_nat (HEADER_LEN + length text))
    by (unfold as_u64, MAX_SPACE_PER_OP in *; rewrite Z.mod_small by lia; lia).
  destruct (sys_invoke _ _) as [to | x |]; cbn [res_bind]; try done.
  by destruct (_ <? _)%nat.
Qed.

Lemma execute_create C :
  C !! idl = None ->
  (forall C', execute balance clock C (create_idl_ix pid auth idl base (length text)) = Ok C' ->
     holds [] C') /\
  (funded ->
   exists C', execute balance clock C (create_idl_ix pid auth idl base (length text)) = Ok C').
Proof.
  intros HC. destruct (create_run C SYSTEM_PROGRAM_ID []) as (bump & Hb & ->);
    [by apply presented_none |].
  destruct (sys_invoke _ _) as [to | |] eqn:Hto;
    [| split; [done |]; intros Hf; specialize (Hf _ Hb); by rewrite Hto in Hf..].
  unfold creation in Hto.
  apply (create_with_seed_zeroes _ _ _ _ _ _ _ (mkAccountInfo idl SYSTEM_PROGRAM_ID false true []))
    in Hto as (Hk & Ho & Hd). cbn [ai_key] in Hk.
  rewrite Nat2Z.id in Hd. rewrite Hk, Ho, Hd, length_replicate.
  rewrite (proj2 (Nat.ltb_ge _ _)) by lia. split; [| by eexists]. intros C' H. apply ok_inj in H as <-.
  destruct (init_view auth (replicate (HEADER_LEN + length text) 0)) as [Hok Hv];
    [rewrite length_replicate; lia | rewrite length_replicate; unfold MAX_SPACE_PER_OP in *; lia
    | done |].
  eexists. rewrite lookup_insert_eq. split; [done |]. split; [done |]. rewrite Hv.
  split; [done |]. split; [done |]. cbn. rewrite length_replicate. lia.
Qed.

(** Creating it again is refused. *)
Lemma execute_recreate C t :
  holds t C ->
  forall C', execute balance clock C (create_idl_ix pid auth idl base (length text)) <> Ok C'.
Proof.
  intros (data & HC & Hok & _) C'. destruct (create_run C pid data) as (bump & _ & ->);
    [by apply presented_some |].
  destruct (sys_invoke _ _) as [to | x |] eqn:E; try done.
  apply (create_only_new _ _ _ _ _ _ _ (mkAccountInfo idl pid false true data)) in E.
  cbn in E. subst data. destruct (ok_parts [] Hok) as (_ & H & _).
  header.
Qed.

(** ** A run *)

(** What is on the chain is a beginning of the description, or nothing. *)
Definition publishable (C : IdlStore) : Prop :=
  C !! idl = None \/ exists t, t `prefix_of` text /\ holds t C.

Section Run.
Context {NW : Network} {ZL : ZlibCrate}.

(** Every request gets through, and the authority can pay the creation. *)
Definition works : Prop :=
  (forall n, answers n = true) /\ (forall n, delivery n = Confirmed) /\ funded.

Lemma send_any ix s r s' :
  send_ix balance clock ix s = (r, s') ->
  store s' = store s /\ r <> Ok tt \/
  exists C', execute balance clock (store s) ix = Ok C' /\ store s' = C'.
Proof.
  unfold send_ix, request, st_bind, st_get, st_put, st_ret, st_raise. cbn [store requests].
  destruct (delivery (requests s)), (execute balance clock (store s) ix) as [C' | e |];
    intros [= <- <-]; cbn [store]; eauto; by left.
Qed.

Lemma send_works ix s C' :
  works -> execute balance clock (store s) ix = Ok C' ->
  send_ix balance clock ix s = (Ok tt, mkSession C' (S (requests s))).
Proof.
  intros (_ & Hd & _) H. unfold send_ix, request, st_bind, st_get, st_put, st_ret, st_raise.
  cbn [store requests]. by rewrite Hd, H.
Qed.

Lemma read_any k s :
  exists b, read_account_info k s
    = (Ok (if b : bool then store s !! k else None), mkSession (store s) (S (requests s))) /\
    (works -> b = true).
Proof. exists (answers (requests s)). split; [done |]. intros (H & _). apply H. Qed.

(** The pieces that are left, from any point on. *)
Lemma write_chunks_any cs t s r s' :
  t ++ concat cs = text -> holds t (store s) ->
  write_chunks balance clock pid auth idl cs s = (r, s') ->
  publishable (store s') /\ (r = Ok tt -> holds text (store s')) /\ (works -> r = Ok tt).
Proof.
  revert t s. induction cs as [| c cs IH]; intros t s Ht Hh H.
  - injection H as <- <-. cbn in Ht. rewrite app_nil_r in Ht. subst t.
    split; [right; by exists text | done].
  - cbn [write_chunks concat] in *.
    assert (Hc : Forall is_u8 c).
    { rewrite <- Ht in Hbytes. apply Forall_app in Hbytes as [_ Hb]. by apply Forall_app in Hb as [? _]. }
    rewrite app_assoc in Ht.
    assert (Hpre : (t ++ c) `prefix_of` text) by (by exists (concat cs)).
    destruct (execute_write (store s) t c Hh Hc) as (C' & He & Hh'); [by apply prefix_length |].
    unfold st_bind in H. destruct (send_ix _ _ _ s) as [r1 s1] eqn:E.
    assert (Hw : works -> r1 = Ok tt) by (intros Hw; rewrite (send_works _ _ _ Hw He) in E; congruence).
    assert (Hs : publishable (store s1) /\ (r1 = Ok tt -> holds (t ++ c) (store s1))).
    { destruct (send_any _ _ _ _ E) as [[-> Hr] | (C1 & He1 & ->)].
      - split; [right; exists t; split; [| done] | done].
        etransitivity; [apply prefix_app_r; reflexivity | exact Hpre].
      - rewrite He in He1. injection He1 as <-. split; [right; by exists (t ++ c) | done]. }
    destruct r1 as [[] | e |].
    + eapply IH; [exact Ht | by apply Hs | exact H].
    + injection H as <- <-. split; [apply Hs | split; [done |]]. intros W. by discriminate (Hw W).
    + injection H as <- <-. split; [apply Hs | split; [done |]]. intros W. by discriminate (Hw W).
Qed.

Lemma text_is_prefix data t u :
  idl_ok data -> iv_text (view_of data) = t -> text_is data (length t) u = Ok (bool_decide (t = u)).
Proof.
  intros Hok Ht. pose proof (length_text data Hok) as Hl. rewrite Ht in Hl.
  destruct (ok_parts data Hok) as (_ & _ & Hd & _). unfold text_is.
  rewrite (proj2 (Nat.ltb_ge _ _)) by header. cbn [iv_text view_of] in Ht. rewrite <- Hl in Ht.
  change 44%nat with HEADER_LEN. by rewrite Ht.
Qed.

Lemma already_written_any s r s' :
  publishable (store s) ->
  already_written balance clock pid auth idl base text s = (r, s') ->
  publishable (store s') /\
  (forall n, r = Ok n -> exists t, t `prefix_of` text /\ n = length t /\ holds t (store s')) /\
  (works -> exists n, r = Ok n).
Proof.
  intros Hp H. unfold already_written, st_bind at 1 in H.
  destruct (read_any idl s) as (b & Hr & Hb). rewrite Hr in H. set (s1 := mkSession _ _) in *.
  change (store s) with (store s1) in Hp, H.
  destruct (if b then _ else _) as [[o data] |] eqn:Eb.
  - destruct b; [| done]. destruct Hp as [Hn | (t & Ht & Hh)]; [congruence |].
    pose proof Hh as (d & HC & Hok & _ & Hv & _). rewrite HC in Eb. injection Eb as <- <-.
    pose proof (length_text d Hok) as Hl. rewrite Hv in Hl.
    destruct (ok_parts d Hok) as (_ & Hh' & _). unfold st_bind, st_guard, st_lift, st_ret in H.
    rewrite (proj2 (Nat.ltb_ge _ _)) in H by header.
    change (Z.to_nat (le_val (slice 40 4 d))) with (read_data_len d) in H. rewrite <- Hl in H.
    rewrite (proj2 (Nat.leb_le _ _)) in H by (by apply prefix_length). cbn [negb] in H.
    rewrite (text_is_prefix d t) in H by done.
    rewrite bool_decide_eq_true_2 in H by (destruct Ht as [k ->]; by rewrite take_app_length).
    cbn [negb] in H. injection H as <- <-. split; [right; by exists t |]. split; [| by eexists].
    intros n [= <-]. by exists t.
  - unfold st_bind, st_ret in H. destruct (send_ix _ _ _ s1) as [r1 s2] eqn:E.
    assert (Hs : publishable (store s2) /\ (r1 = Ok tt -> holds [] (store s2)) /\
                 (works -> r1 = Ok tt)).
    { destruct Hp as [Hn | (t & Ht & Hh)].
      - destruct (execute_create (store s1) Hn) as (Hh & Hf).
        assert (Hw : works -> r1 = Ok tt).
        { intros W. destruct (Hf (proj2 (proj2 W))) as (C' & He).
          rewrite (send_works _ _ _ W He) in E. congruence. }
        destruct (send_any _ _ _ _ E) as [[-> Hne] | (C1 & He1 & ->)].
        + split; [by left |]. by split.
        + split; [| by auto]. right. exists []. split; [apply prefix_nil | auto].
      - destruct (send_any _ _ _ _ E) as [[-> Hne] | (C1 & He1 & _)].
        + split; [right; by exists t |]. split; [done |]. intros W. rewrite (Hb W) in Eb.
          destruct Hh as (d & HC & _). congruence.
        + by apply (execute_recreate _ t) in He1. }
    destruct Hs as (Hs1 & Hs2 & Hs3).
    destruct r1 as [[] | e |]; injection H as <- <-.
    + split; [done |]. split; [| by eexists]. intros n [= <-]. exists [].
      split; [apply prefix_nil | by auto].
    + split; [done |]. split; [done |]. intros W. by discriminate (Hs3 W).
    + split; [done |]. split; [done |]. intros W. by discriminate (Hs3 W).
Qed.

Lemma verify_any s r s' :
  verify_published idl text s = (r, s') ->
  store s' = store s /\ (holds text (store s) -> works -> r = Ok tt).
Proof.
  intros H. unfold verify_published, st_bind at 1 in H.
  destruct (read_any idl s) as (b & Hr & Hb). rewrite Hr in H. set (s1 := mkSession _ _) in *.
  change (store s) with (store s1). split.
  - unfold st_bind, st_guard, st_lift, st_ret, st_raise, ok_or in H.
    by repeat case_match; simplify_eq.
  - intros (d & HC & Hok & _ & Hv & _) W. rewrite (Hb W) in H.
    change (store s) with (store s1) in H. rewrite HC in H.
    pose proof (length_text d Hok) as Hl. rewrite Hv in Hl.
    destruct (ok_parts d Hok) as (_ & Hh' & _).
    unfold st_bind, st_guard, st_lift, st_ret, ok_or in H.
    rewrite (proj2 (Nat.ltb_ge _ _)) in H by header.
    change (Z.to_nat (le_val (slice 40 4 d))) with (read_data_len d) in H. rewrite <- Hl in H.
    rewrite Nat.eqb_refl in H. cbn [negb] in H. rewrite (text_is_prefix d text) in H by done.
    rewrite bool_decide_eq_true_2 in H by done. by injection H as <- _.
Qed.

(** One run, on any network. *)
Lemma publish_any json s r s' :
  compress_idl json = Some text -> publishable (store s) ->
  publish_idl balance clock pid auth json s = (r, s') ->
  publishable (store s') /\ (forall k, r = Ok k -> k = idl /\ holds text (store s')) /\
  (works -> r = Ok idl).
Proof.
  intros Hz Hp H. unfold publish_idl, st_bind, st_lift, st_ret in H.
  rewrite Hderive, Hz in H. cbn [ok_or] in H.
  destruct (already_written _ _ _ _ _ _ _ s) as [r1 s1] eqn:E1.
  destruct (already_written_any _ _ _ Hp E1) as (Hp1 & Hn & Hw1).
  destruct r1 as [n | e |]; [| injection H as <- <-; split; [done |]; split; [done |];
    intros W; by destruct (Hw1 W)..].
  destruct (Hn n eq_refl) as (t & Ht & -> & Hh).
  destruct (write_chunks _ _ _ _ _ _ s1) as [r2 s2] eqn:E2.
  assert (Hcs : t ++ concat (chunks IDL_WRITE_CHUNK (drop (length t) text)) = text).
  { rewrite concat_chunks by (unfold IDL_WRITE_CHUNK; lia).
    destruct Ht as [u ->]. by rewrite drop_app_length. }
  destruct (write_chunks_any _ t _ _ _ Hcs Hh E2) as (Hp2 & Hh2 & Hw2).
  destruct r2 as [[] | e |]; [| injection H as <- <-; split; [done |]; split; [done |];
    intros W; by discriminate (Hw2 W)..].
  destruct (verify_published idl text s2) as [r3 s3] eqn:E3.
  destruct (verify_any _ _ _ E3) as [Hs Hw3]. specialize (Hh2 eq_refl).
  destruct r3 as [[] | e |]; injection H as <- <-; rewrite Hs; (split; [done |]).
  - split; [by intros k [= <-] | done].
  - split; [done |]. intros W. by discriminate (Hw3 Hh2 W).
  - split; [done |]. intros W. by discriminate (Hw3 Hh2 W).
Qed.

End Run.

End Facts.

(** ** Runs of the tool, one after the other *)

Section Resume.
Context {FX : FixedCrate} {PC : PdaCrate} {BC : OracleBuild} {RT : Runtime}.
Context {CH : Chain} {AC : AccountCodec} {ME : Memory} {SC : SeedCrate}.
Context {BO : BorshCrate} {BOL : BorshLaws BO} {BOF : BorshFormat BO} {ZL : ZlibCrate}.
Variables (pid auth idl base : Pubkey) (text : list Z).
Hypothesis Hderive : derive_idl_account pid = Some (idl, base).
Hypothesis Hkey : length auth = 32%nat.
Hypothesis Hlive : auth <> ERASED_AUTHORITY.
Hypothesis Hbytes : Forall is_u8 text.
Hypothesis Hfits : Z.of_nat (HEADER_LEN + length text) <= MAX_SPACE_PER_OP.

(** A run that may have failed anywhere, over any network, with any balances and a system
    program that may have refused the creation.  A transaction is executed during the run or
    never: a run that has given up on a transaction leaves nothing that is executed later. *)
Inductive attempt (json : list Z) (C : IdlStore) : IdlStore -> Prop :=
| attempt_run (NW : Network) (SY : SystemProgram) (SL : SystemLaws SY) (SCR : CreatesOnlyNew SY)
    balance clock n r s' :
    publish_idl balance clock pid auth json (mkSession C n) = (r, s') ->
    attempt json C (store s').

Lemma attempts_publishable json C C' :
  compress_idl json = Some text -> publishable pid auth idl text C -> rtc (attempt json) C C' ->
  publishable pid auth idl text C'.
Proof.
  intros Hz Hp H. induction H as [| C C1 C2 [NW SY SL SCR bal clk n r s' Hr] _ IH]; [done |].
  apply IH. by eapply publish_any in Hr as [? _].
Qed.


End Resume.

(** ** Runs to try the properties on *)

(** A system program that creates only what is not there. *)
Definition sys_new : SystemProgram := fun c a =>
  match c with
  | Sys.create_account _ _ _ n o _ | Sys.create_account_with_seed _ _ _ _ _ n o _ =>
    match ai_data a with
    | [] => Ok (mkAccountInfo (ai_key a) o (ai_is_signer a) (ai_is_writable a)
                  (replicate (Z.to_nat n) 0))
    | _ => Err AccountAlreadyInitialized
    end
  | Sys.transfer _ _ _ => Ok a
  end.

Lemma sys_new_laws : SystemLaws sys_new.
Proof.
  split; intros *; unfold sys_invoke, sys_new; [case_match | case_match |]; intros Heq;
    by simplify_eq.
Qed.
Lemma sys_new_creates : CreatesOnlyNew (CH := idl_chain_ex) sys_new.
Proof. intros f b sd l n o s a a'. unfold sys_invoke, sys_new. by destruct (ai_data a). Qed.

(** A system program that refuses to create: the payer has no funds. *)
Definition sys_poor : SystemProgram := fun c a =>
  match c with Sys.transfer _ _ _ => Ok a | _ => Err (Custom 1) end.
Lemma sys_poor_laws : SystemLaws sys_poor.
Proof. split; intros *; unfold sys_invoke, sys_poor; intros Heq; by simplify_eq. Qed.
Lemma sys_poor_creates : CreatesOnlyNew (CH := idl_chain_ex) sys_poor.
Proof. done. Qed.

(** The second transaction of the first run is lost; the second run gets through. *)
Definition net_lossy : Network := {|
  answers := fun _ => true;
  delivery := fun n => if (n =? 2)%nat then Lost else Confirmed |}.
Definition net_good : Network := {| answers := fun _ => true; delivery := fun _ => Confirmed |}.
Definition zlib_ex : ZlibCrate := Some.
Definition runtime_none : Runtime := fun _ _ => None.
Definition codec_none : AccountCodec := {|
  market_of_bytes := fun _ => None; supply_position_of_bytes := fun _ => None;
  borrow_position_of_bytes := fun _ => None; global_config_of_bytes := fun _ => None;
  whitelist_entry_of_bytes := fun _ => None; token_account_of_bytes := fun _ => None;
  mint_of_bytes := fun _ => None |}.
Definition memory_none : Memory := fun _ a => a.

#[local] Existing Instances fixed_ref idl_chain_ex seed_ex idl_pda_ex borsh_ex runtime_none
  codec_none memory_none sys_new sys_new_laws sys_new_creates borsh_ref borsh_ref_laws
  borsh_ref_format zlib_ex.

Definition pid_ex : Pubkey := replicate 32 9.
Definition auth_ex : Pubkey := replicate 32 1.
Definition doc_ex (n : nat) : list Z := replicate n 7.
Definition run_publish (NW : Network) (n : nat) (C : IdlStore) :=
  publish_idl (fun _ => 0) 0 pid_ex auth_ex (doc_ex n) (mkSession C 0).

Definition idl_key_ex : Pubkey := Eval vm_compute in
  match derive_idl_account pid_ex with Some (k, _) => k | None => [] end.


(** A description that does not fit what the program allocates at once is not published, and
    running the tool again does not help: it never asks for more room. *)
Lemma long_description_is_stuck :
  let '(r, s) := run_publish net_good 9957 ∅ in
  r = Err (Rejected AccountDataTooSmall) /\
  fst (run_publish net_good 9957 (store s)) = Err (Rejected AccountDataTooSmall).
Proof. vm_compute. split; reflexivity. Qed.
