(* ===== verification/EventCodecFacts.v ===== *)
(** * Facts about the wire format of events

    Events survive the wire, and a client that reads the transactions of the program sees
    exactly the events that the instructions logged. *)
From stdpp Require Import gmap.
From S2P Require Import Prelude.
From S2P Require Import Errors.
From S2P Require Import Monad.
From S2P Require Import FixedPoint.
From S2P Require Import FixedFacts.
From S2P Require Import InterestRatePerSecond.
From S2P Require Import Bytes.
From S2P Require Import Pda.
From S2P Require Import OracleRate.
From S2P Require Import Oracle.
From S2P Require Import BorrowPosition.
From S2P Require Import SupplyVault.
From S2P Require Import Market.
From S2P Require Import MarketWrapper.
From S2P Require Import Accounts.
From S2P Require Import IxsUser.
From S2P Require Import IxsAdmin.
From S2P Require Import Events.
From S2P Require Import Processor.
From S2P Require Import ProcessorAdmin.
From S2P Require Import Program.
From S2P Require Import Borsh.
From S2P Require Import InstructionCodec.
From S2P Require Import EventCodec.
From S2P Require Import ProcessorFacts.
From S2P Require Import ProgramFacts.
From S2P Require Import Ledger.
From S2P Require Import Creation.
From S2P Require Import LedgerExample.

(** ** The values of the types *)

Definition is_rate (x : OracleRate) : Prop := is_ifixed (rate x) /\ is_ifixed (confidence x).
Definition is_health (x : BorrowPositionHealth) : Prop :=
  is_ifixed (ltv x) /\ is_u64 (borrowed_atoms x) /\ is_u64 (collateral_atoms x) /\
  is_ifixed (borrow_value x) /\ is_ifixed (collateral_value x).
Definition is_summary (x : SupplyVaultSummary) : Prop :=
  is_i64 (summary_last_update x) /\ is_u64 (summary_total_supply x) /\
  is_u64 (summary_total_borrow x) /\ is_u64 (summary_pending_curator_fee_atoms x) /\
  is_u64 (summary_pending_protocol_fee_atoms x) /\ is_ifixed (summary_utilisation_rate x) /\
  is_ifixed (per_second (summary_borrow_interest_rate x)) /\
  is_ifixed (per_second (summary_lending_interest_rate x)).
Definition is_single (x : SingleMarketTransactionEvent) : Prop :=
  is_pubkey (se_market x) /\ is_pubkey (se_user x) /\ is_pubkey (se_position x) /\
  is_pubkey (se_mint x) /\ is_u64 (se_amount x) /\ is_summary (se_supply_vault_summary x) /\
  is_u64 (se_collateral_vault_atoms x) /\ is_rate (se_supply_oracle_rate x) /\
  is_rate (se_collateral_oracle_rate x).
Definition is_double (x : DoubleMarketTransactionEvent) : Prop :=
  is_pubkey (de_market x) /\ is_pubkey (de_user x) /\ is_pubkey (de_position x) /\
  is_pubkey (de_mint_in x) /\ is_u64 (de_amount_in x) /\ is_pubkey (de_mint_out x) /\
  is_u64 (de_amount_out x) /\ is_summary (de_supply_vault_summary x) /\
  is_u64 (de_collateral_vault_atoms x) /\ is_rate (de_supply_oracle_rate x) /\
  is_rate (de_collateral_oracle_rate x).
Definition is_fee (x : ReedeemFeeEvent) : Prop :=
  is_pubkey (rf_market x) /\ is_pubkey (rf_fee_receiver x) /\ is_u64 (rf_fee_amount x) /\
  is_pubkey (rf_mint x) /\ is_summary (rf_supply_vault_snapshot x).
Definition is_whitelist (x : LiquidatorWhitelistUpdatedEvent) : Prop :=
  is_pubkey (wl_market x) /\ is_pubkey (wl_curator x) /\ is_pubkey (wl_liquidator x) /\
  is_u64 (wl_active_whitelisted_liquidators x).

(** The fields of an event have the values of their types. *)
Definition event_typed (e : AutaraEvent) : Prop :=
  match e with
  | Event.Liquidate x =>
    is_pubkey (le_market x) /\ is_pubkey (le_liquidator x) /\
    is_pubkey (le_liquidatee_position x) /\ is_pubkey (le_supply_mint x) /\
    is_pubkey (le_collateral_mint x) /\ is_health (le_health_before_liquidation x) /\
    is_health (le_health_after_liquidation x) /\ is_u64 (le_supply_repaid x) /\
    is_u64 (le_collateral_liquidated x) /\ is_u64 (le_liquidator_fee x)
  | Event.Supply x | Event.Withdraw x | Event.DepositCollateral x | Event.WithdrawCollateral x
  | Event.Borrow x | Event.Repay x => is_single x
  | Event.BorrowAndDeposit x | Event.WithdrawAndRepay x => is_double x
  | Event.ReedeemProtocolFees x | Event.ReedeemCuratorFees x => is_fee x
  | Event.SocializeLoss x =>
    is_pubkey (sl_market x) /\ is_pubkey (sl_position x) /\ is_u64 (sl_debt_socialized x) /\
    is_u64 (sl_collateral_liquidated x)
  | Event.DonateSupply x =>
    is_pubkey (ds_market x) /\ is_pubkey (ds_donor x) /\ is_pubkey (ds_mint x) /\
    is_u64 (ds_amount x)
  | Event.CapitalSweepStarted x =>
    is_pubkey (cs_market x) /\ is_pubkey (cs_curator x) /\ is_pubkey (cs_position x) /\
    is_pubkey (cs_collateral_mint x) /\ is_health (cs_health_before_sweep x) /\
    is_u64 (cs_collateral_swept x)
  | Event.CapitalSweepSettled x =>
    is_pubkey (ss_market x) /\ is_pubkey (ss_curator x) /\ is_pubkey (ss_position x) /\
    is_pubkey (ss_supply_mint x) /\ is_pubkey (ss_collateral_mint x) /\
    is_health (ss_health_before_settlement x) /\ is_health (ss_health_after_settlement x) /\
    is_u64 (ss_supply_repaid x) /\ is_u64 (ss_collateral_liquidated x) /\
    is_u64 (ss_curator_bonus x) /\ is_u64 (ss_collateral_returned x)
  | Event.LiquidatorWhitelistEntryAdded x | Event.LiquidatorWhitelistEntryRemoved x =>
    is_whitelist x
  end.

Section Facts.
Context {BO : BorshCrate} {BOL : BorshLaws BO}.

#[local] Hint Resolve codec_tag codec_ifixed codec_rate : borsh.

(** A codec along the fields of a record. *)
Ltac codec_fields :=
  eapply codec_map;
  [ eauto 20 with borsh
  | let y := fresh in intros y; destruct y; simpl; tauto
  | let x := fresh in intros x;
    repeat match goal with p : (_ * _)%type |- _ => destruct p end; simpl; tauto ].

Lemma codec_event_tag : codec_for (fun _ => True) c_event_tag.
Proof. apply codec_enum. intros t. split; [destruct t; split; vm_compute; congruence | by destruct t]. Qed.

Lemma codec_oracle_rate : codec_for is_rate c_oracle_rate.
Proof. unfold is_rate. codec_fields. Qed.
Lemma codec_health : codec_for is_health c_health.
Proof. unfold is_health. codec_fields. Qed.
Lemma codec_summary : codec_for is_summary c_summary.
Proof. unfold is_summary. codec_fields. Qed.
#[local] Hint Resolve codec_event_tag codec_oracle_rate codec_health codec_summary : borsh.

Lemma codec_liquidate_event :
  codec_for (fun x => event_typed (Event.Liquidate x)) c_liquidate_event.
Proof. unfold event_typed. codec_fields. Qed.
Lemma codec_single_event : codec_for is_single c_single_event.
Proof. unfold is_single. codec_fields. Qed.
Lemma codec_double_event : codec_for is_double c_double_event.
Proof. unfold is_double. codec_fields. Qed.
Lemma codec_fee_event : codec_for is_fee c_fee_event.
Proof. unfold is_fee. codec_fields. Qed.
Lemma codec_loss_event : codec_for (fun x => event_typed (Event.SocializeLoss x)) c_loss_event.
Proof. unfold event_typed. codec_fields. Qed.
Lemma codec_donate_event :
  codec_for (fun x => event_typed (Event.DonateSupply x)) c_donate_event.
Proof. unfold event_typed. codec_fields. Qed.
Lemma codec_sweep_started_event :
  codec_for (fun x => event_typed (Event.CapitalSweepStarted x)) c_sweep_started_event.
Proof. unfold event_typed. codec_fields. Qed.
Lemma codec_sweep_settled_event :
  codec_for (fun x => event_typed (Event.CapitalSweepSettled x)) c_sweep_settled_event.
Proof. unfold event_typed. codec_fields. Qed.
Lemma codec_whitelist_event : codec_for is_whitelist c_whitelist_event.
Proof. unfold is_whitelist. codec_fields. Qed.
#[local] Hint Resolve codec_liquidate_event codec_single_event codec_double_event
  codec_fee_event codec_loss_event codec_donate_event codec_sweep_started_event
  codec_sweep_settled_event codec_whitelist_event : borsh.

Lemma event_lossless e rest :
  event_typed e -> deserialize_event (serialize_event e ++ rest) = Some (e, rest).
Proof.
  intros H. unfold deserialize_event.
  destruct e; cbn [serialize_event]; rewrite <- app_assoc, (lossless codec_event_tag) by done;
    cbn [mbind option_bind]; (eapply payload_lossless; [eauto with borsh | exact H]).
Qed.

Lemma event_decoded_typed l e rest :
  Forall is_byte l -> deserialize_event l = Some (e, rest) -> event_typed e.
Proof.
  intros Hl H. unfold deserialize_event in H.
  destruct (decode c_event_tag l) as [[t l1] |] eqn:E; [simpl in H | done].
  apply (typed codec_event_tag) in E as [_ Hl1]; [| done].
  destruct t; (eapply payload_typed in H as (x & -> & Hx & _);
    [| eauto with borsh | done]); exact Hx.
Qed.

Lemma log_data_read p m e rest :
  event_typed e -> from_bytes (ix_data (log_instruction p m e) ++ rest) = Some e.
Proof.
  intros He. unfold from_bytes, log_instruction. cbn [ix_data serialize].
  rewrite <- !app_assoc, (lossless codec_tag) by done. cbn [mbind option_bind].
  rewrite bool_decide_eq_false_2 by tauto. by rewrite event_lossless.
Qed.

(** C21: an event survives the wire.  The data of [log_ix] is an instruction [Log] for the
    program, followed by the event: the program decodes it as such, and a client reads from
    it the event that was logged, with anything behind it.  Whatever bytes a client reads,
    an event that it gets has fields with the values of their types. *)
Theorem event_roundtrip p m e rest :
  event_typed e ->
  deserialize (ix_data (log_instruction p m e)) = Some (Ix.Log, serialize_event e) /\
  from_bytes (ix_data (log_instruction p m e) ++ rest) = Some e /\
  forall l e', Forall is_byte l -> from_bytes l = Some e' -> event_typed e'.
Proof.
  intros He. split; [by apply (deserialize_serialize Ix.Log) |].
  split; [by apply log_data_read |].
  intros l e' Hl H. unfold from_bytes in H.
  destruct (decode c_tag l) as [[t l1] |] eqn:E; [cbn [mbind option_bind] in H | done].
  apply (typed codec_tag) in E as [_ Hl1]; [| done]. destruct (bool_decide _); [done |].
  destruct (deserialize_event l1) as [[x l2] |] eqn:Ee; [| done]. simpl in H. simplify_eq.
  by eapply event_decoded_typed.
Qed.

End Facts.

(** ** What a client sees *)

(** The kind under which an event travels, and the market it names. *)
Definition event_tag (e : AutaraEvent) : AurataEventTag :=
  match e with
  | Event.Liquidate _ => EventTag.Liquidate
  | Event.Supply _ => EventTag.Supply
  | Event.Withdraw _ => EventTag.Withdraw
  | Event.DepositCollateral _ => EventTag.DepositCollateral
  | Event.WithdrawCollateral _ => EventTag.WithdrawCollateral
  | Event.Borrow _ => EventTag.Borrow
  | Event.Repay _ => EventTag.Repay
  | Event.ReedeemProtocolFees _ => EventTag.RedeemProtocolFees
  | Event.ReedeemCuratorFees _ => EventTag.RedeemCuratorFees
  | Event.BorrowAndDeposit _ => EventTag.DepositAndBorrow
  | Event.WithdrawAndRepay _ => EventTag.WithdrawAndRepay
  | Event.SocializeLoss _ => EventTag.SocializeLoss
  | Event.DonateSupply _ => EventTag.Donation
  | Event.CapitalSweepStarted _ => EventTag.CapitalSweepStarted
  | Event.CapitalSweepSettled _ => EventTag.CapitalSweepSettled
  | Event.LiquidatorWhitelistEntryAdded _ => EventTag.LiquidatorWhitelistEntryAdded
  | Event.LiquidatorWhitelistEntryRemoved _ => EventTag.LiquidatorWhitelistEntryRemoved
  end.

Definition event_market (e : AutaraEvent) : Pubkey :=
  match e with
  | Event.Liquidate x => le_market x
  | Event.Supply x | Event.Withdraw x | Event.DepositCollateral x | Event.WithdrawCollateral x
  | Event.Borrow x | Event.Repay x => se_market x
  | Event.BorrowAndDeposit x | Event.WithdrawAndRepay x => de_market x
  | Event.ReedeemProtocolFees x | Event.ReedeemCuratorFees x => rf_market x
  | Event.SocializeLoss x => sl_market x
  | Event.DonateSupply x => ds_market x
  | Event.CapitalSweepStarted x => cs_market x
  | Event.CapitalSweepSettled x => ss_market x
  | Event.LiquidatorWhitelistEntryAdded x | Event.LiquidatorWhitelistEntryRemoved x =>
    wl_market x
  end.

(** The kind of event that the handler of an instruction logs.  It is the kind that is named
    after the instruction, but for the fees of the protocol, whose handler logs the event of the
    curator's fees.  The instructions that create accounts or configure log nothing. *)
Definition announced (ix : AurataInstruction) : option AurataEventTag :=
  match ix with
  | Ix.SupplyApl _ => Some EventTag.Supply
  | Ix.WithdrawSupply _ => Some EventTag.Withdraw
  | Ix.BorrowApl _ => Some EventTag.Borrow
  | Ix.DepositAplCollateral _ => Some EventTag.DepositCollateral
  | Ix.WithdrawAplCollateral _ => Some EventTag.WithdrawCollateral
  | Ix.RepayApl _ => Some EventTag.Repay
  | Ix.Liquidate _ => Some EventTag.Liquidate
  | Ix.ReedeemCuratorFees | Ix.ReedeemProtocolFees => Some EventTag.RedeemCuratorFees
  | Ix.BorrowDepositApl _ => Some EventTag.DepositAndBorrow
  | Ix.WithdrawRepayApl _ => Some EventTag.WithdrawAndRepay
  | Ix.SocializeLoss => Some EventTag.SocializeLoss
  | Ix.DonateSupply _ => Some EventTag.Donation
  | Ix.BeginCapitalSweep => Some EventTag.CapitalSweepStarted
  | Ix.SettleCapitalSweep _ => Some EventTag.CapitalSweepSettled
  | Ix.AddWhitelistedLiquidator _ => Some EventTag.LiquidatorWhitelistEntryAdded
  | Ix.RemoveWhitelistedLiquidator _ => Some EventTag.LiquidatorWhitelistEntryRemoved
  | _ => None
  end.

(** The events among the calls of an instruction. *)
Definition logged (c : Call) : option AutaraEvent :=
  match call c with log_ix _ _ e => Some e | _ => None end.

Section Client.
Context {BO : BorshCrate} {BOL : BorshLaws BO}.

(** The runtime reports a call as the inner instruction [i]: the program that was called,
    with the data that the builder of the instruction gives.  The other programs that the
    handlers call, and the callbacks, are not the program [pid]. *)
Definition reported (pid : Pubkey) (tx : ProcessedTransaction) (c : Call)
  (i : InnerInstruction) : Prop :=
  match call c with
  | log_ix p m e =>
    get_account_key tx (in_program_id_index i) = Some p /\ p = pid /\
    in_data i = ix_data (log_instruction p m e) /\ event_typed e
  | _ => exists k, get_account_key tx (in_program_id_index i) = Some k /\ k <> pid
  end.

Lemma reported_events pid tx cs inner :
  Forall2 (reported pid tx) cs inner ->
  omap (fun ix => if bool_decide (fst ix = pid) then from_bytes (snd ix) else None)
    (omap (fun ix => let* k := get_account_key tx (in_program_id_index ix) in
                     Some (k, in_data ix)) inner)
  = omap logged cs.
Proof.
  induction 1 as [| c i cs inner H _ IH]; [done |]. unfold reported, logged in *.
  cbn [omap list_omap] in *. destruct (call c) as [p m e | | | |].
  { destruct H as (Hk & -> & Hd & He). rewrite Hk. cbn [mbind option_bind omap list_omap fst snd].
    rewrite bool_decide_eq_true_2 by done. rewrite Hd.
    pose proof (log_data_read pid m e [] He) as Hr. rewrite app_nil_r in Hr. by rewrite Hr, IH. }
  all: destruct H as (k & Hk & Hne); rewrite Hk; cbn [mbind option_bind omap list_omap fst snd];
    by rewrite bool_decide_eq_false_2, IH.
Qed.

Context {FX : FixedCrate} {PC : PdaCrate} {BC : OracleBuild} {RT : Runtime}.
Context {CH : Chain} {AC : AccountCodec} {ME : Memory}.

(** The event that a handler logs, and what it is of. *)
Definition logs_once (t : AurataEventTag) (o : Outcome) : Prop :=
  exists e, omap logged (calls o) = [e] /\ event_tag e = t /\
    exists m', (event_market e, DMarket m') ∈ written o.

Ltac logs_done :=
  unfold logs_once, write_supply, write_borrow, write_market;
  cbn [calls written cx_calls cx_state app omap list_omap logged call];
  eexists; split; [reflexivity |]; split; [reflexivity |];
  eexists; cbn; apply list_elem_of_here.
Ltac logs_case h :=
  unfold h, get_single_market_transaction_event, get_double_market_transaction_event in *;
  handler_inv; logs_done.

Lemma user_logs l ix ts o t :
  autara_process_instruction id l ix ts = Ok o -> announced ix = Some t ->
  match ix with
  | Ix.SupplyApl _ | Ix.WithdrawSupply _ | Ix.BorrowApl _ | Ix.DepositAplCollateral _
  | Ix.WithdrawAplCollateral _ | Ix.RepayApl _ | Ix.BorrowDepositApl _
  | Ix.WithdrawRepayApl _ => True
  | _ => False
  end -> logs_once t o.
Proof.
  intros H Ht Hix. destruct ix; try done; cbn in Ht; simplify_eq Ht; intros <-; ix_inv H.
  - logs_case @process_supply_apl.
  - logs_case @process_withdraw_supply.
  - logs_case @process_borrow_apl.
  - logs_case @process_deposit_apl_collateral.
  - logs_case @process_withdraw_apl_collateral.
  - logs_case @process_repay_apl.
  - logs_case @process_borrow_deposit_apl.
  - logs_case @process_withdraw_repay_apl.
Qed.

Lemma force_logs l ix ts o t :
  autara_process_instruction id l ix ts = Ok o -> announced ix = Some t ->
  match ix with
  | Ix.Liquidate _ | Ix.SocializeLoss | Ix.BeginCapitalSweep | Ix.SettleCapitalSweep _
  | Ix.ReedeemCuratorFees | Ix.ReedeemProtocolFees | Ix.DonateSupply _
  | Ix.AddWhitelistedLiquidator _ | Ix.RemoveWhitelistedLiquidator _ => True
  | _ => False
  end -> logs_once t o.
Proof.
  intros H Ht Hix. destruct ix; try done; cbn in Ht; simplify_eq Ht; intros <-; ix_inv H.
  - logs_case @process_liquidate.
  - logs_case @process_redeem_curator_fees.
  - logs_case @process_redeem_protocol_fees.
  - logs_case @process_socialize_loss.
  - logs_case @process_donate_supply.
  - logs_case @process_begin_capital_sweep.
  - logs_case @process_settle_capital_sweep.
  - logs_case @process_add_whitelisted_liquidator.
  - logs_case @process_remove_whitelisted_liquidator.
Qed.

(** A successful instruction logs its event once. *)
Lemma announced_logs l ix ts o t :
  autara_process_instruction id l ix ts = Ok o -> announced ix = Some t -> logs_once t o.
Proof.
  intros H Ht. destruct ix; try discriminate Ht; first [by eapply user_logs | by eapply force_logs].
Qed.

(** A client sees what the program did.  Of a successful instruction on a market or its
    whitelist, a client that reads the inner instructions which the runtime reports for the
    calls of the program gets exactly one event: it is of the kind that belongs to the
    instruction, and it names the market that the instruction wrote.  (For the fees of the
    protocol this is the event of the curator's fees, which is what the program logs.) *)
Theorem client_sees_the_instruction l ix ts o t tx :
  autara_process_instruction id l ix ts = Ok o -> announced ix = Some t ->
  Forall2 (reported id tx) (calls o) (concat (inner_instructions_list tx)) ->
  exists e, from_processed_tx tx (fun k => bool_decide (k = id)) = [e] /\ event_tag e = t /\
    exists m', (event_market e, DMarket m') ∈ written o.
Proof.
  intros H Ht Hr. pose proof (announced_logs _ _ _ _ _ H Ht) as Hl. destruct Hl as (e & Hl & He). exists e. split; [| done].
  unfold from_processed_tx, get_ix_data_with_program_ids.
  by rewrite (reported_events id tx _ _ Hr), Hl.
Qed.

End Client.

(** ** Witness: the deposit of the example *)

#[local] Existing Instances fixed_ref pda_ex borsh_ex chain_ex runtime_ex memory_ex codec_ex
  borsh_ref.

Definition deposit_event : AutaraEvent :=
  Eval vm_compute in
    match omap logged (calls (run_ex deposit_accounts deposit_ix)) with
    | e :: _ => e
    | [] => Event.DonateSupply (mkDonateSupplyEvent [] [] [] 0)
    end.

(** The report of its two calls: the log and the transfer. *)
Definition deposit_tx : ProcessedTransaction :=
  mkProcessed [[mkInner 0 (ix_data (log_instruction id market_key deposit_event)); mkInner 1 []]]
    (fun i => if i =? 0 then Some id else Some (key_ex 9)).

Lemma deposit_event_typed : event_typed deposit_event.
Proof. vm_compute. repeat split; try discriminate; repeat constructor; discriminate. Qed.

Lemma deposit_reported :
  Forall2 (reported id deposit_tx) (calls (run_ex deposit_accounts deposit_ix))
    (concat (inner_instructions_list deposit_tx)).
Proof.
  assert (E : exists s s' n, calls (run_ex deposit_accounts deposit_ix)
    = [mkCall (log_ix id market_key deposit_event) s;
       mkCall (transfer (key_ex 60) (key_ex 7) (key_ex 21) n) s'])
    by (vm_compute; eexists _, _, _; reflexivity).
  destruct E as (s & s' & n & ->). constructor; [| constructor; [| constructor]].
  - split; [reflexivity |]. split; [reflexivity |]. split; [reflexivity |].
    apply deposit_event_typed.
  - exists (key_ex 9). split; [reflexivity | vm_compute; discriminate].
Qed.

Lemma client_sees_witness :
  exists e, from_processed_tx deposit_tx (fun k => bool_decide (k = id)) = [e] /\
    event_tag e = EventTag.DepositCollateral.
Proof.
  destruct (client_sees_the_instruction deposit_accounts deposit_ix 1000
    (run_ex deposit_accounts deposit_ix) EventTag.DepositCollateral deposit_tx) as (e & H & He & _).
  - apply deposit_run.
  - reflexivity.
  - apply deposit_reported.
  - exists e. split; [exact H | exact He].
Defined.

Lemma event_roundtrip_witness :
  from_bytes (ix_data (log_instruction id market_key deposit_event) ++ [7]) = Some deposit_event.
Proof.
  eapply (event_roundtrip id market_key deposit_event [7]). apply deposit_event_typed.
Defined.
