(* ===== verification/TokenFlow.v ===== *)
(** * Token transfers and the accounted collateral

    The transfers that an instruction asks the token program for, against the change of the
    collateral that the market accounts for.  [token_rules] is what is used of the token
    program: the authority of an accepted transfer owns the source account. *)
From stdpp Require Import gmap relations.
From S2P Require Import Prelude.
From S2P Require Import Errors.
From S2P Require Import Monad.
From S2P Require Import FixedPoint.
From S2P Require Import FixedFacts.
From S2P Require Import InterestRateCurve.
From S2P Require Import Pda.
From S2P Require Import OracleRate.
From S2P Require Import Oracle.
From S2P Require Import GlobalConfig.
From S2P Require Import LiquidatorWhitelist.
From S2P Require Import MarketConfig.
From S2P Require Import SupplyPosition.
From S2P Require Import BorrowPosition.
From S2P Require Import PositionFacts.
From S2P Require Import CollateralVault.
From S2P Require Import SupplyVault.
From S2P Require Import Liquidation.
From S2P Require Import Market.
From S2P Require Import MarketWrapper.
From S2P Require Import Creation.
From S2P Require Import Protocol.
From S2P Require Import ProgramErrors.
From S2P Require Import Accounts.
From S2P Require Import IxsUser.
From S2P Require Import IxsAdmin.
From S2P Require Import Events.
From S2P Require Import Processor.
From S2P Require Import ProcessorAdmin.
From S2P Require Import Processor.
From S2P Require Import ProcessorAdmin.
From S2P Require Import ProcessorFacts.
From S2P Require Import Program.
From S2P Require Import ProgramFacts.
From S2P Require Import Ledger.
From S2P Require Import LedgerExample.

(** What the calls bring into a token account, less what they take out of it. *)
Definition flow_of (v : Pubkey) (c : Call) : Z :=
  match call c with
  | transfer s d _ n => (if decide (d = v) then n else 0) - (if decide (s = v) then n else 0)
  | _ => 0
  end.
Fixpoint flow (v : Pubkey) (cs : list Call) : Z :=
  match cs with [] => 0 | c :: cs => flow_of v c + flow v cs end.

Lemma flow_app v a b : flow v (a ++ b) = flow v a + flow v b.
Proof. induction a as [| c a IH]; [done |]. cbn [app flow]. lia. Qed.

Definition token_rule (owner : Pubkey -> Pubkey) (c : Call) : Prop :=
  match call c with transfer s _ a n => owner s = a /\ 0 <= n | _ => True end.
Definition token_rules (owner : Pubkey -> Pubkey) (cs : list Call) : Prop :=
  Forall (token_rule owner) cs.

Section Deltas.
Context {FX : FixedCrate} {FXL : FixedLaws FX}.
Implicit Types (m : Market).

Lemma sync_collateral ts m m' :
  Market.sync_clock ts m = (Ok tt, m') -> collateral_total m' = collateral_total m.
Proof. unfold Market.sync_clock. intros H. by run_inv. Qed.

Lemma redeem_protocol_collateral n m m' :
  Market.redeem_protocol_fees m = (Ok n, m') -> collateral_total m' = collateral_total m.
Proof. unfold Market.redeem_protocol_fees. intros H. by run_inv. Qed.

Lemma redeem_curator_collateral n m m' :
  redeem_curator_fess m = (Ok n, m') -> collateral_total m' = collateral_total m.
Proof. unfold redeem_curator_fess. intros H. by run_inv. Qed.

Lemma donate_collateral n m m' :
  donate_supply_atoms n m = (Ok tt, m') -> collateral_total m' = collateral_total m.
Proof. unfold donate_supply_atoms. intros H. by run_inv. Qed.

Lemma lend_collateral n m p m' p' :
  Market.lend n (m, p) = (Ok tt, (m', p')) -> collateral_total m' = collateral_total m.
Proof. intros H. unfold Market.lend in H. by market_inv. Qed.

Lemma withdraw_collateral_same n m p m' p' :
  Market.withdraw n (m, p) = (Ok tt, (m', p')) -> collateral_total m' = collateral_total m.
Proof. intros H. unfold Market.withdraw in H. by market_inv. Qed.

Lemma withdraw_all_collateral n m p m' p' :
  Market.withdraw_all (m, p) = (Ok n, (m', p')) -> collateral_total m' = collateral_total m.
Proof. intros H. unfold Market.withdraw_all in H. by market_inv. Qed.

Lemma borrow_collateral n so co m p m' p' :
  Market.borrow n so co (m, p) = (Ok tt, (m', p')) ->
  collateral_total m' = collateral_total m.
Proof. intros H. unfold Market.borrow in H. by market_inv. Qed.

Lemma repay_collateral n m p m' p' :
  Market.repay n (m, p) = (Ok tt, (m', p')) -> collateral_total m' = collateral_total m.
Proof. intros H. unfold Market.repay in H. by market_inv. Qed.

Lemma repay_all_collateral n m p m' p' :
  Market.repay_all (m, p) = (Ok n, (m', p')) -> collateral_total m' = collateral_total m.
Proof. intros H. unfold Market.repay_all in H. by market_inv. Qed.

Lemma deposit_delta n m p m' p' :
  Market.deposit_collateral n (m, p) = (Ok tt, (m', p')) ->
  collateral_total m' = collateral_total m + n.
Proof.
  intros H. unfold Market.deposit_collateral in H. market_inv.
  match goal with H : CollateralVault.deposit_collateral _ _ = _ |- _ =>
    by apply deposit_collateral_vault_ok in H as [-> _] end.
Qed.

Lemma withdraw_delta n co so m p m' p' :
  Market.withdraw_collateral n co so (m, p) = (Ok tt, (m', p')) ->
  collateral_total m' = collateral_total m - n.
Proof.
  intros H. unfold Market.withdraw_collateral in H. market_inv.
  match goal with H : CollateralVault.withdraw_collateral _ _ = _ |- _ =>
    by apply withdraw_collateral_vault_ok in H as [-> _] end.
Qed.

Lemma liquidate_delta co so n r m p m' p' :
  Market.liquidate co so n (m, p) = (Ok r, (m', p')) ->
  exists t, total_collateral_atoms_to_liquidate (liquidation_result_with_bonus r) = Ok t /\
            collateral_total m' = collateral_total m - t.
Proof.
  intros H. unfold Market.liquidate in H. market_inv. cbn. eexists. split; [eassumption |].
  match goal with H : CollateralVault.withdraw_collateral _ _ = _ |- _ =>
    by apply withdraw_collateral_vault_ok in H as [-> _] end.
Qed.

Lemma begin_sweep_delta co so r m p m' p' :
  Market.begin_capital_sweep co so (m, p) = (Ok r, (m', p')) ->
  collateral_total m' = collateral_total m - swept_collateral_atoms p'.
Proof.
  intros H. unfold Market.begin_capital_sweep, BorrowPosition.begin_capital_sweep in H.
  market_inv.
  match goal with H : CollateralVault.withdraw_collateral _ _ = _ |- _ =>
    by apply withdraw_collateral_vault_ok in H as [-> _] end.
Qed.

Lemma settle_sweep_delta co so n c r m p m' p' :
  Market.settle_capital_sweep co so n c (m, p) = (Ok r, (m', p')) ->
  collateral_total m' = collateral_total m + collateral_atoms_returned r.
Proof.
  intros H. unfold Market.settle_capital_sweep in H. market_inv. cbn.
  match goal with H : CollateralVault.deposit_collateral _ _ = _ |- _ =>
    by apply deposit_collateral_vault_ok in H as [-> _] end.
Qed.

Lemma socialize_delta co so n c m p m' p' :
  Market.socialize_loss co so (m, p) = (Ok (n, c), (m', p')) ->
  collateral_total m' = collateral_total m - c.
Proof.
  intros H. unfold Market.socialize_loss in H. market_inv.
  match goal with H : CollateralVault.withdraw_collateral _ _ = _ |- _ =>
    by apply withdraw_collateral_vault_ok in H as [-> _] end.
Qed.

End Deltas.

(** Rewrites the new total of the collateral in terms of the old one. *)
Ltac collateral_delta :=
  repeat match goal with
  | H : Market.sync_clock _ _ = (Ok _, _) |- _ => apply sync_collateral in H
  | H : Market.redeem_protocol_fees _ = (Ok _, _) |- _ => apply redeem_protocol_collateral in H
  | H : redeem_curator_fess _ = (Ok _, _) |- _ => apply redeem_curator_collateral in H
  | H : donate_supply_atoms _ _ = (Ok _, _) |- _ => apply donate_collateral in H
  | H : Market.lend _ _ = (Ok _, _) |- _ => apply lend_collateral in H
  | H : Market.withdraw _ _ = (Ok _, _) |- _ => apply withdraw_collateral_same in H
  | H : Market.withdraw_all _ = (Ok _, _) |- _ => apply withdraw_all_collateral in H
  | H : Market.borrow _ _ _ _ = (Ok _, _) |- _ => apply borrow_collateral in H
  | H : Market.repay _ _ = (Ok _, _) |- _ => apply repay_collateral in H
  | H : Market.repay_all _ = (Ok _, _) |- _ => apply repay_all_collateral in H
  | H : Market.deposit_collateral _ _ = (Ok _, _) |- _ => apply deposit_delta in H
  | H : Market.withdraw_collateral _ _ _ _ = (Ok _, _) |- _ => apply withdraw_delta in H
  | H : Market.liquidate _ _ _ _ = (Ok _, _) |- _ =>
      apply liquidate_delta in H as (? & ? & H)
  | H : Market.begin_capital_sweep _ _ _ = (Ok _, _) |- _ => apply begin_sweep_delta in H
  | H : Market.settle_capital_sweep _ _ _ _ _ = (Ok _, _) |- _ =>
      apply settle_sweep_delta in H
  | H : Market.socialize_loss _ _ _ = (Ok _, _) |- _ => apply socialize_delta in H
  | H1 : ?r = Ok ?a, H2 : ?r = Ok ?b |- _ =>
      assert (a = b) by congruence; subst b; clear H2
  end.

(** Reads the transfers of a trace. *)
Ltac flow_done :=
  unfold cx_market, cx_other in *;
  cbn [cx_state cx_calls app fst snd when_some token_rules] in *;
  unfold token_rules in *;
  repeat match goal with
  | H : Forall _ (_ :: _) |- _ => apply Forall_cons_iff in H as [? H]
  | H : Forall _ (_ ++ _) |- _ => apply Forall_app in H as [H ?]
  end;
  unfold token_rule in *; cbn [call] in *;
  rewrite ?flow_app; cbn [flow flow_of call]; unfold flow_of; cbn [call];
  repeat match goal with H : _ /\ _ |- _ => destruct H end;
  repeat case_decide; first [congruence | simplify_eq; congruence | lia | congruence].

Section Backing.
Context {FX : FixedCrate} {FXL : FixedLaws FX} {PC : PdaCrate} {BC : OracleBuild} {RT : Runtime}.
Context {CH : Chain} {AC : AccountCodec} {ME : Memory}.
Implicit Types (m : Market).

(** The write of a market by a handler on the market and a position. *)
Lemma written_pair (k : Pubkey) m' (km : Pubkey) d (kp : Pubkey) d' :
  (k, DMarket m') ∈ [(km, DMarket d); (kp, d')] -> (forall x, d' <> DMarket x) ->
  k = km /\ m' = d.
Proof. intros H Hd. set_solver. Qed.

Lemma written_one (k : Pubkey) m' (km : Pubkey) d : (k, DMarket m') ∈ [(km, DMarket d)] -> k = km /\ m' = d.
Proof. intros H. set_solver. Qed.

Lemma not_signer (Sg : Pubkey -> Prop) k a : ~ Sg k -> Sg a -> a <> k.
Proof. by intros Hk Ha ->. Qed.

(** One instruction on a market and a position. *)
Ltac flow_case shown_lemma h :=
  match goal with
  | Hp : _ ?l = (Ok _, _), Hl : Forall (shown ?W ?Sg) ?l |- _ =>
      apply (shown_lemma W Sg) in Hp as (Hp & ? & ?); [| exact Hl]
  end;
  repeat match goal with H : _ /\ _ |- _ => destruct H end;
  match goal with Hw : @elem_of (Pubkey * AccountData) _ _ _ _ |- _ =>
    first [apply written_pair in Hw as [-> ->]; [| done] | apply written_one in Hw as [-> ->]]
  end;
  repeat match goal with H : is_supply _ _ _ |- _ => destruct H as [H _ _]
                       | H : is_borrow _ _ _ |- _ => destruct H as [H _ _] end;
  unfold is_market in *; simplify_eq;
  repeat match goal with Hk : ~ ?Sg _, H : ?Sg ?a |- _ => apply (not_signer Sg _ a Hk) in H end;
  unfold h in *; handler_inv; collateral_delta; flow_done.

Lemma user_ix_flow W Sg l ix ts o k m m' owner :
  Forall (shown W Sg) l -> autara_process_instruction id l ix ts = Ok o ->
  match ix with
  | Ix.SupplyApl _ | Ix.WithdrawSupply _ | Ix.BorrowApl _ | Ix.DepositAplCollateral _
  | Ix.WithdrawAplCollateral _ | Ix.RepayApl _ | Ix.BorrowDepositApl _
  | Ix.WithdrawRepayApl _ => True
  | _ => False
  end ->
  W !! k = Some (DMarket m) -> (k, DMarket m') ∈ written o ->
  token_rules owner (calls o) ->
  owner (CollateralVault.vault (collateral_vault m)) = k ->
  SupplyVault.vault (supply_vault m) <> CollateralVault.vault (collateral_vault m) ->
  ~ Sg k ->
  collateral_total m' - collateral_total m
    <= flow (CollateralVault.vault (collateral_vault m)) (calls o).
Proof.
  intros Hl H Hix Hk Hw Hr Ho Hne Hsg. destruct ix; try done; ix_inv H.
  - flow_case supply_apl_shown @process_supply_apl.
  - flow_case withdraw_supply_shown @process_withdraw_supply.
  - flow_case borrow_apl_shown @process_borrow_apl.
  - flow_case deposit_apl_collateral_shown @process_deposit_apl_collateral.
  - flow_case withdraw_apl_collateral_shown @process_withdraw_apl_collateral.
  - flow_case repay_apl_shown @process_repay_apl.
  - flow_case borrow_deposit_apl_shown @process_borrow_deposit_apl.
  - flow_case withdraw_repay_apl_shown @process_withdraw_repay_apl.
Qed.

Lemma force_ix_flow W Sg l ix ts o k m m' owner :
  Forall (shown W Sg) l -> autara_process_instruction id l ix ts = Ok o ->
  match ix with
  | Ix.Liquidate _ | Ix.SocializeLoss | Ix.BeginCapitalSweep | Ix.SettleCapitalSweep _ => True
  | _ => False
  end ->
  W !! k = Some (DMarket m) -> (k, DMarket m') ∈ written o ->
  token_rules owner (calls o) ->
  owner (CollateralVault.vault (collateral_vault m)) = k ->
  SupplyVault.vault (supply_vault m) <> CollateralVault.vault (collateral_vault m) ->
  ~ Sg k ->
  collateral_total m' - collateral_total m
    <= flow (CollateralVault.vault (collateral_vault m)) (calls o).
Proof.
  intros Hl H Hix Hk Hw Hr Ho Hne Hsg. destruct ix; try done; ix_inv H.
  - flow_case liquidate_shown @process_liquidate.
  - flow_case socialize_loss_shown @process_socialize_loss.
  - flow_case begin_capital_sweep_shown @process_begin_capital_sweep.
  - flow_case settle_capital_sweep_shown @process_settle_capital_sweep.
Qed.

Lemma market_ix_flow W Sg l ix ts o k m m' owner :
  Forall (shown W Sg) l -> autara_process_instruction id l ix ts = Ok o ->
  match ix with
  | Ix.ReedeemCuratorFees | Ix.ReedeemProtocolFees | Ix.DonateSupply _ => True
  | _ => False
  end ->
  W !! k = Some (DMarket m) -> (k, DMarket m') ∈ written o ->
  token_rules owner (calls o) ->
  owner (CollateralVault.vault (collateral_vault m)) = k ->
  SupplyVault.vault (supply_vault m) <> CollateralVault.vault (collateral_vault m) ->
  ~ Sg k ->
  collateral_total m' - collateral_total m
    <= flow (CollateralVault.vault (collateral_vault m)) (calls o).
Proof.
  intros Hl H Hix Hk Hw Hr Ho Hne Hsg. destruct ix; try done; ix_inv H.
  - flow_case redeem_curator_fees_shown @process_redeem_curator_fees.
  - flow_case redeem_protocol_fees_shown @process_redeem_protocol_fees.
  - flow_case donate_supply_shown @process_donate_supply.
Qed.

(** The configuration of a market does not touch its collateral. *)
Lemma update_config_collateral d g ts m m' :
  update_config_market d g ts m = (Ok tt, m') -> collateral_total m' = collateral_total m.
Proof.
  intros H. unfold update_config_market in H.
  repeat match goal with
  | H : st_bind _ _ _ = _ |- _ => apply st_bind_ok in H as ([] & ? & ? & H)
  end.
  repeat match goal with
  | H : when_some _ _ _ = _ |- _ => apply when_some_ok in H as [[_ ->] | (? & _ & H)]
  end;
  unfold set_supply_oracle_config, set_collateral_oracle_config,
    CollateralVault.set_oracle_config in *; run_inv; by collateral_delta.
Qed.

Lemma config_ix_flow W Sg l ix ts o k m m' v :
  Forall (shown W Sg) l -> autara_process_instruction id l ix ts = Ok o ->
  match ix with
  | Ix.UpdateConfig _ | Ix.AddWhitelistedLiquidator _ | Ix.RemoveWhitelistedLiquidator _ =>
    True
  | _ => False
  end ->
  W !! k = Some (DMarket m) -> (k, DMarket m') ∈ written o ->
  collateral_total m' - collateral_total m <= flow v (calls o).
Proof.
  intros Hl H Hix Hk Hw. destruct ix; try done; ix_inv H.
  - apply (update_config_shown W Sg) in Hp as (Hp & _); [| done].
    apply written_one in Hw as [-> ->]. unfold is_market in Hp. simplify_eq.
    unfold process_update_config in Hh. handler_inv.
    match goal with H : update_config_market _ _ _ _ = _ |- _ =>
      apply update_config_collateral in H; cbn in *; lia end.
  - apply (add_whitelisted_shown W Sg) in Hp as (Hp & _); [| done].
    unfold process_add_whitelisted_liquidator in Hh. handler_inv;
      apply written_pair in Hw as [-> ->]; try done; unfold is_market in Hp; simplify_eq;
      unfold collateral_total; cbn; lia.
  - apply (remove_whitelisted_shown W Sg) in Hp as (Hp & _); [| done].
    unfold process_remove_whitelisted_liquidator in Hh. handler_inv.
    apply written_pair in Hw as [-> ->]; [| done]. unfold is_market in Hp. simplify_eq.
    unfold collateral_total. cbn. lia.
Qed.

(** Instructions that write no market that was there before. *)
Lemma create_ix_flow W l ix ts o k m m' :
  match ix with
  | Ix.CreateMarket _ | Ix.CreateSupplyPosition _ | Ix.CreateBorrowPosition _
  | Ix.CreateGlobalConfig _ | Ix.UpdateGlobalConfig _ | Ix.Log => True
  | _ => False
  end ->
  autara_process_instruction id l ix ts = Ok o -> fresh W (calls o) ->
  W !! k = Some (DMarket m) -> (k, DMarket m') ∉ written o.
Proof.
  intros Hix H Hf Hk Hw. destruct ix; try done; try ix_inv H.
  - unfold process_create_market in Hh. handler_inv. cbn [cx_state cx_calls] in *.
    apply written_one in Hw as [-> ->]. rewrite Hf in Hk; [done | solve_created].
  - unfold process_create_supply_position in Hh. handler_inv. set_solver.
  - unfold process_create_borrow_position in Hh. handler_inv. set_solver.
  - cbn [autara_process_instruction] in H. run_inv. set_solver.
  - unfold process_create_global_config in Hh. handler_inv. set_solver.
  - set_solver.
Qed.


(** C3: the collateral that a market accounts for is covered by tokens. Let an instruction
    succeed on accounts that show the ledger, without creating an account that is there. For a
    market whose supply and collateral vaults are different token accounts (a market that lends
    a token against itself has one account for both, and is not covered), whose collateral
    vault belongs to the market in the token program, and whose key has not signed the
    transaction, the transfers that the instruction makes bring at least as many tokens into
    the collateral vault as the accounted collateral of the market grows, and take out at most
    as many as it shrinks; so a vault that covers the collateral before the instruction covers
    it afterwards. Used of the token program: the authority of a transfer owns the source. *)
Theorem collateral_stays_backed W Sg l ix ts o k m m' owner :
  Forall (shown W Sg) l -> autara_process_instruction id l ix ts = Ok o ->
  fresh W (calls o) ->
  W !! k = Some (DMarket m) -> (k, DMarket m') ∈ written o ->
  token_rules owner (calls o) ->
  owner (CollateralVault.vault (collateral_vault m)) = k ->
  SupplyVault.vault (supply_vault m) <> CollateralVault.vault (collateral_vault m) ->
  ~ Sg k ->
  collateral_total m' - collateral_total m
    <= flow (CollateralVault.vault (collateral_vault m)) (calls o).
Proof.
  intros Hl H Hf Hk Hw Hr Ho Hne Hsg.
  destruct ix eqn:Eix; rewrite <- Eix in H;
    try (eapply user_ix_flow; [done | exact H | by subst | done..]);
    try (eapply force_ix_flow; [done | exact H | by subst | done..]);
    try (eapply market_ix_flow; [done | exact H | by subst | done..]);
    try (eapply config_ix_flow; [done | exact H | by subst | done..]);
    by destruct (create_ix_flow W l ix ts o k m m'); subst.
Qed.

End Backing.

(** ** Witness: the deposit of the example *)

#[local] Existing Instance fixed_ref.
#[local] Existing Instance fixed_ref_laws.
#[local] Existing Instance pda_ex.
#[local] Existing Instance borsh_ex.
#[local] Existing Instance chain_ex.
#[local] Existing Instance runtime_ex.
#[local] Existing Instance memory_ex.
#[local] Existing Instance codec_ex.

Definition token_owner_ex (k : Pubkey) : Pubkey :=
  if bool_decide (k = key_ex 7) then market_key else key_ex 21.

Lemma collateral_stays_backed_witness :
  exists m', (market_key, DMarket m') ∈ written (run_ex deposit_accounts deposit_ix) /\
    collateral_total m' - collateral_total market_1
      <= flow (key_ex 7) (calls (run_ex deposit_accounts deposit_ix)).
Proof.
  destruct (written (run_ex deposit_accounts deposit_ix)) as [| [k d] ws] eqn:E;
    [vm_compute in E; discriminate E |].
  assert (Ek : k = market_key) by (vm_compute in E; injection E as <- _ _; reflexivity).
  destruct d as [m' | | | |]; try (vm_compute in E; discriminate E).
  exists m'. subst k. split; [apply list_elem_of_here |].
  apply (collateral_stays_backed ledger_3 (signs [key_ex 21]) deposit_accounts deposit_ix 1000
    (run_ex deposit_accounts deposit_ix) market_key market_1 m' token_owner_ex).
  - apply deposit_shown.
  - apply deposit_run.
  - apply fresh_by. vm_compute. reflexivity.
  - vm_compute. reflexivity.
  - rewrite E. apply list_elem_of_here.
  - vm_compute. repeat constructor; congruence.
  - vm_compute. reflexivity.
  - vm_compute. discriminate.
  - unfold signs. rewrite list_elem_of_singleton. vm_compute. discriminate.
Defined.
