(* ===== verification/SupplyFlow.v ===== *)
(** * Token transfers and the claims on the supply

    The transfers that an instruction asks for, against the change of the net claim on the
    supply vault ([SupplyNet]): what lenders and fees own less what borrowers owe. *)
From stdpp Require Import gmap relations.
From S2P Require Import Prelude.
From S2P Require Import Errors.
From S2P Require Import Monad.
From S2P Require Import FixedPoint.
From S2P Require Import FixedFacts.
From S2P Require Import InterestRateCurve.
From S2P Require Import Pda.
From S2P Require Import OracleRate.
From S2P Require Import Oracle.
From S2P Require Import GlobalConfig.
From S2P Require Import LiquidatorWhitelist.
From S2P Require Import MarketConfig.
From S2P Require Import SupplyPosition.
From S2P Require Import BorrowPosition.
From S2P Require Import PositionFacts.
From S2P Require Import CollateralVault.
From S2P Require Import SupplyVault.
From S2P Require Import Liquidation.
From S2P Require Import Market.
From S2P Require Import MarketWrapper.
From S2P Require Import SharesTracker.
From S2P Require Import SupplyNet.
From S2P Require Import Creation.
From S2P Require Import Protocol.
From S2P Require Import ProgramErrors.
From S2P Require Import Accounts.
From S2P Require Import IxsUser.
From S2P Require Import IxsAdmin.
From S2P Require Import Events.
From S2P Require Import Processor.
From S2P Require Import ProcessorAdmin.
From S2P Require Import ProcessorFacts.
From S2P Require Import Program.
From S2P Require Import ProgramFacts.
From S2P Require Import Ledger.
From S2P Require Import LedgerExample.
From S2P Require Import LedgerProps.
From S2P Require Import TokenFlow.

(** The market that an instruction at the time [ts] works on: most bring it up to date. *)
Definition synced {FX : FixedCrate} (ts : Z) (m m1 : Market) : Prop :=
  m1 = m \/ Market.sync_clock ts m = (Ok tt, m1).

(** The tokens that come into the supply vault cover the growth of the net claim. *)
Definition covered {FX : FixedCrate} (ts : Z) (m m' : Market) (f : Z) : Prop :=
  exists m1, synced ts m m1 /\
    (debt_fits (supply_vault m1) ->
     net (supply_vault m') - net (supply_vault m1) <= f * ATOM + dust (supply_vault m1)).

Section Sequences.
Context {FX : FixedCrate} {FXL : FixedLaws FX}.
Implicit Types (m : Market).

Lemma grows_covers n f m m' :
  market_grows n m m' -> n <= f ->
  net (supply_vault m') - net (supply_vault m) <= f * ATOM + dust (supply_vault m).
Proof.
  unfold market_grows, grows_by. intros H Hn. pose proof ATOM_pos.
  assert (n * ATOM <= f * ATOM) by (apply Z.mul_le_mono_nonneg_r; lia). lia.
Qed.

Lemma unchanged_grows m m' :
  market_ok m -> supply_vault m' = supply_vault m -> market_grows 0 m m'.
Proof. intros [Hv _] E. unfold market_grows. rewrite E. by apply grows_refl. Qed.

Lemma deposit_grows n m p m' p' :
  market_ok m -> Market.deposit_collateral n (m, p) = (Ok tt, (m', p')) ->
  market_grows 0 m m'.
Proof.
  intros Hm H. apply unchanged_grows; [done |]. unfold Market.deposit_collateral in H.
  by market_inv.
Qed.

Lemma withdraw_collateral_grows n co so m p m' p' :
  market_ok m -> Market.withdraw_collateral n co so (m, p) = (Ok tt, (m', p')) ->
  market_grows 0 m m'.
Proof.
  intros Hm H. apply unchanged_grows; [done |]. unfold Market.withdraw_collateral in H.
  by market_inv.
Qed.

Lemma begin_sweep_grows co so h m p m' p' :
  market_ok m -> Market.begin_capital_sweep co so (m, p) = (Ok h, (m', p')) ->
  market_grows 0 m m'.
Proof.
  intros Hm H. apply unchanged_grows; [done |]. unfold Market.begin_capital_sweep in H.
  by market_inv.
Qed.

(** A deposit of collateral and a loan in one instruction. *)
Lemma deposit_borrow_grows n k so co m p m1 p1 m' p' :
  market_ok m -> borrower_ok p -> 0 <= k ->
  Market.deposit_collateral n (m, p) = (Ok tt, (m1, p1)) ->
  Market.borrow k so co (m1, p1) = (Ok tt, (m', p')) -> market_grows (- k) m m'.
Proof.
  intros Hm Hp Hk H1 H2. pose proof (deposit_collateral_effect _ _ _ _ _ Hm Hp H1) as [Hm1].
  apply market_borrow_grows in H2; [| done..]. unfold Market.deposit_collateral in H1.
  by market_inv.
Qed.

(** A repayment and a withdrawal of collateral in one instruction. *)
Lemma then_withdraw_grows f n co so m m1 p1 m' p' :
  market_grows f m m1 -> Market.withdraw_collateral n co so (m1, p1) = (Ok tt, (m', p')) ->
  market_grows f m m'.
Proof. intros Hg H. unfold Market.withdraw_collateral in H. by market_inv. Qed.

End Sequences.

Section Backing.
Context {FX : FixedCrate} {FXL : FixedLaws FX} {PC : PdaCrate} {BC : OracleBuild} {RT : Runtime}.
Context {CH : Chain} {AC : AccountCodec} {ME : Memory} {RL : RuntimeLaws}.

Lemma supply_in_ledger W m p :
  ledger_ok W -> is_supply W m p -> market_ok (value m) /\ supply_position_ok (value p).
Proof.
  intros Hok [Hkm Hkp Hof].
  destruct (reachable_accounted _ (lo_markets _ Hok _ _ Hkm)) as [Hma Hsu _ _ _ _].
  split; [exact Hma |]. apply (Hsu (key p)). unfold view. cbn.
  rewrite lookup_omap, Hkp. by apply sel_supply_some.
Qed.

Lemma borrow_in_ledger W m p :
  ledger_ok W -> is_borrow W m p -> market_ok (value m) /\ borrower_ok (value p).
Proof.
  intros Hok [Hkm Hkp Hof].
  destruct (reachable_accounted _ (lo_markets _ Hok _ _ Hkm)) as [Hma _ Hbo _ _ _].
  split; [exact Hma |]. apply (Hbo (key p)). unfold view. cbn.
  rewrite lookup_omap, Hkp. by apply sel_borrow_some.
Qed.

(** Takes the market after its synchronisation as the one that the operation works on. *)
Ltac take_synced :=
  match goal with
  | H : Market.sync_clock ?ts ?m = (Ok tt, ?m1) |- covered ?ts _ _ _ =>
      exists m1; split; [by right |];
      let Hfit := fresh "Hfit" in intros Hfit;
      apply sync_clock_effect in H as [[H _ _ _] _]; [| assumption]
  end.

(** The growth that the operation of the handler allows. *)
Ltac grown :=
  first
  [ eapply grows_covers; [eapply deposit_borrow_grows; eassumption |]
  | eapply grows_covers;
      [eapply then_withdraw_grows; [eapply market_repay_grows; eassumption | eassumption] |]
  | eapply grows_covers;
      [eapply then_withdraw_grows; [eapply market_repay_all_grows; eassumption | eassumption] |]
  | eapply grows_covers;
      [ first [ eapply market_lend_grows; eassumption | eapply market_withdraw_grows; eassumption
              | eapply market_withdraw_all_grows; eassumption
              | eapply market_borrow_grows; eassumption | eapply market_repay_grows; eassumption
              | eapply market_repay_all_grows; eassumption
              | eapply deposit_grows; eassumption
              | eapply withdraw_collateral_grows; eassumption
              | eapply begin_sweep_grows; eassumption
              | eapply market_liquidate_grows; eassumption
              | eapply market_settle_grows; eassumption
              | eapply market_loss_grows; eassumption
              | eapply redeem_protocol_grows; eassumption
              | eapply redeem_curator_grows; eassumption
              | eapply donate_market_grows; eassumption ] |] ].

(** One instruction on a market and a position. *)
Ltac net_case shown_lemma h :=
  match goal with
  | Hp : _ ?l = (Ok _, _), Hl : Forall (shown ?W ?Sg) ?l |- _ =>
      apply (shown_lemma W Sg) in Hp as (Hp & ? & ?); [| exact Hl]
  end;
  repeat match goal with H : _ /\ _ |- _ => destruct H end;
  match goal with Hw : @elem_of (Pubkey * AccountData) _ _ _ _ |- _ =>
    first [apply written_pair in Hw as [-> ->]; [| done] | apply written_one in Hw as [-> ->]]
  end;
  match goal with
  | Hok : ledger_ok ?W, H : is_supply ?W _ _ |- _ =>
      destruct (supply_in_ledger _ _ _ Hok H); destruct H as [H _ _]
  | Hok : ledger_ok ?W, H : is_borrow ?W _ _ |- _ =>
      destruct (borrow_in_ledger _ _ _ Hok H); destruct H as [H _ _]
  | Hok : ledger_ok ?W, H : is_market ?W _ |- _ => pose proof (market_in_ledger _ _ Hok H)
  end;
  unfold is_market in *; simplify_eq;
  match goal with Hl : Forall (shown _ ?Sg) _ |- _ =>
    repeat match goal with Hk : ~ Sg _, H : Sg ?a |- _ => apply (not_signer Sg _ a Hk) in H end
  end;
  unfold h in *; handler_inv; cbn [ix_args] in *; take_synced; grown; flow_done.

Lemma user_ix_net W Sg l ix ts o k m m' owner :
  ledger_ok W -> Forall (shown W Sg) l -> ix_args ix ->
  autara_process_instruction id l ix ts = Ok o ->
  match ix with
  | Ix.SupplyApl _ | Ix.WithdrawSupply _ | Ix.BorrowApl _ | Ix.DepositAplCollateral _
  | Ix.WithdrawAplCollateral _ | Ix.RepayApl _ | Ix.BorrowDepositApl _
  | Ix.WithdrawRepayApl _ => True
  | _ => False
  end ->
  W !! k = Some (DMarket m) -> (k, DMarket m') ∈ written o ->
  token_rules owner (calls o) ->
  owner (SupplyVault.vault (supply_vault m)) = k ->
  SupplyVault.vault (supply_vault m) <> CollateralVault.vault (collateral_vault m) ->
  ~ Sg k ->
  covered ts m m' (flow (SupplyVault.vault (supply_vault m)) (calls o)).
Proof.
  intros Hok Hl Ha H Hix Hk Hw Hr Ho Hne Hsg. destruct ix; try done; ix_inv H.
  - net_case supply_apl_shown @process_supply_apl.
  - net_case withdraw_supply_shown @process_withdraw_supply.
  - net_case borrow_apl_shown @process_borrow_apl.
  - net_case deposit_apl_collateral_shown @process_deposit_apl_collateral.
  - net_case withdraw_apl_collateral_shown @process_withdraw_apl_collateral.
  - net_case repay_apl_shown @process_repay_apl.
  - net_case borrow_deposit_apl_shown @process_borrow_deposit_apl.
  - net_case withdraw_repay_apl_shown @process_withdraw_repay_apl.
Qed.

Lemma force_ix_net W Sg l ix ts o k m m' owner :
  ledger_ok W -> Forall (shown W Sg) l -> ix_args ix ->
  autara_process_instruction id l ix ts = Ok o ->
  match ix with
  | Ix.Liquidate _ | Ix.SocializeLoss | Ix.BeginCapitalSweep | Ix.SettleCapitalSweep _ => True
  | _ => False
  end ->
  W !! k = Some (DMarket m) -> (k, DMarket m') ∈ written o ->
  token_rules owner (calls o) ->
  owner (SupplyVault.vault (supply_vault m)) = k ->
  SupplyVault.vault (supply_vault m) <> CollateralVault.vault (collateral_vault m) ->
  ~ Sg k ->
  covered ts m m' (flow (SupplyVault.vault (supply_vault m)) (calls o)).
Proof.
  intros Hok Hl Ha H Hix Hk Hw Hr Ho Hne Hsg. destruct ix; try done; ix_inv H.
  - net_case liquidate_shown @process_liquidate.
  - net_case socialize_loss_shown @process_socialize_loss.
  - net_case begin_capital_sweep_shown @process_begin_capital_sweep.
  - net_case settle_capital_sweep_shown @process_settle_capital_sweep.
Qed.

Lemma market_ix_net W Sg l ix ts o k m m' owner :
  ledger_ok W -> Forall (shown W Sg) l -> ix_args ix ->
  autara_process_instruction id l ix ts = Ok o ->
  match ix with
  | Ix.ReedeemCuratorFees | Ix.ReedeemProtocolFees | Ix.DonateSupply _ => True
  | _ => False
  end ->
  W !! k = Some (DMarket m) -> (k, DMarket m') ∈ written o ->
  token_rules owner (calls o) ->
  owner (SupplyVault.vault (supply_vault m)) = k ->
  SupplyVault.vault (supply_vault m) <> CollateralVault.vault (collateral_vault m) ->
  ~ Sg k ->
  covered ts m m' (flow (SupplyVault.vault (supply_vault m)) (calls o)).
Proof.
  intros Hok Hl Ha H Hix Hk Hw Hr Ho Hne Hsg. destruct ix; try done; ix_inv H.
  - net_case redeem_curator_fees_shown @process_redeem_curator_fees.
  - net_case redeem_protocol_fees_shown @process_redeem_protocol_fees.
  - net_case donate_supply_shown @process_donate_supply.
Qed.

(** An instruction that leaves the shares alone, apart from the interest, and moves nothing. *)
Lemma unmoved_covered ts (m m1 m' : Market) f :
  market_ok m1 -> synced ts m m1 -> f = 0 ->
  supply_shares_tracker (supply_vault m') = supply_shares_tracker (supply_vault m1) ->
  borrow_shares_tracker (supply_vault m') = borrow_shares_tracker (supply_vault m1) ->
  covered ts m m' f.
Proof.
  intros Hm Hs -> Es Eb. exists m1. split; [done |]. intros _. unfold net. rewrite Es, Eb.
  destruct (dust_parts (supply_vault m1) (proj1 Hm)) as (? & ? & ?). unfold dust. lia.
Qed.

Lemma config_ix_net W Sg l ix ts o k m m' v :
  ledger_ok W -> Forall (shown W Sg) l -> autara_process_instruction id l ix ts = Ok o ->
  match ix with
  | Ix.UpdateConfig _ | Ix.AddWhitelistedLiquidator _ | Ix.RemoveWhitelistedLiquidator _ =>
    True
  | _ => False
  end ->
  W !! k = Some (DMarket m) -> (k, DMarket m') ∈ written o ->
  covered ts m m' (flow v (calls o)).
Proof.
  intros Hok Hl H Hix Hk Hw. destruct ix; try done; ix_inv H.
  - apply (update_config_shown W Sg) in Hp as (Hp & _); [| done].
    pose proof (market_in_ledger _ _ Hok Hp) as Hm.
    apply written_one in Hw as [-> ->]. unfold is_market in Hp. simplify_eq.
    unfold process_update_config in Hh. handler_inv.
    match goal with H : update_config_market _ _ _ _ = _ |- _ =>
      apply update_config_effect in H as (m1 & c & Hs & Ev & _) end.
    destruct (sync_clock_effect _ _ _ Hm Hs) as [[Hm1 _ _ _] _].
    eapply unmoved_covered; [exact Hm1 | by right | done | |]; cbn in *; by rewrite Ev.
  - apply (add_whitelisted_shown W Sg) in Hp as (Hp & _); [| done].
    pose proof (market_in_ledger _ _ Hok Hp) as Hm.
    unfold process_add_whitelisted_liquidator in Hh. handler_inv;
      apply written_pair in Hw as [-> ->]; try done; unfold is_market in Hp; simplify_eq;
      (eapply unmoved_covered; [exact Hm | by left | done | done | done]).
  - apply (remove_whitelisted_shown W Sg) in Hp as (Hp & _); [| done].
    pose proof (market_in_ledger _ _ Hok Hp) as Hm.
    unfold process_remove_whitelisted_liquidator in Hh. handler_inv.
    apply written_pair in Hw as [-> ->]; [| done]. unfold is_market in Hp. simplify_eq.
    eapply unmoved_covered; [exact Hm | by left | done | done | done].
Qed.

(** C4: the claims on the supply are covered by tokens. Let an instruction with arguments of
    their types succeed on accounts that show a reachable ledger, without creating an account
    that is there. For a market whose supply and collateral vaults are different token
    accounts, whose supply vault belongs to the market in the token program, whose key has not
    signed the transaction, and whose debts after the accrual of interest fit [u64], the claims
    of lenders and fees less the debts of borrowers grow after the accrual of interest by at
    most the tokens that the instruction brings into the supply vault, and shrink by at least
    those that it takes out, up to the dust of one rounding; in particular a debt that is
    repaid, liquidated or settled is paid in full, and one that is written off is borne by the
    lenders. Used of the token program: the authority of a transfer owns the source. *)
Theorem supply_stays_backed W Sg l ix ts o k m m' owner :
  ledger_reachable W -> Forall (shown W Sg) l -> ix_args ix ->
  autara_process_instruction id l ix ts = Ok o -> fresh W (calls o) ->
  W !! k = Some (DMarket m) -> (k, DMarket m') ∈ written o ->
  token_rules owner (calls o) ->
  owner (SupplyVault.vault (supply_vault m)) = k ->
  SupplyVault.vault (supply_vault m) <> CollateralVault.vault (collateral_vault m) ->
  ~ Sg k ->
  exists m1, synced ts m m1 /\
    (debt_fits (supply_vault m1) ->
     net (supply_vault m') - net (supply_vault m1)
       <= flow (SupplyVault.vault (supply_vault m)) (calls o) * ATOM + dust (supply_vault m1)).
Proof.
  intros Hr0 Hl Ha H Hf Hk Hw Hr Ho Hne Hsg. apply ledger_reachable_ok in Hr0 as Hok.
  change (covered ts m m' (flow (SupplyVault.vault (supply_vault m)) (calls o))).
  destruct ix eqn:Eix; rewrite <- Eix in H, Ha;
    try (eapply user_ix_net; [done | done | exact Ha | exact H | by subst | done..]);
    try (eapply force_ix_net; [done | done | exact Ha | exact H | by subst | done..]);
    try (eapply market_ix_net; [done | done | exact Ha | exact H | by subst | done..]);
    try (eapply config_ix_net; [done | done | exact H | by subst | done..]);
    by destruct (create_ix_flow W l ix ts o k m m'); subst.
Qed.

End Backing.

(** ** Witness: the deposit of the example *)

#[local] Existing Instance fixed_ref.
#[local] Existing Instance fixed_ref_laws.
#[local] Existing Instance pda_ex.
#[local] Existing Instance borsh_ex.
#[local] Existing Instance chain_ex.
#[local] Existing Instance runtime_ex.
#[local] Existing Instance memory_ex.
#[local] Existing Instance codec_ex.
#[local] Existing Instance runtime_laws_ex.

Definition vault_owner_ex (k : Pubkey) : Pubkey :=
  if bool_decide (k = key_ex 5) || bool_decide (k = key_ex 7) then market_key else key_ex 21.

Lemma supply_stays_backed_witness :
  exists m' m1, (market_key, DMarket m') ∈ written (run_ex deposit_accounts deposit_ix) /\
    synced 1000 market_1 m1 /\
    (debt_fits (supply_vault m1) ->
     net (supply_vault m') - net (supply_vault m1)
       <= flow (key_ex 5) (calls (run_ex deposit_accounts deposit_ix)) * ATOM
          + dust (supply_vault m1)).
Proof.
  destruct (written (run_ex deposit_accounts deposit_ix)) as [| [k d] ws] eqn:E;
    [vm_compute in E; discriminate E |].
  assert (Ek : k = market_key) by (vm_compute in E; injection E as <- _ _; reflexivity).
  destruct d as [m' | | | |]; try (vm_compute in E; discriminate E). subst k.
  destruct (supply_stays_backed ledger_3 (signs [key_ex 21]) deposit_accounts deposit_ix 1000
    (run_ex deposit_accounts deposit_ix) market_key market_1 m' vault_owner_ex) as (m1 & Hs & H).
  - apply ledger_3_reachable.
  - apply deposit_shown.
  - vm_compute. trivial.
  - apply deposit_run.
  - apply fresh_by. vm_compute. reflexivity.
  - vm_compute. reflexivity.
  - rewrite E. apply list_elem_of_here.
  - vm_compute. repeat constructor; congruence.
  - vm_compute. reflexivity.
  - vm_compute. discriminate.
  - unfold signs. rewrite list_elem_of_singleton. vm_compute. discriminate.
  - exists m', m1. split; [apply list_elem_of_here |]. split; [exact Hs | exact H].
Defined.
