(* ===== verification/Whitelist.v ===== *)
(** * The whitelist of liquidators across the ledger

    A market counts its active whitelist entries; liquidations are open to everyone while
    the count is zero.  On every reachable ledger the count of a market is the number of
    active entries of that market. *)
From stdpp Require Import gmap relations.
From S2P Require Import Prelude.
From S2P Require Import Errors.
From S2P Require Import Monad.
From S2P Require Import FixedPoint.
From S2P Require Import FixedFacts.
From S2P Require Import InterestRateCurve.
From S2P Require Import Pda.
From S2P Require Import OracleRate.
From S2P Require Import Oracle.
From S2P Require Import GlobalConfig.
From S2P Require Import LiquidatorWhitelist.
From S2P Require Import MarketConfig.
From S2P Require Import SupplyPosition.
From S2P Require Import BorrowPosition.
From S2P Require Import PositionFacts.
From S2P Require Import CollateralVault.
From S2P Require Import SupplyVault.
From S2P Require Import Liquidation.
From S2P Require Import Market.
From S2P Require Import MarketWrapper.
From S2P Require Import Creation.
From S2P Require Import Protocol.
From S2P Require Import ProgramErrors.
From S2P Require Import Accounts.
From S2P Require Import IxsUser.
From S2P Require Import IxsAdmin.
From S2P Require Import Events.
From S2P Require Import Processor.
From S2P Require Import ProcessorAdmin.
From S2P Require Import Processor.
From S2P Require Import ProcessorAdmin.
From S2P Require Import ProcessorFacts.
From S2P Require Import Program.
From S2P Require Import ProgramFacts.
From S2P Require Import Ledger.
From S2P Require Import LedgerExample.
From S2P Require Import LedgerProps.
From S2P Require Import TokenFlow.

Definition counter (m : Market) : Z := active_whitelisted_liquidators (config m).

Definition sel_active (k : Pubkey) (d : AccountData) : option LiquidatorWhitelistEntry :=
  match d with
  | DWhitelistEntry e =>
    if decide (LiquidatorWhitelist.market e = k /\ is_active e = true) then Some e else None
  | _ => None
  end.

(** The active entries of a market. *)
Definition active_entries (k : Pubkey) (W : World) : gmap Pubkey LiquidatorWhitelistEntry :=
  omap (sel_active k) W.

Record whitelist_ok (W : World) : Prop := {
  wl_count k m : W !! k = Some (DMarket m) ->
    counter m = Z.of_nat (size (active_entries k W));
  wl_market k e : W !! k = Some (DWhitelistEntry e) ->
    holds_market W (LiquidatorWhitelist.market e) }.

Lemma whitelist_empty : whitelist_ok ∅.
Proof. split; intros ? ?; rewrite lookup_empty; discriminate. Qed.

Lemma sel_active_some k e :
  LiquidatorWhitelist.market e = k -> is_active e = true ->
  sel_active k (DWhitelistEntry e) = Some e.
Proof. intros. cbn. by rewrite decide_True. Qed.

Lemma sel_active_none k e :
  LiquidatorWhitelist.market e <> k \/ is_active e = false ->
  sel_active k (DWhitelistEntry e) = None.
Proof. intros H. cbn. rewrite decide_False; [done |]. intros [? ?]. destruct H; congruence. Qed.

(** ** Writes *)

(** A write outside markets and entries. *)
Lemma whitelist_write_other W j d :
  whitelist_ok W -> (forall m, d <> DMarket m) -> (forall e, d <> DWhitelistEntry e) ->
  (forall m, W !! j <> Some (DMarket m)) -> (forall e, W !! j <> Some (DWhitelistEntry e)) ->
  whitelist_ok (<[j := d]> W).
Proof.
  intros [Hc Hm] Hd1 Hd2 Hj1 Hj2.
  split; intros k x Hx; apply lookup_insert_Some in Hx as [[-> Hx] | [Hne Hx]];
    try (by destruct (Hd1 x)); try (by destruct (Hd2 x)).
  - unfold active_entries. rewrite omap_unseen; [by apply Hc | |].
    + destruct d; cbn; try done. by destruct (Hd2 e).
    + destruct (W !! j) as [[] |] eqn:E; cbn; try done. by destruct (Hj2 e).
  - apply holds_market_write; [right; intros [m Hk]; by destruct (Hj1 m) | by eapply Hm].
Qed.

Lemma whitelist_write_market W k m m' :
  whitelist_ok W -> W !! k = Some (DMarket m) -> counter m' = counter m ->
  whitelist_ok (<[k := DMarket m']> W).
Proof.
  intros [Hc Hm] Hk E.
  split; intros j x Hx; apply lookup_insert_Some in Hx as [[-> Hx] | [Hne Hx]]; simplify_eq.
  - unfold active_entries. rewrite omap_unseen by (done || by rewrite Hk).
    rewrite E. by apply Hc.
  - unfold active_entries. rewrite omap_unseen by (done || by rewrite Hk). by apply Hc.
  - apply holds_market_write; [left; apply holds_market_new | by eapply Hm].
Qed.

Lemma whitelist_create_market W k m :
  whitelist_ok W -> W !! k = None -> counter m = 0 -> whitelist_ok (<[k := DMarket m]> W).
Proof.
  intros [Hc Hm] Hk E.
  split; intros j x Hx; apply lookup_insert_Some in Hx as [[-> Hx] | [Hne Hx]]; simplify_eq.
  - unfold active_entries. rewrite omap_unseen by (done || by rewrite Hk).
    rewrite E. enough (omap (sel_active j) W = ∅) as -> by by rewrite map_size_empty.
    apply map_empty. intros i. rewrite lookup_omap.
    destruct (W !! i) as [[| | | | e] |] eqn:Ei; cbn; try done.
    case_decide as D; [| done]. destruct D as [D _], (Hm i e Ei) as [y Hy]. congruence.
  - unfold active_entries. rewrite omap_unseen by (done || by rewrite Hk). by apply Hc.
  - apply holds_market_write; [left; apply holds_market_new | by eapply Hm].
Qed.

(** An entry of the market [k] is written together with the market. *)
Lemma whitelist_write_entry W k m m' j e' :
  whitelist_ok W -> W !! k = Some (DMarket m) ->
  (forall x, W !! j = Some x -> exists e, x = DWhitelistEntry e /\
                                          LiquidatorWhitelist.market e = k) ->
  LiquidatorWhitelist.market e' = k ->
  counter m' = Z.of_nat (size (active_entries k (<[j := DWhitelistEntry e']> W))) ->
  whitelist_ok (<[j := DWhitelistEntry e']> (<[k := DMarket m']> W)).
Proof.
  intros [Hc Hm] Hk Hj He' E.
  assert (Hjk : j <> k) by (intros ->; destruct (Hj _ Hk) as (e & ? & _); congruence).
  assert (Hmkts : forall i, holds_market W i ->
    holds_market (<[j := DWhitelistEntry e']> (<[k := DMarket m']> W)) i).
  { intros i Hi. apply holds_market_write.
    - right. intros [x Hx]. rewrite lookup_insert_ne in Hx by done.
      destruct (Hj _ Hx) as (e & ? & _). congruence.
    - apply holds_market_write; [left; apply holds_market_new | done]. }
  split; intros i x Hx; apply lookup_insert_Some in Hx as [[Ei Hx] | [Hne Hx]];
    try discriminate Hx;
    try (apply lookup_insert_Some in Hx as [[Ei' Hx] | [Hne' Hx]]; try discriminate Hx).
  - injection Hx as <-. subst i. rewrite insert_insert_ne by done.
    unfold active_entries in *. rewrite (omap_unseen _ _ _ (DMarket m')); [exact E | done |].
    rewrite lookup_insert_ne by done. by rewrite Hk.
  - unfold active_entries. rewrite omap_unseen; [| apply sel_active_none; left; congruence |].
    + rewrite omap_unseen by (done || by rewrite Hk). by apply Hc.
    + rewrite lookup_insert_ne by done. destruct (W !! j) as [y |] eqn:Ey; [| done].
      destruct (Hj _ eq_refl) as (e & -> & He). apply sel_active_none. left. congruence.
  - injection Hx as <-. apply Hmkts. rewrite He'. by exists m.
  - apply Hmkts. by eapply Hm.
Qed.

Section Instructions.
Context {FX : FixedCrate} {FXL : FixedLaws FX} {PC : PdaCrate} {BC : OracleBuild} {RT : Runtime}.
Context {CH : Chain} {AC : AccountCodec} {ME : Memory} {RL : RuntimeLaws}.
Implicit Types (W : World).

(** ** Instructions that leave the whitelist alone *)

Lemma whitelist_supply W m p s' :
  ledger_ok W -> whitelist_ok W -> is_supply W m p ->
  rtc (move supply_args run_supply) (value m, value p) s' ->
  whitelist_ok (apply_writes (write_supply m p s') W).
Proof.
  intros Hok Hwl [Hkm Hkp Hof] Hmv. unfold is_market in Hkm.
  assert (Hsel : omap (sel_supply (key m)) W !! key p = Some (value p)).
  { rewrite lookup_omap, Hkp. by apply sel_supply_some. }
  destruct (reachable_accounted _ (lo_markets _ Hok _ _ Hkm)) as [Hma Hsu _ _ _ _].
  destruct (supply_moves_owner (_, _) _ Hma (Hsu _ _ Hsel) Hmv) as (_ & _ & Hcf).
  assert (key p <> key m) by (intros E; rewrite E in Hkp; congruence).
  apply whitelist_write_other; try done; try (rewrite lookup_insert_ne, Hkp by done; done).
  eapply whitelist_write_market; [done | done |]. unfold counter. by rewrite Hcf.
Qed.

Lemma whitelist_borrow W m p s' :
  ledger_ok W -> whitelist_ok W -> is_borrow W m p ->
  rtc (move borrow_args run_borrow) (value m, value p) s' ->
  whitelist_ok (apply_writes (write_borrow m p s') W).
Proof.
  intros Hok Hwl [Hkm Hkp Hof] Hmv. unfold is_market in Hkm.
  assert (Hsel : omap (sel_borrow (key m)) W !! key p = Some (value p)).
  { rewrite lookup_omap, Hkp. by apply sel_borrow_some. }
  destruct (reachable_accounted _ (lo_markets _ Hok _ _ Hkm)) as [Hma _ Hbo _ _ _].
  destruct (borrow_moves_owner (_, _) _ Hma (Hbo _ _ Hsel) Hmv) as (_ & _ & Hcf).
  assert (key p <> key m) by (intros E; rewrite E in Hkp; congruence).
  apply whitelist_write_other; try done; try (rewrite lookup_insert_ne, Hkp by done; done).
  eapply whitelist_write_market; [done | done |]. unfold counter. by rewrite Hcf.
Qed.

Lemma update_config_counter d g ts m m' :
  update_config_market d g ts m = (Ok tt, m') -> counter m' = counter m.
Proof.
  intros H. unfold update_config_market in H.
  repeat match goal with
  | H : st_bind _ _ _ = _ |- _ => apply st_bind_ok in H as ([] & ? & ? & H)
  end.
  match goal with H : Market.sync_clock _ _ = _ |- _ => apply sync_clock_config in H end.
  repeat match goal with
  | H : when_some _ _ _ = _ |- _ => apply when_some_ok in H as [[_ ->] | (? & _ & H)]
  end;
  unfold set_supply_oracle_config, set_collateral_oracle_config, update_max_supply_atoms,
    set_lending_market_fee, sync_global_config in *; run_inv;
  repeat match goal with
  | H : update_ltv _ _ = _ |- _ => apply update_ltv_ok in H as (_ & -> & _)
  | H : update_max_utilisation_rate _ _ = _ |- _ =>
      apply update_max_utilisation_ok in H as [-> _]
  end; unfold counter in *; cbn in *; congruence.
Qed.

Lemma whitelist_market_ix W Sg l ix ts o :
  whitelist_ok W -> Forall (shown W Sg) l ->
  match ix with
  | Ix.UpdateConfig _ | Ix.ReedeemCuratorFees | Ix.ReedeemProtocolFees | Ix.DonateSupply _ =>
    True
  | _ => False
  end ->
  autara_process_instruction id l ix ts = Ok o -> whitelist_ok (apply_writes (written o) W).
Proof.
  intros Hwl Hl Hix H. destruct ix; try done; ix_inv H.
  - apply (update_config_shown W Sg) in Hp as (Hp & _); [| done].
    unfold process_update_config in Hh. handler_inv.
    eapply whitelist_write_market; [done | exact Hp |]. by eapply update_config_counter.
  - apply (redeem_curator_fees_shown W Sg) in Hp as (Hp & _); [| done].
    unfold process_redeem_curator_fees, redeem_curator_fess in Hh. handler_inv.
    apply sync_clock_config in H. eapply whitelist_write_market; [done | exact Hp |].
    unfold counter. cbn. congruence.
  - apply (redeem_protocol_fees_shown W Sg) in Hp as (Hp & _); [| done].
    unfold process_redeem_protocol_fees, Market.redeem_protocol_fees in Hh. handler_inv.
    apply sync_clock_config in H. eapply whitelist_write_market; [done | exact Hp |].
    unfold counter. cbn. congruence.
  - apply (donate_supply_shown W Sg) in Hp as (Hp & _); [| done].
    unfold process_donate_supply, donate_supply_atoms in Hh. handler_inv.
    apply sync_clock_config in H. eapply whitelist_write_market; [done | exact Hp |].
    unfold counter. cbn. congruence.
Qed.

Lemma initialize_market_counter a d ts m :
  initialize_market a d ts zero_market = (Ok tt, m) -> counter m = 0.
Proof.
  intros H. unfold initialize_market, MarketConfig.initialize, set_lending_market_fee,
    sync_global_config, initlize_supply_vault, initialize_collateral_vault in H. run_inv.
  repeat match goal with
  | H : update_ltv _ _ = _ |- _ => apply update_ltv_ok in H as (_ & -> & _)
  | H : update_max_utilisation_rate _ _ = _ |- _ =>
      apply update_max_utilisation_ok in H as [-> _]
  end. done.
Qed.

Lemma whitelist_create_ix W Sg l ix ts o :
  whitelist_ok W -> Forall (shown W Sg) l ->
  match ix with
  | Ix.CreateMarket _ | Ix.CreateSupplyPosition _ | Ix.CreateBorrowPosition _
  | Ix.CreateGlobalConfig _ | Ix.UpdateGlobalConfig _ => True
  | _ => False
  end ->
  autara_process_instruction id l ix ts = Ok o -> fresh W (calls o) ->
  whitelist_ok (apply_writes (written o) W).
Proof.
  intros Hwl Hl Hix H Hf. destruct ix; try done; ix_inv H.
  - unfold process_create_market in Hh. handler_inv. cbn [cx_state cx_calls] in *.
    match goal with H : market_of_bytes _ = Some t |- _ =>
      apply created_market in H; [subst t | solve_created] end.
    apply whitelist_create_market; [done | apply Hf; solve_created |].
    by eapply initialize_market_counter.
  - unfold process_create_supply_position in Hh. handler_inv. cbn [cx_state cx_calls] in *.
    assert (E : W !! ai_key (CreateSupplyPosition.supply_position a) = None)
      by (apply Hf; solve_created).
    apply whitelist_write_other; try done; by rewrite E.
  - unfold process_create_borrow_position in Hh. handler_inv. cbn [cx_state cx_calls] in *.
    assert (E : W !! ai_key (CreateBorrowPosition.borrow_position a) = None)
      by (apply Hf; solve_created).
    apply whitelist_write_other; try done; by rewrite E.
  - unfold process_create_global_config in Hh. handler_inv. cbn [cx_state cx_calls] in *.
    assert (E : W !! ai_key (CreateGlobalConfig.global_config a) = None)
      by (apply Hf; solve_created).
    apply whitelist_write_other; try done; by rewrite E.
  - apply (update_global_config_shown W Sg) in Hp as [Hp _]; [| done].
    apply whitelist_write_other; try done; by rewrite Hp.
Qed.

(** ** Entries switched on and off *)

Lemma increment_ok c c' :
  increment_active_whitelisted_liquidators c = (Ok tt, c') ->
  active_whitelisted_liquidators c' = active_whitelisted_liquidators c + 1.
Proof. unfold increment_active_whitelisted_liquidators. intros H. fixed_inv. done. Qed.

Lemma decrement_ok c c' :
  decrement_active_whitelisted_liquidators c = (Ok tt, c') ->
  active_whitelisted_liquidators c' = active_whitelisted_liquidators c - 1.
Proof. unfold decrement_active_whitelisted_liquidators. intros H. fixed_inv. done. Qed.

Lemma initialize_entry_ok k lq b e e' :
  LiquidatorWhitelist.initialize k lq b e = (Ok tt, e') ->
  LiquidatorWhitelist.market e' = k /\ is_active e' = true.
Proof.
  unfold LiquidatorWhitelist.initialize, st_modify, st_bind. rewrite activate_eq.
  destruct (is_active _); intros [= <-]. done.
Qed.

Lemma whitelist_add_ix W Sg l d ts o :
  whitelist_ok W -> Forall (shown W Sg) l ->
  autara_process_instruction id l (Ix.AddWhitelistedLiquidator d) ts = Ok o ->
  fresh W (calls o) -> whitelist_ok (apply_writes (written o) W).
Proof.
  intros Hwl Hl H Hf. ix_inv H.
  apply (add_whitelisted_shown W Sg) in Hp as (Hp & _ & _ & He & _ & Hent); [| done].
  apply add_whitelisted_run in Hh as (c & t & t' & Hinc & Hst & Hcase).
  apply increment_ok in Hinc. rewrite Hst in *.
  pose proof (wl_count _ Hwl _ _ Hp) as Hn. unfold counter in Hn.
  destruct Hcase as [(_ & (f & n & k & o & sd & Hc) & Hi) | (_ & Ho & Hb & Hi & Ht)].
  - apply initialize_entry_ok in Hi as [Hmk Hact]. apply created_in, Hf in Hc.
    eapply whitelist_write_entry; [done | exact Hp | congruence | done |].
    unfold counter, active_entries in *. cbn. rewrite (omap_seen _ _ _ _ t') by
      (by apply sel_active_some).
    rewrite map_size_insert_None by (by rewrite lookup_omap, Hc). lia.
  - rewrite after_nothing in Ho, Hb. destruct (Hent _ Ho Hb) as [Hmk Hlq].
    pose proof (shown_entry _ _ _ He _ Ho Hb Hi) as Hw.
    rewrite activate_eq in Ht. destruct (is_active t) eqn:Ea; [discriminate |].
    injection Ht as <-.
    eapply whitelist_write_entry; [done | exact Hp | | done |].
    { intros x Hx. exists t. split; [congruence | done]. }
    unfold counter, active_entries in *. cbn.
    rewrite (omap_seen _ _ _ _ (set_active [1] t)) by (by apply sel_active_some).
    rewrite map_size_insert_None; [lia |]. rewrite lookup_omap, Hw.
    apply sel_active_none. by right.
Qed.

Lemma whitelist_remove_ix W Sg l lq ts o :
  whitelist_ok W -> Forall (shown W Sg) l ->
  autara_process_instruction id l (Ix.RemoveWhitelistedLiquidator lq) ts = Ok o ->
  whitelist_ok (apply_writes (written o) W).
Proof.
  intros Hwl Hl H. ix_inv H.
  apply (remove_whitelisted_shown W Sg) in Hp as (Hp & _ & _ & He & _ & Hmk & _); [| done].
  apply remove_whitelisted_run in Hh as (c & e' & Hdec & Hd & Hst). rewrite Hst in *.
  apply decrement_ok in Hdec. rewrite deactivate_eq in Hd.
  destruct (is_active _) eqn:Ea; [| discriminate]. injection Hd as <-.
  pose proof (wl_count _ Hwl _ _ Hp) as Hn. unfold counter in Hn.
  eapply whitelist_write_entry; [done | exact Hp | | done |].
  { intros x Hx. exists (value (RemoveWhitelistedLiquidator.whitelist_entry a)).
    split; [congruence | done]. }
  unfold counter, active_entries in *. cbn. rewrite omap_insert.
  rewrite sel_active_none by (by right).
  assert (Hs : omap (sel_active (key (RemoveWhitelistedLiquidator.market a))) W
            !! key (RemoveWhitelistedLiquidator.whitelist_entry a)
            = Some (value (RemoveWhitelistedLiquidator.whitelist_entry a))).
  { rewrite lookup_omap, He. by apply sel_active_some. }
  rewrite map_size_delete_Some by done.
  destruct (size _) eqn:Es; [| lia].
  apply map_size_empty_inv in Es. by rewrite Es, lookup_empty in Hs.
Qed.

Lemma whitelist_step W W' :
  ledger_ok W -> whitelist_ok W -> ledger_step W W' -> whitelist_ok W'.
Proof.
  intros Hok Hwl [Sg l ix ts o Hl Ha H Hf].
  destruct ix eqn:Eix; rewrite <- Eix in *;
    try (destruct (supply_ix_run W Sg l ix ts o) as (m & p & s' & Hp & Hmv & ->);
         [by subst.. |]; by apply whitelist_supply);
    try (destruct (borrow_ix_run W Sg l ix ts o) as (m & p & s' & Hp & Hmv & ->);
         [by subst.. |]; by apply whitelist_borrow);
    try (eapply whitelist_market_ix; [done | done | | exact H]; by subst);
    try (eapply whitelist_create_ix; [done | done | | exact H | done]; by subst);
    subst ix;
    [| by eapply whitelist_add_ix | by eapply whitelist_remove_ix ].
  cbn [autara_process_instruction] in H. run_inv. done.
Qed.

(** C13: the whitelist count of a market is exact.  On every reachable ledger a market counts
    as many whitelisted liquidators as there are active entries of that market; so
    liquidations are open to everyone exactly when no entry of the market is active. *)
Theorem whitelist_count_is_exact W k m :
  ledger_reachable W -> W !! k = Some (DMarket m) ->
  active_whitelisted_liquidators (config m) = Z.of_nat (size (active_entries k W)) /\
  (liquidations_are_permissionless (config m) = true <->
   forall j e, W !! j = Some (DWhitelistEntry e) -> LiquidatorWhitelist.market e = k ->
               is_active e = false).
Proof.
  intros Hr Hk.
  assert (Hwl : ledger_ok W /\ whitelist_ok W).
  { unfold ledger_reachable in Hr. revert Hr. generalize ledger_empty whitelist_empty.
    generalize (∅ : World). intros W0 H0 H1 H. clear Hk.
    induction H as [| W0 W1 W H _ IH]; [done |].
    apply IH; [by eapply ledger_step_ok | by eapply whitelist_step]. }
  destruct Hwl as [_ Hwl]. pose proof (wl_count _ Hwl _ _ Hk) as Hn. split; [done |].
  unfold liquidations_are_permissionless. unfold counter in Hn. rewrite Hn, Z.eqb_eq.
  transitivity (size (active_entries k W) = 0%nat); [lia |]. rewrite map_size_empty_iff. split.
  - intros E j e He Hm. destruct (is_active e) eqn:Ea; [| done].
    assert (Hs : active_entries k W !! j = Some e)
      by (unfold active_entries; rewrite lookup_omap, He; by apply sel_active_some).
    by rewrite E, lookup_empty in Hs.
  - intros Hall. apply map_empty. intros j. unfold active_entries. rewrite lookup_omap.
    destruct (W !! j) as [[| | | | e] |] eqn:Ej; cbn; try done.
    case_decide as D; [| done]. destruct D as [D1 D2]. rewrite (Hall j e Ej D1) in D2. done.
Qed.

End Instructions.

(** ** Witness: the market of the example *)

#[local] Existing Instance fixed_ref.
#[local] Existing Instance fixed_ref_laws.
#[local] Existing Instance pda_ex.
#[local] Existing Instance borsh_ex.
#[local] Existing Instance chain_ex.
#[local] Existing Instance runtime_ex.
#[local] Existing Instance memory_ex.
#[local] Existing Instance codec_ex.
#[local] Existing Instance runtime_laws_ex.

Lemma whitelist_count_witness :
  active_whitelisted_liquidators (config market_1)
  = Z.of_nat (size (active_entries market_key ledger_3)).
Proof.
  apply (whitelist_count_is_exact ledger_3 market_key market_1);
    [apply ledger_3_reachable | vm_compute; reflexivity].
Defined.
