(* ===== verification/Layout.v ===== *)
(** * The layout of the accounts

    The accounts are [repr(C)] plain data that [bytemuck] reads in place.  This file gives
    the layout of every struct that is stored ([autara-lib/src/state/*.rs],
    [oracle/oracle_config.rs], [oracle/pod_oracle_provider.rs], [pod_option.rs],
    [interest_rate/pod_interest_rate.rs], [math/macros.rs], [padding.rs]): its fields in
    order with their sizes and alignments, how a value is written and read, and the
    assertions that the source makes on sizes ([const_assert.rs], [state/mod.rs]).

    Padding fields are not part of the records of the model: they are written as zeros and
    skipped when read.  A discriminant outside of its enumeration is not a value of the type
    (to read it is undefined behaviour), so here it is not read. *)
From stdpp Require Import sets.
From S2P Require Import Prelude.
From S2P Require Import Errors.
From S2P Require Import Monad.
From S2P Require Import FixedPoint.
From S2P Require Import SharesTracker.
From S2P Require Import InterestRatePerSecond.
From S2P Require Import Bytes.
From S2P Require Import InterestRateCurve.
From S2P Require Import PodOption.
From S2P Require Import Pda.
From S2P Require Import Oracle.
From S2P Require Import GlobalConfig.
From S2P Require Import LiquidatorWhitelist.
From S2P Require Import MarketConfig.
From S2P Require Import SupplyPosition.
From S2P Require Import BorrowPosition.
From S2P Require Import CollateralVault.
From S2P Require Import SupplyVault.
From S2P Require Import Market.
From S2P Require Import Accounts.
From S2P Require Import Creation.
From S2P Require Import ProcessorAdmin.
From S2P Require Import Program.
From S2P Require Import Ledger.

#[local] Open Scope nat_scope.

(** ** Plain data *)

(** [bytemuck::Pod] with [size_of], [align_of], [bytes_of] and reading exactly [size_of]
    bytes; [pod_ok] says that the model's value is one of the Rust type. *)
Record Pod (T : Type) : Type := mkPod {
  size_of : nat;
  align_of : nat;
  bytes_of : T -> list Z;
  read_bytes : list Z -> option T;
  pod_ok : T -> Prop }.
Arguments mkPod {T}.
Arguments size_of {T}.
Arguments align_of {T}.
Arguments bytes_of {T}.
Arguments read_bytes {T}.
Arguments pod_ok {T}.

(** [bytemuck::try_from_bytes] on a buffer that is aligned. *)
Definition try_from_bytes {T} (p : Pod T) (l : list Z) : option T :=
  if length l =? size_of p then read_bytes p l else None.

(** Unsigned and signed integers of [n] bytes. *)
Definition uint (n : nat) : Pod Z :=
  mkPod n n (le_bytes n) (fun l => Some (le_val l))
    (fun x => (0 <= x < 256 ^ Z.of_nat n)%Z).
Definition sint (n : nat) : Pod Z :=
  mkPod n n (le_bytes n) (fun l => Some (le_sval l))
    (fun x => (- 256 ^ Z.of_nat n <= 2 * x < 256 ^ Z.of_nat n)%Z).

(** [[u8; n]] *)
Definition byte_array (n : nat) : Pod (list Z) :=
  mkPod n 1 (fun l => l) Some (fun l => length l = n /\ Forall is_byte l).

Definition Padding (n : nat) : Pod () :=
  mkPod n 1 (fun _ => replicate n 0%Z) (fun _ => Some tt) (fun _ => True).

Definition pubkey : Pod Pubkey := byte_array 32.

(** [repr(transparent)] *)
Definition transparent {T U} (p : Pod U) (to : T -> U) (from : U -> T) : Pod T :=
  mkPod (size_of p) (align_of p) (fun x => bytes_of p (to x))
    (fun l => from <$> read_bytes p l) (fun x => pod_ok p (to x)).

(** [define_pod_int!]: an integer kept as its little-endian bytes, so that it needs no
    alignment. *)
Definition pod_int (p : Pod Z) : Pod Z :=
  mkPod (size_of p) 1 (bytes_of p) (read_bytes p) (pod_ok p).

Definition ufixed_point : Pod UFixedPoint := transparent (pod_int (uint 16)) u_bits UFP.
Definition ifixed_point : Pod IFixedPoint := transparent (pod_int (sint 16)) i_bits IFP.
Definition interest_rate_per_second_pod : Pod InterestRatePerSecond :=
  transparent ifixed_point per_second mkRatePerSecond.

Definition pod_option {T} (p : Pod T) : Pod (PodOption T) :=
  transparent p pod_value mkPodOption.

(** An enumeration of [repr(u64)]. *)
Definition repr_u64 {T} (discriminant : T -> Z) (of_discriminant : Z -> option T) : Pod T :=
  mkPod 8 8 (fun x => le_bytes 8 (discriminant x)) (fun l => of_discriminant (le_val l))
    (fun _ => True).

(** ** [repr(C)] structs *)

(** The next offset that is a multiple of the alignment. *)
Definition align_up (off align : nat) : nat := (off + align - 1) / align * align.

(** The end of the last of some fields, each with its size and alignment, that are laid out
    from an offset. *)
Fixpoint repr_c_end (off : nat) (fields : list (nat * nat)) : nat :=
  match fields with
  | [] => off
  | (size, align) :: fields => repr_c_end (align_up off align + size) fields
  end.

Definition repr_c_align (fields : list (nat * nat)) : nat := foldr Nat.max 1 (snd <$> fields).
Definition repr_c_size (fields : list (nat * nat)) : nat :=
  align_up (repr_c_end 0 fields) (repr_c_align fields).

(** [#[derive(Pod)]] refuses a struct with bytes that belong to no field. *)
Definition no_padding (fields : list (nat * nat)) : bool :=
  repr_c_size fields =? sum_list (fst <$> fields).

(** The fields of a struct, one after the other. *)
Record Fields (T : Type) : Type := mkFields {
  f_layout : list (nat * nat);
  f_bytes : T -> list Z;
  f_read : list Z -> option T;
  f_ok : T -> Prop }.
Arguments mkFields {T}.
Arguments f_layout {T}.
Arguments f_bytes {T}.
Arguments f_read {T}.
Arguments f_ok {T}.

Definition no_fields : Fields () :=
  mkFields [] (fun _ => []) (fun _ => Some tt) (fun _ => True).

Definition field {T U} (p : Pod T) (fs : Fields U) : Fields (T * U) :=
  mkFields ((size_of p, align_of p) :: f_layout fs)
    (fun '(x, y) => bytes_of p x ++ f_bytes fs y)
    (fun l => x ← read_bytes p (slice 0 (size_of p) l);
              y ← f_read fs (drop (size_of p) l);
              Some (x, y))
    (fun '(x, y) => pod_ok p x /\ f_ok fs y).

Definition repr_c {T U} (fs : Fields U) (to : T -> U) (from : U -> T) : Pod T :=
  mkPod (repr_c_size (f_layout fs)) (repr_c_align (f_layout fs))
    (fun x => f_bytes fs (to x)) (fun l => from <$> f_read fs l) (fun x => f_ok fs (to x)).

Declare Scope layout_scope.
Delimit Scope layout_scope with layout.
Infix "::>" := field (at level 60, right associativity) : layout_scope.
#[local] Open Scope layout_scope.

(** ** The structs *)

Definition pod_curve_kind : Pod PodInterestRateCurveKind :=
  repr_u64 (fun k => match k with KFixed => 0 | KPolyline => 1 | KAdaptive => 2 end)%Z
    (fun z => match z with
              | 0 => Some KFixed | 1 => Some KPolyline | 2 => Some KAdaptive | _ => None
              end)%Z.

Definition pod_interest_rate_curve : Pod PodInterestRateCurve :=
  repr_c (pod_curve_kind ::> byte_array POD_UNION_SIZE ::> no_fields)
    (fun c => (kind c, (union c, tt)))
    (fun '(k, (u, _)) => {| kind := k; union := u |}).

Definition pod_provider_kind : Pod PodOracleProviderKind :=
  repr_u64 (fun k => match k with KPyth => 0 | KChaos => 1 end)%Z
    (fun z => match z with 0 => Some KPyth | 1 => Some KChaos | _ => None end)%Z.

Definition pod_oracle_provider : Pod PodOracleProvider :=
  repr_c (pod_provider_kind ::> byte_array ORACLE_UNION_SIZE ::> no_fields)
    (fun p => (provider_kind p, (provider_union p, tt)))
    (fun '(k, (u, _)) => mkPodOracleProvider k u).

Definition oracle_validation_config : Pod OracleValidationConfig :=
  repr_c (pod_option (uint 8) ::> pod_option ifixed_point ::> no_fields)
    (fun v => (max_age_ v, (min_relative_confidence_ v, tt)))
    (fun '(a, (c, _)) => mkValidation a c).

Definition oracle_config_pod : Pod OracleConfig :=
  repr_c (pod_oracle_provider ::> oracle_validation_config ::> Padding 160 ::> no_fields)
    (fun c => (config_provider c, (validation_config c, (tt, tt))))
    (fun '(p, (v, _)) => mkOracleConfig p v).

Definition shares_tracker_pod : Pod SharesTracker :=
  repr_c (ufixed_point ::> ufixed_point ::> no_fields)
    (fun t => (total_shares t, (atoms_per_share t, tt)))
    (fun '(s, (a, _)) => {| total_shares := s; atoms_per_share := a |}).

Definition ltv_config_pod : Pod LtvConfig :=
  repr_c (ifixed_point ::> ifixed_point ::> ifixed_point ::> no_fields)
    (fun c => (max_ltv c, (unhealthy_ltv c, (liquidation_bonus c, tt))))
    (fun '(m, (u, (b, _))) => mkLtv m u b).

Definition market_config_pod : Pod MarketConfig :=
  repr_c (byte_array 1 ::> byte_array 1 ::> Padding 2 ::> uint 2 ::> uint 2 ::> pubkey
          ::> ltv_config_pod ::> ifixed_point ::> uint 8 ::> uint 8 ::> Padding 72 ::> no_fields)
    (fun c => (MarketConfig.bump c, (MarketConfig.index c, (tt, (lending_market_fee_in_bps c,
       (MarketConfig.protocol_fee_share_in_bps c, (curator c, (ltv_config c,
       (max_utilisation_rate c, (max_supply_atoms c, (active_whitelisted_liquidators c,
       (tt, tt))))))))))))
    (fun '(b, (i, (_, (f, (s, (k, (l, (u, (a, (w, _)))))))))) =>
       mkMarketConfig b i f s k l u a w).

Definition collateral_vault_pod : Pod CollateralVault :=
  repr_c (pubkey ::> uint 8 ::> pubkey ::> uint 8 ::> oracle_config_pod ::> Padding 192
          ::> no_fields)
    (fun v => (CollateralVault.mint v, (CollateralVault.mint_decimals_ v,
       (CollateralVault.vault v, (total_collateral_atoms v,
       (CollateralVault.oracle_config v, (tt, tt)))))))
    (fun '(m, (d, (k, (t, (o, _))))) => mkCollateralVault m d k t o).

Definition supply_vault_pod : Pod SupplyVault :=
  repr_c (pubkey ::> uint 8 ::> pubkey ::> oracle_config_pod ::> shares_tracker_pod
          ::> shares_tracker_pod ::> pod_interest_rate_curve ::> interest_rate_per_second_pod
          ::> sint 8 ::> ufixed_point ::> ufixed_point ::> Padding 192 ::> no_fields)
    (fun v => (SupplyVault.mint v, (SupplyVault.mint_decimals_ v, (SupplyVault.vault v,
       (SupplyVault.oracle_config v, (supply_shares_tracker v, (borrow_shares_tracker v,
       (interest_rate_curve v, (last_borrow_interest_rate v, (last_update_unix_timestamp v,
       (pending_protocol_fee_shares v, (pending_curator_fee_shares v, (tt, tt)))))))))))))
    (fun '(m, (d, (k, (o, (s, (b, (c, (r, (t, (p, (f, _))))))))))) =>
       mkSupplyVault m d k o s b c r t p f).

Definition market_pod : Pod Market :=
  repr_c (market_config_pod ::> collateral_vault_pod ::> supply_vault_pod ::> no_fields)
    (fun m => (config m, (collateral_vault m, (supply_vault m, tt))))
    (fun '(c, (k, (s, _))) => mkMarket c k s).

Definition supply_position_pod : Pod SupplyPosition :=
  repr_c (pubkey ::> pubkey ::> uint 8 ::> ufixed_point ::> Padding 128 ::> no_fields)
    (fun p => (SupplyPosition.authority p, (SupplyPosition.market p, (deposited_atoms p,
       (shares p, (tt, tt))))))
    (fun '(a, (m, (d, (s, _)))) => mkSupplyPosition a m d s).

Definition borrow_position_pod : Pod BorrowPosition :=
  repr_c (pubkey ::> pubkey ::> uint 8 ::> uint 8 ::> ufixed_point ::> uint 8 ::> Padding 120
          ::> no_fields)
    (fun p => (BorrowPosition.authority p, (BorrowPosition.market p,
       (collateral_deposited_atoms p, (initial_borrowed_atoms p, (borrowed_shares p,
       (swept_collateral_atoms p, (tt, tt))))))))
    (fun '(a, (m, (c, (i, (s, (w, _)))))) => mkBorrowPosition a m c i s w).

Definition global_config_pod : Pod GlobalConfig :=
  repr_c (pubkey ::> pod_option pubkey ::> pubkey ::> uint 2 ::> Padding 158 ::> no_fields)
    (fun g => (admin g, (nominated_admin g, (fee_receiver g,
       (GlobalConfig.protocol_fee_share_in_bps g, (tt, tt))))))
    (fun '(a, (n, (f, (s, _)))) => mkGlobalConfig a n f s).

Definition whitelist_entry_pod : Pod LiquidatorWhitelistEntry :=
  repr_c (pubkey ::> pubkey ::> byte_array 1 ::> byte_array 1 ::> Padding 14 ::> no_fields)
    (fun e => (LiquidatorWhitelist.market e, (liquidator e, (LiquidatorWhitelist.bump e,
       (active e, (tt, tt))))))
    (fun '(m, (l, (b, (a, _)))) => mkEntry m l b a).

(** ** The assertions of the source *)

(** [validate_struct!]: [assert_struct_size!] and [assert_struct_alignment!]. *)
Definition validate_struct {T} (p : Pod T) (size alignment : nat) : bool :=
  (size_of p =? size) && (align_of p =? alignment).

(** The inner loop of [validate_all_different_sizes], over the sizes after the [i]th. *)
Fixpoint differs_from_all (size : nat) (rest : list nat) : Result () () :=
  match rest with
  | [] => Ok tt
  | s :: rest => if size =? s then Panic else differs_from_all size rest
  end.

Fixpoint validate_all_different_sizes (sizes : list nat) : Result () () :=
  match sizes with
  | [] => Ok tt
  | s :: sizes =>
    let? _ := differs_from_all s sizes in validate_all_different_sizes sizes
  end.

Definition accounts_size : list nat :=
  [size_of borrow_position_pod; size_of supply_position_pod; size_of market_pod;
   size_of global_config_pod; size_of whitelist_entry_pod].

(** The decoders of the program's accounts; those of the token program are its own. *)
Definition bytemuck_codec (token_account : list Z -> option TokenAccount)
  (mint : list Z -> option Mint) : AccountCodec := {|
  market_of_bytes := try_from_bytes market_pod;
  supply_position_of_bytes := try_from_bytes supply_position_pod;
  borrow_position_of_bytes := try_from_bytes borrow_position_pod;
  global_config_of_bytes := try_from_bytes global_config_pod;
  whitelist_entry_of_bytes := try_from_bytes whitelist_entry_pod;
  token_account_of_bytes := token_account;
  mint_of_bytes := mint |}.

(** * Correctness of the layouts

    Every struct that is stored takes the size and the alignment that the source asserts,
    has no byte outside of its fields, and is read back as it was written; bytes are read as
    at most one kind of account; and the zeros of a new account read as the initial values
    that [Creation] starts from. *)

#[local] Open Scope nat_scope.
#[local] Open Scope layout_scope.

(** ** Laws of a layout *)

Class Lawful {T} (p : Pod T) : Prop := {
  bytes_length x : pod_ok p x -> length (bytes_of p x) = size_of p;
  bytes_are_bytes x : pod_ok p x -> Forall is_byte (bytes_of p x);
  read_written x : pod_ok p x -> read_bytes p (bytes_of p x) = Some x;
  read_is_ok l x : length l = size_of p -> Forall is_byte l ->
    read_bytes p l = Some x -> pod_ok p x }.

Class LawfulFields {T} (fs : Fields T) : Prop := {
  f_length x : f_ok fs x -> length (f_bytes fs x) = sum_list (fst <$> f_layout fs);
  f_are_bytes x : f_ok fs x -> Forall is_byte (f_bytes fs x);
  f_read_written x : f_ok fs x -> f_read fs (f_bytes fs x) = Some x;
  f_read_ok l x : length l = sum_list (fst <$> f_layout fs) -> Forall is_byte l ->
    f_read fs l = Some x -> f_ok fs x }.

#[global] Instance uint_lawful n : Lawful (uint n).
Proof.
  split; cbn.
  - intros x _. apply length_le_bytes.
  - intros x _. apply le_bytes_are_bytes.
  - intros x Hx. by rewrite le_val_unsigned.
  - intros l x Hl Hb [= <-]. rewrite <- Hl. by apply le_val_bounds.
Qed.

Lemma le_sval_bounds l :
  Forall is_byte l ->
  (- 256 ^ Z.of_nat (length l) <= 2 * le_sval l < 256 ^ Z.of_nat (length l))%Z.
Proof.
  intros H. pose proof (le_val_bounds l H). unfold le_sval. destruct (Z.ltb_spec (2 * le_val l)
    (256 ^ Z.of_nat (length l))); lia.
Qed.

#[global] Instance sint_lawful n : Lawful (sint n).
Proof.
  split; cbn.
  - intros x _. apply length_le_bytes.
  - intros x _. apply le_bytes_are_bytes.
  - intros x Hx. by rewrite le_sval_signed.
  - intros l x Hl Hb [= <-]. rewrite <- Hl. by apply le_sval_bounds.
Qed.

#[global] Instance byte_array_lawful n : Lawful (byte_array n).
Proof. split; cbn; naive_solver. Qed.

#[global] Instance padding_lawful n : Lawful (Padding n).
Proof.
  split; cbn; try done; intros [] _.
  - apply length_replicate.
  - apply Forall_replicate. unfold is_byte. lia.
  - done.
Qed.

#[global] Instance pod_int_lawful p : Lawful p -> Lawful (pod_int p).
Proof. intros [H1 H2 H3 H4]. split; assumption. Qed.

Section Transparent.
Context {T U : Type} (p : Pod U) (to : T -> U) (from : U -> T).
Hypothesis from_to : forall x, from (to x) = x.
Hypothesis to_from : forall u, to (from u) = u.

Lemma transparent_lawful : Lawful p -> Lawful (transparent p to from).
Proof.
  intros [H1 H2 H3 H4]. split; cbn; [naive_solver | naive_solver | |].
  - intros x Hx. rewrite H3 by done. cbn. by rewrite from_to.
  - intros l x Hl Hb. destruct (read_bytes p l) eqn:E; intros [= <-]. rewrite to_from. eauto.
Qed.
End Transparent.

#[global] Instance ufixed_lawful : Lawful ufixed_point.
Proof. apply transparent_lawful; [by intros [] | done | apply _]. Qed.
#[global] Instance ifixed_lawful : Lawful ifixed_point.
Proof. apply transparent_lawful; [by intros [] | done | apply _]. Qed.
#[global] Instance rate_lawful : Lawful interest_rate_per_second_pod.
Proof. apply transparent_lawful; [by intros [] | done | apply _]. Qed.
#[global] Instance pod_option_lawful {T} (p : Pod T) : Lawful p -> Lawful (pod_option p).
Proof. intros. apply transparent_lawful; [by intros [] | done | done]. Qed.

Lemma repr_u64_lawful {T} (d : T -> Z) (ofd : Z -> option T) :
  (forall x, 0 <= d x < 256 ^ 8)%Z -> (forall x, ofd (d x) = Some x) -> Lawful (repr_u64 d ofd).
Proof.
  intros Hd Hof. split; cbn [repr_u64 size_of bytes_of read_bytes pod_ok]; try done; intros x _.
  - apply le_bytes_are_bytes.
  - by rewrite le_val_unsigned by apply Hd.
Qed.

#[global] Instance curve_kind_lawful : Lawful pod_curve_kind.
Proof. apply repr_u64_lawful; intros []; done. Qed.
#[global] Instance provider_kind_lawful : Lawful pod_provider_kind.
Proof. apply repr_u64_lawful; intros []; done. Qed.

(** ** Structs *)

#[global] Instance no_fields_lawful : LawfulFields no_fields.
Proof. split; cbn; try done; by intros []. Qed.

#[global] Instance field_lawful {T U} (p : Pod T) (fs : Fields U) :
  Lawful p -> LawfulFields fs -> LawfulFields (p ::> fs).
Proof.
  intros [H1 H2 H3 H4] [F1 F2 F3 F4]. split; cbn [field f_ok f_bytes f_read f_layout fmap
    list_fmap fst sum_list].
  - intros [x y] [Hx Hy]. rewrite length_app, H1, F1; done.
  - intros [x y] [Hx Hy]. apply Forall_app. auto.
  - intros [x y] [Hx Hy]. rewrite slice_first by auto. rewrite H3 by done. cbn.
    rewrite <- (H1 x Hx), drop_app_length, F3 by done. done.
  - intros l [x y] Hl Hb.
    change (length l = size_of p + sum_list (fst <$> f_layout fs)) in Hl.
    destruct (read_bytes p _) as [x' |] eqn:Ex; [| done].
    cbn. destruct (f_read fs _) as [y' |] eqn:Ey; [| done]. cbn. intros [= -> ->]. split.
    + eapply H4; [| by apply Forall_slice | done]. unfold slice.
      rewrite drop_0, length_take. lia.
    + eapply F4; [| by apply Forall_drop | done]. rewrite length_drop. lia.
Qed.

Lemma repr_c_lawful {T U} (fs : Fields U) (to : T -> U) (from : U -> T) :
  no_padding (f_layout fs) = true -> (forall x, from (to x) = x) ->
  (forall u, f_ok fs u -> f_ok fs (to (from u))) -> LawfulFields fs ->
  Lawful (repr_c fs to from).
Proof.
  intros Hp Hft Htf [F1 F2 F3 F4]. apply Nat.eqb_eq in Hp. split; cbn.
  - intros x Hx. rewrite Hp. auto.
  - auto.
  - intros x Hx. rewrite F3 by done. cbn. by rewrite Hft.
  - intros l x Hl Hb. rewrite Hp in Hl. destruct (f_read fs l) eqn:E; intros [= <-]. eauto.
Qed.

(** Layout, the two conversions, and the fields. *)
Ltac struct :=
  apply repr_c_lawful;
  [ vm_compute; reflexivity
  | by intros []
  | cbn; intros; repeat match goal with
                        | x : _ * _ |- _ => destruct x
                        | x : () |- _ => destruct x
                        end; cbn in *; tauto
  | apply _ ].

#[global] Instance curve_lawful : Lawful pod_interest_rate_curve.
Proof. struct. Qed.
#[global] Instance provider_lawful : Lawful pod_oracle_provider.
Proof. struct. Qed.
#[global] Instance validation_lawful : Lawful oracle_validation_config.
Proof. struct. Qed.
#[global] Instance oracle_config_lawful : Lawful oracle_config_pod.
Proof. struct. Qed.
#[global] Instance tracker_lawful : Lawful shares_tracker_pod.
Proof. struct. Qed.
#[global] Instance ltv_lawful : Lawful ltv_config_pod.
Proof. struct. Qed.
#[global] Instance market_config_lawful : Lawful market_config_pod.
Proof. struct. Qed.
#[global] Instance collateral_vault_lawful : Lawful collateral_vault_pod.
Proof. struct. Qed.
#[global] Instance supply_vault_lawful : Lawful supply_vault_pod.
Proof. struct. Qed.
#[global] Instance market_lawful : Lawful market_pod.
Proof. struct. Qed.
#[global] Instance supply_position_lawful : Lawful supply_position_pod.
Proof. struct. Qed.
#[global] Instance borrow_position_lawful : Lawful borrow_position_pod.
Proof. struct. Qed.
#[global] Instance global_config_lawful : Lawful global_config_pod.
Proof. struct. Qed.
#[global] Instance whitelist_entry_lawful : Lawful whitelist_entry_pod.
Proof. struct. Qed.

(** ** Accounts *)

Lemma try_read {T} (p : Pod T) `{!Lawful p} x :
  pod_ok p x -> try_from_bytes p (bytes_of p x) = Some x.
Proof.
  intros Hx. unfold try_from_bytes. rewrite bytes_length by done.
  by rewrite Nat.eqb_refl, read_written.
Qed.

Lemma try_read_inv {T} (p : Pod T) l x : try_from_bytes p l = Some x -> length l = size_of p.
Proof. unfold try_from_bytes. by destruct (Nat.eqb_spec (length l) (size_of p)). Qed.

Lemma try_read_other {T} (p : Pod T) l : length l <> size_of p -> try_from_bytes p l = None.
Proof. intros H. unfold try_from_bytes. by rewrite (proj2 (Nat.eqb_neq _ _)). Qed.

Lemma try_both {T U} (p : Pod T) (q : Pod U) l x y :
  (size_of p =? size_of q) = false ->
  try_from_bytes p l = Some x -> try_from_bytes q l = Some y -> False.
Proof.
  intros H Hx%try_read_inv Hy%try_read_inv. apply Nat.eqb_neq in H. congruence.
Qed.

Lemma try_read_ok {T} (p : Pod T) `{!Lawful p} l x :
  Forall is_byte l -> try_from_bytes p l = Some x -> pod_ok p x.
Proof.
  intros Hb H. pose proof (try_read_inv p l x H). unfold try_from_bytes in H.
  destruct (_ =? _); [by eapply read_is_ok | done].
Qed.

Section Accounts.
Context (token : list Z -> option TokenAccount) (mint : list Z -> option Mint).
#[local] Instance codec : AccountCodec := bytemuck_codec token mint.

(** The contents of an account of the program as its bytes, and when they are of the types
    of Rust. *)
Definition account_bytes (d : AccountData) : list Z :=
  match d with
  | DMarket m => bytes_of market_pod m
  | DSupply p => bytes_of supply_position_pod p
  | DBorrow p => bytes_of borrow_position_pod p
  | DGlobalConfig g => bytes_of global_config_pod g
  | DWhitelistEntry e => bytes_of whitelist_entry_pod e
  end.
Definition account_ok (d : AccountData) : Prop :=
  match d with
  | DMarket m => pod_ok market_pod m
  | DSupply p => pod_ok supply_position_pod p
  | DBorrow p => pod_ok borrow_position_pod p
  | DGlobalConfig g => pod_ok global_config_pod g
  | DWhitelistEntry e => pod_ok whitelist_entry_pod e
  end.

(** All that the program can read some bytes as. *)
Definition readings (l : list Z) : list AccountData :=
  option_list (DMarket <$> market_of_bytes l)
  ++ option_list (DSupply <$> supply_position_of_bytes l)
  ++ option_list (DBorrow <$> borrow_position_of_bytes l)
  ++ option_list (DGlobalConfig <$> global_config_of_bytes l)
  ++ option_list (DWhitelistEntry <$> whitelist_entry_of_bytes l).

Lemma elem_of_optional {A B} (f : A -> B) (o : option A) y :
  y ∈ option_list (f <$> o) <-> exists x, o = Some x /\ y = f x.
Proof. destruct o; cbn; set_solver. Qed.

Lemma readings_length l : length (readings l) <= 1.
Proof.
  unfold readings. cbn [codec bytemuck_codec market_of_bytes supply_position_of_bytes
    borrow_position_of_bytes global_config_of_bytes whitelist_entry_of_bytes].
  destruct (try_from_bytes market_pod l) eqn:E1;
  destruct (try_from_bytes supply_position_pod l) eqn:E2;
  destruct (try_from_bytes borrow_position_pod l) eqn:E3;
  destruct (try_from_bytes global_config_pod l) eqn:E4;
  destruct (try_from_bytes whitelist_entry_pod l) eqn:E5; cbn; try lia;
  match goal with
  | H1 : try_from_bytes ?p l = Some _, H2 : try_from_bytes ?q l = Some _ |- _ =>
    exfalso; apply (try_both p q l _ _ ltac:(vm_compute; reflexivity) H1 H2)
  end.
Qed.

Lemma elem_of_readings l d :
  d ∈ readings l <->
  match d with
  | DMarket m => market_of_bytes l = Some m
  | DSupply p => supply_position_of_bytes l = Some p
  | DBorrow p => borrow_position_of_bytes l = Some p
  | DGlobalConfig g => global_config_of_bytes l = Some g
  | DWhitelistEntry e => whitelist_entry_of_bytes l = Some e
  end.
Proof.
  unfold readings. rewrite !elem_of_app, !elem_of_optional. destruct d; naive_solver.
Qed.

Lemma singleton_reading l d : d ∈ readings l -> readings l = [d].
Proof.
  intros H. pose proof (readings_length l) as Hl. destruct (readings l) as [| x [| y r]].
  - by apply elem_of_nil in H.
  - by apply list_elem_of_singleton in H as ->.
  - cbn in Hl. lia.
Qed.

Lemma written_reading d : account_ok d -> d ∈ readings (account_bytes d).
Proof. intros H. apply elem_of_readings. destruct d; by apply (try_read _). Qed.

Lemma reading_ok l d : Forall is_byte l -> d ∈ readings l -> account_ok d.
Proof. intros Hb H%elem_of_readings. destruct d; by apply (try_read_ok _ l). Qed.

(** C19: the accounts of the program carry no tag and are told apart by their size.  Any bytes
    are read as at most one account, of one kind, with fields of their Rust types; and the
    bytes of an account, whatever its kind, are read as this account and as nothing else. *)
Theorem accounts_are_discriminated_by_size l d :
  Forall is_byte l -> account_ok d ->
  length (readings l) <= 1 /\ Forall account_ok (readings l) /\
  readings (account_bytes d) = [d].
Proof.
  intros Hb Hd. split_and!.
  - apply readings_length.
  - apply list.Forall_forall. intros x Hx. by eapply reading_ok.
  - by apply singleton_reading, written_reading.
Qed.

(** ** New accounts *)

(** An account that was just created holds zeros. *)
Class ZeroedMemory {ME : Memory} : Prop := {
  untouched a : account_after [] a = a;
  zeroed_data cs a : created cs (ai_key a) ->
    exists n, ai_data (account_after cs a) = replicate n 0%Z }.
Context (decimals_u8 : forall b m, mint b = Some m -> is_u8 (mi_decimals m)).

Lemma read_zeros {T} (p : Pod T) n x z :
  try_from_bytes p (replicate (size_of p) 0%Z) = Some z ->
  try_from_bytes p (replicate n 0%Z) = Some x -> x = z.
Proof.
  intros Hz Hx. pose proof (try_read_inv _ _ _ Hx) as H. rewrite length_replicate in H.
  subst n. congruence.
Qed.

(** What [Ledger] assumes of new accounts holds when they are zeroed. *)
Lemma zeroed_memory_laws {ME : Memory} : ZeroedMemory -> RuntimeLaws.
Proof.
  intros [Hn Hz]. split; [done | | | | done]; intros cs a x Hc.
  all: destruct (Hz cs a Hc) as [n ->].
  all: apply read_zeros; vm_compute; reflexivity.
Qed.
End Accounts.

(** ** The assertions *)

Lemma differs_from_all_spec s l : differs_from_all s l = if decide (s ∈ l) then Panic else Ok tt.
Proof.
  induction l as [| x l IH]; cbn; [done |]. rewrite IH.
  destruct (Nat.eqb_spec s x); repeat case_decide; set_solver.
Qed.

Lemma validate_all_different_sizes_spec l :
  validate_all_different_sizes l = if decide (NoDup l) then Ok tt else Panic.
Proof.
  induction l as [| x l IH]; cbn; [done |]. rewrite differs_from_all_spec, IH.
  destruct (decide (x ∈ l)) as [Hx | Hx], (decide (NoDup l)) as [Hl | Hl]; cbn;
    case_decide as H; rewrite list.NoDup_cons in H; naive_solver.
Qed.

(** The [validate_struct!] of the source: every stored struct has the size and the alignment
    that the source asserts, and the sizes of the accounts pass
    [validate_all_different_sizes]. *)
Lemma layout_assertions_hold :
  validate_struct oracle_config_pod 264 8 = true /\
  validate_struct pod_oracle_provider 80 8 = true /\
  validate_struct market_config_pod 192 8 = true /\
  validate_struct borrow_position_pod 224 8 = true /\
  validate_struct whitelist_entry_pod 80 1 = true /\
  validate_struct collateral_vault_pod 536 8 = true /\
  validate_struct global_config_pod 256 2 = true /\
  validate_struct supply_vault_pod 720 8 = true /\
  validate_struct supply_position_pod 216 8 = true /\
  validate_struct market_pod 1448 8 = true /\
  validate_struct pod_interest_rate_curve 72 8 = true /\
  validate_all_different_sizes accounts_size = Ok tt.
Proof. vm_compute. tauto. Qed.

(** In memory the struct of [OracleConfig] has no alignment padding: all of its 264 bytes are
    fields, and the seven bytes that Borsh saves are those of the discriminant, which takes
    eight in memory. *)
Lemma oracle_config_has_no_padding :
  size_of oracle_config_pod
  = size_of pod_provider_kind + ORACLE_UNION_SIZE + size_of oracle_validation_config + 160 /\
  257 = 1 + ORACLE_UNION_SIZE + size_of oracle_validation_config + 160.
Proof. vm_compute. tauto. Qed.

Lemma discriminated_witness :
  length (readings (fun _ => None) (fun _ => None)
            (account_bytes (DMarket (fst lent)))) <= 1 /\
  readings (fun _ => None) (fun _ => None) (account_bytes (DSupply (snd lent)))
  = [DSupply (snd lent)].
Proof.
  assert (Hb : Forall is_byte (account_bytes (DMarket (fst lent)))).
  { vm_compute; repeat constructor; discriminate. }
  assert (Ho : account_ok (DSupply (snd lent))).
  { cbn. vm_compute; repeat split; repeat constructor; discriminate. }
  pose proof (accounts_are_discriminated_by_size (fun _ => None) (fun _ => None) _ _ Hb Ho)
    as (H1 & _ & H2).
  split; [exact H1 | exact H2].
Defined.
