(* ===== verification/RpcExt.v ===== *)
(** * Reading accounts through the RPC of the node

    [autara-client/src/rpc_ext.rs], [autara-client/src/filter.rs] and
    [autara-client/src/token_mint.rs]: the requests of the client to a node of the network.
    The node is [AsyncArchRpcClient] of [arch_sdk]: a parameter, a record of its answers
    while one operation of the client runs. *)
From stdpp Require Import gmap.
From Stdlib Require Import String.
From S2P Require Import Prelude.
From S2P Require Import Errors.
From S2P Require Import Monad.
From S2P Require Import Bytes.
From S2P Require Import Pda.
From S2P Require Import Oracle.
From S2P Require Import Accounts.
From S2P Require Import Layout.
#[local] Open Scope string_scope.
#[local] Open Scope Z_scope.

(** ** The node *)

(** [arch_sdk::AccountInfoWithPubkey], and without the key [arch_sdk::AccountInfo]. *)
Record RpcAccount : Type := mkRpcAccount { ra_owner : Pubkey; ra_data : list Z }.
Record AccountInfoWithPubkey : Type := mkKeyed { ka_key : Pubkey; ka_account : RpcAccount }.

Inductive AccountFilter : Type :=
| DataSize (size : nat)
| DataContent (offset : nat) (bytes : list Z).

(** [arch_sdk::ArchError] *)
Inductive ArchError : Type := RequestFailed (message : string).

Record ArchRpc : Type := mkArchRpc {
  get_multiple_accounts : list Pubkey -> Result ArchError (list (option AccountInfoWithPubkey));
  get_program_accounts : Pubkey -> option (list AccountFilter)
                         -> Result ArchError (list (Pubkey * RpcAccount));
  read_account_info : Pubkey -> Result ArchError RpcAccount }.

(** ** Errors: [anyhow] *)

Inductive Anyhow : Type :=
| ArchFailure (e : ArchError)
| LendingFailure (e : LendingError)
| UnpackFailure
| Message (m : string)
| Context (m : string) (e : Anyhow).

Definition AnyRes : Type -> Type := Result Anyhow.

(** [?] and [.context(m)] on a result, [.context(m)] on an option. *)
Definition from_arch {A} (r : Result ArchError A) : AnyRes A := res_from ArchFailure r.
Definition from_lending {A} (r : Res A) : AnyRes A := res_from LendingFailure r.
Definition with_context {A} (m : string) (r : AnyRes A) : AnyRes A := res_from (Context m) r.
Definition found {A} (m : string) (o : option A) : AnyRes A := ok_or (Message m) o.

(** ** Requests *)

(** [slice.chunks(n)] *)
Fixpoint chunks_fuel {A} (fuel n : nat) (l : list A) : list (list A) :=
  match fuel, l with
  | O, _ => []
  | _, [] => []
  | S fuel, _ => take n l :: chunks_fuel fuel n (drop n l)
  end.
Definition chunks {A} (n : nat) (l : list A) : list (list A) := chunks_fuel (length l) n l.

Fixpoint res_list {E A B} (f : A -> Result E B) (l : list A) : Result E (list B) :=
  match l with
  | [] => Ok []
  | a :: l => let? b := f a in let? bs := res_list f l in Ok (b :: bs)
  end.

Definition MAX_BATCH_SIZE : nat := 100.

(** [get_multiple_accounts_batch], then [GetMultipleAccountsBatch::into_iter]. *)
Definition get_multiple_accounts_batch (rpc : ArchRpc) (pubkeys : list Pubkey)
  : AnyRes (list (list (option AccountInfoWithPubkey))) :=
  res_list (fun chunk => from_arch (get_multiple_accounts rpc chunk))
    (chunks MAX_BATCH_SIZE pubkeys).

Definition into_iter (accounts : list (list (option AccountInfoWithPubkey)))
  : list AccountInfoWithPubkey :=
  mjoin (omap (fun o => o) <$> accounts).

Definition get_program_accounts_with {T} (rpc : ArchRpc) (program_id : Pubkey)
  (filters : option (list AccountFilter)) (filter_map : RpcAccount -> option T)
  : AnyRes (list (Pubkey * T)) :=
  let? accounts := from_arch (get_program_accounts rpc program_id filters) in
  Ok (omap (fun '(k, account) => pair k <$> filter_map account) accounts).

Definition get_program_accounts_pod {T} (p : Pod T) (rpc : ArchRpc) (program_id : Pubkey)
  (filters : option (list AccountFilter)) : AnyRes (list (Pubkey * T)) :=
  get_program_accounts_with rpc program_id filters
    (fun account => try_from_bytes p (ra_data account)).

(** Slicing the data of an account that is too short is a panic. *)
Definition get_pod_account {T} (p : Pod T) (rpc : ArchRpc) (k : Pubkey) : AnyRes T :=
  let? acc := with_context "failed to read account info" (from_arch (read_account_info rpc k)) in
  if (length (ra_data acc) <? size_of p)%nat then Panic
  else found "failed to deserialize account data"
         (try_from_bytes p (take (size_of p) (ra_data acc))).

(** [iter.collect::<HashMap<_, _>>()]: of equal keys the last one stays. *)
Definition collect_map {T} (l : list (Pubkey * T)) : gmap Pubkey T :=
  foldl (fun m '(k, x) => <[k := x]> m) ∅ l.

(** ** Filters *)

Definition market_filter : list AccountFilter := [DataSize (size_of Layout.market_pod)].
Definition supply_position_filter : list AccountFilter :=
  [DataSize (size_of supply_position_pod)].
Definition borrow_position_filter : list AccountFilter :=
  [DataSize (size_of borrow_position_pod)].
Definition global_config_filter : list AccountFilter := [DataSize (size_of global_config_pod)].

(** ** Token balances *)

Record TokenMint : Type := mkTokenMint { tm_mint : Pubkey; tm_decimals : Z }.

Section Tokens.
Context {CH : Chain} {AC : AccountCodec}.

(** [apl_token::state::Account::unpack_account_mint] *)
Variable unpack_account_mint : list Z -> option Pubkey.

Definition try_from_account_info_with_pubkey (a : AccountInfoWithPubkey) : AnyRes TokenMint :=
  if negb (bool_decide (ra_owner (ka_account a) = apl_token_id))
  then Err (Message "Account is not a token mint")
  else let? mint_acc := ok_or UnpackFailure (mint_of_bytes (ra_data (ka_account a))) in
       Ok (mkTokenMint (ka_key a) (mi_decimals mint_acc)).

Definition get_mints (rpc : ArchRpc) (pubkeys : list Pubkey) : AnyRes (gmap Pubkey TokenMint) :=
  let? accounts := get_multiple_accounts_batch rpc pubkeys in
  let? mints := res_list try_from_account_info_with_pubkey (into_iter accounts) in
  Ok (collect_map ((fun m => (tm_mint m, m)) <$> mints)).

Definition unpack_mint_balance (data : list Z) : option (Pubkey * Z) :=
  let balance := if (72 <=? length data)%nat then Some (le_val (slice 64 8 data)) else None in
  mint ← unpack_account_mint data;
  balance ← balance;
  Some (mint, balance).

Definition get_balances (rpc : ArchRpc) (owner : Pubkey) (mints : list TokenMint)
  : AnyRes (gmap Pubkey Z) :=
  let atas := (fun m => get_associated_token_address owner (tm_mint m)) <$> mints in
  let? accounts := get_multiple_accounts_batch rpc atas in
  Ok (collect_map (omap (fun a => unpack_mint_balance (ra_data (ka_account a)))
                     (into_iter accounts))).

Definition get_all_balances (rpc : ArchRpc) (owner : Pubkey) : AnyRes (gmap Pubkey Z) :=
  let? accounts := get_program_accounts_with rpc apl_token_id
                     (Some [DataContent 32 owner])
                     (fun acc => unpack_mint_balance (ra_data acc)) in
  Ok (collect_map (snd <$> accounts)).
End Tokens.
