(* ===== verification/ReadClient.v ===== *)
(** * What the client remembers of the chain

    [autara-client/src/client/read.rs] (the trait [AutaraReadClient] and the queries built on
    it), [client/single_thread_client.rs] (Module [Single]: a cache that its owner reloads)
    and [client/shared_autara_state.rs] (Module [Shared]: a cache that a task reloads while
    others read it).  Both keep the markets, the positions, the accounts of the oracles and
    the global configuration, and bring the interest of each market up to date when they load
    it.  [now] is [get_unix_timestamp()]. *)
From stdpp Require Import gmap.
From Stdlib Require Import String.
From S2P Require Import Prelude.
From S2P Require Import Errors.
From S2P Require Import Monad.
From S2P Require Import FixedPoint.
From S2P Require Import PodOption.
From S2P Require Import Pda.
From S2P Require Import Oracle.
From S2P Require Import GlobalConfig.
From S2P Require Import MarketConfig.
From S2P Require Import SupplyPosition.
From S2P Require Import BorrowPosition.
From S2P Require Import CollateralVault.
From S2P Require Import SupplyVault.
From S2P Require Import Market.
From S2P Require Import MarketWrapper.
From S2P Require Import Accounts.
From S2P Require Import IxBuilders.
From S2P Require Import Layout.
From S2P Require Import RpcExt.
#[local] Open Scope string_scope.
#[local] Open Scope Z_scope.

(** [From<&AccountInfoWithPubkey> for AccountView] *)
Definition view_of (a : AccountInfoWithPubkey) : AccountView :=
  mkAccountView (ka_key a) (ra_data (ka_account a)) (ra_owner (ka_account a)).

Notation OracleMap := (gmap Pubkey AccountInfoWithPubkey).

(** [for acc in accs { oracle_map.insert(acc.key, acc) }] *)
Definition insert_accounts (accs : list AccountInfoWithPubkey) (m : OracleMap) : OracleMap :=
  foldl (fun m a => <[ka_key a := a]> m) m accs.

(** [for (key, account) in l { map.insert(key, account) }] *)
Definition insert_all {T} (l : list (Pubkey * T)) (m : gmap Pubkey T) : gmap Pubkey T :=
  foldl (fun m '(k, x) => <[k := x]> m) m l.

(** [GlobalConfig::default()] *)
Definition default_config : GlobalConfig :=
  mkGlobalConfig (replicate 32 0) (mkPodOption (replicate 32 0)) (replicate 32 0) 0.

Section Ops.
Context {FX : FixedCrate} {PC : PdaCrate} {BC : OracleBuild}.

(** [inner_reload_market], and the same lines of [process_single_market]: the market after
    it, whether or not it succeeded. *)
Definition inner_reload_market (oracle_map : OracleMap) (unix_timestamp : Z)
  : STE Anyhow Market () :=
  let! market := st_get in
  let! (supply_oracle_id, collateral_oracle_id) := st_lift (get_oracle_keys market) in
  let! supply_oracle := st_lift
    (found "supply oracle not found" (oracle_map !! supply_oracle_id)) in
  let! collateral_oracle := st_lift
    (found "collateral oracle not found" (oracle_map !! collateral_oracle_id)) in
  let! w := st_lift (from_lending
    (try_new market (view_of supply_oracle) (view_of collateral_oracle) unix_timestamp)) in
  fun m => let '(r, w') := MarketWrapper.sync_clock unix_timestamp w in
           (from_lending r, MarketWrapper.market w').

(** The oracle keys of some markets, two for each. *)
Definition oracle_keys_of (markets : list Market) : AnyRes (list Pubkey) :=
  let? keys := res_list get_oracle_keys markets in
  Ok (mjoin ((fun '(s, c) => [s; c]) <$> keys)).

(** [load_market_wrapper] and [load_market_wrapper_maybe_stale] of both caches.  [.ok()]
    forgets an error, not a panic. *)
Definition load_market_wrapper (oracle_map : OracleMap) (now : Z) (market : Market)
  : Result () MarketWrapper :=
  let? (supply_oracle_id, collateral_oracle_id) := get_oracle_keys market in
  let? supply_oracle := ok_or tt (oracle_map !! supply_oracle_id) in
  let? collateral_oracle := ok_or tt (oracle_map !! collateral_oracle_id) in
  map_err tt (try_new market (view_of supply_oracle) (view_of collateral_oracle) now).

Definition load_market_wrapper_maybe_stale (oracle_map : OracleMap) (now : Z) (market : Market)
  : Result () (MarketWrapper * bool) :=
  let? (supply_oracle_id, collateral_oracle_id) := get_oracle_keys market in
  let? supply_oracle := ok_or tt (oracle_map !! supply_oracle_id) in
  let? collateral_oracle := ok_or tt (oracle_map !! collateral_oracle_id) in
  map_err tt (try_new_or_unchecked market (view_of supply_oracle) (view_of collateral_oracle) now).

End Ops.

(** The value of a query that found something. *)
Definition ok_option {E A} (r : Result E A) : option A :=
  match r with Ok a => Some a | _ => None end.

(** ** The trait *)

(** [AutaraReadClient]: what a cache answers. *)
Record ReadClient : Type := mkReadClient {
  all_markets : list (Pubkey * MarketWrapper);
  all_markets_maybe_stale : list (Pubkey * MarketWrapper * bool);
  all_borrow_position : list (Pubkey * BorrowPosition);
  all_supply_position : list (Pubkey * SupplyPosition);
  get_market_wrapper : Pubkey -> option MarketWrapper;
  borrow_position_of : Pubkey -> Pubkey -> Pubkey * option BorrowPosition;
  supply_position_of : Pubkey -> Pubkey -> Pubkey * option SupplyPosition;
  get_global_config : option GlobalConfig }.

Record SupplyPositionInfo : Type := mkSupplyInfo {
  si_supply_position : SupplyPosition; si_owned_atoms : Z }.
Record BorrowPositionInfo : Type := mkBorrowInfo {
  bi_borrow_position : BorrowPosition; bi_health : BorrowPositionHealth }.
Record UserPositions : Type := mkUserPositions {
  supply_positions : list SupplyPositionInfo;
  borrow_positions : list BorrowPositionInfo }.

(** [BorrowPositionHealth::default()] *)
Definition default_health : BorrowPositionHealth := mkHealth (IFP 0) 0 0 (IFP 0) (IFP 0).

Section Trait.
Context {FX : FixedCrate}.

Definition get_borrow_position_health (self : ReadClient) (market authority : Pubkey)
  : AnyRes BorrowPositionHealth :=
  let? borrow_position := found "borrow position not found"
                            (snd (borrow_position_of self market authority)) in
  let? market_w := found "market not found" (get_market_wrapper self market) in
  from_lending (MarketWrapper.borrow_position_health market_w borrow_position).

Definition supply_info (market : MarketWrapper) (p : SupplyPosition) : SupplyPositionInfo :=
  mkSupplyInfo p
    (default 0 (ok_option (supply_position_info (MarketWrapper.market market) p))).
Definition borrow_info (market : MarketWrapper) (p : BorrowPosition) : BorrowPositionInfo :=
  mkBorrowInfo p
    (default default_health (ok_option (MarketWrapper.borrow_position_health market p))).

Definition user_positions (self : ReadClient) (authority : Pubkey) : UserPositions :=
  foldl (fun acc '(market_key, market) =>
           let acc := match snd (supply_position_of self market_key authority) with
                      | Some p => mkUserPositions (supply_positions acc ++ [supply_info market p])
                                    (borrow_positions acc)
                      | None => acc
                      end in
           match snd (borrow_position_of self market_key authority) with
           | Some p => mkUserPositions (supply_positions acc)
                         (borrow_positions acc ++ [borrow_info market p])
           | None => acc
           end)
    (mkUserPositions [] []) (all_markets self).
End Trait.

(** ** The cache of one thread *)

Module Single.

(** [AutaraReadClientImpl]; the node and the program are arguments of the operations. *)
Record AutaraReadClientImpl : Type := mkClient {
  market_map : gmap Pubkey Market;
  supply_position_map : gmap Pubkey SupplyPosition;
  borrow_position_map : gmap Pubkey BorrowPosition;
  oracle_map : OracleMap;
  global_config_map : GlobalConfig }.

Definition new : AutaraReadClientImpl := mkClient ∅ ∅ ∅ ∅ default_config.

Definition put_markets x (c : AutaraReadClientImpl) : AutaraReadClientImpl :=
  mkClient x (supply_position_map c) (borrow_position_map c) (oracle_map c) (global_config_map c).
Definition put_supply x (c : AutaraReadClientImpl) : AutaraReadClientImpl :=
  mkClient (market_map c) x (borrow_position_map c) (oracle_map c) (global_config_map c).
Definition put_borrow x (c : AutaraReadClientImpl) : AutaraReadClientImpl :=
  mkClient (market_map c) (supply_position_map c) x (oracle_map c) (global_config_map c).
Definition put_oracles x (c : AutaraReadClientImpl) : AutaraReadClientImpl :=
  mkClient (market_map c) (supply_position_map c) (borrow_position_map c) x (global_config_map c).
Definition put_config x (c : AutaraReadClientImpl) : AutaraReadClientImpl :=
  mkClient (market_map c) (supply_position_map c) (borrow_position_map c) (oracle_map c) x.

Section Ops.
Context {FX : FixedCrate} {PC : PdaCrate} {BC : OracleBuild}.
Variable autara_program_id : Pubkey.

Definition load_program_accounts_pod {T} (p : Pod T) (rpc : ArchRpc)
  (filters : option (list AccountFilter)) : AnyRes (gmap Pubkey T) :=
  let? accounts := with_context "failed to load program accounts"
                     (get_program_accounts_pod p rpc autara_program_id filters) in
  Ok (collect_map accounts).

(** The four requests of [try_join!] run together; when several fail, the error is that of
    one of them, here of the first. *)
Definition reload (rpc : ArchRpc) (now : Z) : STE Anyhow AutaraReadClientImpl () :=
  let global_config_key := fst (find_global_config_pda autara_program_id) in
  let! markets := st_lift (load_program_accounts_pod market_pod rpc (Some market_filter)) in
  let! supply := st_lift
    (load_program_accounts_pod supply_position_pod rpc (Some supply_position_filter)) in
  let! borrow := st_lift
    (load_program_accounts_pod borrow_position_pod rpc (Some borrow_position_filter)) in
  let! global := st_lift (get_pod_account global_config_pod rpc global_config_key) in
  st_modify (put_markets markets) ;;;
  st_modify (put_supply supply) ;;;
  st_modify (put_borrow borrow) ;;;
  st_modify (put_config global) ;;;
  let! oracles := st_lift (oracle_keys_of (snd <$> map_to_list markets)) in
  let! accs := st_lift (with_context "failed to fetch oracle accounts"
                          (get_multiple_accounts_batch rpc oracles)) in
  st_modify (fun c => put_oracles (insert_accounts (into_iter accs) (oracle_map c)) c) ;;;
  st_modify (fun c => put_markets
    ((fun market => snd (inner_reload_market (oracle_map c) now market)) <$> market_map c) c).

Definition reload_market (rpc : ArchRpc) (now : Z) (market_key : Pubkey)
  : STE Anyhow AutaraReadClientImpl () :=
  let! market := st_lift (with_context "failed to deserialize lending market account"
                            (get_pod_account market_pod rpc market_key)) in
  let! (supply_oracle_id, collateral_oracle_id) := st_lift (get_oracle_keys market) in
  let! accs := st_lift
    (get_multiple_accounts_batch rpc [supply_oracle_id; collateral_oracle_id]) in
  st_modify (fun c => put_oracles (insert_accounts (into_iter accs) (oracle_map c)) c) ;;;
  let! oracles := st_gets oracle_map in
  let '(r, market) := inner_reload_market oracles now market in
  let! _ := st_lift r in
  st_modify (fun c => put_markets (<[market_key := market]> (market_map c)) c).

Definition reload_supply_position (rpc : ArchRpc) (supply_position_key : Pubkey)
  : STE Anyhow AutaraReadClientImpl () :=
  let! supply_position := st_lift (with_context "failed to deserialize lending position account"
                            (get_pod_account supply_position_pod rpc supply_position_key)) in
  st_modify (fun c => put_supply
    (<[supply_position_key := supply_position]> (supply_position_map c)) c).

Definition reload_borrow_position (rpc : ArchRpc) (borrow_position_key : Pubkey)
  : STE Anyhow AutaraReadClientImpl () :=
  let! borrow_position := st_lift (with_context "failed to deserialize borrow position account"
                            (get_pod_account borrow_position_pod rpc borrow_position_key)) in
  st_modify (fun c => put_borrow
    (<[borrow_position_key := borrow_position]> (borrow_position_map c)) c).

(** [let _ = op.await]: an error is ignored, what was changed stays. *)
Definition ignore {S} (op : STE Anyhow S ()) : STE Anyhow S () :=
  fun s => match op s with
           | (Panic, s) => (Panic, s)
           | (_, s) => (Ok tt, s)
           end.

Definition reload_authority_accounts_for_market (rpc : ArchRpc) (now : Z)
  (market_key authority : Pubkey) : STE Anyhow AutaraReadClientImpl () :=
  reload_market rpc now market_key ;;;
  ignore (reload_supply_position rpc
            (fst (find_supply_position_pda autara_program_id market_key authority))) ;;;
  ignore (reload_borrow_position rpc
            (fst (find_borrow_position_pda autara_program_id market_key authority))).

(** [unwrap_or_default]: without an answer the configuration is the default one. *)
Definition reload_global_config (rpc : ArchRpc) : STE Anyhow AutaraReadClientImpl () :=
  fun c => match get_pod_account global_config_pod rpc
                   (fst (find_global_config_pda autara_program_id)) with
           | Ok g => (Ok tt, put_config g c)
           | Err _ => (Ok tt, put_config default_config c)
           | Panic => (Panic, c)
           end.

Definition load_markets (rpc : ArchRpc) : STE Anyhow AutaraReadClientImpl () :=
  let! markets := st_lift (with_context "failed to load autara markets"
    (load_program_accounts_pod market_pod rpc (Some market_filter))) in
  st_modify (put_markets markets).

Definition load_supply_positions (rpc : ArchRpc) : STE Anyhow AutaraReadClientImpl () :=
  let! supply := st_lift (with_context "failed to load autara supply positions"
    (load_program_accounts_pod supply_position_pod rpc (Some supply_position_filter))) in
  st_modify (put_supply supply).

Definition load_borrow_positions (rpc : ArchRpc) : STE Anyhow AutaraReadClientImpl () :=
  let! borrow := st_lift (with_context "failed to load autara borrow positions"
    (load_program_accounts_pod borrow_position_pod rpc (Some borrow_position_filter))) in
  st_modify (put_borrow borrow).

Definition all_tokens (self : AutaraReadClientImpl) : gset Pubkey :=
  list_to_set (mjoin ((fun '(_, m) => [ti_mint (collateral_token_info m);
                                       ti_mint (supply_token_info m)])
                        <$> map_to_list (market_map self))).

(** [impl AutaraReadClient for AutaraReadClientImpl], at some time. *)
Definition read_client (now : Z) (self : AutaraReadClientImpl) : ReadClient := {|
  all_markets :=
    omap (fun '(k, m) => pair k <$> ok_option (load_market_wrapper (oracle_map self) now m))
      (map_to_list (market_map self));
  all_markets_maybe_stale :=
    omap (fun '(k, m) => (fun '(w, stale) => (k, w, stale)) <$>
                         ok_option (load_market_wrapper_maybe_stale (oracle_map self) now m))
      (map_to_list (market_map self));
  all_borrow_position := map_to_list (borrow_position_map self);
  all_supply_position := map_to_list (supply_position_map self);
  get_market_wrapper := fun market =>
    m ← market_map self !! market; ok_option (load_market_wrapper (oracle_map self) now m);
  borrow_position_of := fun market authority =>
    let k := fst (find_borrow_position_pda autara_program_id market authority) in
    (k, borrow_position_map self !! k);
  supply_position_of := fun market authority =>
    let k := fst (find_supply_position_pda autara_program_id market authority) in
    (k, supply_position_map self !! k);
  get_global_config := Some (global_config_map self) |}.

End Ops.
End Single.

(** ** The shared cache *)

Module Shared.

(** [AutaraSharedState]; a [DashMap] is a map whose operations are atomic. *)
Record AutaraSharedState : Type := mkState {
  market_map : gmap Pubkey Market;
  supply_position_map : gmap Pubkey SupplyPosition;
  borrow_position_map : gmap Pubkey BorrowPosition;
  oracle_map : OracleMap;
  mint_decimals : gmap Pubkey Z;
  global_config : GlobalConfig }.

Definition new : AutaraSharedState := mkState ∅ ∅ ∅ ∅ ∅ default_config.

Definition get_token_decimals (self : AutaraSharedState) (mint : Pubkey) : option Z :=
  mint_decimals self !! mint.

Definition put_market k m (s : AutaraSharedState) : AutaraSharedState :=
  mkState (<[k := m]> (market_map s)) (supply_position_map s) (borrow_position_map s)
    (oracle_map s) (mint_decimals s) (global_config s).
Definition put_positions sp bp g (s : AutaraSharedState) : AutaraSharedState :=
  mkState (market_map s) (insert_all sp (supply_position_map s))
    (insert_all bp (borrow_position_map s)) (oracle_map s) (mint_decimals s) g.
Definition put_oracles accs (s : AutaraSharedState) : AutaraSharedState :=
  mkState (market_map s) (supply_position_map s) (borrow_position_map s)
    (insert_accounts accs (oracle_map s)) (mint_decimals s) (global_config s).
Definition put_decimals d (s : AutaraSharedState) : AutaraSharedState :=
  mkState (market_map s) (supply_position_map s) (borrow_position_map s) (oracle_map s)
    d (global_config s).

(** [self.mint_decimals.entry(mint).or_insert(decimals)] *)
Definition or_insert (t : TokenInfo) (d : gmap Pubkey Z) : gmap Pubkey Z :=
  match d !! ti_mint t with Some _ => d | None => <[ti_mint t := ti_decimals t]> d end.

Section Ops.
Context {FX : FixedCrate} {PC : PdaCrate} {BC : OracleBuild}.
Variable autara_program_id : Pubkey.

Definition process_single_market (key : Pubkey) (market : Market) (ts : Z)
  : STE Anyhow AutaraSharedState () :=
  st_modify (fun s => put_decimals
    (or_insert (collateral_token_info market)
       (or_insert (supply_token_info market) (mint_decimals s))) s) ;;;
  let! oracles := st_gets oracle_map in
  let '(r, market) := inner_reload_market oracles ts market in
  let! _ := st_lift r in
  st_modify (put_market key market).

(** The markets one after the other; an error is logged. *)
Fixpoint process_markets (markets : list (Pubkey * Market)) (ts : Z)
  : STE Anyhow AutaraSharedState () :=
  match markets with
  | [] => st_ret tt
  | (key, market) :: markets =>
    Single.ignore (process_single_market key market ts) ;;; process_markets markets ts
  end.

Definition reload (rpc : ArchRpc) (now : Z) : STE Anyhow AutaraSharedState () :=
  let global_pda := fst (find_global_config_pda autara_program_id) in
  let! supply := st_lift (get_program_accounts_pod supply_position_pod rpc autara_program_id
                            (Some supply_position_filter)) in
  let! borrow := st_lift (get_program_accounts_pod borrow_position_pod rpc autara_program_id
                            (Some borrow_position_filter)) in
  let! markets := st_lift (get_program_accounts_pod market_pod rpc autara_program_id
                             (Some market_filter)) in
  let! global_config := st_lift (get_pod_account global_config_pod rpc global_pda) in
  st_modify (put_positions supply borrow global_config) ;;;
  let! oracle_keys := st_lift (oracle_keys_of (snd <$> markets)) in
  let! accs := st_lift (with_context "failed to fetch oracle accounts"
                          (get_multiple_accounts_batch rpc oracle_keys)) in
  st_modify (put_oracles (into_iter accs)) ;;;
  process_markets markets now.

(** [impl AutaraReadClient for AutaraSharedState], at some time. *)
Definition read_client (now : Z) (self : AutaraSharedState) : ReadClient := {|
  all_markets :=
    omap (fun '(k, m) => pair k <$> ok_option (load_market_wrapper (oracle_map self) now m))
      (map_to_list (market_map self));
  all_markets_maybe_stale :=
    omap (fun '(k, m) => (fun '(w, stale) => (k, w, stale)) <$>
                         ok_option (load_market_wrapper_maybe_stale (oracle_map self) now m))
      (map_to_list (market_map self));
  all_borrow_position := map_to_list (borrow_position_map self);
  all_supply_position := map_to_list (supply_position_map self);
  get_market_wrapper := fun market =>
    m ← market_map self !! market; ok_option (load_market_wrapper (oracle_map self) now m);
  borrow_position_of := fun market authority =>
    let k := fst (find_borrow_position_pda autara_program_id market authority) in
    (k, borrow_position_map self !! k);
  supply_position_of := fun market authority =>
    let k := fst (find_supply_position_pda autara_program_id market authority) in
    (k, supply_position_map self !! k);
  get_global_config := Some (global_config self) |}.

End Ops.
End Shared.
