(* ===== verification/ReadClientFacts.v ===== *)
(** * The caches of the client show the chain

    [answers] is what is assumed of the node: what it answers is what the chain holds.  After
    a successful reload a cache holds exactly the accounts of the program, with the interest
    of the markets accrued, and a transaction that is built from it is one that the program
    accepts. *)
From stdpp Require Import gmap.
From S2P Require Import Prelude.
From S2P Require Import Errors.
From S2P Require Import Monad.
From S2P Require Import FixedPoint.
From S2P Require Import SharesTracker.
From S2P Require Import InterestRatePerSecond.
From S2P Require Import Bytes.
From S2P Require Import InterestRateCurve.
From S2P Require Import Pda.
From S2P Require Import OracleRate.
From S2P Require Import Oracle.
From S2P Require Import GlobalConfig.
From S2P Require Import MarketConfig.
From S2P Require Import SupplyPosition.
From S2P Require Import BorrowPosition.
From S2P Require Import CollateralVault.
From S2P Require Import SupplyVault.
From S2P Require Import Market.
From S2P Require Import MarketWrapper.
From S2P Require Import ProgramErrors.
From S2P Require Import Accounts.
From S2P Require Import Program.
From S2P Require Import Borsh.
From S2P Require Import InstructionCodec.
From S2P Require Import IxBuilders.
From S2P Require Import TxBuilder.
From S2P Require Import TxFacts.
From S2P Require Import Layout.
From S2P Require Import RpcExt.
From S2P Require Import ReadClient.
From S2P Require Import Events.

(** ** The node *)

Notation ChainState := (gmap Pubkey RpcAccount).

Definition matches (a : RpcAccount) (f : AccountFilter) : Prop :=
  match f with
  | DataSize n => length (ra_data a) = n
  | DataContent off bytes => slice off (length bytes) (ra_data a) = bytes
  end.

Record answers (rpc : ArchRpc) (chain : ChainState) : Prop := {
  answers_multiple ks r : get_multiple_accounts rpc ks = Ok r ->
    r = (fun k => mkKeyed k <$> chain !! k) <$> ks;
  answers_program program fs r : get_program_accounts rpc program (Some fs) = Ok r ->
    NoDup (fst <$> r) /\
    forall k a, (k, a) ∈ r <->
                chain !! k = Some a /\ ra_owner a = program /\ Forall (matches a) fs;
  answers_read k a : read_account_info rpc k = Ok a -> chain !! k = Some a }.

(** The accounts of a program that are read as one kind. *)
Definition accounts_of {T} (p : Pod T) (program : Pubkey) (chain : ChainState) : gmap Pubkey T :=
  omap (fun a => if decide (ra_owner a = program) then try_from_bytes p (ra_data a) else None)
    chain.

Lemma collect_map_snoc {T} (l : list (Pubkey * T)) k x :
  collect_map (l ++ [(k, x)]) = <[k := x]> (collect_map l).
Proof. unfold collect_map. by rewrite foldl_app. Qed.

Lemma insert_all_collect {T} (l : list (Pubkey * T)) m : insert_all l m = collect_map l ∪ m.
Proof.
  induction l as [| [k x] l IH] using rev_ind.
  - cbn. by rewrite (left_id_L ∅ (∪)).
  - unfold insert_all in *. rewrite foldl_app, IH, collect_map_snoc. cbn.
    by rewrite insert_union_l.
Qed.

Lemma collect_map_lookup {T} (l : list (Pubkey * T)) k x :
  NoDup (fst <$> l) -> collect_map l !! k = Some x <-> (k, x) ∈ l.
Proof.
  induction l as [| [k' y] l IH] using rev_ind; intros Hn.
  - cbn. rewrite lookup_empty. set_solver.
  - rewrite collect_map_snoc. rewrite fmap_app, list.NoDup_app in Hn. destruct Hn as (Hn & Hd & _).
    rewrite elem_of_app, list_elem_of_singleton, <- (IH Hn).
    destruct (decide (k = k')) as [-> | Hk].
    + rewrite lookup_insert_eq. split; [naive_solver |]. intros [H | [= ->]]; [| done].
      apply (IH Hn) in H. exfalso. apply (Hd k'); [| cbn; set_solver].
      apply list_elem_of_fmap. by exists (k', x).
    + rewrite lookup_insert_ne by done. naive_solver.
Qed.

(** A map over keyed values that drops some of them. *)
Section Keyed.
Context {A B : Type} (f : A -> option B).
Notation keyed := (fun '(k, a) => pair k <$> f a : option (Pubkey * B)).

Lemma elem_of_keyed (l : list (Pubkey * A)) k y :
  (k, y) ∈ omap keyed l <-> exists a, (k, a) ∈ l /\ f a = Some y.
Proof.
  rewrite list_elem_of_omap. split.
  - intros ([k' a] & Ha & H). exists a. destruct (f a); [by injection H as -> -> | done].
  - intros (a & Ha & H). exists (k, a). by rewrite H.
Qed.

Lemma keyed_NoDup (l : list (Pubkey * A)) :
  NoDup (fst <$> l) -> NoDup (fst <$> omap keyed l).
Proof.
  induction l as [| [k a] l IH]; cbn; intros Hn; [constructor |].
  apply list.NoDup_cons in Hn as [Hk Hn]. destruct (f a); [| auto]. cbn.
  apply list.NoDup_cons. split; [| auto]. intros Hin. apply Hk.
  apply list_elem_of_fmap in Hin as ([k' y] & -> & (a' & Ha & _)%elem_of_keyed).
  apply list_elem_of_fmap. by exists (k', a').
Qed.

Lemma collect_keyed (l : list (Pubkey * A)) :
  NoDup (fst <$> l) -> collect_map (omap keyed l) = omap f (collect_map l).
Proof.
  intros Hn. apply map_eq. intros k. apply option_eq. intros y.
  rewrite collect_map_lookup by by apply keyed_NoDup. rewrite elem_of_keyed, lookup_omap, bind_Some.
  by setoid_rewrite (fun x => collect_map_lookup l k x Hn).
Qed.
End Keyed.

Section Node.
Context (rpc : ArchRpc) (chain : ChainState).
Hypothesis Hrpc : answers rpc chain.

Lemma program_accounts_pod {T} (p : Pod T) program r :
  get_program_accounts_pod p rpc program (Some [DataSize (size_of p)]) = Ok r ->
  NoDup (fst <$> r) /\ collect_map r = accounts_of p program chain.
Proof.
  unfold get_program_accounts_pod, get_program_accounts_with. intros H.
  apply res_bind_ok in H as (l & H & [= <-]). unfold from_arch in H.
  destruct (get_program_accounts _ _ _) as [l' | |] eqn:E; try discriminate. injection H as ->.
  destruct (answers_program _ _ Hrpc _ _ _ E) as [Hn Hl].
  pose proof (keyed_NoDup (fun a => try_from_bytes p (ra_data a)) l Hn) as Hk.
  split; [done |]. apply map_eq. intros k. apply option_eq. intros x.
  rewrite collect_map_lookup, elem_of_keyed by done. unfold accounts_of.
  rewrite lookup_omap, bind_Some. split; intros (a & Ha & Hx); exists a.
  - apply Hl in Ha as (Hc & Ho & _). by rewrite decide_True.
  - case_decide; [| done]. split; [| done]. apply Hl. split_and!; try done.
    repeat constructor. by eapply try_read_inv.
Qed.

Lemma load_accounts {T} (p : Pod T) program r :
  Single.load_program_accounts_pod program p rpc (Some [DataSize (size_of p)]) = Ok r ->
  r = accounts_of p program chain.
Proof.
  unfold Single.load_program_accounts_pod, with_context. intros H.
  apply res_bind_ok in H as (l & H & [= <-]).
  destruct (get_program_accounts_pod _ _ _ _) eqn:E; try discriminate. injection H as ->.
  by apply program_accounts_pod in E as [_ E].
Qed.

Lemma pod_account {T} (p : Pod T) k x :
  get_pod_account p rpc k = Ok x ->
  exists a, chain !! k = Some a /\ (size_of p <= length (ra_data a))%nat /\
            try_from_bytes p (take (size_of p) (ra_data a)) = Some x.
Proof.
  unfold get_pod_account, with_context, from_arch. intros H. apply res_bind_ok in H as (a & Ha & H).
  destruct (read_account_info rpc k) as [a' | |] eqn:E; try discriminate. injection Ha as ->.
  destruct (Nat.ltb_spec (length (ra_data a)) (size_of p)); [done |].
  apply ok_or_ok in H. exists a. split; [by eapply answers_read | done].
Qed.

Lemma chunks_concat {A} n fuel (l : list A) :
  (0 < n)%nat -> (length l <= fuel)%nat -> mjoin (chunks_fuel fuel n l) = l.
Proof.
  intros Hn. revert l. induction fuel as [| fuel IH]; intros [| x l] Hl; try done; cbn in Hl.
  - lia.
  - destruct n as [| n]; [lia |]. cbn. rewrite IH; [by rewrite take_drop |].
    rewrite length_drop. lia.
Qed.

Lemma batch_accounts ks r :
  get_multiple_accounts_batch rpc ks = Ok r ->
  into_iter r = omap (fun k => mkKeyed k <$> chain !! k) ks.
Proof.
  unfold get_multiple_accounts_batch. intros H.
  rewrite <- (chunks_concat MAX_BATCH_SIZE (length ks) ks) at 1 by (unfold MAX_BATCH_SIZE; lia).
  fold (chunks MAX_BATCH_SIZE ks). revert r H.
  induction (chunks MAX_BATCH_SIZE ks) as [| c cs IH]; cbn [res_list]; intros r H.
  - by injection H as <-.
  - apply res_bind_ok in H as (b & Hb & H). apply res_bind_ok in H as (bs & Hbs & [= <-]).
    unfold from_arch in Hb. destruct (get_multiple_accounts rpc c) eqn:E; try discriminate.
    injection Hb as ->. apply (answers_multiple _ _ Hrpc) in E as ->.
    unfold into_iter in *. cbn. rewrite omap_app. f_equal; [| exact (IH _ Hbs)].
    clear. induction c as [| k c IH]; cbn; [done |]. destruct (chain !! k); cbn; by rewrite IH.
Qed.

End Node.

Lemma insert_accounts_lookup (chain : ChainState) ks m k :
  insert_accounts (omap (fun k => mkKeyed k <$> chain !! k) ks) m !! k
  = if decide (k ∈ ks) then (mkKeyed k <$> chain !! k) ∪ m !! k else m !! k.
Proof.
  unfold insert_accounts. induction ks as [| k' ks IH] using rev_ind.
  - cbn. case_decide; [set_solver | done].
  - rewrite omap_app, foldl_app. cbn. destruct (chain !! k') as [a |] eqn:Ea; cbn.
    + destruct (decide (k = k')) as [-> | Hk].
      * rewrite lookup_insert_eq, decide_True by set_solver. rewrite Ea. cbn. by destruct (m !! k').
      * rewrite lookup_insert_ne by done. rewrite IH.
        destruct (decide (k ∈ ks)), (decide (k ∈ ks ++ [k'])); set_solver.
    + rewrite IH. destruct (decide (k = k')) as [-> | Hk].
      * rewrite Ea, (decide_True (P := k' ∈ ks ++ [k'])) by set_solver. cbn.
        case_decide; destruct (m !! k'); done.
      * destruct (decide (k ∈ ks)), (decide (k ∈ ks ++ [k'])); set_solver.
Qed.

(** ** What accruing interest leaves alone, also when it fails *)

Section Caches.
Context {FX : FixedCrate} {PC : PdaCrate} {BC : OracleBuild}.

Definition vault_keys (v : SupplyVault) : Pubkey * Pubkey * OracleConfig :=
  (SupplyVault.mint v, SupplyVault.vault v, SupplyVault.oracle_config v).

Lemma vault_sync_keeps_keys ts fee bps : keeps vault_keys (SupplyVault.sync_clock ts fee bps).
Proof.
  unfold SupplyVault.sync_clock. apply keeps_bind; [apply keeps_get |]. intros v.
  destruct (_ <? _); [| apply keeps_ret].
  repeat first [ apply keeps_bind; [| intros ?] | apply keeps_lift | by apply keeps_zoom
               | by apply keeps_modify ].
Qed.

Lemma sync_keeps_keys ts m : same_keys (snd (Market.sync_clock ts m)) m.
Proof.
  unfold Market.sync_clock, st_bind, st_get, zoom.
  pose proof (vault_sync_keeps_keys ts (lending_market_fee_fixed (config m))
    (MarketConfig.protocol_fee_share_in_bps (config m)) (supply_vault m)) as H.
  change (lget vault_lens m) with (supply_vault m).
  destruct (SupplyVault.sync_clock _ _ _ _) as [r v]. injection H as H1 H2 H3.
  cbn in H1, H2, H3 |- *. unfold same_keys, supply_mint, supply_vault_key. cbn.
  by rewrite H1, H2, H3.
Qed.

#[local] Arguments Market.sync_clock : simpl never.
#[local] Arguments MarketWrapper.sync_clock : simpl never.
#[local] Arguments inner_reload_market : simpl never.

Lemma try_new_sync now m a b w :
  try_new m a b now = Ok w ->
  MarketWrapper.market w = m /\
  MarketWrapper.sync_clock now w
  = (fst (Market.sync_clock now m), set_market (snd (Market.sync_clock now m)) w).
Proof.
  unfold try_new. intros E. apply res_bind_ok in E as (s & _ & E).
  apply res_bind_ok in E as (c & _ & [= <-]). unfold MarketWrapper.sync_clock, zoom. cbn.
  by destruct (Market.sync_clock now m).
Qed.

(** A market that was reloaded: it is the market of the chain, and when its oracles could be
    loaded its interest is accrued. *)
Lemma inner_reload_keys om now m : same_keys (snd (inner_reload_market om now m)) m.
Proof.
  unfold inner_reload_market, st_bind, st_get, st_lift. rewrite oracle_keys_ok. cbn.
  destruct (found _ (om !! supply_oracle_of m)) as [a | |]; cbn; [| done..].
  destruct (found _ (om !! collateral_oracle_of m)) as [b | |]; cbn; [| done..].
  destruct (try_new _ _ _ _) as [w | |] eqn:E; cbn; [| done..].
  apply (try_new_sync now) in E as [_ ->]. cbn. apply sync_keeps_keys.
Qed.

(** The rates of a market as the chain has them. *)
Definition rates_of (chain : ChainState) (now : Z) (m : Market) : option MarketWrapper :=
  s ← chain !! supply_oracle_of m;
  c ← chain !! collateral_oracle_of m;
  ok_option (try_new m (view_of (mkKeyed (supply_oracle_of m) s))
               (view_of (mkKeyed (collateral_oracle_of m) c)) now).

(** The market that a reload at some time stores. *)
Definition accrued (chain : ChainState) (now : Z) (m : Market) : Market :=
  match rates_of chain now m with
  | Some _ => snd (Market.sync_clock now m)
  | None => m
  end.

Lemma inner_reload_accrued om chain now m :
  om !! supply_oracle_of m = mkKeyed (supply_oracle_of m) <$> chain !! supply_oracle_of m ->
  om !! collateral_oracle_of m
    = mkKeyed (collateral_oracle_of m) <$> chain !! collateral_oracle_of m ->
  snd (inner_reload_market om now m) = accrued chain now m.
Proof.
  intros Hs Hc. unfold inner_reload_market, accrued, rates_of, st_bind, st_get, st_lift.
  rewrite oracle_keys_ok. cbn. rewrite Hs, Hc.
  destruct (chain !! supply_oracle_of m) as [a |]; cbn; [| done].
  destruct (chain !! collateral_oracle_of m) as [b |]; cbn; [| done].
  destruct (try_new _ _ _ _) as [w | |] eqn:E; cbn; [| done..].
  by apply (try_new_sync now) in E as [_ ->].
Qed.

(** ** Reloading *)

Context (rpc : ArchRpc) (chain : ChainState).
Hypothesis Hrpc : answers rpc chain.
Notation markets := (accounts_of market_pod id chain).
Notation supplies := (accounts_of supply_position_pod id chain).
Notation borrows := (accounts_of borrow_position_pod id chain).

Definition config_at : option GlobalConfig :=
  a ← chain !! fst (find_global_config_pda id);
  try_from_bytes global_config_pod (take (size_of global_config_pod) (ra_data a)).

Lemma config_loaded g :
  get_pod_account global_config_pod rpc (fst (find_global_config_pda id)) = Ok g ->
  config_at = Some g.
Proof. intros (a & Ha & _ & H)%(pod_account rpc chain Hrpc). unfold config_at. by rewrite Ha. Qed.

Lemma res_list_ok {E A B} (f : A -> Result E B) (g : A -> B) l :
  (forall a, f a = Ok (g a)) -> res_list f l = Ok (g <$> l).
Proof. intros Hf. induction l as [| a l IH]; cbn; [done |]. by rewrite Hf, IH. Qed.

Lemma oracle_keys_of_ok ms :
  oracle_keys_of ms = Ok (mjoin ((fun m => [supply_oracle_of m; collateral_oracle_of m]) <$> ms)).
Proof.
  unfold oracle_keys_of. rewrite (res_list_ok _ _ _ oracle_keys_ok). cbn.
  by rewrite <- list_fmap_compose.
Qed.

Lemma elem_of_oracle_keys m ms :
  m ∈ ms ->
  supply_oracle_of m ∈ mjoin ((fun m => [supply_oracle_of m; collateral_oracle_of m]) <$> ms) /\
  collateral_oracle_of m
    ∈ mjoin ((fun m => [supply_oracle_of m; collateral_oracle_of m]) <$> ms).
Proof.
  intros H. split; apply list_elem_of_join; eexists; (split; [| apply list_elem_of_fmap; by eexists]);
    set_solver.
Qed.

(** The accounts of some oracles after they were fetched, when none of them has gone. *)
Definition remembered (om : OracleMap) : Prop := forall k, is_Some (om !! k) -> is_Some (chain !! k).

Lemma fetched_oracles m keys accs om :
  with_context m (get_multiple_accounts_batch rpc keys) = Ok accs ->
  remembered om ->
  remembered (insert_accounts (into_iter accs) om) /\
  forall k, k ∈ keys ->
    insert_accounts (into_iter accs) om !! k = mkKeyed k <$> chain !! k.
Proof.
  intros H Hom. unfold with_context in H. destruct (get_multiple_accounts_batch _ _) eqn:E;
    try discriminate. injection H as ->. rewrite (batch_accounts rpc chain Hrpc _ _ E). split.
  - intros k. rewrite (insert_accounts_lookup chain). case_decide; [| apply Hom].
    destruct (chain !! k) eqn:Ek; [done |]. cbn. intros [x Hx]. rewrite <- Ek. apply Hom.
    destruct (om !! k); [done | discriminate].
  - intros k Hk. rewrite (insert_accounts_lookup chain), decide_True by done.
    destruct (chain !! k) eqn:Ek; cbn; [by destruct (om !! k) |].
    destruct (om !! k) eqn:Eo; [| done]. destruct (Hom k); [done | congruence].
Qed.

Definition oracles_loaded (om : OracleMap) : Prop :=
  forall k m, markets !! k = Some m ->
    om !! supply_oracle_of m = mkKeyed (supply_oracle_of m) <$> chain !! supply_oracle_of m /\
    om !! collateral_oracle_of m
      = mkKeyed (collateral_oracle_of m) <$> chain !! collateral_oracle_of m.

(** The single cache after a reload. *)
Record shows (now : Z) (c : Single.AutaraReadClientImpl) : Prop := {
  shows_markets : Single.market_map c = accrued chain now <$> markets;
  shows_supplies : Single.supply_position_map c = supplies;
  shows_borrows : Single.borrow_position_map c = borrows;
  shows_config : Some (Single.global_config_map c) = config_at;
  shows_oracles : oracles_loaded (Single.oracle_map c);
  shows_remembered : remembered (Single.oracle_map c) }.

Lemma single_reload now c c' :
  remembered (Single.oracle_map c) -> Single.reload id rpc now c = (Ok tt, c') -> shows now c'.
Proof.
  intros Hom H. unfold Single.reload, st_modify in H. run_inv.
  repeat match goal with
  | H : Single.load_program_accounts_pod _ _ _ _ = Ok _ |- _ =>
    apply (load_accounts rpc chain Hrpc) in H
  | H : get_pod_account _ _ _ = Ok _ |- _ => apply config_loaded in H
  | H : oracle_keys_of _ = Ok _ |- _ => rewrite oracle_keys_of_ok in H; injection H as H
  | H : with_context _ _ = Ok _ |- _ => apply fetched_oracles with (1 := H) in Hom as [Hr Hl]; clear H
  end.
  subst. split; cbn; try done.
  - apply map_eq. intros k. rewrite !lookup_fmap.
    destruct (markets !! k) as [m |] eqn:Ek; cbn; [| done]. f_equal.
    assert (Hm : m ∈ snd <$> map_to_list markets).
    { apply list_elem_of_fmap. exists (k, m). by rewrite elem_of_map_to_list. }
    apply elem_of_oracle_keys in Hm as [Hso Hco]. apply inner_reload_accrued; by apply Hl.
  - intros k m Ek.
    assert (Hm : m ∈ snd <$> map_to_list markets).
    { apply list_elem_of_fmap. exists (k, m). by rewrite elem_of_map_to_list. }
    apply elem_of_oracle_keys in Hm as [Hso Hco]. split; by apply Hl.
Qed.

(** *** The shared cache *)

(** The market that the shared cache stores: only one whose interest could be accrued. *)
Definition stored (now : Z) (m : Market) : option Market :=
  match rates_of chain now m, Market.sync_clock now m with
  | Some _, (Ok _, m') => Some m'
  | _, _ => None
  end.

Lemma inner_reload_stored om now m :
  om !! supply_oracle_of m = mkKeyed (supply_oracle_of m) <$> chain !! supply_oracle_of m ->
  om !! collateral_oracle_of m
    = mkKeyed (collateral_oracle_of m) <$> chain !! collateral_oracle_of m ->
  match inner_reload_market om now m with
  | (Ok _, m') => stored now m = Some m'
  | _ => stored now m = None
  end.
Proof.
  intros Hs Hc. unfold inner_reload_market, stored, rates_of, st_bind, st_get, st_lift.
  rewrite oracle_keys_ok. cbn. rewrite Hs, Hc.
  destruct (chain !! supply_oracle_of m) as [a |]; cbn; [| done].
  destruct (chain !! collateral_oracle_of m) as [b |]; cbn; [| done].
  destruct (try_new _ _ _ _) as [w | |] eqn:E; cbn; [| done..].
  apply (try_new_sync now) in E as [_ ->]. by destruct (Market.sync_clock now m) as [[] ?].
Qed.

Lemma process_markets_ok now l s s' :
  Shared.process_markets l now s = (Ok tt, s') ->
  (forall k m, (k, m) ∈ l ->
     Shared.oracle_map s !! supply_oracle_of m
       = mkKeyed (supply_oracle_of m) <$> chain !! supply_oracle_of m /\
     Shared.oracle_map s !! collateral_oracle_of m
       = mkKeyed (collateral_oracle_of m) <$> chain !! collateral_oracle_of m) ->
  Shared.market_map s'
    = insert_all (omap (fun '(k, m) => pair k <$> stored now m) l) (Shared.market_map s) /\
  Shared.oracle_map s' = Shared.oracle_map s /\
  Shared.supply_position_map s' = Shared.supply_position_map s /\
  Shared.borrow_position_map s' = Shared.borrow_position_map s /\
  Shared.global_config s' = Shared.global_config s.
Proof.
  revert s. induction l as [| [k m] l IH]; cbn [Shared.process_markets]; intros s H Hl.
  - unfold st_ret in H. by simplify_eq.
  - apply st_bind_ok in H as ([] & s1 & H1 & H).
    assert (Hs : Shared.market_map s1 = insert_all (option_list (pair k <$> stored now m))
                                          (Shared.market_map s) /\
      Shared.oracle_map s1 = Shared.oracle_map s /\
      Shared.supply_position_map s1 = Shared.supply_position_map s /\
      Shared.borrow_position_map s1 = Shared.borrow_position_map s /\
      Shared.global_config s1 = Shared.global_config s).
    { destruct (Hl k m) as [Hso Hco]; [set_solver |].
      pose proof (inner_reload_stored _ now m Hso Hco) as Hm.
      unfold Single.ignore, Shared.process_single_market, st_bind, st_modify, st_gets, st_lift in H1.
      cbn in H1. destruct (inner_reload_market _ now m) as [[[] | e |] m']; cbn in *; simplify_eq;
        rewrite Hm; done. }
    destruct Hs as (E1 & E2 & E3 & E4 & E5). apply IH in H; [| rewrite E2; set_solver].
    rewrite E1, E2, E3, E4, E5 in H. destruct H as [-> H]. split; [| done].
    cbn. by destruct (stored now m).
Qed.

(** The shared cache after a reload from a state: what it had and the chain has not, stays. *)
Record shared_shows (now : Z) (s s' : Shared.AutaraSharedState) : Prop := {
  ss_markets : Shared.market_map s' = omap (stored now) markets ∪ Shared.market_map s;
  ss_supplies : Shared.supply_position_map s' = supplies ∪ Shared.supply_position_map s;
  ss_borrows : Shared.borrow_position_map s' = borrows ∪ Shared.borrow_position_map s;
  ss_config : Some (Shared.global_config s') = config_at;
  ss_oracles : oracles_loaded (Shared.oracle_map s');
  ss_remembered : remembered (Shared.oracle_map s') }.

Lemma shared_reload now s s' :
  remembered (Shared.oracle_map s) -> Shared.reload id rpc now s = (Ok tt, s') ->
  shared_shows now s s'.
Proof.
  intros Hom H. unfold Shared.reload, st_modify in H. run_inv.
  repeat match goal with
  | H : get_program_accounts_pod _ _ _ _ = Ok _ |- _ =>
    apply (program_accounts_pod rpc chain Hrpc) in H; destruct H
  | H : get_pod_account _ _ _ = Ok _ |- _ => apply config_loaded in H
  | H : oracle_keys_of _ = Ok _ |- _ => rewrite oracle_keys_of_ok in H; injection H as H
  | H : with_context _ _ = Ok _ |- _ => apply fetched_oracles with (1 := H) in Hom as [Hr Hl]; clear H
  end.
  subst. match goal with H : Shared.process_markets ?l _ _ = _, Hc : collect_map ?l = markets,
    Hn : NoDup (fst <$> ?l) |- _ =>
    assert (Ho : forall k m, (k, m) ∈ l -> m ∈ snd <$> l)
      by (intros k m Hk; apply list_elem_of_fmap; by exists (k, m));
    assert (Hm : forall k m, markets !! k = Some m -> (k, m) ∈ l)
      by (intros k m Hk; rewrite <- Hc in Hk; by apply collect_map_lookup);
    apply process_markets_ok in H as (E1 & E2 & E3 & E4 & E5);
      [| intros k m Hk; destruct (elem_of_oracle_keys m _ (Ho k m Hk)); by split; apply Hl];
    rewrite insert_all_collect, (collect_keyed _ _ Hn), Hc in E1
  end. cbn in E1, E2, E3, E4, E5. rewrite insert_all_collect in E3; rewrite insert_all_collect in E4. split; try congruence.
  - intros k m Hk. rewrite E2. destruct (elem_of_oracle_keys m _ (Ho k m (Hm k m Hk))).
    split; by apply Hl.
  - by rewrite E2.
Qed.

End Caches.

(** * From the chain through the cache to the program

    The caches are the client that the builder of transactions asks
    ([TxBuilder.AutaraReadClient]): after a reload, a request that could be made from the
    chain itself can be made from the cache, and the program accepts it. *)

(** What the builder asks of a cache. *)
Definition builder_client (c : ReadClient) : AutaraReadClient := {|
  get_market := fun k => MarketWrapper.market <$> get_market_wrapper c k;
  get_supply_position := supply_position_of c;
  get_borrow_position := borrow_position_of c |}.

(** The market that a request is about. *)
Definition request_market (r : Request) : option Pubkey :=
  match r with
  | RCreateMarket _ _ _ _ _ | RCreateGlobalConfig _ _ _ _ | RUpdateGlobalConfig _ => None
  | RSupply k _ | RDepositCollateral k _ | RBorrow k _ | RRepay k _ | RWithdrawSupply k _
  | RWithdrawCollateral k _ | RUpdateConfig k _ | RAddWhitelistedLiquidator k _
  | RRemoveWhitelistedLiquidator k _ | RLiquidate k _ _ _ _ | RBeginCapitalSweep k _
  | RSettleCapitalSweep k _ _ _ | RRedeemCuratorFees k | RRedeemProtocolFees k
  | RBorrowDeposit k _ | RWithdrawRepay k _ | RSocializeLoss k _ | RDonateSupply k _ => Some k
  end.

(** A client that knows the market of a request can make the request. *)
Lemma requested_mono {PC : PdaCrate} {CH : Chain} {AC : AccountCodec}
  (C1 C2 : AutaraReadClient) authority A r ix ks :
  (forall k m, request_market r = Some k -> known (RC := C1) A k m -> known (RC := C2) A k m) ->
  (forall k, fst (get_supply_position (AutaraReadClient := C1) k authority)
             = fst (get_supply_position (AutaraReadClient := C2) k authority)) ->
  (forall k, fst (get_borrow_position (AutaraReadClient := C1) k authority)
             = fst (get_borrow_position (AutaraReadClient := C2) k authority)) ->
  requested (RC := C1) authority A r ix ks -> requested (RC := C2) authority A r ix ks.
Proof.
  intros Hk Hs Hb H. unfold my_supply, my_borrow in *.
  destruct H; cbn in Hk; unfold my_supply, my_borrow in *; rewrite ?Hs, ?Hb in *;
    econstructor; try eassumption; try (eapply Hk; [reflexivity | eassumption]);
    unfold my_supply, my_borrow; eassumption.
Qed.

Lemma union_dominated {A} (m1 m2 : gmap Pubkey A) : dom m2 ⊆ dom m1 -> m1 ∪ m2 = m1.
Proof.
  intros H. apply map_eq. intros k. rewrite lookup_union. specialize (H k).
  rewrite !elem_of_dom in H. destruct (m1 !! k), (m2 !! k); try done. by destruct H as [? [=]].
Qed.

Section Requests.
Context {FX : FixedCrate} {PC : PdaCrate} {BC : OracleBuild} {CH : Chain} {BO : BorshCrate}.
Context (token : list Z -> option TokenAccount) (mint : list Z -> option Mint).
#[local] Instance the_codec : AccountCodec := bytemuck_codec token mint.

(** The accounts of the chain as the runtime presents them: one that does not exist is
    empty and belongs to the system program. *)
Definition store_of (chain : ChainState) : Store := fun k =>
  match chain !! k with
  | Some a => (ra_owner a, ra_data a)
  | None => (SYSTEM_PROGRAM_ID, [])
  end.

(** A client that sees the chain itself. *)
Definition chain_client (chain : ChainState) : AutaraReadClient := {|
  get_market := fun k => accounts_of market_pod id chain !! k;
  get_supply_position := fun market authority =>
    let k := fst (find_supply_position_pda id market authority) in
    (k, accounts_of supply_position_pod id chain !! k);
  get_borrow_position := fun market authority =>
    let k := fst (find_borrow_position_pda id market authority) in
    (k, accounts_of borrow_position_pod id chain !! k) |}.

(** The oracles of a market are valid at a time. *)
Definition priced (chain : ChainState) (now : Z) (k : Pubkey) : Prop :=
  forall m, accounts_of market_pod id chain !! k = Some m -> is_Some (rates_of chain now m).

Lemma holds_market chain k m :
  SYSTEM_PROGRAM_ID <> id -> holds (store_of chain) market_of_bytes k m ->
  accounts_of market_pod id chain !! k = Some m.
Proof.
  intros Hid (Ho & Hm & _). unfold store_of in *. unfold accounts_of. rewrite lookup_omap.
  destruct (chain !! k); [| done]. cbn in *. by rewrite decide_True.
Qed.

(** Rates are loaded with the oracle configurations only. *)
Lemma try_new_same m m' a b now :
  same_keys m' m -> try_new m' a b now = res_map (set_market m') (try_new m a b now).
Proof.
  intros (_ & _ & _ & _ & Es & Ec & _). unfold try_new, res_map. rewrite Es, Ec.
  by destruct (load_and_validate_oracle_rate _ _ _); [| done..]; cbn;
    destruct (load_and_validate_oracle_rate _ _ _).
Qed.

Lemma same_oracles m m' :
  same_keys m' m ->
  supply_oracle_of m' = supply_oracle_of m /\ collateral_oracle_of m' = collateral_oracle_of m.
Proof. intros (_ & _ & _ & _ & Es & Ec & _). unfold supply_oracle_of, collateral_oracle_of.
  by rewrite Es, Ec. Qed.

(** Reading a market back from either cache. *)
Lemma load_cached om chain now m m' k :
  oracles_loaded chain om -> accounts_of market_pod id chain !! k = Some m -> same_keys m' m ->
  ok_option (load_market_wrapper om now m') = set_market m' <$> rates_of chain now m.
Proof.
  intros Ho Hk Hs. destruct (Ho k m Hk) as [Hso Hco].
  destruct (same_oracles m m' Hs) as [E1 E2]. unfold load_market_wrapper, rates_of.
  rewrite oracle_keys_ok. cbn. rewrite E1, E2, Hso, Hco.
  destruct (chain !! supply_oracle_of m); [| done]. cbn.
  destruct (chain !! collateral_oracle_of m); [| done]. cbn.
  rewrite (try_new_same m m') by done. by destruct (try_new m _ _ _).
Qed.

Lemma known_cached chain now (c : ReadClient) k m m' om :
  SYSTEM_PROGRAM_ID <> id -> priced chain now k -> oracles_loaded chain om ->
  (forall m, accounts_of market_pod id chain !! k = Some m ->
     same_keys m' m /\ get_market_wrapper c k = ok_option (load_market_wrapper om now m')) ->
  known (RC := chain_client chain) (store_of chain) k m ->
  known (RC := builder_client c) (store_of chain) k m.
Proof.
  intros Hid Hp Ho Hc (Hm & _ & Ht). split; [done |]. split; [| done].
  apply (holds_market _ _ _ Hid) in Hm. destruct (Hc m Hm) as [Hs Hg].
  exists m'. cbn. rewrite Hg, (load_cached om chain now m m' k Ho Hm Hs).
  by destruct (Hp m Hm) as [w ->].
Qed.
Lemma accrued_keys chain now m : same_keys (accrued chain now m) m.
Proof. unfold accrued. case_match; [apply sync_keeps_keys | done]. Qed.

(** The market of a key as a reloaded cache hands it out. *)
Definition current (chain : ChainState) (now now' : Z) (k : Pubkey) : option MarketWrapper :=
  m ← accounts_of market_pod id chain !! k;
  set_market (accrued chain now m) <$> rates_of chain now' m.

Lemma current_market chain now now' c k :
  shows chain now c ->
  get_market_wrapper (Single.read_client id now' c) k = current chain now now' k.
Proof.
  intros Hr. cbn. rewrite (shows_markets _ _ _ Hr), lookup_fmap. unfold current.
  destruct (accounts_of market_pod id chain !! k) as [m |] eqn:E; [| done].
  cbn [fmap option_fmap option_map mbind option_bind].
  by rewrite (load_cached _ chain _ m _ k (shows_oracles _ _ _ Hr) E) by apply accrued_keys.
Qed.

Lemma all_current chain now now' c k w :
  shows chain now c ->
  (k, w) ∈ all_markets (Single.read_client id now' c) <-> current chain now now' k = Some w.
Proof.
  intros Hr. rewrite <- (current_market chain now now' c k Hr).
  unfold Single.read_client, all_markets. rewrite elem_of_keyed. cbn. rewrite bind_Some.
  by setoid_rewrite elem_of_map_to_list.
Qed.


Lemma stored_accrued chain now m m' : stored chain now m = Some m' -> accrued chain now m = m'.
Proof.
  unfold stored, accrued. destruct (rates_of chain now m); [| done].
  destruct (Market.sync_clock now m) as [[] ?]; naive_solver.
Qed.

(** The two caches agree.  Reloaded at the same time from nodes that answer for the same
    chain, the cache of one thread and the shared one hold the same positions and global
    configuration, when no position has gone from the chain, and the same markets as far as
    their interest could be accrued; for other markets the shared cache keeps what it had. *)
Theorem caches_agree rpc rpc' chain now c c' s s' :
  answers rpc chain -> answers rpc' chain ->
  remembered chain (Single.oracle_map c) -> remembered chain (Shared.oracle_map s) ->
  dom (Shared.supply_position_map s) ⊆ dom (accounts_of supply_position_pod id chain) ->
  dom (Shared.borrow_position_map s) ⊆ dom (accounts_of borrow_position_pod id chain) ->
  Single.reload id rpc now c = (Ok tt, c') -> Shared.reload id rpc' now s = (Ok tt, s') ->
  Shared.supply_position_map s' = Single.supply_position_map c' /\
  Shared.borrow_position_map s' = Single.borrow_position_map c' /\
  Shared.global_config s' = Single.global_config_map c' /\
  forall k, Shared.market_map s' !! k
    = if decide (is_Some (accounts_of market_pod id chain !! k ≫= stored chain now))
      then Single.market_map c' !! k else Shared.market_map s !! k.
Proof.
  intros H1 H2 Hc Hs Ds Db Rc Rs. apply (single_reload rpc chain H1) in Rc; [| done].
  apply (shared_reload rpc' chain H2) in Rs; [| done].
  destruct Rc as [Cm Cs Cb Cg _ _], Rs as [Sm Ss Sb Sg _ _]. rewrite Ss, Sb, Cs, Cb, Sm, Cm.
  split_and!; [by apply union_dominated | by apply union_dominated | congruence |].
  intros k. rewrite lookup_union, lookup_omap, lookup_fmap.
  destruct (accounts_of market_pod id chain !! k) as [m |];
    cbn [mbind option_bind fmap option_fmap option_map].
  - destruct (stored chain now m) as [m' |] eqn:E; case_decide as Hd; try done.
    + rewrite (stored_accrued _ _ _ _ E). by destruct (Shared.market_map s !! k).
    + exfalso. apply Hd. eauto.
    + by destruct (Shared.market_map s !! k).
  - case_decide as Hd; [done |]. by destruct (Shared.market_map s !! k).
Qed.

Lemma user_positions_eq (rc : ReadClient) authority :
  user_positions rc authority
  = mkUserPositions
      (omap (fun '(k, w) => supply_info w <$> snd (supply_position_of rc k authority))
         (all_markets rc))
      (omap (fun '(k, w) => borrow_info w <$> snd (borrow_position_of rc k authority))
         (all_markets rc)).
Proof.
  unfold user_positions. induction (all_markets rc) as [| [k w] l IH] using rev_ind; [done |].
  rewrite foldl_app, IH, !omap_app. cbn.
  destruct (snd (supply_position_of rc k authority)), (snd (borrow_position_of rc k authority));
    cbn; by rewrite ?app_nil_r.
Qed.

(** The positions that a client lists for a user after a reload are exactly those that the
    chain holds for the user in markets with valid prices: a supply position with the atoms
    that its shares are worth after the interest was accrued, a borrow position with its
    health at the prices of the oracles. *)
Theorem user_positions_are_those_of_the_chain rpc chain now now' c c' authority :
  answers rpc chain -> remembered chain (Single.oracle_map c) ->
  Single.reload id rpc now c = (Ok tt, c') ->
  let positions := user_positions (Single.read_client id now' c') authority in
  (forall i, i ∈ supply_positions positions <->
     exists k w p, current chain now now' k = Some w /\
       accounts_of supply_position_pod id chain
         !! fst (find_supply_position_pda id k authority) = Some p /\ i = supply_info w p) /\
  (forall i, i ∈ borrow_positions positions <->
     exists k w p, current chain now now' k = Some w /\
       accounts_of borrow_position_pod id chain
         !! fst (find_borrow_position_pda id k authority) = Some p /\ i = borrow_info w p).
Proof.
  intros Hrpc Hom Hr positions. apply (single_reload rpc chain Hrpc) in Hr; [| done].
  unfold positions. rewrite user_positions_eq. cbn [supply_positions borrow_positions].
  split; intros i; rewrite list_elem_of_omap; split.
  - intros ([k w] & Hk & Hi). apply (all_current chain now) in Hk; [| done].
    cbn in Hi. rewrite (shows_supplies _ _ _ Hr) in Hi. apply fmap_Some in Hi as (p & Hp & ->).
    eauto 6.
  - intros (k & w & p & Hk & Hp & ->). exists (k, w).
    rewrite (all_current chain now) by done. split; [done |]. cbn.
    by rewrite (shows_supplies _ _ _ Hr), Hp.
  - intros ([k w] & Hk & Hi). apply (all_current chain now) in Hk; [| done].
    cbn in Hi. rewrite (shows_borrows _ _ _ Hr) in Hi. apply fmap_Some in Hi as (p & Hp & ->).
    eauto 6.
  - intros (k & w & p & Hk & Hp & ->). exists (k, w).
    rewrite (all_current chain now) by done. split; [done |]. cbn.
    by rewrite (shows_borrows _ _ _ Hr), Hp.
Qed.

End Requests.

(** ** Two builds of the library *)

Section Builds.
Context {FX : FixedCrate} {PC : PdaCrate} {BC : OracleBuild}.

(** Prices that the programs accept, the client accepts too, at any time with the same result. *)
Lemma try_new_program m a b t w :
  try_new (BC := program_build BC) m a b t = Ok w ->
  forall t', try_new (BC := program_build BC) m a b t' = try_new m a b t'.
Proof.
  unfold try_new, load_and_validate_oracle_rate. intros H t'. run_inv.
  repeat match goal with H : load_oracle_price _ _ = Ok _ |- _ =>
    rewrite H, (program_load_is_client_load _ _ _ H); clear H end. done.
Qed.

Lemma rates_of_program chain t m w :
  rates_of (BC := program_build BC) chain t m = Some w ->
  forall t', rates_of (BC := program_build BC) chain t' m = rates_of chain t' m.
Proof.
  unfold rates_of. intros H t'.
  destruct (chain !! supply_oracle_of m); [| done].
  destruct (chain !! collateral_oracle_of m); [| done]. cbn in *.
  destruct (try_new (BC := program_build BC) _ _ _ _) as [w' | |] eqn:E; [| discriminate..].
  by rewrite (try_new_program _ _ _ _ _ E t').
Qed.

(** A market whose prices the programs accept is handed out as the programs see it. *)
Lemma current_program chain now now' k w :
  current (BC := program_build BC) chain now now' k = Some w -> current chain now now' k = Some w.
Proof.
  unfold current. destruct (accounts_of market_pod id chain !! k) as [m |]; [| done]. cbn.
  destruct (rates_of (BC := program_build BC) chain now' m) as [w' |] eqn:E; [| done].
  pose proof (rates_of_program _ _ _ _ E) as Hr. rewrite <- Hr, E. cbn.
  unfold accrued. by rewrite <- Hr.
Qed.

End Builds.
