(* ===== verification/Liquidator.v ===== *)
(** * The liquidator

    [tmp-autara-liquidator/src/router.rs] (Module [Router]: pools of a swap program and the
    best quote among them), [scanner.rs] (which positions can be liquidated) and the loop of
    [main.rs].  The swap program is the crate [orca_whirlpools]: a parameter.  What the
    liquidator says to its log is its result. *)
From stdpp Require Import gmap.
From Stdlib Require Import String.
From S2P Require Import Prelude.
From S2P Require Import Errors.
From S2P Require Import Monad.
From S2P Require Import FixedPoint.
From S2P Require Import Pda.
From S2P Require Import Oracle.
From S2P Require Import MarketConfig.
From S2P Require Import BorrowPosition.
From S2P Require Import CollateralVault.
From S2P Require Import SupplyVault.
From S2P Require Import Market.
From S2P Require Import MarketWrapper.
From S2P Require Import RpcExt.
From S2P Require Import ReadClient.
From S2P Require Import OracleRate.
From S2P Require Import Liquidation.
From S2P Require Import Accounts.
From S2P Require Import Layout.
From S2P Require Import ReadClientFacts.
#[local] Open Scope string_scope.
#[local] Open Scope Z_scope.

(** ** The swap program *)

Record InitializedPool : Type := mkPool { address : Pubkey }.
Inductive PoolInfo : Type :=
| Initialized (pool : InitializedPool)
| Uninitialized.

Inductive SwapQuote : Type :=
| ExactIn (token_est_out token_min_out : Z)
| ExactOut.

(** Answers of the swap program while one operation runs. *)
Record SwapApi : Type := mkSwapApi {
  fetch_whirlpools_by_token_pair : Pubkey -> Pubkey -> AnyRes (list PoolInfo);
  (** [swap_instructions(pool, amount, mint, ExactIn, slippage, signer)], its quote *)
  swap_instructions : Pubkey -> Z -> Pubkey -> Z -> option Pubkey -> AnyRes SwapQuote }.

Module Router.

Definition SLIPPAGE_TOLERANCE_BPS : Z := 100.
(** Seconds. *)
Definition DISCOVERY_INTERVAL : Z := 5 * 60.

(** [a < b] on keys: byte by byte. *)
Fixpoint key_ltb (a b : Pubkey) : bool :=
  match a, b with
  | [], [] => false
  | [], _ => true
  | _, [] => false
  | x :: a, y :: b => (x <? y) || ((x =? y) && key_ltb a b)
  end.

Definition sort_pair (a b : Pubkey) : Pubkey * Pubkey := if key_ltb a b then (a, b) else (b, a).

Record SwapRouter : Type := mkRouter {
  pool_cache : gmap (Pubkey * Pubkey) (list InitializedPool);
  last_discovery : option Z }.

Definition new : SwapRouter := mkRouter ∅ None.

Definition put_pools key pools (r : SwapRouter) : SwapRouter :=
  mkRouter (<[key := pools]> (pool_cache r)) (last_discovery r).
Definition put_discovery t (r : SwapRouter) : SwapRouter := mkRouter (pool_cache r) t.

(** [map_err(|e| anyhow!("failed to fetch pools: {}", e))] *)
Definition fetch_initialized_pools (api : SwapApi) (token_a token_b : Pubkey)
  : AnyRes (list InitializedPool) :=
  let? pools := with_context "failed to fetch pools"
                  (fetch_whirlpools_by_token_pair api token_a token_b) in
  Ok (omap (fun p => match p with Initialized pool => Some pool | Uninitialized => None end) pools).

Definition register_pair (api : SwapApi) (token_a token_b : Pubkey) : STE Anyhow SwapRouter () :=
  let key := sort_pair token_a token_b in
  let! self := st_get in
  if bool_decide (is_Some (pool_cache self !! key)) then st_ret tt
  else
    let! initialized := st_lift (fetch_initialized_pools api token_a token_b) in
    st_modify (put_pools key initialized).

Definition should_refresh (now : Z) (self : SwapRouter) : bool :=
  match last_discovery self with
  | None => true
  | Some t => DISCOVERY_INTERVAL <=? now - t
  end.

(** One pair of [maybe_refresh_pools]: an error is logged and the old pools stay. *)
Definition refresh_pair (api : SwapApi) (self : SwapRouter) (pair : Pubkey * Pubkey)
  : SwapRouter :=
  match fetch_initialized_pools api (fst pair) (snd pair) with
  | Ok pools => put_pools (sort_pair (fst pair) (snd pair)) pools self
  | _ => self
  end.

(** [now] when the interval is tested, [done] when all pairs were asked for. *)
Definition maybe_refresh_pools (api : SwapApi) (now done : Z) (self : SwapRouter) : SwapRouter :=
  if negb (should_refresh now self) then self
  else
    let pairs := fst <$> map_to_list (pool_cache self) in
    match pairs with
    | [] => put_discovery (Some done) self
    | _ => put_discovery (Some done) (foldl (refresh_pair api) self pairs)
    end.

(** The pools of the loop of [best_quote_exact_in], with the best quote so far. *)
Fixpoint best_quote (api : SwapApi) (input_mint : Pubkey) (amount_in : Z)
  (signer : option Pubkey) (best : option (Pubkey * SwapQuote * Z)) (pools : list Pubkey)
  : AnyRes (option (Pubkey * SwapQuote * Z)) :=
  match pools with
  | [] => Ok best
  | pool_addr :: pools =>
    match swap_instructions api pool_addr amount_in input_mint SLIPPAGE_TOLERANCE_BPS signer with
    | Ok (ExactIn est_out min_out) =>
      let is_better := match best with None => true | Some (_, _, prev) => prev <? est_out end in
      best_quote api input_mint amount_in signer
        (if is_better then Some (pool_addr, ExactIn est_out min_out, est_out) else best) pools
    | Ok ExactOut => Panic
    | Err _ => best_quote api input_mint amount_in signer best pools
    | Panic => Panic
    end
  end.

Definition best_quote_exact_in (api : SwapApi) (input_mint output_mint : Pubkey)
  (amount_in : Z) (signer : option Pubkey)
  : STE Anyhow SwapRouter (option (Pubkey * SwapQuote)) :=
  let key := sort_pair input_mint output_mint in
  let! self := st_get in
  let has_pools := bool_decide (is_Some (pool_cache self !! key)) in
  (if has_pools then st_ret tt else register_pair api input_mint output_mint) ;;;
  let! self := st_get in
  let pool_addresses := address <$> default [] (pool_cache self !! key) in
  match pool_addresses with
  | [] => st_ret None
  | _ =>
    let! best := st_lift (best_quote api input_mint amount_in signer None pool_addresses) in
    st_ret ((fun '(addr, quote, _) => (addr, quote)) <$> best)
  end.

End Router.

(** ** The scanner *)

(** What the scanner logs. *)
Inductive Log : Type :=
| Liquidatable (position : Pubkey) (authority : Pubkey) (market : Pubkey) (ltv : IFixedPoint)
    (unhealthy : IFixedPoint) (borrowed_atoms collateral_atoms : Z)
| RouteFound (pool : Pubkey) (collateral_in supply_est_out supply_min_out : Z)
| NoRoute (collateral_mint supply_mint : Pubkey)
| QuoteFailed (e : Anyhow)
| Found (count : Z)
| NoneFound.

Section Scanner.
Context {FX : FixedCrate}.

(** What the scanner finds for one position: its market, its health, and whether it can be
    liquidated; [None] when it goes on with the next. *)
Definition check_position (client : ReadClient) (p : BorrowPosition)
  : Result () (option (MarketWrapper * BorrowPositionHealth)) :=
  match get_market_wrapper client (BorrowPosition.market p) with
  | None => Ok None
  | Some market_wrapper =>
    match MarketWrapper.borrow_position_health market_wrapper p with
    | Ok health =>
      if i_leb (unhealthy_ltv (ltv_config (config (MarketWrapper.market market_wrapper))))
           (ltv health)
      then Ok (Some (market_wrapper, health))
      else Ok None
    | Err _ => Ok None
    | Panic => Panic
    end
  end.

(** The route that the scanner looks for, as it logs it. *)
Definition find_route (api : SwapApi) (market : Market) (health : BorrowPositionHealth)
  (router : Router.SwapRouter) : Result () Log * Router.SwapRouter :=
  let supply_mint := ti_mint (supply_token_info market) in
  let collateral_mint := ti_mint (collateral_token_info market) in
  let '(r, router) := Router.best_quote_exact_in api collateral_mint supply_mint
                        (BorrowPosition.collateral_atoms health) None router in
  (match r with
   | Ok (Some (pool, ExactIn est_out min_out)) =>
     Ok (RouteFound pool (BorrowPosition.collateral_atoms health) est_out min_out)
   | Ok (Some (_, ExactOut)) => Panic
   | Ok None => Ok (NoRoute collateral_mint supply_mint)
   | Err e => Ok (QuoteFailed e)
   | Panic => Panic
   end, router).

(** The loop over the positions: the log so far and the number of positions found. *)
Fixpoint scan_positions (client : ReadClient) (api : SwapApi)
  (positions : list (Pubkey * BorrowPosition)) (acc : list Log * Z)
  : STE () Router.SwapRouter (list Log * Z) :=
  match positions with
  | [] => st_ret acc
  | (position_key, p) :: positions =>
    let! found := st_lift (check_position client p) in
    match found with
    | None => scan_positions client api positions acc
    | Some (w, health) =>
      let line := Liquidatable position_key (BorrowPosition.authority p)
                    (BorrowPosition.market p) (ltv health)
                    (unhealthy_ltv (ltv_config (config (MarketWrapper.market w))))
                    (borrowed_atoms health) (BorrowPosition.collateral_atoms health) in
      let! route := find_route api (MarketWrapper.market w) health in
      scan_positions client api positions ((fst acc ++ [line; route])%list, snd acc + 1)
    end
  end.

Definition scan_liquidatable_positions (client : ReadClient) (api : SwapApi)
  : STE () Router.SwapRouter (list Log) :=
  let! (log, liquidatable_count) := scan_positions client api (all_borrow_position client) ([], 0) in
  st_ret (log ++ [if 0 <? liquidatable_count then Found liquidatable_count else NoneFound])%list.

Context {PC : PdaCrate} {BC : OracleBuild}.

(** One turn of the loop of [main]: reload, and scan when that succeeded.  [now] is the clock
    of the reload, [now'] that of the queries. *)
Definition turn (program : Pubkey) (rpc : ArchRpc) (api : SwapApi) (now now' : Z)
  (s : Single.AutaraReadClientImpl * Router.SwapRouter)
  : Result () (list Log) * (Single.AutaraReadClientImpl * Router.SwapRouter) :=
  let '(r, client) := Single.reload program rpc now (fst s) in
  match r with
  | Ok _ =>
    let '(log, router) :=
      scan_liquidatable_positions (Single.read_client program now' client) api (snd s) in
    (log, (client, router))
  | Err _ => (Ok [], (client, snd s))
  | Panic => (Panic, (client, snd s))
  end.
End Scanner.

(** * The liquidator finds what can be liquidated, and the best route *)
#[local] Close Scope string_scope.

(** ** Routes *)

Lemma key_ltb_total a : forall b, Router.key_ltb a b = false -> Router.key_ltb b a = false -> a = b.
Proof.
  induction a as [| x a IH]; intros [| y b]; cbn; try done. intros H1 H2.
  apply orb_false_iff in H1 as [X1 H1], H2 as [X2 H2]. apply Z.ltb_ge in X1, X2.
  assert (x = y) as -> by lia. rewrite Z.eqb_refl in H1, H2. cbn in H1, H2. f_equal. auto.
Qed.

Lemma key_ltb_asym a : forall b, Router.key_ltb a b = true -> Router.key_ltb b a = false.
Proof.
  induction a as [| x a IH]; intros [| y b]; cbn; try done. intros H.
  apply orb_true_iff in H as [H | H].
  - apply Z.ltb_lt in H. apply orb_false_iff. split; [apply Z.ltb_ge; lia |].
    by rewrite (proj2 (Z.eqb_neq y x)) by lia.
  - apply andb_true_iff in H as [Hx H]. apply Z.eqb_eq in Hx as ->.
    by rewrite Z.ltb_irrefl, Z.eqb_refl, (IH _ H).
Qed.

(** A pair of tokens has one entry in the cache, whichever way it is asked for. *)
Lemma sort_pair_comm a b : Router.sort_pair a b = Router.sort_pair b a.
Proof.
  unfold Router.sort_pair. destruct (Router.key_ltb a b) eqn:E1, (Router.key_ltb b a) eqn:E2; try done.
  - apply key_ltb_asym in E1. congruence.
  - by rewrite (key_ltb_total _ _ E1 E2).
Qed.

Section Quotes.
Context (api : SwapApi) (input : Pubkey) (amount : Z) (signer : option Pubkey).

(** The pools that quote the swap, with what they give. *)
Definition quotes (pools : list Pubkey) : list (Pubkey * Z * Z) :=
  omap (fun pool =>
    match swap_instructions api pool amount input Router.SLIPPAGE_TOLERANCE_BPS signer with
    | Ok (ExactIn est min) => Some (pool, est, min)
    | _ => None
    end) pools.

(** The first of the best quotes. *)
Definition first_best (l : list (Pubkey * Z * Z)) (q : option (Pubkey * SwapQuote)) : Prop :=
  match q with
  | None => l = []
  | Some (pool, ExactIn est min) =>
    exists before after, l = before ++ (pool, est, min) :: after /\
      Forall (fun '(_, e, _) => e < est) before /\ Forall (fun '(_, e, _) => e <= est) after
  | Some (_, ExactOut) => False
  end.

(** The invariant of the loop. *)
Definition best_of (l : list (Pubkey * Z * Z)) (b : option (Pubkey * SwapQuote * Z)) : Prop :=
  first_best l (fst <$> b) /\
  match b with Some (_, ExactIn est _, e) => e = est | _ => True end.

Lemma best_of_snoc l b pool est min :
  best_of l b ->
  best_of (l ++ [(pool, est, min)])
    (if match b with None => true | Some (_, _, prev) => prev <? est end
     then Some (pool, ExactIn est min, est) else b).
Proof.
  destruct b as [[[p [e m |]] prev] |]; intros [Hb He]; cbn in *.
  - subst prev. destruct Hb as (l1 & l2 & -> & H1 & H2). destruct (Z.ltb_spec e est).
    + split; [| done]. exists (l1 ++ (p, e, m) :: l2), []. split; [done |]. split; [| constructor].
      apply Forall_app. split; [| constructor; [lia |]].
      * eapply list.Forall_impl; [exact H1 |]. intros [[? ?] ?] ?. lia.
      * eapply list.Forall_impl; [exact H2 |]. intros [[? ?] ?] ?. lia.
    + split; [| done]. exists l1, (l2 ++ [(pool, est, min)]).
      rewrite <- app_assoc. split; [done |]. split; [done |]. apply Forall_app. auto.
  - done.
  - subst l. split; [| done]. exists [], []. done.
Qed.

Lemma best_quote_spec pools : forall seen b r,
  best_of seen b -> Router.best_quote api input amount signer b pools = Ok r ->
  best_of (seen ++ quotes pools) r.
Proof.
  induction pools as [| pool pools IH]; cbn [Router.best_quote]; intros seen b r Hb H.
  - injection H as <-. unfold quotes. cbn. by rewrite app_nil_r.
  - unfold quotes in *. cbn.
    destruct (swap_instructions _ _ _ _ _ _) as [[est min |] | e |]; try done; [| by eapply IH].
    eapply IH in H; [| by apply best_of_snoc]. by rewrite <- app_assoc in H.
Qed.

End Quotes.

Lemma registered api input output router router' :
  (if bool_decide (is_Some (Router.pool_cache router !! Router.sort_pair input output))
   then st_ret tt else Router.register_pair api input output) router = (Ok tt, router') ->
  is_Some (Router.pool_cache router' !! Router.sort_pair input output).
Proof.
  case_bool_decide as Hk; [by intros [= <-] |]. unfold Router.register_pair, st_bind, st_get, st_lift.
  rewrite bool_decide_eq_false_2 by done.
  destruct (Router.fetch_initialized_pools _ _ _); cbn; intros [= <-]. cbn.
  by rewrite lookup_insert_eq.
Qed.

(** The router gives the best route.  Of all pools that the router knows for a pair of
    tokens, in either order, after the pair was discovered if it was not known, the quote is
    the first with the greatest estimated output; there is none only if no pool quotes. *)
Theorem best_quote_is_best api input output amount signer router q router' :
  Router.best_quote_exact_in api input output amount signer router = (Ok q, router') ->
  is_Some (Router.pool_cache router' !! Router.sort_pair output input) /\
  first_best (quotes api input amount signer
                (address <$> default [] (Router.pool_cache router' !! Router.sort_pair input output)))
    q.
Proof.
  rewrite (sort_pair_comm output input). unfold Router.best_quote_exact_in, st_bind at 1, st_get.
  set (key := Router.sort_pair input output). intros H.
  apply st_bind_ok in H as ([] & r1 & Hr & H). apply registered in Hr.
  unfold st_bind at 1 in H. cbn [fst snd] in H. fold key in Hr.
  destruct (Router.pool_cache r1 !! key) as [pools |] eqn:Ek; [| by destruct Hr].
  change (default [] (Some pools)) with pools in H. destruct (address <$> pools) as [| a l] eqn:El.
  - injection H as <- <-. rewrite Ek. cbn [default from_option]. unfold Datatypes.id. by rewrite El.
  - apply st_bind_ok in H as (best & r2 & Hb & H). apply st_lift_ok in Hb as [Hb <-].
    injection H as <- <-. rewrite Ek. cbn [default from_option]. unfold Datatypes.id. rewrite El.
    apply (best_quote_spec api input amount signer (a :: l) [] None) in Hb as [Hb _]; [| done].
    split; [done |]. by destruct best as [[[? ?] ?] |].
Qed.

(** ** Positions *)

(** The positions that a log names. *)
Definition flagged (log : list Log) : list Pubkey :=
  omap (fun l => match l with Liquidatable k _ _ _ _ _ _ => Some k | _ => None end) log.

Section Scan.
Context {FX : FixedCrate}.

Definition can_be_liquidated (client : ReadClient) (p : BorrowPosition) : bool :=
  match check_position client p with Ok (Some _) => true | _ => false end.

Lemma find_route_unflagged api m h r l r' : find_route api m h r = (Ok l, r') -> flagged [l] = [].
Proof.
  unfold find_route. destruct (Router.best_quote_exact_in _ _ _ _ _ _) as [q r1].
  destruct q as [[[pool [est min |]] |] | e |]; intros [= <- <-]; done.
Qed.

Lemma scan_positions_spec client api ps : forall acc r res r',
  scan_positions client api ps acc r = (Ok res, r') ->
  flagged (fst res)
  = flagged (fst acc)
    ++ omap (fun '(k, p) => if can_be_liquidated client p then Some k else None) ps.
Proof.
  induction ps as [| [k p] ps IH]; cbn [scan_positions]; intros acc r res r' H.
  - injection H as <- <-. cbn. by rewrite app_nil_r.
  - apply st_bind_ok in H as (o & r1 & Ho & H). apply st_lift_ok in Ho as [Ho <-].
    cbn. unfold can_be_liquidated at 1. rewrite Ho. destruct o as [[w h] |].
    + apply st_bind_ok in H as (l & r2 & Hl & H). apply find_route_unflagged in Hl.
      apply IH in H. rewrite H. cbn. unfold flagged in *. rewrite omap_app, <- app_assoc.
      f_equal. cbn in *. destruct l; done.
    + by apply IH in H.
Qed.

Lemma scan_flags client api r log r' :
  scan_liquidatable_positions client api r = (Ok log, r') ->
  flagged log
  = omap (fun '(k, p) => if can_be_liquidated client p then Some k else None)
      (all_borrow_position client).
Proof.
  unfold scan_liquidatable_positions. intros H.
  apply st_bind_ok in H as ([l n] & r1 & H & Hl). injection Hl as <- <-.
  apply scan_positions_spec in H. cbn in H. unfold flagged in *. rewrite omap_app, H.
  cbn. destruct (0 <? n); by rewrite app_nil_r.
Qed.

(** A liquidation that goes through is one of a position that the scanner finds. *)
Lemma liquidation_is_found client p w max res w' p' :
  get_market_wrapper client (BorrowPosition.market p) = Some w ->
  MarketWrapper.liquidate max (w, p) = (Ok res, (w', p')) -> can_be_liquidated client p = true.
Proof.
  intros Hw H. unfold MarketWrapper.liquidate, with_position in H.
  destruct (Market.liquidate _ _ _ _) as [r [m1 p1]] eqn:E. injection H as -> <- <-.
  unfold Market.liquidate in E. apply st_bind_ok in E as (u & s1 & Hu & E).
  unfold ensure_unswept in Hu. run_inv.
  unfold can_be_liquidated, check_position. rewrite Hw.
  unfold MarketWrapper.borrow_position_health, Market.borrow_position_health.
  match goal with H : Market.compute_liquidation_result_with_fee _ _ _ _ _ = Ok _ |- _ =>
    unfold Market.compute_liquidation_result_with_fee,
      compute_liquidation_result_with_fee_for_collateral in H end.
  run_inv.
  match goal with H : borrow_position_health_with_collateral_atoms _ _ _ _ _ = Ok _ |- _ =>
    rewrite H end.
  match goal with H : (if i_ltb ?a ?b then _ else _) = Ok _ |- _ =>
    destruct (i_ltb a b) eqn:Eb; [discriminate |] end.
  unfold i_ltb in Eb. apply Z.ltb_ge in Eb. unfold i_leb. by rewrite (proj2 (Z.leb_le _ _) Eb).
Qed.

Lemma found_iff client p :
  can_be_liquidated client p = true <->
  exists w h, get_market_wrapper client (BorrowPosition.market p) = Some w /\
    MarketWrapper.borrow_position_health w p = Ok h /\
    i_ltb (ltv h) (unhealthy_ltv (ltv_config (config (MarketWrapper.market w)))) = false.
Proof.
  unfold can_be_liquidated, check_position, i_leb, i_ltb.
  destruct (get_market_wrapper client _) as [w |]; [| split; [done | by intros (? & ? & ? & ?)]].
  destruct (MarketWrapper.borrow_position_health w p) as [h | |] eqn:Eh;
    [| split; [done |]; intros (? & ? & [= <-] & ? & ?); congruence..].
  rewrite Z.leb_antisym. split.
  - destruct (_ <? _) eqn:El; [done |]. eauto.
  - intros (? & ? & [= <-] & H & E). rewrite Eh in H. injection H as <-. by rewrite E.
Qed.

Context {PC : PdaCrate} {BC : OracleBuild}.

(** C28: the liquidator names exactly the positions that it finds unhealthy at the prices of
    the chain, and misses none that the program would liquidate. The turn starts with a reload
    that succeeds, from a node that answers for the chain, and with a cache whose remembered
    oracle accounts still exist on the chain. The log then names a borrow position of the chain
    if and only if the client, which reads legacy feeds too, accepts the prices of its market
    now, and at these prices, with the interest accrued up to the reload, the test of the
    program on its health ([PositionIsHealthy]) passes. At prices that the program accepts,
    which reads no legacy feeds, a liquidation of any amount that would go through is never
    missed. *)
Theorem scanner_finds_liquidatable_positions rpc chain api now now' s log s' c' k p :
  answers rpc chain -> remembered chain (Single.oracle_map (fst s)) ->
  Single.reload id rpc now (fst s) = (Ok tt, c') ->
  turn id rpc api now now' s = (Ok log, s') ->
  accounts_of borrow_position_pod id chain !! k = Some p ->
  (k ∈ flagged log <->
     exists w h, current chain now now' (BorrowPosition.market p) = Some w /\
       MarketWrapper.borrow_position_health w p = Ok h /\
       i_ltb (ltv h) (unhealthy_ltv (ltv_config (config (MarketWrapper.market w)))) = false) /\
  (forall w max res w' p',
     current (BC := program_build BC) chain now now' (BorrowPosition.market p) = Some w ->
     MarketWrapper.liquidate max (w, p) = (Ok res, (w', p')) -> k ∈ flagged log).
Proof.
  intros Hrpc Hom Hr Ht Hk. unfold turn in Ht. rewrite Hr in Ht. cbn in Ht.
  destruct (scan_liquidatable_positions _ _ _) as [r router] eqn:E. injection Ht as -> <-.
  apply (single_reload rpc chain Hrpc) in Hr; [| done].
  assert (Hf : k ∈ flagged log <->
    can_be_liquidated (Single.read_client id now' c') p = true).
  { apply scan_flags in E as ->. rewrite list_elem_of_omap.
    change (all_borrow_position (Single.read_client id now' c'))
      with (map_to_list (Single.borrow_position_map c')). rewrite (shows_borrows _ _ _ Hr). split.
    - intros ([k' q] & Hq & Hb). apply elem_of_map_to_list in Hq. destruct (can_be_liquidated _ q) eqn:Eq;
        [| done]. injection Hb as ->. congruence.
    - intros Hb. exists (k, p). by rewrite elem_of_map_to_list, Hb. }
  split.
  - rewrite Hf, found_iff. by rewrite (current_market chain now now' c' _ Hr).
  - intros w max res w' p' Hw Hl. apply Hf. eapply liquidation_is_found; [| exact Hl].
    rewrite (current_market chain now now' c' _ Hr). by apply current_program.
Qed.

End Scan.
