(* ===== verification/ClientExample.v ===== *)
(** * A chain to try the client and the liquidator on

    The market of [Creation] with its lender, and a borrower whose collateral has lost value,
    as accounts in bytes, with the accounts of their oracles; and a node that answers every
    request from these accounts. *)
From stdpp Require Import gmap.
From S2P Require Import Prelude.
From S2P Require Import Errors.
From S2P Require Import Monad.
From S2P Require Import FixedPoint.
From S2P Require Import FixedFacts.
From S2P Require Import Bytes.
From S2P Require Import PodOption.
From S2P Require Import Pda.
From S2P Require Import OracleRate.
From S2P Require Import Oracle.
From S2P Require Import GlobalConfig.
From S2P Require Import SupplyPosition.
From S2P Require Import BorrowPosition.
From S2P Require Import Market.
From S2P Require Import MarketWrapper.
From S2P Require Import Creation.
From S2P Require Import Accounts.
From S2P Require Import Events.
From S2P Require Import Program.
From S2P Require Import Borsh.
From S2P Require Import InstructionCodec.
From S2P Require Import TxBuilder.
From S2P Require Import TxFacts.
From S2P Require Import LedgerExample.
From S2P Require Import Layout.
From S2P Require Import RpcExt.
From S2P Require Import ReadClient.
From S2P Require Import ReadClientFacts.
From S2P Require Import Liquidator.
From S2P Require Import MarketConfig.
From S2P Require Import SupplyVault.
From S2P Require Import CollateralVault.
From S2P Require Import IxBuilders.

(** ** A node *)

#[global] Instance matches_dec a f : Decision (matches a f).
Proof. destruct f; cbn; apply _. Defined.

Definition node_of (chain : ChainState) : ArchRpc := {|
  get_multiple_accounts := fun ks => Ok ((fun k => mkKeyed k <$> chain !! k) <$> ks);
  get_program_accounts := fun program fs =>
    Ok (filter (fun '(_, a) => ra_owner a = program /\ Forall (matches a) (default [] fs))
          (map_to_list chain));
  read_account_info := fun k => ok_or (RequestFailed String.EmptyString) (chain !! k) |}.

Lemma filter_keys_NoDup {A} (P : Pubkey * A -> Prop) `{!forall x, Decision (P x)} l :
  NoDup (fst <$> l) -> NoDup (fst <$> filter P l).
Proof.
  induction l as [| x l IH]; [done |]. rewrite filter_cons, fmap_cons, list.NoDup_cons.
  intros [Hx Hl]. case_decide; [| auto]. rewrite fmap_cons, list.NoDup_cons. split; [| auto].
  intros (y & Hy & Hin)%list_elem_of_fmap. apply Hx. apply list_elem_of_filter in Hin as [_ Hin].
  rewrite Hy. by apply list_elem_of_fmap_2.
Qed.

Lemma node_answers chain : answers (node_of chain) chain.
Proof.
  split; cbn.
  - by intros ks r [= <-].
  - intros program fs r [= <-]. split.
    + apply filter_keys_NoDup, NoDup_fst_map_to_list.
    + intros k a. rewrite list_elem_of_filter, elem_of_map_to_list. cbn. tauto.
  - intros k a. apply ok_or_ok.
Qed.

(** ** The accounts *)

#[local] Existing Instances fixed_ref fixed_ref_laws pda_ex client_build_ex chain_ex borsh_ref.

Definition borrower_key : Pubkey :=
  Eval vm_compute in fst (find_borrow_position_pda id (key_ex 8) (key_ex 21)).
Definition lender_key : Pubkey :=
  Eval vm_compute in fst (find_supply_position_pda id (key_ex 8) (key_ex 20)).
Definition global_key : Pubkey := Eval vm_compute in fst (find_global_config_pda id).

(** A price of eight decimals, published at a time. *)
Definition price_account (feed : list Z) (price time : Z) : RpcAccount :=
  mkRpcAccount (key_ex 9)
    (feed ++ le_bytes 8 price ++ le_bytes 8 0 ++ le_bytes 8 (-8) ++ le_bytes 8 time
     ++ replicate 56 0 ++ key_ex 33).

Definition chain_1 : ChainState :=
  list_to_map
    [(key_ex 8, mkRpcAccount id (bytes_of market_pod (fst borrowed)));
     (borrower_key, mkRpcAccount id (bytes_of borrow_position_pod (snd borrowed)));
     (lender_key, mkRpcAccount id (bytes_of supply_position_pod (snd lent)));
     (global_key, mkRpcAccount id (bytes_of global_config_pod global_ex));
     (key_ex 10, price_account (key_ex 10) 100000000 1000);
     (key_ex 11, price_account (key_ex 11) 5430000000 1000);
     (key_ex 5, mkRpcAccount (key_ex 50) [8]);
     (key_ex 7, mkRpcAccount (key_ex 50) [7])].

Definition token_ex (l : list Z) : option TokenAccount :=
  match l with
  | [7] => Some (mkTokenAccount (key_ex 6) (key_ex 8))
  | [8] => Some (mkTokenAccount (key_ex 4) (key_ex 8))
  | _ => None
  end.
Definition no_mint (l : list Z) : option Mint := None.

Definition reloaded : Single.AutaraReadClientImpl :=
  snd (Single.reload id (node_of chain_1) 1000 Single.new).

Lemma reload_ex : Single.reload id (node_of chain_1) 1000 Single.new = (Ok tt, reloaded).
Proof.
  unfold reloaded. assert (fst (Single.reload id (node_of chain_1) 1000 Single.new) = Ok tt)
    by (vm_compute; reflexivity). by destruct (Single.reload _ _ _ _) as [r s]; cbn in *; subst.
Qed.

Lemma nothing_remembered : remembered chain_1 (Single.oracle_map Single.new).
Proof. intros k [x Hx]. cbn in Hx. by rewrite lookup_empty in Hx. Qed.

(** ** A request *)

#[local] Instance codec_1 : AccountCodec := bytemuck_codec token_ex no_mint.

Definition ask_1 : Request := RDepositCollateral (key_ex 8) 700.
Definition roles_1 : list Pubkey :=
  [key_ex 8; borrower_key; key_ex 21; ata (key_ex 21) (collateral_mint (fst borrowed));
   collateral_vault_key (fst borrowed); supply_oracle_of (fst borrowed);
   collateral_oracle_of (fst borrowed)].

Lemma requested_1 :
  requested (RC := chain_client chain_1) (key_ex 21) (store_of chain_1) ask_1
    (Ix.DepositAplCollateral 700) roles_1.
Proof.
  apply (q_deposit_collateral (RC := chain_client chain_1) (key_ex 21) (store_of chain_1)
           (key_ex 8) (fst borrowed) borrower_key 700).
  - split; [by vm_compute |]. split; [exists (fst borrowed); split; [by vm_compute | done] |].
    split; (eexists; split; [by vm_compute |]; split; [vm_compute; reflexivity | by vm_compute]).
  - split; [by vm_compute |]. exists (snd borrowed). by vm_compute.
  - eexists. split; [by vm_compute |]. split; [vm_compute; reflexivity | by vm_compute].
Qed.

Lemma priced_1 : priced chain_1 1000 (key_ex 8).
Proof.
  intros m Hm. assert (m = fst borrowed) as ->.
  { assert (E : accounts_of market_pod id chain_1 !! key_ex 8 = Some (fst borrowed))
      by (vm_compute; reflexivity). congruence. }
  apply is_Some_alt. vm_compute. exact I.
Qed.


(** ** The caches *)

Definition shared_1 : Shared.AutaraSharedState :=
  snd (Shared.reload id (node_of chain_1) 1000 Shared.new).

Lemma shared_reload_ex : Shared.reload id (node_of chain_1) 1000 Shared.new = (Ok tt, shared_1).
Proof.
  unfold shared_1. assert (fst (Shared.reload id (node_of chain_1) 1000 Shared.new) = Ok tt)
    by (vm_compute; reflexivity). by destruct (Shared.reload _ _ _ _) as [r s]; cbn in *; subst.
Qed.

Lemma caches_agree_witness :
  Shared.borrow_position_map shared_1 = Single.borrow_position_map reloaded /\
  Single.borrow_position_map reloaded !! borrower_key = Some (snd borrowed).
Proof.
  destruct (caches_agree (node_of chain_1) (node_of chain_1) chain_1 1000 Single.new reloaded
              Shared.new shared_1) as (_ & H & _).
  - apply node_answers.
  - apply node_answers.
  - exact nothing_remembered.
  - exact nothing_remembered.
  - cbn. rewrite dom_empty_L. set_solver.
  - cbn. rewrite dom_empty_L. set_solver.
  - exact reload_ex.
  - exact shared_reload_ex.
  - split; [exact H | vm_compute; reflexivity].
Defined.

(** The value of the lender's shares, and the health of the borrower. *)
Lemma user_positions_witness :
  exists i, i ∈ borrow_positions (user_positions (Single.read_client id 1000 reloaded) (key_ex 21))
            /\ bi_borrow_position i = snd borrowed.
Proof.
  pose proof (user_positions_are_those_of_the_chain (node_of chain_1) chain_1 1000 1000
    Single.new reloaded (key_ex 21) (node_answers _) nothing_remembered reload_ex) as [_ H].
  destruct (current chain_1 1000 1000 (key_ex 8)) as [w |] eqn:E;
    [| exfalso; revert E; vm_compute; discriminate].
  exists (borrow_info w (snd borrowed)). split; [| reflexivity]. apply H.
  exists (key_ex 8), w, (snd borrowed). split; [exact E |]. split; [vm_compute; reflexivity |].
  reflexivity.
Defined.

(** ** The liquidator *)

(** Two pools, of which the second gives more, and one that fails. *)
Definition api_ex : SwapApi := {|
  fetch_whirlpools_by_token_pair := fun _ _ =>
    Ok [Initialized (mkPool (key_ex 60)); Uninitialized; Initialized (mkPool (key_ex 61));
        Initialized (mkPool (key_ex 62))];
  swap_instructions := fun pool amount _ _ _ =>
    if bool_decide (pool = key_ex 60) then Ok (ExactIn 7 6)
    else if bool_decide (pool = key_ex 61) then Ok (ExactIn 9 8)
    else Err (Message String.EmptyString) |}.

Lemma best_quote_witness :
  first_best [(key_ex 60, 7, 6); (key_ex 61, 9, 8)] (Some (key_ex 61, ExactIn 9 8)).
Proof.
  assert (H : Router.best_quote_exact_in api_ex (key_ex 6) (key_ex 4) 1000 None Router.new
    = (Ok (Some (key_ex 61, ExactIn 9 8)),
       Router.put_pools (Router.sort_pair (key_ex 6) (key_ex 4))
         [mkPool (key_ex 60); mkPool (key_ex 61); mkPool (key_ex 62)] Router.new))
    by (vm_compute; reflexivity).
  exact (proj2 (best_quote_is_best _ _ _ _ _ _ _ _ H)).
Defined.

Definition turn_ex : Result () (list Log) * (Single.AutaraReadClientImpl * Router.SwapRouter) :=
  turn id (node_of chain_1) api_ex 1000 1000 (Single.new, Router.new).

(** The collateral is worth too little. *)
Lemma unhealthy_1 :
  match current chain_1 1000 1000 (key_ex 8) with
  | Some w =>
    match MarketWrapper.borrow_position_health w (snd borrowed) with
    | Ok h => negb (i_ltb (ltv h)
                (MarketConfig.unhealthy_ltv (MarketConfig.ltv_config
                   (config (MarketWrapper.market w)))))
    | _ => false
    end
  | None => false
  end = true.
Proof. vm_compute. reflexivity. Qed.

Lemma scanner_witness : exists log, fst turn_ex = Ok log /\ borrower_key ∈ flagged log.
Proof.
  destruct turn_ex as [r s] eqn:E. assert (Hr : exists log, r = Ok log).
  { assert (H : is_ok (fst turn_ex) = true) by (vm_compute; reflexivity). rewrite E in H.
    destruct r; [by eexists | discriminate | discriminate]. }
  destruct Hr as [log ->]. exists log. split; [reflexivity |].
  destruct (scanner_finds_liquidatable_positions (node_of chain_1) chain_1 api_ex 1000 1000
    (Single.new, Router.new) log s reloaded borrower_key (snd borrowed) (node_answers _)
    nothing_remembered reload_ex E ltac:(vm_compute; reflexivity)) as [H _].
  apply H. clear H E. change (BorrowPosition.market (snd borrowed)) with (key_ex 8).
  pose proof unhealthy_1 as Hu.
  destruct (current chain_1 1000 1000 (key_ex 8)) as [w |]; [| discriminate Hu].
  destruct (MarketWrapper.borrow_position_health w (snd borrowed)) as [h | |] eqn:Eh;
    [| discriminate Hu..].
  exists w, h. split; [reflexivity |]. split; [exact Eh |]. by destruct (i_ltb _ _).
Defined.

(** * A request to try the agreement on

    The borrower of [LedgerExample] deposits collateral through the client. *)

(** As [codec_ex], with the token account of the supply vault. *)
Definition client_codec_ex : AccountCodec := {|
  market_of_bytes := @market_of_bytes codec_ex;
  supply_position_of_bytes := @supply_position_of_bytes codec_ex;
  borrow_position_of_bytes := @borrow_position_of_bytes codec_ex;
  global_config_of_bytes := @global_config_of_bytes codec_ex;
  whitelist_entry_of_bytes := @whitelist_entry_of_bytes codec_ex;
  token_account_of_bytes := fun b =>
    match b with
    | [7] => Some (mkTokenAccount (key_ex 6) market_key)
    | [8] => Some (mkTokenAccount (key_ex 4) market_key)
    | _ => None
    end;
  mint_of_bytes := @mint_of_bytes codec_ex |}.

Definition store_ex : Store := fun k =>
  if bool_decide (k = market_key) then (id, [1])
  else if bool_decide (k = position_key) then (id, [2])
  else if bool_decide (k = key_ex 5) then (key_ex 50, [8])
  else if bool_decide (k = key_ex 7) then (key_ex 50, [7])
  else (key_ex 52, []).

Definition client_ex : AutaraReadClient := {|
  get_market := fun k => if bool_decide (k = market_key) then Some market_1 else None;
  get_supply_position := fun _ _ => (key_ex 32, None);
  get_borrow_position := fun _ _ => (position_key, Some position_1) |}.

#[local] Existing Instances pda_ex chain_ex client_codec_ex borsh_ref client_ex.

Definition ask_ex : Request := RDepositCollateral market_key 700.
Definition roles_ex : list Pubkey :=
  [market_key; position_key; key_ex 21; ata (key_ex 21) (collateral_mint market_1);
   collateral_vault_key market_1; supply_oracle_of market_1; collateral_oracle_of market_1].

Lemma requested_ex : requested (key_ex 21) store_ex ask_ex deposit_ix roles_ex.
Proof.
  apply (q_deposit_collateral (key_ex 21) store_ex market_key market_1 position_key 700).
  - split; [by vm_compute |]. split; [exists market_1; split; [by vm_compute | done] |].
    split; (eexists; split; [by vm_compute |]; split; [vm_compute; reflexivity | by vm_compute]).
  - split; [done |]. exists position_1. by vm_compute.
  - eexists. split; [by vm_compute |]. split; [vm_compute; reflexivity | by vm_compute].
Qed.

Lemma client_witness :
  exists pre i, build (key_ex 21) ask_ex = Ok (pre ++ [i]) /\ ix_program_id i = id /\
    deserialize (ix_data i) = Some (deposit_ix, []) /\
    roles deposit_ix (present store_ex <$> ix_accounts i) = Ok roles_ex /\
    Forall (signed_by_user (key_ex 21) deposit_ix) (ix_accounts i).
Proof.
  apply (client_requests_are_accepted (key_ex 21) store_ex ask_ex deposit_ix roles_ex);
    [exact requested_ex | cbn; widths_lia].
Defined.
