(* ===== verification/Upgrade.v ===== *)
(** * Deploying and upgrading the program

    [upgrade_in_place] of [autara-client/src/idl_deploy.rs] and [autara-deploy/src/elf_upload.rs]:
    the code of a program is written into its account in pieces, and the account is made
    executable.  The loader of the chain is a parameter ([Loader]), and so is the network: what
    a request is answered, which transactions are executed, confirmed or lost, and when those
    that were sent without waiting are executed. *)
From S2P Require Import Prelude.
From S2P Require Import Errors.
From S2P Require Import Monad.
From S2P Require Import Pda.
From S2P Require Import RpcExt.

(** ** The chain *)

(** The account of the program. *)
Record ProgramAccount : Type := mkProgramAccount {
  pa_owner : Pubkey;
  pa_data : list Z;
  pa_is_executable : bool;
  pa_lamports : Z }.

(** The instructions that are sent, for the program and its authority. *)
Inductive LoaderIx : Type :=
| CreateAccount (lamports : Z)
| Transfer (lamports : Z)
| Retract
| Truncate (new_size : Z)
| Write (offset : Z) (bytes : list Z)
| Deploy.

#[global] Instance LoaderIx_eq_dec : EqDecision LoaderIx.
Proof. solve_decision. Defined.

(** The loader and the constants of [arch_program]. *)
Class Loader : Type := {
  BPF_LOADER_ID : Pubkey;
  program_data_offset : nat;
  rent_of : Z -> Z;
  (** the account after an instruction, [None] when there is none *)
  loader_exec : LoaderIx -> option ProgramAccount -> option ProgramAccount;
  (** the serialized length of a transaction that writes some bytes *)
  write_tx_len : list Z -> nat;
  MAX_TX_BATCH_SIZE : nat }.

(** ** The network *)

Inductive Fate : Type := Processed | Unheard | Dropped.

Class UpNetwork : Type := {
  up_answers : nat -> bool;
  up_fate : nat -> Fate;
  (** of the pending transactions, those that are executed before a request; one may be
      executed again *)
  up_lands : nat -> list LoaderIx -> list LoaderIx }.

Record ProgramChain : Type := mkProgramChain {
  the_account : option ProgramAccount;
  pending : list LoaderIx;
  served : nat;
  (** all the states that the account has been in *)
  history : list ProgramAccount }.

Inductive UpgradeError : Type :=
| NoAnswer
| TxFailed
| NotLoaderOwned
| TooSmall
| WrongAuthority
| StillMissing (chunks : nat)
| NotExecutable
| ElfMismatch
| ChunkTooLong
| OutOfFuel.

Notation Upgrade := (STE UpgradeError ProgramChain).

(** The account moves to a new state; a failed instruction changes nothing. *)
Definition run_ix {LO : Loader} (c : ProgramChain) (ix : LoaderIx) : ProgramChain :=
  match loader_exec ix (the_account c) with
  | Some a => mkProgramChain (Some a) (pending c) (served c) (history c ++ [a])
  | None => c
  end.

Section Ops.
Context {LO : Loader} {NW : UpNetwork}.

Definition request : Upgrade nat := fun c =>
  let c := foldl run_ix c (filter (fun ix => ix ∈ pending c) (up_lands (served c) (pending c))) in
  (Ok (served c), mkProgramChain (the_account c) (pending c) (S (served c)) (history c)).

Definition read_program : Upgrade ProgramAccount :=
  let! n := request in
  let! c := st_get in
  match the_account c with
  | Some a => if up_answers n then st_ret a else st_raise NoAnswer
  | None => st_raise NoAnswer
  end.

Definition get_best_finalized_block_hash : Upgrade () :=
  let! n := request in
  if up_answers n then st_ret tt else st_raise NoAnswer.

Definition add_pending (ixs : list LoaderIx) : Upgrade () :=
  st_modify (fun c => mkProgramChain (the_account c) (pending c ++ ixs) (served c) (history c)).

(** [send_transaction] and [wait_for_processed_transaction], [None] when the transaction was
    executed, [Some TxFailed] when it failed: a transaction that nothing is heard of may still
    be executed later. *)
Definition send_and_wait (ix : LoaderIx) : Upgrade (option UpgradeError) :=
  let! n := request in
  let! c := st_get in
  match up_fate n with
  | Dropped => add_pending [ix] ;;; st_raise NoAnswer
  | fate =>
    match loader_exec ix (the_account c) with
    | None => st_ret (Some TxFailed)
    | Some _ =>
      st_put (run_ix c ix) ;;;
      match fate with Processed => st_ret None | _ => st_raise NoAnswer end
    end
  end.

(** [send_and_log], with the block hash that the transaction is built on. *)
Definition send_and_log (ix : LoaderIx) : Upgrade () :=
  get_best_finalized_block_hash ;;;
  let! failed := send_and_wait ix in
  match failed with Some e => st_raise e | None => st_ret tt end.

(** [send_transactions], in batches: they are executed later, if at all. *)
Definition send_transactions (ixs : list LoaderIx) : Upgrade () :=
  let! n := request in
  add_pending ixs ;;;
  if up_answers n then st_ret tt else st_raise NoAnswer.

Fixpoint send_batches (batches : list (list LoaderIx)) : Upgrade () :=
  match batches with
  | [] => st_ret tt
  | b :: batches => send_transactions b ;;; send_batches batches
  end.

(** An error of [send_transactions] is only logged. *)
Fixpoint try_batches (batches : list (list LoaderIx)) : Upgrade () :=
  match batches with
  | [] => st_ret tt
  | b :: batches => let! _ := request in add_pending b ;;; try_batches batches
  end.

(** ** Pieces *)

Definition NETWORK_TX_SIZE_LIMIT : nat := 1232.

Definition elf_write_chunk_max_len : Result UpgradeError nat :=
  let overhead := write_tx_len [] in
  if (NETWORK_TX_SIZE_LIMIT <? overhead)%nat then Panic
  else Ok (NETWORK_TX_SIZE_LIMIT - overhead)%nat.

(** [chunks(0)] is a panic. *)
Definition elf_chunks (chunk_size : nat) (elf : list Z) : Result UpgradeError (list (list Z)) :=
  if (chunk_size =? 0)%nat then Panic else Ok (chunks chunk_size elf).

(** [get(a..b)] *)
Definition get_range {A} (a b : nat) (l : list A) : option (list A) :=
  if (b <=? length l)%nat then Some (take (b - a) (drop a l)) else None.

(** The bytes behind the header, nothing when the account is shorter. *)
Definition onchain_code (account_data : list Z) : list Z := drop program_data_offset account_data.

Definition missing_chunks (account_data elf : list Z) (chunk_size : nat)
  : Result UpgradeError (list nat) :=
  let onchain := onchain_code account_data in
  let? cs := elf_chunks chunk_size elf in
  Ok (fst <$> filter (fun '(i, want) =>
        let start := (i * chunk_size)%nat in
        get_range start (start + length want)%nat onchain <> Some want) (imap pair cs)).

Definition chunk_at (elf : list Z) (chunk_size i : nat) : list Z :=
  take (Nat.min ((i + 1) * chunk_size) (length elf) - i * chunk_size) (drop (i * chunk_size) elf).

Definition write_ix (elf : list Z) (chunk_size i : nat) : LoaderIx :=
  Write (as_u32 (Z.of_nat (i * chunk_size))) (chunk_at elf chunk_size i).

(** ** [upgrade_in_place] *)

Definition MAX_WRITE_PASSES : nat := 4.
Definition WRITE_STALL_LIMIT : nat := 4.

(** [if acc.data.len() != needed { .. }]: missing rent, then the new size. *)
Definition resize (acc : ProgramAccount) (elf : list Z) : Upgrade () :=
  let needed := (program_data_offset + length elf)%nat in
  if (length (pa_data acc) =? needed)%nat then st_ret tt
  else
    let missing := Z.max 0 (rent_of (Z.of_nat needed) - pa_lamports acc) in
    (if 0 <? missing then send_and_log (Transfer missing) else st_ret tt) ;;;
    send_and_log (Truncate (as_u32 (Z.of_nat (length elf)))).

(** The wait for the writes of a pass: [todo] and the readbacks without progress. *)
Fixpoint poll (fuel : nat) (elf : list Z) (chunk_size : nat) (todo : list nat) (stalls : nat)
  : Upgrade (list nat) :=
  match fuel with
  | O => st_raise OutOfFuel
  | S fuel =>
    if (stalls <? WRITE_STALL_LIMIT)%nat then
      let! acc := read_program in
      let! remaining := st_lift (missing_chunks (pa_data acc) elf chunk_size) in
      let stalls := if (length remaining <? length todo)%nat then 0%nat else S stalls in
      match remaining with
      | [] => st_ret []
      | _ => poll fuel elf chunk_size remaining stalls
      end
    else st_ret todo
  end.

(** Every readback either misses fewer pieces or counts as a stall. *)
Definition poll_fuel (todo : list nat) : nat := S (WRITE_STALL_LIMIT * S (length todo)).

Fixpoint passes (n : nat) (elf : list Z) (chunk_size : nat) (todo : list nat)
  : Upgrade (list nat) :=
  match n with
  | O => st_ret todo
  | S n =>
    get_best_finalized_block_hash ;;;
    try_batches (chunks MAX_TX_BATCH_SIZE (write_ix elf chunk_size <$> todo)) ;;;
    let! todo := poll (poll_fuel todo) elf chunk_size todo 0 in
    match todo with
    | [] => st_ret []
    | _ => passes n elf chunk_size todo
    end
  end.

Definition upgrade_in_place (authority : Pubkey) (elf : list Z) : Upgrade () :=
  let! acc := read_program in
  st_guard (negb (bool_decide (pa_owner acc = BPF_LOADER_ID))) NotLoaderOwned ;;;
  st_guard (length (pa_data acc) <? program_data_offset)%nat TooSmall ;;;
  let! onchain_authority := st_lift (or_panic (get_range 0 32 (pa_data acc))) in
  st_guard (negb (bool_decide (onchain_authority = authority))) WrongAuthority ;;;
  (if pa_is_executable acc then send_and_log Retract else st_ret tt) ;;;
  resize acc elf ;;;
  let! chunk_size := st_lift elf_write_chunk_max_len in
  let! acc := read_program in
  let! todo := st_lift (missing_chunks (pa_data acc) elf chunk_size) in
  let! todo := passes MAX_WRITE_PASSES elf chunk_size todo in
  st_guard (negb (bool_decide (todo = []))) (StillMissing (length todo)) ;;;
  send_and_log Deploy ;;;
  let! acc := read_program in
  st_guard (negb (pa_is_executable acc)) NotExecutable ;;;
  let! code := st_lift (or_panic (if (program_data_offset <=? length (pa_data acc))%nat
                                  then Some (onchain_code (pa_data acc)) else None)) in
  st_guard (negb (bool_decide (code = elf))) ElfMismatch.

(** ** [deploy_program_elf] *)

Definition make_program_executable : Upgrade () := send_and_log Deploy.

(** [send_transaction] and [wait_for_processed_transaction], whose status nobody looks at. *)
Definition send_unchecked (ix : LoaderIx) : Upgrade () :=
  get_best_finalized_block_hash ;;; let! _ := send_and_wait ix in st_ret tt.

(** The confirmations of the writes, one after the other: what the network says of each, which
    was executed, if at all, with the pending ones. *)
Fixpoint confirm_all (ixs : list LoaderIx) : Upgrade () :=
  match ixs with
  | [] => st_ret tt
  | _ :: ixs =>
    let! n := request in
    match up_fate n with
    | Unheard => st_raise NoAnswer
    | Dropped => st_raise TxFailed
    | Processed => confirm_all ixs
    end
  end.

Definition write_program_elf (elf : list Z) : Upgrade () :=
  let! acc := read_program in
  (if pa_is_executable acc then send_unchecked Retract else st_ret tt) ;;;
  let needed := (program_data_offset + length elf)%nat in
  (if (length (pa_data acc) =? needed)%nat then st_ret tt
   else
     let missing := Z.max 0 (rent_of (Z.of_nat needed) - pa_lamports acc) in
     (if 0 <? missing then send_unchecked (Transfer missing) else st_ret tt) ;;;
     send_and_log (Truncate (as_u32 (Z.of_nat (length elf))))) ;;;
  get_best_finalized_block_hash ;;;
  let! chunk_size := st_lift elf_write_chunk_max_len in
  let! cs := st_lift (elf_chunks chunk_size elf) in
  let txs := imap (fun i c => Write (as_u32 (Z.of_nat (i * chunk_size))) c) cs in
  st_guard (negb (bool_decide (Forall (fun c => (write_tx_len c <= NETWORK_TX_SIZE_LIMIT)%nat) cs)))
    ChunkTooLong ;;;
  send_batches (chunks MAX_TX_BATCH_SIZE txs) ;;;
  confirm_all txs.

(** The account as it is, if the node answers and there is one. *)
Definition try_read : Upgrade (option ProgramAccount) :=
  let! n := request in
  let! c := st_get in
  st_ret (if up_answers n then the_account c else None).

Definition upload_and_deploy (elf : list Z) : Upgrade () :=
  write_program_elf elf ;;;
  let! after := read_program in
  st_guard (negb (bool_decide
    ((program_data_offset <= length (pa_data after))%nat /\ onchain_code (pa_data after) = elf)))
    ElfMismatch ;;;
  if pa_is_executable after then st_ret tt else make_program_executable.

Definition deploy_program_elf (elf : list Z) : Upgrade () :=
  let! info := try_read in
  match info with
  | Some account_info =>
    if (length (pa_data account_info) <? program_data_offset)%nat then upload_and_deploy elf
    else if bool_decide (onchain_code (pa_data account_info) = elf) then
      if pa_is_executable account_info then st_ret tt else make_program_executable
    else upload_and_deploy elf
  | None =>
    send_and_log (CreateAccount (rent_of (Z.of_nat (program_data_offset + length elf)))) ;;;
    upload_and_deploy elf
  end.

End Ops.
