(* ===== verification/UpgradeFacts.v ===== *)
(** * An upgrade never leaves a half-written program executable

    Whatever the network does, and however often a run is given up and started again, the
    account of the program is executable only with the code that it had before or with the
    whole new code; a run that is told of success leaves the new code executable; and a run
    that is not disturbed succeeds, from whatever an earlier one has left. *)
From stdpp Require Import list sets.
From S2P Require Import Prelude.
From S2P Require Import Errors.
From S2P Require Import Monad.
From S2P Require Import Pda.
From S2P Require Import RpcExt.
From S2P Require Import Upgrade.
From S2P Require Import ReadClientFacts.

#[local] Open Scope nat_scope.

(** ** Pieces *)

Lemma chunks_fuel_lookup {A} n fuel : 0 < n -> forall (l : list A) i,
  length l <= fuel ->
  chunks_fuel fuel n l !! i
  = if i * n <? length l then Some (take n (drop (i * n) l)) else None.
Proof.
  intros Hn. induction fuel as [| fuel IH]; intros [| x l] i Hl; cbn [chunks_fuel length] in *.
  - done.
  - lia.
  - done.
  - destruct i as [| i]; cbn [lookup list_lookup].
    + rewrite drop_0. done.
    + rewrite IH by (rewrite length_drop; cbn; lia). rewrite length_drop, drop_drop.
      replace (S i * n) with (n + i * n) by lia. cbn [length].
      destruct (Nat.ltb_spec (i * n) (S (length l) - n)), (Nat.ltb_spec (n + i * n) (S (length l)));
        try lia; done.
Qed.

Definition piece (elf : list Z) (n i : nat) : list Z := take n (drop (i * n) elf).

Lemma chunks_lookup n (l : list Z) i :
  0 < n -> chunks n l !! i = if i * n <? length l then Some (piece l n i) else None.
Proof. intros. by apply chunks_fuel_lookup. Qed.

Lemma chunk_at_piece elf n i : 0 < n -> chunk_at elf n i = piece elf n i.
Proof.
  intros. unfold chunk_at, piece. destruct (Nat.le_gt_cases ((i + 1) * n) (length elf)).
  - rewrite Nat.min_l by done. f_equal. lia.
  - rewrite Nat.min_r by lia. rewrite !take_ge; [done | rewrite length_drop; lia..].
Qed.

(** A piece is in place. *)
Definition in_place (code elf : list Z) (n i : nat) : Prop :=
  get_range (i * n) (i * n + length (piece elf n i)) code = Some (piece elf n i).

#[global] Instance in_place_dec code elf n i : Decision (in_place code elf n i).
Proof. unfold in_place. apply _. Defined.

Lemma piece_lookup elf n i j :
  j < length (piece elf n i) -> piece elf n i !! j = elf !! (i * n + j).
Proof.
  unfold piece. rewrite length_take, length_drop. intros Hj.
  rewrite lookup_take_lt, lookup_drop by lia. done.
Qed.

Lemma length_piece elf n i : length (piece elf n i) = Nat.min n (length elf - i * n).
Proof. unfold piece. by rewrite length_take, length_drop. Qed.

Lemma in_place_lookup code elf n i :
  0 < n -> i * n < length elf ->
  in_place code elf n i <->
  forall j, i * n <= j < i * n + length (piece elf n i) -> code !! j = elf !! j.
Proof.
  intros Hn Hi. unfold in_place, get_range. pose proof (length_piece elf n i) as Hl.
  replace (i * n + length (piece elf n i) - i * n) with (length (piece elf n i)) by lia.
  split.
  - destruct (Nat.leb_spec (i * n + length (piece elf n i)) (length code)) as [Hc | _]; [| done].
    intros [= H] j Hj. destruct (Nat.le_exists_sub (i * n) j) as (k & -> & _); [lia |].
    rewrite (Nat.add_comm k), <- (piece_lookup elf n i k) by lia.
    transitivity (take (length (piece elf n i)) (drop (i * n) code) !! k); [| by rewrite H].
    by rewrite lookup_take_lt, lookup_drop by lia.
  - intros H. assert (Hc : i * n + length (piece elf n i) <= length code).
    { assert (is_Some (code !! (i * n + length (piece elf n i) - 1))) as Hs%lookup_lt_is_Some; [| lia].
      rewrite H by lia. apply lookup_lt_is_Some. lia. }
    rewrite (proj2 (Nat.leb_le _ _) Hc). f_equal. apply list_eq_same_length with
      (n := length (piece elf n i)); [| by rewrite length_take, length_drop; lia |].
    { done. }
    intros j x y Hj Hx Hy. rewrite lookup_take_lt, lookup_drop, H in Hx by lia.
    rewrite piece_lookup in Hy by done. congruence.
Qed.

(** All the pieces make the whole. *)
Lemma all_in_place code elf n :
  0 < n -> length code = length elf -> (forall i, i * n < length elf -> in_place code elf n i) ->
  code = elf.
Proof.
  intros Hn Hl H. apply list_eq_same_length with (n := length elf); [done.. |].
  intros j x y Hj Hx Hy. pose proof (Nat.div_mod_eq j n) as Hd.
  pose proof (Nat.mod_upper_bound j n ltac:(lia)).
  assert (Hi : j / n * n < length elf) by lia.
  specialize (H (j / n) Hi). rewrite in_place_lookup in H by done.
  rewrite H in Hx; [congruence |]. rewrite length_piece. lia.
Qed.

Lemma whole_in_place elf n i : 0 < n -> i * n < length elf -> in_place elf elf n i.
Proof. intros. by apply in_place_lookup. Qed.

(** ** Writes *)

(** Some bytes are replaced. *)
Definition written (c : list Z) (off : nat) (bs : list Z) : list Z :=
  take off c ++ bs ++ drop (off + length bs) c.

Lemma written_lookup c off bs j :
  off + length bs <= length c ->
  written c off bs !! j
  = if decide (off <= j < off + length bs) then bs !! (j - off) else c !! j.
Proof.
  intros H. unfold written. assert (Ht : length (take off c) = off) by (rewrite length_take; lia).
  destruct (Nat.lt_ge_cases j off).
  - rewrite lookup_app_l by lia. rewrite decide_False, lookup_take_lt by lia. done.
  - rewrite lookup_app_r, Ht by lia. destruct (Nat.lt_ge_cases (j - off) (length bs)).
    + rewrite lookup_app_l, decide_True by lia. done.
    + rewrite lookup_app_r, lookup_drop, decide_False by lia. f_equal. lia.
Qed.

Lemma length_written c off bs :
  off + length bs <= length c -> length (written c off bs) = length c.
Proof. intros. unfold written. rewrite !length_app, length_take, length_drop. lia. Qed.

(** ** What is missing *)

Lemma filter_indexed {A} (P : nat * A -> Prop) (Q : nat -> Prop) `{!forall x, Decision (P x)}
  `{!forall i, Decision (Q i)} (l : list A) : forall k,
  (forall i w, l !! i = Some w -> P (k + i, w) <-> Q (k + i)) ->
  fst <$> filter P (imap (fun i => pair (k + i)) l) = filter Q (seq k (length l)).
Proof.
  induction l as [| x l IH]; intros k HPQ; [done |]. cbn [imap length seq].
  rewrite Nat.add_0_r, !filter_cons.
  assert (Hl : imap ((fun i => pair (k + i)) ∘ S) l = imap (fun i => pair (S k + i)) l)
    by (apply imap_ext; intros; cbn; f_equal; lia).
  assert (Hx : P (k, x) <-> Q k) by (rewrite <- (Nat.add_0_r k); by apply HPQ).
  rewrite Hl.
  assert (Hr : fst <$> filter P (imap (fun i => pair (S k + i)) l) = filter Q (seq (S k) (length l))).
  { apply IH. intros i w Hi. replace (S k + i) with (k + S i) by lia. by apply HPQ. }
  destruct (decide (P (k, x))), (decide (Q k)); try tauto.
  - cbn [fmap list_fmap]. f_equal. exact Hr.
Qed.

Lemma filter_length_impl {A} (P Q : A -> Prop) `{!forall x, Decision (P x)}
  `{!forall x, Decision (Q x)} (l : list A) :
  (forall x, x ∈ l -> P x -> Q x) -> length (filter P l) <= length (filter Q l).
Proof.
  induction l as [| x l IH]; intros HPQ; [done |]. rewrite !filter_cons.
  assert (length (filter P l) <= length (filter Q l)) by (apply IH; set_solver).
  destruct (decide (P x)) as [Hp |], (decide (Q x)) as [| Hq]; cbn; try lia.
  destruct Hq. apply HPQ; [set_solver | done].
Qed.

Section Missing.
Context {LO : Loader}.
Context (elf : list Z) (n : nat).
Hypothesis Hn : 0 < n.

Definition code (a : ProgramAccount) : list Z := onchain_code (pa_data a).

(** The pieces that are not in place. *)
Definition missing (c : list Z) : list nat :=
  filter (fun i => ~ in_place c elf n i) (seq 0 (length (chunks n elf))).

Lemma missing_chunks_ok data : missing_chunks data elf n = Ok (missing (onchain_code data)).
Proof.
  unfold missing_chunks, elf_chunks. rewrite (proj2 (Nat.eqb_neq _ _)) by lia. cbn. f_equal.
  apply (filter_indexed _ _ _ 0). intros i w Hi. cbn. rewrite chunks_lookup in Hi by done.
  destruct (_ <? _); [| done]. injection Hi as <-. done.
Qed.

Lemma elem_of_missing c i : i ∈ missing c <-> i * n < length elf /\ ~ in_place c elf n i.
Proof.
  unfold missing. rewrite list_elem_of_filter, elem_of_seq. cbn.
  assert (H : i < length (chunks n elf) <-> i * n < length elf).
  { rewrite <- lookup_lt_is_Some, chunks_lookup by done.
    destruct (Nat.ltb_spec (i * n) (length elf)); split; try done; try lia. }
  rewrite <- H. intuition lia.
Qed.

Lemma nothing_missing c : length c = length elf -> missing c = [] <-> c = elf.
Proof.
  intros Hl. split.
  - intros H. apply (all_in_place _ _ n); [done.. |]. intros i Hi.
    destruct (decide (in_place c elf n i)) as [| Hm]; [done |].
    assert (Hin : i ∈ missing c) by by apply elem_of_missing. rewrite H in Hin. set_solver.
  - intros ->. destruct (missing elf) as [| i l] eqn:E; [done |].
    assert (Hin : i ∈ missing elf) by (rewrite E; set_solver).
    apply elem_of_missing in Hin as [Hi Hm]. by destruct Hm; apply whole_in_place.
Qed.

(** Writing a piece leaves no other piece out of place. *)
Lemma write_keeps c i k :
  i * n + length (piece elf n i) <= length c -> i * n < length elf -> k * n < length elf ->
  in_place c elf n k \/ k = i -> in_place (written c (i * n) (piece elf n i)) elf n k.
Proof.
  intros Hc Hi Hk H. apply in_place_lookup; [done.. |]. intros j Hj. rewrite written_lookup by done.
  case_decide as Hd.
  - rewrite piece_lookup by lia. f_equal. lia.
  - destruct H as [H | ->]; [| done]. rewrite in_place_lookup in H by done. by apply H.
Qed.

Lemma write_misses_no_more c i :
  i * n + length (piece elf n i) <= length c -> i * n < length elf ->
  length (missing (written c (i * n) (piece elf n i))) <= length (missing c).
Proof.
  intros Hc Hi. unfold missing. apply filter_length_impl. intros k Hk Hm Hp. apply Hm.
  apply write_keeps; try done; [| by left].
  assert (Hin : k ∈ missing (written c (i * n) (piece elf n i))) by by apply list_elem_of_filter.
  by apply elem_of_missing in Hin as [? _].
Qed.
End Missing.

(** ** The loader *)

(** What the instructions of the loader do when they succeed.  The header may change with the
    state of the program, the code only as said here. *)
Class LoaderLaws {LO : Loader} : Prop := {
  header_room : 32 <= program_data_offset;
  loader_new ix a : loader_exec ix None = Some a -> pa_is_executable a = false;
  loader_create l a : loader_exec (CreateAccount l) (Some a) = None;
  loader_transfer l a a' : loader_exec (Transfer l) (Some a) = Some a' ->
    pa_data a' = pa_data a /\ pa_is_executable a' = pa_is_executable a;
  loader_retract a a' : loader_exec Retract (Some a) = Some a' ->
    pa_is_executable a' = false /\ code a' = code a;
  loader_truncate k a a' : loader_exec (Truncate k) (Some a) = Some a' ->
    pa_is_executable a' = false /\ length (code a') = Z.to_nat k /\
    forall j, j < length (code a) -> j < Z.to_nat k -> code a' !! j = code a !! j;
  loader_write off bs a a' : loader_exec (Write off bs) (Some a) = Some a' ->
    pa_is_executable a' = false /\ Z.to_nat off + length bs <= length (code a) /\
    code a' = written (code a) (Z.to_nat off) bs;
  loader_deploy a a' : loader_exec Deploy (Some a) = Some a' ->
    pa_is_executable a' = true /\ code a' = code a }.

Section Runs.
Context {LO : Loader} {LL : LoaderLaws} {NW : UpNetwork}.
Context (old elf : list Z) (n : nat).
Hypothesis Hn : 0 < n.
Hypothesis Hchunk : elf_write_chunk_max_len = Ok n.
Hypothesis Helf : elf <> [].
Hypothesis Hsmall : (Z.of_nat (length elf) < 2 ^ 32)%Z.

(** Executable only with the old or the new code. *)
Definition safe (a : ProgramAccount) : Prop :=
  pa_is_executable a = true -> code a = old \/ code a = elf.

Definition complete (o : option ProgramAccount) : Prop := exists a, o = Some a /\ code a = elf.
Definition sized (o : option ProgramAccount) : Prop :=
  exists a, o = Some a /\ length (code a) = length elf.
(** Of the right size, and at most so many pieces are missing. *)
Definition few (k : nat) (o : option ProgramAccount) : Prop :=
  exists a, o = Some a /\ length (code a) = length elf /\ length (missing elf n (code a)) <= k.

(** The instructions that a run sends; the last one only when the code is complete. *)
Definition expected (o : option ProgramAccount) (ix : LoaderIx) : Prop :=
  match ix with
  | CreateAccount _ | Transfer _ | Retract => True
  | Truncate k => k = Z.of_nat (length elf)
  | Write off bs => exists i, i * n < length elf /\ off = Z.of_nat (i * n) /\ bs = piece elf n i
  | Deploy => complete o
  end.

Record good (c : ProgramChain) : Prop := {
  g_history : Forall safe (history c);
  g_account a : the_account c = Some a -> safe a;
  g_pending : Forall (expected (the_account c)) (pending c) }.

(** Assertions on the account that no instruction of a run takes back. *)
Definition stable (P : option ProgramAccount -> Prop) : Prop :=
  forall o ix a', expected o ix -> P o -> loader_exec ix o = Some a' -> P (Some a').

Lemma length_same_code (a a' : ProgramAccount) : pa_data a' = pa_data a -> code a' = code a.
Proof. unfold code. by intros ->. Qed.

(** The code after an expected instruction on an account of the right size. *)
Lemma sized_step ix a a' :
  expected (Some a) ix -> length (code a) = length elf -> loader_exec ix (Some a) = Some a' ->
  length (code a') = length elf /\
  length (missing elf n (code a')) <= length (missing elf n (code a)).
Proof.
  intros He Hs H. destruct ix; cbn in He.
  - by rewrite loader_create in H.
  - apply loader_transfer in H as [H _]. apply length_same_code in H as ->. done.
  - apply loader_retract in H as [_ ->]. done.
  - subst. apply loader_truncate in H as (_ & Hl & Hj). rewrite Nat2Z.id in Hl, Hj.
    assert (code a' = code a) as ->; [| done].
    apply list_eq_same_length with (n := length elf); [done.. |]. intros j x y Hlt Hx Hy.
    rewrite Hj in Hx by lia. congruence.
  - destruct He as (i & Hi & -> & ->). apply loader_write in H as (_ & Hr & ->).
    rewrite Nat2Z.id in *. rewrite length_written by done. split; [done |].
    by apply write_misses_no_more.
  - apply loader_deploy in H as [_ ->]. done.
Qed.

Lemma stable_sized : stable sized.
Proof.
  intros o ix a' He (a & -> & Hs) H. exists a'. split; [done |]. by eapply sized_step.
Qed.

Lemma stable_few k : stable (few k).
Proof.
  intros o ix a' He (a & -> & Hs & Hk) H. destruct (sized_step _ _ _ He Hs H).
  exists a'. split_and!; try done. lia.
Qed.

Lemma complete_few o : complete o <-> few 0 o.
Proof.
  split.
  - intros (a & -> & H). exists a. rewrite H. split_and!; try done.
    by rewrite (proj2 (nothing_missing elf n Hn elf eq_refl)).
  - intros (a & -> & Hl & Hm). exists a. split; [done |]. apply (nothing_missing elf n Hn _ Hl).
    by apply length_zero_iff_nil; lia.
Qed.

Lemma stable_complete : stable complete.
Proof.
  intros o ix a' He Hc H. apply complete_few. apply complete_few in Hc.
  by eapply (stable_few 0).
Qed.

Lemma stable_true : stable (fun _ => True).
Proof. done. Qed.
Lemma stable_impl (K : Prop) P : stable P -> stable (fun o => K -> P o).
Proof. intros HP o ix a' He H1 H2 HK. by eapply HP; eauto. Qed.
Lemma stable_and P Q : stable P -> stable Q -> stable (fun o => P o /\ Q o).
Proof. intros HP HQ o ix a' He [H1 H2] H. split; [by eapply HP | by eapply HQ]. Qed.

Lemma safe_step o ix a' :
  (forall a, o = Some a -> safe a) -> expected o ix -> loader_exec ix o = Some a' -> safe a'.
Proof.
  intros Ho He H Hx. destruct o as [a |]; [| apply loader_new in H; congruence].
  specialize (Ho a eq_refl). destruct ix; cbn in He.
  - by rewrite loader_create in H.
  - apply loader_transfer in H as [Hd E]. apply length_same_code in Hd as ->.
    apply Ho. congruence.
  - apply loader_retract in H as [? _]. congruence.
  - apply loader_truncate in H as (? & _). congruence.
  - apply loader_write in H as (? & _). congruence.
  - apply loader_deploy in H as [_ ->]. destruct He as (b & [= <-] & ->). by right.
Qed.

(** An expected instruction stays expected. *)
Lemma expected_step o ix a' jx :
  expected o ix -> loader_exec ix o = Some a' -> expected o jx -> expected (Some a') jx.
Proof. intros He H Hj. destruct jx; cbn in *; try done. by eapply stable_complete. Qed.

Lemma run_good c ix : good c -> expected (the_account c) ix -> good (run_ix c ix).
Proof.
  intros [Hh Ha Hp] He. unfold run_ix. destruct (loader_exec ix (the_account c)) as [a' |] eqn:E;
    [| done].
  assert (Hs : safe a') by (eapply safe_step; [exact Ha | exact He | exact E]). split; cbn.
  - apply Forall_app. auto.
  - by intros a [= <-].
  - eapply list.Forall_impl; [exact Hp |]. intros jx Hj.
    exact (expected_step _ _ _ _ He E Hj).
Qed.

Lemma run_stable P c ix :
  stable P -> expected (the_account c) ix -> P (the_account c) -> P (the_account (run_ix c ix)).
Proof.
  intros HP He Hc. unfold run_ix. destruct (loader_exec ix (the_account c)) eqn:E; [| done].
  by eapply HP.
Qed.

Lemma run_all_good P ixs : stable P -> forall c,
  good c -> P (the_account c) -> Forall (expected (the_account c)) ixs ->
  good (foldl run_ix c ixs) /\ P (the_account (foldl run_ix c ixs)).
Proof.
  intros HP. induction ixs as [| ix ixs IH]; intros c Hg Hc Hf; [done |]. cbn.
  apply Forall_cons_iff in Hf as [He Hf]. apply IH; [by apply run_good | by apply run_stable |].
  unfold run_ix. destruct (loader_exec ix (the_account c)) as [a' |] eqn:E; [| done].
  eapply list.Forall_impl; [exact Hf |]. intros jx Hj.
    exact (expected_step _ _ _ _ He E Hj).
Qed.

(** ** Triples *)

(** An operation, started from a good chain whose account satisfies [P], leaves a good chain,
    does not panic, does not run out of fuel, and its results satisfy [Q]. *)
Definition triple {A} (P : option ProgramAccount -> Prop) (m : Upgrade A)
  (Q : A -> option ProgramAccount -> Prop) : Prop :=
  forall c, good c -> P (the_account c) ->
  good (snd (m c)) /\
  match fst (m c) with
  | Ok a => Q a (the_account (snd (m c)))
  | Err e => e <> OutOfFuel
  | Panic => False
  end.

Lemma t_ret {A} P (a : A) Q : (forall o, P o -> Q a o) -> triple P (st_ret a) Q.
Proof. intros H c Hg Hp. split; [done | by apply H]. Qed.
Lemma t_raise {A} P e (Q : A -> _) : e <> OutOfFuel -> triple P (st_raise e) Q.
Proof. intros H c Hg Hp. done. Qed.
Lemma t_bind {A B} P (m : Upgrade A) R (k : A -> Upgrade B) Q :
  triple P m R -> (forall a, triple (R a) (k a) Q) -> triple P (st_bind m k) Q.
Proof.
  intros Hm Hk c Hg Hp. destruct (Hm c Hg Hp) as [Hg' Hr]. unfold st_bind.
  destruct (m c) as [[a | e |] c']; cbn in *; [by apply Hk | done..].
Qed.
Lemma t_pre {A} (P P' : option ProgramAccount -> Prop) (m : Upgrade A) Q :
  (forall o, P o -> P' o) -> triple P' m Q -> triple P m Q.
Proof. intros H Hm c Hg Hp. by apply Hm, H. Qed.
Lemma t_post {A} P (m : Upgrade A) (Q Q' : A -> option ProgramAccount -> Prop) :
  triple P m Q -> (forall a o, Q a o -> Q' a o) -> triple P m Q'.
Proof.
  intros Hm H c Hg Hp. destruct (Hm c Hg Hp) as [? Hr]. split; [done |].
  destruct (fst (m c)); auto.
Qed.
Lemma t_fact {A} (K : Prop) P (m : Upgrade A) Q :
  (K -> triple P m Q) -> triple (fun o => K /\ P o) m Q.
Proof. intros H c Hg [HK Hp]. by apply H. Qed.
Lemma t_guard P b e : e <> OutOfFuel -> triple P (st_guard b e) (fun _ o => b = false /\ P o).
Proof. intros H c Hg Hp. unfold st_guard. by destruct b. Qed.
Lemma t_lift {A} P (a : A) : triple P (st_lift (Ok a)) (fun b o => b = a /\ P o).
Proof. intros c Hg Hp. done. Qed.

Lemma t_check {A} P b e (m : Upgrade A) Q :
  e <> OutOfFuel -> (b = false -> triple P m Q) -> triple P (st_guard b e ;;; m) Q.
Proof. intros He H. eapply t_bind; [by apply t_guard |]. intros ?. by apply t_fact. Qed.

Lemma t_lifted {A B} P (a : A) (m : A -> Upgrade B) Q :
  triple P (m a) Q -> triple P (st_bind (st_lift (Ok a)) m) Q.
Proof. intros H. eapply t_bind; [apply t_lift |]. intros b. apply t_fact. by intros ->. Qed.

Lemma check_true (K : Prop) `{!Decision K} : negb (bool_decide K) = false -> K.
Proof. intros H. apply negb_false_iff, bool_decide_eq_true in H. done. Qed.

Lemma t_request P : stable P -> triple P request (fun _ => P).
Proof.
  intros HP c Hg Hc. unfold request. cbn.
  destruct (run_all_good P (filter (fun ix => ix ∈ pending c) (up_lands (served c) (pending c)))
    HP c Hg Hc) as [[Hh Ha Hp] Hq]; [| split; [by split | done]].
  destruct Hg as [_ _ Hp]. rewrite list.Forall_forall in Hp |- *.
  intros ix [Hin _]%list_elem_of_filter. by apply Hp.
Qed.

(** What is read is what the account is. *)
Lemma t_read {A} P (m : ProgramAccount -> Upgrade A) Q :
  stable P -> (forall a, P (Some a) -> triple (fun o => o = Some a) (m a) Q) ->
  triple P (st_bind read_program m) Q.
Proof.
  intros HP Hm c Hg Hc. destruct (t_request P HP c Hg Hc) as [Hg' Hp]. unfold read_program, st_bind.
  destruct (request c) as [[k | e |] c'] eqn:E; [| by unfold request in E..]. cbn in *.
  destruct (the_account c') as [a |] eqn:Ea; [| done]. destruct (up_answers k); [| done].
  by apply Hm.
Qed.

Lemma t_hash P : stable P -> triple P get_best_finalized_block_hash (fun _ => P).
Proof.
  intros HP. eapply t_bind; [by apply t_request |]. intros k. cbn.
  destruct (up_answers k); [by apply t_ret | by apply t_raise].
Qed.

Lemma t_pending P ixs :
  (forall o, P o -> Forall (expected o) ixs) -> triple P (add_pending ixs) (fun _ => P).
Proof.
  intros H c [Hh Ha Hp] Hc. split; [| done]. split; cbn; [done.. |]. apply Forall_app. auto.
Qed.

(** A single transaction: [Q] holds of what it leaves when it is executed. *)
Lemma t_send_and_wait P ix (Q : option ProgramAccount -> Prop) :
  stable P -> (forall o, P o -> expected o ix) ->
  (forall o a, P o -> loader_exec ix o = Some a -> Q (Some a)) ->
  triple P (send_and_wait ix)
    (fun r o => match r with None => Q o | Some e => e = TxFailed /\ P o end).
Proof.
  intros HP He HQ. eapply t_bind; [by apply t_request |]. intros k c Hg Hc. unfold st_bind. cbn.
  pose proof (run_good c ix Hg (He _ Hc)) as Hr.
  pose proof (t_pending P [ix] ltac:(auto) c Hg Hc) as Hd. unfold run_ix in *.
  destruct (up_fate k); cbn.
  1, 2: destruct (loader_exec ix (the_account c)) as [a |] eqn:E; cbn; [| done];
    split; [exact Hr | ]; cbn; by eauto.
  split; [exact (proj1 Hd) | done].
Qed.

Lemma t_send P ix (Q : option ProgramAccount -> Prop) :
  stable P -> (forall o, P o -> expected o ix) ->
  (forall o a, P o -> loader_exec ix o = Some a -> Q (Some a)) ->
  triple P (send_and_log ix) (fun _ => Q).
Proof.
  intros HP He HQ. eapply t_bind; [by apply t_hash |]. intros ?.
  eapply t_bind; [by apply (t_send_and_wait P ix Q) |].
  intros [e |]; [| by apply t_ret]. apply t_fact. intros He'. apply t_raise. by rewrite He'.
Qed.

Lemma t_send_unchecked P ix :
  stable P -> (forall o, P o -> expected o ix) -> triple P (send_unchecked ix) (fun _ => P).
Proof.
  intros HP He. eapply t_bind; [by apply t_hash |]. intros ?. eapply t_bind.
  - apply (t_send_and_wait P ix P); [done.. |]. intros o b Hp H. exact (HP _ _ _ (He _ Hp) Hp H).
  - intros [e |]; apply t_ret; naive_solver.
Qed.

Lemma t_if {A} P (b : bool) (m1 m2 : Upgrade A) Q :
  (b = true -> triple P m1 Q) -> (b = false -> triple P m2 Q) -> triple P (if b then m1 else m2) Q.
Proof. destruct b; auto. Qed.

Lemma Forall_chunks {A} (K : A -> Prop) fuel k : forall l,
  Forall K l -> Forall (Forall K) (chunks_fuel fuel k l).
Proof.
  induction fuel as [| fuel IH]; intros [| x l] H; cbn; try by constructor.
  constructor; [by apply Forall_take | by apply IH, Forall_drop].
Qed.

Lemma t_transactions P ixs :
  stable P -> (forall o, P o -> Forall (expected o) ixs) ->
  triple P (send_transactions ixs) (fun _ => P).
Proof.
  intros HP He. eapply t_bind; [by apply t_request |]. intros k.
  eapply t_bind; [by apply t_pending |]. intros ?.
  destruct (up_answers k); [by apply t_ret | by apply t_raise].
Qed.

Lemma t_send_batches P bs :
  stable P -> (forall o, P o -> Forall (Forall (expected o)) bs) ->
  triple P (send_batches bs) (fun _ => P).
Proof.
  intros HP. induction bs as [| b bs IH]; intros He; [by apply t_ret |].
  assert (forall o, P o -> Forall (expected o) b /\ Forall (Forall (expected o)) bs) as Hb.
  { intros o Ho. by apply Forall_cons_iff, He. }
  eapply t_bind; [apply t_transactions; [done |]; naive_solver |]. intros ?. apply IH. naive_solver.
Qed.

Lemma t_try_batches P bs :
  stable P -> (forall o, P o -> Forall (Forall (expected o)) bs) ->
  triple P (try_batches bs) (fun _ => P).
Proof.
  intros HP. induction bs as [| b bs IH]; intros He; [by apply t_ret |].
  assert (forall o, P o -> Forall (expected o) b /\ Forall (Forall (expected o)) bs) as Hb.
  { intros o Ho. by apply Forall_cons_iff, He. }
  eapply t_bind; [by apply t_request |]. intros ?.
  eapply t_bind; [apply t_pending; naive_solver |]. intros ?. apply IH. naive_solver.
Qed.

(** ** The runs *)

(** What is left to do: pieces of the code, and no others are missing. *)
Definition left_to_do (todo : list nat) (o : option ProgramAccount) : Prop :=
  Forall (fun i => i * n < length elf) todo /\ few (length todo) o.

Lemma stable_left todo : stable (left_to_do todo).
Proof. intros o ix a' He [Hv Hf] H. split; [done |]. by eapply stable_few. Qed.

Lemma left_missing a : length (code a) = length elf ->
  left_to_do (missing elf n (code a)) (Some a).
Proof.
  intros Hl. split; [| by exists a].
  apply list.Forall_forall. intros i Hi. by apply elem_of_missing in Hi as [? _].
Qed.

Lemma as_u32_small i : i <= length elf -> as_u32 (Z.of_nat i) = Z.of_nat i.
Proof. intros. unfold as_u32. apply Z.mod_small. lia. Qed.

Lemma expected_write i o : i * n < length elf -> expected o (write_ix elf n i).
Proof.
  intros Hi. exists i. rewrite as_u32_small, chunk_at_piece by (done || lia). done.
Qed.

Lemma t_poll fuel : forall todo stalls,
  WRITE_STALL_LIMIT * length todo + (WRITE_STALL_LIMIT - stalls) < fuel ->
  triple (left_to_do todo) (poll fuel elf n todo stalls) left_to_do.
Proof.
  induction fuel as [| fuel IH]; intros todo stalls Hf; [lia |]. cbn [poll].
  destruct (Nat.ltb_spec stalls WRITE_STALL_LIMIT); [| by apply t_ret].
  apply t_read; [apply stable_left |]. intros a (_ & b & [= <-] & Hl & Hle).
  rewrite missing_chunks_ok by done. apply t_lifted. fold (code a).
  apply (t_pre _ (left_to_do (missing elf n (code a)))); [intros o ->; by apply left_missing |].
  destruct (missing elf n (code a)) as [| i rem] eqn:E; [by apply t_ret |].
  rewrite <- E in *. apply IH. unfold WRITE_STALL_LIMIT in *.
  destruct (Nat.ltb_spec (length (missing elf n (code a))) (length todo)); lia.
Qed.

Lemma t_passes k : forall todo,
  triple (left_to_do todo) (passes k elf n todo) left_to_do.
Proof.
  induction k as [| k IH]; intros todo; [by apply t_ret |]. cbn [passes].
  eapply t_bind; [apply t_hash, stable_left |]. intros ?. eapply t_bind.
  { apply (t_try_batches (left_to_do todo)); [apply stable_left |]. intros o [Hv _].
    apply Forall_chunks, Forall_fmap. eapply list.Forall_impl; [exact Hv |]. intros i Hi.
    by apply expected_write. }
  intros ?. eapply t_bind; [apply t_poll; unfold poll_fuel; lia |].
  intros [| i todo']; [by apply t_ret | apply IH].
Qed.

Lemma stable_is_Some : stable is_Some.
Proof. intros o ix a' _ _ _. by exists a'. Qed.

Lemma t_truncate :
  triple is_Some (send_and_log (Truncate (as_u32 (Z.of_nat (length elf))))) (fun _ => sized).
Proof.
  rewrite as_u32_small by done. apply (t_send is_Some); [apply stable_is_Some | done |].
  intros o a [b ->] H. apply loader_truncate in H as (_ & Hl & _). exists a.
  by rewrite Nat2Z.id in Hl.
Qed.

(** The code has the size of the account less the header. *)
Lemma sized_data a :
  length (pa_data a) = program_data_offset + length elf -> sized (Some a).
Proof. intros H. exists a. split; [done |]. unfold code, onchain_code. rewrite length_drop. lia. Qed.

(** An account of this size, if it is so, keeps its size. *)
Definition sized_if (a : ProgramAccount) (o : option ProgramAccount) : Prop :=
  is_Some o /\ (length (pa_data a) = program_data_offset + length elf -> sized o).

Lemma stable_sized_if a : stable (sized_if a).
Proof. apply stable_and; [apply stable_is_Some | apply stable_impl, stable_sized]. Qed.

Lemma sized_if_read a : sized_if a (Some a).
Proof. split; [by exists a | apply sized_data]. Qed.

(** The two resizings differ in what they do when the transfer fails. *)
Lemma t_resize_with (send : LoaderIx -> Upgrade ()) a l :
  (forall P ix, stable P -> (forall o, P o -> expected o ix) -> triple P (send ix) (fun _ => P)) ->
  triple (sized_if a)
    (if (length (pa_data a) =? program_data_offset + length elf) then st_ret tt
     else (if (0 <? l)%Z then send (Transfer l) else st_ret tt) ;;;
          send_and_log (Truncate (as_u32 (Z.of_nat (length elf))))) (fun _ => sized).
Proof.
  intros Hs. apply t_if; intros E.
  - apply t_ret. intros o [_ H]. by apply H, Nat.eqb_eq.
  - eapply t_bind with (R := fun _ => is_Some); [| intros ?; apply t_truncate].
    apply (t_pre _ is_Some); [by intros o [? _] |].
    apply t_if; intros ?; [apply Hs; [apply stable_is_Some | done] | by apply t_ret].
Qed.

Lemma t_send_stable P ix :
  stable P -> (forall o, P o -> expected o ix) -> triple P (send_and_log ix) (fun _ => P).
Proof.
  intros HP He. apply t_send; [done.. |]. intros o a Hp H. exact (HP _ _ _ (He _ Hp) Hp H).
Qed.

Lemma t_resize a : triple (sized_if a) (resize a elf) (fun _ => sized).
Proof. apply t_resize_with. exact t_send_stable. Qed.

(** The new code, executable. *)
Definition finished (o : option ProgramAccount) : Prop :=
  exists a, o = Some a /\ pa_is_executable a = true /\ code a = elf.

Lemma left_nothing o : left_to_do [] o -> complete o.
Proof. intros [_ H]. by apply complete_few. Qed.

(** The pieces are written, or the run is given up. *)
Lemma t_write_all (m : Upgrade ()) Q :
  triple complete m Q ->
  triple sized
    (let! a := read_program in
     let! todo := st_lift (missing_chunks (pa_data a) elf n) in
     let! todo := passes MAX_WRITE_PASSES elf n todo in
     st_guard (negb (bool_decide (todo = []))) (StillMissing (length todo)) ;;; m) Q.
Proof.
  intros Hm. apply t_read; [apply stable_sized |]. intros a (b & [= <-] & Hl).
  rewrite missing_chunks_ok by done. apply t_lifted. fold (code a). eapply t_bind.
  { eapply t_pre; [| apply t_passes]. intros o ->. by apply left_missing. }
  intros todo. apply t_check; [done |]. intros ->%check_true. eapply t_pre; [| exact Hm].
  apply left_nothing.
Qed.

(** The instruction that makes the program executable is sent for the whole code only. *)
Lemma t_deploy : triple complete (send_and_log Deploy) (fun _ => finished).
Proof.
  apply t_send; [apply stable_complete | done |]. intros o a (b & -> & Hc) H.
  apply loader_deploy in H as [Hx He]. exists a. by rewrite He.
Qed.

Lemma complete_data a : complete (Some a) -> program_data_offset <= length (pa_data a).
Proof.
  intros (b & [= <-] & H). unfold code, onchain_code in H.
  destruct (Nat.le_gt_cases program_data_offset (length (pa_data a))); [done |].
  rewrite drop_ge in H by lia. by destruct Helf.
Qed.

Lemma finished_complete o : finished o -> complete o.
Proof. intros (a & -> & _ & H). by exists a. Qed.

(** The last readback. *)
Lemma t_verify :
  triple complete
    (let! acc := read_program in
     st_guard (negb (pa_is_executable acc)) NotExecutable ;;;
     let! code := st_lift (or_panic (if (program_data_offset <=? length (pa_data acc))
                                     then Some (onchain_code (pa_data acc)) else None)) in
     st_guard (negb (bool_decide (code = elf))) ElfMismatch) (fun _ => finished).
Proof.
  apply t_read; [apply stable_complete |]. intros a Hc. apply t_check; [done |].
  intros Hx%negb_false_iff. rewrite (proj2 (Nat.leb_le _ _)) by by apply complete_data.
  apply t_lifted. eapply t_post; [apply t_guard; done |]. intros ? o [He%check_true ->].
  by exists a.
Qed.

Lemma t_upgrade_in_place authority :
  triple (fun _ => True) (upgrade_in_place authority elf) (fun _ => finished).
Proof.
  apply t_read; [apply stable_true |]. intros a _.
  apply t_check; [done |]. intros _. apply t_check; [done |]. intros Hlen.
  assert (Ha : 32 <= length (pa_data a)).
  { apply Nat.ltb_ge in Hlen. pose proof header_room. lia. }
  unfold get_range at 1. rewrite (proj2 (Nat.leb_le _ _) Ha). apply t_lifted.
  apply t_check; [done |]. intros _. rewrite Hchunk.
  apply (t_pre _ (sized_if a)); [intros o ->; apply sized_if_read |].
  eapply t_bind with (R := fun _ => sized_if a).
  { apply t_if; intros _; [apply t_send_stable; [apply stable_sized_if | done] | by apply t_ret]. }
  intros ?. eapply t_bind; [apply t_resize |]. intros ?. apply t_lifted. apply t_write_all.
  eapply t_bind; [apply t_deploy |]. intros ?.
  eapply t_pre; [apply finished_complete | apply t_verify].
Qed.

Lemma expected_writes o :
  Forall (expected o) (imap (fun i c => Write (as_u32 (Z.of_nat (i * n))) c) (chunks n elf)).
Proof.
  apply list.Forall_lookup. intros i ix H. rewrite list_lookup_imap, chunks_lookup in H by done.
  destruct (Nat.ltb_spec (i * n) (length elf)); [| done]. injection H as <-.
  exists i. by rewrite as_u32_small by lia.
Qed.

Lemma t_confirm_all P ixs : stable P -> triple P (confirm_all ixs) (fun _ => P).
Proof.
  intros HP. induction ixs as [| ix ixs IH]; [by apply t_ret |].
  eapply t_bind; [by apply t_request |]. intros k.
  destruct (up_fate k); [exact IH | by apply t_raise..].
Qed.

Lemma t_write_program_elf : triple (fun _ => True) (write_program_elf elf) (fun _ => sized).
Proof.
  apply t_read; [apply stable_true |]. intros a _.
  apply (t_pre _ (sized_if a)); [intros o ->; apply sized_if_read |].
  eapply t_bind with (R := fun _ => sized_if a).
  { apply t_if; intros _; [apply t_send_unchecked; [apply stable_sized_if | done] | by apply t_ret]. }
  intros ?. eapply t_bind; [apply (t_resize_with send_unchecked), t_send_unchecked |]. intros ?.
  eapply t_bind; [apply t_hash, stable_sized |]. intros ?. rewrite Hchunk. apply t_lifted.
  unfold elf_chunks. rewrite (proj2 (Nat.eqb_neq _ _)) by lia. apply t_lifted.
  apply t_check; [done |]. intros _. eapply t_bind; [| intros ?; apply t_confirm_all, stable_sized].
  apply t_send_batches; [apply stable_sized |]. intros o _. apply Forall_chunks, expected_writes.
Qed.

Lemma t_upload : triple (fun _ => True) (upload_and_deploy elf) (fun _ => finished).
Proof.
  eapply t_bind; [apply t_write_program_elf |]. intros [].
  apply t_read; [apply stable_sized |]. intros a _. apply t_check; [done |].
  intros [_ Hc]%check_true. apply t_if; intros Hx; [apply t_ret; intros o ->; by exists a |].
  eapply t_pre; [| apply t_deploy]. intros o ->. by exists a.
Qed.

Lemma t_deploy_program_elf :
  triple (fun _ => True) (deploy_program_elf elf) (fun _ => finished).
Proof.
  eapply t_bind with (R := fun r o => match r with Some a => o = Some a | None => True end).
  - eapply t_bind; [apply t_request, stable_true |]. intros k c Hg _. unfold st_bind. cbn.
    by destruct (up_answers k), (the_account c) eqn:E.
  - intros [a |].
    + apply t_if; intros _; [apply (t_pre _ (fun _ => True)); [done | apply t_upload] |].
      apply t_if; intros Hc; [| apply (t_pre _ (fun _ => True)); [done | apply t_upload]].
      apply bool_decide_eq_true in Hc.
      apply t_if; intros Hx; [apply t_ret; intros o ->; by exists a |].
      eapply t_pre; [| apply t_deploy]. intros o ->. by exists a.
    + eapply t_bind; [apply t_send_stable; [apply stable_true | done] |]. intros ?. apply t_upload.
Qed.

End Runs.

(** ** Sequences of runs *)

(** One of the two tools is run. *)
Inductive Run : Type := InPlace (authority : Pubkey) | FromFile.

Definition run_of {LO : Loader} {NW : UpNetwork} (elf : list Z) (r : Run) : Upgrade () :=
  match r with
  | InPlace authority => upgrade_in_place authority elf
  | FromFile => deploy_program_elf elf
  end.

(** Runs one after the other, whatever comes of them. *)
Definition runs_of {LO : Loader} {NW : UpNetwork} (elf : list Z) (c : ProgramChain) (rs : list Run)
  : ProgramChain := foldl (fun c r => snd (run_of elf r c)) c rs.

Section Safety.
Context {LO : Loader} {LL : LoaderLaws} {NW : UpNetwork}.

Lemma run_triple old elf n r :
  0 < n -> elf_write_chunk_max_len = Ok n -> elf <> [] -> (Z.of_nat (length elf) < 2 ^ 32)%Z ->
  triple old elf n (fun _ => True) (run_of elf r) (fun _ => finished elf).
Proof.
  intros. destruct r; [by apply t_upgrade_in_place | by apply t_deploy_program_elf].
Qed.

(** C25: Deploying and upgrading are safe: over any number of runs of the two tools with the same
    new code, whatever the network answers, loses or executes late or twice, every state of the
    program's account that is executable has the code that it had at first or the whole new code;
    no run panics or goes on for ever; and a run that reports success leaves the account
    executable, with exactly the new code. *)
Theorem upgrades_are_safe old elf n c rs r :
  0 < n -> elf_write_chunk_max_len = Ok n -> elf <> [] -> (Z.of_nat (length elf) < 2 ^ 32)%Z ->
  (forall a, the_account c = Some a -> pa_is_executable a = true -> code a = old) ->
  pending c = [] -> history c = [] ->
  let '(res, c') := run_of elf r (runs_of elf c rs) in
  Forall (fun a => pa_is_executable a = true -> code a = old \/ code a = elf) (history c') /\
  res <> Panic /\ res <> Err OutOfFuel /\
  (res = Ok tt -> exists a, the_account c' = Some a /\ pa_is_executable a = true /\ code a = elf).
Proof.
  intros Hn Hk He Hs Hold Hp Hh.
  assert (Hg : good old elf n c).
  { split; [by rewrite Hh | intros a Ha Hx; left; by eapply Hold | by rewrite Hp]. }
  assert (Hr : good old elf n (runs_of elf c rs)).
  { clear Hold Hp Hh. revert c Hg. induction rs as [| r' rs IH]; intros c Hg; [done |]. apply IH.
    by apply (run_triple old elf n r' Hn Hk He Hs c Hg). }
  destruct (run_triple old elf n r Hn Hk He Hs _ Hr I) as [[Hh' _ _] Hq].
  destruct (run_of elf r (runs_of elf c rs)) as [[[] | e |] c']; cbn in *; naive_solver.
Qed.

End Safety.

(** * An undisturbed upgrade succeeds

    When the network answers, confirms what it executes and executes what it was sent, a run
    of [upgrade_in_place] succeeds from whatever code, executable or not, whole or half-written,
    of whatever size, the account has. *)

#[local] Open Scope nat_scope.

(** Every request is answered, every transaction that is waited for is executed and confirmed,
    and those that are not are executed before the next request, and maybe again. *)
Class Undisturbed {NW : UpNetwork} : Prop := {
  und_answers k : up_answers k = true;
  und_fate k : up_fate k = Processed;
  und_lands k p : up_lands k p = p }.

(** When the instructions of the loader succeed: the code can be changed only while the program
    is not executable, an account needs the rent of its size, the payer transfers what it has
    and no more, and a program is accepted when its code is the one given. *)
Class LoaderAccepts {LO : Loader} (elf : list Z) (funds : Z) : Prop := {
  accepts_retract a : pa_is_executable a = true ->
    exists a', loader_exec Retract (Some a) = Some a' /\ pa_lamports a' = pa_lamports a;
  accepts_transfer l a : (0 <= l <= funds)%Z ->
    exists a', loader_exec (Transfer l) (Some a) = Some a' /\
               pa_lamports a' = (pa_lamports a + l)%Z;
  accepts_truncate k a : pa_is_executable a = false ->
    (rent_of (Z.of_nat program_data_offset + k) <= pa_lamports a)%Z ->
    is_Some (loader_exec (Truncate k) (Some a));
  accepts_write off bs a : pa_is_executable a = false -> (0 <= off)%Z ->
    Z.to_nat off + length bs <= length (code a) -> is_Some (loader_exec (Write off bs) (Some a));
  refuses_write off bs a : pa_is_executable a = true -> loader_exec (Write off bs) (Some a) = None;
  accepts_deploy a : pa_is_executable a = false -> code a = elf ->
    is_Some (loader_exec Deploy (Some a)) }.

Lemma chunks_fmap {A B} (f : A -> B) k fuel : forall l : list A,
  chunks_fuel fuel k (fmap (M := list) f l) = fmap (M := list) (fmap (M := list) f) (chunks_fuel fuel k l).
Proof.
  induction fuel as [| fuel IH]; intros [| x l]; try done. cbn [chunks_fuel].
  change (f <$> x :: l) with (f x :: (f <$> l)). cbn [chunks_fuel fmap list_fmap].
  rewrite <- IH, fmap_drop. f_equal. by rewrite fmap_take.
Qed.

Section Live.
Context {LO : Loader} {LL : LoaderLaws} {NW : UpNetwork} {UN : Undisturbed}.
Context (elf : list Z) (n : nat) {funds : Z} {AC : LoaderAccepts elf funds}.
Hypothesis Hn : 0 < n.
Hypothesis Hchunk : elf_write_chunk_max_len = Ok n.
Hypothesis Helf : elf <> [].
Hypothesis Hsmall : (Z.of_nat (length elf) < 2 ^ 32)%Z.
Hypothesis Hbatch : 0 < MAX_TX_BATCH_SIZE.

(** ** Successful operations *)

Definition ends {A} (m : Upgrade A) (c : ProgramChain) (Q : A -> ProgramChain -> Prop) : Prop :=
  exists a c', m c = (Ok a, c') /\ Q a c'.

Lemma e_bind {A B} (m : Upgrade A) (k : A -> Upgrade B) c R Q :
  ends m c R -> (forall a c', R a c' -> ends (k a) c' Q) -> ends (st_bind m k) c Q.
Proof.
  intros (a & c' & H & HR) Hk. destruct (Hk a c' HR) as (b & c'' & H' & HQ).
  exists b, c''. unfold st_bind. by rewrite H.
Qed.
Lemma e_ret {A} (a : A) c Q : Q a c -> ends (st_ret a) c Q.
Proof. intros H. by exists a, c. Qed.
Lemma e_lifted {A B} (a : A) (k : A -> Upgrade B) c Q :
  ends (k a) c Q -> ends (st_bind (st_lift (Ok a)) k) c Q.
Proof. done. Qed.
Lemma e_check {A} b e (k : Upgrade A) c Q :
  b = false -> ends k c Q -> ends (st_guard b e ;;; k) c Q.
Proof. by intros ->. Qed.

(** ** Writes that are executed *)

(** The pieces [todo] are not sent yet; the others are in place or sent. *)
Record writing (todo : list nat) (c : ProgramChain) : Prop := {
  w_account : exists a, the_account c = Some a /\ pa_is_executable a = false /\
    length (code a) = length elf /\
    forall i, i * n < length elf ->
      in_place (code a) elf n i \/ i ∈ todo \/ write_ix elf n i ∈ pending c;
  w_pending : forall ix, ix ∈ pending c -> exists i, i * n < length elf /\ ix = write_ix elf n i }.

Lemma write_ix_fits i : i * n < length elf ->
  write_ix elf n i = Write (Z.of_nat (i * n)) (piece elf n i).
Proof.
  intros Hi. unfold write_ix. rewrite (as_u32_small elf n Hn Hsmall), chunk_at_piece by (done || lia).
  done.
Qed.

Lemma run_writes ixs : forall c a,
  the_account c = Some a -> pa_is_executable a = false -> length (code a) = length elf ->
  (forall ix, ix ∈ ixs -> exists i, i * n < length elf /\ ix = write_ix elf n i) ->
  let c' := foldl run_ix c ixs in
  exists a', the_account c' = Some a' /\ pa_is_executable a' = false /\
    length (code a') = length elf /\ pending c' = pending c /\
    forall i, i * n < length elf -> in_place (code a) elf n i \/ write_ix elf n i ∈ ixs ->
      in_place (code a') elf n i.
Proof.
  induction ixs as [| ix ixs IH]; intros c a Hc Hx Hl Hw.
  - exists a. split_and!; try done. intros i Hi [H | H]; [done | set_solver].
  - destruct (Hw ix) as (i & Hi & ->); [set_solver |].
    assert (Hr : i * n + length (piece elf n i) <= length (code a)) by (rewrite length_piece; lia).
    rewrite write_ix_fits by done.
    destruct (accepts_write (Z.of_nat (i * n)) (piece elf n i) a) as [a1 E];
      [done | lia | by rewrite Nat2Z.id |].
    pose proof (loader_write _ _ _ _ E) as (Hx1 & _ & Hc1). rewrite Nat2Z.id in Hc1.
    cbv zeta. cbn [foldl].
    assert (Hrun : run_ix c (Write (Z.of_nat (i * n)) (piece elf n i))
      = mkProgramChain (Some a1) (pending c) (served c) (history c ++ [a1]))
      by (unfold run_ix; by rewrite Hc, E).
    rewrite Hrun. destruct (IH (mkProgramChain (Some a1) (pending c) (served c) (history c ++ [a1])) a1)
      as (a' & ? & ? & ? & ? & Hk);
      [done | done | by rewrite Hc1, length_written | set_solver |].
    exists a'. split_and!; try done. intros k Hk' Hor. apply Hk; [done |].
    destruct (decide (write_ix elf n k ∈ ixs)) as [| Hno]; [by right |]. left. rewrite Hc1.
    apply write_keeps; try done.
    destruct Hor as [? | [Heq |]%elem_of_cons]; [by left | | done]. right.
    rewrite write_ix_fits in Heq by done. injection Heq as Hoff _. nia.
Qed.

(** A request executes what was sent. *)
Lemma e_request todo c :
  writing todo c ->
  ends request c (fun _ c' => writing todo c' /\ exists a, the_account c' = Some a /\
    forall i, i * n < length elf -> in_place (code a) elf n i \/ i ∈ todo).
Proof.
  intros [(a & Ha & Hx & Hl & Hi) Hp]. unfold ends, request. cbv beta zeta.
  set (ixs := filter (fun ix => ix ∈ pending c) (up_lands (served c) (pending c))).
  assert (Hix : forall ix, ix ∈ ixs <-> ix ∈ pending c).
  { intros ix. unfold ixs. rewrite und_lands, list_elem_of_filter. tauto. }
  destruct (run_writes ixs c a Ha Hx Hl) as (a' & Ha' & Hx' & Hl' & Hp' & Hi').
  { intros ix H. by apply Hp, Hix. }
  eexists _, _. split; [reflexivity |]. cbn. rewrite Ha'.
  assert (Hall : forall i, i * n < length elf -> in_place (code a') elf n i \/ i ∈ todo).
  { intros i Hin. destruct (Hi i Hin) as [? | [? | ?]]; [left; apply Hi'; auto | by right |].
    left. apply Hi'; [done |]. right. by apply Hix. }
  split; [| by exists a']. split; cbn; [| by rewrite Hp'].
  exists a'. split_and!; try done. intros i Hin. destruct (Hall i Hin); auto.
Qed.

Lemma e_hash todo c : writing todo c ->
  ends get_best_finalized_block_hash c (fun _ c' => writing todo c').
Proof.
  intros H. eapply e_bind; [by apply e_request |]. intros k c' [Hw _]. cbn.
  rewrite und_answers. by apply e_ret.
Qed.

(** ** The pieces are sent *)

Lemma e_send_batch todo b c :
  writing (b ++ todo) c -> Forall (fun i => i * n < length elf) b ->
  ends (add_pending (write_ix elf n <$> b)) c (fun _ c' => writing todo c').
Proof.
  intros [(a & Ha & Hx & Hl & Hi) Hp] Hb. eexists _, _. split; [reflexivity |]. split; cbn.
  - exists a. split_and!; try done. intros i Hin.
    destruct (Hi i Hin) as [? | [[? | ?]%elem_of_app | ?]]; [by left | | by auto |].
    + right; right. apply elem_of_app. right. by apply list_elem_of_fmap_2.
    + right; right. apply elem_of_app. by left.
  - intros ix [H | H]%elem_of_app; [by apply Hp |].
    apply list_elem_of_fmap in H as (i & -> & H). exists i. split; [| done].
    by eapply (proj1 (list.Forall_forall _ _) Hb).
Qed.

Lemma e_try_batches bs : forall todo c,
  writing (mjoin bs ++ todo) c -> Forall (Forall (fun i => i * n < length elf)) bs ->
  ends (try_batches (fmap (write_ix elf n) <$> bs)) c (fun _ c' => writing todo c').
Proof.
  induction bs as [| b bs IH]; intros todo c Hw Hb; [by apply e_ret |].
  apply Forall_cons_iff in Hb as [Hb Hbs]. cbn in Hw. rewrite <- app_assoc in Hw.
  cbn [fmap list_fmap try_batches]. eapply e_bind; [by apply e_request |]. intros ? c1 [Hw1 _].
  eapply e_bind; [by apply e_send_batch |]. intros ? c2 Hw2. by apply IH.
Qed.

Lemma e_read todo c : writing todo c ->
  ends read_program c (fun a c' => writing todo c' /\ the_account c' = Some a /\
    forall i, i * n < length elf -> in_place (code a) elf n i \/ i ∈ todo).
Proof.
  intros H. eapply e_bind; [by apply e_request |]. intros k c' (Hw & a & Ha & Hi).
  unfold ends, st_bind, st_get. cbn. rewrite Ha, und_answers. eexists _, _. split; [done |]. auto.
Qed.

Lemma writing_size todo c a : writing todo c -> the_account c = Some a ->
  pa_is_executable a = false /\ length (code a) = length elf.
Proof. intros [(b & Hb & ? & ? & _) _] Ha. by replace a with b by congruence. Qed.

(** When everything is sent, a readback finds the whole code. *)
Lemma all_sent c a : writing [] c -> the_account c = Some a ->
  (forall i, i * n < length elf -> in_place (code a) elf n i \/ i ∈ []) -> code a = elf.
Proof.
  intros Hw Ha Hi. apply (all_in_place _ _ n); [done | by eapply writing_size |].
  intros i Hin. destruct (Hi i Hin); [done | set_solver].
Qed.

Lemma e_passes k todo c : writing todo c -> Forall (fun i => i * n < length elf) todo ->
  ends (passes (S k) elf n todo) c (fun r c' => r = [] /\ writing [] c').
Proof.
  intros Hw Hv. cbn [passes]. eapply e_bind; [by apply e_hash |]. intros [] c1 Hw1.
  eapply e_bind with (R := fun _ c' => writing [] c').
  { unfold chunks. rewrite chunks_fmap, length_fmap. apply e_try_batches.
    - rewrite chunks_concat by done. by rewrite app_nil_r.
    - by apply Forall_chunks. }
  intros [] c2 Hw2. unfold poll_fuel. cbn [poll]. eapply e_bind with
    (R := fun r c' => r = [] /\ writing [] c'); [| intros r c3 [-> H3]; by apply e_ret].
  eapply e_bind; [by apply e_read |]. intros a c3 (Hw3 & Ha & Hi).
  rewrite (missing_chunks_ok elf n) by done. apply e_lifted.
  change (onchain_code (pa_data a)) with (code a). rewrite (all_sent _ _ Hw3 Ha Hi).
  rewrite (proj2 (nothing_missing elf n Hn elf eq_refl)) by done. by apply e_ret.
Qed.

(** ** The program is made executable *)

Record deployed (c : ProgramChain) : Prop := {
  d_account : finished elf (the_account c);
  d_pending : forall ix, ix ∈ pending c -> exists i, i * n < length elf /\ ix = write_ix elf n i }.

Lemma e_deploy c : writing [] c -> ends (send_and_log Deploy) c (fun _ c' => deployed c').
Proof.
  intros Hw. eapply e_bind; [by apply e_hash |]. intros [] c1 Hw1.
  eapply e_bind with (R := fun r c' => r = None /\ deployed c');
    [| intros r c2 [-> Hd]; by apply e_ret].
  eapply e_bind; [by apply e_request |]. intros k c2 (Hw2 & a & Ha & Hi).
  unfold ends, st_bind, st_get. cbn. rewrite und_fate, Ha.
  pose proof (all_sent _ _ Hw2 Ha Hi) as Hc. destruct (writing_size _ _ _ Hw2 Ha) as [Hx _].
  destruct (accepts_deploy a Hx Hc) as [a' E]. rewrite E. cbn. unfold run_ix. rewrite Ha, E.
  eexists _, _. split; [done |]. split; [done |]. destruct (loader_deploy _ _ E) as [Hx' Hc'].
  split; cbn; [exists a'; by rewrite Hc' | apply Hw2].
Qed.

Lemma e_request_deployed c : deployed c -> ends request c (fun _ c' => deployed c').
Proof.
  intros [(a & Ha & Hx & Hc) Hp]. unfold ends, request. cbv beta zeta.
  set (ixs := filter (fun ix => ix ∈ pending c) (up_lands (served c) (pending c))).
  assert (Hf : foldl run_ix c ixs = c).
  { assert (Hix : forall ix, ix ∈ ixs -> run_ix c ix = c).
    { intros ix [Hin _]%list_elem_of_filter. destruct (Hp ix Hin) as (i & Hi & ->).
      unfold run_ix. by rewrite Ha, write_ix_fits, refuses_write. }
    clear Hp. induction ixs as [| ix ixs IH]; [done |]. cbn. rewrite Hix by set_solver.
    apply IH. set_solver. }
  rewrite Hf. eexists _, _. split; [done |]. split; cbn; [by exists a | done].
Qed.

Lemma e_verify c : deployed c ->
  ends (let! acc := read_program in
     st_guard (negb (pa_is_executable acc)) NotExecutable ;;;
     let! code := st_lift (or_panic (if (program_data_offset <=? length (pa_data acc))
                                     then Some (onchain_code (pa_data acc)) else None)) in
     st_guard (negb (bool_decide (code = elf))) ElfMismatch) c
    (fun _ c' => finished elf (the_account c')).
Proof.
  intros Hd. eapply e_bind with (R := fun a c' => deployed c' /\ the_account c' = Some a).
  { eapply e_bind; [by apply e_request_deployed |]. intros k c1 Hd1.
    pose proof Hd1 as [(a & Ha & _) _].
    unfold ends, st_bind, st_get. cbn. rewrite Ha, und_answers. by eexists _, _. }
  intros a c1 [[(b & Hb & Hx & Hc) Hp] Ha]. replace b with a in * by congruence.
  apply e_check; [by rewrite Hx |].
  rewrite (proj2 (Nat.leb_le _ _)) by (apply (complete_data elf n Hn Helf); by exists a).
  apply e_lifted. fold (code a). rewrite Hc, bool_decide_true by done.
  eexists _, _. split; [reflexivity |]. by exists a.
Qed.

(** ** Before anything is sent *)

Definition calm (c : ProgramChain) (a : ProgramAccount) : Prop :=
  the_account c = Some a /\ pending c = [].

Lemma e_request_calm c a : calm c a -> ends request c (fun _ c' => calm c' a).
Proof.
  intros [Ha Hp]. unfold ends, request. rewrite Hp. eexists _, _. split; [reflexivity |].
  by rewrite und_lands.
Qed.

Lemma e_hash_calm c a : calm c a -> ends get_best_finalized_block_hash c (fun _ c' => calm c' a).
Proof.
  intros H. eapply e_bind; [by apply e_request_calm |]. intros k c' Hc. cbn.
  rewrite und_answers. by apply e_ret.
Qed.

Lemma e_read_calm c a : calm c a -> ends read_program c (fun b c' => b = a /\ calm c' a).
Proof.
  intros H. eapply e_bind; [by apply e_request_calm |]. intros k c' [Ha Hp].
  unfold ends, st_bind, st_get. cbn. rewrite Ha, und_answers. by eexists _, _.
Qed.

Lemma e_send_calm c a ix a' : calm c a -> loader_exec ix (Some a) = Some a' ->
  ends (send_and_log ix) c (fun _ c' => calm c' a').
Proof.
  intros H E. eapply e_bind; [by apply e_hash_calm |]. intros [] c1 H1.
  eapply e_bind with (R := fun r c' => r = None /\ calm c' a');
    [| intros r c2 [-> Hd]; by apply e_ret].
  eapply e_bind; [by apply e_request_calm |]. intros k c2 [Ha Hp].
  unfold ends, st_bind, st_get. cbn. rewrite und_fate, Ha, E. cbn. unfold run_ix. rewrite Ha, E.
  by eexists _, _.
Qed.

(** The account is given its size; the rent is paid first. *)
Lemma e_resize c a acc :
  calm c a -> pa_is_executable a = false -> code a = code acc -> pa_lamports a = pa_lamports acc ->
  program_data_offset <= length (pa_data acc) ->
  (rent_of (Z.of_nat (program_data_offset + length elf)) - pa_lamports acc <= funds)%Z ->
  ends (resize acc elf) c (fun _ c' => exists a', calm c' a' /\ pa_is_executable a' = false /\
    length (code a') = length elf).
Proof.
  intros H Hx Hc Hl Hd Hfunds. unfold resize.
  destruct (Nat.eqb_spec (length (pa_data acc)) (program_data_offset + length elf)) as [Heq | _].
  { apply e_ret. exists a. split_and!; try done. rewrite Hc. unfold code, onchain_code.
    rewrite length_drop. lia. }
  rewrite (as_u32_small elf n) by done.
  set (rent := rent_of (Z.of_nat (program_data_offset + length elf))).
  eapply e_bind with (R := fun _ c' => exists b, calm c' b /\ pa_is_executable b = false /\
    (rent <= pa_lamports b)%Z).
  { destruct (Z.ltb_spec 0 (Z.max 0 (rent - pa_lamports acc))).
    - destruct (accepts_transfer (Z.max 0 (rent - pa_lamports acc)) a) as (b & Eb & Hb); [lia |].
      pose proof (loader_transfer _ _ _ Eb) as [_ Hxb]. exists tt.
      destruct (e_send_calm c a _ b H Eb) as ([] & c' & ? & ?). exists c'. split; [done |].
      exists b. split_and!; [done | congruence | lia].
    - apply e_ret. exists a. split_and!; [done.. |]. lia. }
  intros [] c1 (b & Hb & Hxb & Hr).
  destruct (accepts_truncate (Z.of_nat (length elf)) b Hxb) as [a' E].
  { by rewrite <- Nat2Z.inj_add. }
  destruct (e_send_calm c1 b _ a' Hb E) as (u & c' & Hs & Hc').
  exists u, c'. split; [done |]. exists a'. apply loader_truncate in E as (? & Hlen & _).
  rewrite Nat2Z.id in Hlen. done.
Qed.

Lemma calm_writing c a :
  calm c a -> pa_is_executable a = false -> length (code a) = length elf ->
  writing (missing elf n (code a)) c.
Proof.
  intros [Ha Hp] Hx Hl. split; [| rewrite Hp; set_solver].
  exists a. split_and!; try done. intros i Hi.
  destruct (decide (in_place (code a) elf n i)); [by left | right; left].
  by apply elem_of_missing.
Qed.

End Live.

(** C26: An undisturbed upgrade succeeds.  Let the network answer, execute and confirm what it is
    sent, and let nothing be waiting; let the account of the program exist, be owned by the
    loader and have the header of the loader with the key of the authority in front (an account
    that is missing or shorter than the header, which a first deployment that was given up can
    leave, is refused by the tool); let the loader accept the code, which is not empty and
    shorter than 2^32 bytes, and the payer have the rent that is missing.  Then
    [upgrade_in_place] returns without an error and leaves the new code, whole and executable,
    whatever follows the header: an executable program or what an upgrade that was given up has
    left of one, larger or smaller than the new code. *)
Theorem undisturbed_upgrade_succeeds {LO : Loader} {LL : LoaderLaws} {NW : UpNetwork}
  {UN : Undisturbed} elf n funds {AC : LoaderAccepts elf funds} authority c acc :
  0 < n -> elf_write_chunk_max_len = Ok n -> elf <> [] -> (Z.of_nat (length elf) < 2 ^ 32)%Z ->
  0 < MAX_TX_BATCH_SIZE ->
  the_account c = Some acc -> pending c = [] ->
  pa_owner acc = BPF_LOADER_ID -> program_data_offset <= length (pa_data acc) ->
  take 32 (pa_data acc) = authority ->
  (rent_of (Z.of_nat (program_data_offset + length elf)) - pa_lamports acc <= funds)%Z ->
  exists c', upgrade_in_place authority elf c = (Ok tt, c') /\
  exists a, the_account c' = Some a /\ pa_is_executable a = true /\ code a = elf.
Proof.
  intros Hn Hchunk Helf Hsmall Hbatch Ha Hp Ho Hd Hauth Hfunds.
  enough (ends (upgrade_in_place authority elf) c (fun _ c' => finished elf (the_account c')))
    as ([] & c' & ? & ?) by eauto.
  eapply e_bind; [by apply (e_read_calm c acc) |]. intros ? c1 [-> H1].
  apply e_check; [by rewrite bool_decide_true |].
  apply e_check; [by apply Nat.ltb_ge |]. unfold get_range at 1.
  pose proof header_room. rewrite (proj2 (Nat.leb_le _ _)) by lia. apply e_lifted.
  apply e_check; [by rewrite bool_decide_true |].
  eapply e_bind with (R := fun _ c' => exists a, calm c' a /\ pa_is_executable a = false /\
    code a = code acc /\ pa_lamports a = pa_lamports acc).
  { destruct (pa_is_executable acc) eqn:Hx; [| by apply e_ret; exists acc].
    destruct (accepts_retract acc Hx) as (a & E & Hl). exists tt.
    destruct (e_send_calm c1 acc _ a H1 E) as ([] & c' & ? & ?). exists c'. split; [done |].
    exists a. by apply loader_retract in E as [? ?]. }
  intros [] c2 (a & H2 & Hx & Hc & Hl). eapply e_bind; [by eapply e_resize |].
  intros [] c3 (b & H3 & Hx3 & Hl3). rewrite Hchunk. apply e_lifted.
  eapply e_bind; [by apply (e_read_calm c3 b) |]. intros ? c4 [-> H4].
  rewrite (missing_chunks_ok elf n) by done. apply e_lifted. fold (code b).
  eapply e_bind.
  { apply (e_passes elf n) with (k := 3); [done.. | by apply (calm_writing elf n (funds := funds)) |].
    by apply (left_missing elf n Hn b). }
  intros todo c5 [-> H5]. apply e_check; [done |].
  eapply e_bind; [by apply (e_deploy elf n) |]. intros [] c6 H6. by apply (e_verify elf n).
Qed.

(** * A loader, two networks and their upgrades

    A loader that keeps the laws, a network that loses answers and executes transactions late
    and more than once, and one that does not. *)

#[local] Open Scope nat_scope.

Definition the_loader : Pubkey := replicate 32 1%Z.
Definition the_authority : Pubkey := replicate 32 7%Z.
Definition the_header : list Z := the_authority ++ replicate 8 0%Z.

Definition with_data (a : ProgramAccount) (d : list Z) : ProgramAccount :=
  mkProgramAccount (pa_owner a) d (pa_is_executable a) (pa_lamports a).

Definition small_exec (ix : LoaderIx) (o : option ProgramAccount) : option ProgramAccount :=
  match ix, o with
  | CreateAccount l, None => Some (mkProgramAccount the_loader [] false l)
  | Transfer l, Some a =>
      if (0 <=? l)%Z
      then Some (mkProgramAccount (pa_owner a) (pa_data a) (pa_is_executable a) (pa_lamports a + l))
      else None
  | Retract, Some a =>
      if pa_is_executable a
      then Some (mkProgramAccount (pa_owner a) (pa_data a) false (pa_lamports a)) else None
  | Truncate k, Some a =>
      if negb (pa_is_executable a) && (40 + k + 10 <=? pa_lamports a)%Z then
        let c := drop 40 (pa_data a) in
        Some (with_data a (the_header ++ take (Z.to_nat k) c ++
                           replicate (Z.to_nat k - length c) 0%Z))
      else None
  | Write off bs, Some a =>
      let c := drop 40 (pa_data a) in
      if negb (pa_is_executable a) && (Z.to_nat off + length bs <=? length c) then
        Some (with_data a (take 40 (pa_data a) ++ written c (Z.to_nat off) bs))
      else None
  | Deploy, Some a =>
      if pa_is_executable a then None
      else Some (mkProgramAccount (pa_owner a) (pa_data a) true (pa_lamports a))
  | _, _ => None
  end.

#[global] Instance small_loader : Loader := {
  BPF_LOADER_ID := the_loader;
  program_data_offset := 40;
  rent_of := fun size => (size + 10)%Z;
  loader_exec := small_exec;
  write_tx_len := fun bs => 1229 + length bs;
  MAX_TX_BATCH_SIZE := 2 }.

#[global] Instance small_loader_laws : LoaderLaws.
Proof.
  split; unfold code, onchain_code; cbn -[drop take written the_header app replicate].
  - lia.
  - intros [] a; cbn; intros [=]; by subst.
  - done.
  - intros l a a'. destruct (_ <=? _)%Z; by intros [= <-].
  - intros a a'. destruct (pa_is_executable a); by intros [= <-].
  - intros k a a'. destruct (pa_is_executable a) eqn:Hx; [done |].
    destruct (_ <=? _)%Z; [| done]. intros <-%(inj Some). cbn [with_data pa_data pa_is_executable].
    rewrite drop_app_length' by done. split; [done |].
    rewrite length_app, length_take, length_replicate. split; [lia |].
    intros j Hj Hk. rewrite lookup_app_l by (rewrite length_take; lia).
    by rewrite lookup_take_lt by lia.
  - intros off bs a a'. destruct (pa_is_executable a) eqn:Hx; [done |].
    destruct (Nat.leb_spec (Z.to_nat off + length bs) (length (drop 40 (pa_data a)))) as [H |];
      [| done]. intros <-%(inj Some). cbn [with_data pa_data pa_is_executable]. split_and!; [done.. |].
    destruct (Nat.le_gt_cases 40 (length (pa_data a))).
    + rewrite drop_app_length'; [done |]. rewrite length_take. lia.
    + rewrite length_drop in H. assert (bs = []) as -> by (apply length_zero_iff_nil; lia).
      rewrite (drop_ge (pa_data a)) by lia. unfold written. rewrite take_nil, drop_nil, !app_nil_r.
      apply drop_ge. rewrite length_take. lia.
  - intros a a'. destruct (pa_is_executable a); [done |]. by intros [= <-].
Qed.

(** The new code, and a program that runs with the old one. *)
Definition new_elf : list Z := [9; 8; 7; 6; 5; 4; 3; 2; 1; 0]%Z.
Definition old_elf : list Z := [1; 2; 3; 4; 5; 6; 7]%Z.

#[global] Instance small_loader_accepts : LoaderAccepts new_elf 3.
Proof.
  split; unfold code, onchain_code; cbn -[drop take written the_header app replicate].
  - intros a ->. by eexists.
  - intros l a [H _]. rewrite (proj2 (Z.leb_le _ _) H). by eexists.
  - intros k a -> H. rewrite (proj2 (Z.leb_le _ _)) by lia. by eexists.
  - intros off bs a -> _ H. rewrite (proj2 (Nat.leb_le _ _) H). by eexists.
  - by intros off bs a ->.
  - intros a -> _. by eexists.
Qed.

Definition start : ProgramChain :=
  mkProgramChain (Some (mkProgramAccount the_loader (the_header ++ old_elf) true 57)) [] 0 [].

(** A network that loses some answers and some transactions, and executes those that
    wait late, in the wrong order and more than once. *)
Definition rough_network : UpNetwork := {|
  up_answers := fun k => negb (k mod 13 =? 5);
  up_fate := fun k => match k mod 8 with 3 => Unheard | 4 => Dropped | _ => Processed end;
  up_lands := fun k p => rev (take 2 (drop (k mod 4) p)) ++ take 1 p |}.

Definition calm_network : UpNetwork := {|
  up_answers := fun _ => true; up_fate := fun _ => Processed; up_lands := fun _ p => p |}.
#[global] Instance calm_undisturbed : Undisturbed (NW := calm_network).
Proof. by split. Qed.

(** Two runs on the rough network are given up, the third one succeeds: at no time was anything
    but the old or the new code executable. *)
Lemma upgrades_witness :
  let rs := [InPlace the_authority; FromFile] in
  let '(res, c') := @run_of _ rough_network new_elf (InPlace the_authority)
                      (@runs_of _ rough_network new_elf start rs) in
  fst (@run_of _ rough_network new_elf (InPlace the_authority) start) = Err NoAnswer /\
  Forall (fun a => pa_is_executable a = true -> code a = old_elf \/ code a = new_elf) (history c') /\
  exists a, the_account c' = Some a /\ pa_is_executable a = true /\ code a = new_elf.
Proof.
  pose proof (@upgrades_are_safe small_loader small_loader_laws rough_network old_elf new_elf 3 start
    [InPlace the_authority; FromFile] (InPlace the_authority)) as H. cbv zeta.
  assert (Hr : fst (@run_of _ rough_network new_elf (InPlace the_authority)
    (@runs_of _ rough_network new_elf start [InPlace the_authority; FromFile])) = Ok tt)
    by (vm_compute; reflexivity).
  destruct (@run_of _ rough_network new_elf (InPlace the_authority)
    (@runs_of _ rough_network new_elf start [InPlace the_authority; FromFile])) as [res c'].
  destruct H as (Hs & _ & _ & Hd);
    [lia | reflexivity | discriminate | vm_compute; reflexivity
    | intros a [= <-] _; reflexivity | reflexivity | reflexivity |].
  split; [vm_compute; reflexivity |]. split; [exact Hs | exact (Hd Hr)].
Defined.

(** The upgrade of the same program on the network that does not disturb it. *)
Lemma undisturbed_witness :
  exists c', @upgrade_in_place _ calm_network the_authority new_elf start = (Ok tt, c') /\
  exists a, the_account c' = Some a /\ pa_is_executable a = true /\ code a = new_elf.
Proof.
  apply (@undisturbed_upgrade_succeeds small_loader small_loader_laws calm_network calm_undisturbed
    new_elf 3 3%Z small_loader_accepts the_authority start
    (mkProgramAccount the_loader (the_header ++ old_elf) true 57));
    first [lia | reflexivity | discriminate | cbn; lia | vm_compute; reflexivity].
Defined.
