(* ===== verification/Text.v ===== *)
(** * Text

    The operations on strings of the Rust standard library, and of the [hex] crate, that the
    tools use.  Text is ASCII: names, numbers, addresses and paths. *)
From Stdlib Require Import String Ascii SpecFloat.
From S2P Require Import Prelude.
#[local] Open Scope string_scope.
#[local] Open Scope Z_scope.

(** What follows a prefix. *)
Fixpoint strip_prefix (p s : string) : option string :=
  match p, s with
  | EmptyString, _ => Some s
  | String a p, String b s => if Ascii.eqb a b then strip_prefix p s else None
  | _, EmptyString => None
  end.

(** [str::contains] *)
Fixpoint contains (needle s : string) : bool :=
  match strip_prefix needle s with
  | Some _ => true
  | None => match s with EmptyString => false | String _ s => contains needle s end
  end.

(** The value of a digit of [\[0-9a-fA-F\]]. *)
Definition hex_value (c : ascii) : option Z :=
  let n := Z.of_nat (nat_of_ascii c) in
  if (48 <=? n) && (n <=? 57) then Some (n - 48)
  else if (65 <=? n) && (n <=? 70) then Some (n - 55)
  else if (97 <=? n) && (n <=? 102) then Some (n - 87)
  else None.

(** The longest run of digits. *)
Fixpoint hex_digits (s : string) : string :=
  match s with
  | EmptyString => EmptyString
  | String c s => match hex_value c with Some _ => String c (hex_digits s) | None => EmptyString end
  end.

(** [u32::from_str_radix(_, 16)] on digits: [None] when the number does not fit. *)
Fixpoint u32_of_hex (acc : Z) (s : string) : option Z :=
  match s with
  | EmptyString => Some acc
  | String c s =>
    match hex_value c with
    | Some d => let acc := 16 * acc + d in if acc <? 2 ^ 32 then u32_of_hex acc s else None
    | None => None
    end
  end.

(** [str::parse] of an unsigned integer below a bound: digits behind an optional plus sign, [None]
    when there is anything else, nothing, or too much. *)
Definition dec_value (c : ascii) : option Z :=
  let n := Z.of_nat (nat_of_ascii c) in
  if (48 <=? n) && (n <=? 57) then Some (n - 48) else None.

Fixpoint uint_of_digits (bound acc : Z) (s : string) : option Z :=
  match s with
  | EmptyString => Some acc
  | String c s =>
    match dec_value c with
    | Some d =>
      let acc := 10 * acc + d in if acc <? bound then uint_of_digits bound acc s else None
    | None => None
    end
  end.

Definition parse_uint (bound : Z) (s : string) : option Z :=
  let digits := match strip_prefix "+" s with Some s => s | None => s end in
  match digits with EmptyString => None | _ => uint_of_digits bound 0 digits end.

Definition parse_u64 : string -> option Z := parse_uint (2 ^ 64).
Definition parse_u16 : string -> option Z := parse_uint (2 ^ 16).
Definition parse_u8 : string -> option Z := parse_uint (2 ^ 8).

(** [hex::decode_to_slice] into [n] bytes: exactly two digits for each. *)
Fixpoint hex_decode (n : nat) (s : string) : option (list Z) :=
  match n, s with
  | O, EmptyString => Some []
  | S n, String a (String b s) =>
    match hex_value a, hex_value b, hex_decode n s with
    | Some x, Some y, Some l => Some (16 * x + y :: l)
    | _, _, _ => None
    end
  | _, _ => None
  end.

(** [str::trim_start_matches]: the prefix is taken away as often as it is there.  The fuel is
    the length of the string, which every removal of a prefix that is not empty shortens. *)
Fixpoint trim_start_fuel (fuel : nat) (p s : string) : string :=
  match fuel with
  | O => s
  | S fuel => match strip_prefix p s with Some s => trim_start_fuel fuel p s | None => s end
  end.
Definition trim_start_matches (p s : string) : string := trim_start_fuel (String.length s) p s.

(** [str::eq_ignore_ascii_case] *)
Definition to_lower (c : ascii) : ascii :=
  let n := nat_of_ascii c in
  if (65 <=? n)%nat && (n <=? 90)%nat then ascii_of_nat (n + 32) else c.

Fixpoint eq_ignore_ascii_case (s t : string) : bool :=
  match s, t with
  | EmptyString, EmptyString => true
  | String a s, String b t => Ascii.eqb (to_lower a) (to_lower b) && eq_ignore_ascii_case s t
  | _, _ => false
  end.

(** [slice.join(sep)] *)
Fixpoint join (sep : string) (l : list string) : string :=
  match l with
  | [] => EmptyString
  | [s] => s
  | s :: l => s ++ sep ++ join sep l
  end.

(** [str::trim] *)
Definition is_whitespace (c : ascii) : bool :=
  let n := nat_of_ascii c in (n =? 32)%nat || ((9 <=? n)%nat && (n <=? 13)%nat).

Fixpoint trim_start (s : string) : string :=
  match s with
  | String c rest => if is_whitespace c then trim_start rest else s
  | EmptyString => EmptyString
  end.

Fixpoint trim_end (s : string) : string :=
  match s with
  | EmptyString => EmptyString
  | String c rest =>
    match trim_end rest with
    | EmptyString => if is_whitespace c then EmptyString else String c EmptyString
    | rest => String c rest
    end
  end.
Definition trim (s : string) : string := trim_end (trim_start s).

(** [str::to_lowercase], [str::to_uppercase] *)
Definition to_upper (c : ascii) : ascii :=
  let n := nat_of_ascii c in
  if (97 <=? n)%nat && (n <=? 122)%nat then ascii_of_nat (n - 32) else c.

Fixpoint map_string (f : ascii -> ascii) (s : string) : string :=
  match s with EmptyString => EmptyString | String c s => String (f c) (map_string f s) end.
Definition to_lowercase : string -> string := map_string to_lower.
Definition to_uppercase : string -> string := map_string to_upper.

(** [str::split] at a character: one piece more than there are separators. *)
Fixpoint split (sep : ascii) (s : string) : list string :=
  match s with
  | EmptyString => [EmptyString]
  | String c s =>
    if Ascii.eqb c sep then EmptyString :: split sep s
    else match split sep s with
         | piece :: pieces => String c piece :: pieces
         | [] => [String c EmptyString]
         end
  end.

(** [str::split_once] *)
Fixpoint split_once (sep : ascii) (s : string) : option (string * string) :=
  match s with
  | EmptyString => None
  | String c s =>
    if Ascii.eqb c sep then Some (EmptyString, s)
    else match split_once sep s with
         | Some (before, after) => Some (String c before, after)
         | None => None
         end
  end.

(** ** Doubles *)

(** The double nearest to [m * 10 ^ e], ties to even. *)
Definition f64_decimal (negative : bool) (m e : Z) : spec_float :=
  match m with
  | Z.pos p =>
    if 0 <=? e then binary_normalize 53 1024 ((if negative then -1 else 1) * (m * 10 ^ e)) 0 negative
    else let '(q, e', l) := SFdiv_core_binary 53 1024 m 0 (10 ^ (- e)) 0 in
         binary_round_aux 53 1024 negative q e' l
  | _ => S754_zero negative
  end.

(** The digits at the front behind [acc], how many they are, and what follows. *)
Fixpoint take_digits (acc n : Z) (s : string) : Z * Z * string :=
  match s with
  | String c rest =>
    match dec_value c with
    | Some d => take_digits (10 * acc + d) (n + 1) rest
    | None => (acc, n, s)
    end
  | EmptyString => (acc, n, EmptyString)
  end.

Definition take_sign (s : string) : bool * string :=
  match strip_prefix "-" s with
  | Some s => (true, s)
  | None => (false, match strip_prefix "+" s with Some s => s | None => s end)
  end.

(** [str::parse::<f64>] *)
Definition parse_f64 (s : string) : option spec_float :=
  let '(negative, s) := take_sign s in
  let name := to_lowercase s in
  if String.eqb name "inf" || String.eqb name "infinity" then Some (S754_infinity negative)
  else if String.eqb name "nan" then Some S754_nan
  else
    let '(m, n, s) := take_digits 0 0 s in
    let '(m, fraction, s) :=
      match strip_prefix "." s with Some s => take_digits m 0 s | None => (m, 0, s) end in
    if n + fraction =? 0 then None
    else match s with
         | EmptyString => Some (f64_decimal negative m (- fraction))
         | String c s =>
           if Ascii.eqb (to_lower c) "e" then
             let '(minus, s) := take_sign s in
             let '(e, digits, s) := take_digits 0 0 s in
             match digits, s with
             | Z.pos _, EmptyString =>
               Some (f64_decimal negative m ((if minus then - e else e) - fraction))
             | _, _ => None
             end
           else None
         end.
