(* ===== verification/FullClient.v ===== *)
(** * The client: from a request to what came of it

    [client/tx_broadcast.rs], [client/client_with_signer.rs], [client/client_without_signer.rs]
    and [client/blockhash_cache.rs] of [autara-client], with [TransactionToSign] of
    [client/tx_builder.rs]: a request is built, signed, sent, and the report of the node is
    read.  Messages, signatures and the node are those of [arch_sdk]: parameters. *)
From Stdlib Require Import String Ascii.
From S2P Require Import Prelude.
From S2P Require Import Text.
From S2P Require Import Errors.
From S2P Require Import Monad.
From S2P Require Import Pda.
From S2P Require Import ProgramErrors.
From S2P Require Import Accounts.
From S2P Require Import Events.
From S2P Require Import Processor.
From S2P Require Import ProcessorAdmin.
From S2P Require Import Program.
From S2P Require Import Borsh.
From S2P Require Import InstructionCodec.
From S2P Require Import IxBuilders.
From S2P Require Import TxBuilder.
From S2P Require Import EventCodec.
From S2P Require Import RpcExt.
#[local] Open Scope string_scope.
#[local] Open Scope Z_scope.

(** ** The error in a message *)

Definition PATTERN : string := "custom program error: 0x".

(** [Regex::captures] of [PATTERN] followed by digits: the leftmost match. *)
Fixpoint captures (s : string) : option string :=
  let later := match s with EmptyString => None | String _ s => captures s end in
  match strip_prefix PATTERN s with
  | Some rest => match hex_digits rest with EmptyString => later | d => Some d end
  | None => later
  end.

(** ** [arch_sdk] *)

Record ArchMessage : Type := mkMessage {
  am_instructions : Transaction;
  am_payer : Pubkey;
  am_blockhash : list Z }.

(** Keys, messages and signatures; [network] selects the form of a signature. *)
Class ArchSdk : Type := {
  Keypair : Type;
  Network : Type;
  x_only_public_key : Keypair -> Pubkey;
  (** [account_keys], up to [header.num_required_signatures] *)
  required_signers : ArchMessage -> list Pubkey;
  message_hash : ArchMessage -> list Z;
  sign_message_bip322 : Keypair -> list Z -> Network -> list Z }.

Record RuntimeTransaction : Type := mkRuntimeTx {
  rt_signatures : list (list Z);
  rt_message : ArchMessage }.

Inductive Status : Type := Queued | Processed | Failed (message : string).

Record ProcessedTx : Type := mkProcessedTx {
  pt_report : ProcessedTransaction;
  pt_status : Status;
  pt_logs : list string }.

(** The node, while one operation of the client runs. *)
Record SdkNode : Type := mkSdkNode {
  get_best_block_hash : Result ArchError (list Z);
  send_transaction : RuntimeTransaction -> Result ArchError (list Z);
  wait_for_processed_transaction : list Z -> Result ArchError ProcessedTx }.

(** Texts that [{:?}] prints. *)
Class DebugText : Type := {
  debug_logs : list string -> string;
  debug_processed : ProcessedTx -> string }.

Inductive AutaraClientError : Type :=
| AutaraTxError (kind : LendingProgramErrorKind) (logs : list string) (events : list AutaraEvent)
| Arch (e : ArchError)
| Other (message : string).

Definition Called : Type -> Type := Result AutaraClientError.

Section Ops.
Context {BO : BorshCrate} {PE : ProgramErrorCrate} {SDK : ArchSdk} {DT : DebugText}.

(** ** [tx_broadcast.rs] *)

Definition error_of (msg : string) : option LendingProgramErrorKind :=
  match captures msg with
  | Some hex_str => from_error_code <$> u32_of_hex 0 hex_str
  | None => None
  end.

Definition parse_processed_autara_tx (processed : ProcessedTx) (program_id : Pubkey)
  : Called (list AutaraEvent) :=
  let events := from_processed_tx (pt_report processed) (fun x => bool_decide (x = program_id)) in
  match pt_status processed with
  | Queued => Err (Other ("Transaction is still queued: " ++ debug_processed processed))
  | Processed => Ok events
  | Failed msg =>
    match error_of msg with
    | Some kind => Err (AutaraTxError kind (pt_logs processed) events)
    | None => Err (Other ("status = " ++ msg ++ ", logs = " ++ debug_logs (pt_logs processed)))
    end
  end.

Definition broadcast_transaction (program_id : Pubkey) (node : SdkNode)
  (transaction : RuntimeTransaction) : Called (list AutaraEvent) :=
  let? _ := match rt_signatures transaction with [] => Panic | _ => Ok tt end in
  let? tx := res_from Arch (send_transaction node transaction) in
  let? processed := res_from Arch (wait_for_processed_transaction node tx) in
  parse_processed_autara_tx processed program_id.

(** ** [BlockhashCache] *)

Record BlockhashCache : Type := mkBlockhashCache { latest : list Z }.

Definition new_blockhash_cache (node : SdkNode) : Result ArchError BlockhashCache :=
  let? h := get_best_block_hash node in Ok (mkBlockhashCache h).

(** A turn of the background job. *)
Definition refresh_blockhash (node : SdkNode) (cache : BlockhashCache) : BlockhashCache :=
  match get_best_block_hash node with Ok h => mkBlockhashCache h | _ => cache end.

(** ** [TransactionToSign] *)

Record TransactionToSign : Type := mkToSign {
  ts_instructions : Transaction;
  ts_message : ArchMessage;
  ts_message_hash : list Z }.

Definition build_transaction_digest_hash_to_sign (node : SdkNode) (cache : option BlockhashCache)
  (authority_key : Pubkey) (ixs : Transaction) : AnyRes TransactionToSign :=
  let? blockhash := match cache with
                    | Some cache => Ok (latest cache)
                    | None => from_arch (get_best_block_hash node)
                    end in
  let message := mkMessage ixs authority_key blockhash in
  Ok (mkToSign ixs message (message_hash message)).

Fixpoint collect_signatures (signers : list Keypair) (hash : list Z) (network : Network)
  (keys : list Pubkey) : option (list (list Z)) :=
  match keys with
  | [] => Some []
  | key :: keys =>
    let* (_, signer) := list_find (fun s => x_only_public_key s = key) signers in
    let* signatures := collect_signatures signers hash network keys in
    Some (sign_message_bip322 signer hash network :: signatures)
  end.

(** [sign]: a panic when a key that has to sign is not at hand. *)
Definition sign (tx : TransactionToSign) (signers : list Keypair) (network : Network)
  : Called RuntimeTransaction :=
  match collect_signatures signers (ts_message_hash tx) network
          (required_signers (ts_message tx)) with
  | Some signatures => Ok (mkRuntimeTx signatures (ts_message tx))
  | None => Panic
  end.

(** [From<anyhow::Error> for AutaraClientError], and the messages of the errors that a
    builder meets. *)
Fixpoint to_string (e : Anyhow) : string :=
  match e with
  | Context m _ | Message m => m
  | ArchFailure (RequestFailed m) => m
  | LendingFailure _ | UnpackFailure => EmptyString
  end.

Definition built {A} (r : ClientRes A) : AnyRes A :=
  res_from (fun '(MarketNotFound) => Message "market not found") r.

Definition from_anyhow {A} (r : AnyRes A) : Called A := res_from (fun e => Other (to_string e)) r.

End Ops.

(** ** [AutaraFullClientWithSigner] *)

Module FullClient.
Section Client.
Context {PC : PdaCrate} {CH : Chain} {BO : BorshCrate} {PE : ProgramErrorCrate}.
Context {SDK : ArchSdk} {DT : DebugText}.

Record AutaraFullClientWithSigner : Type := mkFull {
  read_client : AutaraReadClient;
  arch_client : SdkNode;
  network : Network;
  signer : Keypair;
  signer_pubkey : Pubkey }.

Definition new (read_client : AutaraReadClient) (arch_client : SdkNode) (network : Network)
  (signer : Keypair) : AutaraFullClientWithSigner :=
  mkFull read_client arch_client network signer (x_only_public_key signer).

Definition with_signer (self : AutaraFullClientWithSigner) (signer : Keypair)
  : AutaraFullClientWithSigner :=
  mkFull (read_client self) (arch_client self) (network self) signer (x_only_public_key signer).

Variable autara_program_id : Pubkey.
Variable self : AutaraFullClientWithSigner.
#[local] Instance the_read_client : AutaraReadClient := read_client self.

(** A transaction of the builder, which has no cache for the block hash. *)
Definition prepared (ixs : ClientRes Transaction) : Called TransactionToSign :=
  from_anyhow (let? ixs := built ixs in
               build_transaction_digest_hash_to_sign (arch_client self) None (signer_pubkey self)
                 ixs).

(** [self.tx_broadcast().broadcast_transaction(tx.sign(&\[self.signer\], self.network)).await?] *)
Definition sent (tx : TransactionToSign) : Called (list AutaraEvent) :=
  let? signed := sign tx [signer self] (network self) in
  broadcast_transaction autara_program_id (arch_client self) signed.

Definition create_market (create_market : CreateMarketInstruction)
  (supply_mint collateral_mint : Pubkey) : Called Pubkey :=
  let? (market, tx) := from_anyhow (built (Tx.create_market autara_program_id
                         (signer_pubkey self) (signer_pubkey self) create_market
                         supply_mint collateral_mint)) in
  let? tx := prepared (Ok tx) in
  let? _ := sent tx in
  Ok market.

Definition create_global_config (admin fee_receiver : Pubkey) (protocol_fee_share_in_bps : Z)
  : Called Pubkey :=
  let? (global_config_pda, tx) := from_anyhow (built (Tx.create_global_config autara_program_id
                                    (signer_pubkey self) admin fee_receiver
                                    protocol_fee_share_in_bps)) in
  let? tx := prepared (Ok tx) in
  match sent tx with
  | Ok _ => Ok global_config_pda
  | Err (Other error) =>
    if contains "already exists" error then Ok global_config_pda else Err (Other error)
  | Err err => Err err
  | Panic => Panic
  end.

Definition supply (market : Pubkey) (amount : Z) : Called (list AutaraEvent) :=
  let? tx := prepared (Tx.supply autara_program_id (signer_pubkey self) market amount) in
  sent tx.

Definition deposit_collateral (market : Pubkey) (amount : Z) : Called (list AutaraEvent) :=
  let? tx := prepared (Tx.deposit_collateral autara_program_id (signer_pubkey self) market
                         amount) in
  sent tx.

Definition withdraw_collateral (market : Pubkey) (amount : option Z)
  : Called (list AutaraEvent) :=
  let? tx := prepared (Tx.withdraw_collateral autara_program_id (signer_pubkey self) market
                         amount) in
  sent tx.

Definition borrow (market : Pubkey) (amount : Z) : Called (list AutaraEvent) :=
  let? tx := prepared (Tx.borrow autara_program_id (signer_pubkey self) market amount) in
  sent tx.

Definition repay (market : Pubkey) (amount : option Z) : Called (list AutaraEvent) :=
  let? tx := prepared (Tx.repay autara_program_id (signer_pubkey self) market amount) in
  sent tx.

Definition withdraw_supply (market : Pubkey) (amount : option Z) : Called (list AutaraEvent) :=
  let? tx := prepared (Tx.withdraw_supply autara_program_id (signer_pubkey self) market
                         amount) in
  sent tx.

Definition update_config (market : Pubkey) (config : UpdateConfigInstruction)
  : Called (list AutaraEvent) :=
  let? tx := prepared (Tx.update_config autara_program_id (signer_pubkey self) market config) in
  sent tx.

Definition add_whitelisted_liquidator (market liquidator : Pubkey)
  : Called (list AutaraEvent) :=
  let? (_, tx) := from_anyhow (built (Tx.add_whitelisted_liquidator autara_program_id
                    (signer_pubkey self) market liquidator)) in
  let? tx := prepared (Ok tx) in
  sent tx.

Definition remove_whitelisted_liquidator (market liquidator : Pubkey)
  : Called (list AutaraEvent) :=
  let? (_, tx) := from_anyhow (built (Tx.remove_whitelisted_liquidator autara_program_id
                    (signer_pubkey self) market liquidator)) in
  let? tx := prepared (Ok tx) in
  sent tx.

Definition liquidate (market borrow_position : Pubkey)
  (max_borrowed_atoms_to_repay min_collateral_atoms_to_receive : option Z)
  (ix_callback : option Instruction) : Called (list AutaraEvent) :=
  let? tx := prepared (Tx.liquidate autara_program_id (signer_pubkey self) market
                         borrow_position max_borrowed_atoms_to_repay
                         min_collateral_atoms_to_receive ix_callback) in
  sent tx.

Definition begin_capital_sweep (market borrow_position : Pubkey) : Called (list AutaraEvent) :=
  let? tx := prepared (Tx.begin_capital_sweep autara_program_id (signer_pubkey self) market
                         borrow_position) in
  sent tx.

Definition settle_capital_sweep (market borrow_position : Pubkey)
  (max_borrowed_atoms_to_repay max_collateral_atoms_to_return : option Z)
  : Called (list AutaraEvent) :=
  let? tx := prepared (Tx.settle_capital_sweep autara_program_id (signer_pubkey self) market
                         borrow_position max_borrowed_atoms_to_repay
                         max_collateral_atoms_to_return) in
  sent tx.

Definition reedeem_curator_fees (market : Pubkey) : Called (list AutaraEvent) :=
  let? tx := prepared (Tx.redeem_curator_fees autara_program_id (signer_pubkey self) market) in
  sent tx.

Definition reedeem_protocol_fees (market : Pubkey) : Called (list AutaraEvent) :=
  let? tx := prepared (Tx.redeem_protocol_fees autara_program_id (signer_pubkey self) market) in
  sent tx.

Definition update_global_config (update : UpdateGlobalConfigInstruction)
  : Called (list AutaraEvent) :=
  let? tx := prepared (Tx.update_global_config autara_program_id (signer_pubkey self) update) in
  sent tx.

Definition borrow_deposit (market_key : Pubkey) (ix : BorrowDepositAplInstruction)
  : Called (list AutaraEvent) :=
  let? tx := prepared (Tx.borrow_deposit autara_program_id (signer_pubkey self) market_key ix) in
  sent tx.

Definition withdraw_repay (market_key : Pubkey) (ix : WithdrawRepayAplInstruction)
  : Called (list AutaraEvent) :=
  let? tx := prepared (Tx.withdraw_repay autara_program_id (signer_pubkey self) market_key ix) in
  sent tx.

Definition donate_supply (market : Pubkey) (amount : Z) : Called (list AutaraEvent) :=
  let? tx := prepared (Tx.donate_supply autara_program_id (signer_pubkey self) market amount) in
  sent tx.

Definition socialize_loss (market position : Pubkey) : Called (list AutaraEvent) :=
  let? tx := prepared (Tx.socialize_loss autara_program_id (signer_pubkey self) market
                         position) in
  sent tx.

End Client.
End FullClient.
