(* ===== verification/FullClientFacts.v ===== *)
(** * What the client is told

    A request goes all the way: the client builds it from what it has read, signs it, a node
    runs the program on it, and the client reads from the report what came of it, the event of
    a success or the error of the program. *)
From Stdlib Require Import String Ascii.
From stdpp Require Import gmap.
From Stdlib Require Import String.
From S2P Require Import Prelude.
From S2P Require Import Text.
From S2P Require Import Errors.
From S2P Require Import Monad.
From S2P Require Import FixedPoint.
From S2P Require Import Pda.
From S2P Require Import Oracle.
From S2P Require Import Market.
From S2P Require Import ProgramErrors.
From S2P Require Import Accounts.
From S2P Require Import Events.
From S2P Require Import Processor.
From S2P Require Import ProcessorAdmin.
From S2P Require Import Program.
From S2P Require Import Borsh.
From S2P Require Import InstructionCodec.
From S2P Require Import Idl.
From S2P Require Import Entry.
From S2P Require Import IxBuilders.
From S2P Require Import TxBuilder.
From S2P Require Import TxFacts.
From S2P Require Import EventCodec.
From S2P Require Import EventCodecFacts.
From S2P Require Import RpcExt.
From S2P Require Import FullClient.
From S2P Require Import FixedFacts.
From S2P Require Import Bytes.
From S2P Require Import MarketConfig.
From S2P Require Import Creation.
From S2P Require Import IdlFacts.
From S2P Require Import LedgerExample.
From S2P Require Import Layout.
From S2P Require Import ReadClientFacts.
From S2P Require Import ClientExample.
#[local] Open Scope string_scope.
#[local] Open Scope Z_scope.
#[local] Arguments append : simpl nomatch.

(** ** Numbers in messages *)

(** A digit of [{:x}]. *)
Definition hex_digit (d : Z) : ascii :=
  ascii_of_nat (Z.to_nat (if d <? 10 then d + 48 else d + 87)).

Fixpoint hex_fuel (fuel : nat) (n : Z) (acc : string) : string :=
  let acc := String (hex_digit (n mod 16)) acc in
  match fuel with
  | O => acc
  | S fuel => if n / 16 =? 0 then acc else hex_fuel fuel (n / 16) acc
  end.

(** [{:x}] of a number of 32 bits: at most eight digits. *)
Definition lower_hex (n : Z) : string := hex_fuel 7 n EmptyString.

Lemma hex_value_digit d : 0 <= d < 16 -> hex_value (hex_digit d) = Some d.
Proof.
  intros H. assert (Hd : d = 0 \/ d = 1 \/ d = 2 \/ d = 3 \/ d = 4 \/ d = 5 \/ d = 6 \/ d = 7 \/
    d = 8 \/ d = 9 \/ d = 10 \/ d = 11 \/ d = 12 \/ d = 13 \/ d = 14 \/ d = 15) by lia.
  by repeat destruct Hd as [-> | Hd]; [reflexivity.. | subst].
Qed.

Lemma mod16 n : 0 <= n mod 16 < 16.
Proof. apply Z.mod_pos_bound. lia. Qed.

(** Reading a number that was printed. *)
Lemma u32_of_hex_fuel fuel : forall n acc,
  0 <= n < 2 ^ 32 -> n < 16 ^ Z.of_nat (S fuel) ->
  u32_of_hex 0 (hex_fuel fuel n acc) = u32_of_hex n acc.
Proof.
  induction fuel as [| fuel IH]; intros n acc Hn Hf; cbn [hex_fuel].
  - cbn [u32_of_hex]. rewrite hex_value_digit by apply mod16.
    rewrite Z.mod_small by lia. rewrite (proj2 (Z.ltb_lt _ _)) by lia. done.
  - pose proof (Z.div_mod n 16 ltac:(lia)) as Hd. pose proof (mod16 n).
    destruct (Z.eqb_spec (n / 16) 0) as [E | E].
    + cbn [u32_of_hex]. rewrite hex_value_digit by done.
      rewrite (proj2 (Z.ltb_lt _ _)) by lia. f_equal. lia.
    + rewrite IH.
      * cbn [u32_of_hex]. rewrite hex_value_digit by done.
        rewrite (proj2 (Z.ltb_lt _ _)) by lia. f_equal. lia.
      * lia.
      * rewrite Nat2Z.inj_succ, Z.pow_succ_r in Hf by lia. lia.
Qed.

Lemma u32_of_lower_hex n : 0 <= n < 2 ^ 32 -> u32_of_hex 0 (lower_hex n) = Some n.
Proof. intros H. apply u32_of_hex_fuel; [done |]. change (n < 2 ^ 32). lia. Qed.

Lemma hex_fuel_app fuel : forall n acc post,
  hex_fuel fuel n acc ++ post = hex_fuel fuel n (acc ++ post).
Proof.
  induction fuel as [| fuel IH]; intros n acc post; cbn [hex_fuel]; [done |].
  destruct (_ =? _); [done |]. by rewrite IH.
Qed.

Lemma hex_digits_fuel fuel : forall n acc,
  hex_digits (hex_fuel fuel n acc) = hex_fuel fuel n (hex_digits acc).
Proof.
  induction fuel as [| fuel IH]; intros n acc; cbn [hex_fuel].
  - cbn. by rewrite hex_value_digit by apply mod16.
  - destruct (_ =? _); [| rewrite IH]; cbn [hex_digits];
      by rewrite hex_value_digit by apply mod16.
Qed.

Lemma hex_fuel_cons fuel : forall n acc, exists c s, hex_fuel fuel n acc = String c s.
Proof.
  induction fuel as [| fuel IH]; intros n acc; cbn [hex_fuel]; [eauto |].
  destruct (_ =? _); [eauto | apply IH].
Qed.

Lemma hex_digits_lower_hex n post :
  hex_digits post = EmptyString -> hex_digits (lower_hex n ++ post) = lower_hex n.
Proof. intros H. unfold lower_hex. rewrite hex_fuel_app, hex_digits_fuel.
  change (EmptyString ++ post) with post. by rewrite H.
Qed.

(** ** The error in a message *)

Lemma strip_prefix_app p s : strip_prefix p (p ++ s) = Some s.
Proof. induction p as [| a p IH]; [done |]. cbn [String.append strip_prefix]. by rewrite Ascii.eqb_refl. Qed.

Lemma strip_prefix_more p : forall s rest x,
  strip_prefix p s = Some x -> strip_prefix p (s ++ rest) = Some (x ++ rest).
Proof.
  induction p as [| a p IH]; intros s rest x H; cbn [String.append strip_prefix] in *; [congruence |].
  destruct s as [| b s]; [done |]. cbn [String.append strip_prefix]. destruct (Ascii.eqb a b); [| done]. by apply IH.
Qed.

Lemma strip_prefix_less p : forall s rest x,
  strip_prefix p (s ++ rest) = Some x -> (String.length p <= String.length s)%nat ->
  exists y, strip_prefix p s = Some y /\ x = y ++ rest.
Proof.
  induction p as [| a p IH]; intros s rest x H Hl; cbn [String.append strip_prefix String.length] in *; [naive_solver |].
  destruct s as [| b s]; cbn [String.append strip_prefix String.length] in *; [lia |]. destruct (Ascii.eqb a b); [| done].
  apply IH; [done | lia].
Qed.

Lemma strip_prefix_length p : forall s x,
  strip_prefix p s = Some x -> String.length s = (String.length p + String.length x)%nat.
Proof.
  induction p as [| a p IH]; intros s x H; cbn [strip_prefix] in *; [naive_solver |].
  destruct s as [| b s]; [done |]. destruct (Ascii.eqb a b); [| done]. cbn. f_equal. by apply IH.
Qed.

Lemma hex_digits_first x rest :
  x <> EmptyString -> hex_digits x = EmptyString -> hex_digits (x ++ rest) = EmptyString.
Proof. destruct x as [| c x]; [done |]. cbn. by destruct (hex_value c). Qed.

Lemma captures_eq s :
  captures s =
  let later := match s with EmptyString => None | String _ s => captures s end in
  match strip_prefix PATTERN s with
  | Some rest => match hex_digits rest with EmptyString => later | d => Some d end
  | None => later
  end.
Proof. by destruct s. Qed.

Lemma string_length_append (s t : string) : String.length (s ++ t) = (String.length s + String.length t)%nat.
Proof. induction s as [| a s IH]; cbn; [done |]. by rewrite IH. Qed.

Lemma append_assoc (s t u : string) : (s ++ t) ++ u = s ++ (t ++ u).
Proof. induction s as [| a s IH]; cbn; [done |]. by rewrite IH. Qed.

(** A message that names an error once: the number behind the pattern is found. *)
Lemma captures_message pre d post :
  captures (pre ++ PATTERN) = None -> hex_digits (d ++ post) = d -> d <> EmptyString ->
  captures (pre ++ PATTERN ++ d ++ post) = Some d.
Proof.
  intros Hpre Hd Hne. induction pre as [| a pre IH].
  - change (EmptyString ++ PATTERN ++ d ++ post) with (PATTERN ++ d ++ post).
    rewrite captures_eq, strip_prefix_app, Hd. by destruct d.
  - rewrite captures_eq in Hpre |- *. cbv zeta in *.
    change (String a pre ++ ?x) with (String a (pre ++ x)) in *. cbn beta iota in *.
    assert (Hlater : captures (pre ++ PATTERN) = None).
    { destruct (strip_prefix PATTERN (String a (pre ++ PATTERN))) as [x |]; [| done].
      by destruct (hex_digits x). }
    rewrite (IH Hlater).
    destruct (strip_prefix PATTERN (String a (pre ++ PATTERN ++ d ++ post))) as [x |] eqn:E;
      [| done].
    assert (Hs : String a (pre ++ PATTERN ++ d ++ post) = String a (pre ++ PATTERN) ++ (d ++ post))
      by (cbn; by rewrite append_assoc).
    rewrite Hs in E. apply strip_prefix_less in E as (y & E & ->).
    2: { cbn [String.length]. rewrite string_length_append. lia. }
    rewrite E in Hpre. assert (Hy : hex_digits y = EmptyString) by (by destruct (hex_digits y)).
    rewrite hex_digits_first; [done | | done].
    apply strip_prefix_length in E. cbn [String.length] in E. rewrite string_length_append in E.
    intros ->. cbn [String.length] in E. lia.
Qed.

Section Errors.
Context {PE : ProgramErrorCrate} {PEL : ProgramErrorLaws PE}.

(** The text that names a custom error. *)
Definition custom_error (pre : string) (code : Z) (post : string) : string :=
  pre ++ PATTERN ++ lower_hex code ++ post.

Lemma error_of_custom pre code post :
  0 <= code < 2 ^ 32 -> captures (pre ++ PATTERN) = None -> hex_digits post = EmptyString ->
  error_of (custom_error pre code post) = Some (from_error_code code).
Proof.
  intros Hc Hp Hpost. unfold error_of, custom_error.
  rewrite captures_message; [| done | by apply hex_digits_lower_hex |].
  - by rewrite u32_of_lower_hex.
  - destruct (hex_fuel_cons 7 code EmptyString) as (c & s & E). unfold lower_hex. by rewrite E.
Qed.

End Errors.

(** ** Signatures *)

(** Of [arch_sdk]: the payer signs, and the accounts that an instruction marks as signers. *)
Class SdkLaws {SDK : ArchSdk} : Prop := {
  payer_signs m : am_payer m ∈ required_signers m;
  signer_is_marked m k : k ∈ required_signers m ->
    k = am_payer m \/ exists i w, i ∈ am_instructions m /\ (k, true, w) ∈ ix_accounts i }.

(** Only the user is marked as a signer. *)
Definition only_user (authority : Pubkey) (l : list (Pubkey * bool * bool)) : Prop :=
  Forall (fun m => snd (fst m) = true -> fst (fst m) = authority) l.

Definition request_callback (r : Request) : option Instruction :=
  match r with
  | RLiquidate _ _ _ _ c => c
  | RBorrowDeposit _ d => bd_ix_callback d
  | RWithdrawRepay _ d => wr_ix_callback d
  | _ => None
  end.

(** The requests that the client makes for its signer, who pays and is the curator. *)
Definition own_request (authority : Pubkey) (r : Request) : Prop :=
  match r with
  | RCreateMarket c p _ _ _ => c = authority /\ p = authority
  | RCreateGlobalConfig p _ _ _ => p = authority
  | _ => True
  end.

Ltac signed :=
  repeat match goal with
  | |- only_user _ (ix_accounts (mkInstruction _ _ _)) => unfold only_user; cbn [ix_accounts]
  | |- only_user _ (ix_accounts (snd ?p)) => let h := get_head p in unfold h
  | |- only_user _ (ix_accounts (snd (let '(_, _) := ?x in _))) => destruct x; cbn [snd]
  | |- only_user _ (ix_accounts (let '(_, _) := ?x in _)) => destruct x
  | |- only_user _ (ix_accounts ?i) => let h := get_head i in unfold h
  | |- Forall _ (_ ++ _)%list => apply Forall_app; split
  | |- Forall _ (_ :: _) => apply List.Forall_cons; [| ]
  | |- Forall _ [] => apply List.Forall_nil
  | |- snd (fst (meta _ _)) = true -> _ => first [by intros _ | intros E; discriminate E]
  | |- snd (fst (meta_ro _ _)) = true -> _ => first [by intros _ | intros E; discriminate E]
  | |- Forall _ (match ?o with Some _ => _ | None => _ end) => destruct o
  end.

Section Signing.
Context {PC : PdaCrate} {CH : Chain} {BO : BorshCrate} {RC : AutaraReadClient}.

(** Nobody but the user has to sign what the client builds, a callback apart. *)
Lemma build_signed authority r tx :
  build authority r = Ok tx -> own_request authority r ->
  only_user authority (Ixs.callback_accounts (request_callback r)) ->
  Forall (fun i => only_user authority (ix_accounts i)) tx.
Proof.
  intros H Hown Hcb. destruct r; cbn [build own_request request_callback] in *;
    match type of H with
    | (let? _ := ?f in _) = _ => let h := get_head f in unfold h in H
    | ?f = _ => let h := get_head f in unfold h in H
    end.
  all: unfold Ixs.create_market_ix, Ixs.create_global_config_ix, Ixs.add_whitelisted_liquidator_ix,
    Ixs.remove_whitelisted_liquidator_ix, Ixs.update_config_ix in H.
  all: repeat (run_inv_step || match goal with
    | H : (let '(_, _) := ?x in _) = _ |- _ => destruct x eqn:?
    | H : context [get_supply_position ?k ?a] |- _ => destruct (get_supply_position k a)
    | H : context [get_borrow_position ?k ?a] |- _ => destruct (get_borrow_position k a)
    end).
  all: signed; exact Hcb.
Qed.

End Signing.

Section Calls.
Context {FX : FixedCrate} {PC : PdaCrate} {BC : OracleBuild} {RT : Runtime}.
Context {CH : Chain} {AC : AccountCodec} {ME : Memory} {SC : SeedCrate} {SY : SystemProgram}.
Context {BO : BorshCrate} {BOL : BorshLaws BO} {PE : ProgramErrorCrate} {PEL : ProgramErrorLaws PE}.
Context {SDK : ArchSdk} {SL : SdkLaws} {DT : DebugText}.

(** The signature of the user is enough. *)
Lemma collect_own authority s h net keys :
  x_only_public_key s = authority -> Forall (fun k => k = authority) keys ->
  collect_signatures [s] h net keys = Some (replicate (length keys) (sign_message_bip322 s h net)).
Proof.
  intros Hs. induction 1 as [| k keys -> _ IH]; [done |]. cbn [collect_signatures length replicate].
  assert (Hf : list_find (fun s0 => x_only_public_key s0 = authority) [s] = Some (0%nat, s))
    by (cbn; by rewrite decide_True).
  by rewrite Hf, IH.
Qed.

Lemma sign_own authority s net tx :
  x_only_public_key s = authority -> am_payer (ts_message tx) = authority ->
  Forall (fun i => only_user authority (ix_accounts i)) (am_instructions (ts_message tx)) ->
  exists sigs, sign tx [s] net = Ok (mkRuntimeTx sigs (ts_message tx)) /\ sigs <> [].
Proof.
  intros Hs Hp Hi. unfold sign.
  assert (Hk : Forall (fun k => k = authority) (required_signers (ts_message tx))).
  { apply list.Forall_forall. intros k Hk.
    destruct (signer_is_marked _ _ Hk) as [-> | (i & w & Hin & Hm)]; [done |].
    rewrite list.Forall_forall in Hi. specialize (Hi i Hin). unfold only_user in Hi.
    rewrite list.Forall_forall in Hi. exact (Hi _ Hm eq_refl). }
  rewrite (collect_own authority) by done. eexists. split; [done |].
  pose proof (payer_signs (ts_message tx)) as Hps.
  destruct (required_signers (ts_message tx)); [by apply not_elem_of_nil in Hps | done].
Qed.

(** ** Calls of the client *)

Definition creates (r : Request) : bool :=
  match r with RCreateMarket _ _ _ _ _ | RCreateGlobalConfig _ _ _ _ => true | _ => false end.

(** The method of a request; the two that create accounts report their address instead of
    events. *)
Definition perform (self : FullClient.AutaraFullClientWithSigner) (r : Request)
  : Called (list AutaraEvent) :=
  match r with
  | RCreateMarket _ _ d sm cm => let? _ := FullClient.create_market id self d sm cm in Ok []
  | RCreateGlobalConfig _ a f s => let? _ := FullClient.create_global_config id self a f s in Ok []
  | RSupply k n => FullClient.supply id self k n
  | RDepositCollateral k n => FullClient.deposit_collateral id self k n
  | RBorrow k n => FullClient.borrow id self k n
  | RRepay k n => FullClient.repay id self k n
  | RWithdrawSupply k n => FullClient.withdraw_supply id self k n
  | RWithdrawCollateral k n => FullClient.withdraw_collateral id self k n
  | RUpdateConfig k d => FullClient.update_config id self k d
  | RAddWhitelistedLiquidator k l => FullClient.add_whitelisted_liquidator id self k l
  | RRemoveWhitelistedLiquidator k l => FullClient.remove_whitelisted_liquidator id self k l
  | RLiquidate k p x y c => FullClient.liquidate id self k p x y c
  | RBeginCapitalSweep k p => FullClient.begin_capital_sweep id self k p
  | RSettleCapitalSweep k p x y => FullClient.settle_capital_sweep id self k p x y
  | RRedeemCuratorFees k => FullClient.reedeem_curator_fees id self k
  | RRedeemProtocolFees k => FullClient.reedeem_protocol_fees id self k
  | RUpdateGlobalConfig d => FullClient.update_global_config id self d
  | RBorrowDeposit k d => FullClient.borrow_deposit id self k d
  | RWithdrawRepay k d => FullClient.withdraw_repay id self k d
  | RSocializeLoss k p => FullClient.socialize_loss id self k p
  | RDonateSupply k n => FullClient.donate_supply id self k n
  end.

(** Every method builds its request and sends it. *)
Lemma perform_sends self r :
  creates r = false ->
  perform self r
  = let? tx := FullClient.prepared self (build (RC := FullClient.read_client self)
                                           (FullClient.signer_pubkey self) r) in
    FullClient.sent id self tx.
Proof.
  destruct r; intros E; try discriminate E; try reflexivity; cbn [perform build].
  - unfold FullClient.add_whitelisted_liquidator, Tx.add_whitelisted_liquidator.
    by destruct (Ixs.add_whitelisted_liquidator_ix _ _ _ _).
  - unfold FullClient.remove_whitelisted_liquidator, Tx.remove_whitelisted_liquidator.
    by destruct (Ixs.remove_whitelisted_liquidator_ix _ _ _ _).
Qed.

(** ** The node *)

(** How the runtime shows the accounts of an instruction, with their balances. *)
Definition presented (A : Store) (balance : Pubkey -> Z) (i : Instruction) : list Acc :=
  (fun m => mkAcc (present A m) (balance (fst (fst m)))) <$> ix_accounts i.

Lemma presented_info A balance i : info <$> presented A balance i = present A <$> ix_accounts i.
Proof. unfold presented. rewrite <- list_fmap_compose. by apply list_fmap_ext. Qed.

(** A call of another program. *)
Definition foreign (tx : ProcessedTransaction) (i : InnerInstruction) : Prop :=
  exists k, get_account_key tx (in_program_id_index i) = Some k /\ k <> id.

(** What the node reports of a transaction whose last instruction ended so: the calls of a
    success, behind those of the instructions before it, or the code of the error in the
    message. *)
Definition reports (r : Result ProgramError Effect) (p : ProcessedTx) : Prop :=
  match r with
  | Ok (Lending o) =>
    pt_status p = Processed /\
    exists before own, concat (inner_instructions_list (pt_report p)) = (before ++ own)%list /\
      Forall (foreign (pt_report p)) before /\ Forall2 (reported id (pt_report p)) (calls o) own
  | Ok (Description _) => pt_status p = Processed
  | Err (Custom code) =>
    exists pre post, pt_status p = Failed (custom_error pre code post) /\
      captures (pre ++ PATTERN) = None /\ hex_digits post = EmptyString
  | _ => exists msg, pt_status p = Failed msg
  end.

(** The node answers, runs the instructions and reports on the last one. *)
Definition runs (node : SdkNode) (A : Store) (balance : Pubkey -> Z) (ts : Z) (ixs : Transaction)
  : Prop :=
  is_ok (get_best_block_hash node) = true /\
  forall tx, am_instructions (rt_message tx) = ixs ->
    exists txid p, send_transaction node tx = Ok txid /\
      wait_for_processed_transaction node txid = Ok p /\
      forall pre i, ixs = (pre ++ [i])%list ->
        reports (process_instruction id (presented A balance i) (ix_data i) ts) p.

Lemma foreign_events tx before own :
  Forall (foreign tx) before ->
  omap (fun ix => if bool_decide (fst ix = id) then from_bytes (snd ix) else None)
    (omap (fun ix => let* k := get_account_key tx (in_program_id_index ix) in
                     Some (k, in_data ix)) (before ++ own)%list)
  = omap (fun ix => if bool_decide (fst ix = id) then from_bytes (snd ix) else None)
      (omap (fun ix => let* k := get_account_key tx (in_program_id_index ix) in
                       Some (k, in_data ix)) own).
Proof.
  induction 1 as [| i before (k & Hk & Hne) _ IH]; [done |]. cbn [app omap list_omap].
  rewrite Hk. cbn [mbind option_bind omap list_omap fst snd].
  by rewrite bool_decide_eq_false_2.
Qed.

(** The transaction of a request with some block hash, signed by the user alone, and the report of
    the node on it. *)
Lemma signed_request_runs {RC : AutaraReadClient} (node : SdkNode) s net h A balance ts r ix ks :
  let authority := x_only_public_key s in
  (forall ixs, build authority r = Ok ixs -> runs node A balance ts ixs) ->
  requested authority A r ix ks -> ix_typed ix ->
  only_user authority (Ixs.callback_accounts (request_callback r)) ->
  exists pre i sigs p,
    let msg := mkMessage (pre ++ [i])%list authority h in
    build authority r = Ok (pre ++ [i])%list /\
    roles ix (present A <$> ix_accounts i) = Ok ks /\
    is_ok (get_best_block_hash node) = true /\
    collect_signatures [s] (message_hash msg) net (required_signers msg) = Some sigs /\ sigs <> [] /\
    broadcast_transaction id node (mkRuntimeTx sigs msg) = parse_processed_autara_tx p id /\
    reports (match autara_process_instruction id (present A <$> ix_accounts i) ix ts with
             | Ok o => Ok (Lending o)
             | Err e => Err (into_program_error e)
             | Panic => Panic
             end) p.
Proof.
  intros authority Hrun Hq Ht Hcb.
  destruct (build_agrees _ A r ix ks Hq) as (pre & i & Hb & Hp & Hd & Hro & _).
  destruct (Hrun _ Hb) as [Hh Hr]. assert (Hown : own_request authority r) by by destruct Hq.
  pose proof (build_signed _ _ _ Hb Hown Hcb) as Hsig.
  set (msg := mkMessage (pre ++ [i])%list authority h).
  destruct (sign_own authority s net (mkToSign (pre ++ [i])%list msg (message_hash msg)))
    as (sigs & Esig & Hne); [done.. |]. unfold sign in Esig. cbn [ts_message ts_message_hash] in Esig.
  destruct (collect_signatures [s] (message_hash msg) net (required_signers msg)) as [sigs' |] eqn:Ec;
    [| done]. injection Esig as ->.
  destruct (Hr (mkRuntimeTx sigs msg) eq_refl) as (txid & p & Et & Ew & Hrep).
  specialize (Hrep pre i eq_refl).
  exists pre, i, sigs, p. cbv zeta. fold msg. split_and!; [done.. | |].
  - unfold broadcast_transaction. cbn [rt_signatures]. destruct sigs; [done |].
    cbn [res_bind]. rewrite Et. cbn [res_from res_bind]. by rewrite Ew.
  - rewrite Hd, <- (app_nil_r (serialize ix)), serialized_runs, presented_info in Hrep by done.
    exact Hrep.
Qed.

(** The same through a method of the client. *)
Lemma perform_runs self A balance ts r ix ks :
  FullClient.signer_pubkey self = x_only_public_key (FullClient.signer self) ->
  (forall ixs, build (RC := FullClient.read_client self) (FullClient.signer_pubkey self) r = Ok ixs ->
     runs (FullClient.arch_client self) A balance ts ixs) ->
  requested (RC := FullClient.read_client self) (FullClient.signer_pubkey self) A r ix ks ->
  ix_typed ix -> creates r = false ->
  only_user (FullClient.signer_pubkey self) (Ixs.callback_accounts (request_callback r)) ->
  exists pre i p,
    build (RC := FullClient.read_client self) (FullClient.signer_pubkey self) r
      = Ok (pre ++ [i])%list /\
    roles ix (present A <$> ix_accounts i) = Ok ks /\
    perform self r = parse_processed_autara_tx p id /\
    reports (match autara_process_instruction id (present A <$> ix_accounts i) ix ts with
             | Ok o => Ok (Lending o)
             | Err e => Err (into_program_error e)
             | Panic => Panic
             end) p.
Proof.
  intros Hs Hrun Hq Ht Hc Hcb. rewrite Hs in *.
  set (h := match get_best_block_hash (FullClient.arch_client self) with Ok h => h | _ => [] end).
  destruct (signed_request_runs (RC := FullClient.read_client self) (FullClient.arch_client self)
    (FullClient.signer self) (FullClient.network self) h A balance ts r ix ks Hrun Hq Ht Hcb)
    as (pre & i & sigs & p & Hb & Hro & Hh & Hsig & Hne & Hbr & Hrep).
  exists pre, i, p. split_and!; [done | done | | done].
  rewrite perform_sends, Hs, Hb by done. unfold FullClient.prepared, built.
  cbn [res_from res_bind]. unfold build_transaction_digest_hash_to_sign.
  destruct (get_best_block_hash (FullClient.arch_client self)) as [h' | |] eqn:Eh;
    [| discriminate Hh..]. subst h. rewrite Hs.
  cbn [from_arch res_from res_bind from_anyhow]. unfold FullClient.sent, sign.
  cbn [ts_message ts_message_hash]. rewrite Hsig. exact Hbr.
Qed.

(** Whatever the message of a failure is, the client returns an error; it is the error of the
    program when that has a code. *)
Lemma failed_is_error p msg :
  pt_status p = Failed msg -> exists err, parse_processed_autara_tx p id = Err err.
Proof. unfold parse_processed_autara_tx. intros ->. destruct (error_of msg); eauto. Qed.

Lemma refused_is_named p e :
  (forall x, e <> KProgramError x) -> reports (Err (into_program_error e)) p ->
  exists logs events, parse_processed_autara_tx p id = Err (AutaraTxError e logs events).
Proof.
  intros He Hr. destruct (program_error_decodes e He) as (code & Hi & Hc & Hd).
  rewrite Hi in Hr. destruct Hr as (pre & post & Hs & Hpre & Hpost).
  unfold parse_processed_autara_tx. rewrite Hs, error_of_custom, Hd by (done || lia). eauto.
Qed.

(** What the report says of the run of an instruction, as the client reads it: of a success
    exactly the events that the program logged, one for an instruction that announces one; of a
    refusal the error of the program when it has a code of its own, and some error for the other
    errors of the runtime and for a panic. *)
Definition told (ix : AurataInstruction) (run : Result LendingProgramErrorKind Outcome)
  (heard : Called (list AutaraEvent)) : Prop :=
  match run with
  | Ok o => heard = Ok (omap logged (calls o)) /\
      forall t, announced ix = Some t ->
        exists e, heard = Ok [e] /\ event_tag e = t /\
          exists m', (event_market e, DMarket m') ∈ written o
  | Err (KProgramError _) | Panic => exists err, heard = Err err
  | Err kind => exists logs events, heard = Err (AutaraTxError kind logs events)
  end.

Lemma report_is_told ix accounts ts p :
  reports (match autara_process_instruction id accounts ix ts with
           | Ok o => Ok (Lending o)
           | Err e => Err (into_program_error e)
           | Panic => Panic
           end) p ->
  told ix (autara_process_instruction id accounts ix ts) (parse_processed_autara_tx p id).
Proof.
  intros Hr. unfold told. destruct (autara_process_instruction id accounts ix ts) as [o | e |] eqn:E.
  - destruct Hr as (Hst & before & own & Hin & Hf & Hown).
    assert (Hh : parse_processed_autara_tx p id = Ok (omap logged (calls o))).
    { unfold parse_processed_autara_tx. rewrite Hst. f_equal.
      unfold from_processed_tx, get_ix_data_with_program_ids.
      by rewrite Hin, foreign_events, (reported_events id _ _ _ Hown). }
    split; [done |]. intros t Ha.
    destruct (announced_logs _ _ _ _ _ E Ha) as (ev & Hl & Htag & Hw). exists ev.
    by rewrite Hh, Hl.
  - destruct e as [x | | |]; [| by apply refused_is_named..].
    destruct x; cbn in Hr; [destruct Hr as (? & ? & ? & _) | destruct Hr as [? ?]..];
      by eapply failed_is_error.
  - destruct Hr as [msg Hr]. by eapply failed_is_error.
Qed.

(** C17: A client is told what the program did.  It builds a request, other than those that
    create a market or the global configuration, from what it has read, signs it alone, and
    sends it to a node that runs the program on the accounts of the chain and reports on it.
    When the program succeeds, the client returns exactly the events that the program logged:
    for an instruction on a market or its whitelist one event, about the market that the
    program wrote, of the kind that the handler logs, which for the fees of the protocol is the
    kind of the curator's fees.  When the program refuses with an error of the lending library
    or of the validation of accounts, the client returns this error; after any other error of
    the runtime or a panic it returns some error, never a success. *)
Theorem client_is_told_the_outcome self A balance ts r ix ks :
  FullClient.signer_pubkey self = x_only_public_key (FullClient.signer self) ->
  (forall ixs, build (RC := FullClient.read_client self) (FullClient.signer_pubkey self) r = Ok ixs ->
     runs (FullClient.arch_client self) A balance ts ixs) ->
  requested (RC := FullClient.read_client self) (FullClient.signer_pubkey self) A r ix ks ->
  ix_typed ix -> creates r = false ->
  only_user (FullClient.signer_pubkey self) (Ixs.callback_accounts (request_callback r)) ->
  exists pre i,
  build (RC := FullClient.read_client self) (FullClient.signer_pubkey self) r
    = Ok (pre ++ [i])%list /\
  roles ix (present A <$> ix_accounts i) = Ok ks /\
  told ix (autara_process_instruction id (present A <$> ix_accounts i) ix ts) (perform self r).
Proof.
  intros Hs Hn Hq Ht Hc Hcb.
  destruct (perform_runs self A balance ts r ix ks Hs Hn Hq Ht Hc Hcb)
    as (pre & i & p & Hb & Hro & Hp & Hr).
  exists pre, i. split; [done |]. split; [done |]. rewrite Hp. by apply report_is_told.
Qed.

End Calls.

(** * A call of the client, from one end to the other

    The borrower of [ClientExample] deposits collateral through the client: at a time when the
    prices are valid the call returns the event of the deposit, later it returns the error of
    the program. *)

(** Addresses of 32 bytes. *)
Definition pda_short : PdaCrate := fun seeds program =>
  let s := concat seeds in ((take 15 s ++ take 17 (rev s))%list, 255).

(** Keys are their own public keys; every marked account has to sign. *)
Definition sdk_ex : ArchSdk := {|
  Keypair := Pubkey;
  Network := ();
  x_only_public_key := fun k => k;
  required_signers := fun m =>
    am_payer m :: ((fun a => fst (fst a)) <$>
                   filter (fun a => snd (fst a) = true)
                     (concat (ix_accounts <$> am_instructions m)));
  message_hash := fun m => am_blockhash m;
  sign_message_bip322 := fun k h _ => (k ++ h)%list |}.

Lemma sdk_ex_laws : SdkLaws (SDK := sdk_ex).
Proof.
  split; cbn; [set_solver |]. intros m k [-> | Hk]%elem_of_cons; [by left | right].
  apply list_elem_of_fmap in Hk as ([[k' s] w] & -> & [Hs Hin]%list_elem_of_filter).
  cbn in *. subst. apply list_elem_of_In, in_concat in Hin as (l & Hl & Hin).
  apply list_elem_of_In, list_elem_of_fmap in Hl as (i & -> & Hi). exists i, w.
  split; [done |]. by apply list_elem_of_In.
Qed.

Definition debug_ex : DebugText := {|
  debug_logs := fun _ => EmptyString; debug_processed := fun _ => EmptyString |}.

#[local] Existing Instances fixed_ref fixed_ref_laws pda_short borsh_ex chain_ex runtime_ex memory_ex
  borsh_ref borsh_ref_laws codec_1 sdk_ex sdk_ex_laws debug_ex program_error_ex
  program_error_ex_laws seed_ex sys_ex.

Definition borrower_2 : Pubkey :=
  Eval vm_compute in fst (find_borrow_position_pda id (key_ex 8) (key_ex 21)).

Definition global_2 : Pubkey := Eval vm_compute in fst (find_global_config_pda id).

Definition chain_2 : ChainState :=
  list_to_map
    [(key_ex 8, mkRpcAccount id (bytes_of market_pod (fst borrowed)));
     (borrower_2, mkRpcAccount id (bytes_of borrow_position_pod (snd borrowed)));
     (global_2, mkRpcAccount id (bytes_of global_config_pod global_ex));
     (key_ex 10, price_account (key_ex 10) 100000000 1000);
     (key_ex 11, price_account (key_ex 11) 5430000000 1000);
     (key_ex 5, mkRpcAccount (key_ex 50) [8]);
     (key_ex 7, mkRpcAccount (key_ex 50) [7])].

Definition roles_2 : list Pubkey :=
  [key_ex 8; borrower_2; key_ex 21; ata (key_ex 21) (collateral_mint (fst borrowed));
   collateral_vault_key (fst borrowed); supply_oracle_of (fst borrowed);
   collateral_oracle_of (fst borrowed)].

Lemma requested_2 :
  requested (RC := chain_client chain_2) (key_ex 21) (store_of chain_2) ask_1
    (Ix.DepositAplCollateral 700) roles_2.
Proof.
  apply (q_deposit_collateral (RC := chain_client chain_2) (key_ex 21) (store_of chain_2)
           (key_ex 8) (fst borrowed) borrower_2 700).
  - split; [by vm_compute |]. split; [exists (fst borrowed); split; [by vm_compute | done] |].
    split; (eexists; split; [by vm_compute |]; split; [vm_compute; reflexivity | by vm_compute]).
  - split; [by vm_compute |]. exists (snd borrowed). by vm_compute.
  - eexists. split; [by vm_compute |]. split; [vm_compute; reflexivity | by vm_compute].
Qed.

(** What the client sends: the creation of the token account, and the deposit. *)
Definition client_2 : AutaraReadClient := chain_client chain_2.
Definition ixs_2 : Transaction := Eval vm_compute in
  match build (RC := client_2) (key_ex 21) ask_1 with Ok ixs => ixs | _ => [] end.

Lemma built_2 : build (RC := client_2) (key_ex 21) ask_1 = Ok ixs_2.
Proof. vm_compute. reflexivity. Qed.

(** The run of the deposit at a time. *)
Definition run_at (ts : Z) : Result ProgramError Effect :=
  match rev ixs_2 with
  | i :: _ => process_instruction id (presented (store_of chain_2) (fun _ => 0) i) (ix_data i) ts
  | [] => Panic
  end.

Definition calls_2 : list Call := Eval vm_compute in
  match run_at 1000 with Ok (Lending o) => calls o | _ => [] end.
Definition event_2 : AutaraEvent := Eval vm_compute in
  match omap logged calls_2 with
  | e :: _ => e
  | [] => Event.DonateSupply (mkDonateSupplyEvent [] [] [] 0)
  end.

(** Reports of the node: the calls of both instructions, or the code of the error. *)
Definition report_ok : ProcessedTx := mkProcessedTx
  (mkProcessed [[mkInner 1 []];
                [mkInner 0 (ix_data (log_instruction id (key_ex 8) event_2)); mkInner 1 []]]
     (fun i => if i =? 0 then Some id else Some (key_ex 9)))
  Processed [].

Definition report_err : ProcessedTx := mkProcessedTx
  (mkProcessed [] (fun _ => None)) (Failed "Program error: custom program error: 0x1b70 (OracleRateTooOld)") [].

Definition node_ex (p : ProcessedTx) : SdkNode := {|
  get_best_block_hash := Ok [1];
  send_transaction := fun _ => Ok [2];
  wait_for_processed_transaction := fun _ => Ok p |}.

Definition full_ex (p : ProcessedTx) : FullClient.AutaraFullClientWithSigner :=
  FullClient.new client_2 (node_ex p) tt (key_ex 21).

Lemma run_ok : exists o, run_at 1000 = Ok (Lending o) /\ calls o = calls_2.
Proof. vm_compute. eexists. split; reflexivity. Qed.

Lemma run_err : run_at 2000 = Err (Custom 7024).
Proof. vm_compute. reflexivity. Qed.

Lemma event_2_typed : event_typed event_2.
Proof. vm_compute. repeat split; try discriminate; repeat constructor; discriminate. Qed.

(** The last instruction of the transaction is the one that is run. *)
Lemma run_last ts pre i :
  ixs_2 = (pre ++ [i])%list ->
  process_instruction id (presented (store_of chain_2) (fun _ => 0) i) (ix_data i) ts = run_at ts.
Proof. intros E. unfold run_at. by rewrite E, rev_app_distr. Qed.

Lemma runs_ok : runs (node_ex report_ok) (store_of chain_2) (fun _ => 0) 1000 ixs_2.
Proof.
  split; [reflexivity |]. intros tx _. exists [2], report_ok. split_and!; [reflexivity.. |].
  intros pre i E. rewrite (run_last 1000 pre i E). destruct run_ok as (o & -> & Hc). cbn [reports].
  split; [reflexivity |]. exists [mkInner 1 []], 
    [mkInner 0 (ix_data (log_instruction id (key_ex 8) event_2)); mkInner 1 []].
  split; [reflexivity |]. split.
  - constructor; [| constructor]. exists (key_ex 9). split; [reflexivity | vm_compute; discriminate].
  - rewrite Hc. constructor; [| constructor; [| constructor]].
    + split; [reflexivity |]. split; [reflexivity |]. split; [reflexivity | apply event_2_typed].
    + exists (key_ex 9). split; [reflexivity | vm_compute; discriminate].
Qed.

Lemma runs_err : runs (node_ex report_err) (store_of chain_2) (fun _ => 0) 2000 ixs_2.
Proof.
  split; [reflexivity |]. intros tx _. exists [2], report_err. split_and!; [reflexivity.. |].
  intros pre i E. rewrite (run_last 2000 pre i E), run_err. cbn [reports].
  exists "Program error: "%string, " (OracleRateTooOld)"%string. split_and!; vm_compute; reflexivity.
Qed.

(** The handler on the accounts of the last instruction. *)
Definition handle_at (ts : Z) : Result LendingProgramErrorKind Outcome :=
  match rev ixs_2 with
  | i :: _ => autara_process_instruction id (present (store_of chain_2) <$> ix_accounts i)
                (Ix.DepositAplCollateral 700) ts
  | [] => Panic
  end.

Lemma handle_last ts pre i :
  ixs_2 = (pre ++ [i])%list ->
  autara_process_instruction id (present (store_of chain_2) <$> ix_accounts i)
    (Ix.DepositAplCollateral 700) ts = handle_at ts.
Proof. intros E. unfold handle_at. by rewrite E, rev_app_distr. Qed.

Lemma handle_ok : is_ok (handle_at 1000) = true.
Proof. vm_compute. reflexivity. Qed.

Lemma handle_err : handle_at 2000 = Err (KLendingError OracleRateTooOld).
Proof. vm_compute. reflexivity. Qed.

Lemma only_ixs_2 p ixs :
  build (RC := FullClient.read_client (full_ex p)) (FullClient.signer_pubkey (full_ex p)) ask_1
    = Ok ixs -> ixs = ixs_2.
Proof. intros E. pose proof (eq_trans (eq_sym built_2) E) as H. by injection H. Qed.

(** The call at both times. *)
Lemma told_witness :
  (exists e, perform (full_ex report_ok) ask_1 = Ok [e] /\
     event_tag e = EventTag.DepositCollateral) /\
  exists logs events, perform (full_ex report_err) ask_1
    = Err (AutaraTxError (KLendingError OracleRateTooOld) logs events).
Proof.
  split.
  - destruct (client_is_told_the_outcome (full_ex report_ok) (store_of chain_2) (fun _ => 0) 1000
      ask_1 (Ix.DepositAplCollateral 700) roles_2) as (pre & i & Hb & _ & H);
      [reflexivity | intros ixs ->%only_ixs_2; exact runs_ok
      | exact requested_2 | cbn; widths_lia | reflexivity | constructor |].
    apply only_ixs_2 in Hb. rewrite (handle_last 1000 pre i (eq_sym Hb)) in H.
    pose proof handle_ok as Hok. destruct (handle_at 1000) as [o | |]; [| discriminate Hok..].
    destruct H as [_ H]. destruct (H _ eq_refl) as (e & He & Ht & _). exists e.
    split; [exact He | exact Ht].
  - destruct (client_is_told_the_outcome (full_ex report_err) (store_of chain_2) (fun _ => 0) 2000
      ask_1 (Ix.DepositAplCollateral 700) roles_2) as (pre & i & Hb & _ & H);
      [reflexivity | intros ixs ->%only_ixs_2; exact runs_err
      | exact requested_2 | cbn; widths_lia | reflexivity | constructor |].
    apply only_ixs_2 in Hb. rewrite (handle_last 2000 pre i (eq_sym Hb)), handle_err in H. exact H.
Defined.
