(* ===== verification/PythPusher.v ===== *)
(** * The price pusher

    [autara-pyth]: prices are fetched from Pyth, outside of mainnet from DIA when Pyth fails, and
    pushed to the oracle program ([lib.rs]); the balance of the signer is watched
    ([explorer.rs], [slack_alerts.rs]) and the outcome of every turn is counted
    ([metrics.rs]).  The web services, the node and the clocks are parameters. *)
From Stdlib Require Import String Ascii.
From Stdlib Require Import SpecFloat.
From S2P Require Import Prelude.
From S2P Require Import Text.
From S2P Require Import Errors.
From S2P Require Import Monad.
From S2P Require Import Bytes.
From S2P Require Import Pda.
From S2P Require Import Oracle.
From S2P Require Import Accounts.
From S2P Require Import Events.
From S2P Require Import OracleProgram.
From S2P Require Import IxBuilders.
From S2P Require Import TxBuilder.
From S2P Require Import RpcExt.
From S2P Require Import FullClient.
#[local] Open Scope string_scope.
#[local] Open Scope Z_scope.

(** [bitcoin::Network] *)
Inductive BitcoinNetwork : Type := Bitcoin | Testnet | Testnet4 | Signet | Regtest.

#[global] Instance BitcoinNetwork_eq_dec : EqDecision BitcoinNetwork.
Proof. solve_decision. Defined.

Module Pusher.

Definition BTC_FEED : string := "0xe62df6c8b4a85fe1a67db44dc12de5db330f7ac66b72dc658afedf0f4a415b43".
Definition USDC_FEED : string := "0xeaa020c61cc479712813461ce153894a96a6c00b21ed0cfc2798d1f9a9e9c94a".
Definition ETH_FEED : string := "0xff61491a931112ddf1bd8147cd1b641375f79f5825126d665480874634fd0ace".
Definition DIA_FALLBACK_EXPO : Z := -8.
Definition DEFAULT_PUSH_INTERVAL_SECS : Z := 5.
Definition TESTNET_REFILL_THRESHOLD_LAMPORTS : Z := 100000.

Definition dia_fallback_allowed (network : BitcoinNetwork) : bool :=
  bool_decide (network <> Bitcoin).

Definition push_interval_from_env (var : option string) : Z :=
  default DEFAULT_PUSH_INTERVAL_SECS (var ≫= parse_u64).

(** ** Prices *)

Record PriceData : Type := mkPriceData { price : Z; conf : Z; expo : Z; publish_time : Z }.
Record ParsedPrice : Type := mkParsed {
  pr_id : string;
  pr_price : PriceData;
  pr_ema_price : PriceData;
  pr_metadata : Feed.Metadata }.
(** [Root], without the binary part, which nobody reads. *)
Definition Root : Type := list ParsedPrice.

(** The same as it is in the answer, numbers of 64 bits as text. *)
Record RawPriceData : Type := mkRawPriceData {
  raw_price : string; raw_conf : string; raw_expo : Z; raw_publish_time : Z }.
Record RawPrice : Type := mkRawPrice {
  raw_id : string;
  raw_data : RawPriceData;
  raw_ema : RawPriceData;
  raw_metadata : Feed.Metadata }.

Definition de_string_to_u64 (s : string) : AnyRes Z := found "invalid number" (parse_u64 s).

Definition de_price_data (r : RawPriceData) : AnyRes PriceData :=
  let? price := de_string_to_u64 (raw_price r) in
  let? conf := de_string_to_u64 (raw_conf r) in
  Ok (mkPriceData price conf (raw_expo r) (raw_publish_time r)).

Definition de_parsed_price (r : RawPrice) : AnyRes ParsedPrice :=
  let? price := de_price_data (raw_data r) in
  let? ema := de_price_data (raw_ema r) in
  Ok (mkParsed (raw_id r) price ema (raw_metadata r)).

(** [Into<autara_lib::oracle::pyth::PriceData>] *)
Definition into_price_data (d : PriceData) : PythPriceData :=
  mkPythPriceData (price d) (conf d) (expo d) (publish_time d).

(** [TryInto<PythPrice>] *)
Definition try_into (p : ParsedPrice) : AnyRes Feed.PythPrice :=
  let? id := found "invalid feed id" (hex_decode 32 (pr_id p)) in
  Ok (Feed.mkPythPrice id (into_price_data (pr_price p)) (into_price_data (pr_ema_price p))
        (pr_metadata p)).

(** ** Web services *)

(** Get requests, decoded; a double is a [spec_float]. *)
Record Web : Type := mkWeb {
  hermes : string -> AnyRes (list RawPrice);
  dia : string -> AnyRes spec_float }.

Definition PYTH_URL : string := "https://hermes.pyth.network/v2/updates/price/latest?".

Definition fetch_pyth_price (web : Web) (ids : list string) : AnyRes Root :=
  let ids := (fun id => "ids[]=" ++ id) <$> ids in
  let url := PYTH_URL ++ join "&" ids in
  let? parsed := hermes web url in
  res_list de_parsed_price parsed.

Definition dia_asset_for_feed (feed_id : string) : option (string * string) :=
  let feed_id := trim_start_matches "0x" feed_id in
  if eq_ignore_ascii_case feed_id (trim_start_matches "0x" BTC_FEED) then
    Some ("Bitcoin", "0x0000000000000000000000000000000000000000")
  else if eq_ignore_ascii_case feed_id (trim_start_matches "0x" USDC_FEED) then
    Some ("Ethereum", "0xA0b86991c6218b36c1d19D4a2e9Eb0cE3606eB48")
  else if eq_ignore_ascii_case feed_id (trim_start_matches "0x" ETH_FEED) then
    Some ("Ethereum", "0x0000000000000000000000000000000000000000")
  else None.

(** *** Doubles *)

Definition f64_of_Z (n : Z) : spec_float := binary_normalize 53 1024 n 0 false.
Definition f64_mul : spec_float -> spec_float -> spec_float := SFmul 53 1024.

Definition is_finite (x : spec_float) : bool :=
  match x with S754_zero _ | S754_finite _ _ _ => true | _ => false end.

(** [x.round() as u64]: half away from zero, and saturating. *)
Definition round_as_u64 (x : spec_float) : Z :=
  match x with
  | S754_zero _ | S754_nan => 0
  | S754_infinity s => if s then 0 else U64_MAX
  | S754_finite s m e =>
    let magnitude :=
      if 0 <=? e then Z.pos m * 2 ^ e else (Z.pos m + 2 ^ (- e - 1)) / 2 ^ (- e) in
    if s then 0 else Z.min magnitude U64_MAX
  end.

(** [10f64.powi(8)] is exact. *)
Definition scaled_dia_price (price : spec_float) : AnyRes Z :=
  if negb (is_finite price) || SFleb price (S754_zero false) then
    Err (Message "invalid DIA price")
  else
    let scaled := f64_mul price (f64_of_Z (10 ^ (- DIA_FALLBACK_EXPO))) in
    if SFltb (f64_of_Z U64_MAX) scaled then Err (Message "DIA price is too large")
    else Ok (round_as_u64 scaled).

Definition fetch_dia_price (web : Web) (now : Z) (feed_id : string) : AnyRes ParsedPrice :=
  let? (blockchain, asset) := found ("no DIA fallback mapping for feed " ++ feed_id)
                                (dia_asset_for_feed feed_id) in
  let url := "https://api.diadata.org/v1/assetQuotation/" ++ blockchain ++ "/" ++ asset in
  let? quotation := dia web url in
  let? price := scaled_dia_price quotation in
  let conf := price / 100 in
  let price_data := mkPriceData price conf DIA_FALLBACK_EXPO now in
  Ok (mkParsed (trim_start_matches "0x" feed_id) price_data price_data
        (Feed.mkMetadata 0 now now)).

Definition fetch_dia_prices (web : Web) (now : Z) (ids : list string) : AnyRes Root :=
  res_list (fetch_dia_price web now) ids.

(** ** Pushing *)

Section Push.
Context {PC : PdaCrate} {CH : Chain} {SDK : ArchSdk}.

Definition get_pyth_account (autara_oracle_program_id : Pubkey) (pyth_feed_id : list Z) : Pubkey :=
  fst (find_program_address [pyth_feed_id] autara_oracle_program_id).

Definition push_ix (autara_oracle_program_id signer_pubkey pyth_account : Pubkey)
  (oracle : Feed.PythPrice) : Instruction :=
  mkInstruction autara_oracle_program_id
    [ meta signer_pubkey true;
      meta pyth_account false;
      meta_ro SYSTEM_PROGRAM_ID false ]
    (price_bytes oracle).

(** [build_and_sign_transaction] and the requests of a push; [in_time] tells whether they are
    answered before [ORACLE_PUSH_TIMEOUT]. *)
Record PushNode : Type := mkPushNode {
  push_block_hash : Result ArchError (list Z);
  build_and_sign_transaction : ArchMessage -> list Keypair -> Result ArchError RuntimeTransaction;
  send_transactions : list RuntimeTransaction -> Result ArchError (list (list Z));
  wait_for_processed_transactions : list (list Z) -> Result ArchError (list ProcessedTx);
  in_time : bool }.

Definition is_processed (s : Status) : bool :=
  match s with Processed => true | _ => false end.

Definition build_and_send_tx (node : PushNode) (signer_pk : Pubkey) (signer : Keypair)
  (ixs : Transaction) : AnyRes () :=
  let? hash := from_arch (push_block_hash node) in
  let message := mkMessage ixs signer_pk hash in
  let? tx := from_arch (build_and_sign_transaction node message [signer]) in
  let? _ := found "no transaction ID" (head (rt_signatures tx)) in
  let? txids := from_arch (send_transactions node [tx]) in
  let? processed_txs := from_arch (wait_for_processed_transactions node txids) in
  let? result := found "no transactions processed" (head processed_txs) in
  if negb (is_processed (pt_status result)) then Err (Message "Transaction failed")
  else Ok tt.

Inductive PushOutcome : Type := Success | FetchFailure | PushFailure.

(** The prices of a turn. *)
Definition fetch (web : Web) (now : Z) (bitcoin_network : BitcoinNetwork) (feeds : list string)
  : AnyRes Root :=
  match fetch_pyth_price web feeds with
  | Err err =>
    if negb (dia_fallback_allowed bitcoin_network) then Err err
    else fetch_dia_prices web now feeds
  | r => r
  end.

Definition push_ixs (autara_oracle_program_id signer_pubkey : Pubkey) (parsed : Root)
  : AnyRes Transaction :=
  res_list (fun data =>
    let? oracle_account := try_into data in
    let pyth_account := get_pyth_account autara_oracle_program_id (Feed.id oracle_account) in
    Ok (push_ix autara_oracle_program_id signer_pubkey pyth_account oracle_account)) parsed.

Definition push_once (node : PushNode) (web : Web) (now : Z) (autara_oracle_program_id : Pubkey)
  (signer : Keypair) (signer_pubkey : Pubkey) (feeds : list string)
  (bitcoin_network : BitcoinNetwork) : Result () PushOutcome :=
  match fetch web now bitcoin_network feeds with
  | Panic => Panic
  | Err _ => Ok FetchFailure
  | Ok price_result =>
    match push_ixs autara_oracle_program_id signer_pubkey price_result with
    | Panic => Panic
    | Err _ => Ok FetchFailure
    | Ok ixs =>
      if in_time node then
        match build_and_send_tx node signer_pubkey signer ixs with
        | Ok _ => Ok Success
        | Err _ => Ok PushFailure
        | Panic => Panic
        end
      else Ok PushFailure
    end
  end.

(** [AutaraPythPusherClient::push_pyth_price] *)
Definition push_pyth_price (node : PushNode) (autara_oracle_program_id : Pubkey)
  (signer : Keypair) (pyth_feed_id : list Z) (oracle : Feed.PythPrice) : AnyRes () :=
  let key := x_only_public_key signer in
  let pyth_account := get_pyth_account autara_oracle_program_id pyth_feed_id in
  build_and_send_tx node key signer [push_ix autara_oracle_program_id key pyth_account oracle].

End Push.
End Pusher.

(** ** [explorer.rs] *)

Module Explorer.

(** The segment of the networks that the explorer indexes. *)
Definition from_env (network : BitcoinNetwork) : option string :=
  match network with
  | Bitcoin => Some "mainnet"
  | Testnet | Testnet4 => Some "testnet"
  | _ => None
  end.

(** [signer_balance], on the answer: no balance or zero is unknown. *)
Definition signer_balance (summary : AnyRes (option Z)) : AnyRes Z :=
  let? lamports_balance := summary in
  match lamports_balance with
  | Some lamports =>
    if 0 <? lamports then
      if lamports <? 2 ^ 64 then Ok lamports else Err (Message "invalid balance")
    else Err (Message "explorer reported no indexed balance")
  | None => Err (Message "explorer reported no indexed balance")
  end.

End Explorer.

(** ** [metrics.rs] *)

Module Metrics.

Definition HEALTH_MAX_STALE_SECS : Z := 90.

(** The gauges and the atomics behind them are set together. *)
Record PusherMetrics : Type := mkMetrics {
  pushes_succeeded : Z;
  pushes_failed : Z;
  fetch_failures : Z;
  consecutive_failures : Z;
  last_success_unix : Z;
  signer_balance_lamports : Z }.

Definition new : PusherMetrics := mkMetrics 0 0 0 0 0 0.

Definition record_success (now : Z) (m : PusherMetrics) : PusherMetrics :=
  mkMetrics (pushes_succeeded m + 1) (pushes_failed m) (fetch_failures m) 0 now
    (signer_balance_lamports m).

Definition record_push_failure (m : PusherMetrics) : PusherMetrics :=
  mkMetrics (pushes_succeeded m) (pushes_failed m + 1) (fetch_failures m)
    (consecutive_failures m + 1) (last_success_unix m) (signer_balance_lamports m).

Definition record_fetch_failure (m : PusherMetrics) : PusherMetrics :=
  mkMetrics (pushes_succeeded m) (pushes_failed m) (fetch_failures m + 1)
    (consecutive_failures m + 1) (last_success_unix m) (signer_balance_lamports m).

Definition set_signer_balance (lamports : Z) (m : PusherMetrics) : PusherMetrics :=
  mkMetrics (pushes_succeeded m) (pushes_failed m) (fetch_failures m) (consecutive_failures m)
    (last_success_unix m) (as_i64 lamports).

(** [health_status]: whether the answer is [OK]. *)
Definition health_status (now : Z) (m : PusherMetrics) : bool :=
  let last := last_success_unix m in
  if last <=? 0 then false
  else
    let age := as_u64 (Z.max I64_MIN (Z.min I64_MAX (now - last))) in
    age <=? HEALTH_MAX_STALE_SECS.

End Metrics.

(** ** [slack_alerts.rs] *)

Module Alerts.

Definition WARNING_BALANCE_LAMPORTS : Z := 172800000.
Definition CRITICAL_BALANCE_LAMPORTS : Z := 21600000.
Definition RETRY_INTERVAL : Z := 300.

Inductive BalanceLevel : Type := Healthy | Warning | Critical.

#[global] Instance BalanceLevel_eq_dec : EqDecision BalanceLevel.
Proof. solve_decision. Defined.

Definition balance_level (lamports : Z) : BalanceLevel :=
  if lamports <=? CRITICAL_BALANCE_LAMPORTS then Critical
  else if lamports <? WARNING_BALANCE_LAMPORTS then Warning
  else Healthy.

Record SlackBalanceAlerter : Type := mkAlerter {
  enabled : bool;
  last_notified : BalanceLevel;
  last_attempt : option Z }.

Definition new (enabled : bool) : SlackBalanceAlerter := mkAlerter enabled Healthy None.

Definition can_attempt (now : Z) (self : SlackBalanceAlerter) : bool :=
  match last_attempt self with
  | Some attempt => RETRY_INTERVAL <=? now - attempt
  | None => true
  end.

(** [observe]: the message that is sent, if one is, and whether it got through. *)
Definition observe (now : Z) (delivered : bool) (lamports : Z) (self : SlackBalanceAlerter)
  : option (BalanceLevel * bool) * SlackBalanceAlerter :=
  let level := balance_level lamports in
  if negb (enabled self) || bool_decide (level = last_notified self)
     || negb (can_attempt now self) then (None, self)
  else if delivered then (Some (level, true), mkAlerter (enabled self) level None)
  else (Some (level, false), mkAlerter (enabled self) (last_notified self) (Some now)).

End Alerts.

(** ** The loop *)

Module Loop.
Section Turn.
Context {PC : PdaCrate} {CH : Chain} {SDK : ArchSdk}.

(** What a turn meets: the services, the clocks and the answers about the balance. *)
Record Surroundings : Type := mkSurroundings {
  su_web : Pusher.Web;
  su_node : Pusher.PushNode;
  su_now : Z;
  su_summary : AnyRes (option Z);
  su_rpc_balance : Result ArchError Z;
  su_delivered : bool }.

Record PusherState : Type := mkPusherState {
  ps_metrics : Metrics.PusherMetrics;
  ps_alerter : Alerts.SlackBalanceAlerter }.

(** [refresh_signer_balance]: the balance, and whether an airdrop is requested. *)
Definition refresh_signer_balance (bitcoin_network : BitcoinNetwork) (s : Surroundings)
  : Z * bool :=
  let rpc := match su_rpc_balance s with Ok lamports => lamports | _ => 0 end in
  let lamports :=
    match Explorer.from_env bitcoin_network with
    | Some _ => match Explorer.signer_balance (su_summary s) with
                | Ok lamports => lamports
                | _ => rpc
                end
    | None => rpc
    end in
  (lamports, bool_decide (bitcoin_network <> Bitcoin)
             && (lamports <? Pusher.TESTNET_REFILL_THRESHOLD_LAMPORTS)).

(** A turn of [fetch_and_push_feeds]: the balance, the push, the count, and then the alert. *)
Definition turn (autara_oracle_program_id : Pubkey) (signer : Keypair) (feeds : list string)
  (bitcoin_network : BitcoinNetwork) (s : Surroundings) (st : PusherState)
  : Result () (Pusher.PushOutcome * PusherState) :=
  let signer_pubkey := x_only_public_key signer in
  let lamports := fst (refresh_signer_balance bitcoin_network s) in
  let metrics := Metrics.set_signer_balance lamports (ps_metrics st) in
  let? outcome := Pusher.push_once (su_node s) (su_web s) (su_now s) autara_oracle_program_id signer
                    signer_pubkey feeds bitcoin_network in
  let metrics := match outcome with
                 | Pusher.Success => Metrics.record_success (su_now s) metrics
                 | Pusher.FetchFailure => Metrics.record_fetch_failure metrics
                 | Pusher.PushFailure => Metrics.record_push_failure metrics
                 end in
  let '(_, alerter) := Alerts.observe (su_now s) (su_delivered s) lamports (ps_alerter st) in
  Ok (outcome, mkPusherState metrics alerter).

End Turn.
End Loop.
