(* ===== verification/PythPusherFacts.v ===== *)
(** * What is pushed is what was fetched

    A push that is reported as a success sent, for every price that was fetched, an instruction
    which leaves exactly this price in the feed that the markets load; on mainnet only prices of
    Pyth are pushed.  The watch over the balance alerts once per change of the level. *)
From Stdlib Require Import String Ascii.
From Stdlib Require Import SpecFloat.
From stdpp Require Import gmap.
From S2P Require Import Prelude.
From S2P Require Import Text.
From S2P Require Import Errors.
From S2P Require Import Monad.
From S2P Require Import FixedPoint.
From S2P Require Import Bytes.
From S2P Require Import Pda.
From S2P Require Import OracleRate.
From S2P Require Import Oracle.
From S2P Require Import ProgramErrors.
From S2P Require Import Accounts.
From S2P Require Import Events.
From S2P Require Import OracleProgram.
From S2P Require Import IxBuilders.
From S2P Require Import TxBuilder.
From S2P Require Import RpcExt.
From S2P Require Import FullClient.
From S2P Require Import PythPusher.
From S2P Require Import FixedFacts.
From S2P Require Import EventCodec.
From S2P Require Import FullClientFacts.
#[local] Open Scope string_scope.
#[local] Open Scope Z_scope.

(** ** Texts *)

Lemma hex_value_range c d : hex_value c = Some d -> 0 <= d < 16.
Proof. unfold hex_value. repeat case_match; intros [= <-]; bool_prop; lia. Qed.

Lemma hex_decode_ok n : forall s l, hex_decode n s = Some l -> length l = n /\ Forall is_byte l.
Proof.
  induction n as [| n IH]; intros s l H; cbn in H.
  - destruct s; [| done]. injection H as <-. split; [done | constructor].
  - destruct s as [| a [| b s]]; [done.. |]. destruct (hex_value a) as [x |] eqn:Ea; [| done].
    destruct (hex_value b) as [y |] eqn:Eb; [| done]. destruct (hex_decode n s) as [l' |] eqn:El; [| done].
    injection H as <-. apply hex_value_range in Ea, Eb. destruct (IH _ _ El). split; [cbn; lia |].
    constructor; [unfold is_byte; lia | done].
Qed.

Lemma uint_of_digits_range bound s : forall acc n,
  0 <= acc < bound -> uint_of_digits bound acc s = Some n -> 0 <= n < bound.
Proof.
  induction s as [| c s IH]; intros acc n Ha H; cbn [uint_of_digits] in H; [congruence |].
  destruct (dec_value c) as [d |] eqn:Ed; [| done].
  assert (0 <= d) by (unfold dec_value in Ed; repeat case_match; bool_prop; simplify_eq; lia).
  destruct (Z.ltb_spec (10 * acc + d) bound); [| done]. by eapply IH; [| exact H]; lia.
Qed.

Lemma parse_uint_range bound s n : 0 < bound -> parse_uint bound s = Some n -> 0 <= n < bound.
Proof.
  unfold parse_uint. intros Hb H.
  assert (exists t, uint_of_digits bound 0 t = Some n) as [t Ht] by (repeat case_match; eauto; done).
  apply uint_of_digits_range in Ht; lia.
Qed.

Lemma parse_u64_range s n : parse_u64 s = Some n -> is_u64 n.
Proof. intros H%parse_uint_range; widths_lia. Qed.

Lemma res_list_Forall2 {E A B} (f : A -> Result E B) l : forall r,
  res_list f l = Ok r -> Forall2 (fun x y => f x = Ok y) l r.
Proof.
  induction l as [| x l IH]; intros r H; cbn in H; [injection H as <-; constructor |].
  destruct (f x) as [y | |] eqn:Ef; [| done..]. cbn in H.
  destruct (res_list f l) as [ys | |]; [| done..]. injection H as <-. constructor; auto.
Qed.

Lemma res_list_all {E A B} (f : A -> Result E B) (P : A -> Prop) (Q : B -> Prop) l r :
  (forall x y, P x -> f x = Ok y -> Q y) -> Forall P l -> res_list f l = Ok r -> Forall Q r.
Proof.
  intros Hf Hl H. apply res_list_Forall2 in H. induction H; [constructor |].
  apply Forall_cons_iff in Hl as [? ?]. constructor; eauto.
Qed.

Lemma from_arch_ok {A} (r : Result ArchError A) a : from_arch r = Ok a -> r = Ok a.
Proof. unfold from_arch. destruct r; cbn; congruence. Qed.

(** ** Typed prices *)

Definition metadata_ok (m : Feed.Metadata) : Prop :=
  is_u64 (Feed.slot m) /\ is_i64 (Feed.proof_available_time m) /\
  is_i64 (Feed.prev_publish_time m).

Definition is_i32 (x : Z) : Prop := - 2 ^ 31 <= x < 2 ^ 31.

Record data_typed (d : Pusher.PriceData) : Prop := {
  dt_price : is_u64 (Pusher.price d);
  dt_conf : is_u64 (Pusher.conf d);
  dt_expo : is_i32 (Pusher.expo d);
  dt_time : is_i64 (Pusher.publish_time d) }.

Record parsed_typed (p : Pusher.ParsedPrice) : Prop := {
  pt_price : data_typed (Pusher.pr_price p);
  pt_ema : data_typed (Pusher.pr_ema_price p);
  pt_metadata : metadata_ok (Pusher.pr_metadata p) }.

(** What is decoded of an answer has the types of its fields. *)
Definition raw_data_typed (r : Pusher.RawPriceData) : Prop :=
  is_i32 (Pusher.raw_expo r) /\ is_i64 (Pusher.raw_publish_time r).
Definition raw_typed (r : Pusher.RawPrice) : Prop :=
  raw_data_typed (Pusher.raw_data r) /\ raw_data_typed (Pusher.raw_ema r) /\
  metadata_ok (Pusher.raw_metadata r).
Definition web_typed (web : Pusher.Web) : Prop :=
  forall url l, Pusher.hermes web url = Ok l -> Forall raw_typed l.

Lemma de_price_data_typed r d :
  raw_data_typed r -> Pusher.de_price_data r = Ok d -> data_typed d.
Proof.
  unfold Pusher.de_price_data, Pusher.de_string_to_u64, found. intros [He Ht] H. run_inv.
  constructor; cbn; try done; by eapply parse_u64_range.
Qed.

Lemma de_parsed_price_typed r p : raw_typed r -> Pusher.de_parsed_price r = Ok p -> parsed_typed p.
Proof.
  unfold Pusher.de_parsed_price. intros (Hd & He & Hm) H. run_inv.
  constructor; cbn; [by apply (de_price_data_typed _ _ Hd) | by apply (de_price_data_typed _ _ He) | done].
Qed.

Lemma round_as_u64_range x : is_u64 (Pusher.round_as_u64 x).
Proof.
  unfold Pusher.round_as_u64. destruct x as [s | s | | s m e]; try destruct s; try widths_lia.
  assert (0 <= if 0 <=? e then Z.pos m * 2 ^ e else (Z.pos m + 2 ^ (- e - 1)) / 2 ^ (- e)).
  { destruct (0 <=? e).
    - apply Z.mul_nonneg_nonneg; [lia |]. apply Z.pow_nonneg. lia.
    - pose proof (Z.pow_nonneg 2 (- e - 1) ltac:(lia)) as Hp.
      destruct (Z.le_gt_cases 0 (- e)) as [He | He].
      + apply Z.div_pos; [lia |]. apply Z.pow_pos_nonneg; lia.
      + rewrite (Z.pow_neg_r 2 (- e)), Zdiv_0_r by lia. lia. }
  widths_lia.
Qed.

Lemma fetch_dia_price_typed web now id p :
  is_i64 now -> Pusher.fetch_dia_price web now id = Ok p -> parsed_typed p.
Proof.
  unfold Pusher.fetch_dia_price, found. intros Hn H. run_inv. destruct x as [b a]. run_inv.
  assert (Hp : is_u64 x0).
  { unfold Pusher.scaled_dia_price in *. repeat case_match; simplify_eq. apply round_as_u64_range. }
  assert (data_typed (Pusher.mkPriceData x0 (x0 / 100) Pusher.DIA_FALLBACK_EXPO now)).
  { constructor; cbn; [done | | unfold is_i32, Pusher.DIA_FALLBACK_EXPO; lia | done].
    pose proof (Z.div_le_upper_bound x0 100 x0). pose proof (Z.div_pos x0 100). widths_lia. }
  constructor; cbn; [done.. |]. unfold metadata_ok. cbn. split_and!; widths_lia.
Qed.

Lemma fetched_typed web now net feeds root :
  web_typed web -> is_i64 now -> Pusher.fetch web now net feeds = Ok root ->
  Forall parsed_typed root.
Proof.
  intros Hw Hn H. unfold Pusher.fetch in H.
  destruct (Pusher.fetch_pyth_price web feeds) as [r | e |] eqn:E; [| | done].
  - injection H as <-. unfold Pusher.fetch_pyth_price in E. run_inv.
    eapply res_list_all; [exact de_parsed_price_typed | by eapply Hw | done].
  - destruct (Pusher.dia_fallback_allowed net); [| done]. cbn in H.
    unfold Pusher.fetch_dia_prices in H.
    eapply (res_list_all _ (fun _ => True)); [| by apply list.Forall_true | exact H].
    intros id p _. by apply fetch_dia_price_typed.
Qed.

(** Where the prices come from: on mainnet from Pyth alone. *)
Lemma fetch_source web now net feeds root :
  Pusher.fetch web now net feeds = Ok root ->
  Pusher.fetch_pyth_price web feeds = Ok root \/
  net <> Bitcoin /\ (exists e, Pusher.fetch_pyth_price web feeds = Err e) /\
  Pusher.fetch_dia_prices web now feeds = Ok root.
Proof.
  unfold Pusher.fetch. intros H. destruct (Pusher.fetch_pyth_price web feeds) as [r | e |]; [auto | | done].
  right. unfold Pusher.dia_fallback_allowed in H. case_bool_decide; [| done]. eauto.
Qed.

Lemma try_into_ok p o :
  parsed_typed p -> Pusher.try_into p = Ok o ->
  hex_decode 32 (Pusher.pr_id p) = Some (Feed.id o) /\
  Feed.price o = Pusher.into_price_data (Pusher.pr_price p) /\
  price_ok o /\ Forall is_byte (price_bytes o).
Proof.
  intros [Hp He (Hs & Ht & Hv)] H. unfold Pusher.try_into, found in H. run_inv.
  destruct (hex_decode_ok _ _ _ H) as [Hl Hb]. split_and!; [done | done | |].
  - destruct Hp as [? ? Hx ?], He as [? ? Hy ?]. unfold is_i32 in *.
    do 2 (constructor; cbn; try done); widths_lia.
  - unfold price_bytes, price_data_bytes, metadata_bytes.
    cbn [Feed.id Feed.price Feed.ema_price Feed.metadata].
    repeat (apply Forall_app; split); try done; apply le_bytes_are_bytes.
Qed.

Section Push.
Context {FX : FixedCrate} {PC : PdaCrate} {CH : Chain} {BC : OracleBuild} {SDK : ArchSdk}.

(** The instruction [ix] pushes the price [p]: it is for the oracle program, names the feed of
    the price, needs the signature of the pusher, and a market that loads the feed after it
    gets this price at the time of the chain. *)
Definition pushes (pid signer : Pubkey) (p : Pusher.ParsedPrice) (ix : Instruction) : Prop :=
  exists feed, hex_decode 32 (Pusher.pr_id p) = Some feed /\ ix_program_id ix = pid /\
  ix_accounts ix = [meta signer true; meta (Pusher.get_pyth_account pid feed) false;
                    meta_ro SYSTEM_PROGRAM_ID false] /\
  forall SY (SL : SystemLaws SY) Sg F accounts lamports ts a,
    @process_instruction PC CH SY pid accounts lamports (ix_data ix) ts = Ok a ->
    Forall (feed_shown pid F Sg) accounts -> is_i64 ts ->
    - MAX_EXPONENT_ABS <= Pusher.expo (Pusher.pr_price p) <= MAX_EXPONENT_ABS ->
    pyth_load_oracle_price (mkPyth feed pid)
      (mkAccountView (ai_key a) (ai_data a) (ai_owner a))
    = res_map (fun r => mkUnchecked r ts)
        (try_from_price_expo_conf (Pusher.price (Pusher.pr_price p))
           (Pusher.conf (Pusher.pr_price p)) (as_i8 (Pusher.expo (Pusher.pr_price p)))).

Lemma push_ix_pushes pid signer p o :
  parsed_typed p -> Pusher.try_into p = Ok o ->
  pushes pid signer p (Pusher.push_ix pid signer (Pusher.get_pyth_account pid (Feed.id o)) o).
Proof.
  intros Ht H. destruct (try_into_ok p o Ht H) as (Hid & Hp & Hok & Hb).
  exists (Feed.id o). split_and!; try done. intros SY SL Sg F accounts lamports ts a Ha Hs Hts Hx.
  pose proof (push_loaded SY SL pid Sg F accounts lamports (price_bytes o) ts a Ha Hs Hb Hts) as Hl.
  rewrite price_roundtrip, Hp in Hl by done. by apply Hl.
Qed.

Lemma push_ixs_push pid signer root ixs :
  Forall parsed_typed root -> Pusher.push_ixs pid signer root = Ok ixs ->
  Forall2 (pushes pid signer) root ixs.
Proof.
  intros Ht H. apply res_list_Forall2 in H. induction H as [| p ix root ixs Hp _ IH]; [constructor |].
  apply Forall_cons_iff in Ht as [Hp' Ht]. destruct (Pusher.try_into p) as [o | |] eqn:Eo;
    [| done..]. injection Hp as <-. constructor; [by apply push_ix_pushes | auto].
Qed.

(** The node was given this transaction, and reports it as processed. *)
Definition processed (node : Pusher.PushNode) (signer : Keypair) (m : ArchMessage) : Prop :=
  exists tx txids p rest, Pusher.build_and_sign_transaction node m [signer] = Ok tx /\
    Pusher.send_transactions node [tx] = Ok txids /\
    Pusher.wait_for_processed_transactions node txids = Ok (p :: rest) /\
    pt_status p = Processed.

Lemma build_and_send_tx_ok node spk signer ixs :
  Pusher.build_and_send_tx node spk signer ixs = Ok tt ->
  exists hash, processed node signer (mkMessage ixs spk hash).
Proof.
  unfold Pusher.build_and_send_tx, found. intros H. run_inv.
  repeat match goal with Hx : from_arch _ = Ok _ |- _ => apply from_arch_ok in Hx end.
  match goal with Hx : head ?l = Some ?p, Hw : Pusher.wait_for_processed_transactions _ _ = Ok ?l
    |- _ => destruct l as [| q rest]; [discriminate Hx |]; injection Hx as -> end.
  eexists _, _, _, _, _. split_and!; [eassumption.. |].
  match goal with Hs : (if _ then _ else _) = Ok tt |- _ =>
    destruct (pt_status _); cbn in Hs; (done || discriminate Hs) end.
Qed.

(** C27: What is pushed is what was fetched.  When a turn of the pusher reports success, the prices
    were answered by Pyth, or, never on mainnet, by DIA after Pyth had failed; one transaction was
    signed, sent and processed, with one instruction for each price, and a market that loads the
    feed of the price after its instruction gets exactly the price and the confidence that were
    fetched, at the time of the chain. *)
Theorem pushed_prices_are_the_fetched_ones node web now pid signer spk feeds net :
  web_typed web -> is_i64 now ->
  Pusher.push_once node web now pid signer spk feeds net = Ok Pusher.Success ->
  exists root ixs hash,
    (Pusher.fetch_pyth_price web feeds = Ok root \/
     net <> Bitcoin /\ (exists e, Pusher.fetch_pyth_price web feeds = Err e) /\
     Pusher.fetch_dia_prices web now feeds = Ok root) /\
    processed node signer (mkMessage ixs spk hash) /\
    Forall2 (pushes pid spk) root ixs.
Proof.
  intros Hw Hn H. unfold Pusher.push_once in H.
  destruct (Pusher.fetch web now net feeds) as [root | |] eqn:Ef; [| done..].
  destruct (Pusher.push_ixs pid spk root) as [ixs | |] eqn:Ei; [| done..].
  destruct (Pusher.in_time node); [| done].
  destruct (Pusher.build_and_send_tx node spk signer ixs) as [[] | |] eqn:Eb; [| done..].
  apply build_and_send_tx_ok in Eb as [hash Hp]. exists root, ixs, hash. split_and!; [| done |].
  - by eapply fetch_source.
  - apply push_ixs_push; [by eapply fetched_typed | done].
Qed.

End Push.

(** ** Alerts *)

(** Observations of the balance, one after the other: time, whether a message would get through,
    and the balance; and the messages that were sent. *)
Fixpoint watch (obs : list (Z * bool * Z)) (a : Alerts.SlackBalanceAlerter)
  : list (Z * Alerts.BalanceLevel * bool) * Alerts.SlackBalanceAlerter :=
  match obs with
  | [] => ([], a)
  | (now, delivered, lamports) :: obs =>
    let '(sent, a) := Alerts.observe now delivered lamports a in
    let '(rest, a) := watch obs a in
    (match sent with Some (level, ok) => (now, level, ok) :: rest | None => rest end, a)
  end.

(** A sequence of messages: each is about another level than the last one that got through, and
    after one that did not the next comes no sooner than the retry interval. *)
Inductive follows (last : Alerts.BalanceLevel) (failed : option Z)
  : list (Z * Alerts.BalanceLevel * bool) -> Prop :=
| follows_nil : follows last failed []
| follows_delivered now level rest :
    level <> last -> (forall t, failed = Some t -> Alerts.RETRY_INTERVAL <= now - t) ->
    follows level None rest -> follows last failed ((now, level, true) :: rest)
| follows_lost now level rest :
    level <> last -> (forall t, failed = Some t -> Alerts.RETRY_INTERVAL <= now - t) ->
    follows last (Some now) rest -> follows last failed ((now, level, false) :: rest).

Lemma observe_cases now delivered lamports a :
  Alerts.observe now delivered lamports a = (None, a) \/
  Alerts.balance_level lamports <> Alerts.last_notified a /\
  (forall t, Alerts.last_attempt a = Some t -> Alerts.RETRY_INTERVAL <= now - t) /\
  Alerts.observe now delivered lamports a
  = (Some (Alerts.balance_level lamports, delivered),
     if delivered
     then Alerts.mkAlerter (Alerts.enabled a) (Alerts.balance_level lamports) None
     else Alerts.mkAlerter (Alerts.enabled a) (Alerts.last_notified a) (Some now)).
Proof.
  unfold Alerts.observe, Alerts.can_attempt. destruct (Alerts.enabled a); [| by left].
  case_bool_decide; [by left |]. cbn [negb orb].
  destruct (Alerts.last_attempt a) as [t |].
  - destruct (Z.leb_spec Alerts.RETRY_INTERVAL (now - t)); [| by left]. right.
    split_and!; [done | congruence | by destruct delivered].
  - right. split_and!; [done.. | by destruct delivered].
Qed.

(** Alerts follow the balance: a level is announced once, a message that is lost is sent again
    only after the retry interval, and while the messages get through the last level that was
    announced is the present one. *)
Theorem alerts_follow_the_balance obs a :
  follows (Alerts.last_notified a) (Alerts.last_attempt a) (fst (watch obs a)) /\
  (Alerts.enabled a = true -> Alerts.last_attempt a = None ->
   Forall (fun o => snd (fst o) = true) obs ->
   Alerts.last_notified (snd (watch obs a))
   = match rev obs with o :: _ => Alerts.balance_level (snd o) | [] => Alerts.last_notified a end).
Proof.
  split.
  - revert a. induction obs as [| [[now delivered] lamports] obs IH]; intros a; [constructor |].
    cbn. destruct (observe_cases now delivered lamports a) as [-> | (Hl & Ht & ->)].
    + specialize (IH a). by destruct (watch obs a).
    + destruct delivered; match goal with |- context [watch obs ?b] => specialize (IH b);
        destruct (watch obs b); by constructor end.
  - revert a. induction obs as [| [[now delivered] lamports] obs IH]; intros a He Hn Hd; [done |].
    apply Forall_cons_iff in Hd as [Hdel Hd]. cbn in Hdel. subst delivered.
    assert (Hlast : forall o, match (rev obs ++ [o])%list with
      | x :: _ => Alerts.balance_level (snd x) | [] => Alerts.last_notified a end
      = match rev obs with x :: _ => Alerts.balance_level (snd x)
        | [] => Alerts.balance_level (snd o) end) by (intros o; by destruct (rev obs)).
    cbn [rev watch]. rewrite Hlast. cbn [snd].
    assert (Ho : Alerts.last_notified (snd (Alerts.observe now true lamports a))
                 = Alerts.balance_level lamports /\
      Alerts.enabled (snd (Alerts.observe now true lamports a)) = true /\
      Alerts.last_attempt (snd (Alerts.observe now true lamports a)) = None).
    { unfold Alerts.observe, Alerts.can_attempt. rewrite He, Hn. cbn.
      case_bool_decide; cbn; by rewrite ?He, ?Hn. }
    destruct (Alerts.observe now true lamports a) as [sent b]. cbn in Ho.
    destruct Ho as (Hb & Heb & Hnb). specialize (IH b Heb Hnb Hd).
    destruct (watch obs b) as [rest c]. cbn in *. rewrite IH, Hb. done.
Qed.

(** ** Health *)

Section Health.
Context {PC : PdaCrate} {CH : Chain} {SDK : ArchSdk}.
Context (pid : Pubkey) (signer : Keypair) (feeds : list string) (net : BitcoinNetwork).

(** The turns of the loop, and the time of the last one that succeeded. *)
Fixpoint turns (ss : list Loop.Surroundings) (st : Loop.PusherState) (last : option Z)
  : Result () (option Z * Loop.PusherState) :=
  match ss with
  | [] => Ok (last, st)
  | s :: ss =>
    let? (outcome, st) := Loop.turn pid signer feeds net s st in
    turns ss st (match outcome with Pusher.Success => Some (Loop.su_now s) | _ => last end)
  end.

Definition tracks (last : option Z) (st : Loop.PusherState) : Prop :=
  match last with
  | Some t => Metrics.last_success_unix (Loop.ps_metrics st) = t
  | None => Metrics.last_success_unix (Loop.ps_metrics st) = 0
  end.

Lemma turns_track ss : forall st last last' st',
  tracks last st -> turns ss st last = Ok (last', st') -> tracks last' st'.
Proof.
  induction ss as [| s ss IH]; intros st last last' st' Ht H; cbn in H; [by injection H as <- <- |].
  destruct (Loop.turn pid signer feeds net s st) as [[o st1] | |] eqn:E; [| done..]. cbn in H.
  eapply IH; [| exact H]. unfold Loop.turn in E. run_inv.
  destruct (Alerts.observe _ _ _ _). run_inv.
  match goal with |- context [match ?x with Pusher.Success => _ | _ => _ end] => by destruct x, last end.
Qed.

(** The health check answers [OK] exactly when the last successful turn is not older than the
    limit, and lies neither before the epoch nor in the future. *)
Theorem healthy_means_recent_push ss a last st now :
  turns ss (Loop.mkPusherState Metrics.new a) None = Ok (last, st) -> is_i64 now ->
  (forall t, last = Some t -> is_i64 t) ->
  Metrics.health_status now (Loop.ps_metrics st) = true <->
  exists t, last = Some t /\ 0 < t <= now /\ now - t <= Metrics.HEALTH_MAX_STALE_SECS.
Proof.
  intros H Hn Hl. apply turns_track in H; [| done]. unfold Metrics.health_status.
  destruct last as [t |]; cbn in H; rewrite H; [| split; [done | by intros (t & ? & _)]].
  specialize (Hl t eq_refl). destruct (Z.leb_spec t 0); [split; [done | naive_solver lia] |].
  rewrite Z.leb_le. unfold Metrics.HEALTH_MAX_STALE_SECS, as_u64.
  destruct (Z.le_gt_cases t now) as [Ht | Ht].
  - rewrite Z.min_r, Z.max_r, Z.mod_small by widths_lia. split; [eauto with lia |].
    intros (? & [= <-] & ? & ?). lia.
  - assert (Hv : Z.max I64_MIN (Z.min I64_MAX (now - t)) mod 2 ^ 64
             = Z.max I64_MIN (Z.min I64_MAX (now - t)) + 2 ^ 64).
    { rewrite <- (Z.mod_add _ 1), Z.mod_small by widths_lia. lia. }
    rewrite Hv. split; [widths_lia | intros (? & [= <-] & ? & ?); lia].
Qed.

End Health.

(** * A push to try the pusher on

    Pyth answers with the price of a feed, which the pusher writes on mainnet; and the fallback
    prices of DIA. *)
#[local] Open Scope string_scope.
#[local] Open Scope Z_scope.

#[local] Existing Instances fixed_ref feed_chain_ex pda_ex borsh_ex sdk_ex.

Definition feed_hex : string := "0707070707070707070707070707070707070707070707070707070707070707".

Definition raw_ex : Pusher.RawPriceData := Pusher.mkRawPriceData "200" "5" (-8) 17.
Definition web_ex : Pusher.Web := {|
  Pusher.hermes := fun _ => Ok [Pusher.mkRawPrice feed_hex raw_ex raw_ex (Feed.mkMetadata 1 2 3)];
  Pusher.dia := fun _ => Err (Message "unavailable") |}.

Lemma web_ex_typed : web_typed web_ex.
Proof.
  intros url l [= <-]. constructor; [| constructor].
  repeat split; vm_compute; congruence.
Qed.

Definition push_node_ex : Pusher.PushNode := {|
  Pusher.push_block_hash := Ok [1];
  Pusher.build_and_sign_transaction := fun m _ => Ok (mkRuntimeTx [[3]] m);
  Pusher.send_transactions := fun _ => Ok [[2]];
  Pusher.wait_for_processed_transactions := fun _ =>
    Ok [mkProcessedTx (mkProcessed [] (fun _ => None)) Processed []];
  Pusher.in_time := true |}.

Lemma push_once_ex :
  Pusher.push_once push_node_ex web_ex 100 (replicate 32 9) (replicate 32 1) (replicate 32 1)
    [feed_hex] Bitcoin = Ok Pusher.Success.
Proof. vm_compute. reflexivity. Qed.

(** The price that Pyth answered is in the one instruction that was processed. *)
Lemma pushed_witness :
  exists p ix hash, Pusher.fetch_pyth_price web_ex [feed_hex] = Ok [p] /\
    Pusher.price (Pusher.pr_price p) = 200 /\
    processed push_node_ex (replicate 32 1) (mkMessage [ix] (replicate 32 1) hash) /\
    pushes (replicate 32 9) (replicate 32 1) p ix.
Proof.
  destruct (pushed_prices_are_the_fetched_ones push_node_ex web_ex 100 (replicate 32 9)
    (replicate 32 1) (replicate 32 1) [feed_hex] Bitcoin) as (root & ixs & hash & Hs & Hd & Hp);
    [exact web_ex_typed | vm_compute; split; congruence | exact push_once_ex |].
  destruct Hs as [Hf | [Hne _]]; [| destruct (Hne eq_refl)].
  assert (Hr : exists p, Pusher.fetch_pyth_price web_ex [feed_hex] = Ok [p] /\
    Pusher.price (Pusher.pr_price p) = 200) by (vm_compute; eexists; split; reflexivity).
  destruct Hr as (p & Ep & Hv). assert (root = [p]) as -> by congruence.
  destruct ixs as [| ix [| ix' ixs]]; inversion Hp as [| ? ? ? ? Hix Hrest]; subst;
    [| inversion Hrest].
  exists p, ix, hash. split; [exact Ep |]. split; [exact Hv |]. split; [exact Hd | exact Hix].
Defined.

(** A price of DIA, scaled: 65000.5 is 65000.5 * 10^8; half of the last digit is rounded up. *)
Example dia_ex : Pusher.scaled_dia_price (SFdiv 53 1024 (Pusher.f64_of_Z 130001) (Pusher.f64_of_Z 2))
  = Ok 6500050000000.
Proof. vm_compute. reflexivity. Qed.
