(* ===== verification/Metrics.v ===== *)
(** * Metrics

    [autara-lib/src/metrics.rs]: what a market and its positions amount to, in doubles; and
    [autara-client/src/prometheus]: the gauges that the indexer fills from the shared cache. *)
From Stdlib Require Import String SpecFloat.
From stdpp Require Import gmap strings pretty.
From S2P Require Import Prelude.
From S2P Require Import Errors.
From S2P Require Import Monad.
From S2P Require Import FixedPoint.
From S2P Require Import SharesTracker.
From S2P Require Import InterestRatePerSecond.
From S2P Require Import Pda.
From S2P Require Import OracleRate.
From S2P Require Import Oracle.
From S2P Require Import GlobalConfig.
From S2P Require Import MarketConfig.
From S2P Require Import SupplyPosition.
From S2P Require Import BorrowPosition.
From S2P Require Import CollateralVault.
From S2P Require Import SupplyVault.
From S2P Require Import Market.
From S2P Require Import MarketWrapper.
From S2P Require Import RpcExt.
From S2P Require Import ReadClient.
From S2P Require Import PythPusher.
From S2P Require Import FixedFacts.
From S2P Require Import Accounts.
From S2P Require Import Creation.
From S2P Require Import LedgerExample.
From S2P Require Import ClientExample.
#[local] Open Scope Z_scope.

(** What is not of this repository: [10f64.powi(_)] and [exp], whose precision Rust leaves open,
    the conversion of the crate [fixed] to a double, and how a key prints. *)
Class FloatLib : Type := {
  ten_powi : Z -> spec_float;
  f64_exp : spec_float -> spec_float;
  fx_to_f64 : fixed_format -> Z -> spec_float;
  fx_checked_to_f64 : fixed_format -> Z -> option spec_float;
  key_text : Pubkey -> string }.

Definition f64_div : spec_float -> spec_float -> spec_float := SFdiv 53 1024.
Definition f64_sub : spec_float -> spec_float -> spec_float := SFsub 53 1024.

(** ** [metrics.rs] *)

Record LiquiditySummary : Type := mkLiquidity {
  ls_supply_mint : string; ls_collateral_mint : string;
  ls_supply : spec_float; ls_borrow : spec_float; ls_collateral : spec_float;
  ls_supply_usd : spec_float; ls_borrow_usd : spec_float; ls_collateral_usd : spec_float }.

Record BorrowPositionSummary : Type := mkBorrowSummary {
  bs_user : string; bs_supply_mint : string; bs_collateral_mint : string;
  bs_borrow : spec_float; bs_borrow_usd : spec_float;
  bs_collateral : spec_float; bs_collateral_usd : spec_float; bs_ltv : spec_float }.

Record SupplyPositionSummary : Type := mkSupplySummary {
  ss_user : string; ss_supply_mint : string;
  ss_supply : spec_float; ss_supply_usd : spec_float }.

Section Summaries.
Context {FX : FixedCrate} {FL : FloatLib}.

(** [to_float] *)
Definition to_float (x : IFixedPoint) : spec_float := fx_to_f64 I80F48 (i_bits x).

(** [atoms as f64 / 10f64.powi(decimals as i32)] *)
Definition ui_amount (atoms decimals : Z) : spec_float :=
  f64_div (Pusher.f64_of_Z atoms) (ten_powi decimals).

Definition liquidity_summary (self : MarketWrapper) : Res LiquiditySummary :=
  let m := MarketWrapper.market self in
  let? supply_vault_summary := get_summary (supply_vault m) in
  let supply_decimals := SupplyVault.mint_decimals (supply_vault m) in
  let supply := ui_amount (summary_total_supply supply_vault_summary) supply_decimals in
  let borrow := ui_amount (summary_total_borrow supply_vault_summary) supply_decimals in
  let collateral := ui_amount (total_collateral_atoms (collateral_vault m))
                      (CollateralVault.mint_decimals (collateral_vault m)) in
  let supply_price := to_float (OracleRate.rate (supply_oracle self)) in
  Ok (mkLiquidity (key_text (SupplyVault.mint (supply_vault m)))
        (key_text (CollateralVault.mint (collateral_vault m)))
        supply borrow collateral
        (Pusher.f64_mul supply supply_price) (Pusher.f64_mul borrow supply_price)
        (Pusher.f64_mul collateral (to_float (OracleRate.rate (collateral_oracle self))))).

Definition supply_position_summary (self : MarketWrapper) (position : SupplyPosition)
  : Res SupplyPositionSummary :=
  let m := MarketWrapper.market self in
  let? total_supply := supply_position_info m position in
  let supply := ui_amount total_supply (SupplyVault.mint_decimals (supply_vault m)) in
  Ok (mkSupplySummary (key_text (SupplyPosition.authority position))
        (key_text (SupplyVault.mint (supply_vault m))) supply
        (Pusher.f64_mul supply (to_float (OracleRate.rate (supply_oracle self))))).

Definition borrow_position_summary (self : MarketWrapper) (position : BorrowPosition)
  : Res BorrowPositionSummary :=
  let m := MarketWrapper.market self in
  let? health := MarketWrapper.borrow_position_health self position in
  let borrow := ui_amount (borrowed_atoms health) (SupplyVault.mint_decimals (supply_vault m)) in
  let collateral := ui_amount (collateral_deposited_atoms position)
                      (CollateralVault.mint_decimals (collateral_vault m)) in
  Ok (mkBorrowSummary (key_text (BorrowPosition.authority position))
        (key_text (SupplyVault.mint (supply_vault m)))
        (key_text (CollateralVault.mint (collateral_vault m)))
        borrow (Pusher.f64_mul borrow (to_float (OracleRate.rate (supply_oracle self))))
        collateral (Pusher.f64_mul collateral (to_float (OracleRate.rate (collateral_oracle self))))
        (to_float (ltv health))).

(** [InterestRatePerSecond::approximate_apy] *)
Definition approximate_apy (self : InterestRatePerSecond) : Res spec_float :=
  let? rate := safe_mul (per_second self) SECONDS_PER_YEAR in
  let? x := ok_or CastOverflow (fx_checked_to_f64 I80F48 (i_bits rate)) in
  Ok (f64_sub (f64_exp x) (Pusher.f64_of_Z 1)).

End Summaries.

(** ** [prometheus] *)

Inductive LiquidityType : Type := LSupply | LBorrow | LCollateral.

Definition as_str (self : LiquidityType) : string :=
  match self with
  | LSupply => "supply"
  | LBorrow => "borrow"
  | LCollateral => "collateral"
  end%string.

(** A [GaugeVec]: a value for the label values that were ever set. *)
Notation GaugeVec := (gmap (list string) spec_float).
Definition set (labels : list string) (v : spec_float) (g : GaugeVec) : GaugeVec := <[labels := v]> g.

Record MarketMetrics : Type := mkMarketMetrics {
  market_utilization_rate : GaugeVec;
  market_liquidity : GaugeVec;
  market_liquidity_usd : GaugeVec;
  market_borrow_rate : GaugeVec;
  market_lending_rate : GaugeVec }.

Record PositionMetrics : Type := mkPositionMetrics {
  position_liquidity : GaugeVec;
  position_liquidity_usd : GaugeVec;
  position_ltv : GaugeVec }.

Definition new_market_metrics : MarketMetrics := mkMarketMetrics ∅ ∅ ∅ ∅ ∅.
Definition new_position_metrics : PositionMetrics := mkPositionMetrics ∅ ∅ ∅.

Definition set_market_utilization_rate (market : string) (rate : spec_float) (m : MarketMetrics)
  : MarketMetrics :=
  mkMarketMetrics (set [market] rate (market_utilization_rate m)) (market_liquidity m)
    (market_liquidity_usd m) (market_borrow_rate m) (market_lending_rate m).

Definition set_market_liquidity (market : string) (s : LiquiditySummary) (m : MarketMetrics)
  : MarketMetrics :=
  mkMarketMetrics (market_utilization_rate m)
    (set [market; as_str LCollateral; ls_collateral_mint s] (ls_collateral s)
       (set [market; as_str LBorrow; ls_supply_mint s] (ls_borrow s)
          (set [market; as_str LSupply; ls_supply_mint s] (ls_supply s) (market_liquidity m))))
    (set [market; as_str LCollateral; ls_collateral_mint s] (ls_collateral_usd s)
       (set [market; as_str LBorrow; ls_supply_mint s] (ls_borrow_usd s)
          (set [market; as_str LSupply; ls_supply_mint s] (ls_supply_usd s)
             (market_liquidity_usd m))))
    (market_borrow_rate m) (market_lending_rate m).

Definition set_market_borrow_and_lending_rate (market : string)
  (borrow_rate lending_rate : spec_float) (m : MarketMetrics) : MarketMetrics :=
  mkMarketMetrics (market_utilization_rate m) (market_liquidity m) (market_liquidity_usd m)
    (set [market] borrow_rate (market_borrow_rate m))
    (set [market] lending_rate (market_lending_rate m)).

Definition set_borrow_position_liquidity (market position : string) (b : BorrowPositionSummary)
  (m : PositionMetrics) : PositionMetrics :=
  mkPositionMetrics
    (set [market; position; bs_user b; as_str LCollateral; bs_collateral_mint b] (bs_collateral b)
       (set [market; position; bs_user b; as_str LBorrow; bs_supply_mint b] (bs_borrow b)
          (position_liquidity m)))
    (set [market; position; bs_user b; as_str LCollateral; bs_collateral_mint b]
       (bs_collateral_usd b)
       (set [market; position; bs_user b; as_str LBorrow; bs_supply_mint b] (bs_borrow_usd b)
          (position_liquidity_usd m)))
    (set [market; position; bs_user b] (bs_ltv b) (position_ltv m)).

Definition set_supply_position_liquidity (market position : string) (l : SupplyPositionSummary)
  (m : PositionMetrics) : PositionMetrics :=
  mkPositionMetrics
    (set [market; position; ss_user l; as_str LSupply; ss_supply_mint l] (ss_supply l)
       (position_liquidity m))
    (set [market; position; ss_user l; as_str LSupply; ss_supply_mint l] (ss_supply_usd l)
       (position_liquidity_usd m))
    (position_ltv m).

(** *** The indexer *)

Section Indexer.
Context {FX : FixedCrate} {FL : FloatLib}.

(** A turn of [refresh] for a market: the gauges whose values can be computed. *)
Definition refresh_market (entry : Pubkey * MarketWrapper) (m : MarketMetrics) : MarketMetrics :=
  let '(address, market) := entry in
  let market_address := key_text address in
  let vault := supply_vault (MarketWrapper.market market) in
  let m := match liquidity_summary market with
           | Ok s => set_market_liquidity market_address s m
           | _ => m
           end in
  match SupplyVault.utilisation_rate vault with
  | Ok u =>
    let m := set_market_utilization_rate market_address (to_float u) m in
    let borrow_rate := last_borrow_interest_rate vault in
    let lending_rate :=
      let? x := per_second_adjust_for_utilisation_rate borrow_rate u in approximate_apy x in
    match approximate_apy borrow_rate, lending_rate with
    | Ok borrow_rate, Ok lending_rate =>
      set_market_borrow_and_lending_rate market_address borrow_rate lending_rate m
    | _, _ => m
    end
  | _ => m
  end.

Definition refresh_borrow (state : ReadClient) (entry : Pubkey * BorrowPosition)
  (m : PositionMetrics) : PositionMetrics :=
  let '(address, position) := entry in
  match get_market_wrapper state (BorrowPosition.market position) with
  | None => m
  | Some market =>
    match borrow_position_summary market position with
    | Ok s => set_borrow_position_liquidity (key_text (BorrowPosition.market position))
                (key_text address) s m
    | _ => m
    end
  end.

Definition refresh_supply (state : ReadClient) (entry : Pubkey * SupplyPosition)
  (m : PositionMetrics) : PositionMetrics :=
  let '(address, position) := entry in
  match get_market_wrapper state (SupplyPosition.market position) with
  | None => m
  | Some market =>
    match supply_position_summary market position with
    | Ok s => set_supply_position_liquidity (key_text (SupplyPosition.market position))
                (key_text address) s m
    | _ => m
    end
  end.

Definition refresh (state : ReadClient) (m : MarketMetrics * PositionMetrics)
  : MarketMetrics * PositionMetrics :=
  (foldl (fun m e => refresh_market e m) (fst m) (all_markets state),
   foldl (fun m e => refresh_supply state e m)
     (foldl (fun m e => refresh_borrow state e m) (snd m) (all_borrow_position state))
     (all_supply_position state)).

End Indexer.

(** * What the gauges show *)

Inductive Gauge : Type :=
| GUtilization | GLiquidity | GLiquidityUsd | GBorrowRate | GLendingRate
| GPositionLiquidity | GPositionLiquidityUsd | GPositionLtv.

Definition gauge (g : Gauge) (m : MarketMetrics * PositionMetrics) : GaugeVec :=
  match g with
  | GUtilization => market_utilization_rate (fst m)
  | GLiquidity => market_liquidity (fst m)
  | GLiquidityUsd => market_liquidity_usd (fst m)
  | GBorrowRate => market_borrow_rate (fst m)
  | GLendingRate => market_lending_rate (fst m)
  | GPositionLiquidity => position_liquidity (snd m)
  | GPositionLiquidityUsd => position_liquidity_usd (snd m)
  | GPositionLtv => position_ltv (snd m)
  end.

Section Series.
Context {FX : FixedCrate} {FL : FloatLib}.

(** The values that a market, a borrow position and a supply position have of themselves. *)
Inductive market_value (k : Pubkey) (w : MarketWrapper) : Gauge -> list string -> spec_float -> Prop :=
| mv_supply s : liquidity_summary w = Ok s ->
    market_value k w GLiquidity [key_text k; "supply"%string; ls_supply_mint s] (ls_supply s)
| mv_borrow s : liquidity_summary w = Ok s ->
    market_value k w GLiquidity [key_text k; "borrow"%string; ls_supply_mint s] (ls_borrow s)
| mv_collateral s : liquidity_summary w = Ok s ->
    market_value k w GLiquidity [key_text k; "collateral"%string; ls_collateral_mint s]
      (ls_collateral s)
| mv_supply_usd s : liquidity_summary w = Ok s ->
    market_value k w GLiquidityUsd [key_text k; "supply"%string; ls_supply_mint s] (ls_supply_usd s)
| mv_borrow_usd s : liquidity_summary w = Ok s ->
    market_value k w GLiquidityUsd [key_text k; "borrow"%string; ls_supply_mint s] (ls_borrow_usd s)
| mv_collateral_usd s : liquidity_summary w = Ok s ->
    market_value k w GLiquidityUsd [key_text k; "collateral"%string; ls_collateral_mint s]
      (ls_collateral_usd s)
| mv_utilization u :
    SupplyVault.utilisation_rate (supply_vault (MarketWrapper.market w)) = Ok u ->
    market_value k w GUtilization [key_text k] (to_float u)
| mv_borrow_rate u b l x :
    SupplyVault.utilisation_rate (supply_vault (MarketWrapper.market w)) = Ok u ->
    let rate := last_borrow_interest_rate (supply_vault (MarketWrapper.market w)) in
    approximate_apy rate = Ok b ->
    per_second_adjust_for_utilisation_rate rate u = Ok x -> approximate_apy x = Ok l ->
    market_value k w GBorrowRate [key_text k] b
| mv_lending_rate u b l x :
    SupplyVault.utilisation_rate (supply_vault (MarketWrapper.market w)) = Ok u ->
    let rate := last_borrow_interest_rate (supply_vault (MarketWrapper.market w)) in
    approximate_apy rate = Ok b ->
    per_second_adjust_for_utilisation_rate rate u = Ok x -> approximate_apy x = Ok l ->
    market_value k w GLendingRate [key_text k] l.

Inductive borrow_value (k : Pubkey) (p : BorrowPosition) (w : MarketWrapper)
  : Gauge -> list string -> spec_float -> Prop :=
| bv_borrow s : borrow_position_summary w p = Ok s ->
    borrow_value k p w GPositionLiquidity
      [key_text (BorrowPosition.market p); key_text k; bs_user s; "borrow"%string; bs_supply_mint s]
      (bs_borrow s)
| bv_collateral s : borrow_position_summary w p = Ok s ->
    borrow_value k p w GPositionLiquidity
      [key_text (BorrowPosition.market p); key_text k; bs_user s; "collateral"%string;
       bs_collateral_mint s] (bs_collateral s)
| bv_borrow_usd s : borrow_position_summary w p = Ok s ->
    borrow_value k p w GPositionLiquidityUsd
      [key_text (BorrowPosition.market p); key_text k; bs_user s; "borrow"%string; bs_supply_mint s]
      (bs_borrow_usd s)
| bv_collateral_usd s : borrow_position_summary w p = Ok s ->
    borrow_value k p w GPositionLiquidityUsd
      [key_text (BorrowPosition.market p); key_text k; bs_user s; "collateral"%string;
       bs_collateral_mint s] (bs_collateral_usd s)
| bv_ltv s : borrow_position_summary w p = Ok s ->
    borrow_value k p w GPositionLtv
      [key_text (BorrowPosition.market p); key_text k; bs_user s] (bs_ltv s).

Inductive supply_value (k : Pubkey) (p : SupplyPosition) (w : MarketWrapper)
  : Gauge -> list string -> spec_float -> Prop :=
| sv_supply s : supply_position_summary w p = Ok s ->
    supply_value k p w GPositionLiquidity
      [key_text (SupplyPosition.market p); key_text k; ss_user s; "supply"%string; ss_supply_mint s]
      (ss_supply s)
| sv_supply_usd s : supply_position_summary w p = Ok s ->
    supply_value k p w GPositionLiquidityUsd
      [key_text (SupplyPosition.market p); key_text k; ss_user s; "supply"%string; ss_supply_mint s]
      (ss_supply_usd s).

(** What the cache has to show. *)
Inductive shown (st : ReadClient) : Gauge -> list string -> spec_float -> Prop :=
| sh_market k w g l v : (k, w) ∈ all_markets st -> market_value k w g l v -> shown st g l v
| sh_borrow k p w g l v : (k, p) ∈ all_borrow_position st ->
    get_market_wrapper st (BorrowPosition.market p) = Some w -> borrow_value k p w g l v ->
    shown st g l v
| sh_supply k p w g l v : (k, p) ∈ all_supply_position st ->
    get_market_wrapper st (SupplyPosition.market p) = Some w -> supply_value k p w g l v ->
    shown st g l v.

(** ** A step of the refresh *)

(** A step writes the values of its entry and nothing else. *)
Definition step_writes {M} (look : Gauge -> M -> GaugeVec)
  (value : Gauge -> list string -> spec_float -> Prop) (f : M -> M) : Prop :=
  forall m g l,
    (forall v, value g l v -> look g (f m) !! l = Some v) /\
    (look g (f m) !! l = look g m !! l \/ exists v, value g l v).

Definition market_gauge (g : Gauge) (m : MarketMetrics) : GaugeVec :=
  gauge g (m, new_position_metrics).
Definition position_gauge (g : Gauge) (m : PositionMetrics) : GaugeVec :=
  gauge g (new_market_metrics, m).

(** Decides which label values were set. *)
Ltac look_up :=
  repeat match goal with
  | |- context [(<[?k := ?v]> ?m) !! ?l] =>
      first [ rewrite (lookup_insert_eq m k v)
            | rewrite (lookup_insert_ne m k l v) by (by intros ?; simplify_eq) ]
  end.
Ltac set_or_kept :=
  repeat match goal with
  | |- context [(<[?k := ?v]> ?m) !! ?l] =>
      destruct (decide (k = l)) as [<- |];
      [ right; eexists; eauto using market_value, borrow_value, supply_value; fail
      | rewrite (lookup_insert_ne m k l v) by done ]
  end; by left.

Lemma refresh_market_writes k w :
  step_writes market_gauge (market_value k w) (refresh_market (k, w)).
Proof.
  intros m g l. unfold refresh_market, market_gauge. cbv zeta. split.
  - intros v H. destruct H as [s H | s H | s H | s H | s H | s H | u H | u b l x H rate Hb Hx Hl
      | u b l x H rate Hb Hx Hl]; cbn [gauge fst];
      try (rewrite H; destruct (SupplyVault.utilisation_rate _);
           repeat case_match; cbn; unfold set, as_str; look_up; reflexivity).
    + rewrite H. subst rate. rewrite Hb, Hx. cbn [res_bind]. rewrite Hl. cbn. unfold set, as_str. by look_up.
    + rewrite H. subst rate. rewrite Hb, Hx. cbn [res_bind]. rewrite Hl. cbn. unfold set, as_str. by look_up.
  - destruct (liquidity_summary w) as [s | |] eqn:Es;
      (destruct (SupplyVault.utilisation_rate _) as [u | |] eqn:Eu;
       [destruct (approximate_apy _) as [b | |] eqn:Eb;
        [destruct (per_second_adjust_for_utilisation_rate _ _) as [x | |] eqn:Ex; cbn [res_bind];
         [destruct (approximate_apy x) as [y | |] eqn:Ey | |] | |] | |]);
      destruct g; cbn; unfold set, as_str; set_or_kept.
Qed.

Lemma refresh_borrow_writes st k p :
  step_writes position_gauge
    (fun g l v => exists w, get_market_wrapper st (BorrowPosition.market p) = Some w /\
                            borrow_value k p w g l v)
    (refresh_borrow st (k, p)).
Proof.
  intros m g l. unfold refresh_borrow, position_gauge. split.
  - intros v (w & Hw & H). rewrite Hw. destruct H as [s H | s H | s H | s H | s H]; rewrite H; cbn;
      unfold set, as_str; by look_up.
  - destruct (get_market_wrapper st (BorrowPosition.market p)) as [w |]; [| by left].
    destruct (borrow_position_summary w p) as [s | |] eqn:E; [| by left..].
    destruct g; cbn; unfold set, as_str; set_or_kept.
Qed.

Lemma refresh_supply_writes st k p :
  step_writes position_gauge
    (fun g l v => exists w, get_market_wrapper st (SupplyPosition.market p) = Some w /\
                            supply_value k p w g l v)
    (refresh_supply st (k, p)).
Proof.
  intros m g l. unfold refresh_supply, position_gauge. split.
  - intros v (w & Hw & H). rewrite Hw. destruct H as [s H | s H]; rewrite H; cbn;
      unfold set, as_str; by look_up.
  - destruct (get_market_wrapper st (SupplyPosition.market p)) as [w |]; [| by left].
    destruct (supply_position_summary w p) as [s | |] eqn:E; [| by left..].
    destruct g; cbn; unfold set, as_str; set_or_kept.
Qed.

(** Entries that agree on what they write, one after the other. *)
Lemma fold_writes {E M : Type} (look : Gauge -> M -> GaugeVec)
  (value : E -> Gauge -> list string -> spec_float -> Prop) (f : E -> M -> M) (es : list E) :
  (forall e, step_writes look (value e) (f e)) ->
  (forall e e' g l v v', e ∈ es -> e' ∈ es -> value e g l v -> value e' g l v' -> v = v') ->
  step_writes look (fun g l v => exists e, e ∈ es /\ value e g l v)
    (fun m => foldl (fun m e => f e m) m es).
Proof.
  intros Hf Hu m g l.
  induction es as [| e es IH] using rev_ind.
  - split; [intros v (e & He & _); by apply not_elem_of_nil in He | by left].
  - rewrite foldl_app. cbn. destruct (Hf e (foldl (fun m e => f e m) m es) g l) as [H1 H2].
    destruct IH as [I1 I2].
    { intros e1 e2 g' l' v v' He1 He2. apply Hu; apply elem_of_app; by left. }
    split.
    + intros v (e' & He' & Hv). apply elem_of_app in He' as [He' | ->%list_elem_of_singleton]; [| auto].
      destruct H2 as [-> | (v' & Hv')]; [eauto |].
      rewrite (Hu e' e g l v v'); [by apply H1 | apply elem_of_app; by left
        | apply elem_of_app; right; by apply list_elem_of_singleton | done | done].
    + destruct H2 as [-> | (v' & Hv')].
      * destruct I2 as [I2 | (v & e' & ? & ?)]; [by left | right].
        exists v, e'. split; [apply elem_of_app; by left | done].
      * right. exists v', e. split; [apply elem_of_app; right; by apply list_elem_of_singleton | done].
Qed.

(** ** The whole refresh *)

Context {KT : Inj (=) (=) key_text}.

Lemma market_value_unique k w k' w' g l v v' :
  (k = k' -> w = w') -> market_value k w g l v -> market_value k' w' g l v' -> v = v'.
Proof.
  intros Hk H H'. assert (k = k') as <-.
  { destruct H; inversion H'; subst; by apply (inj key_text). }
  specialize (Hk eq_refl). subst w'. destruct H; inversion H'; subst; try congruence;
    subst rate; try subst rate0; congruence.
Qed.

Lemma borrow_value_unique k p w k' p' w' g l v v' :
  (k = k' -> p = p') -> (p = p' -> w = w') ->
  borrow_value k p w g l v -> borrow_value k' p' w' g l v' -> v = v'.
Proof.
  intros Hk Hp H H'. assert (k = k') as <-.
  { destruct H; inversion H'; subst; by apply (inj key_text). }
  specialize (Hk eq_refl). subst p'. specialize (Hp eq_refl). subst w'.
  destruct H; inversion H'; subst; congruence.
Qed.

Lemma supply_value_unique k p w k' p' w' g l v v' :
  (k = k' -> p = p') -> (p = p' -> w = w') ->
  supply_value k p w g l v -> supply_value k' p' w' g l v' -> v = v'.
Proof.
  intros Hk Hp H H'. assert (k = k') as <-.
  { destruct H; inversion H'; subst; by apply (inj key_text). }
  specialize (Hk eq_refl). subst p'. specialize (Hp eq_refl). subst w'.
  destruct H; inversion H'; subst; congruence.
Qed.

(** No label of a supply is that of a debt. *)
Lemma supply_borrow_apart k p w k' p' w' g l v v' :
  supply_value k p w g l v -> borrow_value k' p' w' g l v' -> False.
Proof. intros H H'. destruct H; inversion H'. Qed.

(** Every key is listed once. *)
Record keyed (st : ReadClient) : Prop := {
  keyed_markets k w w' : (k, w) ∈ all_markets st -> (k, w') ∈ all_markets st -> w = w';
  keyed_borrows k p p' : (k, p) ∈ all_borrow_position st -> (k, p') ∈ all_borrow_position st -> p = p';
  keyed_supplies k p p' : (k, p) ∈ all_supply_position st -> (k, p') ∈ all_supply_position st -> p = p' }.

Lemma shared_keyed {PC : PdaCrate} {BC : OracleBuild} program now s :
  keyed (Shared.read_client program now s).
Proof.
  split; cbn.
  - intros k w w'. rewrite !list_elem_of_omap.
    intros ([k1 m1] & H1 & E1) ([k2 m2] & H2 & E2). apply fmap_Some in E1 as (x1 & E1 & [= -> ->]).
    apply fmap_Some in E2 as (x2 & E2 & [= -> ->]). apply elem_of_map_to_list in H1, H2. congruence.
  - intros k p p' H H'. apply elem_of_map_to_list in H, H'. congruence.
  - intros k p p' H H'. apply elem_of_map_to_list in H, H'. congruence.
Qed.

Lemma markets_written st :
  keyed st ->
  step_writes market_gauge
    (fun g l v => exists e, e ∈ all_markets st /\ market_value (fst e) (snd e) g l v)
    (fun m => foldl (fun m e => refresh_market e m) m (all_markets st)).
Proof.
  intros Hk. apply (fold_writes market_gauge (fun e => market_value (fst e) (snd e))).
  - intros [k w]. apply refresh_market_writes.
  - intros [k w] [k' w'] g l v v' He He'. apply market_value_unique. cbn. intros <-.
    by eapply keyed_markets.
Qed.

Lemma borrows_written st :
  keyed st ->
  step_writes position_gauge
    (fun g l v => exists e, e ∈ all_borrow_position st /\
       exists w, get_market_wrapper st (BorrowPosition.market (snd e)) = Some w /\
                 borrow_value (fst e) (snd e) w g l v)
    (fun m => foldl (fun m e => refresh_borrow st e m) m (all_borrow_position st)).
Proof.
  intros Hk. apply (fold_writes position_gauge
    (fun e g l v => exists w, get_market_wrapper st (BorrowPosition.market (snd e)) = Some w /\
                              borrow_value (fst e) (snd e) w g l v)).
  - intros [k p]. apply refresh_borrow_writes.
  - intros [k p] [k' p'] g l v v' He He' (w & Hw & H) (w' & Hw' & H'). cbn in *.
    eapply borrow_value_unique; [| | exact H | exact H'].
    + intros <-. by eapply keyed_borrows.
    + intros <-. congruence.
Qed.

Lemma supplies_written st :
  keyed st ->
  step_writes position_gauge
    (fun g l v => exists e, e ∈ all_supply_position st /\
       exists w, get_market_wrapper st (SupplyPosition.market (snd e)) = Some w /\
                 supply_value (fst e) (snd e) w g l v)
    (fun m => foldl (fun m e => refresh_supply st e m) m (all_supply_position st)).
Proof.
  intros Hk. apply (fold_writes position_gauge
    (fun e g l v => exists w, get_market_wrapper st (SupplyPosition.market (snd e)) = Some w /\
                              supply_value (fst e) (snd e) w g l v)).
  - intros [k p]. apply refresh_supply_writes.
  - intros [k p] [k' p'] g l v v' He He' (w & Hw & H) (w' & Hw' & H'). cbn in *.
    eapply supply_value_unique; [| | exact H | exact H'].
    + intros <-. by eapply keyed_supplies.
    + intros <-. congruence.
Qed.

(** The gauges of markets and of positions are apart. *)
Definition of_market (g : Gauge) : bool :=
  match g with
  | GUtilization | GLiquidity | GLiquidityUsd | GBorrowRate | GLendingRate => true
  | _ => false
  end.

Lemma gauge_of g m :
  gauge g m = if of_market g then market_gauge g (fst m) else position_gauge g (snd m).
Proof. by destruct g. Qed.

Lemma market_value_gauge k w g l v : market_value k w g l v -> of_market g = true.
Proof. by destruct 1. Qed.
Lemma borrow_value_gauge k p w g l v : borrow_value k p w g l v -> of_market g = false.
Proof. by destruct 1. Qed.
Lemma supply_value_gauge k p w g l v : supply_value k p w g l v -> of_market g = false.
Proof. by destruct 1. Qed.

(** C32: One refresh of the indexer leaves every gauge with what the cache holds.  Each market and
    each position whose values can be computed shows exactly its own amounts, rates and loan to
    value, and never those of another one; a series that nothing in the cache stands for keeps
    the value it had. *)
Theorem metrics_show_the_cache {PC : PdaCrate} {BC : OracleBuild} program now s m g l :
  let st := Shared.read_client program now s in
  (forall v, shown st g l v -> gauge g (refresh st m) !! l = Some v) /\
  (gauge g (refresh st m) !! l = gauge g m !! l \/ exists v, shown st g l v).
Proof.
  intros st. pose proof (shared_keyed program now s) as Hk. fold st in Hk.
  destruct (markets_written st Hk (fst m) g l) as [M1 M2].
  destruct (borrows_written st Hk (snd m) g l) as [B1 B2].
  destruct (supplies_written st Hk
    (foldl (fun m e => refresh_borrow st e m) (snd m) (all_borrow_position st)) g l) as [S1 S2].
  rewrite !gauge_of. cbn [refresh fst snd]. destruct (of_market g) eqn:Eg; split.
  - intros v H. destruct H as [k w g l v Hin H | k p w g l v Hin Hw H | k p w g l v Hin Hw H].
    + apply M1. by exists (k, w).
    + apply borrow_value_gauge in H. congruence.
    + apply supply_value_gauge in H. congruence.
  - destruct M2 as [? | (v & [k w] & ? & ?)]; [by left | right]. exists v. by eapply sh_market.
  - intros v H. destruct H as [k w g l v Hin H | k p w g l v Hin Hw H | k p w g l v Hin Hw H].
    + apply market_value_gauge in H. congruence.
    + destruct S2 as [-> | (v' & [k' p'] & ? & w' & ? & H')].
      * apply B1. exists (k, p). split; [done | by exists w].
      * destruct (supply_borrow_apart _ _ _ _ _ _ _ _ _ _ H' H).
    + apply S1. exists (k, p). split; [done | by exists w].
  - destruct S2 as [-> | (v & [k p] & ? & w & ? & ?)].
    + destruct B2 as [? | (v & [k p] & ? & w & ? & ?)]; [by left | right]. exists v.
      by eapply sh_borrow.
    + right. exists v. by eapply sh_supply.
Qed.

End Series.

(** * Gauges to look at

    The market of [ClientExample] in the shared cache. *)
#[local] Existing Instances fixed_ref fixed_ref_laws pda_ex client_build_ex chain_ex.

Definition floats_ex : FloatLib := {|
  ten_powi := fun n => Pusher.f64_of_Z (10 ^ n);
  f64_exp := fun x => SFadd 53 1024 (Pusher.f64_of_Z 1) x;
  fx_to_f64 := fun _ bits => binary_normalize 53 1024 bits (-48) false;
  fx_checked_to_f64 := fun _ bits => Some (binary_normalize 53 1024 bits (-48) false);
  key_text := fun k => pretty (N.pos (encode k)) |}.
#[local] Existing Instance floats_ex.

#[local] Instance key_text_ex_inj : Inj (=) (=) key_text.
Proof. intros k k' H. cbn in H. apply pretty_N_inj in H. injection H as H. by apply (inj encode). Qed.

Definition indexed : ReadClient := Shared.read_client id 1000 shared_1.

Lemma market_is_indexed :
  exists w s, (key_ex 8, w) ∈ all_markets indexed /\ liquidity_summary w = Ok s.
Proof.
  assert (H : match all_markets indexed with
              | [(k, w)] => bool_decide (k = key_ex 8) && is_ok (liquidity_summary w)
              | _ => false
              end = true) by (vm_compute; reflexivity).
  destruct (all_markets indexed) as [| [k w] [|]]; try discriminate.
  apply andb_prop in H as [Hk Hs]. apply bool_decide_eq_true in Hk as ->.
  destruct (liquidity_summary w) as [s | |] eqn:E; try discriminate.
  exists w, s. split; [apply list_elem_of_here | done].
Qed.

Lemma metrics_witness :
  exists w s, (key_ex 8, w) ∈ all_markets indexed /\ liquidity_summary w = Ok s /\
    gauge GLiquidity (refresh indexed (new_market_metrics, new_position_metrics))
      !! [key_text (key_ex 8); "borrow"%string; ls_supply_mint s] = Some (ls_borrow s).
Proof.
  destruct market_is_indexed as (w & s & Hw & Hs). exists w, s. split; [exact Hw |].
  split; [exact Hs |].
  apply (metrics_show_the_cache id 1000 shared_1 (new_market_metrics, new_position_metrics)
           GLiquidity [key_text (key_ex 8); "borrow"%string; ls_supply_mint s]).
  eapply sh_market; [exact Hw | by apply mv_borrow].
Defined.
