(* ===== verification/DeployConfig.v ===== *)
(** * The configuration of a deployment

    [autara-deploy/src/config.rs]: everything that the deploy tool needs, read once from the
    environment.  Base58 and the parser of keys belong to crates: parameters. *)
From Stdlib Require Import String Ascii SpecFloat.
From S2P Require Import Prelude.
From S2P Require Import Text.
From S2P Require Import Errors.
From S2P Require Import Monad.
From S2P Require Import Pda.
From S2P Require Import RpcExt.
From S2P Require Import PythPusher.
#[local] Open Scope string_scope.
#[local] Open Scope Z_scope.

(** [bs58::decode(_).into_vec()] and [Pubkey::from_str] *)
Class PubkeyText : Type := {
  bs58_decode : string -> option (list Z);
  pubkey_from_str : string -> option Pubkey }.

(** ** [Network] *)

Module Network.
Inductive t : Type := Localnet | Testnet | Mainnet.

#[global] Instance t_eq_dec : EqDecision t.
Proof. solve_decision. Defined.

Definition as_str (self : t) : string :=
  match self with Localnet => "localnet" | Testnet => "testnet" | Mainnet => "mainnet" end.

Definition default_rpc_url (self : t) : string :=
  match self with
  | Localnet => "http://localhost:9002/"
  | Testnet => "https://rpc.testnet.arch.network"
  | Mainnet => "https://rpc.mainnet.arch.network"
  end.

Definition bitcoin_network (self : t) : BitcoinNetwork :=
  match self with Localnet => Regtest | Testnet => Testnet4 | Mainnet => Bitcoin end.

Definition has_faucet (self : t) : bool :=
  match self with Localnet | Testnet => true | Mainnet => false end.

Definition from_str (s : string) : AnyRes t :=
  let s := to_lowercase (trim s) in
  if existsb (String.eqb s) ["localnet"; "local"; "regtest"; "dev"] then Ok Localnet
  else if existsb (String.eqb s) ["testnet"; "devnet"] then Ok Testnet
  else if existsb (String.eqb s) ["mainnet"; "mainnet-beta"] then Ok Mainnet
  else Err (Message ("unknown NETWORK '" ++ s ++ "' (expected localnet|testnet|mainnet)")).
End Network.

(** ** Tokens and markets *)

Record TokenConfig : Type := mkTokenConfig {
  tc_label : string;
  tc_mint : Pubkey;
  tc_decimals : Z;
  tc_mint_amount : Z;
  tc_faucet_amount : Z;
  tc_mint_authority_key_path : option string }.

Record MarketPair : Type := mkPair { supply_label : string; collateral_label : string }.

(** The parameters of every market: doubles. *)
Record MarketParams : Type := mkParams {
  mp_max_ltv : spec_float;
  mp_unhealthy_ltv : spec_float;
  mp_liquidation_bonus : spec_float;
  mp_max_utilisation_rate : spec_float }.

(** [MarketParams::default]: 0.8, 0.9, 0.05 and 0.9 *)
Definition default_params : MarketParams :=
  mkParams (f64_decimal false 8 (-1)) (f64_decimal false 9 (-1)) (f64_decimal false 5 (-2))
    (f64_decimal false 9 (-1)).

Definition BTC_FEED : string := "e62df6c8b4a85fe1a67db44dc12de5db330f7ac66b72dc658afedf0f4a415b43".
Definition USDC_FEED : string := "eaa020c61cc479712813461ce153894a96a6c00b21ed0cfc2798d1f9a9e9c94a".
Definition ETH_FEED : string := "ff61491a931112ddf1bd8147cd1b641375f79f5825126d665480874634fd0ace".

Definition DEFAULT_TOKEN_AMOUNT : Z := 1000000000000.
Definition FAUCET_AIRDROP_LAMPORTS : Z := 1000000.
Definition DEFAULT_MIN_DEPLOYER_LAMPORTS : Z := 5 * FAUCET_AIRDROP_LAMPORTS.

Definition pyth_feed_for_label (label : string) : option (list Z) :=
  let label := to_uppercase (trim label) in
  if existsb (String.eqb label) ["BTC"; "ABTC"] then hex_decode 32 BTC_FEED
  else if existsb (String.eqb label) ["USDC"; "AUSD"] then hex_decode 32 USDC_FEED
  else if String.eqb label "ETH" then hex_decode 32 ETH_FEED
  else None.

Definition PLACEHOLDER_MINT_HEXES : list string :=
  ["36a97410055bbbdc52b421d0c95f76d85eca066b83db8b14f64665b178c93d8b";
   "7250792453cc3a0bd015778f240dd50b552c48c153b7b83e3ef0c441aff9483c";
   "a80fa79ee82952b0a127f50e7d469dae1a51315d4267ca38d7907ad5df5cb3cb"].

Record DeployConfig : Type := mkDeployConfig {
  network : Network.t;
  arch_rpc_url : string;
  program_key_path : string;
  oracle_key_path : string;
  deployer_key_path : string;
  admin_key_path : string;
  program_elf_path : string;
  oracle_elf_path : string;
  cfg_admin : option Pubkey;
  cfg_fee_receiver : option Pubkey;
  protocol_fee_share_bps : Z;
  tokens : list TokenConfig;
  mint_authority_key_path : option string;
  mint_recipient : option Pubkey;
  market_pairs : list MarketPair;
  lending_market_fee_bps : Z;
  market_params : MarketParams;
  use_faucet : bool;
  min_deployer_lamports : Z;
  output_path : string }.

(** ** The environment *)

(** [std::env::var(key).ok()] *)
Notation Env := (string -> option string).

Section Parse.
Context {PT : PubkeyText}.
Variable env : Env.

Definition nonempty (s : string) : bool := negb (String.eqb s "").

Definition env_opt (key : string) : option string :=
  match env key with
  | Some v => if nonempty (trim v) then Some v else None
  | None => None
  end.

Definition env_or (key value : string) : string := default value (env_opt key).

Definition yes (s : string) : bool := existsb (String.eqb s) ["1"; "true"; "yes"; "y"; "on"].
Definition no (s : string) : bool := existsb (String.eqb s) ["0"; "false"; "no"; "n"; "off"].

Definition env_bool (key : string) (value : bool) : AnyRes bool :=
  match env_opt key with
  | None => Ok value
  | Some v =>
    let v := to_lowercase (trim v) in
    if yes v then Ok true
    else if no v then Ok false
    else Err (Message ("invalid bool for " ++ key ++ ": '" ++ v ++ "'"))
  end.

Definition env_parse {T} (parse : string -> option T) (key : string) (value : T) : AnyRes T :=
  match env_opt key with
  | None => Ok value
  | Some v => found ("invalid value for " ++ key) (parse (trim v))
  end.

Definition parse_pubkey_base58_or_hex (value : string) : AnyRes Pubkey :=
  let value := trim value in
  let hex := found ("expected base58 or hex pubkey, got '" ++ value ++ "'")
               (pubkey_from_str value) in
  match bs58_decode value with
  | Some bytes => if (length bytes =? 32)%nat then Ok bytes else hex
  | None => hex
  end.

Definition env_pubkey_opt (key : string) : AnyRes (option Pubkey) :=
  match env_opt key with
  | None => Ok None
  | Some v =>
    let? k := with_context ("invalid pubkey for " ++ key) (parse_pubkey_base58_or_hex v) in
    Ok (Some k)
  end.

(** The pieces of a list, without blanks and without those that are empty. *)
Definition entries (raw : string) : list string :=
  filter (fun s => nonempty s) (trim <$> split "," raw).

(** An amount behind a colon, if there is one. *)
Definition optional_amount (label : string) (field : option string) (value : Z) : AnyRes Z :=
  match trim <$> field with
  | Some v => if nonempty v then found ("invalid amount for token '" ++ label ++ "'") (parse_u64 v)
              else Ok value
  | None => Ok value
  end.

Definition parse_token (default_mint_amount default_faucet_amount : Z) (entry : string)
  : AnyRes TokenConfig :=
  let parts := split ":" entry in
  let label := trim (default EmptyString (parts !! 0%nat)) in
  if negb (nonempty label) then Err (Message ("invalid TOKENS entry '" ++ entry ++ "'"))
  else
    let? mint_raw := found ("token '" ++ label ++ "' missing mint") (parts !! 1%nat) in
    let? decimals_raw := found ("token '" ++ label ++ "' missing decimals") (parts !! 2%nat) in
    let? mint := with_context ("invalid mint for token '" ++ label ++ "'")
                   (parse_pubkey_base58_or_hex (trim mint_raw)) in
    let? decimals := found ("invalid decimals for token '" ++ label ++ "'")
                       (parse_u8 (trim decimals_raw)) in
    let? mint_amount := optional_amount label (parts !! 3%nat) default_mint_amount in
    let? faucet_amount := optional_amount label (parts !! 4%nat) default_faucet_amount in
    Ok (mkTokenConfig label mint decimals mint_amount faucet_amount None).

Definition parse_tokens (raw : string) (default_mint_amount default_faucet_amount : Z)
  : AnyRes (list TokenConfig) :=
  res_list (parse_token default_mint_amount default_faucet_amount) (entries raw).

Definition parse_market_pair (entry : string) : AnyRes MarketPair :=
  let? (supply, collateral) := found ("invalid MARKET_PAIRS entry '" ++ entry ++ "'")
                                 (split_once "/" entry) in
  let supply_label := trim supply in
  let collateral_label := trim collateral in
  if negb (nonempty supply_label) || negb (nonempty collateral_label)
  then Err (Message ("invalid MARKET_PAIRS entry '" ++ entry ++ "' (empty label)"))
  else Ok (mkPair supply_label collateral_label).

Definition parse_market_pairs (raw : string) : AnyRes (list MarketPair) :=
  res_list parse_market_pair (entries raw).

(** The key path of the mint authority of a token. *)
Definition with_authority_path (t : TokenConfig) : TokenConfig :=
  let key := "MINT_AUTHORITY_KEY_PATH_" ++ to_uppercase (tc_label t) in
  mkTokenConfig (tc_label t) (tc_mint t) (tc_decimals t) (tc_mint_amount t)
    (tc_faucet_amount t) (env_opt key).

Definition from_env : AnyRes DeployConfig :=
  let? network := Network.from_str (env_or "NETWORK" "localnet") in
  let arch_rpc_url := default (Network.default_rpc_url network) (env_opt "ARCH_RPC_URL") in
  let? default_mint_amount := env_parse parse_u64 "DEFAULT_MINT_AMOUNT" DEFAULT_TOKEN_AMOUNT in
  let? default_faucet_amount :=
    env_parse parse_u64 "DEFAULT_FAUCET_AMOUNT" DEFAULT_TOKEN_AMOUNT in
  let? tokens := match env_opt "TOKENS" with
                 | Some raw => parse_tokens raw default_mint_amount default_faucet_amount
                 | None => Ok []
                 end in
  let tokens := with_authority_path <$> tokens in
  let? market_pairs := match env_opt "MARKET_PAIRS" with
                       | Some raw => parse_market_pairs raw
                       | None => Ok []
                       end in
  let? use_faucet := if bool_decide (network = Network.Mainnet) then Ok false
                     else env_bool "USE_FAUCET" (Network.has_faucet network) in
  let? admin := env_pubkey_opt "ADMIN" in
  let? fee_receiver := env_pubkey_opt "FEE_RECEIVER" in
  let? fee_share := env_parse parse_u16 "PROTOCOL_FEE_SHARE_BPS" 5000 in
  let? mint_recipient := env_pubkey_opt "MINT_RECIPIENT" in
  let? lending_fee := env_parse parse_u16 "LENDING_MARKET_FEE_BPS" 100 in
  let? max_ltv := env_parse parse_f64 "MARKET_MAX_LTV" (mp_max_ltv default_params) in
  let? unhealthy_ltv :=
    env_parse parse_f64 "MARKET_UNHEALTHY_LTV" (mp_unhealthy_ltv default_params) in
  let? liquidation_bonus :=
    env_parse parse_f64 "MARKET_LIQUIDATION_BONUS" (mp_liquidation_bonus default_params) in
  let? max_utilisation_rate :=
    env_parse parse_f64 "MARKET_MAX_UTILISATION" (mp_max_utilisation_rate default_params) in
  let? min_deployer_lamports :=
    env_parse parse_u64 "MIN_DEPLOYER_LAMPORTS" DEFAULT_MIN_DEPLOYER_LAMPORTS in
  Ok (mkDeployConfig network arch_rpc_url
        (env_or "PROGRAM_KEY_PATH" "autara-deploy/.keys-testnet/program.json")
        (env_or "ORACLE_KEY_PATH" "autara-deploy/.keys-testnet/oracle.json")
        (env_or "DEPLOYER_KEY_PATH" "autara-deploy/.keys-testnet/deployer.json")
        (env_or "ADMIN_KEY_PATH" "autara-deploy/.keys-testnet/admin.json")
        (env_or "PROGRAM_ELF_PATH" "target/deploy/autara_program.so")
        (env_or "ORACLE_ELF_PATH" "target/deploy/autara_oracle.so")
        admin fee_receiver fee_share tokens (env_opt "MINT_AUTHORITY_KEY_PATH") mint_recipient
        market_pairs lending_fee
        (mkParams max_ltv unhealthy_ltv liquidation_bonus max_utilisation_rate)
        use_faucet min_deployer_lamports
        (env_or "OUTPUT_PATH" ("deployments/" ++ Network.as_str network ++ ".json"))).

End Parse.

(** ** Queries *)

Section Queries.
Context {PT : PubkeyText}.
Variable self : DeployConfig.

Definition mint_authority_for (token : TokenConfig) : option string :=
  match tc_mint_authority_key_path token with
  | Some path => Some path
  | None => mint_authority_key_path self
  end.

Definition token_by_label (label : string) : option TokenConfig :=
  snd <$> list_find (fun t => eq_ignore_ascii_case (tc_label t) label = true) (tokens self).

Inductive Violation : Type := FaucetOnMainnet | PlaceholderMint (label : string) (mint : Pubkey).

Definition mainnet_safety_violations : list Violation :=
  if bool_decide (network self <> Network.Mainnet) then []
  else
    let faucet := if use_faucet self then [FaucetOnMainnet] else [] in
    let placeholders := omap pubkey_from_str PLACEHOLDER_MINT_HEXES in
    faucet ++ omap (fun t => if bool_decide (tc_mint t ∈ placeholders)
                             then Some (PlaceholderMint (tc_label t) (tc_mint t)) else None)
                (tokens self).

Definition effective_market_pairs : list MarketPair :=
  match market_pairs self with
  | [] =>
    supply ← tokens self;
    collateral ← tokens self;
    if String.eqb (tc_label supply) (tc_label collateral) then []
    else if bool_decide (pyth_feed_for_label (tc_label supply) = None)
            || bool_decide (pyth_feed_for_label (tc_label collateral) = None) then []
    else [mkPair (tc_label supply) (tc_label collateral)]
  | pairs => pairs
  end.

End Queries.
