(* ===== verification/Deploy.v ===== *)
(** * The deploy tool

    [autara-deploy/src]: the requests to a node ([rpc.rs]), the record of a run
    ([artifact.rs]), the steps of a deployment ([steps.rs]), the run and its sub-commands
    ([main.rs]) and the verification of a deployment ([verify.rs]).

    A run talks to a node, to a faucet and to the file system.  The world that answers is a
    parameter: each answer is any function of what happened before, which the session keeps as
    a list of events.  Uploading a program is the tool of [Upgrade]; here it is one event.  The
    texts of errors that nothing reads are abridged. *)
From Stdlib Require Import String Ascii SpecFloat.
From S2P Require Import Prelude.
From S2P Require Import Text.
From S2P Require Import Errors.
From S2P Require Import Monad.
From S2P Require Import FixedPoint.
From S2P Require Import Bytes.
From S2P Require Import Pda.
From S2P Require Import InterestRateCurve.
From S2P Require Import Oracle.
From S2P Require Import GlobalConfig.
From S2P Require Import MarketConfig.
From S2P Require Import CollateralVault.
From S2P Require Import SupplyVault.
From S2P Require Import Market.
From S2P Require Import Accounts.
From S2P Require Import OracleProgram.
From S2P Require Import Events.
From S2P Require Import ProcessorAdmin.
From S2P Require Import Borsh.
From S2P Require Import IxBuilders.
From S2P Require Import Layout.
From S2P Require Import TxBuilder.
From S2P Require Import RpcExt.
From S2P Require Import FullClient.
From S2P Require Import PythPusher.
From S2P Require Import DeployConfig.
#[local] Open Scope string_scope.
#[local] Open Scope Z_scope.

(** ** What is not of this repository *)

(** [arch_sdk::AccountInfo] *)
Record RemoteAccount : Type := mkRemote {
  rm_owner : Pubkey;
  rm_lamports : Z;
  rm_data : list Z;
  rm_is_executable : bool }.

(** [apl_token::state::Mint], and the instruction [mint_to] *)
Record MintState : Type := mkMintState {
  ms_decimals : Z;
  ms_supply : Z;
  ms_mint_authority : option Pubkey }.

Class AplToken : Type := {
  unpack_mint : list Z -> option MintState;
  unpack_account_amount : list Z -> option Z;
  mint_to : Pubkey -> Pubkey -> Pubkey -> Z -> option Instruction }.

(** [from_num] of the crate [fixed] on a double: [None] for a panic. *)
Class FixedFloats : Type := fx_from_f64 : fixed_format -> spec_float -> option Z.

Definition i_from_f64 {FF : FixedFloats} {E} (x : spec_float) : Result E IFixedPoint :=
  res_map IFP (or_panic (fx_from_f64 I80F48 x)).

(** ** [artifact.rs] *)

Record MarketRecord : Type := mkMarketRecord {
  mr_pair : MarketPair;
  mr_supply_mint : Pubkey;
  mr_collateral_mint : Pubkey;
  mr_index : Z;
  mr_market : Pubkey;
  mr_created : bool }.

Record DeploymentArtifact : Type := mkArtifact {
  da_network : string;
  da_arch_rpc_url : string;
  da_deployed_at_unix : Z;
  da_program_id : Pubkey;
  da_oracle_id : Pubkey;
  da_build_commit : option string;
  da_program_elf_path : string;
  da_program_elf_sha256 : option (list Z);
  da_oracle_elf_path : string;
  da_oracle_elf_sha256 : option (list Z);
  da_deployer : Pubkey;
  da_admin : Pubkey;
  da_fee_receiver : Pubkey;
  da_protocol_fee_share_bps : Z;
  da_global_config : option Pubkey;
  da_tokens : list TokenConfig;
  da_markets : list MarketRecord;
  da_transactions : list (string * list Z) }.

Definition set_program_sha (x : option (list Z)) (a : DeploymentArtifact) : DeploymentArtifact :=
  mkArtifact (da_network a) (da_arch_rpc_url a) (da_deployed_at_unix a) (da_program_id a)
    (da_oracle_id a) (da_build_commit a) (da_program_elf_path a) x (da_oracle_elf_path a)
    (da_oracle_elf_sha256 a) (da_deployer a) (da_admin a) (da_fee_receiver a)
    (da_protocol_fee_share_bps a) (da_global_config a) (da_tokens a) (da_markets a)
    (da_transactions a).
Definition set_oracle_sha (x : option (list Z)) (a : DeploymentArtifact) : DeploymentArtifact :=
  mkArtifact (da_network a) (da_arch_rpc_url a) (da_deployed_at_unix a) (da_program_id a)
    (da_oracle_id a) (da_build_commit a) (da_program_elf_path a) (da_program_elf_sha256 a)
    (da_oracle_elf_path a) x (da_deployer a) (da_admin a) (da_fee_receiver a)
    (da_protocol_fee_share_bps a) (da_global_config a) (da_tokens a) (da_markets a)
    (da_transactions a).
Definition set_global_config (x : Pubkey) (a : DeploymentArtifact) : DeploymentArtifact :=
  mkArtifact (da_network a) (da_arch_rpc_url a) (da_deployed_at_unix a) (da_program_id a)
    (da_oracle_id a) (da_build_commit a) (da_program_elf_path a) (da_program_elf_sha256 a)
    (da_oracle_elf_path a) (da_oracle_elf_sha256 a) (da_deployer a) (da_admin a)
    (da_fee_receiver a) (da_protocol_fee_share_bps a) (Some x) (da_tokens a) (da_markets a)
    (da_transactions a).
Definition record_market (m : MarketRecord) (a : DeploymentArtifact) : DeploymentArtifact :=
  mkArtifact (da_network a) (da_arch_rpc_url a) (da_deployed_at_unix a) (da_program_id a)
    (da_oracle_id a) (da_build_commit a) (da_program_elf_path a) (da_program_elf_sha256 a)
    (da_oracle_elf_path a) (da_oracle_elf_sha256 a) (da_deployer a) (da_admin a)
    (da_fee_receiver a) (da_protocol_fee_share_bps a) (da_global_config a) (da_tokens a)
    (da_markets a ++ [m])%list (da_transactions a).
Definition record_tx (step : string) (txid : list Z) (a : DeploymentArtifact)
  : DeploymentArtifact :=
  mkArtifact (da_network a) (da_arch_rpc_url a) (da_deployed_at_unix a) (da_program_id a)
    (da_oracle_id a) (da_build_commit a) (da_program_elf_path a) (da_program_elf_sha256 a)
    (da_oracle_elf_path a) (da_oracle_elf_sha256 a) (da_deployer a) (da_admin a)
    (da_fee_receiver a) (da_protocol_fee_share_bps a) (da_global_config a) (da_tokens a)
    (da_markets a) (da_transactions a ++ [(step, txid)])%list.

(** ** The world of a run *)

Section World.
Context {SDK : ArchSdk}.

(** What a run does, with the answer that it gets. *)
Inductive Event : Type :=
| Read (k : Pubkey) (r : Result ArchError RemoteAccount)
| BestHash (r : Result ArchError (list Z))
| Airdrop (keypair : Keypair) (r : Result ArchError ())
| Send (tx : RuntimeTransaction) (r : Result ArchError (list (list Z)))
| Wait (txid : list Z) (r : Result ArchError (list ProcessedTx))
| Upload (program authority : Keypair) (path : string) (r : Result string ())
| WriteArtifact (path : string) (artifact : DeploymentArtifact) (r : Result Anyhow ()).

Definition Trace : Type := list Event.

Class World : Type := {
  on_read : Trace -> Pubkey -> Result ArchError RemoteAccount;
  on_best_hash : Trace -> Result ArchError (list Z);
  on_airdrop : Trace -> Keypair -> Result ArchError ();
  on_send : Trace -> RuntimeTransaction -> Result ArchError (list (list Z));
  on_wait : Trace -> list Z -> Result ArchError (list ProcessedTx);
  on_upload : Trace -> Keypair -> Keypair -> string -> Result string ();
  on_write : Trace -> string -> DeploymentArtifact -> Result Anyhow ();
  (** [with_secret_key_file], [std::fs::read], [git rev-parse], the clock *)
  key_file : string -> AnyRes Keypair;
  file : string -> option (list Z);
  git_short_commit : option string;
  now_unix : Z;
  (** [Sha256], [build_and_sign_transaction], and how a transaction id prints *)
  sha256 : list Z -> list Z;
  build_and_sign_transaction :
    ArchMessage -> list Keypair -> BitcoinNetwork -> Result ArchError RuntimeTransaction;
  txid_text : list Z -> string }.

Record Session : Type := mkSession { trace : Trace; artifact : DeploymentArtifact }.

Notation Deploy := (STE Anyhow Session).

Definition observe (e : Event) : Deploy () :=
  st_modify (fun s => mkSession (trace s ++ [e])%list (artifact s)).
Definition update (f : DeploymentArtifact -> DeploymentArtifact) : Deploy () :=
  st_modify (fun s => mkSession (trace s) (f (artifact s))).

(** One exchange with the world. *)
Definition ask {E A} (answer : Trace -> Result E A) (event : Result E A -> Event)
  : Deploy (Result E A) :=
  let! t := st_gets trace in
  let r := answer t in
  observe (event r) ;;;
  st_ret r.

Definition arch_text (e : ArchError) : string := let 'RequestFailed m := e in m.

(** [.map_err(|e| anyhow!("{context}: {e}"))] *)
Definition failing {E A} (context : string) (text : E -> string) (r : Result E A) : AnyRes A :=
  res_from (fun e => Message (context ++ ": " ++ text e)) r.

(** ** [rpc.rs] *)

Section Rpc.
Context {WO : World}.

(** The payer of a context; the node is that of the session. *)
Record RpcContext : Type := mkContext {
  ctx_network : BitcoinNetwork;
  payer : Keypair;
  payer_pubkey : Pubkey }.

Definition load_keypair (path : string) : AnyRes (Keypair * Pubkey) :=
  let? k := with_context ("failed to load keypair from " ++ path) (key_file path) in
  Ok (k, x_only_public_key k).

Definition read_account_info (k : Pubkey) : Deploy (Result ArchError RemoteAccount) :=
  ask (fun t => on_read t k) (Read k).

Definition rpc_reachable : Deploy (Result ArchError (list Z)) :=
  ask (fun t => on_best_hash t) BestHash.

Definition balance (k : Pubkey) : Deploy (option Z) :=
  let! r := read_account_info k in
  st_ret (match r with Ok info => Some (rm_lamports info) | _ => None end).

Definition account_exists (k : Pubkey) : Deploy bool :=
  let! r := read_account_info k in
  st_ret (match r with Ok _ => true | _ => false end).

Definition is_executable (k : Pubkey) : Deploy bool :=
  let! r := read_account_info k in
  st_ret (match r with Ok info => rm_is_executable info | _ => false end).

Definition fund_with_faucet (keypair : Keypair) : Deploy () :=
  let! r := ask (fun t => on_airdrop t keypair) (Airdrop keypair) in
  st_lift (failing "faucet funding failed" arch_text r).

Definition deploy_program (program_kp authority_kp : Keypair) (elf_path : string) : Deploy () :=
  let! r := ask (fun t => on_upload t program_kp authority_kp elf_path)
              (Upload program_kp authority_kp elf_path) in
  match r with
  | Ok _ => st_ret tt
  | Err msg =>
    if contains "already exists" msg || contains "already deployed" msg then st_ret tt
    else st_raise (Message ("program deployment failed: " ++ msg))
  | Panic => st_lift Panic
  end.

Definition NEWLINE : string := String (ascii_of_nat 10) EmptyString.

Definition send (ctx : RpcContext) (instructions : Transaction) (extra_signers : list Keypair)
  : Deploy (list Z) :=
  let! r := ask (fun t => on_best_hash t) BestHash in
  let! blockhash := st_lift (failing "get_best_block_hash failed" arch_text r) in
  let message := mkMessage instructions (payer_pubkey ctx) blockhash in
  let signers := (extra_signers ++ [payer ctx])%list in
  let! tx := st_lift (failing "failed to build/sign transaction" arch_text
                        (build_and_sign_transaction message signers (ctx_network ctx))) in
  let! r := ask (fun t => on_send t tx) (Send tx) in
  let! txids := st_lift (failing "send_transactions failed" arch_text r) in
  let! txid := st_lift (found "send_transactions returned no txid" (head txids)) in
  let! r := ask (fun t => on_wait t txid) (Wait txid) in
  let! processed := st_lift (failing "waiting for transaction failed" arch_text r) in
  let! processed := st_lift (found "no processed transaction returned" (head processed)) in
  match pt_status processed with
  | Processed => st_ret txid
  | Failed e => st_raise (Message ("transaction " ++ txid_text txid ++ " failed: " ++ e
                                   ++ NEWLINE ++ "logs:" ++ NEWLINE
                                   ++ join NEWLINE (pt_logs processed)))
  | Queued => st_raise (Message ("transaction " ++ txid_text txid ++ " still queued after wait"))
  end.

(** The error of a request as a value. *)
Definition attempt {A} (m : Deploy A) : Deploy (AnyRes A) :=
  fun s => match m s with (Panic, s') => (Panic, s') | (r, s') => (Ok r, s') end.

End Rpc.
End World.

Notation Deploy := (STE Anyhow Session).

(** ** [steps.rs] *)

Section Steps.
Context {PC : PdaCrate} {CH : Chain} {BO : BorshCrate} {FX : FixedCrate} {FF : FixedFloats}.
Context {AT : AplToken} {SDK : ArchSdk} {WO : World}.

Definition create_global_config (ctx : RpcContext) (autara_program_id admin fee_receiver : Pubkey)
  (protocol_fee_share_bps : Z) : Deploy Pubkey :=
  let '(global_config_pda, ix) :=
    Ixs.create_global_config_ix autara_program_id (payer_pubkey ctx) admin fee_receiver
      protocol_fee_share_bps in
  let! r := attempt (send ctx [ix] []) in
  match r with
  | Ok txid => update (record_tx "create_global_config" txid)
  | Err e => if contains "already exists" (to_string e) then st_ret tt else st_raise e
  | Panic => st_lift Panic
  end ;;;
  update (set_global_config global_config_pda) ;;;
  st_ret global_config_pda.

Fixpoint ensure_token_mints (tokens : list TokenConfig) : Deploy () :=
  match tokens with
  | [] => st_ret tt
  | token :: tokens =>
    let! present := account_exists (tc_mint token) in
    st_guard (negb present) (Message ("token '" ++ tc_label token ++ "' is not on-chain")) ;;;
    ensure_token_mints tokens
  end.

(** The gate of [mint_initial_supply]: the mint is read and compared. *)
Definition check_mint (authority : Pubkey) (token : TokenConfig) : Deploy () :=
  let! r := read_account_info (tc_mint token) in
  let! mint_info := st_lift (failing ("reading mint " ++ tc_label token ++ " failed") arch_text r) in
  let! mint_state := st_lift (found ("decoding mint " ++ tc_label token)
                                (unpack_mint (rm_data mint_info))) in
  st_guard (negb (ms_decimals mint_state =? tc_decimals token))
    (Message ("decimals mismatch for " ++ tc_label token)) ;;;
  match ms_mint_authority mint_state with
  | Some on_chain => st_guard (negb (bool_decide (on_chain = authority)))
                       (Message ("mint_authority MISMATCH for " ++ tc_label token))
  | None => st_raise (Message ("mint " ++ tc_label token ++ " has no mint_authority"))
  end.

Definition mint_initial_supply (authority_ctx : RpcContext) (token : TokenConfig)
  (recipient : Pubkey) : Deploy () :=
  let authority := payer_pubkey authority_ctx in
  check_mint authority token ;;;
  let ata := get_associated_token_address recipient (tc_mint token) in
  let! r := read_account_info ata in
  let existing_balance := match r with
                          | Ok info => unpack_account_amount (rm_data info)
                          | _ => None
                          end in
  if match existing_balance with Some bal => tc_mint_amount token <=? bal | None => false end
  then st_ret tt
  else
    match existing_balance with
    | None =>
      let create_ix := Ixs.create_ata_ix authority (Some ata) recipient (tc_mint token) in
      let! r := attempt (send authority_ctx [create_ix] []) in
      let! txid := st_lift (with_context ("creating ATA for " ++ tc_label token) r) in
      update (record_tx ("create_ata:" ++ tc_label token) txid)
    | Some _ => st_ret tt
    end ;;;
    let! mint_ix := st_lift (found ("building mint_to for " ++ tc_label token ++ " failed")
                               (mint_to (tc_mint token) ata authority (tc_mint_amount token))) in
    let! r := attempt (send authority_ctx [mint_ix] []) in
    let! txid := st_lift (with_context ("mint_to " ++ tc_label token) r) in
    update (record_tx ("mint_initial_supply:" ++ tc_label token) txid).

Definition build_create_market_instruction {E} (index lending_market_fee_bps : Z)
  (params : MarketParams) (supply_oracle collateral_oracle : OracleConfig)
  : Result E CreateMarketInstruction :=
  let? max_ltv := i_from_f64 (mp_max_ltv params) in
  let? unhealthy_ltv := i_from_f64 (mp_unhealthy_ltv params) in
  let? liquidation_bonus := i_from_f64 (mp_liquidation_bonus params) in
  let? max_utilisation_rate := i_from_f64 (mp_max_utilisation_rate params) in
  Ok (mkCreateMarketIx 0 index (mkLtv max_ltv unhealthy_ltv liquidation_bonus)
        max_utilisation_rate supply_oracle collateral_oracle new_adaptive
        lending_market_fee_bps).

Definition derive_market_pda (autara_program_id curator : Pubkey)
  (supply collateral : TokenConfig) (index : Z) : Pubkey :=
  fst (find_market_pda autara_program_id curator (tc_mint supply) (tc_mint collateral) index).

Definition create_market (ctx : RpcContext) (autara_program_id oracle_program_id curator : Pubkey)
  (pair : MarketPair) (supply collateral : TokenConfig) (lending_market_fee_bps : Z)
  (market_params : MarketParams) (index : Z) : Deploy Pubkey :=
  let! supply_feed := st_lift (found ("no Pyth feed for supply token '" ++ tc_label supply ++ "'")
                                 (pyth_feed_for_label (tc_label supply))) in
  let! collateral_feed :=
    st_lift (found ("no Pyth feed for collateral token '" ++ tc_label collateral ++ "'")
               (pyth_feed_for_label (tc_label collateral))) in
  let market_pda := derive_market_pda autara_program_id curator supply collateral index in
  let record := mkMarketRecord pair (tc_mint supply) (tc_mint collateral) index market_pda in
  let! exists_already := account_exists market_pda in
  if exists_already then update (record_market (record false)) ;;; st_ret market_pda
  else
    let! create_market := st_lift
      (build_create_market_instruction index lending_market_fee_bps market_params
         (new_pyth supply_feed oracle_program_id) (new_pyth collateral_feed oracle_program_id)) in
    let '(_, ix) := Ixs.create_market_ix create_market (tc_mint supply) (tc_mint collateral)
                      autara_program_id curator (payer_pubkey ctx) in
    let! txid := send ctx [ix] [] in
    update (record_tx ("create_market:" ++ supply_label pair ++ "/" ++ collateral_label pair)
              txid) ;;;
    update (record_market (record true)) ;;;
    st_ret market_pda.

End Steps.

(** ** [main.rs] *)

Section Main.
Context {PC : PdaCrate} {CH : Chain} {BO : BorshCrate} {FX : FixedCrate} {FF : FixedFloats}.
Context {AT : AplToken} {SDK : ArchSdk} {PT : PubkeyText} {WO : World}.

Definition env_flag (env : Env) (key : string) (value : bool) : bool :=
  match env_opt env key with
  | None => value
  | Some v => yes (to_lowercase (trim v))
  end.

Definition sha256_file (path : string) : AnyRes (list Z) :=
  let? bytes := found ("reading ELF at " ++ path) (file path) in Ok (sha256 bytes).

Record Steps : Type := mkSteps {
  step_deploy_program : bool;
  step_deploy_oracle : bool;
  step_init_config : bool;
  step_token_setup : bool;
  step_mint_initial_supply : bool;
  step_create_market : bool }.

Definition steps_of_env (env : Env) : Steps :=
  mkSteps (env_flag env "STEP_DEPLOY_PROGRAM" true) (env_flag env "STEP_DEPLOY_ORACLE" true)
    (env_flag env "STEP_INIT_CONFIG" true) (env_flag env "STEP_TOKEN_SETUP" true)
    (env_flag env "STEP_MINT_INITIAL_SUPPLY" false) (env_flag env "STEP_CREATE_MARKET" true).

Definition touches_lending_program (s : Steps) : bool :=
  step_deploy_program s || step_init_config s || step_token_setup s || step_create_market s.

(** The keys of a run. *)
Record Keys : Type := mkKeys {
  program_kp : Keypair;
  oracle_kp : Keypair;
  deployer_kp : Keypair;
  admin_kp : Keypair }.

Definition load_keys (cfg : DeployConfig) : AnyRes Keys :=
  let? (program, _) := load_keypair (program_key_path cfg) in
  let? (oracle, _) := load_keypair (oracle_key_path cfg) in
  let? (deployer, _) := load_keypair (deployer_key_path cfg) in
  let? (admin, _) := load_keypair (admin_key_path cfg) in
  Ok (mkKeys program oracle deployer admin).

Definition program_pubkey (k : Keys) : Pubkey := x_only_public_key (program_kp k).
Definition oracle_pubkey (k : Keys) : Pubkey := x_only_public_key (oracle_kp k).
Definition deployer_pubkey (k : Keys) : Pubkey := x_only_public_key (deployer_kp k).
Definition admin_default_pubkey (k : Keys) : Pubkey := x_only_public_key (admin_kp k).
Definition admin_of (cfg : DeployConfig) (k : Keys) : Pubkey :=
  default (admin_default_pubkey k) (cfg_admin cfg).
Definition fee_receiver_of (cfg : DeployConfig) (k : Keys) : Pubkey :=
  default (admin_of cfg k) (cfg_fee_receiver cfg).

(** [RpcContext::new(cfg.arch_config()?, keypair, pubkey)] *)
Definition context_of (cfg : DeployConfig) (keypair : Keypair) : RpcContext :=
  mkContext (Network.bitcoin_network (network cfg)) keypair (x_only_public_key keypair).

(** The guards before anything is asked of the network, and the reads that are printed. *)
Definition preflight (dry_run : bool) (cfg : DeployConfig) (k : Keys) (s : Steps) : Deploy () :=
  st_guard (negb (bool_decide (program_pubkey k = id))
            && (negb dry_run && touches_lending_program s))
    (Message "program id mismatch: create_global_config/market would target the wrong PDA") ;;;
  st_guard (negb (match mainnet_safety_violations cfg with [] => true | _ => false end)
            && negb dry_run)
    (Message "refusing a REAL mainnet run: safety check(s) failed") ;;;
  let! _ := rpc_reachable in
  let! _ := balance (deployer_pubkey k) in
  let! _ := balance (admin_of cfg k) in
  let! _ := (if step_deploy_program s then is_executable (program_pubkey k) else st_ret true) in
  let! _ := (if step_deploy_oracle s then is_executable (oracle_pubkey k) else st_ret true) in
  st_ret tt.

Definition new_artifact (cfg : DeployConfig) (k : Keys) : DeploymentArtifact :=
  mkArtifact (Network.as_str (network cfg)) (arch_rpc_url cfg) now_unix (program_pubkey k)
    (oracle_pubkey k) git_short_commit (program_elf_path cfg) None (oracle_elf_path cfg) None
    (deployer_pubkey k) (admin_of cfg k) (fee_receiver_of cfg k) (protocol_fee_share_bps cfg)
    None (tokens cfg) [] [].

Fixpoint repeat_fund (n : nat) (keypair : Keypair) : Deploy () :=
  match n with
  | O => st_ret tt
  | S n => fund_with_faucet keypair ;;; repeat_fund n keypair
  end.

(** The faucet, or the gate of mainnet. *)
Definition fund_accounts (cfg : DeployConfig) (k : Keys) : Deploy () :=
  if use_faucet cfg then repeat_fund 5 (deployer_kp k) ;;; fund_with_faucet (admin_kp k)
  else if bool_decide (network cfg = Network.Mainnet) then
    let! deployer_balance := balance (deployer_pubkey k) in
    let! admin_balance := balance (admin_of cfg k) in
    let deployer_ok := match deployer_balance with
                       | Some b => min_deployer_lamports cfg <=? b
                       | None => false
                       end in
    let admin_ok := match admin_balance with Some b => 0 <? b | None => false end in
    st_guard (negb deployer_ok || negb admin_ok) (Message "Insufficient funds")
  else st_ret tt.

(** A program: uploaded, or only its hash recorded. *)
Definition deploy_step (step : bool) (path : string) (program authority : Keypair)
  (set_sha : option (list Z) -> DeploymentArtifact -> DeploymentArtifact) : Deploy () :=
  if step then
    let! sha := st_lift (sha256_file path) in
    update (set_sha (Some sha)) ;;;
    deploy_program program authority path
  else update (fun a => match file path with Some b => set_sha (Some (sha256 b)) a | None => a end).

Fixpoint repeat_try_fund (n : nat) (keypair : Keypair) : Deploy () :=
  match n with
  | O => st_ret tt
  | S n => let! _ := attempt (fund_with_faucet keypair) in repeat_try_fund n keypair
  end.

Fixpoint mint_supplies (cfg : DeployConfig) (tokens : list TokenConfig) : Deploy () :=
  match tokens with
  | [] => st_ret tt
  | token :: tokens =>
    (if tc_mint_amount token =? 0 then st_ret tt
     else match mint_authority_for cfg token with
          | None => st_ret tt
          | Some authority_path =>
            let! (authority_kp, authority_pubkey) := st_lift (load_keypair authority_path) in
            (if use_faucet cfg then repeat_try_fund 3 authority_kp else st_ret tt) ;;;
            let recipient := default authority_pubkey (mint_recipient cfg) in
            mint_initial_supply (context_of cfg authority_kp) token recipient
          end) ;;;
    mint_supplies cfg tokens
  end.

Fixpoint create_markets (cfg : DeployConfig) (k : Keys) (pairs : list MarketPair) : Deploy () :=
  match pairs with
  | [] => st_ret tt
  | p :: pairs =>
    let! supply := st_lift (found ("market pair supply label '" ++ supply_label p
                                   ++ "' not in TOKENS")
                              (token_by_label cfg (supply_label p))) in
    let! collateral := st_lift (found ("market pair collateral label '" ++ collateral_label p
                                       ++ "' not in TOKENS")
                                  (token_by_label cfg (collateral_label p))) in
    (if bool_decide (pyth_feed_for_label (tc_label supply) = None)
        || bool_decide (pyth_feed_for_label (tc_label collateral) = None) then st_ret tt
     else let! _ := create_market (context_of cfg (admin_kp k)) (program_pubkey k)
                      (oracle_pubkey k) (admin_default_pubkey k) p supply collateral
                      (lending_market_fee_bps cfg) (market_params cfg) 0 in
          st_ret tt) ;;;
    create_markets cfg k pairs
  end.

Definition write_artifact (path : string) : Deploy () :=
  let! a := st_gets artifact in
  let! r := ask (fun t => on_write t path a) (WriteArtifact path a) in
  st_lift r.

(** The run behind the preflight. *)
Definition real_run (cfg : DeployConfig) (k : Keys) (s : Steps) : Deploy () :=
  let ctx := context_of cfg (admin_kp k) in
  update (fun _ => new_artifact cfg k) ;;;
  fund_accounts cfg k ;;;
  deploy_step (step_deploy_program s) (program_elf_path cfg) (program_kp k) (deployer_kp k)
    set_program_sha ;;;
  deploy_step (step_deploy_oracle s) (oracle_elf_path cfg) (oracle_kp k) (deployer_kp k)
    set_oracle_sha ;;;
  (if step_init_config s then
     let! _ := create_global_config ctx (program_pubkey k) (admin_of cfg k)
                 (fee_receiver_of cfg k) (protocol_fee_share_bps cfg) in
     st_ret tt
   else st_ret tt) ;;;
  (if step_token_setup s then ensure_token_mints (tokens cfg) else st_ret tt) ;;;
  (if step_mint_initial_supply s then mint_supplies cfg (tokens cfg) else st_ret tt) ;;;
  (if step_create_market s then create_markets cfg k (effective_market_pairs cfg)
   else st_ret tt) ;;;
  write_artifact (output_path cfg).

Definition deploy_main (cli_dry_run : bool) (env : Env) : Deploy () :=
  let dry_run := cli_dry_run || env_flag env "DRY_RUN" false in
  let! cfg := st_lift (from_env env) in
  let! k := st_lift (load_keys cfg) in
  let s := steps_of_env env in
  preflight dry_run cfg k s ;;;
  if dry_run then st_ret tt else real_run cfg k s.

(** *** Sub-commands *)

Definition resolve_network (explicit : option string) (env : Env) : AnyRes Network.t :=
  Network.from_str (match explicit with
                    | Some s => s
                    | None => default "localnet" (env_opt env "NETWORK")
                    end).

Definition run_check_balance (owner network : option string) (env : Env) : Deploy (option Z) :=
  let! _ := st_lift (resolve_network network env) in
  let! owner := st_lift
    (match owner with
     | Some o => found ("invalid --owner pubkey '" ++ o ++ "'") (pubkey_from_str (trim o))
     | None =>
       let? path := found "--owner not given and ADMIN_KEY_PATH/DEPLOYER_KEY_PATH are unset"
                      (match env_opt env "ADMIN_KEY_PATH" with
                       | Some path => Some path
                       | None => env_opt env "DEPLOYER_KEY_PATH"
                       end) in
       let? (_, pubkey) := load_keypair path in Ok pubkey
     end) in
  balance owner.

Definition run_fund (deployer_rounds admin_rounds : nat) (env : Env) : Deploy () :=
  let! cfg := st_lift (from_env env) in
  st_guard (negb (Network.has_faucet (network cfg)))
    (Message ("network '" ++ Network.as_str (network cfg) ++ "' has no faucet")) ;;;
  let! (deployer_kp, deployer_pubkey) := st_lift (load_keypair (deployer_key_path cfg)) in
  let! (admin_kp, admin_pubkey) := st_lift (load_keypair (admin_key_path cfg)) in
  repeat_fund deployer_rounds deployer_kp ;;;
  repeat_fund admin_rounds admin_kp ;;;
  let! _ := balance deployer_pubkey in
  let! _ := balance admin_pubkey in
  st_ret tt.

End Main.

(** ** [verify.rs] *)

Module Verify.
Section Verify.
Context {PC : PdaCrate} {CH : Chain} {FF : FixedFloats}.
Context {AT : AplToken} {SDK : ArchSdk} {PT : PubkeyText} {WO : World}.

Definition ORACLE_MAX_AGE_SECS : Z := 60.

(** The checks with their names; what is printed beside them is left out. *)
Record Report : Type := mkReport { checks : list (string * bool) }.

Definition record (name : string) (pass : bool) (r : Report) : Report :=
  mkReport (checks r ++ [(name, pass)])%list.

Definition failed (r : Report) : nat := length (filter (fun c => c.2 = false) (checks r)).

Definition decode_pod {T} (p : Pod T) (data : list Z) : option T :=
  if (size_of p <=? length data)%nat then try_from_bytes p (take (size_of p) data) else None.

(** The same for [PythPriceAccount], whose layout is that of the oracle program. *)
Definition decode_feed (data : list Z) : option Feed.PythPriceAccount :=
  if (PYTH_PRICE_ACCOUNT_SIZE <=? length data)%nat
  then Some (account_of (take PYTH_PRICE_ACCOUNT_SIZE data)) else None.

Definition verify_program (program_id : Pubkey) (report : Report) : Deploy Report :=
  let! r := read_account_info program_id in
  st_ret (record "program.executable"
            (match r with Ok info => rm_is_executable info | _ => false end) report).

Definition verify_global_config (program_id expected_admin : Pubkey) (report : Report)
  : Deploy Report :=
  let pda := fst (find_global_config_pda program_id) in
  let! r := read_account_info pda in
  st_ret (record "global_config"
            (match r with
             | Ok info => match decode_pod global_config_pod (rm_data info) with
                          | Some gc => bool_decide (admin gc = expected_admin)
                          | None => false
                          end
             | _ => false
             end) report).

Fixpoint verify_mints (tokens : list TokenConfig) (expect_supply : bool) (report : Report)
  : Deploy Report :=
  match tokens with
  | [] => st_ret report
  | token :: tokens =>
    let! r := read_account_info (tc_mint token) in
    let pass := match r with
                | Ok info =>
                  match unpack_mint (rm_data info) with
                  | Some mint => (ms_decimals mint =? tc_decimals token)
                                 && (negb expect_supply || (tc_mint_amount token <=? ms_supply mint))
                  | None => false
                  end
                | _ => false
                end in
    verify_mints tokens expect_supply (record ("mint." ++ tc_label token) pass report)
  end.

(** [now_unix() - publish_time] *)
Definition age_of {E} (publish_time : Z) : Result E Z :=
  let age := now_unix - publish_time in
  if (I64_MIN <=? age) && (age <=? I64_MAX) then Ok age else Panic.

Definition verify_oracle (oracle_id : Pubkey) (feed_id : list Z) (label leg : string)
  (report : Report) : Deploy Report :=
  let name := "oracle." ++ label ++ "." ++ leg in
  let pda := fst (find_program_address [feed_id] oracle_id) in
  let! r := read_account_info pda in
  match r with
  | Ok info =>
    if negb (bool_decide (rm_owner info = oracle_id)) then st_ret (record name false report)
    else match decode_feed (rm_data info) with
         | Some acc =>
           let! age := st_lift (age_of (pd_publish_time (Feed.price (Feed.pyth_price acc)))) in
           st_ret (record name (age <=? ORACLE_MAX_AGE_SECS) report)
         | None => st_ret (record name false report)
         end
  | _ => st_ret (record name false report)
  end.

(** What the account of a market is compared with. *)
Definition market_matches (params : MarketParams) (curator supply_mint collateral_mint : Pubkey)
  (market : Market) : AnyRes bool :=
  let? want_ltv := i_from_f64 (mp_max_ltv params) in
  Ok (bool_decide (ti_mint (supply_token_info market) = supply_mint)
      && bool_decide (ti_mint (collateral_token_info market) = collateral_mint)
      && (i_bits (max_ltv (ltv_config (config market))) =? i_bits want_ltv)
      && bool_decide (MarketConfig.curator (config market) = curator)).

Fixpoint verify_legs (oracle_id : Pubkey) (legs : list (string * TokenConfig)) (report : Report)
  : Deploy Report :=
  match legs with
  | [] => st_ret report
  | (leg, token) :: legs =>
    let! report :=
      match pyth_feed_for_label (tc_label token) with
      | None => st_ret (record ("oracle." ++ tc_label token ++ "." ++ leg) false report)
      | Some feed_id => verify_oracle oracle_id feed_id (tc_label token) leg report
      end in
    verify_legs oracle_id legs report
  end.

Definition verify_market (cfg : DeployConfig) (program_id oracle_id curator : Pubkey)
  (p : MarketPair) (report : Report) : Deploy Report :=
  let label := "market." ++ supply_label p ++ "/" ++ collateral_label p in
  match token_by_label cfg (supply_label p), token_by_label cfg (collateral_label p) with
  | Some supply, Some collateral =>
    let pda := fst (find_market_pda program_id curator (tc_mint supply) (tc_mint collateral) 0) in
    let! r := read_account_info pda in
    let! pass :=
      match r with
      | Ok info =>
        match decode_pod market_pod (rm_data info) with
        | Some market => st_lift (market_matches (market_params cfg) curator (tc_mint supply)
                                    (tc_mint collateral) market)
        | None => st_ret false
        end
      | _ => st_ret false
      end in
    verify_legs oracle_id [("supply", supply); ("collateral", collateral)]
      (record label pass report)
  | _, _ => st_ret (record label false report)
  end.

Fixpoint verify_markets (cfg : DeployConfig) (program_id oracle_id curator : Pubkey)
  (pairs : list MarketPair) (report : Report) : Deploy Report :=
  match pairs with
  | [] => st_ret report
  | p :: pairs =>
    let! report := verify_market cfg program_id oracle_id curator p report in
    verify_markets cfg program_id oracle_id curator pairs report
  end.

(** A server: what its two methods answer. *)
Record Server : Type := mkServer {
  get_all_market_ids : AnyRes (list string);
  get_market_by_id : string -> AnyRes () }.

Definition verify_server (server : Server) (report : Report) : Report :=
  match get_all_market_ids server with
  | Ok ids =>
    let report := record "server.get_all_market_ids" true report in
    match ids with
    | [] => report
    | first :: _ =>
      record "server.get_market_by_id"
        (match get_market_by_id server first with Ok _ => true | _ => false end) report
    end
  | _ => record "server.get_all_market_ids" false report
  end.

(** The checks of [run], up to its summary. *)
Definition run_checks (cfg : DeployConfig) (server : option Server) (expect_supply : bool)
  : Deploy Report :=
  let! (_, program_id) := st_lift (with_context ("loading program key " ++ program_key_path cfg)
                                    (load_keypair (program_key_path cfg))) in
  let! (_, oracle_id) := st_lift (with_context ("loading oracle key " ++ oracle_key_path cfg)
                                    (load_keypair (oracle_key_path cfg))) in
  let! (_, admin_default) := st_lift (with_context ("loading admin key " ++ admin_key_path cfg)
                                    (load_keypair (admin_key_path cfg))) in
  let admin := default admin_default (cfg_admin cfg) in
  let curator := admin_default in
  let! report := verify_program program_id (mkReport []) in
  let! report := verify_global_config program_id admin report in
  let! report := verify_mints (tokens cfg) expect_supply report in
  let! report := verify_markets cfg program_id oracle_id curator (effective_market_pairs cfg)
                   report in
  st_ret match server with Some s => verify_server s report | None => report end.

Definition run (cfg : DeployConfig) (server : option Server) (expect_supply : bool) : Deploy () :=
  let! report := run_checks cfg server expect_supply in
  st_guard (0 <? failed report)%nat (Message "verify: check(s) FAILED").

End Verify.
End Verify.
