(* ===== verification/DeployFacts.v ===== *)
(** * What a deployment does

    Whatever the world answers, a run of the deploy tool only does what its configuration and
    its guards allow; and on a chain that runs the program, what it says it has created passes
    the verification. *)
From Stdlib Require Import String Ascii SpecFloat.
From stdpp Require Import gmap.
From S2P Require Import Prelude.
From S2P Require Import Text.
From S2P Require Import Errors.
From S2P Require Import Monad.
From S2P Require Import FixedPoint.
From S2P Require Import Pda.
From S2P Require Import Oracle.
From S2P Require Import GlobalConfig.
From S2P Require Import MarketConfig.
From S2P Require Import Market.
From S2P Require Import Accounts.
From S2P Require Import Events.
From S2P Require Import ProcessorAdmin.
From S2P Require Import Program.
From S2P Require Import Borsh.
From S2P Require Import InstructionCodec.
From S2P Require Import IxBuilders.
From S2P Require Import Layout.
From S2P Require Import TxBuilder.
From S2P Require Import RpcExt.
From S2P Require Import FullClient.
From S2P Require Import PythPusher.
From S2P Require Import DeployConfig.
From S2P Require Import Deploy.

(** ** Traces with a rule *)

Section Logic.
Context {SDK : ArchSdk} {WO : World}.
Variable rule : Trace -> Event -> Prop.

(** Every event of a trace follows the rule, given what happened before it. *)
Definition lawful (t : Trace) : Prop :=
  forall pre e post, t = pre ++ e :: post -> rule pre e.

Lemma lawful_nil : lawful [].
Proof. intros pre e post H. by destruct pre. Qed.

Lemma lawful_snoc t e : lawful t -> rule t e -> lawful (t ++ [e]).
Proof.
  intros Ht He pre e' post H. destruct post as [| x post] using rev_ind.
  - by apply app_inj_tail in H as [-> ->].
  - rewrite app_comm_cons, app_assoc in H. apply app_inj_tail in H as [-> _]. by eapply Ht.
Qed.

Definition extends (t t' : Trace) : Prop := exists l, t' = t ++ l.

Lemma extends_refl t : extends t t.
Proof. exists []. by rewrite app_nil_r. Qed.

Lemma extends_trans t t' t'' : extends t t' -> extends t' t'' -> extends t t''.
Proof. intros [l ->] [l' ->]. exists (l ++ l'). by rewrite app_assoc. Qed.

#[local] Hint Resolve extends_refl : core.

(** From lawful traces with [pre], a computation extends the trace lawfully; with a result
    [post] holds. *)
Definition triple {A} (pre : Trace -> Prop) (m : Deploy A) (post : A -> Trace -> Prop) : Prop :=
  forall s, lawful (trace s) -> pre (trace s) ->
  lawful (trace (snd (m s))) /\ extends (trace s) (trace (snd (m s))) /\
  match fst (m s) with Ok a => post a (trace (snd (m s))) | _ => True end.

(** What stays true whatever else happens. *)
Definition persistent (P : Trace -> Prop) : Prop := forall t e, P t -> P (t ++ [e]).

Lemma persistent_prefix P t t' : persistent P -> extends t t' -> P t -> P t'.
Proof.
  intros HP [l ->]. revert t. induction l as [| e l IH]; intros t Ht; [by rewrite app_nil_r |].
  rewrite (cons_middle e t l), app_assoc. apply IH. by apply HP.
Qed.

Lemma dp_ret {A} (P : Trace -> Prop) (a : A) : triple P (st_ret a) (fun x t => P t /\ x = a).
Proof. by intros s Hl Hp. Qed.

Lemma dp_bind {A B} P (Q : A -> Trace -> Prop) (R : B -> Trace -> Prop) m k :
  triple P m Q -> (forall a, triple (Q a) (k a) R) -> triple P (st_bind m k) R.
Proof.
  intros Hm Hk s Hl Hp. destruct (Hm s Hl Hp) as (Hl' & Hx & Hq). unfold st_bind.
  destruct (m s) as [[a | e |] s']; cbn in *; [| done..].
  destruct (Hk a s' Hl' Hq) as (? & ? & ?). split_and!; [done | by eapply extends_trans | done].
Qed.

Lemma dp_weaken {A} (P P' : Trace -> Prop) (Q Q' : A -> Trace -> Prop) m :
  triple P m Q -> (forall t, P' t -> P t) -> (forall a t, Q a t -> Q' a t) -> triple P' m Q'.
Proof.
  intros H HP HQ s Hl Hp. destruct (H s Hl (HP _ Hp)) as (? & ? & Hq). split_and!; [done.. |].
  destruct (fst (m s)); auto.
Qed.

Lemma dp_frame {A} F (P : Trace -> Prop) (Q : A -> Trace -> Prop) m :
  persistent F -> triple P m Q -> triple (fun t => F t /\ P t) m (fun a t => F t /\ Q a t).
Proof.
  intros HF H s Hl [Hf Hp]. destruct (H s Hl Hp) as (? & ? & Hq). split_and!; [done.. |].
  destruct (fst (m s)); [| done..]. split; [by eapply persistent_prefix | done].
Qed.

Lemma dp_lift {A} (P : Trace -> Prop) (r : AnyRes A) :
  triple P (st_lift r) (fun a t => P t /\ r = Ok a).
Proof. intros s Hl Hp. cbn. by destruct r. Qed.

Lemma dp_guard (P : Trace -> Prop) b e :
  triple P (st_guard b e) (fun _ t => P t /\ b = false).
Proof. intros s Hl Hp. unfold st_guard. by destruct b. Qed.

Lemma dp_update (P : Trace -> Prop) f : triple P (update f) (fun _ t => P t).
Proof. by intros s Hl Hp. Qed.

Lemma dp_raise {A} (P : Trace -> Prop) e (Q : A -> Trace -> Prop) : triple P (st_raise e) Q.
Proof. by intros s Hl Hp. Qed.

Lemma dp_ask {E A} (P : Trace -> Prop) (answer : Trace -> Result E A) event :
  persistent P -> (forall t r, P t -> rule t (event r)) ->
  triple P (ask answer event) (fun r t => P t /\ event r ∈ t).
Proof.
  intros HP He s Hl Hp. cbn. split_and!; [by apply lawful_snoc; auto | by eexists | by apply HP |].
  apply elem_of_app. right. by apply list_elem_of_singleton.
Qed.

Lemma dp_attempt {A} (P : Trace -> Prop) (m : Deploy A) (Q : A -> Trace -> Prop) :
  persistent P -> triple P m Q ->
  triple P (attempt m) (fun r t => P t /\ forall a, r = Ok a -> Q a t).
Proof.
  intros HP Hm s Hl Hp. destruct (Hm s Hl Hp) as (Hl' & Hx & Hq).
  assert (P (trace (snd (m s)))) by (by eapply persistent_prefix).
  unfold attempt. destruct (m s) as [[] s']; cbn in *; naive_solver.
Qed.

(** The same rules in front of a continuation. *)
Lemma dp_lifted {A B} P (r : AnyRes A) k (Q : B -> Trace -> Prop) :
  (forall a, r = Ok a -> triple P (k a) Q) -> triple P (st_bind (st_lift r) k) Q.
Proof.
  intros H s Hl Hp. unfold st_bind, st_lift. destruct r as [a | |]; [by apply H | done..].
Qed.

Lemma dp_checked {B} P b e (k : Deploy B) Q :
  (b = false -> triple P k Q) -> triple P (st_guard b e ;;; k) Q.
Proof.
  intros H s Hl Hp. unfold st_bind, st_guard. destruct b; [done | by apply H].
Qed.

Lemma dp_asked {E A B} P (answer : Trace -> Result E A) event k (Q : B -> Trace -> Prop) :
  persistent P -> (forall t r, P t -> rule t (event r)) ->
  (forall r, triple (fun t => P t /\ event r ∈ t) (k r) Q) ->
  triple P (st_bind (ask answer event) k) Q.
Proof. intros HP He Hk. eapply dp_bind; [by apply dp_ask | done]. Qed.

Lemma dp_updated {B} P f (k : Deploy B) Q : triple P k Q -> triple P (update f ;;; k) Q.
Proof. intros Hk. eapply dp_bind; [apply dp_update | done]. Qed.

Lemma dp_got {A B} P (f : Session -> A) (k : A -> Deploy B) Q :
  (forall a, triple P (k a) Q) -> triple P (st_bind (st_gets f) k) Q.
Proof. intros Hk s Hl Hp. by apply Hk. Qed.

Lemma dp_return {A} (P : Trace -> Prop) (Q : A -> Trace -> Prop) a :
  (forall t, P t -> Q a t) -> triple P (st_ret a) Q.
Proof. intros H. eapply dp_weaken; [apply (dp_ret P) | done |]. intros ? t [? ->]. auto. Qed.

Lemma dp_pre {A} (P P' : Trace -> Prop) (Q : A -> Trace -> Prop) m :
  (forall t, P' t -> P t) -> triple P m Q -> triple P' m Q.
Proof. intros H Hm. by eapply dp_weaken. Qed.

Lemma dp_pure {A} (F : Prop) P (m : Deploy A) Q :
  (F -> triple P m Q) -> triple (fun t => P t /\ F) m Q.
Proof. intros H s Hl [Hp Hf]. by apply H. Qed.

Lemma dp_if {A} (b : bool) P (m1 m2 : Deploy A) Q :
  (b = true -> triple P m1 Q) -> (b = false -> triple P m2 Q) ->
  triple P (if b then m1 else m2) Q.
Proof. destruct b; auto. Qed.

End Logic.

(** ** The rule of a run *)

Section Guards.
Context {PC : PdaCrate} {CH : Chain} {BO : BorshCrate} {FX : FixedCrate} {FF : FixedFloats}.
Context {AT : AplToken} {SDK : ArchSdk} {PT : PubkeyText} {WO : World}.
Variables (cfg : DeployConfig) (k : Keys) (st : Steps) (dry : bool).

(** An account was read, and is such; an account was looked for and not found. *)
Definition seen (key : Pubkey) (P : RemoteAccount -> Prop) (t : Trace) : Prop :=
  exists a, Read key (Ok a) ∈ t /\ P a.
Definition missed (key : Pubkey) (t : Trace) : Prop :=
  exists r, Read key r ∈ t /\ forall a, r <> Ok a.

(** The guards have let the run pass: it is a real one, the program is the one that the client was compiled for,
    and on mainnet no token is a placeholder and both accounts are funded. *)
Definition cleared (t : Trace) : Prop :=
  dry = false /\
  (touches_lending_program st = true -> program_pubkey k = id) /\
  (network cfg = Network.Mainnet ->
     (forall token h, token ∈ tokens cfg -> h ∈ PLACEHOLDER_MINT_HEXES ->
        pubkey_from_str h <> Some (tc_mint token)) /\
     seen (deployer_pubkey k) (fun a => min_deployer_lamports cfg <= rm_lamports a)%Z t /\
     seen (admin_of cfg k) (fun a => 0 < rm_lamports a)%Z t).

(** The key is that of a mint authority of the configuration, and the mint was read: it has the
    decimals of the configuration and this authority. *)
Definition mintable (authority : Keypair) (token : TokenConfig) (t : Trace) : Prop :=
  (exists path, mint_authority_for cfg token = Some path /\ key_file path = Ok authority) /\
  seen (tc_mint token) (fun a => exists m, unpack_mint (rm_data a) = Some m /\
    ms_decimals m = tc_decimals token /\
    ms_mint_authority m = Some (x_only_public_key authority)) t.

Definition recipient_of (authority : Keypair) : Pubkey :=
  default (x_only_public_key authority) (mint_recipient cfg).

(** The transactions that the configuration asks for, with the key that pays and signs. *)
Inductive planned (t : Trace) : Keypair -> Transaction -> Prop :=
| plan_config :
    step_init_config st = true ->
    planned t (admin_kp k)
      [snd (Ixs.create_global_config_ix (program_pubkey k) (admin_default_pubkey k)
              (admin_of cfg k) (fee_receiver_of cfg k) (protocol_fee_share_bps cfg))]
| plan_market p supply collateral supply_feed collateral_feed ci :
    step_create_market st = true -> p ∈ effective_market_pairs cfg ->
    token_by_label cfg (supply_label p) = Some supply ->
    token_by_label cfg (collateral_label p) = Some collateral ->
    pyth_feed_for_label (tc_label supply) = Some supply_feed ->
    pyth_feed_for_label (tc_label collateral) = Some collateral_feed ->
    build_create_market_instruction (E := Anyhow) 0 (lending_market_fee_bps cfg)
      (market_params cfg) (new_pyth supply_feed (oracle_pubkey k))
      (new_pyth collateral_feed (oracle_pubkey k)) = Ok ci ->
    missed (derive_market_pda (program_pubkey k) (admin_default_pubkey k) supply collateral 0) t ->
    planned t (admin_kp k)
      [snd (Ixs.create_market_ix ci (tc_mint supply) (tc_mint collateral) (program_pubkey k)
              (admin_default_pubkey k) (admin_default_pubkey k))]
| plan_ata authority token :
    step_mint_initial_supply st = true -> token ∈ tokens cfg -> mintable authority token t ->
    planned t authority
      [Ixs.create_ata_ix (x_only_public_key authority)
         (Some (get_associated_token_address (recipient_of authority) (tc_mint token)))
         (recipient_of authority) (tc_mint token)]
| plan_mint authority token ix :
    step_mint_initial_supply st = true -> token ∈ tokens cfg -> mintable authority token t ->
    mint_to (tc_mint token)
      (get_associated_token_address (recipient_of authority) (tc_mint token))
      (x_only_public_key authority) (tc_mint_amount token) = Some ix ->
    planned t authority [ix].

(** What a run may do after what it has seen. *)
Definition allowed (t : Trace) (e : Event) : Prop :=
  match e with
  | Read _ _ | BestHash _ => True
  | Airdrop _ _ => dry = false /\ use_faucet cfg = true
  | Send tx _ =>
    cleared t /\ exists authority ixs hash,
      build_and_sign_transaction (mkMessage ixs (x_only_public_key authority) hash) [authority]
        (Network.bitcoin_network (network cfg)) = Ok tx /\ planned t authority ixs
  | Upload program authority path _ =>
    cleared t /\ authority = deployer_kp k /\
    (step_deploy_program st = true /\ program = program_kp k /\ path = program_elf_path cfg \/
     step_deploy_oracle st = true /\ program = oracle_kp k /\ path = oracle_elf_path cfg)
  | Wait _ _ | WriteArtifact _ _ _ => cleared t
  end.

Lemma elem_of_snoc (x e : Event) t : x ∈ t -> x ∈ t ++ [e].
Proof. intros H. apply elem_of_app. by left. Qed.

Lemma seen_persistent key P : persistent (seen key P).
Proof. intros t e (a & ? & ?). exists a. split; [by apply elem_of_snoc | done]. Qed.

Lemma missed_persistent key : persistent (missed key).
Proof. intros t e (r & ? & ?). exists r. split; [by apply elem_of_snoc | done]. Qed.

Lemma cleared_persistent : persistent cleared.
Proof.
  intros t e (? & ? & H). split_and!; [done.. |]. intros Hn. destruct (H Hn) as (? & ? & ?).
  split_and!; [done | by apply seen_persistent..].
Qed.

Lemma mintable_persistent authority token : persistent (mintable authority token).
Proof. intros t e [? ?]. split; [done | by apply seen_persistent]. Qed.

Lemma planned_persistent authority ixs : persistent (fun t => planned t authority ixs).
Proof.
  intros t e H. destruct H; [by apply plan_config | eapply plan_market; eauto | |];
    [by apply missed_persistent | apply plan_ata | eapply plan_mint]; eauto;
    by apply mintable_persistent.
Qed.

Lemma and_persistent P Q : persistent P -> persistent Q -> persistent (fun t => P t /\ Q t).
Proof. intros HP HQ t e [? ?]. split; [by apply HP | by apply HQ]. Qed.

Lemma pure_persistent (P : Prop) : persistent (fun _ => P).
Proof. by intros t e. Qed.

End Guards.

#[export] Hint Resolve seen_persistent missed_persistent cleared_persistent mintable_persistent
  planned_persistent and_persistent pure_persistent : persist.

(** ** The operations follow the rule *)

Section Ops.
Context {PC : PdaCrate} {CH : Chain} {BO : BorshCrate} {FX : FixedCrate} {FF : FixedFloats}.
Context {AT : AplToken} {SDK : ArchSdk} {PT : PubkeyText} {WO : World}.
Variables (cfg : DeployConfig) (k : Keys) (st : Steps) (dry : bool).
Notation triple := (triple (allowed cfg k st dry)).
Notation cleared := (cleared cfg k st dry).
Notation planned := (planned cfg k st).

Lemma dp_read {B} P key h (Q : B -> Trace -> Prop) :
  persistent P -> (forall r, triple (fun t => P t /\ Read key r ∈ t) (h r) Q) ->
  triple P (st_bind (read_account_info key) h) Q.
Proof. intros HP. by apply dp_asked. Qed.

Lemma dp_hash {B} P h (Q : B -> Trace -> Prop) :
  persistent P -> (forall r, triple P (h r) Q) -> triple P (st_bind rpc_reachable h) Q.
Proof.
  intros HP Hh. apply dp_asked; [done | done |]. intros r. eapply dp_pre; [| apply Hh].
  by intros t [? _].
Qed.

Lemma dp_balance P key :
  persistent P ->
  triple P (balance key) (fun b t => P t /\
    forall n, b = Some n -> seen key (fun a => rm_lamports a = n) t).
Proof.
  intros HP. apply dp_read; [done |]. intros r. apply dp_return. intros t [? H]. split; [done |].
  intros n. destruct r as [info | |]; [| done..]. intros [= <-]. by exists info.
Qed.

Lemma dp_exists P key :
  persistent P -> triple P (account_exists key) (fun b t => P t /\ (b = false -> missed key t)).
Proof.
  intros HP. apply dp_read; [done |]. intros r. apply dp_return. intros t [? H]. split; [done |].
  destruct r; [done | |]; intros _; by eexists.
Qed.

Lemma dp_executable P key : persistent P -> triple P (is_executable key) (fun _ => P).
Proof.
  intros HP. apply dp_read; [done |]. intros r. apply dp_return. by intros t [? _].
Qed.

Lemma dp_fund P keypair :
  persistent P -> dry = false -> use_faucet cfg = true ->
  triple P (fund_with_faucet keypair) (fun _ => P).
Proof.
  intros HP Hd Hf. apply dp_asked; [done | done |]. intros r.
  eapply dp_weaken; [apply dp_lift | intros t H; exact H |]. by intros ? t [[? _] _].
Qed.

Lemma dp_send P keypair ixs :
  persistent P -> (forall t, P t -> cleared t /\ planned t keypair ixs) ->
  triple P (send (context_of cfg keypair) ixs []) (fun _ => P).
Proof.
  intros HP Hc. unfold send. apply dp_hash; [done |]. intros r. apply dp_lifted. intros hash Hh.
  apply dp_lifted. intros tx Htx. cbn [context_of ctx_network payer payer_pubkey app] in Htx.
  apply dp_asked; [done | |].
  { intros t r' Hp. destruct (Hc t Hp). split; [done |]. exists keypair, ixs, hash.
    split; [| done].
    by destruct (build_and_sign_transaction _ _ _); cbn in Htx; [congruence | done..]. }
  intros r'. apply dp_lifted. intros txids _. apply dp_lifted. intros txid _.
  eapply dp_pre; [intros t [Ht _]; exact Ht |]. apply dp_asked; [done | |].
  { intros t ? Hp. apply (Hc t Hp). }
  intros r''. apply dp_lifted. intros ps _. apply dp_lifted. intros p _.
  destruct (pt_status p); [apply dp_raise | apply dp_return; by intros t [? _] | apply dp_raise].
Qed.

Lemma dp_upload P program path :
  persistent P -> (forall t, P t -> cleared t) ->
  (step_deploy_program st = true /\ program = program_kp k /\ path = program_elf_path cfg \/
   step_deploy_oracle st = true /\ program = oracle_kp k /\ path = oracle_elf_path cfg) ->
  triple P (deploy_program program (deployer_kp k) path) (fun _ => P).
Proof.
  intros HP Hc Hu. apply dp_asked; [done | by intros t r Ht; split; auto |]. intros r.
  assert (Hd : forall t, P t /\ Upload program (deployer_kp k) path r ∈ t -> P t)
    by (by intros t [? _]).
  destruct r as [[] | msg |]; [by apply dp_return | |].
  - apply dp_if; intros _; [by apply dp_return | apply dp_raise].
  - by intros s Hl Hp.
Qed.

Lemma dp_attempted {A B} P (m : Deploy A) (h : AnyRes A -> Deploy B) Q :
  persistent P -> triple P m (fun _ => P) -> (forall r, triple P (h r) Q) ->
  triple P (st_bind (attempt m) h) Q.
Proof.
  intros HP Hm Hh. eapply dp_bind; [by apply dp_attempt |]. intros r.
  eapply dp_pre; [| apply Hh]. by intros t [? _].
Qed.

Lemma dp_create_global_config P :
  persistent P -> (forall t, P t -> cleared t) -> step_init_config st = true ->
  triple P (create_global_config (context_of cfg (admin_kp k)) (program_pubkey k)
              (admin_of cfg k) (fee_receiver_of cfg k) (protocol_fee_share_bps cfg)) (fun _ => P).
Proof.
  intros HP Hc Hs. unfold create_global_config.
  pose proof (fun t => plan_config cfg k st t Hs) as Hplan.
  cbn [context_of payer_pubkey]. fold (admin_default_pubkey k).
  destruct (Ixs.create_global_config_ix _ _ _ _ _) as [pda ix]. cbn [snd] in Hplan.
  apply dp_attempted; [done | apply dp_send; [done | by auto] |]. intros r.
  eapply dp_bind with (Q := fun _ => P).
  - destruct r as [txid | e |]; [apply dp_update | | by intros s Hl Hp].
    apply dp_if; intros _; [by apply dp_return | apply dp_raise].
  - intros _. apply dp_updated. by apply dp_return.
Qed.

Lemma dp_ensure_token_mints P l : persistent P -> triple P (ensure_token_mints l) (fun _ => P).
Proof.
  intros HP. induction l as [| token l IH]; cbn [ensure_token_mints]; [by apply dp_return |].
  eapply dp_bind; [by apply dp_exists |]. intros b. apply dp_checked. intros _.
  eapply dp_pre; [| exact IH]. by intros t [? _].
Qed.

Lemma dp_check_mint P authority path token :
  persistent P -> mint_authority_for cfg token = Some path -> key_file path = Ok authority ->
  triple P (check_mint (x_only_public_key authority) token)
    (fun _ t => P t /\ mintable cfg authority token t).
Proof.
  intros HP Hm Hk. apply dp_read; [done |]. intros r. apply dp_lifted. intros info Hi.
  apply dp_lifted. intros m Hu. apply dp_checked. intros Hd.
  destruct (ms_mint_authority m) as [on_chain |] eqn:Ha; [| apply dp_raise].
  eapply dp_weaken; [apply dp_guard | intros t Ht; exact Ht |]. intros _ t [[? Hin] He].
  split; [done |]. split; [by exists path |].
  destruct r as [a | |]; [| done..]. injection Hi as ->. exists info. split; [done |]. exists m.
  bool_prop. subst on_chain. split_and!; [by destruct (unpack_mint _); cbn in Hu; congruence | lia
    | done].
Qed.

Lemma dp_mint_initial_supply P authority path token :
  persistent P -> (forall t, P t -> cleared t) -> step_mint_initial_supply st = true ->
  token ∈ tokens cfg ->
  mint_authority_for cfg token = Some path -> key_file path = Ok authority ->
  triple P (mint_initial_supply (context_of cfg authority) token (recipient_of cfg authority))
    (fun _ => P).
Proof.
  intros HP Hc Hs Ht Hm Hk. unfold mint_initial_supply. cbn [context_of payer_pubkey].
  set (I := fun t => P t /\ mintable cfg authority token t).
  assert (HI : persistent I) by (subst I; eauto with persist).
  eapply dp_bind with (Q := fun _ => I); [by eapply dp_check_mint | intros _].
  apply dp_read; [done |]. intros r. set (bal := match r with Ok _ => _ | _ => _ end).
  eapply dp_pre; [intros t [H _]; exact H |].
  apply dp_if; [intros _; apply dp_return; by intros t [? _] | intros _].
  eapply dp_bind with (Q := fun _ => I).
  - destruct bal; [by apply dp_return |].
    apply dp_attempted; [done | |].
    + apply dp_send; [done |]. intros t [? ?]. split; [auto | by apply plan_ata].
    + intros r'. apply dp_lifted. intros txid _. apply dp_update.
  - intros _. apply dp_lifted. intros ix Hix. apply dp_attempted; [done | |].
    + apply dp_send; [done |]. intros t [? ?]. split; [auto |]. eapply plan_mint; [done..|].
      by destruct (mint_to _ _ _ _); cbn in Hix; congruence.
    + intros r'. apply dp_lifted. intros txid _. eapply dp_weaken; [apply dp_update | done |].
      by intros _ t [? _].
Qed.

Lemma found_ok {A} m (o : option A) a : found m o = Ok a -> o = Some a.
Proof. by destruct o; cbn; [intros [= ->] |]. Qed.

Lemma dp_create_market P p supply collateral :
  persistent P -> (forall t, P t -> cleared t) -> step_create_market st = true ->
  p ∈ effective_market_pairs cfg ->
  token_by_label cfg (supply_label p) = Some supply ->
  token_by_label cfg (collateral_label p) = Some collateral ->
  triple P (create_market (context_of cfg (admin_kp k)) (program_pubkey k) (oracle_pubkey k)
              (admin_default_pubkey k) p supply collateral (lending_market_fee_bps cfg)
              (market_params cfg) 0) (fun _ => P).
Proof.
  intros HP Hc Hs Hp H1 H2. unfold create_market.
  apply dp_lifted. intros f1 Hf1%found_ok. apply dp_lifted. intros f2 Hf2%found_ok.
  eapply dp_bind; [by apply dp_exists |]. intros b. apply dp_if; intros Hb.
  { apply dp_updated, dp_return. by intros t [? _]. }
  apply dp_lifted. intros ci Hci. cbn [context_of payer_pubkey]. fold (admin_default_pubkey k).
  pose proof (fun t => plan_market cfg k st t p supply collateral f1 f2 ci Hs Hp H1 H2 Hf1 Hf2 Hci)
    as Hplan.
  destruct (Ixs.create_market_ix _ _ _ _ _ _) as [pda ix]. cbn [snd] in Hplan.
  set (key := derive_market_pda _ _ _ _ _) in *.
  eapply dp_pre with (P := fun t => P t /\ missed key t); [naive_solver |].
  eapply dp_bind; [apply dp_send; [eauto with persist | by intros t [? ?]; auto] |].
  intros txid. do 2 apply dp_updated. apply dp_return. by intros t [? _].
Qed.

Lemma dp_repeat_fund P n keypair :
  persistent P -> dry = false -> use_faucet cfg = true ->
  triple P (repeat_fund n keypair) (fun _ => P).
Proof.
  intros HP Hd Hf. induction n as [| n IH]; cbn [repeat_fund]; [by apply dp_return |].
  eapply dp_bind; [by apply dp_fund | done].
Qed.

Lemma dp_repeat_try_fund P n keypair :
  persistent P -> dry = false -> use_faucet cfg = true ->
  triple P (repeat_try_fund n keypair) (fun _ => P).
Proof.
  intros HP Hd Hf. induction n as [| n IH]; cbn [repeat_try_fund]; [by apply dp_return |].
  apply dp_attempted; [done | by apply dp_fund | done].
Qed.

(** What the guards before the first request have found. *)
Definition ready : Prop :=
  dry = false ->
  (touches_lending_program st = true -> program_pubkey k = id) /\
  (network cfg = Network.Mainnet ->
     forall token h, token ∈ tokens cfg -> h ∈ PLACEHOLDER_MINT_HEXES ->
       pubkey_from_str h <> Some (tc_mint token)).

Lemma no_violations :
  mainnet_safety_violations cfg = [] -> network cfg = Network.Mainnet ->
  forall token h, token ∈ tokens cfg -> h ∈ PLACEHOLDER_MINT_HEXES ->
    pubkey_from_str h <> Some (tc_mint token).
Proof.
  unfold mainnet_safety_violations. intros H Hn token h Ht Hh He.
  rewrite bool_decide_false in H by (by intros []). apply app_eq_nil in H as [_ H].
  assert (PlaceholderMint (tc_label token) (tc_mint token) ∈ @nil Violation) as Hv; [| set_solver].
  rewrite <- H. apply list_elem_of_omap. exists token. split; [done |].
  rewrite bool_decide_true; [done |]. apply list_elem_of_omap. eauto.
Qed.

Lemma dp_preflight P :
  persistent P -> triple P (preflight dry cfg k st) (fun _ t => P t /\ ready).
Proof.
  intros HP. unfold preflight. apply dp_checked. intros H1. apply dp_checked. intros H2.
  assert (Hr : ready).
  { intros Hd. rewrite Hd in *. cbn in H1, H2. split.
    - intros Ht. rewrite Ht in H1. by destruct (bool_decide_reflect (program_pubkey k = id)).
    - apply no_violations. by destruct (mainnet_safety_violations cfg). }
  apply dp_hash; [done |]. intros _.
  eapply dp_bind; [by apply dp_balance |]. intros b1. eapply dp_pre; [intros t [H _]; exact H |].
  eapply dp_bind; [by apply dp_balance |]. intros b2. eapply dp_pre; [intros t [H _]; exact H |].
  eapply dp_bind with (Q := fun _ => P); [apply dp_if; intros _; [by apply dp_executable | by apply dp_return] |].
  intros _.
  eapply dp_bind with (Q := fun _ => P); [apply dp_if; intros _; [by apply dp_executable | by apply dp_return] |].
  intros _. by apply dp_return.
Qed.

Lemma dp_fund_accounts :
  dry = false -> ready -> (network cfg = Network.Mainnet -> use_faucet cfg = false) ->
  triple (fun _ => True) (fund_accounts cfg k) (fun _ => cleared).
Proof.
  intros Hd Hr Hm. destruct (Hr Hd) as [H1 H2].
  assert (Hc : forall t, network cfg <> Network.Mainnet -> cleared t) by (intros t ?; by split_and!).
  unfold fund_accounts. apply dp_if; intros Hf.
  - assert (network cfg <> Network.Mainnet) by (intros ?%Hm; congruence).
    eapply dp_bind with (Q := fun _ _ => True); [by apply dp_repeat_fund |]. intros _.
    eapply dp_weaken; [by apply (dp_fund (fun _ => True)) | done | auto].
  - apply dp_if; intros Hn; bool_prop; [| by apply dp_return; auto].
    eapply dp_bind; [by apply dp_balance |]. intros b1.
    eapply dp_bind; [apply dp_balance |]; [| intros b2].
    { destruct b1; [| by intros ? ? [_ _]]. intros t e [_ H]. split; [done |]. intros n Hn'.
      apply seen_persistent. by apply H. }
    eapply dp_weaken; [apply dp_guard | intros t H; exact H |]. intros _ t [[[_ S1] S2] Hg].
    split_and!; [done.. |]. intros _. destruct b1 as [n1 |], b2 as [n2 |];
      cbn in Hg; rewrite ?orb_true_r in Hg; [| done..].
    bool_prop. split_and!; [by apply H2 | |].
    + destruct (S1 _ eq_refl) as (a & ? & <-). exists a. split; [done | lia].
    + destruct (S2 _ eq_refl) as (a & ? & <-). exists a. split; [done | lia].
Qed.

Lemma dp_deploy_step P (b : bool) path program set_sha :
  persistent P -> (forall t, P t -> cleared t) ->
  (b = true ->
   step_deploy_program st = true /\ program = program_kp k /\ path = program_elf_path cfg \/
   step_deploy_oracle st = true /\ program = oracle_kp k /\ path = oracle_elf_path cfg) ->
  triple P (deploy_step b path program (deployer_kp k) set_sha) (fun _ => P).
Proof.
  intros HP Hc Hu. apply dp_if; intros Hb; [| apply dp_update].
  apply dp_lifted. intros sha _. apply dp_updated. by apply dp_upload; auto.
Qed.

Lemma dp_mint_supplies P l :
  persistent P -> (forall t, P t -> cleared t) -> step_mint_initial_supply st = true ->
  dry = false -> l ⊆ tokens cfg -> triple P (mint_supplies cfg l) (fun _ => P).
Proof.
  intros HP Hc Hs Hd. induction l as [| token l IH]; intros Hl; cbn [mint_supplies];
    [by apply dp_return |].
  eapply dp_bind with (Q := fun _ => P); [| intros _; apply IH; set_solver].
  apply dp_if; intros _; [by apply dp_return |].
  destruct (mint_authority_for cfg token) as [path |] eqn:Em; [| by apply dp_return].
  apply dp_lifted. intros [kp pk] Hk. unfold load_keypair in Hk.
  apply res_bind_ok in Hk as (kp' & Hk & [= -> <-]).
  assert (key_file path = Ok kp) by (by destruct (key_file path); cbn in Hk; congruence).
  eapply dp_bind with (Q := fun _ => P).
  - apply dp_if; intros Hf; [by apply dp_repeat_try_fund | by apply dp_return].
  - intros _. fold (recipient_of cfg kp). eapply dp_mint_initial_supply; eauto; set_solver.
Qed.

Lemma dp_create_markets P l :
  persistent P -> (forall t, P t -> cleared t) -> step_create_market st = true ->
  l ⊆ effective_market_pairs cfg -> triple P (create_markets cfg k l) (fun _ => P).
Proof.
  intros HP Hc Hs. induction l as [| p l IH]; intros Hl; cbn [create_markets];
    [by apply dp_return |].
  apply dp_lifted. intros supply H1%found_ok. apply dp_lifted. intros collateral H2%found_ok.
  eapply dp_bind with (Q := fun _ => P); [| intros _; apply IH; set_solver].
  apply dp_if; intros _; [by apply dp_return |].
  eapply dp_bind with (Q := fun _ => P); [eapply dp_create_market; eauto; set_solver |].
  intros _. by apply dp_return.
Qed.

Lemma dp_real_run :
  dry = false -> ready -> (network cfg = Network.Mainnet -> use_faucet cfg = false) ->
  triple (fun _ => True) (real_run cfg k st) (fun _ => cleared).
Proof.
  intros Hd Hr Hm. unfold real_run. apply dp_updated.
  eapply dp_bind with (Q := fun _ => cleared); [by apply dp_fund_accounts | intros _].
  pose proof (cleared_persistent cfg k st dry) as HP.
  eapply dp_bind with (Q := fun _ => cleared); [apply dp_deploy_step; auto | intros _].
  eapply dp_bind with (Q := fun _ => cleared); [apply dp_deploy_step; auto | intros _].
  eapply dp_bind with (Q := fun _ => cleared); [apply dp_if; intros Hs; [| by apply dp_return] |
    intros _].
  { eapply dp_bind with (Q := fun _ => cleared);
      [by apply dp_create_global_config | intros _; by apply dp_return]. }
  eapply dp_bind with (Q := fun _ => cleared); [apply dp_if; intros Hs; [by apply dp_ensure_token_mints | by apply dp_return] |
    intros _].
  eapply dp_bind with (Q := fun _ => cleared); [apply dp_if; intros Hs; [by apply dp_mint_supplies | by apply dp_return] |
    intros _].
  eapply dp_bind with (Q := fun _ => cleared); [apply dp_if; intros Hs; [by apply dp_create_markets | by apply dp_return] |
    intros _].
  unfold write_artifact. apply dp_got. intros a. apply dp_asked; [done | done |]. intros r.
  eapply dp_weaken; [apply dp_lift | intros t H; exact H |]. by intros _ t [[? _] _].
Qed.

End Ops.

(** ** Runs are guarded *)

Definition read_only {SDK : ArchSdk} (e : Event) : Prop :=
  match e with Read _ _ | BestHash _ => True | _ => False end.
Definition no_airdrop {SDK : ArchSdk} (e : Event) : Prop :=
  match e with Airdrop _ _ => False | _ => True end.

Lemma from_env_no_faucet {PT : PubkeyText} env cfg :
  from_env env = Ok cfg -> network cfg = Network.Mainnet -> use_faucet cfg = false.
Proof.
  unfold from_env. intros H Hn.
  repeat match type of H with
  | res_bind _ _ = Ok _ => let a := fresh "a" in let E := fresh "E" in
      apply res_bind_ok in H as (a & E & H)
  end.
  injection H as <-. cbn in Hn |- *. subst.
  match goal with E : (if bool_decide (?n = ?n) then _ else _) = _ |- _ =>
    rewrite bool_decide_true in E by done; by injection E as <- end.
Qed.

Section Runs.
Context {PC : PdaCrate} {CH : Chain} {BO : BorshCrate} {FX : FixedCrate} {FF : FixedFloats}.
Context {AT : AplToken} {SDK : ArchSdk} {PT : PubkeyText} {WO : World}.

Lemma lawful_Forall (rule : Trace -> Event -> Prop) (P : Event -> Prop) t :
  lawful rule t -> (forall pre e, rule pre e -> P e) -> Forall P t.
Proof.
  intros Ht HP. apply list.Forall_forall. intros e He.
  apply list_elem_of_split in He as (pre & post & ->). by eapply HP, Ht.
Qed.

Lemma deploy_main_lawful cli env s cfg k :
  let dry := cli || env_flag env "DRY_RUN" false in
  trace s = [] -> from_env env = Ok cfg -> load_keys cfg = Ok k ->
  lawful (allowed cfg k (steps_of_env env) dry) (trace (snd (deploy_main cli env s))).
Proof.
  intros dry Hs Hc Hk.
  assert (Ht : triple (allowed cfg k (steps_of_env env) dry) (fun _ => True)
                 (deploy_main cli env) (fun _ _ => True)).
  { unfold deploy_main. apply dp_lifted. rewrite Hc. intros ? [= <-]. apply dp_lifted.
    rewrite Hk. intros ? [= <-].
    eapply dp_bind; [by apply (dp_preflight _ _ _ _ (fun _ => True)) |]. intros [].
    apply dp_pure. intros Hr. fold dry. apply dp_if; intros Ed; [by apply dp_return |].
    eapply dp_weaken; [apply dp_real_run; [done | done | by eapply from_env_no_faucet] | done..]. }
  apply (Ht s); [| done]. rewrite Hs. apply lawful_nil.
Qed.

(** C29: Whatever the network, the faucet and the files answer, a run of the deploy tool does only
    what its configuration asks for and its guards allow.  It uploads only its two programs and
    sends only the transactions of its steps; it mints only after it has read that the mint has
    the decimals of the configuration and the authority that signs, and creates a market only
    after it has looked for it in vain; all this only for the program that it was compiled for.
    On mainnet it asks no faucet, and does nothing else than reading before it has read that
    deployer and admin are funded, and never with a placeholder as a token.  A dry run only
    reads. *)
Theorem deploy_runs_are_guarded cli env s cfg k :
  let dry := cli || env_flag env "DRY_RUN" false in
  let t := trace (snd (deploy_main cli env s)) in
  trace s = [] -> from_env env = Ok cfg -> load_keys cfg = Ok k ->
  lawful (allowed cfg k (steps_of_env env) dry) t /\
  (dry = true -> Forall read_only t) /\
  (network cfg = Network.Mainnet -> Forall no_airdrop t).
Proof.
  intros dry t Hs Hc Hk. pose proof (deploy_main_lawful cli env s cfg k Hs Hc Hk) as Hl.
  split_and!; [done | |].
  - intros Hd. eapply lawful_Forall; [done |]. intros pre e He.
    destruct e; cbn in *; unfold cleared in He; fold dry in He; naive_solver congruence.
  - intros Hn. eapply lawful_Forall; [done |]. intros pre e He.
    destruct e; cbn in *; [done.. | | done | done | done | done].
    destruct He as [_ He]. by rewrite (from_env_no_faucet env cfg) in He.
Qed.

End Runs.
