(* ===== verification/DeployVerified.v ===== *)
(** * What is deployed passes the verification

    The deploy tool, the program on the chain and the verification together: what a run records
    as created was created by the program from the bytes that the run sent, with the parameters
    of the configuration, and the verification of the same configuration finds it. *)
From Stdlib Require Import String Ascii SpecFloat.
From stdpp Require Import gmap.
From S2P Require Import Prelude.
From S2P Require Import Text.
From S2P Require Import Errors.
From S2P Require Import Monad.
From S2P Require Import FixedPoint.
From S2P Require Import FixedFacts.
From S2P Require Import Bytes.
From S2P Require Import PodOption.
From S2P Require Import Pda.
From S2P Require Import AdaptiveCurve.
From S2P Require Import InterestRateCurve.
From S2P Require Import Oracle.
From S2P Require Import GlobalConfig.
From S2P Require Import MarketConfig.
From S2P Require Import SupplyPosition.
From S2P Require Import BorrowPosition.
From S2P Require Import CollateralVault.
From S2P Require Import SupplyVault.
From S2P Require Import Market.
From S2P Require Import ProgramErrors.
From S2P Require Import Accounts.
From S2P Require Import OracleProgram.
From S2P Require Import Events.
From S2P Require Import IxsAdmin.
From S2P Require Import Processor.
From S2P Require Import ProcessorAdmin.
From S2P Require Import ProcessorFacts.
From S2P Require Import Program.
From S2P Require Import ProgramFacts.
From S2P Require Import Ledger.
From S2P Require Import Borsh.
From S2P Require Import InstructionCodec.
From S2P Require Import IxBuilders.
From S2P Require Import Layout.
From S2P Require Import TxBuilder.
From S2P Require Import TxFacts.
From S2P Require Import RpcExt.
From S2P Require Import FullClient.
From S2P Require Import PythPusher.
From S2P Require Import PythPusherFacts.
From S2P Require Import DeployConfig.
From S2P Require Import Deploy.
From S2P Require Import DeployFacts.
From S2P Require Import Creation.
From S2P Require Import EventCodec.
From S2P Require Import LedgerExample.
From S2P Require Import FullClientFacts.

(** ** What the program creates *)

Lemma packed_key {CH : Chain} {T} (of_bytes : list Z -> option T) a x :
  packed of_bytes a = Ok x -> key x = ai_key a.
Proof.
  unfold packed. destruct (bool_decide _); cbn; [| done].
  destruct (of_bytes _); [| done]. by intros [= <-].
Qed.

(** Reads the keys of the parsed accounts off a list of accounts that is written out. *)
Ltac keys_step :=
  match goal with
  | H : next_as _ (_ :: _) = (Ok _, _) |- _ =>
      let a := fresh "ai" in let E := fresh "E" in
      apply next_as_ok in H as (a & E & H); injection E as <- <-
  | H : next_account_info (_ :: _) = (Ok _, _) |- _ => cbn in H
  | H : signer _ = Ok _ |- _ => apply signer_ok in H as [_ ->]
  | H : zero_copy _ _ = Ok _ |- _ => apply zero_copy_ok in H as (_ & ? & _ & _)
  | H : packed _ _ = Ok _ |- _ => apply packed_key in H
  end.
Ltac keys_inv := repeat (run_inv_step || keys_step).

Section Program.
Context {FX : FixedCrate} {FXL : FixedLaws FX} {PC : PdaCrate} {BC : OracleBuild} {RT : Runtime}.
Context {CH : Chain} {AC : AccountCodec} {ME : Memory} {BO : BorshCrate}.

Lemma created_market_is_recorded A ci d sm cm curator payer ts o :
  0 <= ci_lending_market_fee_in_bps d ->
  autara_process_instruction id
    (present A <$> ix_accounts (snd (Ixs.create_market_ix ci sm cm id curator payer)))
    (Ix.CreateMarket d) ts = Ok o ->
  exists m, (fst (find_market_pda id curator sm cm (ci_index ci)), DMarket m) ∈ written o /\
    ti_mint (supply_token_info m) = sm /\ ti_mint (collateral_token_info m) = cm /\
    ltv_config (config m) = ci_ltv_config d /\ MarketConfig.curator (config m) = curator.
Proof.
  intros Hf H. unfold Ixs.create_market_ix in H.
  destruct (find_market_pda id curator sm cm (ci_index ci)) as [pda bump].
  ix_inv H. unfold CreateMarket.from_accounts in Hp. cbn [ix_accounts snd fmap list_fmap] in Hp.
  unfold next_signer, next_token_program, next_system_program in Hp. keys_inv.
  unfold process_create_market, initialize_market, initlize_supply_vault,
    initialize_collateral_vault, SupplyVault.initialize, CollateralVault.initialize in Hh.
  handler_inv. cbn in *.
  match goal with H : MarketConfig.initialize _ _ _ _ _ _ _ _ _ = _ |- _ =>
    apply initialize_ok in H as (_ & Hcur & _ & Hltv & _); [| done] end.
  eexists. split; [by apply list_elem_of_singleton |]. by split_and!.
Qed.

Lemma created_config_is_recorded A payer admin fee_receiver share d ts o :
  autara_process_instruction id
    (present A <$> ix_accounts (snd (Ixs.create_global_config_ix id payer admin fee_receiver share)))
    (Ix.CreateGlobalConfig d) ts = Ok o ->
  exists g, (fst (find_global_config_pda id), DGlobalConfig g) ∈ written o /\
    GlobalConfig.admin g = cg_admin d.
Proof.
  intros H. unfold Ixs.create_global_config_ix in H.
  destruct (find_global_config_pda id) as [pda bump].
  ix_inv H. unfold CreateGlobalConfig.from_accounts in Hp.
  cbn [ix_accounts snd fmap list_fmap] in Hp.
  unfold next_signer, next_token_program, next_system_program in Hp. keys_inv.
  unfold process_create_global_config, GlobalConfig.initialize in Hh.
  handler_inv. cbn in *.
  eexists. split; [by apply list_elem_of_singleton |]. done.
Qed.

End Program.

(** ** The instructions of a run are well-typed *)

(** What the types of the crates say of their results. *)
Class TypedCrates {PC : PdaCrate} {SDK : ArchSdk} {PT : PubkeyText} {FF : FixedFloats} : Prop := {
  typed_bump seeds p : is_u8 (snd (find_program_address seeds p));
  typed_key keypair : is_pubkey (x_only_public_key keypair);
  typed_bs58 s bytes : bs58_decode s = Some bytes -> Forall is_u8 bytes;
  typed_pubkey s key : pubkey_from_str s = Some key -> is_pubkey key;
  typed_fixed x b : fx_from_f64 I80F48 x = Some b -> I128_MIN <= b <= I128_MAX }.

Section Typed.
Context {FX : FixedCrate} {FXL : FixedLaws FX} {PC : PdaCrate} {BO : BorshCrate} {BOL : BorshLaws BO}.
Context {SDK : ArchSdk} {PT : PubkeyText} {FF : FixedFloats} {TY : TypedCrates}.

Lemma new_pyth_typed feed program :
  is_pubkey feed -> is_pubkey program -> is_oracle_config (new_pyth feed program).
Proof.
  intros [Hl Hb] [Hl' Hb'].
  assert (He : i_lit 5 100 = IFP 14073748835533) by (apply lit_bits; widths_lia).
  unfold is_oracle_config, new_pyth, validation_default.
  cbn [config_provider validation_config provider_union from_oracle_provider max_age_
       min_relative_confidence_ pod_value pyth_feed_id pyth_program_id]. rewrite He.
  split_and!; [| | done | done | vm_compute; discriminate..].
  - rewrite !length_app, length_drop, length_replicate, Hl, Hl'. done.
  - rewrite !Forall_app. split_and!; [done.. |]. apply Forall_drop, Forall_replicate. widths_lia.
Qed.

Lemma hex_decode_typed n s l : hex_decode n s = Some l -> length l = n /\ Forall is_u8 l.
Proof.
  intros H. apply hex_decode_ok in H as [? H]. split; [done |].
  eapply list.Forall_impl; [exact H |]. intros x Hx. unfold is_byte in Hx. widths_lia.
Qed.

Lemma feed_typed label feed : pyth_feed_for_label label = Some feed -> is_pubkey feed.
Proof.
  unfold pyth_feed_for_label. intros H. repeat case_match; try done; by eapply hex_decode_typed.
Qed.

Lemma i_from_f64_typed {E} x (y : IFixedPoint) : @i_from_f64 FF E x = Ok y -> is_ifixed y.
Proof.
  unfold i_from_f64, res_map. intros H. apply res_bind_ok in H as (b & H & [= <-]).
  apply or_panic_ok in H. by eapply typed_fixed.
Qed.

Lemma create_market_ix_typed index fee params sf cf oracle ci bump :
  is_u8 index -> is_u16 fee -> is_pubkey sf -> is_pubkey cf -> is_pubkey oracle -> is_u8 bump ->
  build_create_market_instruction (E := Anyhow) index fee params (new_pyth sf oracle)
    (new_pyth cf oracle) = Ok ci ->
  ix_typed (Ix.CreateMarket (Ixs.set_market_bump bump ci)) /\
  ci_index ci = index /\ ci_lending_market_fee_in_bps ci = fee /\
  i_from_f64 (E := Anyhow) (mp_max_ltv params) = Ok (max_ltv (ci_ltv_config ci)).
Proof.
  intros Hi Hf Hs Hc Ho Hb H. unfold build_create_market_instruction in H.
  repeat (apply res_bind_ok in H as (? & ? & H)). injection H as <-. cbn.
  split_and!; try done; try (by eapply i_from_f64_typed); try (by apply new_pyth_typed).
  split_and!; by eapply i_from_f64_typed.
Qed.

(** *** The configuration *)

Lemma env_parse_typed {T} (Q : T -> Prop) env parse name value x :
  Q value -> (forall s y, parse s = Some y -> Q y) -> env_parse env parse name value = Ok x -> Q x.
Proof.
  unfold env_parse. intros Hv Hp H. destruct (env_opt env name); [| by injection H as <-].
  apply found_ok in H. eauto.
Qed.

Lemma parse_pubkey_typed s key : parse_pubkey_base58_or_hex s = Ok key -> is_pubkey key.
Proof.
  unfold parse_pubkey_base58_or_hex.
  destruct (bs58_decode (trim s)) as [bytes |] eqn:E; [| intros H%found_ok; by eapply typed_pubkey].
  destruct (Nat.eqb_spec (length bytes) 32); [| intros H%found_ok; by eapply typed_pubkey].
  intros [= <-]. split; [done | by eapply typed_bs58].
Qed.

Lemma env_pubkey_typed env name key : env_pubkey_opt env name = Ok (Some key) -> is_pubkey key.
Proof.
  unfold env_pubkey_opt. destruct (env_opt env name) as [v |]; [| done].
  intros H. apply res_bind_ok in H as (key' & H & [= ->]).
  destruct (parse_pubkey_base58_or_hex v) eqn:E; cbn in H; simplify_eq.
  by eapply parse_pubkey_typed.
Qed.

Record cfg_typed (cfg : DeployConfig) : Prop := {
  ct_admin key : cfg_admin cfg = Some key -> is_pubkey key;
  ct_fee_receiver key : cfg_fee_receiver cfg = Some key -> is_pubkey key;
  ct_share : is_u16 (protocol_fee_share_bps cfg);
  ct_fee : is_u16 (lending_market_fee_bps cfg) }.

Lemma from_env_typed env cfg : from_env env = Ok cfg -> cfg_typed cfg.
Proof.
  assert (Hu : forall s y, parse_u16 s = Some y -> is_u16 y)
    by (intros s y H%parse_uint_range; widths_lia).
  unfold from_env. intros H.
  repeat match type of H with
  | res_bind _ _ = Ok _ => let a := fresh "a" in let E := fresh "E" in
      apply res_bind_ok in H as (a & E & H)
  end.
  injection H as <-. split; cbn.
  - intros key ->. by eapply env_pubkey_typed.
  - intros key ->. by eapply env_pubkey_typed.
  - eapply (env_parse_typed is_u16); [| exact Hu | eassumption]. widths_lia.
  - eapply (env_parse_typed is_u16); [| exact Hu | eassumption]. widths_lia.
Qed.

Lemma admin_typed cfg k : cfg_typed cfg -> is_pubkey (admin_of cfg k).
Proof.
  intros H. unfold admin_of. destruct (cfg_admin cfg) eqn:E; cbn; [by eapply ct_admin |].
  apply typed_key.
Qed.

Lemma fee_receiver_typed cfg k : cfg_typed cfg -> is_pubkey (fee_receiver_of cfg k).
Proof.
  intros H. unfold fee_receiver_of. destruct (cfg_fee_receiver cfg) eqn:E; cbn;
    [by eapply ct_fee_receiver | by apply admin_typed].
Qed.

End Typed.

(** ** Operations that only talk *)

Section Quiet.
Context {SDK : ArchSdk} {WO : World}.

(** The record of the run is left alone, and the trace only grows. *)
Definition quiet {A} (m : Deploy A) : Prop :=
  forall s, artifact (snd (m s)) = artifact s /\ extends (trace s) (trace (snd (m s))).

Lemma quiet_ret {A} (a : A) : quiet (st_ret a).
Proof. intros s. split; [done | apply extends_refl]. Qed.
Lemma quiet_lift {A} (r : AnyRes A) : quiet (st_lift r).
Proof. intros s. split; [done | apply extends_refl]. Qed.
Lemma quiet_raise {A} e : quiet (st_raise (A := A) e).
Proof. intros s. split; [done | apply extends_refl]. Qed.
Lemma quiet_guard b e : quiet (st_guard b e).
Proof. intros s. unfold st_guard. destruct b; (split; [done | apply extends_refl]). Qed.
Lemma quiet_ask {E A} (answer : Trace -> Result E A) event : quiet (ask answer event).
Proof. intros s. split; [done |]. cbn. by eexists. Qed.
Lemma quiet_bind {A B} (m : Deploy A) (h : A -> Deploy B) :
  quiet m -> (forall a, quiet (h a)) -> quiet (st_bind m h).
Proof.
  intros Hm Hh s. destruct (Hm s) as [Ha Hx]. unfold st_bind.
  destruct (m s) as [[a | |] s']; cbn in *; [| done..].
  destruct (Hh a s') as [Ha' Hx']. split; [congruence | by eapply extends_trans].
Qed.
Lemma quiet_attempt {A} (m : Deploy A) : quiet m -> quiet (attempt m).
Proof. intros Hm s. destruct (Hm s). unfold attempt. by destruct (m s) as [[] s']. Qed.
Lemma quiet_if {A} (b : bool) (m1 m2 : Deploy A) : quiet m1 -> quiet m2 -> quiet (if b then m1 else m2).
Proof. by destruct b. Qed.

Lemma quiet_ok {A} (m : Deploy A) s r s' :
  quiet m -> m s = (r, s') -> artifact s' = artifact s /\ extends (trace s) (trace s').
Proof. intros Hq H. specialize (Hq s). by rewrite H in Hq. Qed.

End Quiet.

Create HintDb quiet.
#[export] Hint Resolve quiet_ret quiet_lift quiet_raise quiet_guard quiet_ask quiet_bind
  quiet_attempt quiet_if : quiet.
Ltac solve_quiet :=
  repeat first
  [ progress intros
  | simple apply quiet_ask | simple apply quiet_bind | simple apply quiet_attempt
  | simple apply quiet_if
  | solve [eauto with quiet nocore]
  | match goal with |- quiet (match ?x with _ => _ end) => destruct x end ].

Section Talk.
Context {PC : PdaCrate} {CH : Chain} {BO : BorshCrate} {FX : FixedCrate} {FF : FixedFloats}.
Context {AT : AplToken} {SDK : ArchSdk} {PT : PubkeyText} {WO : World}.

Lemma quiet_send ctx ixs signers : quiet (send ctx ixs signers).
Proof. unfold send. solve_quiet. Qed.
Lemma quiet_read key : quiet (read_account_info key).
Proof. apply quiet_ask. Qed.
Lemma quiet_balance key : quiet (balance key).
Proof. unfold balance, read_account_info. solve_quiet. Qed.
Lemma quiet_exists key : quiet (account_exists key).
Proof. unfold account_exists, read_account_info. solve_quiet. Qed.
Lemma quiet_executable key : quiet (is_executable key).
Proof. unfold is_executable, read_account_info. solve_quiet. Qed.
Lemma quiet_fund keypair : quiet (fund_with_faucet keypair).
Proof. unfold fund_with_faucet. solve_quiet. Qed.
Lemma quiet_upload program authority path : quiet (deploy_program program authority path).
Proof. unfold deploy_program. solve_quiet. Qed.
#[local] Hint Resolve quiet_send quiet_read quiet_balance quiet_exists quiet_executable quiet_fund
  quiet_upload : quiet.

Lemma quiet_check_mint authority token : quiet (check_mint authority token).
Proof. unfold check_mint. solve_quiet. Qed.
Lemma quiet_ensure l : quiet (ensure_token_mints l).
Proof. induction l; cbn [ensure_token_mints]; solve_quiet; done. Qed.
Lemma quiet_repeat_fund n keypair : quiet (repeat_fund n keypair).
Proof. induction n; cbn [repeat_fund]; solve_quiet; done. Qed.
Lemma quiet_repeat_try_fund n keypair : quiet (repeat_try_fund n keypair).
Proof. induction n; cbn [repeat_try_fund]; solve_quiet; done. Qed.
#[local] Hint Resolve quiet_repeat_fund : quiet.
Lemma quiet_fund_accounts cfg k : quiet (fund_accounts cfg k).
Proof. unfold fund_accounts. solve_quiet. Qed.
Lemma quiet_preflight dry cfg k st : quiet (preflight dry cfg k st).
Proof. unfold preflight, rpc_reachable. solve_quiet. Qed.

End Talk.

#[export] Hint Resolve quiet_send quiet_read quiet_balance quiet_exists quiet_executable quiet_fund
  quiet_upload quiet_check_mint quiet_ensure quiet_repeat_fund quiet_repeat_try_fund
  quiet_fund_accounts quiet_preflight : quiet.

(** ** A chain that runs the program *)

Section Deployment.
Context {FX : FixedCrate} {FXL : FixedLaws FX} {PC : PdaCrate} {BC : OracleBuild} {RT : Runtime}.
Context {CH : Chain} {ME : Memory} {BO : BorshCrate} {BOL : BorshLaws BO}.
Context {SDK : ArchSdk} {PT : PubkeyText} {FF : FixedFloats} {TY : TypedCrates} {AT : AplToken}.
Context {WO : World} (token : list Z -> option TokenAccount) (mint : list Z -> option Mint).
#[local] Instance deployed_codec : AccountCodec := bytemuck_codec token mint.

(** The accounts of the chain after some events. *)
Variable chain : Trace -> gmap Pubkey RemoteAccount.

Definition config_at (t : Trace) (g : GlobalConfig) : Prop :=
  exists a, chain t !! fst (find_global_config_pda id) = Some a /\
    Verify.decode_pod global_config_pod (rm_data a) = Some g.
Definition market_at (t : Trace) (key : Pubkey) (m : Market) : Prop :=
  exists a, chain t !! key = Some a /\ Verify.decode_pod market_pod (rm_data a) = Some m.

(** The two markets are configured in the same way. *)
Definition same_terms (m m' : Market) : Prop :=
  ti_mint (supply_token_info m') = ti_mint (supply_token_info m) /\
  ti_mint (collateral_token_info m') = ti_mint (collateral_token_info m) /\
  ltv_config (config m') = ltv_config (config m) /\
  MarketConfig.curator (config m') = MarketConfig.curator (config m).

(** The program was run on an instruction, on some accounts and at some time, and the accounts
    that it wrote are on the chain. *)
Definition executed (i : Instruction) (A' : gmap Pubkey RemoteAccount) : Prop :=
  exists A ts ix o, deserialize (ix_data i) = Some (ix, []) /\
    autara_process_instruction id (present A <$> ix_accounts i) ix ts = Ok o /\
    forall key d, (key, d) ∈ written o ->
      exists a, A' !! key = Some a /\ d ∈ readings token mint (rm_data a).

(** Reads are answered from the chain; a transaction is reported as processed when the program
    has run; and while the tools run nobody hands the configuration over or changes the terms
    of a market. *)
Record runs_program : Prop := {
  rp_read t key a : chain t !! key = Some a -> on_read t key = Ok a;
  rp_sign m ks n tx : build_and_sign_transaction m ks n = Ok tx -> rt_message tx = m;
  rp_executed t tx txid ids p ps i :
    on_send t tx = Ok (txid :: ids) ->
    on_wait (t ++ [Send tx (Ok (txid :: ids))]) txid = Ok (p :: ps) -> pt_status p = Processed ->
    am_instructions (rt_message tx) = [i] -> ix_program_id i = id ->
    executed i (chain ((t ++ [Send tx (Ok (txid :: ids))]) ++ [Wait txid (Ok (p :: ps))]));
  rp_config t e g :
    config_at t g -> exists g', config_at (t ++ [e]) g' /\ GlobalConfig.admin g' = GlobalConfig.admin g;
  rp_market t e key m :
    market_at t key m -> exists m', market_at (t ++ [e]) key m' /\ same_terms m m' }.

Hypothesis Hrun : runs_program.

Variables (cfg : DeployConfig) (k : Keys).
Hypothesis Hid : program_pubkey k = id.
Hypothesis Hcfg : cfg_typed cfg.

Definition has_config (t : Trace) : Prop :=
  exists g, config_at t g /\ GlobalConfig.admin g = admin_of cfg k.

(** The market of a pair is there with the terms of the configuration. *)
Definition has_market (p : MarketPair) (t : Trace) : Prop :=
  exists supply collateral m,
    token_by_label cfg (supply_label p) = Some supply /\
    token_by_label cfg (collateral_label p) = Some collateral /\
    market_at t (derive_market_pda (program_pubkey k) (admin_default_pubkey k) supply collateral 0) m /\
    Verify.market_matches (market_params cfg) (admin_default_pubkey k) (tc_mint supply)
      (tc_mint collateral) m = Ok true.

Lemma has_config_persistent : persistent has_config.
Proof.
  intros t e (g & Hg & Ha). destruct (rp_config Hrun t e g Hg) as (g' & ? & ?). exists g'.
  split; [done | congruence].
Qed.

Lemma same_terms_match params cur sm cm m m' :
  same_terms m m' ->
  Verify.market_matches params cur sm cm m' = Verify.market_matches params cur sm cm m.
Proof. intros (H1 & H2 & H3 & H4). unfold Verify.market_matches. by rewrite H1, H2, H3, H4. Qed.

Lemma has_market_persistent p : persistent (has_market p).
Proof.
  intros t e (supply & collateral & m & ? & ? & Hm & ?).
  destruct (rp_market Hrun t e _ m Hm) as (m' & ? & Hs).
  exists supply, collateral, m'. split_and!; [done.. |]. by rewrite (same_terms_match _ _ _ _ m m').
Qed.

Lemma try_decode {T} (pod : Pod T) l x :
  try_from_bytes pod l = Some x -> Verify.decode_pod pod l = Some x.
Proof.
  intros H. unfold Verify.decode_pod.
  assert (length l = size_of pod) as Hl.
  { unfold try_from_bytes in H. destruct (Nat.eqb_spec (length l) (size_of pod)); done. }
  rewrite <- Hl, (proj2 (Nat.leb_le _ _)) by lia. by rewrite firstn_all.
Qed.

Lemma asked {E A} (answer : Trace -> Result E A) event s r s' :
  ask answer event s = (Ok r, s') ->
  r = answer (trace s) /\ trace s' = trace s ++ [event r].
Proof. unfold ask. cbn. by intros [= <- <-]. Qed.

Lemma failing_ok {E A} m f (r : Result E A) a : failing m f r = Ok a -> r = Ok a.
Proof. unfold failing. by destruct r; cbn; [intros [= ->] | |]. Qed.

Lemma send_executed keypair i s txid s' :
  send (context_of cfg keypair) [i] [] s = (Ok txid, s') -> ix_program_id i = id ->
  executed i (chain (trace s')).
Proof.
  intros H Hi. unfold send in H.
  apply st_bind_ok in H as (r1 & s1 & H1 & H). apply asked in H1 as [_ H1].
  apply st_bind_ok in H as (hash & s2 & Hh & H). apply st_lift_ok in Hh as [Hh ->].
  apply st_bind_ok in H as (tx & s3 & Htx & H). apply st_lift_ok in Htx as [Htx ->].
  apply st_bind_ok in H as (r2 & s4 & H2 & H). apply asked in H2 as [Hr2 H2].
  apply st_bind_ok in H as (txids & s5 & Ht & H). apply st_lift_ok in Ht as [Ht ->].
  apply st_bind_ok in H as (txid' & s6 & Hd & H). apply st_lift_ok in Hd as [Hd ->].
  apply st_bind_ok in H as (r3 & s7 & H3 & H). apply asked in H3 as [Hr3 H3].
  apply st_bind_ok in H as (ps & s8 & Hp & H). apply st_lift_ok in Hp as [Hp ->].
  apply st_bind_ok in H as (p & s9 & He & H). apply st_lift_ok in He as [He ->].
  apply failing_ok in Htx, Ht, Hp. apply found_ok in Hd, He.
  destruct txids as [| x ids]; [done |]. injection Hd as ->.
  destruct ps as [| x ps]; [done |]. injection He as ->.
  destruct (pt_status p) eqn:Es; [done | | done]. injection H as _ <-.
  rewrite H3, H2. rewrite Hr2 in Ht. rewrite H2, Hr2, Ht in Hr3. rewrite Hr2, Ht, Hr3, <- Hr3, Hp.
  eapply (rp_executed Hrun); [done | by rewrite <- Hr3, Hp | done | | done].
  apply (rp_sign Hrun) in Htx. by rewrite Htx.
Qed.

(** What is recorded as created is there. *)
Record good (s : Session) : Prop := {
  good_markets mr : mr ∈ da_markets (artifact s) -> mr_created mr = true ->
                    has_market (mr_pair mr) (trace s);
  good_config : "create_global_config"%string ∈ (da_transactions (artifact s)).*1 ->
                has_config (trace s) }.

Definition keeps {A} (m : Deploy A) : Prop :=
  forall s a s', good s -> m s = (Ok a, s') -> good s'.

Lemma good_quiet s s' :
  good s -> artifact s' = artifact s -> extends (trace s) (trace s') -> good s'.
Proof.
  intros [Hm Hc] Ha Hx. split; rewrite Ha.
  - intros mr ? ?. eapply persistent_prefix; [apply has_market_persistent | done | by apply Hm].
  - intros ?. eapply persistent_prefix; [apply has_config_persistent | done | by apply Hc].
Qed.

Lemma keeps_quiet {A} (m : Deploy A) : quiet m -> keeps m.
Proof.
  intros Hq s a s' Hg H. destruct (Hq s) as [Ha Hx]. rewrite H in Ha, Hx. by eapply good_quiet.
Qed.

Lemma keeps_good_bind {A B} (m : Deploy A) (h : A -> Deploy B) :
  keeps m -> (forall a, keeps (h a)) -> keeps (st_bind m h).
Proof.
  intros Hm Hh s b s' Hg H. apply st_bind_ok in H as (a & s1 & H1 & H2).
  eapply Hh; [| exact H2]. by eapply Hm.
Qed.

Lemma keeps_if {A} (b : bool) (m1 m2 : Deploy A) :
  keeps m1 -> keeps m2 -> keeps (if b then m1 else m2).
Proof. by destruct b. Qed.

(** The records of other steps, and of markets that were there before, say nothing. *)
Lemma keeps_tx step txid :
  step <> "create_global_config"%string -> keeps (update (record_tx step txid)).
Proof.
  intros Hs s a s' [Hm Hc] [= <- <-]. split; cbn; [done |].
  rewrite fmap_app, elem_of_app. cbn. rewrite list_elem_of_singleton.
  intros [? | ?]; [by apply Hc | done].
Qed.

Lemma keeps_old_market mr : mr_created mr = false -> keeps (update (record_market mr)).
Proof.
  intros Hs s a s' [Hm Hc] [= <- <-]. split; cbn; [| done].
  intros mr' [? | ->%list_elem_of_singleton]%elem_of_app; [by apply Hm | congruence].
Qed.

Lemma keeps_sha (f : DeploymentArtifact -> DeploymentArtifact) :
  (forall a, da_markets (f a) = da_markets a /\ da_transactions (f a) = da_transactions a) ->
  keeps (update f).
Proof.
  intros Hf s a s' [Hm Hc] [= <- <-]. destruct (Hf (artifact s)) as [E1 E2].
  split; cbn; rewrite ?E1, ?E2; done.
Qed.

(** ** The steps *)

Lemma executed_as i ix A' :
  executed i A' -> ix_data i = serialize ix -> ix_typed ix ->
  exists A ts o, autara_process_instruction id (present A <$> ix_accounts i) ix ts = Ok o /\
    forall key d, (key, d) ∈ written o ->
      exists a, A' !! key = Some a /\ d ∈ readings token mint (rm_data a).
Proof.
  intros (A & ts & ix' & o & Hd & Ho & Hw) Hi Ht. rewrite Hi in Hd.
  pose proof (deserialize_serialize ix [] Ht) as He. rewrite app_nil_r in He.
  assert (ix' = ix) as -> by congruence. by exists A, ts, o.
Qed.

Lemma market_created p supply collateral sf cf ci t :
  token_by_label cfg (supply_label p) = Some supply ->
  token_by_label cfg (collateral_label p) = Some collateral ->
  pyth_feed_for_label (tc_label supply) = Some sf ->
  pyth_feed_for_label (tc_label collateral) = Some cf ->
  build_create_market_instruction (E := Anyhow) 0 (lending_market_fee_bps cfg)
    (market_params cfg) (new_pyth sf (oracle_pubkey k)) (new_pyth cf (oracle_pubkey k)) = Ok ci ->
  executed (snd (Ixs.create_market_ix ci (tc_mint supply) (tc_mint collateral) id
                   (admin_default_pubkey k) (admin_default_pubkey k))) (chain t) ->
  has_market p t.
Proof.
  intros Hs Hc Hsf Hcf Hci He.
  set (bump := snd (find_market_pda id (admin_default_pubkey k) (tc_mint supply)
                      (tc_mint collateral) (ci_index ci))).
  destruct (create_market_ix_typed 0 (lending_market_fee_bps cfg) (market_params cfg) sf cf
              (oracle_pubkey k) ci bump) as (Ht & Hx & Hf & Hl);
    [widths_lia | by apply ct_fee | by eapply feed_typed | by eapply feed_typed | apply typed_key
    | apply typed_bump | done |].
  eapply executed_as in He as (A & ts & o & Ho & Hw); [| | exact Ht].
  2: { unfold Ixs.create_market_ix, bump. by destruct (find_market_pda _ _ _ _ _). }
  apply created_market_is_recorded in Ho as (m & Hm & H1 & H2 & H3 & H4).
  2: { cbn. rewrite Hf. pose proof (ct_fee _ Hcfg). widths_lia. }
  apply Hw in Hm as (a & Ha & Hd%elem_of_readings). rewrite Hx in Ha.
  exists supply, collateral, m. split_and!; [done.. | |].
  - exists a. unfold derive_market_pda. rewrite Hid. split; [done | by apply try_decode].
  - unfold Verify.market_matches. rewrite Hl. cbn [res_bind]. rewrite H1, H2, H3, H4.
    rewrite !bool_decide_true by done. cbn. by rewrite Z.eqb_refl.
Qed.

Lemma config_created t :
  executed (snd (Ixs.create_global_config_ix id (admin_default_pubkey k) (admin_of cfg k)
                   (fee_receiver_of cfg k) (protocol_fee_share_bps cfg))) (chain t) ->
  has_config t.
Proof.
  intros He. set (bump := snd (find_global_config_pda id)).
  eapply (executed_as _ (Ix.CreateGlobalConfig (mkCreateGlobalConfigIx bump (admin_of cfg k)
    (fee_receiver_of cfg k) (protocol_fee_share_bps cfg)))) in He as (A & ts & o & Ho & Hw).
  - apply created_config_is_recorded in Ho as (g & Hg & Ha).
    apply Hw in Hg as (a & Hl & Hd%elem_of_readings). exists g. split; [| done].
    exists a. split; [done | by apply try_decode].
  - unfold Ixs.create_global_config_ix, bump. by destruct (find_global_config_pda id).
  - split_and!; [apply typed_bump | by apply admin_typed | by apply fee_receiver_typed
                | by apply ct_share].
Qed.

Lemma keeps_create_global_config :
  keeps (create_global_config (context_of cfg (admin_kp k)) (program_pubkey k) (admin_of cfg k)
           (fee_receiver_of cfg k) (protocol_fee_share_bps cfg)).
Proof.
  unfold create_global_config. rewrite Hid. cbn [context_of payer_pubkey].
  fold (admin_default_pubkey k). pose proof config_created as Hcc.
  assert (Hi : ix_program_id (snd (Ixs.create_global_config_ix id (admin_default_pubkey k)
    (admin_of cfg k) (fee_receiver_of cfg k) (protocol_fee_share_bps cfg))) = id)
    by (unfold Ixs.create_global_config_ix; by destruct (find_global_config_pda id)).
  destruct (Ixs.create_global_config_ix _ _ _ _ _) as [pda ix]. cbn [snd] in Hcc, Hi.
  intros s a s' Hg H. apply st_bind_ok in H as (r & s1 & H1 & H).
  assert (Hg1 : good s1) by (eapply keeps_quiet; [| exact Hg | exact H1]; eauto with quiet).
  apply st_bind_ok in H as ([] & s2 & H2 & H). apply st_bind_ok in H as ([] & s3 & H3 & H).
  injection H as _ <-. enough (good s2).
  { by eapply (keeps_sha (set_global_config pda)); [| | exact H3]. }
  destruct r as [txid | e |]; [| | done].
  - unfold attempt in H1. destruct (send _ _ _ s) as [[x | |] s1'] eqn:Es; simplify_eq.
    apply send_executed in Es; [| done]. injection H2 as <-. destruct Hg1 as [Hm Hc].
    split; cbn; [done |]. intros _. by apply Hcc.
  - destruct (contains _ _); [by injection H2 as <- | done].
Qed.

Lemma keeps_mint_initial_supply keypair tc recipient :
  keeps (mint_initial_supply (context_of cfg keypair) tc recipient).
Proof.
  unfold mint_initial_supply.
  apply keeps_good_bind; [apply keeps_quiet; eauto with quiet | intros _].
  apply keeps_good_bind; [apply keeps_quiet; eauto with quiet | intros r].
  apply keeps_if; [apply keeps_quiet; eauto with quiet |].
  apply keeps_good_bind.
  - destruct (match r with Ok _ => _ | _ => _ end); [apply keeps_quiet; eauto with quiet |].
    do 2 (apply keeps_good_bind; [apply keeps_quiet; eauto with quiet | intros ?]).
    by apply keeps_tx.
  - intros _. do 3 (apply keeps_good_bind; [apply keeps_quiet; eauto with quiet | intros ?]).
    by apply keeps_tx.
Qed.

Lemma keeps_mint_supplies l : keeps (mint_supplies cfg l).
Proof.
  induction l as [| tc l IH]; cbn [mint_supplies]; [apply keeps_quiet; eauto with quiet |].
  apply keeps_good_bind; [| done]. apply keeps_if; [apply keeps_quiet; eauto with quiet |].
  destruct (mint_authority_for cfg tc); [| apply keeps_quiet; eauto with quiet].
  apply keeps_good_bind; [apply keeps_quiet; eauto with quiet |]. intros [kp pk].
  apply keeps_good_bind; [apply keeps_quiet, quiet_if; eauto with quiet |]. intros _.
  apply keeps_mint_initial_supply.
Qed.

Definition recorded (p : MarketPair) (s : Session) : Prop :=
  exists mr, mr ∈ da_markets (artifact s) /\ mr_pair mr = p.

Lemma recorded_quiet p s s' : artifact s' = artifact s -> recorded p s -> recorded p s'.
Proof. intros H (mr & ? & ?). exists mr. by rewrite H. Qed.

Lemma create_market_recorded p supply collateral s a s' :
  token_by_label cfg (supply_label p) = Some supply ->
  token_by_label cfg (collateral_label p) = Some collateral ->
  create_market (context_of cfg (admin_kp k)) (program_pubkey k) (oracle_pubkey k)
    (admin_default_pubkey k) p supply collateral (lending_market_fee_bps cfg) (market_params cfg) 0 s
  = (Ok a, s') -> good s ->
  good s' /\ recorded p s' /\ forall q, recorded q s -> recorded q s'.
Proof.
  intros Hs Hc H Hg. unfold create_market in H.
  apply st_bind_ok in H as (sf & s1 & H1 & H). apply st_lift_ok in H1 as [Hsf%found_ok <-].
  apply st_bind_ok in H as (cf & s2 & H2 & H). apply st_lift_ok in H2 as [Hcf%found_ok <-].
  apply st_bind_ok in H as (b & s3 & H3 & H).
  pose proof (quiet_ok _ _ _ _ (quiet_exists _) H3) as [Ha Hx].
  assert (Hg3 : good s3) by (by eapply good_quiet).
  assert (Hr3 : forall q, recorded q s -> recorded q s3) by (intros q; by apply recorded_quiet).
  destruct b.
  - apply st_bind_ok in H as ([] & s4 & H4 & H). injection H as _ <-. split_and!.
    + by eapply keeps_old_market; [| exact Hg3 | exact H4].
    + injection H4 as <-. eexists. split; [apply elem_of_app; right; by apply list_elem_of_singleton |].
      done.
    + intros q (mr & ? & ?)%Hr3. injection H4 as <-. exists mr. split; [| done].
      apply elem_of_app. by left.
  - apply st_bind_ok in H as (ci & s4 & H4 & H). apply st_lift_ok in H4 as [Hci <-].
    cbn [context_of payer_pubkey] in H. fold (admin_default_pubkey k) in H. rewrite Hid in H.
    pose proof (fun t => market_created p supply collateral sf cf ci t Hs Hc Hsf Hcf Hci) as Hmc.
    assert (Hi : ix_program_id (snd (Ixs.create_market_ix ci (tc_mint supply) (tc_mint collateral)
      id (admin_default_pubkey k) (admin_default_pubkey k))) = id)
      by (unfold Ixs.create_market_ix; by destruct (find_market_pda _ _ _ _ _)).
    destruct (Ixs.create_market_ix _ _ _ _ _ _) as [pda ix]. cbn [snd] in Hmc, Hi.
    apply st_bind_ok in H as (txid & s5 & H5 & H).
    pose proof (quiet_ok _ _ _ _ (quiet_send _ _ _) H5) as [Ha5 Hx5].
    apply st_bind_ok in H as ([] & s6 & H6 & H). apply st_bind_ok in H as ([] & s7 & H7 & H).
    injection H as _ <-.
    assert (Hg6 : good s6).
    { eapply (keeps_tx _ txid); [| eapply good_quiet; [exact Hg3 | done..] | exact H6]. done. }
    apply send_executed in H5; [| done]. injection H6 as <-. injection H7 as <-.
    split_and!.
    + destruct Hg6 as [Hm Hcf']. split; cbn in *; [| done].
      intros mr [? | ->%list_elem_of_singleton]%elem_of_app; [by apply Hm |]. intros _. by apply Hmc.
    + eexists. split; [apply elem_of_app; right; by apply list_elem_of_singleton | done].
    + intros q (mr & Hin & ?)%Hr3. exists mr. split; [| done]. apply elem_of_app. left. cbn.
      by rewrite Ha5.
Qed.

Lemma create_markets_recorded l s u s' :
  (forall p supply collateral, p ∈ l ->
     token_by_label cfg (supply_label p) = Some supply ->
     token_by_label cfg (collateral_label p) = Some collateral ->
     pyth_feed_for_label (tc_label supply) <> None /\
     pyth_feed_for_label (tc_label collateral) <> None) ->
  create_markets cfg k l s = (Ok u, s') -> good s ->
  good s' /\ (forall p, p ∈ l -> recorded p s') /\ forall q, recorded q s -> recorded q s'.
Proof.
  revert s. induction l as [| p l IH]; intros s Hf H Hg; cbn [create_markets] in H.
  { injection H as _ <-. split_and!; [done | set_solver | done]. }
  apply st_bind_ok in H as (supply & s1 & H1 & H). apply st_lift_ok in H1 as [Hs%found_ok <-].
  apply st_bind_ok in H as (collateral & s2 & H2 & H). apply st_lift_ok in H2 as [Hc%found_ok <-].
  apply st_bind_ok in H as ([] & s3 & H3 & H).
  destruct (Hf p supply collateral) as [F1 F2]; [set_solver | done..|].
  rewrite !bool_decide_false in H3 by done. cbn [orb] in H3.
  apply st_bind_ok in H3 as (key & s4 & H4 & H3). injection H3 as <-.
  apply create_market_recorded in H4 as (Hg4 & Hp & Hq); [| done..].
  apply IH in H as (Hg' & Hl & Hq'); [| set_solver | done].
  split_and!; [done | | auto]. intros q [-> | ?]%elem_of_cons; auto.
Qed.

(** Every market that the configuration asks for has a feed for both tokens. *)
Definition all_have_feeds : Prop :=
  forall p supply collateral, p ∈ effective_market_pairs cfg ->
    token_by_label cfg (supply_label p) = Some supply ->
    token_by_label cfg (collateral_label p) = Some collateral ->
    pyth_feed_for_label (tc_label supply) <> None /\
    pyth_feed_for_label (tc_label collateral) <> None.

Lemma keeps_deploy_step b path program authority f :
  (forall x a, da_markets (f x a) = da_markets a /\ da_transactions (f x a) = da_transactions a) ->
  keeps (deploy_step b path program authority f).
Proof.
  intros Hf. apply keeps_if.
  - apply keeps_good_bind; [apply keeps_quiet; eauto with quiet | intros sha].
    apply keeps_good_bind; [by apply keeps_sha | intros _]. apply keeps_quiet. eauto with quiet.
  - apply keeps_sha. intros a. by destruct (file path).
Qed.

Lemma real_run_recorded st s u s' :
  all_have_feeds -> step_create_market st = true ->
  real_run cfg k st s = (Ok u, s') ->
  good s' /\ forall p, p ∈ effective_market_pairs cfg -> recorded p s'.
Proof.
  intros Hf Hst H. unfold real_run in H. rewrite Hst in H.
  apply st_bind_ok in H as ([] & s1 & H1 & H). injection H1 as <-.
  match type of H with _ ?s = _ =>
    assert (Hg : good s) by (split; cbn; [intros mr Hmr | intros Htx]; set_solver) end.
  apply st_bind_ok in H as ([] & s2 & H2 & H).
  apply (keeps_quiet _ (quiet_fund_accounts cfg k)) in H2; [clear Hg | done].
  apply st_bind_ok in H as ([] & s3 & H3 & H). apply keeps_deploy_step in H3; [| done..].
  apply st_bind_ok in H as ([] & s4 & H4 & H). apply keeps_deploy_step in H4; [| done..].
  apply st_bind_ok in H as ([] & s5 & H5 & H).
  assert (Hg5 : good s5).
  { destruct (step_init_config st); [| by injection H5 as <-].
    apply st_bind_ok in H5 as (pda & s5' & H5 & H5'). injection H5' as <-.
    by eapply keeps_create_global_config. }
  apply st_bind_ok in H as ([] & s6 & H6 & H).
  assert (Hg6 : good s6).
  { eapply keeps_quiet; [| exact Hg5 | exact H6]. apply quiet_if; eauto with quiet. }
  apply st_bind_ok in H as ([] & s7 & H7 & H).
  assert (Hg7 : good s7).
  { destruct (step_mint_initial_supply st); [| by injection H7 as <-].
    by eapply keeps_mint_supplies. }
  apply st_bind_ok in H as ([] & s8 & H8 & H).
  apply create_markets_recorded in H8 as (Hg8 & Hr & _); [| exact Hf | done].
  apply st_bind_ok in H as (a & s9 & H9 & H). injection H9 as <- <-.
  apply (quiet_ok (let! r := ask _ _ in st_lift r)) in H as [Ha Hx]; [| solve_quiet].
  split; [exact (good_quiet _ _ Hg8 Ha Hx) |]. intros p Hp. eapply recorded_quiet; [exact Ha | by apply Hr].
Qed.

(** ** The verification *)

(** What the verification asks for and the run does not see to: the code, the mints and fresh
    prices. *)
Record supplied (t : Trace) : Prop := {
  su_program : exists a, chain t !! program_pubkey k = Some a /\ rm_is_executable a = true;
  su_mints tc : tc ∈ tokens cfg -> exists a m, chain t !! tc_mint tc = Some a /\
    unpack_mint (rm_data a) = Some m /\ ms_decimals m = tc_decimals tc;
  su_feeds tc feed : tc ∈ tokens cfg -> pyth_feed_for_label (tc_label tc) = Some feed ->
    exists a acc, chain t !! fst (find_program_address [feed] (oracle_pubkey k)) = Some a /\
      rm_owner a = oracle_pubkey k /\ Verify.decode_feed (rm_data a) = Some acc /\
      0 <= now_unix - pd_publish_time (Feed.price (Feed.pyth_price acc))
        <= Verify.ORACLE_MAX_AGE_SECS }.

Variable t0 : Trace.

(** From [t0] on, what others provide is in order. *)
Definition others : Prop := forall t, extends t0 t -> supplied t.

(** From [t0] on, the operation has such a result.  It may stop at the age of a price that does
    not fit its type, when what others provide is not in order. *)
Definition answered {A} (m : Deploy A) (Q : A -> Prop) : Prop :=
  forall s, extends t0 (trace s) ->
    (exists a s', m s = (Ok a, s') /\ extends t0 (trace s') /\ Q a) \/
    (~ others /\ fst (m s) = Panic).

Lemma answered_ret {A} (a : A) (Q : A -> Prop) : Q a -> answered (st_ret a) Q.
Proof. intros Hq s Hx. left. by exists a, s. Qed.

Lemma answered_lift {A} (r : AnyRes A) (a : A) (Q : A -> Prop) :
  r = Ok a -> Q a -> answered (st_lift r) Q.
Proof. intros -> Hq s Hx. left. by exists a, s. Qed.

Lemma answered_bind {A B} (m : Deploy A) (h : A -> Deploy B) P Q :
  answered m P -> (forall a, P a -> answered (h a) Q) -> answered (st_bind m h) Q.
Proof.
  intros Hm Hh s Hx. unfold st_bind. destruct (Hm s Hx) as [(a & s1 & -> & Hx1 & Hp) | [Ho Hp]].
  - exact (Hh a Hp s1 Hx1).
  - right. split; [done |]. destruct (m s) as [r s1]. cbn in Hp. by subst r.
Qed.

Lemma answered_read key :
  answered (read_account_info key) (fun r => exists t, extends t0 t /\ on_read t key = r).
Proof.
  intros s Hx. left. eexists _, _. unfold read_account_info, ask. cbn.
  split_and!; [done | | by eexists]. eapply extends_trans; [exact Hx | by eexists].
Qed.

(** The checks on what others provide. *)
Definition foreign (name : string) : Prop :=
  name = "program.executable"%string \/ String.prefix "mint." name = true \/
  String.prefix "oracle." name = true.

Lemma foreign_mint x : foreign ("mint." ++ x).
Proof. right. left. by destruct x. Qed.
Lemma foreign_oracle x : foreign ("oracle." ++ x).
Proof. right. right. by destruct x. Qed.

(** A report in which a check fails only if it is one of these, and not even then when what
    others provide is in order; it contains the checks of an earlier one. *)
Definition grown (r r' : Verify.Report) : Prop :=
  Forall (fun c => c.2 = true \/ foreign c.1 /\ ~ others) (Verify.checks r') /\
  Verify.checks r ⊆ Verify.checks r'.

Lemma grown_record name (pass : bool) r0 r :
  grown r0 r -> (pass = false -> foreign name /\ ~ others) -> grown r0 (Verify.record name pass r).
Proof.
  intros [Hr Hs] Hp. split; [| cbn; set_solver]. apply Forall_app. split; [done |].
  constructor; [| done]. cbn. destruct pass; auto.
Qed.

Lemma grown_trans r1 r2 r3 : grown r1 r2 -> grown r2 r3 -> grown r1 r3.
Proof. intros [_ H1] [Hf H2]. split; [done | set_solver]. Qed.

Lemma grown_self r r' : grown r r' -> grown r' r'.
Proof. intros [Hf _]. by split. Qed.

Lemma grown_failed r r' : others -> grown r r' -> Verify.failed r' = 0%nat.
Proof.
  intros Ho [Hf _]. unfold Verify.failed. induction Hf as [| c l [Hc | [_ Hn]] Hl IH]; [done | | done].
  rewrite filter_cons, decide_False by congruence. done.
Qed.

Lemma program_checked r :
  grown r r -> answered (Verify.verify_program (program_pubkey k) r) (grown r).
Proof.
  intros Hr. eapply answered_bind; [apply answered_read |]. intros ? (t & Ht & <-).
  apply answered_ret, grown_record; [done |]. intros Hf. split; [by left |]. intros Ho.
  destruct (su_program _ (Ho t Ht)) as (a & Ha & Hx). apply (rp_read Hrun) in Ha.
  rewrite Ha in Hf. congruence.
Qed.

Lemma config_checked r :
  has_config t0 -> grown r r ->
  answered (Verify.verify_global_config (program_pubkey k) (admin_of cfg k) r)
    (fun r' => grown r r' /\ ("global_config"%string, true) ∈ Verify.checks r').
Proof.
  intros Hc Hr. unfold Verify.verify_global_config. rewrite Hid.
  eapply answered_bind; [apply answered_read |]. intros ? (t & Ht & <-).
  eapply persistent_prefix in Hc; [| apply has_config_persistent | exact Ht].
  destruct Hc as (g & (a & Ha & Hg) & Hadm). apply (rp_read Hrun) in Ha.
  apply answered_ret. rewrite Ha, Hg, bool_decide_true by done.
  split; [by apply grown_record | cbn; set_solver].
Qed.

Lemma mints_checked l r :
  l ⊆ tokens cfg -> grown r r -> answered (Verify.verify_mints l false r) (grown r).
Proof.
  intros Hl Hr. enough (forall r', grown r r' -> answered (Verify.verify_mints l false r') (grown r)) by auto.
  induction l as [| tc l IH]; intros r' Hr'; cbn [Verify.verify_mints]; [by apply answered_ret |].
  eapply answered_bind; [apply answered_read |]. intros ? (t & Ht & <-).
  apply IH; [set_solver |]. apply grown_record; [done |]. intros Hf. split; [apply foreign_mint |].
  intros Ho. destruct (su_mints _ (Ho t Ht) tc) as (a & m & Ha & Hm & Hd); [set_solver |].
  apply (rp_read Hrun) in Ha. rewrite Ha, Hm, Hd, Z.eqb_refl in Hf. done.
Qed.

Lemma oracle_checked tc feed leg r :
  tc ∈ tokens cfg -> pyth_feed_for_label (tc_label tc) = Some feed -> grown r r ->
  answered (Verify.verify_oracle (oracle_pubkey k) feed (tc_label tc) leg r) (grown r).
Proof.
  intros Ht Hf Hr. eapply answered_bind; [apply answered_read |]. intros ? (t & Hx & <-).
  assert (Hfeed : others -> exists a acc,
      on_read t (fst (find_program_address [feed] (oracle_pubkey k))) = Ok a /\
      rm_owner a = oracle_pubkey k /\ Verify.decode_feed (rm_data a) = Some acc /\
      0 <= now_unix - pd_publish_time (Feed.price (Feed.pyth_price acc))
        <= Verify.ORACLE_MAX_AGE_SECS).
  { intros Ho. destruct (su_feeds _ (Ho t Hx) tc feed Ht Hf) as (a & acc & Ha & ?).
    apply (rp_read Hrun) in Ha. eauto. }
  assert (Hno : forall pass : bool, (others -> pass = true) ->
    answered (st_ret (Verify.record ("oracle." ++ tc_label tc ++ "." ++ leg) pass r)) (grown r)).
  { intros pass Hp. apply answered_ret, grown_record; [done |]. intros ->.
    split; [apply foreign_oracle |]. intros Ho. by discriminate (Hp Ho). }
  destruct (on_read t _) as [info | |]; [| apply Hno; intros Ho;
    by destruct (Hfeed Ho) as (? & ? & ? & _)..].
  destruct (bool_decide_reflect (rm_owner info = oracle_pubkey k)) as [_ | Hn]; cbn [negb].
  2: { apply Hno. intros Ho. by destruct (Hfeed Ho) as (? & ? & [= <-] & ? & _). }
  destruct (Verify.decode_feed (rm_data info)) as [acc |] eqn:Ed.
  2: { apply Hno. intros Ho. destruct (Hfeed Ho) as (? & ? & [= <-] & _ & ? & _). congruence. }
  assert (Hage : others -> 0 <= now_unix - pd_publish_time (Feed.price (Feed.pyth_price acc))
                   <= Verify.ORACLE_MAX_AGE_SECS).
  { intros Ho. destruct (Hfeed Ho) as (? & ? & [= <-] & _ & Hd & ?). by simplify_eq. }
  clear Hfeed. unfold Verify.age_of, Verify.ORACLE_MAX_AGE_SECS in *.
  destruct ((I64_MIN <=? _) && _)%bool eqn:Eage.
  - eapply answered_bind; [by eapply (answered_lift _ _ (eq _)) |]. intros ? <-.
    apply Hno. intros Ho. apply Z.leb_le. by apply Hage.
  - intros s _. right. split; [| done]. intros Ho. apply Hage in Ho.
    rewrite (proj2 (Z.leb_le _ _)), (proj2 (Z.leb_le _ _)) in Eage by widths_lia. done.
Qed.

Lemma legs_checked l r :
  (forall leg tc, (leg, tc) ∈ l ->
     tc ∈ tokens cfg /\ pyth_feed_for_label (tc_label tc) <> None) ->
  grown r r -> answered (Verify.verify_legs (oracle_pubkey k) l r) (grown r).
Proof.
  revert r. induction l as [| [leg tc] l IH]; intros r Hl Hr; cbn [Verify.verify_legs];
    [by apply answered_ret |].
  destruct (Hl leg tc) as [Ht Hf]; [set_solver |].
  destruct (pyth_feed_for_label (tc_label tc)) as [feed |] eqn:Ef; [| done].
  eapply answered_bind; [by apply oracle_checked |]. intros r' Hr' s Hx.
  destruct (IH r') with (s := s) as [(r'' & s' & ? & ? & Hg) | ?];
    [set_solver | by eapply grown_self | done | left | by right].
  exists r'', s'. eauto using grown_trans.
Qed.

Lemma token_by_label_in label tc : token_by_label cfg label = Some tc -> tc ∈ tokens cfg.
Proof.
  unfold token_by_label. destruct (list_find _ _) as [[i x] |] eqn:E; cbn; [| done].
  intros [= <-]. apply list_find_Some in E as (E & _). by apply list_elem_of_lookup_2 in E.
Qed.

Definition market_check (p : MarketPair) : string :=
  "market." ++ supply_label p ++ "/" ++ collateral_label p.

Lemma market_checked p r :
  all_have_feeds -> p ∈ effective_market_pairs cfg -> has_market p t0 -> grown r r ->
  answered (Verify.verify_market cfg (program_pubkey k) (oracle_pubkey k)
              (admin_default_pubkey k) p r)
    (fun r' => grown r r' /\ (market_check p, true) ∈ Verify.checks r').
Proof.
  intros Hf Hp Hm Hr. pose proof Hm as (supply & collateral & _ & Hs & Hc & _).
  unfold Verify.verify_market. rewrite Hs, Hc.
  destruct (Hf p supply collateral Hp Hs Hc) as [F1 F2].
  eapply answered_bind; [apply answered_read |]. intros ? (t & Ht & <-).
  eapply persistent_prefix in Hm; [| apply has_market_persistent | exact Ht].
  destruct Hm as (supply' & collateral' & m & Hs' & Hc' & (a & Ha & Hd) & Hma). simplify_eq.
  apply (rp_read Hrun) in Ha. unfold derive_market_pda in Ha. rewrite Ha. cbv beta iota. rewrite Hd, Hma.
  eapply answered_bind with (P := fun b => b = true); [by eapply answered_lift |]. intros ? ->.
  set (r1 := Verify.record _ true r). assert (H1 : grown r r1) by (by apply grown_record).
  intros s Hx. destruct (legs_checked [("supply"%string, supply); ("collateral"%string, collateral)] r1)
    with (s := s) as [(r'' & s' & ? & ? & Hg) | ?];
    [| by eapply grown_self | done | left | by right].
  - intros leg tc. rewrite !elem_of_cons, elem_of_nil.
    intros [[= -> ->] | [[= -> ->] | []]]; (split; [by eapply token_by_label_in | done]).
  - exists r'', s'. split_and!; [done.. | by eapply grown_trans |]. apply Hg. cbn. set_solver.
Qed.

Lemma markets_checked l r :
  all_have_feeds -> l ⊆ effective_market_pairs cfg -> (forall p, p ∈ l -> has_market p t0) ->
  grown r r ->
  answered (Verify.verify_markets cfg (program_pubkey k) (oracle_pubkey k)
              (admin_default_pubkey k) l r)
    (fun r' => grown r r' /\ forall p, p ∈ l -> (market_check p, true) ∈ Verify.checks r').
Proof.
  intros Hf. revert r. induction l as [| p l IH]; intros r Hl Hm Hr; cbn [Verify.verify_markets].
  { apply answered_ret. split; [done | set_solver]. }
  eapply answered_bind; [apply market_checked; [done | set_solver | set_solver | done] |].
  intros r' [Hr' Hp] s Hx.
  destruct (IH r') with (s := s) as [(r'' & s' & ? & ? & Hg & Hall) | ?];
    [set_solver | set_solver | by eapply grown_self | done | left | by right].
  exists r'', s'. split_and!; [done.. | by eapply grown_trans |].
  intros q [-> | Hq]%elem_of_cons; [by apply Hg | auto].
Qed.

Lemma loaded m path keypair : load_keypair path = Ok (keypair, x_only_public_key keypair) ->
  answered (st_lift (with_context m (load_keypair path)))
    (fun x => x = (keypair, x_only_public_key keypair)).
Proof. intros H. eapply answered_lift; [by rewrite H | done]. Qed.

(** What a report says when the configuration and the markets are there. *)
Definition confirmed (r : Verify.Report) : Prop :=
  ("global_config"%string, true) ∈ Verify.checks r /\
  (forall p, p ∈ effective_market_pairs cfg -> (market_check p, true) ∈ Verify.checks r) /\
  forall name, (name, false) ∈ Verify.checks r -> foreign name.

Lemma verification_checked :
  load_keys cfg = Ok k -> all_have_feeds -> has_config t0 ->
  (forall p, p ∈ effective_market_pairs cfg -> has_market p t0) ->
  answered (Verify.run_checks cfg None false)
    (fun r => confirmed r /\ (others -> Verify.failed r = 0%nat)).
Proof.
  intros Hk Hf Hc Hm. unfold load_keys in Hk.
  apply res_bind_ok in Hk as ([program pk1] & K1 & Hk).
  apply res_bind_ok in Hk as ([oracle pk2] & K2 & Hk).
  apply res_bind_ok in Hk as ([deployer pk3] & K3 & Hk).
  apply res_bind_ok in Hk as ([admin pk4] & K4 & [= Hk]).
  assert (Hl : forall path kp pk, load_keypair path = Ok (kp, pk) -> pk = x_only_public_key kp).
  { unfold load_keypair. intros path kp pk H. apply res_bind_ok in H as (kp' & _ & [= -> ->]). done. }
  pose proof (Hl _ _ _ K1) as ->. pose proof (Hl _ _ _ K2) as ->. pose proof (Hl _ _ _ K4) as ->.
  unfold Verify.run_checks.
  do 3 (eapply answered_bind; [by apply loaded |]; intros ? ->).
  replace (x_only_public_key program) with (program_pubkey k) by (by rewrite <- Hk).
  replace (x_only_public_key oracle) with (oracle_pubkey k) by (by rewrite <- Hk).
  replace (x_only_public_key admin) with (admin_default_pubkey k) by (by rewrite <- Hk).
  fold (admin_of cfg k).
  eapply answered_bind; [apply program_checked; split; [constructor | done] | intros r1 H1].
  eapply answered_bind; [apply config_checked; [done | by eapply grown_self] | intros r2 [H2 Hgc]].
  eapply answered_bind; [apply mints_checked; [done | by eapply grown_self] | intros r3 H3].
  eapply answered_bind; [apply markets_checked; [done | done | done | by eapply grown_self] |].
  intros r4 [H4 Hall]. apply answered_ret. split; [| intros Ho; by eapply grown_failed].
  split_and!; [by apply H4, H3 | done |]. intros name Hn. destruct H4 as [H4 _].
  by destruct (proj1 (list.Forall_forall _ _) H4 _ Hn) as [? | [? _]].
Qed.

End Deployment.

(** ** Deploying, then verifying *)

Section Verified.
Context {FX : FixedCrate} {FXL : FixedLaws FX} {PC : PdaCrate} {BC : OracleBuild} {RT : Runtime}.
Context {CH : Chain} {ME : Memory} {BO : BorshCrate} {BOL : BorshLaws BO}.
Context {SDK : ArchSdk} {PT : PubkeyText} {FF : FixedFloats} {TY : TypedCrates} {AT : AplToken}.
Context {WO : World}.

(** A run that ends well passed its guards and was real. *)
Lemma main_is_real env cfg k s s' :
  from_env env = Ok cfg -> load_keys cfg = Ok k ->
  env_flag env "DRY_RUN" false = false -> step_create_market (steps_of_env env) = true ->
  deploy_main false env s = (Ok tt, s') ->
  program_pubkey k = id /\ exists s1, real_run cfg k (steps_of_env env) s1 = (Ok tt, s').
Proof.
  intros Hc Hk Hd Hst H. unfold deploy_main in H. rewrite Hd in H. cbn [orb] in H.
  apply st_bind_ok in H as (cfg' & s1 & H1 & H). apply st_lift_ok in H1 as [H1 <-].
  apply st_bind_ok in H as (k' & s2 & H2 & H). apply st_lift_ok in H2 as [H2 <-].
  rewrite Hc in H1. injection H1 as <-. rewrite Hk in H2. injection H2 as <-.
  apply st_bind_ok in H as ([] & s3 & H3 & H). split; [| by eexists].
  unfold preflight in H3. apply st_bind_ok in H3 as ([] & s4 & H4 & _).
  unfold touches_lending_program in H4. rewrite Hst, !orb_true_r in H4.
  by destruct (bool_decide_reflect (program_pubkey k = id)).
Qed.


End Verified.

(** * A deployment to try the tool on

    A small mainnet: the accounts of a deployer, an admin and two mints, two prices, and the
    lending program, which runs on the instructions that the deploy tool sends.  One run creates
    the configuration and a market of USDC against BTC. *)
#[local] Open Scope string_scope.
#[local] Open Scope Z_scope.

(** ** The crates *)

Inductive DemoKey : Type := KProgram | KOracle | KDeployer | KAdmin.

Definition sdk_demo : ArchSdk := {|
  Keypair := DemoKey;
  FullClient.Network := ();
  x_only_public_key := fun k => match k with
    | KProgram => id | KOracle => key_ex 9 | KDeployer => key_ex 61 | KAdmin => key_ex 62 end;
  required_signers := fun m => [am_payer m];
  message_hash := fun m => am_blockhash m;
  sign_message_bip322 := fun _ h _ => h |}.

Definition text_demo : PubkeyText := {|
  bs58_decode := fun _ => None;
  pubkey_from_str := hex_decode 32 |}.

(** A double in 48 fractional bits, where it fits. *)
Definition floats_demo : FixedFloats := fun _ x =>
  match x with
  | S754_zero _ => Some 0
  | S754_finite s m e =>
    let v := Z.shiftl (if s then - Zpos m else Zpos m) (e + 48) in
    if (I128_MIN <=? v) && (v <=? I128_MAX) then Some v else None
  | _ => None
  end.

Definition mint_demo (l : list Z) : option Mint :=
  match l with [5] => Some (mkMint 6) | [6] => Some (mkMint 8) | _ => None end.
Definition no_token (l : list Z) : option TokenAccount := None.

Definition apl_demo : AplToken := {|
  unpack_mint := fun l => match mint_demo l with
    | Some m => Some (mkMintState (mi_decimals m) 0 None) | None => None end;
  unpack_account_amount := fun _ => None;
  mint_to := fun _ _ _ _ => None |}.

(** The system program creates an account of zeros. *)
Definition creates_size (k : Pubkey) (c : Call) : option Z :=
  match call c with
  | create_account _ k' _ n _ => if bool_decide (k' = k) then Some n else None
  | _ => None
  end.
Definition memory_demo : Memory := fun cs a =>
  match omap (creates_size (ai_key a)) cs with
  | n :: _ => mkAccountInfo (ai_key a) id (ai_is_signer a) (ai_is_writable a)
                (replicate (Z.to_nat n) 0)
  | [] => a
  end.

#[local] Existing Instances fixed_ref fixed_ref_laws pda_short borsh_ex chain_ex runtime_ex
  memory_demo borsh_ref borsh_ref_laws sdk_demo text_demo floats_demo apl_demo.

#[local] Instance typed_demo : TypedCrates.
Proof.
  split.
  - intros seeds p. cbn. widths_lia.
  - intros []; (split; [reflexivity |]); vm_compute; repeat constructor; discriminate.
  - discriminate.
  - intros s key H. exact (hex_decode_typed 32 s key H).
  - intros x b H. unfold fx_from_f64, floats_demo in H.
    destruct x; [injection H as <-; widths_lia | discriminate..|]. cbv zeta in H.
    destruct (_ && _) eqn:E in H; [| discriminate]. injection H as <-.
    apply andb_prop in E as [?%Z.leb_le ?%Z.leb_le]. done.
Qed.

#[local] Instance instruction_eq_dec : EqDecision Instruction.
Proof. solve_decision. Defined.

(** ** The environment *)

Definition USDC_MINT : string := "0404040404040404040404040404040404040404040404040404040404040404".
Definition BTC_MINT : string := "0606060606060606060606060606060606060606060606060606060606060606".

Definition env_demo : Env := fun name =>
  if String.eqb name "NETWORK" then Some "mainnet"
  else if String.eqb name "TOKENS" then Some ("USDC:" ++ USDC_MINT ++ ":6, BTC:" ++ BTC_MINT ++ ":8")
  else if String.eqb name "MARKET_PAIRS" then Some "USDC/BTC"
  else None.

Definition cfg_demo : DeployConfig := Eval vm_compute in
  match from_env env_demo with
  | Ok cfg => cfg
  | _ => mkDeployConfig Network.Mainnet "" "" "" "" "" "" "" None None 0 [] None None [] 0
           default_params false 0 ""
  end.

Definition keys_demo : Keys := mkKeys KProgram KOracle KDeployer KAdmin.

Lemma env_demo_read : from_env env_demo = Ok cfg_demo.
Proof. vm_compute. reflexivity. Qed.

(** ** The program on the instructions of the run *)

Definition config_ix_demo : Instruction := Eval vm_compute in
  snd (Ixs.create_global_config_ix id (key_ex 62) (key_ex 62) (key_ex 62) 5000).

Definition market_demo : CreateMarketInstruction := Eval vm_compute in
  match build_create_market_instruction (E := Anyhow) 0 100 (market_params cfg_demo)
          (new_pyth (default [] (pyth_feed_for_label "USDC")) (key_ex 9))
          (new_pyth (default [] (pyth_feed_for_label "BTC")) (key_ex 9)) with
  | Ok ci => ci
  | _ => market_ix
  end.
Definition market_ix_demo : Instruction := Eval vm_compute in
  snd (Ixs.create_market_ix market_demo (key_ex 4) (key_ex 6) id (key_ex 62) (key_ex 62)).

Definition feed_key (label : string) : Pubkey :=
  fst (find_program_address [default [] (pyth_feed_for_label label)] (key_ex 9)).

(** The accounts before the run. *)
Definition before_demo : gmap Pubkey RemoteAccount :=
  list_to_map
    [(id, mkRemote (key_ex 53) 1 [] true);
     (key_ex 61, mkRemote (key_ex 52) 6000000 [] false);
     (key_ex 62, mkRemote (key_ex 52) 1000 [] false);
     (key_ex 4, mkRemote (key_ex 50) 1 [5] false);
     (key_ex 6, mkRemote (key_ex 50) 1 [6] false);
     (feed_key "USDC", mkRemote (key_ex 9) 1 (replicate PYTH_PRICE_ACCOUNT_SIZE 0) false);
     (feed_key "BTC", mkRemote (key_ex 9) 1 (replicate PYTH_PRICE_ACCOUNT_SIZE 0) false)].

(** What the program is shown, and what it writes. *)
Definition shown (A : gmap Pubkey RemoteAccount) : Store := fun k =>
  match A !! k with Some a => (rm_owner a, rm_data a) | None => (key_ex 52, []) end.

#[local] Instance codec_demo : AccountCodec := bytemuck_codec no_token mint_demo.

Definition written_by (A : gmap Pubkey RemoteAccount) (i : Instruction)
  : Result LendingProgramErrorKind (list (Pubkey * AccountData)) :=
  match deserialize (ix_data i) with
  | Some (ix, []) =>
    res_map written (autara_process_instruction id (present (shown A) <$> ix_accounts i) ix 1000)
  | _ => Panic
  end.

Definition stored (A : gmap Pubkey RemoteAccount) (i : Instruction) : gmap Pubkey RemoteAccount :=
  match written_by A i with
  | Ok l => foldr (fun '(k, d) => <[k := mkRemote id 1 (account_bytes d) false]>) A l
  | _ => A
  end.

Definition with_config : gmap Pubkey RemoteAccount := stored before_demo config_ix_demo.
Definition with_market : gmap Pubkey RemoteAccount := stored with_config market_ix_demo.

Example config_written :
  written_by before_demo config_ix_demo
  = Ok [(fst (find_global_config_pda id),
         DGlobalConfig (mkGlobalConfig (key_ex 62) (mkPodOption (key_ex 0)) (key_ex 62) 5000))].
Proof. vm_compute. reflexivity. Qed.

Definition state_demo : Market := Eval vm_compute in
  match written_by with_config market_ix_demo with
  | Ok [(_, DMarket m)] => m
  | _ => zero_market
  end.
Example market_written :
  written_by with_config market_ix_demo
  = Ok [(fst (find_market_pda id (key_ex 62) (key_ex 4) (key_ex 6) 0), DMarket state_demo)].
Proof. vm_compute. reflexivity. Qed.

(** ** The network *)

Definition is_wait (e : Event) : bool := match e with Wait _ _ => true | _ => false end.
Definition waits (t : Trace) : nat := length (List.filter is_wait t).

Definition chain_at (n : nat) : gmap Pubkey RemoteAccount :=
  match n with O => before_demo | S O => with_config | _ => with_market end.
Definition chain_demo (t : Trace) : gmap Pubkey RemoteAccount := chain_at (waits t).

(** The two instructions, each in its turn. *)
Definition accepted (n : nat) (tx : Transaction) : bool :=
  match n with
  | O => bool_decide (tx = [config_ix_demo])
  | S O => bool_decide (tx = [market_ix_demo])
  | _ => false
  end.

Definition world_demo : World := {|
  on_read := fun t k => match chain_demo t !! k with
    | Some a => Ok a | None => Err (RequestFailed "not found") end;
  on_best_hash := fun _ => Ok [1];
  on_airdrop := fun _ _ => Err (RequestFailed "no faucet");
  on_send := fun t tx =>
    if accepted (waits t) (am_instructions (rt_message tx)) then Ok [[2]]
    else Err (RequestFailed "refused");
  on_wait := fun _ _ => Ok [mkProcessedTx (mkProcessed [] (fun _ => None)) Processed []];
  on_upload := fun _ _ _ _ => Ok tt;
  on_write := fun _ _ _ => Ok tt;
  key_file := fun path =>
    if String.eqb path "autara-deploy/.keys-testnet/program.json" then Ok KProgram
    else if String.eqb path "autara-deploy/.keys-testnet/oracle.json" then Ok KOracle
    else if String.eqb path "autara-deploy/.keys-testnet/deployer.json" then Ok KDeployer
    else if String.eqb path "autara-deploy/.keys-testnet/admin.json" then Ok KAdmin
    else Err (Message "no such file");
  file := fun _ => Some [7];
  git_short_commit := None;
  now_unix := 30;
  sha256 := fun l => l;
  build_and_sign_transaction := fun m _ _ => Ok (mkRuntimeTx [] m);
  txid_text := fun _ => "" |}.
#[local] Existing Instance world_demo.

Lemma keys_demo_read : load_keys cfg_demo = Ok keys_demo.
Proof. vm_compute. reflexivity. Qed.

(** ** It runs the program *)

Definition config_demo : GlobalConfig :=
  mkGlobalConfig (key_ex 62) (mkPodOption (key_ex 0)) (key_ex 62) 5000.

Lemma stored_one A i k d :
  written_by A i = Ok [(k, d)] -> A !! k = None ->
  A ⊆ stored A i /\ stored A i !! k = Some (mkRemote id 1 (account_bytes d) false).
Proof.
  intros Hw Hk. unfold stored. rewrite Hw. cbn. split; [by apply insert_subseteq |].
  apply lookup_insert_eq.
Qed.

Lemma stored_executed A i l :
  written_by A i = Ok l ->
  (forall k d, (k, d) ∈ l -> stored A i !! k = Some (mkRemote id 1 (account_bytes d) false) /\
                             d ∈ readings no_token mint_demo (account_bytes d)) ->
  executed no_token mint_demo i (stored A i).
Proof.
  unfold written_by. intros H Hl. destruct (deserialize (ix_data i)) as [[ix rest] |] eqn:Ed;
    [| discriminate]. destruct rest; [| discriminate].
  destruct (autara_process_instruction id _ ix 1000) as [o | |] eqn:Eo; [| discriminate..].
  injection H as H. exists (shown A), 1000, ix, o. split_and!; [exact Ed | exact Eo |].
  intros k d Hd. rewrite H in Hd. destruct (Hl k d Hd). eauto.
Qed.

Lemma config_stored :
  before_demo ⊆ with_config /\
  with_config !! fst (find_global_config_pda id)
    = Some (mkRemote id 1 (account_bytes (DGlobalConfig config_demo)) false).
Proof. apply stored_one; [exact config_written | vm_compute; reflexivity]. Qed.

Lemma market_stored :
  with_config ⊆ with_market /\
  with_market !! fst (find_market_pda id (key_ex 62) (key_ex 4) (key_ex 6) 0)
    = Some (mkRemote id 1 (account_bytes (DMarket state_demo)) false).
Proof. apply stored_one; [exact market_written | vm_compute; reflexivity]. Qed.

Lemma config_executed : executed no_token mint_demo config_ix_demo with_config.
Proof.
  eapply stored_executed; [exact config_written |].
  intros k d [= -> ->]%list_elem_of_singleton. split; [apply config_stored |].
  apply elem_of_readings. vm_compute. reflexivity.
Qed.

Lemma market_executed : executed no_token mint_demo market_ix_demo with_market.
Proof.
  eapply stored_executed; [exact market_written |].
  intros k d [= -> ->]%list_elem_of_singleton. split; [apply market_stored |].
  apply elem_of_readings. vm_compute. reflexivity.
Qed.

Lemma waits_snoc (t : Trace) e : waits (t ++ [e])%list = (waits t + if is_wait e then 1 else 0)%nat.
Proof.
  unfold waits. rewrite List.filter_app, length_app. cbn. by destruct (is_wait e).
Qed.

Lemma chain_at_grows n : chain_at n ⊆ chain_at (S n).
Proof. destruct n as [| [| n]]; [apply config_stored | apply market_stored | done]. Qed.

Lemma chain_demo_grows (t : Trace) e : chain_demo t ⊆ chain_demo (t ++ [e])%list.
Proof.
  unfold chain_demo. rewrite waits_snoc.
  destruct (is_wait e); [rewrite Nat.add_1_r; apply chain_at_grows | by rewrite Nat.add_0_r].
Qed.

Lemma demo_runs_program : runs_program no_token mint_demo chain_demo.
Proof.
  split.
  - intros t key a Ha. cbn. by rewrite Ha.
  - by intros m ks n tx [= <-].
  - intros t tx txid ids p ps i Hs _ _ Hi _. cbn in Hs. rewrite Hi in Hs.
    unfold chain_demo. rewrite !waits_snoc. cbn [is_wait]. rewrite Nat.add_0_r, Nat.add_1_r.
    destruct (accepted (waits t) [i]) eqn:Ea; [| discriminate]. unfold accepted in Ea.
    destruct (waits t) as [| [| n]]; [| | discriminate]; apply bool_decide_eq_true in Ea;
      injection Ea as ->; [apply config_executed | apply market_executed].
  - intros t e g (a & Ha & Hg). exists g. split; [| done]. exists a. split; [| done].
    by eapply lookup_weaken, chain_demo_grows.
  - intros t e key m (a & Ha & Hm). exists m. split; [| done]. exists a. split; [| done].
    by eapply lookup_weaken, chain_demo_grows.
Qed.

(** ** What others provide *)

Lemma provided t key a : before_demo !! key = Some a -> chain_demo t !! key = Some a.
Proof.
  intros H. unfold chain_demo. induction (waits t) as [| n IH]; [exact H |].
  by eapply lookup_weaken, chain_at_grows.
Qed.

Definition sees (tc : TokenConfig) : Prop :=
  (exists a m, before_demo !! tc_mint tc = Some a /\ unpack_mint (rm_data a) = Some m /\
     ms_decimals m = tc_decimals tc) /\
  exists feed a acc, pyth_feed_for_label (tc_label tc) = Some feed /\
    before_demo !! fst (find_program_address [feed] (key_ex 9)) = Some a /\
    rm_owner a = key_ex 9 /\ Verify.decode_feed (rm_data a) = Some acc /\
    pd_publish_time (Feed.price (Feed.pyth_price acc)) = 0.

Lemma tokens_seen : Forall sees (tokens cfg_demo).
Proof.
  repeat constructor; vm_compute; do 2 eexists; try (split_and!; reflexivity);
    eexists; split_and!; reflexivity.
Qed.

Lemma demo_supplied t : supplied chain_demo cfg_demo keys_demo t.
Proof.
  pose proof (proj1 (list.Forall_forall _ _) tokens_seen) as Hs. split.
  - eexists. split; [apply provided; vm_compute; reflexivity | reflexivity].
  - intros tc Ht. destruct (Hs tc Ht) as [(a & m & Ha & ?) _]. exists a, m.
    split; [by apply provided | done].
  - intros tc feed Ht Hf. destruct (Hs tc Ht) as [_ (feed' & a & acc & Hf' & Ha & Ho & Hd & Hp)].
    rewrite Hf in Hf'. injection Hf' as <-. exists a, acc.
    split; [by apply provided |]. split; [exact Ho |]. split; [exact Hd |]. rewrite Hp.
    vm_compute. split; discriminate.
Qed.

Lemma demo_has_feeds : all_have_feeds cfg_demo.
Proof.
  intros p supply collateral ->%list_elem_of_singleton Hs Hc. vm_compute in Hs, Hc.
  injection Hs as <-. injection Hc as <-. split; vm_compute; discriminate.
Qed.

(** ** The run *)

Definition start_demo : Session := mkSession [] (new_artifact cfg_demo keys_demo).

Definition end_demo : Session := snd (deploy_main false env_demo start_demo).

Lemma demo_ends_well : deploy_main false env_demo start_demo = (Ok tt, end_demo).
Proof.
  unfold end_demo. assert (fst (deploy_main false env_demo start_demo) = Ok tt)
    by (vm_compute; reflexivity).
  by destruct (deploy_main _ _ _) as [r s]; cbn in *; subst.
Qed.

Definition sends (l : Transaction) (e : Event) : bool :=
  match e with Send tx _ => bool_decide (am_instructions (rt_message tx) = l) | _ => false end.

Lemma sends_split l (t : Trace) :
  existsb (sends l) t = true ->
  exists pre tx r post, t = (pre ++ Send tx r :: post)%list /\ am_instructions (rt_message tx) = l.
Proof.
  intros (e & Hin & He)%existsb_exists. apply list_elem_of_In, list_elem_of_split in Hin
    as (pre & post & ->). destruct e as [| | | tx r | | |]; try discriminate.
  exists pre, tx, r, post. split; [done | by apply bool_decide_eq_true in He].
Qed.

Lemma market_was_sent : existsb (sends [market_ix_demo]) (trace end_demo) = true.
Proof. vm_compute. reflexivity. Qed.

(** The market is created behind the guards. *)
Lemma guarded_witness :
  Forall no_airdrop (trace end_demo) /\
  exists pre tx r post, trace end_demo = (pre ++ Send tx r :: post)%list /\
    am_instructions (rt_message tx) = [market_ix_demo] /\
    cleared cfg_demo keys_demo (steps_of_env env_demo) false pre.
Proof.
  destruct (deploy_runs_are_guarded false env_demo start_demo cfg_demo keys_demo eq_refl
    env_demo_read keys_demo_read) as (Hl & _ & Hm).
  split; [exact (Hm eq_refl) |]. destruct (sends_split _ _ market_was_sent) as (pre & tx & r & post & E & Hi).
  exists pre, tx, r, post. split; [exact E |]. split; [exact Hi |].
  exact (proj1 (Hl pre _ post E)).
Defined.


(** *** Other runs *)

(** A dry run reads, and sends nothing. *)
Example dry_demo : forallb (fun e => match e with Read _ _ | BestHash _ => true | _ => false end)
  (trace (snd (deploy_main true env_demo start_demo))) = true.
Proof. vm_compute. reflexivity. Qed.

(** A second run finds the market and creates nothing. *)
Example again_demo :
  mr_created <$> da_markets (artifact (snd (create_markets cfg_demo keys_demo
    (effective_market_pairs cfg_demo) (mkSession (trace end_demo) (artifact start_demo))))) = [false].
Proof. vm_compute. reflexivity. Qed.
