(* ===== verification/Api.v ===== *)
(** * The API server

    [autara-client/src/api] and [client/client_without_signer.rs]: the requests and how keys and
    amounts are written in them ([types.rs], [serde_helper.rs]), what is told of a market
    ([market.rs]) and the server ([server.rs]), which answers from the shared cache, builds
    transactions for users to sign, and sends what they have signed.  [test.rs]: the minter of
    its faucet.  The derived JSON codecs, the transport and the tracing are left out. *)
From Stdlib Require Import String Ascii SpecFloat.
From stdpp Require Import gmap.
From S2P Require Import Prelude.
From S2P Require Import Text.
From S2P Require Import Errors.
From S2P Require Import Monad.
From S2P Require Import FixedPoint.
From S2P Require Import InterestRatePerSecond.
From S2P Require Import InterestRateCurve.
From S2P Require Import Pda.
From S2P Require Import Oracle.
From S2P Require Import GlobalConfig.
From S2P Require Import MarketConfig.
From S2P Require Import SupplyPosition.
From S2P Require Import BorrowPosition.
From S2P Require Import CollateralVault.
From S2P Require Import SupplyVault.
From S2P Require Import Market.
From S2P Require Import MarketWrapper.
From S2P Require Import Accounts.
From S2P Require Import ProgramErrors.
From S2P Require Import Events.
From S2P Require Import Processor.
From S2P Require Import ProcessorAdmin.
From S2P Require Import Borsh.
From S2P Require Import IxBuilders.
From S2P Require Import TxBuilder.
From S2P Require Import RpcExt.
From S2P Require Import ReadClient.
From S2P Require Import ReadClientFacts.
From S2P Require Import FullClient.
From S2P Require Import PythPusher.
From S2P Require Import Metrics.
From S2P Require Import DeployConfig.
From S2P Require Import Deploy.
#[local] Open Scope string_scope.
#[local] Open Scope Z_scope.

(** ** [serde_helper.rs] *)

(** A JSON value, as far as the helpers look at it. *)
Inductive Json : Type := JNull | JString (s : string) | JArray (l : list Json) | JOther.

Class Base58 : Type := bs58_encode : list Z -> string.

Definition Serde : Type -> Type := Result string.

(** [String::deserialize], [Option::<String>::deserialize] and [Vec::<String>::deserialize] *)
Definition as_string (j : Json) : Serde string :=
  match j with JString s => Ok s | _ => Err "invalid type: expected a string" end.
Definition as_optional_string (j : Json) : Serde (option string) :=
  match j with JNull => Ok None | j => let? s := as_string j in Ok (Some s) end.
Definition as_strings (j : Json) : Serde (list string) :=
  match j with JArray l => res_list as_string l | _ => Err "invalid type: expected a sequence" end.

(** [u64::to_string]: at most twenty digits. *)
Definition digit (d : Z) : ascii := ascii_of_nat (48 + Z.to_nat d).
Fixpoint print_fuel (fuel : nat) (n : Z) (acc : string) : string :=
  match fuel with
  | O => acc
  | S fuel =>
    let acc := String (digit (n mod 10)) acc in
    if n <? 10 then acc else print_fuel fuel (n / 10) acc
  end.
Definition print_u64 (n : Z) : string := print_fuel 20 n EmptyString.

Section Helpers.
Context {PT : PubkeyText} {B58 : Base58}.

Definition parse_pubkey_str (raw : string) : Serde Pubkey :=
  let raw := trim raw in
  if String.eqb raw "" then Err "empty pubkey"
  else
    let by_hex :=
      match pubkey_from_str raw with
      | Some pk => Ok pk
      | None =>
        match hex_decode 32 raw with
        | Some bytes => Ok bytes
        | None => Err ("invalid pubkey '" ++ raw ++ "' (expected base58 or hex)")
        end
      end in
    match bs58_decode raw with
    | Some bytes => if (length bytes =? 32)%nat then Ok bytes else by_hex
    | None => by_hex
    end.

Definition serde_pubkey_serialize (pubkey : Pubkey) : Json := JString (bs58_encode pubkey).
Definition serde_pubkey_deserialize (j : Json) : Serde Pubkey :=
  let? s := as_string j in parse_pubkey_str s.

Definition serde_pubkey_vec_serialize (keys : list Pubkey) : Json :=
  JArray (serde_pubkey_serialize <$> keys).
Definition serde_pubkey_vec_deserialize (j : Json) : Serde (list Pubkey) :=
  let? keys := as_strings j in res_list parse_pubkey_str keys.

Definition serde_optional_pubkey_serialize (pubkey : option Pubkey) : Json :=
  match pubkey with Some pk => serde_pubkey_serialize pk | None => JNull end.
Definition serde_optional_pubkey_deserialize (j : Json) : Serde (option Pubkey) :=
  let? s := as_optional_string j in
  match s with Some s => let? pk := parse_pubkey_str s in Ok (Some pk) | None => Ok None end.

(** [serde_from_str] and [serde_from_optional_str], used for amounts *)
Definition serde_from_str_serialize (value : Z) : Json := JString (print_u64 value).
Definition serde_from_str_deserialize (j : Json) : Serde Z :=
  let? s := as_string j in ok_or "invalid digit found in string" (parse_u64 s).

Definition serde_from_optional_str_serialize (value : option Z) : Json :=
  match value with Some v => serde_from_str_serialize v | None => JNull end.
Definition serde_from_optional_str_deserialize (j : Json) : Serde (option Z) :=
  let? s := as_optional_string j in
  match s with
  | Some s => let? v := ok_or "invalid digit found in string" (parse_u64 s) in Ok (Some v)
  | None => Ok None
  end.

End Helpers.

(** ** [types.rs] *)

Record MarketUserAmountParams : Type := mkAmountParams {
  ma_market_id : Pubkey; ma_user : Pubkey; ma_amount : Z }.
Record MarketUserOptionalAmountParams : Type := mkOptionalAmountParams {
  mo_market_id : Pubkey; mo_user : Pubkey; mo_amount : option Z }.
Record UpdateConfigParams : Type := mkUpdateConfigParams {
  uc_market_id : Pubkey; uc_user : Pubkey; uc_config : UpdateConfigInstruction }.
Record UpdateGlobalConfigParams : Type := mkUpdateGlobalConfigParams {
  ug_user : Pubkey; ug_config : UpdateGlobalConfigInstruction }.
Record LiquidatePositionParams : Type := mkLiquidateParams {
  lp_user : Pubkey; lp_liquidatee_position : Pubkey; lp_market : Pubkey;
  lp_liquidate : LiquidateInstruction }.
Record CreateMarketParams : Type := mkCreateMarketParams {
  cm_payer : Pubkey; cm_curator : Pubkey; cm_supply_mint : Pubkey; cm_collateral_mint : Pubkey;
  cm_params : CreateMarketInstruction }.
Record BorrowAndDepositRequest : Type := mkBorrowAndDeposit {
  br_user : Pubkey; br_market_id : Pubkey; br_params : BorrowDepositAplInstruction }.
Record WithdrawAndRepayRequest : Type := mkWithdrawAndRepay {
  wa_user : Pubkey; wa_market_id : Pubkey; wa_params : WithdrawRepayAplInstruction }.

Module Req.
Inductive AutaraTransactionRequest : Type :=
| CreateMarket (p : CreateMarketParams)
| Supply (p : MarketUserAmountParams)
| Withdraw (p : MarketUserOptionalAmountParams)
| DepositCollateral (p : MarketUserAmountParams)
| WithdrawCollateral (p : MarketUserOptionalAmountParams)
| Borrow (p : MarketUserAmountParams)
| Repay (p : MarketUserOptionalAmountParams)
| UpdateConfig (p : UpdateConfigParams)
| UpdateGlobalConfig (p : UpdateGlobalConfigParams)
| LiquidatePosition (p : LiquidatePositionParams)
| RedeemCuratorFees (p : MarketUserAmountParams)
| RedeemProtocolFees (p : MarketUserAmountParams)
| BorrowAndDeposit (p : BorrowAndDepositRequest)
| WithdrawAndRepay (p : WithdrawAndRepayRequest).
End Req.
Export Req (AutaraTransactionRequest).

Record TransactionToSignResponse : Type := mkToSignResponse {
  tr_transaction_to_sign : list Z;
  tr_message : list Z;
  tr_signatures : list (list Z) }.
Record SendTransactionRequest : Type := mkSendRequest {
  sr_signatures : list (list Z);
  sr_message : list Z }.
Record SendTransactionResponse : Type := mkSendResponse {
  sp_signature : list Z;
  sp_events : list AutaraEvent }.
Record UserBalance : Type := mkUserBalance {
  ub_mint : Pubkey; ub_amount : Z; ub_ui_amount : string }.

(** [BuildTxTracingParams]: what is logged of a request. *)
Record BuildTxTracingParams : Type := mkTracing {
  tp_instruction : string; tp_user : Pubkey; tp_market_id : option Pubkey }.

Definition build_tx_tracing_params (self : AutaraTransactionRequest) : BuildTxTracingParams :=
  match self with
  | Req.CreateMarket p => mkTracing "CreateMarket" (cm_payer p) None
  | Req.Supply p => mkTracing "Supply" (ma_user p) (Some (ma_market_id p))
  | Req.Withdraw p => mkTracing "Withdraw" (mo_user p) (Some (mo_market_id p))
  | Req.DepositCollateral p => mkTracing "DepositCollateral" (ma_user p) (Some (ma_market_id p))
  | Req.WithdrawCollateral p => mkTracing "WithdrawCollateral" (mo_user p) (Some (mo_market_id p))
  | Req.Borrow p => mkTracing "Borrow" (ma_user p) (Some (ma_market_id p))
  | Req.Repay p => mkTracing "Repay" (mo_user p) (Some (mo_market_id p))
  | Req.UpdateConfig p => mkTracing "UpdateConfig" (uc_user p) (Some (uc_market_id p))
  | Req.UpdateGlobalConfig p => mkTracing "UpdateGlobalConfig" (ug_user p) None
  | Req.LiquidatePosition p => mkTracing "LiquidatePosition" (lp_user p) (Some (lp_market p))
  | Req.RedeemCuratorFees p => mkTracing "RedeemCuratorFees" (ma_user p) (Some (ma_market_id p))
  | Req.RedeemProtocolFees p => mkTracing "RedeemProtocolFees" (ma_user p) (Some (ma_market_id p))
  | Req.BorrowAndDeposit p => mkTracing "BorrowAndDeposit" (br_user p) (Some (br_market_id p))
  | Req.WithdrawAndRepay p => mkTracing "WithdrawAndRepay" (wa_user p) (Some (wa_market_id p))
  end.

(** ** [market.rs] *)

Record InterestRateCurveShapePoint : Type := mkShapePoint {
  sh_utilization : spec_float; sh_apy_borrow_rate : spec_float; sh_apy_lending_rate : spec_float }.

(** [SupplyVaultSummary::default()] *)
Definition default_summary : SupplyVaultSummary :=
  mkSupplyVaultSummary 0 0 0 0 0 (IFP 0) (mkRatePerSecond (IFP 0)) (mkRatePerSecond (IFP 0)).

Record FullMarket : Type := mkFullMarket {
  fm_market_id : Pubkey;
  fm_market : MarketWrapper;
  fm_total_collateral_atoms : Z;
  fm_supply_vault_summary : SupplyVaultSummary;
  fm_interest_rate_curve_shape : list InterestRateCurveShapePoint }.

Section Markets.
Context {FX : FixedCrate} {FL : FloatLib}.

(** A point of the curve, at a utilisation in basis points. *)
Definition shape_point (curve : PodInterestRateCurve) (utilization_in_bps : Z)
  : option InterestRateCurveShapePoint :=
  let utilization := from_i64_u64_ratio utilization_in_bps ONE_IN_BPS in
  rate ← ok_option (fst (borrow_rate_per_second
           {| InterestRatePerSecond.utilisation_rate := utilization;
              elapsed_seconds_since_last_update := 0 |} curve));
  apy_borrow_rate ← ok_option (approximate_apy rate);
  lending ← ok_option (per_second_adjust_for_utilisation_rate rate utilization);
  apy_lending_rate ← ok_option (approximate_apy lending);
  Some (mkShapePoint (to_float utilization) apy_borrow_rate apy_lending_rate).

(** [(0..=percent_to_bps(100)).step_by(5)] *)
Definition shape_bps : list Z := (fun i => 5 * Z.of_nat i) <$> seq 0 2001.

Definition curve_shape (market : Market) : list InterestRateCurveShapePoint :=
  omap (shape_point (interest_rate_curve (supply_vault market))) shape_bps.

Definition new_from_market (market_id : Pubkey) (market : MarketWrapper) : FullMarket :=
  let m := MarketWrapper.market market in
  mkFullMarket market_id market (total_collateral_atoms (collateral_vault m))
    (default default_summary (ok_option (get_summary (supply_vault m)))) (curve_shape m).

End Markets.

(** ** [test.rs]: the minter of the faucet *)

Section Minter.
Context {CH : Chain} {AT : AplToken} {SDK : ArchSdk}.

(** What the server asks of its node, beyond [SdkNode] and [ArchRpc]. *)
Record ServerNode : Type := mkServerNode {
  sn_sdk : SdkNode;
  sn_rpc : ArchRpc;
  (** [call_method_with_params_raw("create_account_with_faucet", _)]: the payload, if there is
      one, and the transaction in it, if it can be read *)
  create_account_with_faucet : Pubkey -> Result ArchError (option (option RuntimeTransaction));
  request_airdrop : Pubkey -> Result ArchError ();
  sn_build_and_sign : ArchMessage -> list Keypair -> option RuntimeTransaction;
  sn_send_transactions : RuntimeTransaction -> Result ArchError (list (list Z));
  sn_wait_for_processed_transactions : list (list Z) -> Result ArchError (list ProcessedTx) }.

Record TokenMinter : Type := mkMinter {
  tm_authority_keypair : Keypair;
  tm_authority_pubkey : Pubkey;
  tm_mint_pubkey : Pubkey }.

Definition from_existing (authority_keypair : Keypair) (mint_pubkey : Pubkey)
  : TokenMinter :=
  mkMinter authority_keypair (x_only_public_key authority_keypair) mint_pubkey.

(** The state is the list of transactions that were sent. *)
Definition mint_to_user (node : ServerNode) (self : TokenMinter) (user : Pubkey) (amount : Z)
  : STE Anyhow (list RuntimeTransaction) () :=
  let user_ata := get_associated_token_address user (tm_mint_pubkey self) in
  let ata_exists := is_ok (RpcExt.read_account_info (sn_rpc node) user_ata) in
  let! mint_ix := st_lift (ok_or UnpackFailure
    (Deploy.mint_to (tm_mint_pubkey self) user_ata (tm_authority_pubkey self) amount)) in
  let ixs := ((if ata_exists then []
               else [Ixs.create_ata_ix (tm_authority_pubkey self) None user (tm_mint_pubkey self)])
              ++ [mint_ix])%list in
  let! blockhash := st_lift (from_arch (get_best_block_hash (sn_sdk node))) in
  let message := mkMessage ixs (tm_authority_pubkey self) blockhash in
  let! tx := st_lift (or_panic (sn_build_and_sign node message [tm_authority_keypair self])) in
  st_modify (fun sent => sent ++ [tx])%list ;;;
  let! txids := st_lift (from_arch (sn_send_transactions node tx)) in
  let! processed := st_lift (from_arch (sn_wait_for_processed_transactions node txids)) in
  let! first := st_lift (or_panic (head processed)) in
  match pt_status first with
  | Processed => st_ret tt
  | _ => st_raise (Message "Failed to mint tokens")
  end.

End Minter.

(** ** [server.rs] *)

(** [ErrorObjectOwned] *)
Record RpcError : Type := mkRpcError { re_code : Z; re_message : string }.
Definition RpcResult : Type -> Type := Result RpcError.

Definition INTERNAL_ERROR_CODE : Z := -32603.
Definition INVALID_REQUEST_CODE : Z := -32600.

(** [ArchMessage::serialize] and [deserialize], the mint in the bytes of a token account, and how
    errors and doubles print *)
Class ServerCrates : Type := {
  message_serialize : ArchMessage -> list Z;
  message_deserialize : list Z -> option ArchMessage;
  unpack_account_mint : list Z -> option Pubkey;
  client_error_text : AutaraClientError -> string;
  f64_text : spec_float -> string }.

(** [ErrorMapper::internal] *)
Definition internal {E A} (context : string) (text : E -> string) (r : Result E A) : RpcResult A :=
  res_from (fun e => mkRpcError INTERNAL_ERROR_CODE
                       ("context: " ++ context ++ ", error: " ++ text e)) r.

Section Server.
Context {FX : FixedCrate} {PC : PdaCrate} {BC : OracleBuild} {CH : Chain} {BO : BorshCrate}.
Context {PE : ProgramErrorCrate} {SDK : ArchSdk} {DT : DebugText} {FL : FloatLib} {AT : AplToken}.
Context {SV : ServerCrates}.
Variable autara_program_id : Pubkey.

(** [AutataServerContext], with the client without a signer: the shared cache and that of the
    block hash.  The streams that are active are kept in [Streams] below. *)
Record AutataServerContext : Type := mkServer {
  sc_state : Shared.AutaraSharedState;
  sc_blockhash_cache : BlockhashCache;
  sc_minters : list (TokenMinter * Z) }.

Variables (self : AutataServerContext) (node : ServerNode) (now : Z).

Definition read : ReadClient := Shared.read_client autara_program_id now (sc_state self).
#[local] Instance server_read_client : AutaraReadClient := builder_client read.

Definition create_account (user : Pubkey) : RpcResult TransactionToSignResponse :=
  let? payload := internal "Failed to call create_account_with_faucet" arch_text
                    (create_account_with_faucet node user) in
  let? faucet_value := internal "Failed to create account with faucet" to_string
                         (found "create_account_with_faucet returned no payload" payload) in
  let? runtime_tx := internal "Failed to parse faucet transaction" (fun e : string => e)
                       (ok_or "invalid transaction" faucet_value) in
  Ok (mkToSignResponse (message_hash (rt_message runtime_tx))
        (message_serialize (rt_message runtime_tx)) (rt_signatures runtime_tx)).

Fixpoint mint_all (user : Pubkey) (minters : list (TokenMinter * Z))
  : STE RpcError (list RuntimeTransaction) () :=
  match minters with
  | [] => st_ret tt
  | (minter, faucet_amount) :: minters =>
    (fun sent => let '(r, sent) := mint_to_user node minter user faucet_amount sent in
                 (internal "Failed to mint tokens" to_string r, sent)) ;;;
    mint_all user minters
  end.

Definition initialize (user : Pubkey) : STE RpcError (list RuntimeTransaction) () :=
  let! _ := st_lift (internal "Failed to aidrop" arch_text (request_airdrop node user)) in
  mint_all user (sc_minters self).

Definition get_all_market_ids : list Pubkey :=
  (fun '(id, _, _) => id) <$> all_markets_maybe_stale read.

Definition get_market_by_id (market_id : Pubkey) : option FullMarket :=
  new_from_market market_id <$> get_market_wrapper read market_id.

Definition get_user_positions (user : Pubkey) : UserPositions := user_positions read user.

(** [self.tx_builder(&user)], with the cached block hash *)
Definition to_sign (user : Pubkey) (ixs : ClientRes Transaction) : AnyRes TransactionToSign :=
  let? ixs := built ixs in
  build_transaction_digest_hash_to_sign (sn_sdk node) (Some (sc_blockhash_cache self)) user ixs.

Definition build_autara_transaction (request : AutaraTransactionRequest)
  : RpcResult TransactionToSignResponse :=
  let? tx := internal "Failed to build transaction" to_string
    match request with
    | Req.Supply p =>
      to_sign (ma_user p) (Tx.supply autara_program_id (ma_user p) (ma_market_id p) (ma_amount p))
    | Req.DepositCollateral p =>
      to_sign (ma_user p)
        (Tx.deposit_collateral autara_program_id (ma_user p) (ma_market_id p) (ma_amount p))
    | Req.Withdraw p =>
      to_sign (mo_user p)
        (Tx.withdraw_supply autara_program_id (mo_user p) (mo_market_id p) (mo_amount p))
    | Req.WithdrawCollateral p =>
      to_sign (mo_user p)
        (Tx.withdraw_collateral autara_program_id (mo_user p) (mo_market_id p) (mo_amount p))
    | Req.Borrow p =>
      to_sign (ma_user p) (Tx.borrow autara_program_id (ma_user p) (ma_market_id p) (ma_amount p))
    | Req.Repay p =>
      to_sign (mo_user p) (Tx.repay autara_program_id (mo_user p) (mo_market_id p) (mo_amount p))
    | Req.UpdateConfig p =>
      to_sign (uc_user p)
        (Tx.update_config autara_program_id (uc_user p) (uc_market_id p) (uc_config p))
    | Req.UpdateGlobalConfig p =>
      to_sign (ug_user p) (Tx.update_global_config autara_program_id (ug_user p) (ug_config p))
    | Req.LiquidatePosition p =>
      to_sign (lp_user p)
        (Tx.liquidate autara_program_id (lp_user p) (lp_market p) (lp_liquidatee_position p)
           (Some (lq_max_borrowed_atoms_to_repay (lp_liquidate p)))
           (Some (lq_min_collateral_atoms_to_receive (lp_liquidate p)))
           (lq_ix_callback (lp_liquidate p)))
    | Req.RedeemCuratorFees p =>
      to_sign (ma_user p) (Tx.redeem_curator_fees autara_program_id (ma_user p) (ma_market_id p))
    | Req.RedeemProtocolFees p =>
      to_sign (ma_user p) (Tx.redeem_protocol_fees autara_program_id (ma_user p) (ma_market_id p))
    | Req.CreateMarket p =>
      let? (_, ixs) := built (Tx.create_market autara_program_id (cm_curator p) (cm_payer p)
                                (cm_params p) (cm_supply_mint p) (cm_collateral_mint p)) in
      to_sign (cm_payer p) (Ok ixs)
    | Req.WithdrawAndRepay p =>
      to_sign (wa_user p)
        (Tx.withdraw_repay autara_program_id (wa_user p) (wa_market_id p) (wa_params p))
    | Req.BorrowAndDeposit p =>
      to_sign (br_user p)
        (Tx.borrow_deposit autara_program_id (br_user p) (br_market_id p) (br_params p))
    end in
  Ok (mkToSignResponse (ts_message_hash tx) (message_serialize (ts_message tx)) []).

Definition send_transaction (request : SendTransactionRequest) : RpcResult SendTransactionResponse :=
  let? message := internal "Failed to deserialize message" (fun e : string => e)
                    (ok_or "invalid message" (message_deserialize (sr_message request))) in
  let? events := internal "Failed to broadcast transaction" client_error_text
                   (broadcast_transaction autara_program_id (sn_sdk node)
                      (mkRuntimeTx (sr_signatures request) message)) in
  let? signature := or_panic (head (sr_signatures request)) in
  Ok (mkSendResponse signature events).

Definition get_user_balances (user : Pubkey) : RpcResult (list UserBalance) :=
  let? balances := internal "Failed to get user balances" to_string
                     (get_all_balances unpack_account_mint (sn_rpc node) user) in
  Ok (omap (fun '(mint, amount) =>
              (fun decimals => mkUserBalance mint amount (f64_text (ui_amount amount decimals)))
              <$> Shared.get_token_decimals (sc_state self) mint)
        (map_to_list balances)).

(** What the two streams send, one item after the other. *)
Definition market_items : list FullMarket :=
  (fun '(id, market, _) => new_from_market id market) <$> all_markets_maybe_stale read.

Inductive UserPositionItem : Type :=
| ItemSupply (i : SupplyPositionInfo)
| ItemBorrow (i : BorrowPositionInfo).

Definition supply_items : list UserPositionItem :=
  (fun '(_, p) =>
     ItemSupply (mkSupplyInfo p
       (default 0 (m ← get_market_wrapper read (SupplyPosition.market p);
                   ok_option (supply_position_info (MarketWrapper.market m) p)))))
  <$> all_supply_position read.

Definition borrow_items : list UserPositionItem :=
  (fun '(_, p) =>
     ItemBorrow (mkBorrowInfo p
       (default default_health (m ← get_market_wrapper read (BorrowPosition.market p);
                                ok_option (MarketWrapper.borrow_position_health m p)))))
  <$> all_borrow_position read.

(** The cache of the block hash is filled first. *)
Definition build_autara_server (read_client : Shared.AutaraSharedState)
  (minters : list (TokenMinter * Z)) : AnyRes AutataServerContext :=
  let? cache := from_arch (new_blockhash_cache (sn_sdk node)) in
  Ok (mkServer read_client cache minters).

End Server.

(** *** Streams

    [get_all_markets_streamed] and [get_all_user_positions_streamed] run as tasks of their own,
    each behind a set of the connections on which it is active.  The tasks of a set take turns
    at their awaits. *)
Module Streams.
Section Streams.
Context {Item : Type}.

(** A task: its connection, whether it was accepted yet, and what its loops have left to send. *)
Record Task : Type := mkTask {
  tk_conn : Z;
  tk_accepted : bool;
  tk_loops : list (list Item) }.

Record State : Type := mkStreams {
  active : gset Z;
  running : list Task;
  delivered : list (Z * Item) }.

Definition initial : State := mkStreams ∅ [] [].

(** The beginning of a subscription: [insert] tells whether the connection was new; otherwise the
    subscription is rejected. *)
Definition subscribe (conn : Z) (loops : list (list Item)) (s : State) : bool * State :=
  if decide (conn ∈ active s) then (false, s)
  else (true, mkStreams ({[conn]} ∪ active s) (running s ++ [mkTask conn false loops]) (delivered s)).

(** What an await brings: it went well, the other side is gone, or an error that [?] returns. *)
Inductive Answer : Type := Went | Gone | Failed.

(** The end of a task: whatever the result, the connection is removed. *)
Definition finish (i : nat) (t : Task) (s : State) : State :=
  mkStreams (active s ∖ {[tk_conn t]}) (delete i (running s)) (delivered s).

Definition goes_on (i : nat) (t : Task) (loops : list (list Item)) (s : State) : State :=
  mkStreams (active s) (<[i := mkTask (tk_conn t) true loops]> (running s)) (delivered s).

(** A turn of the task [i].  [accept] may fail; [send] to a connection that is gone breaks the
    loop, and the next loop begins. *)
Definition turn (i : nat) (a : Answer) (s : State) : State :=
  match running s !! i with
  | None => s
  | Some t =>
    if negb (tk_accepted t) then
      match a with Went => goes_on i t (tk_loops t) s | _ => finish i t s end
    else
      match tk_loops t with
      | [] => finish i t s
      | [] :: loops => goes_on i t loops s
      | (x :: xs) :: loops =>
        match a with
        | Went => let s := goes_on i t (xs :: loops) s in
                  mkStreams (active s) (running s) (delivered s ++ [(tk_conn t, x)])
        | Gone => goes_on i t loops s
        | Failed => finish i t s
        end
      end
  end.

Inductive step : State -> State -> Prop :=
| step_subscribe conn loops s : step s (snd (subscribe conn loops s))
| step_turn i a s : step s (turn i a s).

End Streams.
Arguments Task : clear implicits.
Arguments State : clear implicits.
End Streams.
