(* ===== verification/ApiFacts.v ===== *)
(** * The server keeps its word

    Round trips of the keys and amounts of the API; a session of a user with the server, from the
    request to the outcome; and the streams of a connection. *)
From Stdlib Require Import String Ascii SpecFloat.
From stdpp Require Import gmap.
From S2P Require Import Prelude.
From S2P Require Import Text.
From S2P Require Import Errors.
From S2P Require Import Monad.
From S2P Require Import FixedPoint.
From S2P Require Import InterestRatePerSecond.
From S2P Require Import InterestRateCurve.
From S2P Require Import Pda.
From S2P Require Import Oracle.
From S2P Require Import GlobalConfig.
From S2P Require Import MarketConfig.
From S2P Require Import SupplyPosition.
From S2P Require Import BorrowPosition.
From S2P Require Import CollateralVault.
From S2P Require Import SupplyVault.
From S2P Require Import Market.
From S2P Require Import MarketWrapper.
From S2P Require Import Accounts.
From S2P Require Import ProgramErrors.
From S2P Require Import Events.
From S2P Require Import Processor.
From S2P Require Import ProcessorAdmin.
From S2P Require Import Borsh.
From S2P Require Import IxBuilders.
From S2P Require Import TxBuilder.
From S2P Require Import TxFacts.
From S2P Require Import Program.
From S2P Require Import InstructionCodec.
From S2P Require Import Idl.
From S2P Require Import Entry.
From S2P Require Import EventCodec.
From S2P Require Import EventCodecFacts.
From S2P Require Import RpcExt.
From S2P Require Import ReadClient.
From S2P Require Import ReadClientFacts.
From S2P Require Import FullClient.
From S2P Require Import FixedFacts.
From S2P Require Import Bytes.
From S2P Require Import Creation.
From S2P Require Import IdlFacts.
From S2P Require Import LedgerExample.
From S2P Require Import Layout.
From S2P Require Import ClientExample.
From S2P Require Import FullClientFacts.
From S2P Require Import PythPusher.
From S2P Require Import Metrics.
From S2P Require Import DeployConfig.
From S2P Require Import Deploy.
From S2P Require Import Api.

(** ** Streams *)

Module StreamFacts.
Import Streams.
Section Facts.
Context {Item : Type}.
Implicit Types (s : State Item) (t : Task Item).

Inductive reachable : State Item -> Prop :=
| reach_initial : reachable initial
| reach_step s s' : reachable s -> step s s' -> reachable s'.

(** The set holds the connections of the tasks, each once. *)
Definition exclusive s : Prop :=
  NoDup (tk_conn <$> running s) /\ active s = list_to_set (tk_conn <$> running s).

Lemma exclusive_subscribe conn loops s : exclusive s -> exclusive (snd (subscribe conn loops s)).
Proof.
  intros [Hn Ha]. unfold subscribe. case_decide as Hc; [done |]. split; cbn; rewrite fmap_app.
  - apply list.NoDup_app. split_and!; [done | | apply NoDup_singleton].
    intros c Hin ->%list_elem_of_singleton. apply Hc. rewrite Ha. by apply elem_of_list_to_set.
  - rewrite Ha, list_to_set_app_L. cbn. rewrite (right_id_L ∅ (∪)). apply (comm_L (∪)).
Qed.

Lemma conns_goes_on i t loops s :
  running s !! i = Some t -> tk_conn <$> running (goes_on i t loops s) = tk_conn <$> running s.
Proof. intros H. cbn. rewrite list_fmap_insert. apply list_insert_id. by rewrite list_lookup_fmap, H. Qed.

Lemma exclusive_goes_on i t loops s :
  running s !! i = Some t -> exclusive s -> exclusive (goes_on i t loops s).
Proof. intros H [Hn Ha]. unfold exclusive. rewrite conns_goes_on by done. done. Qed.

Lemma conns_finish i t s :
  running s !! i = Some t ->
  tk_conn <$> running s ≡ₚ tk_conn t :: (tk_conn <$> running (finish i t s)).
Proof.
  intros H. cbn. rewrite <- fmap_cons. apply fmap_Permutation. by apply delete_Permutation.
Qed.

Lemma exclusive_finish i t s : running s !! i = Some t -> exclusive s -> exclusive (finish i t s).
Proof.
  intros H [Hn Ha]. pose proof (conns_finish i t s H) as Hp. rewrite Hp in Hn.
  apply list.NoDup_cons in Hn as [Hc Hn]. split; [done |]. cbn [active finish]. rewrite Ha.
  apply set_eq. intros c. rewrite elem_of_difference, elem_of_singleton, !elem_of_list_to_set, Hp.
  rewrite elem_of_cons. set_solver.
Qed.

Lemma exclusive_turn i a s : exclusive s -> exclusive (turn i a s).
Proof.
  intros He. unfold turn. destruct (running s !! i) as [t |] eqn:E; [| done].
  assert (Hf : exclusive (finish i t s)) by (by apply exclusive_finish).
  assert (Hg : forall loops, exclusive (goes_on i t loops s)) by (intros; by apply exclusive_goes_on).
  destruct (negb (tk_accepted t)); [destruct a; auto |].
  destruct (tk_loops t) as [| [| x xs] loops]; [auto | auto |]. destruct a; [| auto..].
  exact (Hg (xs :: loops)).
Qed.

Lemma reachable_exclusive s : reachable s -> exclusive s.
Proof.
  induction 1 as [| s s' _ IH Hs]; [split; [constructor | done] |].
  destruct Hs; [by apply exclusive_subscribe | by apply exclusive_turn].
Qed.

(** The turns that a task has left at most. *)
Definition weight t : nat :=
  S ((if tk_accepted t then 0 else 1) + sum_list (S ∘ length <$> tk_loops t))%nat.

(** A turn ends its task and frees the connection, or leaves it with less to do; no other task
    is touched. *)
Lemma turn_progress i a s t :
  exclusive s -> running s !! i = Some t ->
  (turn i a s = finish i t s /\ tk_conn t ∉ active (turn i a s)) \/
  exists t', running (turn i a s) = <[i := t']> (running s) /\ tk_conn t' = tk_conn t /\
    (weight t' < weight t)%nat.
Proof.
  intros He H. unfold turn. rewrite H.
  assert (Hf : tk_conn t ∉ active (finish i t s)) by (cbn; set_solver).
  destruct (tk_accepted t) eqn:Ea; cbn [negb].
  - destruct (tk_loops t) as [| [| x xs] loops] eqn:El; [by left | |].
    + right. eexists. cbn. split_and!; [done.. |]. unfold weight. rewrite Ea, El. cbn. lia.
    + destruct a; [| | by left]; right; eexists; cbn; split_and!; try done; unfold weight;
        rewrite Ea, El; cbn; lia.
  - destruct a; [| by left..]. right. eexists. cbn. split_and!; [done.. |].
    unfold weight. rewrite Ea. cbn. lia.
Qed.

(** C33: Whatever connections subscribe, fail or go away, and however their streams take turns,
    a connection has at most one stream of a kind at a time, and is marked exactly as long as
    it has one: a subscription is accepted if and only if the connection has no stream, and a
    rejected one changes nothing.  Every turn of a stream ends it and frees the connection, or
    leaves it with fewer turns, so no connection stays blocked. *)
Theorem streams_are_exclusive s conn loops :
  reachable s ->
  NoDup (tk_conn <$> running s) /\
  (conn ∈ active s <-> conn ∈ tk_conn <$> running s) /\
  (fst (subscribe conn loops s) = true <-> conn ∉ tk_conn <$> running s) /\
  (fst (subscribe conn loops s) = false -> snd (subscribe conn loops s) = s) /\
  forall i a t, running s !! i = Some t ->
    (turn i a s = finish i t s /\ tk_conn t ∉ active (turn i a s)) \/
    exists t', running (turn i a s) = <[i := t']> (running s) /\ tk_conn t' = tk_conn t /\
      (weight t' < weight t)%nat.
Proof.
  intros Hr. pose proof (reachable_exclusive s Hr) as [Hn Ha].
  assert (Hc : conn ∈ active s <-> conn ∈ tk_conn <$> running s)
    by (rewrite Ha; apply elem_of_list_to_set).
  split_and!; [done | done | | |].
  - unfold subscribe. case_decide; cbn; naive_solver.
  - unfold subscribe. by case_decide.
  - intros i a t Ht. by apply turn_progress.
Qed.

End Facts.

(** Two connections, one of which asks twice. *)
Definition asked_twice : State Z :=
  snd (subscribe 2 [[20]] (turn 0 Went (snd (subscribe 1 [[10; 11]; [12]] initial)))).

Lemma asked_twice_reachable : reachable asked_twice.
Proof. repeat (eapply reach_step; [| constructor]). constructor. Qed.

Lemma streams_witness :
  fst (subscribe 1 [[10]] asked_twice) = false /\
  fst (subscribe 1 [[10]] (turn 0 Went (turn 0 Went (turn 0 Gone (turn 0 Went asked_twice))))) = false /\
  1 ∈ tk_conn <$> running asked_twice.
Proof.
  destruct (streams_are_exclusive asked_twice 1 [[10]] asked_twice_reachable)
    as (_ & Hc & _ & _ & _).
  split; [vm_compute; reflexivity |]. split; [vm_compute; reflexivity |].
  apply Hc. vm_compute. reflexivity.
Defined.

End StreamFacts.

(** ** Keys and amounts on the wire *)

#[local] Open Scope string_scope.
#[local] Open Scope Z_scope.

(** Of [bs58]: decoding undoes encoding, and the alphabet has no blanks. *)
Fixpoint no_blank (s : string) : bool :=
  match s with EmptyString => true | String c s => negb (is_whitespace c) && no_blank s end.

Class Base58Laws {PT : PubkeyText} {B58 : Base58} : Prop := {
  bs58_roundtrip b : Forall is_u8 b -> bs58_decode (bs58_encode b) = Some b;
  bs58_no_blank b : no_blank (bs58_encode b) = true;
  bs58_nonempty b : b <> [] -> bs58_encode b <> EmptyString }.

Lemma trim_start_no_blank s : no_blank s = true -> trim_start s = s.
Proof. destruct s as [| c s]; cbn; [done |]. by destruct (is_whitespace c). Qed.

Lemma trim_end_no_blank s : no_blank s = true -> trim_end s = s.
Proof.
  induction s as [| c s IH]; cbn; [done |]. intros H. apply andb_prop in H as [Hc Hs].
  rewrite (IH Hs). destruct s; [| done]. by destruct (is_whitespace c).
Qed.

Lemma trim_no_blank s : no_blank s = true -> trim s = s.
Proof. intros H. unfold trim. rewrite trim_start_no_blank by done. by apply trim_end_no_blank. Qed.

Lemma dec_value_digit d : 0 <= d < 10 -> dec_value (digit d) = Some d.
Proof.
  intros H. unfold dec_value, digit. rewrite nat_ascii_embedding by lia.
  rewrite (proj2 (Z.leb_le _ _)), (proj2 (Z.leb_le _ _)) by lia. cbn. f_equal. lia.
Qed.

Lemma print_fuel_digits bound fuel : forall n acc,
  0 <= n < bound -> n < 10 ^ Z.of_nat fuel -> (0 < fuel)%nat ->
  uint_of_digits bound 0 (print_fuel fuel n acc) = uint_of_digits bound n acc.
Proof.
  induction fuel as [| fuel IH]; intros n acc Hn Hf Hp; [lia |]. cbn [print_fuel].
  pose proof (Z.mod_pos_bound n 10 ltac:(lia)) as Hm. pose proof (Z.div_mod n 10 ltac:(lia)) as Hd.
  destruct (Z.ltb_spec n 10).
  - cbn [uint_of_digits]. rewrite Z.mod_small, dec_value_digit by lia.
    by rewrite (proj2 (Z.ltb_lt _ _)) by lia.
  - rewrite Nat2Z.inj_succ, Z.pow_succ_r in Hf by lia.
    destruct fuel as [| fuel]; [cbn in Hf; lia |]. rewrite IH by lia. cbn [uint_of_digits].
    rewrite dec_value_digit by done. rewrite <- Hd. by rewrite (proj2 (Z.ltb_lt _ _)) by lia.
Qed.

(** A number begins with a digit. *)
Lemma print_fuel_head fuel : forall n acc, 0 <= n ->
  (exists d s, 0 <= d < 10 /\ acc = String (digit d) s) \/ (0 < fuel)%nat ->
  exists d s, 0 <= d < 10 /\ print_fuel fuel n acc = String (digit d) s.
Proof.
  induction fuel as [| fuel IH]; intros n acc Hn Hacc; cbn [print_fuel];
    [destruct Hacc as [? | ?]; [done | lia] |].
  pose proof (Z.mod_pos_bound n 10 ltac:(lia)). destruct (n <? 10); [eauto |].
  apply IH; [by apply Z.div_pos; lia | left; eauto].
Qed.

Lemma parse_print_u64 n : is_u64 n -> parse_u64 (print_u64 n) = Some n.
Proof.
  intros Hn. assert (Hr : 0 <= n < 2 ^ 64) by widths_lia. unfold parse_u64, parse_uint, print_u64.
  destruct (print_fuel_head 20 n EmptyString) as (d & s & Hd & E); [lia | right; lia |].
  assert (Hs : strip_prefix "+" (print_fuel 20 n EmptyString) = None).
  { rewrite E. cbn [strip_prefix]. destruct (Ascii.eqb_spec "+" (digit d)) as [Ed |]; [| done].
    pose proof (dec_value_digit d Hd) as Hv. rewrite <- Ed in Hv. discriminate Hv. }
  rewrite Hs, E, <- E, print_fuel_digits; [done | lia | cbn; lia | lia].
Qed.

Section Wire.
Context {PT : PubkeyText} {B58 : Base58} {BL : Base58Laws}.

Lemma parse_encoded key : is_pubkey key -> parse_pubkey_str (bs58_encode key) = Ok key.
Proof.
  intros [Hl Hb]. unfold parse_pubkey_str. rewrite trim_no_blank by apply bs58_no_blank.
  destruct (String.eqb_spec (bs58_encode key) ""); [| by rewrite bs58_roundtrip, Hl].
  destruct (bs58_nonempty key); [by intros -> | done].
Qed.

Lemma written_as_strings keys :
  res_list as_string (serde_pubkey_serialize <$> keys) = Ok (bs58_encode <$> keys).
Proof. induction keys as [| k keys IH]; [done |]. cbn. cbn in IH. by rewrite IH. Qed.

Lemma encoded_keys keys :
  Forall is_pubkey keys -> res_list parse_pubkey_str (bs58_encode <$> keys) = Ok keys.
Proof.
  induction 1 as [| k keys Hk _ IH]; [done |]. cbn. rewrite parse_encoded by done. cbn in IH.
  by rewrite IH.
Qed.

Lemma amount_read n :
  is_u64 n -> serde_from_str_deserialize (serde_from_str_serialize n) = Ok n.
Proof.
  intros Hn. unfold serde_from_str_deserialize. cbn [serde_from_str_serialize as_string res_bind].
  by rewrite parse_print_u64.
Qed.

(** What the API writes of keys, lists of keys, amounts and optional values is read back as
    it was; in particular an amount of any size is a text of digits and loses nothing, and the
    amount that is left out is not zero. *)
Theorem api_values_roundtrip key keys n :
  is_pubkey key -> Forall is_pubkey keys -> is_u64 n ->
  serde_pubkey_deserialize (serde_pubkey_serialize key) = Ok key /\
  serde_pubkey_vec_deserialize (serde_pubkey_vec_serialize keys) = Ok keys /\
  serde_optional_pubkey_deserialize (serde_optional_pubkey_serialize (Some key)) = Ok (Some key) /\
  serde_optional_pubkey_deserialize (serde_optional_pubkey_serialize None) = Ok None /\
  serde_from_str_deserialize (serde_from_str_serialize n) = Ok n /\
  serde_from_optional_str_deserialize (serde_from_optional_str_serialize (Some n)) = Ok (Some n) /\
  serde_from_optional_str_deserialize (serde_from_optional_str_serialize None) = Ok None.
Proof.
  intros Hk Hks Hn. split_and!; try done.
  - cbn. by apply parse_encoded.
  - unfold serde_pubkey_vec_deserialize, serde_pubkey_vec_serialize, as_strings.
    rewrite written_as_strings. by apply encoded_keys.
  - cbn. by rewrite parse_encoded.
  - by apply amount_read.
  - unfold serde_from_optional_str_deserialize. cbn [serde_from_optional_str_serialize
      serde_from_str_serialize as_optional_string as_string res_bind].
    by rewrite parse_print_u64.
Qed.

End Wire.

(** ** A session of a user *)

(** Of [arch_sdk]: a message that was serialized is read back. *)
Class ServerLaws {SDK : ArchSdk} {SV : ServerCrates} : Prop :=
  message_roundtrip m : message_deserialize (message_serialize m) = Some m.

(** The request behind a request of the API. *)
Definition request_of (r : AutaraTransactionRequest) : Request :=
  match r with
  | Req.CreateMarket p =>
    RCreateMarket (cm_curator p) (cm_payer p) (cm_params p) (cm_supply_mint p) (cm_collateral_mint p)
  | Req.Supply p => RSupply (ma_market_id p) (ma_amount p)
  | Req.Withdraw p => RWithdrawSupply (mo_market_id p) (mo_amount p)
  | Req.DepositCollateral p => RDepositCollateral (ma_market_id p) (ma_amount p)
  | Req.WithdrawCollateral p => RWithdrawCollateral (mo_market_id p) (mo_amount p)
  | Req.Borrow p => RBorrow (ma_market_id p) (ma_amount p)
  | Req.Repay p => RRepay (mo_market_id p) (mo_amount p)
  | Req.UpdateConfig p => RUpdateConfig (uc_market_id p) (uc_config p)
  | Req.UpdateGlobalConfig p => RUpdateGlobalConfig (ug_config p)
  | Req.LiquidatePosition p =>
    RLiquidate (lp_market p) (lp_liquidatee_position p)
      (Some (lq_max_borrowed_atoms_to_repay (lp_liquidate p)))
      (Some (lq_min_collateral_atoms_to_receive (lp_liquidate p)))
      (lq_ix_callback (lp_liquidate p))
  | Req.RedeemCuratorFees p => RRedeemCuratorFees (ma_market_id p)
  | Req.RedeemProtocolFees p => RRedeemProtocolFees (ma_market_id p)
  | Req.BorrowAndDeposit p => RBorrowDeposit (br_market_id p) (br_params p)
  | Req.WithdrawAndRepay p => RWithdrawRepay (wa_market_id p) (wa_params p)
  end.

(** The user who is logged is the one who pays. *)
Definition user_of (r : AutaraTransactionRequest) : Pubkey := tp_user (build_tx_tracing_params r).

Section Session.
Context {FX : FixedCrate} {PC : PdaCrate} {BC : OracleBuild} {RT : Runtime}.
Context {CH : Chain} {AC : AccountCodec} {ME : Memory} {SC : SeedCrate} {SY : SystemProgram}.
Context {BO : BorshCrate} {BOL : BorshLaws BO} {PE : ProgramErrorCrate} {PEL : ProgramErrorLaws PE}.
Context {SDK : ArchSdk} {SL : SdkLaws} {DT : DebugText} {FL : FloatLib} {AT : AplToken}.
Context {SV : ServerCrates} {SVL : ServerLaws}.
Variables (self : AutataServerContext) (node : ServerNode) (now : Z).

(** The cache that the server builds transactions from. *)
Definition server_client : AutaraReadClient := builder_client (read id self now).

Lemma build_transaction_builds r :
  build_autara_transaction id self node now r
  = let? tx := internal "Failed to build transaction" to_string
                 (to_sign self node (user_of r)
                    (build (RC := server_client) (user_of r) (request_of r))) in
    Ok (mkToSignResponse (ts_message_hash tx) (message_serialize (ts_message tx)) []).
Proof.
  destruct r; try reflexivity. unfold build_autara_transaction, to_sign. cbn [request_of build].
  by destruct (Tx.create_market _ _ _ _ _ _) as [[] | |].
Qed.

(** What the server answers with when the broadcast brought this. *)
Definition response (sigs : list (list Z)) (heard : Called (list AutaraEvent))
  : RpcResult SendTransactionResponse :=
  match heard with
  | Ok events => Ok (mkSendResponse (List.hd [] sigs) events)
  | Err e => Err (mkRpcError INTERNAL_ERROR_CODE
                    ("context: Failed to broadcast transaction, error: " ++ client_error_text e))
  | Panic => Panic
  end.

Lemma send_responds sigs msg :
  sigs <> [] ->
  Api.send_transaction id node (mkSendRequest sigs (message_serialize msg))
  = response sigs (broadcast_transaction id (sn_sdk node) (mkRuntimeTx sigs msg)).
Proof.
  intros Hs. unfold Api.send_transaction. cbn [sr_message sr_signatures].
  rewrite message_roundtrip. cbn [ok_or internal res_from res_bind].
  destruct (broadcast_transaction _ _ _); cbn; [by destruct sigs | done | done].
Qed.

(** Without signatures the handler panics. *)
Lemma unsigned_transaction_panics msg :
  Api.send_transaction id node (mkSendRequest [] (message_serialize msg)) = Panic.
Proof. unfold Api.send_transaction. cbn [sr_message]. by rewrite message_roundtrip. Qed.

(** C18: A session with the server.  For a request of the API that can
    be made from the cache of the server, the server answers with the message of the request
    that the user meant, paid by the user and with the cached block hash, and with its hash; the
    user's key alone signs it; and sending it back runs the program, whose build is not that of
    the server, and returns the first signature with the events that the program logged, one for
    an instruction that announces one, or an internal error: of the error that the program
    raised when it is one of the lending library or of the validation of accounts, of some error
    after any other failure. *)
Theorem server_session_tells_the_outcome s net A balance ts r ix ks :
  user_of r = x_only_public_key s ->
  (forall ixs, build (RC := server_client) (user_of r) (request_of r) = Ok ixs ->
     runs (BC := program_build BC) (sn_sdk node) A balance ts ixs) ->
  requested (RC := server_client) (user_of r) A (request_of r) ix ks -> ix_typed ix ->
  only_user (user_of r) (Ixs.callback_accounts (request_callback (request_of r))) ->
  exists answer pre i sigs heard,
    let msg := mkMessage (pre ++ [i])%list (user_of r) (latest (sc_blockhash_cache self)) in
    build (RC := server_client) (user_of r) (request_of r) = Ok (pre ++ [i])%list /\
    build_autara_transaction id self node now r = Ok answer /\
    message_deserialize (tr_message answer) = Some msg /\
    tr_transaction_to_sign answer = message_hash msg /\
    roles ix (present A <$> ix_accounts i) = Ok ks /\
    collect_signatures [s] (tr_transaction_to_sign answer) net (required_signers msg) = Some sigs /\
    told ix (autara_process_instruction (BC := program_build BC) id (present A <$> ix_accounts i) ix ts)
      heard /\
    Api.send_transaction id node (mkSendRequest sigs (tr_message answer)) = response sigs heard.
Proof.
  intros Hu Hrun Hq Ht Hcb. rewrite build_transaction_builds. rewrite Hu in *.
  destruct (signed_request_runs (BC := program_build BC) (RC := server_client) (sn_sdk node) s net
    (latest (sc_blockhash_cache self)) A balance ts (request_of r) ix ks Hrun Hq Ht Hcb)
    as (pre & i & sigs & p & Hb & Hro & _ & Hsig & Hne & Hbr & Hrep).
  rewrite Hb. cbn [to_sign built res_from res_bind build_transaction_digest_hash_to_sign internal].
  eexists _, pre, i, sigs, (parse_processed_autara_tx p id). cbv zeta.
  split; [reflexivity |]. split; [reflexivity |]. cbn [tr_message tr_transaction_to_sign ts_message ts_message_hash].
  split_and!; [apply message_roundtrip | done | done | done | by apply report_is_told |].
  by rewrite send_responds, Hbr.
Qed.

End Session.

(** ** Examples *)

(** Two letters for a byte. *)
Fixpoint hex_text (b : list Z) : string :=
  match b with
  | [] => EmptyString
  | x :: b => String (hex_digit (x / 16 mod 16)) (String (hex_digit (x mod 16)) (hex_text b))
  end.
Fixpoint hex_bytes (s : string) : option (list Z) :=
  match s with
  | EmptyString => Some []
  | String a (String b s) =>
    x ← hex_value a; y ← hex_value b; l ← hex_bytes s; Some (16 * x + y :: l)
  | _ => None
  end.

Definition text_ex : PubkeyText := {| bs58_decode := hex_bytes; pubkey_from_str := fun _ => None |}.
Definition base58_ex : Base58 := hex_text.

Lemma hex_digit_no_blank x : is_whitespace (hex_digit (x mod 16)) = false.
Proof.
  pose proof (Z.mod_pos_bound x 16 ltac:(lia)) as H. revert H. generalize (x mod 16). intros d H.
  pose proof (hex_value_digit d H) as Hv. destruct (is_whitespace _) eqn:E; [| done]. exfalso.
  unfold is_whitespace in E. unfold hex_value in Hv. set (n := nat_of_ascii (hex_digit d)) in *.
  assert (Hn : (n <= 32)%nat).
  { apply orb_prop in E as [E%Nat.eqb_eq | [E1 E2%Nat.leb_le]%andb_prop]; lia. }
  repeat (case_match; [match goal with H : _ && _ = true |- _ =>
    apply andb_prop in H as [?%Z.leb_le ?%Z.leb_le]; lia end |]). done.
Qed.

Lemma base58_ex_laws : Base58Laws (PT := text_ex) (B58 := base58_ex).
Proof.
  split.
  - intros b H. induction H as [| x b Hx _ IH]; [done |]. cbn in IH |- *.
    rewrite !hex_value_digit by (apply Z.mod_pos_bound; lia). cbn. rewrite IH. cbn.
    assert (0 <= x / 16 < 16) by (split; [apply Z.div_pos | apply Z.div_lt_upper_bound]; widths_lia).
    rewrite (Z.mod_small (x / 16)) by done. rewrite <- Z.div_mod by lia. done.
  - intros b. induction b as [| x b IH]; [done |]. cbn. by rewrite !hex_digit_no_blank.
  - by intros [].
Qed.

#[local] Existing Instances text_ex base58_ex base58_ex_laws.

Lemma api_values_witness :
  serde_pubkey_deserialize (serde_pubkey_serialize (key_ex 7)) = Ok (key_ex 7) /\
  serde_pubkey_vec_deserialize (serde_pubkey_vec_serialize [key_ex 7; key_ex 200])
    = Ok [key_ex 7; key_ex 200] /\
  serde_from_str_deserialize (serde_from_str_serialize 18446744073709551615)
    = Ok 18446744073709551615.
Proof.
  destruct (api_values_roundtrip (key_ex 7) [key_ex 7; key_ex 200] 18446744073709551615)
    as (H1 & H2 & _ & _ & H3 & _).
  - split; [reflexivity | repeat constructor; discriminate].
  - repeat constructor; discriminate.
  - widths_lia.
  - split; [exact H1 |]. split; [exact H2 | exact H3].
Defined.

(** *** The deposit of [FullClientFacts], through the server *)

#[local] Existing Instances fixed_ref fixed_ref_laws pda_short client_build_ex chain_ex runtime_ex memory_ex
  borsh_ref borsh_ref_laws codec_1 sdk_ex sdk_ex_laws debug_ex program_error_ex
  program_error_ex_laws seed_ex sys_ex floats_ex.

(** A message as the number of a tree. *)
Definition message_parts (m : ArchMessage)
  : list (Pubkey * list (Pubkey * bool * bool) * list Z) * Pubkey * list Z :=
  ((fun i => (ix_program_id i, ix_accounts i, ix_data i)) <$> am_instructions m,
   am_payer m, am_blockhash m).
Definition message_of_parts
  (p : list (Pubkey * list (Pubkey * bool * bool) * list Z) * Pubkey * list Z) : ArchMessage :=
  let '(ixs, payer, h) := p in
  mkMessage ((fun '(program, accounts, data) => mkInstruction program accounts data) <$> ixs) payer h.

Definition server_ex : ServerCrates := {|
  message_serialize := fun m => [Zpos (countable.encode (message_parts m))];
  message_deserialize := fun l =>
    match l with [Zpos p] => message_of_parts <$> countable.decode p | _ => None end;
  unpack_account_mint := fun _ => None;
  client_error_text := fun e =>
    match e with AutaraTxError _ _ _ => "program" | _ => "other" end;
  f64_text := fun _ => EmptyString |}.

Lemma server_ex_laws : ServerLaws (SV := server_ex).
Proof.
  intros [ixs payer h]. cbn. rewrite decode_encode. cbn. do 2 f_equal.
  rewrite <- list_fmap_compose. induction ixs as [| [] ixs IH]; [done |]. cbn in *. by rewrite IH.
Qed.

Definition apl_ex : AplToken := {|
  unpack_mint := fun _ => None; unpack_account_amount := fun _ => None;
  mint_to := fun _ _ _ _ => None |}.

#[local] Existing Instances server_ex server_ex_laws apl_ex.

Definition shared_2 : Shared.AutaraSharedState :=
  snd (Shared.reload id (node_of chain_2) 1000 Shared.new).
Definition context_2 : AutataServerContext := mkServer shared_2 (mkBlockhashCache [3]) [].
Definition server_node (p : ProcessedTx) : ServerNode := {|
  sn_sdk := node_ex p; sn_rpc := node_of chain_2;
  create_account_with_faucet := fun _ => Ok None; request_airdrop := fun _ => Ok tt;
  sn_build_and_sign := fun _ _ => None; sn_send_transactions := fun _ => Ok [];
  sn_wait_for_processed_transactions := fun _ => Ok [] |}.

Definition deposit_2 : AutaraTransactionRequest :=
  Req.DepositCollateral (mkAmountParams (key_ex 8) (key_ex 21) 700).

(** The cache of the server: the market with its interest up to date. *)
Definition cached_2 : Market := Eval vm_compute in
  match Shared.market_map shared_2 !! key_ex 8 with Some m => m | None => fst borrowed end.

Lemma server_built_2 :
  build (RC := server_client context_2 1000) (key_ex 21) ask_1 = Ok ixs_2.
Proof. vm_compute. reflexivity. Qed.

Lemma server_requested_2 :
  requested (RC := server_client context_2 1000) (key_ex 21) (store_of chain_2) ask_1
    (Ix.DepositAplCollateral 700) roles_2.
Proof.
  refine (requested_mono (chain_client chain_2) _ _ _ _ _ _ _ _ _ requested_2);
    [| reflexivity..].
  intros k m [= <-] (Hm & _ & Ht). split; [done |]. split; [| done].
  assert (m = fst borrowed) as ->.
  { destruct Hm as (_ & Hm & _). revert Hm. vm_compute. congruence. }
  exists cached_2. split; [vm_compute; reflexivity | vm_compute; repeat split].
Qed.

Lemma server_only_ixs_2 ixs :
  build (RC := server_client context_2 1000) (user_of deposit_2) (request_of deposit_2) = Ok ixs ->
  ixs = ixs_2.
Proof. intros E. pose proof (eq_trans (eq_sym server_built_2) E) as H. by injection H. Qed.

(** The deposit is answered with its event. *)
Lemma server_session_witness :
  exists answer sigs e,
    build_autara_transaction id context_2 (server_node report_ok) 1000 deposit_2 = Ok answer /\
    Api.send_transaction id (server_node report_ok) (mkSendRequest sigs (tr_message answer))
      = response sigs (Ok [e]) /\
    event_tag e = EventTag.DepositCollateral.
Proof.
  destruct (server_session_tells_the_outcome context_2 (server_node report_ok) 1000 (key_ex 21) tt
    (store_of chain_2) (fun _ => 0) 1000 deposit_2 (Ix.DepositAplCollateral 700) roles_2)
    as (answer & pre & i & sigs & heard & Hb & Ha & _ & _ & _ & _ & Ht & Hs);
    [reflexivity | intros ixs ->%server_only_ixs_2; exact runs_ok | exact server_requested_2
    | cbn; widths_lia | constructor |].
  change (program_build client_build_ex) with borsh_ex in Ht.
  apply server_only_ixs_2 in Hb. rewrite (handle_last 1000 pre i (eq_sym Hb)) in Ht.
  pose proof handle_ok as Hok. destruct (handle_at 1000) as [o | |]; [| discriminate Hok..].
  destruct Ht as [_ Ht]. destruct (Ht _ eq_refl) as (e & -> & He & _). exists answer, sigs, e.
  split; [exact Ha |]. split; [exact Hs | exact He].
Defined.
