(* ===== verification/Cli.v ===== *)
(** * The command line and the start of the server

    [autara-client/src/bin/cli.rs]: the commands that read, transact, handle tokens and oracles,
    and [autara-client/src/bin/autara-server.rs]: what the server does before it serves.  The
    two share the file [tokens.json], which the command [token setup] writes.

    The arguments are given as the command-line parser hands them over.  What is printed is the
    value that is shown, without its wording.  Files, keys, the environment and the node answer
    as parameters; what a run does is kept in a list. *)
From Stdlib Require Import String Ascii SpecFloat.
From stdpp Require Import gmap strings.
From S2P Require Import Prelude.
From S2P Require Import Text.
From S2P Require Import Errors.
From S2P Require Import Monad.
From S2P Require Import FixedPoint.
From S2P Require Import InterestRateCurve.
From S2P Require Import Pda.
From S2P Require Import Oracle.
From S2P Require Import GlobalConfig.
From S2P Require Import MarketConfig.
From S2P Require Import SupplyPosition.
From S2P Require Import BorrowPosition.
From S2P Require Import CollateralVault.
From S2P Require Import SupplyVault.
From S2P Require Import Market.
From S2P Require Import MarketWrapper.
From S2P Require Import Accounts.
From S2P Require Import OracleProgram.
From S2P Require Import ProgramErrors.
From S2P Require Import Events.
From S2P Require Import Processor.
From S2P Require Import ProcessorAdmin.
From S2P Require Import Borsh.
From S2P Require Import IxBuilders.
From S2P Require Import TxBuilder.
From S2P Require Import TxFacts.
From S2P Require Import Program.
From S2P Require Import InstructionCodec.
From S2P Require Import Idl.
From S2P Require Import Entry.
From S2P Require Import EventCodec.
From S2P Require Import EventCodecFacts.
From S2P Require Import FixedFacts.
From S2P Require Import Bytes.
From S2P Require Import Creation.
From S2P Require Import IdlFacts.
From S2P Require Import LedgerExample.
From S2P Require Import Layout.
From S2P Require Import ClientExample.
From S2P Require Import RpcExt.
From S2P Require Import ReadClient.
From S2P Require Import ReadClientFacts.
From S2P Require Import FullClient.
From S2P Require Import FullClientFacts.
From S2P Require Import PythPusher.
From S2P Require Import Metrics.
From S2P Require Import DeployConfig.
From S2P Require Import Deploy.
From S2P Require Import DeployVerified.
From S2P Require Import Api.
From S2P Require Import ApiFacts.
#[local] Open Scope string_scope.
#[local] Open Scope Z_scope.

(** ** JSON *)

(** [serde_json::Value]; the entries of an object are sorted by their keys, as in a
    [BTreeMap]. *)
Inductive Value : Type :=
| VNull | VBool (b : bool) | VNumber (n : Z) | VString (s : string)
| VArray (l : list Value) | VObject (m : list (string * Value)).

(** [Map::insert] and [Value::get] *)
Fixpoint obj_insert (k : string) (v : Value) (m : list (string * Value)) : list (string * Value) :=
  match m with
  | [] => [(k, v)]
  | (k', v') :: m' =>
    match String.compare k k' with
    | Lt => (k, v) :: m
    | Eq => (k, v) :: m'
    | Gt => (k', v') :: obj_insert k v m'
    end
  end.
Fixpoint obj_get (k : string) (m : list (string * Value)) : option Value :=
  match m with
  | [] => None
  | (k', v) :: m => if String.eqb k k' then Some v else obj_get k m
  end.

Definition value_get (k : string) (v : Value) : option Value :=
  match v with VObject m => obj_get k m | _ => None end.
Definition as_str_value (v : Value) : option string :=
  match v with VString s => Some s | _ => None end.
Definition as_object (v : Value) : option (list (string * Value)) :=
  match v with VObject m => Some m | _ => None end.

(** [hex::encode] *)
Definition hex_encode (b : list Z) : string :=
  fold_right (fun x s => String (hex_digit (x / 16)) (String (hex_digit (x mod 16)) s))
    EmptyString b.

(** Values that a [Value] of [serde_json] can be: sorted keys, and numbers of 64 bits. *)
Fixpoint sorted_keys (l : list string) : bool :=
  match l with
  | k :: ((k' :: _) as l) =>
    match String.compare k k' with Lt => sorted_keys l | _ => false end
  | _ => true
  end.
Fixpoint canonical (v : Value) : bool :=
  match v with
  | VNumber n => (0 <=? n) && (n <? 2 ^ 64)
  | VArray l => forallb canonical l
  | VObject m => sorted_keys (fst <$> m) && forallb (fun e => canonical (snd e)) m
  | _ => true
  end.

(** ** What is not of this repository *)

Class CliCrates {SDK : ArchSdk} : Type := {
  sdk_network : BitcoinNetwork -> Network;
  json_from_str : string -> option Value;
  json_to_string_pretty : Value -> string;
  (** the derived codec of [CreateMarketInstruction] *)
  create_market_from_str : string -> option CreateMarketInstruction;
  debug_pubkey : Pubkey -> string;
  (** [generate_new_keypair], [build_and_sign_transaction] *)
  new_keypair : BitcoinNetwork -> Keypair;
  sign_transaction : ArchMessage -> list Keypair -> BitcoinNetwork ->
                     Result ArchError RuntimeTransaction;
  (** [system_instruction::create_account], [minimum_rent], [apl_token::state::Mint::LEN],
      [apl_token::instruction::initialize_mint] *)
  create_account_ix : Pubkey -> Pubkey -> Z -> Z -> Pubkey -> Instruction;
  rent_of : Z -> Z;
  MINT_LEN : Z;
  initialize_mint : Pubkey -> Pubkey -> option Pubkey -> Z -> option Instruction }.

(** Of [serde_json]: what it prints is read back. *)
Class CliLaws {SDK : ArchSdk} {CC : CliCrates} : Prop :=
  json_roundtrip v : canonical v = true -> json_from_str (json_to_string_pretty v) = Some v.

(** The machine that a tool runs on. *)
Record Host {SDK : ArchSdk} : Type := mkHost {
  ho_env : string -> option string;
  ho_read_to_string : string -> option string;
  ho_write : string -> string -> bool;
  ho_key_file : string -> AnyRes Keypair;
  (** [CARGO_MANIFEST_DIR], with a slash *)
  ho_workspace : string;
  (** the state is loaded within a minute *)
  ho_in_time : bool }.

(** An error of a tool: [anyhow::Error], made of a message or of an error of the client. *)
Inductive CliError : Type :=
| Plain (e : Anyhow)
| OfClient (e : AutaraClientError).

Section Tools.
Context {FX : FixedCrate} {PC : PdaCrate} {BC : OracleBuild} {CH : Chain} {BO : BorshCrate}.
Context {PE : ProgramErrorCrate} {SDK : ArchSdk} {DT : DebugText} {FL : FloatLib} {AT : AplToken}.
Context {FF : FixedFloats} {PT : PubkeyText} {SV : ServerCrates} {CC : CliCrates}.

(** What a run does. *)
Inductive Did : Type :=
| Sent (tx : RuntimeTransaction)
| Wrote (path contents : string)
| AskedFaucet (k : Keypair)
| TriedConfig (r : Called Pubkey)
| MarketExists (supply_mint collateral_mint : Pubkey)
| TriedMarket (ix : CreateMarketInstruction) (supply_mint collateral_mint : Pubkey)
    (r : Called Pubkey).

Notation Tool := (STE CliError (list Did)).

Definition did (d : Did) : Tool () := st_modify (fun l => l ++ [d])%list.
Definition plain {A} (r : AnyRes A) : Tool A := st_lift (res_from Plain r).
Definition client {A} (r : Called A) : Tool A := st_lift (res_from OfClient r).

(** ** [cli.rs] *)

Definition parse_network (network : string) : AnyRes BitcoinNetwork :=
  let n := to_lowercase network in
  if String.eqb n "regtest" then Ok Regtest
  else if String.eqb n "testnet" then Ok Testnet
  else if String.eqb n "mainnet" || String.eqb n "bitcoin" then Ok Bitcoin
  else Err (Message ("Invalid network: " ++ network ++ ". Use regtest, testnet, or mainnet")).

Definition parse_pubkey (s : string) : AnyRes Pubkey :=
  if (String.length s =? 64)%nat then
    found "Invalid hex pubkey" (hex_decode 32 s)
  else found "Invalid pubkey format" (pubkey_from_str s).

(** A key that may be left out. *)
Definition pubkey_or (s : option string) (k : Pubkey) : AnyRes Pubkey :=
  match s with Some s => parse_pubkey s | None => Ok k end.

(** *** Names of tokens *)

Definition TokenNames : Type := gmap Pubkey string.

Definition add_name (names : TokenNames) (entry : string * Value) : TokenNames :=
  let '(name, v) := entry in
  match m ← value_get "mint" v; s ← as_str_value m; hex_decode 32 s with
  | Some pubkey => <[pubkey := name]> names
  | None => names
  end.

Definition load_names (host : Host) (path : string) : TokenNames :=
  match json ← ho_read_to_string host path; v ← json_from_str json;
        t ← value_get "tokens" v; as_object t with
  | Some tokens => foldl add_name ∅ tokens
  | None => ∅
  end.

Definition token_name (self : TokenNames) (pubkey : Pubkey) : string :=
  match self !! pubkey with
  | Some name => name ++ " (" ++ debug_pubkey pubkey ++ ")"
  | None => debug_pubkey pubkey
  end.

(** *** Commands that read *)

Inductive ReadCommands : Type :=
| RMarkets
| RMarket (market : string)
| RPositions (authority : option string)
| RSupplyPosition (market : string) (authority : option string)
| RBorrowHealth (market : string) (authority : option string)
| RGlobalConfig.

Inductive Shown : Type :=
| ShownMarkets (l : list (Pubkey * MarketWrapper))
| ShownMarket (k : Pubkey) (m : option MarketWrapper)
| ShownPositions (authority : Pubkey) (p : UserPositions)
| ShownSupplyPosition (pda : Pubkey) (p : option (SupplyPosition * option Z))
| ShownHealth (market authority : Pubkey) (r : AnyRes BorrowPositionHealth)
| ShownConfig (c : option GlobalConfig).

Definition handle_read_command (read : ReadClient) (signer_pubkey : Pubkey) (cmd : ReadCommands)
  : AnyRes Shown :=
  match cmd with
  | RMarkets => Ok (ShownMarkets (all_markets read))
  | RMarket market =>
    let? market_key := parse_pubkey market in
    Ok (ShownMarket market_key (get_market_wrapper read market_key))
  | RPositions authority =>
    let? auth := pubkey_or authority signer_pubkey in
    Ok (ShownPositions auth (user_positions read auth))
  | RSupplyPosition market authority =>
    let? market_key := parse_pubkey market in
    let? auth := pubkey_or authority signer_pubkey in
    let '(pda, position) := supply_position_of read market_key auth in
    Ok (ShownSupplyPosition pda
          ((fun pos => (pos, w ← get_market_wrapper read market_key;
                             ok_option (supply_position_info (MarketWrapper.market w) pos)))
           <$> position))
  | RBorrowHealth market authority =>
    let? market_key := parse_pubkey market in
    let? auth := pubkey_or authority signer_pubkey in
    Ok (ShownHealth market_key auth (get_borrow_position_health read market_key auth))
  | RGlobalConfig => Ok (ShownConfig (get_global_config read))
  end.

(** *** Commands that transact *)

Inductive TxCommands : Type :=
| TCreateMarket (config supply_mint collateral_mint : string)
| TSupply (market : string) (amount : Z)
| TWithdrawSupply (market : string) (amount : option Z)
| TDepositCollateral (market : string) (amount : Z)
| TWithdrawCollateral (market : string) (amount : option Z)
| TBorrow (market : string) (amount : Z)
| TRepay (market : string) (amount : option Z)
| TLiquidate (market position : string) (max_repay min_collateral : option Z)
| TRedeemCuratorFees (market : string)
| TRedeemProtocolFees (market : string)
| TDonateSupply (market : string) (amount : Z)
| TSocializeLoss (market authority : string).

Inductive TxShown : Type :=
| ShownCreated (market : Pubkey)
| ShownEvents (events : list AutaraEvent).

(** The client, with the cache that it builds its transactions from. *)
Definition the_client (read : ReadClient) (node : SdkNode)
  (network : BitcoinNetwork) (signer : Keypair) : FullClient.AutaraFullClientWithSigner :=
  FullClient.new (builder_client read) node (sdk_network network) signer.

Definition events_of (r : Called (list AutaraEvent)) : Result CliError TxShown :=
  let? events := res_from OfClient r in Ok (ShownEvents events).

Definition handle_tx_command (program_id : Pubkey) (host : Host) (read : ReadClient)
  (self : FullClient.AutaraFullClientWithSigner) (cmd : TxCommands) : Result CliError TxShown :=
  let key s := res_from Plain (parse_pubkey s) in
  match cmd with
  | TCreateMarket config supply_mint collateral_mint =>
    let? supply_mint_key := key supply_mint in
    let? collateral_mint_key := key collateral_mint in
    let? config_json := res_from Plain
      (found ("Failed to read config file: " ++ config) (ho_read_to_string host config)) in
    let? create_market_ix := res_from Plain
      (found "Failed to parse market config JSON" (create_market_from_str config_json)) in
    let? market_pubkey := res_from OfClient
      (FullClient.create_market program_id self create_market_ix supply_mint_key
         collateral_mint_key) in
    Ok (ShownCreated market_pubkey)
  | TSupply market amount =>
    let? market_key := key market in events_of (FullClient.supply program_id self market_key amount)
  | TWithdrawSupply market amount =>
    let? market_key := key market in
    events_of (FullClient.withdraw_supply program_id self market_key amount)
  | TDepositCollateral market amount =>
    let? market_key := key market in
    events_of (FullClient.deposit_collateral program_id self market_key amount)
  | TWithdrawCollateral market amount =>
    let? market_key := key market in
    events_of (FullClient.withdraw_collateral program_id self market_key amount)
  | TBorrow market amount =>
    let? market_key := key market in events_of (FullClient.borrow program_id self market_key amount)
  | TRepay market amount =>
    let? market_key := key market in events_of (FullClient.repay program_id self market_key amount)
  | TLiquidate market position max_repay min_collateral =>
    let? market_key := key market in
    let? position_key := key position in
    events_of (FullClient.liquidate program_id self market_key position_key max_repay
                 min_collateral None)
  | TRedeemCuratorFees market =>
    let? market_key := key market in
    events_of (FullClient.reedeem_curator_fees program_id self market_key)
  | TRedeemProtocolFees market =>
    let? market_key := key market in
    events_of (FullClient.reedeem_protocol_fees program_id self market_key)
  | TDonateSupply market amount =>
    let? market_key := key market in
    events_of (FullClient.donate_supply program_id self market_key amount)
  | TSocializeLoss market authority =>
    let? market_key := key market in
    let? authority_key := key authority in
    let '(position_key, position) := borrow_position_of read market_key authority_key in
    match position with
    | None => Err (Plain (Message "No borrow position found"))
    | Some _ => events_of (FullClient.socialize_loss program_id self market_key position_key)
    end
  end.

(** *** Commands on tokens *)

(** Building, signing, sending and waiting for a transaction. *)
Definition submit (node : ServerNode) (network : BitcoinNetwork) (build_failed failed : string)
  (ixs : Transaction) (payer : Pubkey) (signers : list Keypair) : Tool () :=
  let! blockhash := plain (from_arch (get_best_block_hash (sn_sdk node))) in
  let! tx := plain (with_context build_failed
                      (from_arch (sign_transaction (mkMessage ixs payer blockhash) signers
                                    network))) in
  did (Sent tx) ;;;
  let! txids := plain (from_arch (sn_send_transactions node tx)) in
  let! processed := plain (from_arch (sn_wait_for_processed_transactions node txids)) in
  let! first := st_lift (or_panic (head processed)) in
  match pt_status first with
  | Processed => st_ret tt
  | _ => st_raise (Plain (Message failed))
  end.

Definition tool_account_exists (node : ServerNode) (pubkey : Pubkey) : bool :=
  is_ok (RpcExt.read_account_info (sn_rpc node) pubkey).

Definition create_mint_on_chain (node : ServerNode) (payer : Pubkey) (payer_keypair : Keypair)
  (mint_authority : Pubkey) (mint_keypair : Keypair) (mint_pubkey : Pubkey) (decimals : Z)
  (network : BitcoinNetwork) : Tool () :=
  submit node network "Failed to build create-account tx" "Failed to create mint account"
    [create_account_ix payer mint_pubkey (rent_of MINT_LEN) MINT_LEN apl_token_id] payer
    [payer_keypair; mint_keypair] ;;;
  let! init_ix := plain (ok_or UnpackFailure
    (initialize_mint mint_pubkey mint_authority (Some mint_authority) decimals)) in
  submit node network "Failed to build init-mint tx" "Failed to initialize mint"
    [init_ix] payer [payer_keypair; mint_keypair].

Record TokenDef : Type := mkTokenDef { td_name : string; td_key_file : string; td_decimals : Z }.

#[global] Instance TokenDef_eq_dec : EqDecision TokenDef.
Proof. solve_decision. Defined.

Definition TOKEN_AUTHORITY_KEY : string := "keys/autara-token-authority.key".
Definition setup_tokens : list TokenDef :=
  [mkTokenDef "BTC" "keys/token-btc.key" 8;
   mkTokenDef "USDC" "keys/token-usdc.key" 6;
   mkTokenDef "ETH" "keys/token-eth.key" 8].

(** The entry of a token. *)
Definition setup_entry (token_def : TokenDef) (mint_pubkey : Pubkey) : Value :=
  VObject (obj_insert "keyFile" (VString (td_key_file token_def))
             (obj_insert "decimals" (VNumber (td_decimals token_def))
                (obj_insert "mint" (VString (hex_encode mint_pubkey)) []))).

(** [.context(m)?] *)
Definition in_context {A} (m : string) (op : Tool A) : Tool A := fun l =>
  match op l with (Err (Plain e), l) => (Err (Plain (Context m e)), l) | r => r end.

(** A token of the list: its mint is created unless it exists. *)
Definition setup_token (host : Host) (node : ServerNode) (network : BitcoinNetwork)
  (signer : Keypair) (token_authority : Pubkey) (token_def : TokenDef) : Tool Value :=
  let signer_pubkey := x_only_public_key signer in
  let! mint_keypair := plain (with_context ("Failed to load key file: " ++ td_key_file token_def)
                                (ho_key_file host (td_key_file token_def))) in
  let mint_pubkey := x_only_public_key mint_keypair in
  (if tool_account_exists node mint_pubkey then st_ret tt
   else in_context ("Failed to create " ++ td_name token_def ++ " mint")
          (create_mint_on_chain node signer_pubkey signer token_authority mint_keypair mint_pubkey
             (td_decimals token_def) network)) ;;;
  st_ret (setup_entry token_def mint_pubkey).

Fixpoint setup_loop (host : Host) (node : ServerNode) (network : BitcoinNetwork)
  (signer : Keypair) (token_authority : Pubkey) (defs : list TokenDef)
  (tokens_map : list (string * Value)) : Tool (list (string * Value)) :=
  match defs with
  | [] => st_ret tokens_map
  | token_def :: defs =>
    let! entry := setup_token host node network signer token_authority token_def in
    setup_loop host node network signer token_authority defs
      (obj_insert (td_name token_def) entry tokens_map)
  end.

(** The contents of [tokens.json]. *)
Definition setup_config (token_authority : Pubkey) (tokens_map : list (string * Value)) : Value :=
  VObject (obj_insert "tokens" (VObject tokens_map)
             (obj_insert "authority" (VString (hex_encode token_authority))
                (obj_insert "authorityKeyFile" (VString TOKEN_AUTHORITY_KEY) []))).

Definition token_setup (host : Host) (node : ServerNode) (network : BitcoinNetwork)
  (signer : Keypair) (output : string) : Tool () :=
  let! authority := plain (with_context ("Failed to load token authority key: "
                                         ++ TOKEN_AUTHORITY_KEY)
                             (ho_key_file host TOKEN_AUTHORITY_KEY)) in
  let token_authority := x_only_public_key authority in
  let! tokens_map := setup_loop host node network signer token_authority setup_tokens [] in
  let config_json := json_to_string_pretty (setup_config token_authority tokens_map) in
  if ho_write host output config_json then did (Wrote output config_json)
  else st_raise (Plain (Message ("Failed to write config to " ++ output))).

Inductive TokenCommands : Type :=
| KCreateToken (decimals : Z)
| KMint (token : string) (to : option string) (amount : Z)
| KListAccounts (owner : option string)
| KSetup (output : string).

Inductive TokenShown : Type :=
| ShownMint (mint : Pubkey)
| ShownRecipient (ata : Pubkey)
| ShownBalances (balances : gmap Pubkey Z)
| ShownSetup.

Definition handle_token_command (host : Host) (node : ServerNode) (network : BitcoinNetwork)
  (signer : Keypair) (cmd : TokenCommands) : Tool TokenShown :=
  let signer_pubkey := x_only_public_key signer in
  match cmd with
  | KCreateToken decimals =>
    let mint_keypair := new_keypair network in
    let mint_pubkey := x_only_public_key mint_keypair in
    create_mint_on_chain node signer_pubkey signer signer_pubkey mint_keypair mint_pubkey decimals
      network ;;;
    st_ret (ShownMint mint_pubkey)
  | KMint token to amount =>
    let! mint_pubkey := plain (parse_pubkey token) in
    let! recipient := plain (pubkey_or to signer_pubkey) in
    let create_ata := Ixs.create_ata_ix signer_pubkey None recipient mint_pubkey in
    let recipient_ata := get_associated_token_address recipient mint_pubkey in
    let! mint_to_ix := plain (ok_or UnpackFailure
                                (mint_to mint_pubkey recipient_ata signer_pubkey amount)) in
    submit node network "Failed to build mint tx" "Failed to mint tokens"
      [create_ata; mint_to_ix] signer_pubkey [signer] ;;;
    st_ret (ShownRecipient recipient_ata)
  | KListAccounts owner =>
    let! owner_pubkey := plain (pubkey_or owner signer_pubkey) in
    let! balances := plain (get_all_balances unpack_account_mint (sn_rpc node) owner_pubkey) in
    st_ret (ShownBalances balances)
  | KSetup output => token_setup host node network signer output ;;; st_ret ShownSetup
  end.

(** *** Commands on oracles *)

Inductive OracleCommands : Type :=
| OFetchPrice (feed : list string)
| OPushPrice (feed : string) (price : spec_float)
| OPushFeeds (feed : list string) (push_interval_secs : option Z)
| OMarketFeeds (market : string).

Inductive OracleShown : Type :=
| ShownPrices (l : list (Pusher.ParsedPrice * Pubkey))
| ShownPushed (account : Pubkey)
| PushesFeeds (feeds : list string) (interval : Z)
| ShownFeeds (market : Pubkey) (l : option ((Pubkey * OracleProvider) * (Pubkey * OracleProvider))).

Definition with_0x (f : string) : string :=
  match strip_prefix "0x" f with Some _ => f | None => "0x" ++ f end.

(** [PythPrice::from_dummy], at a time *)
Definition from_dummy (now : Z) (feed_id : list Z) (price : spec_float) : Feed.PythPrice :=
  let price_u64 := Pusher.round_as_u64 (Pusher.f64_mul price (ten_powi 8)) in
  let conf_u64 := price_u64 / 100 in
  let d := mkPythPriceData price_u64 conf_u64 (-8) now in
  Feed.mkPythPrice feed_id d d (Feed.mkMetadata 0 now (now - 10)).

(** [autara_stage_program_id], [autara_oracle_stage_program_id], [autara_stage_admin]: the keys of
    the workspace, or a panic *)
Definition stage_key {E} (host : Host) (path : string) : Result E Keypair :=
  match ho_key_file host (ho_workspace host ++ "../" ++ path) with Ok k => Ok k | _ => Panic end.
Definition autara_stage_program_id {E} (host : Host) : Result E Pubkey :=
  res_map x_only_public_key (stage_key host "keys/autara-stage.key").
Definition autara_oracle_stage_program_id {E} (host : Host) : Result E Pubkey :=
  res_map x_only_public_key (stage_key host "keys/autara-pyth-stage.key").
Definition autara_stage_admin {E} (host : Host) : Result E Keypair :=
  stage_key host "keys/autara-admin-stage.key".

Definition market_feeds {E} (m : Market)
  : Result E ((Pubkey * OracleProvider) * (Pubkey * OracleProvider)) :=
  let? (supply_oracle_key, collateral_oracle_key) := get_oracle_keys m in
  Ok ((supply_oracle_key,
       oracle_provider (config_provider (SupplyVault.oracle_config (supply_vault m)))),
      (collateral_oracle_key,
       oracle_provider (config_provider (CollateralVault.oracle_config (collateral_vault m))))).

Definition handle_oracle_command (host : Host) (pusher : Pusher.PushNode) (web : Pusher.Web)
  (now : Z) (read : ReadClient) (signer : Keypair) (cmd : OracleCommands) : AnyRes OracleShown :=
  let? oracle_program_id := autara_oracle_stage_program_id host in
  match cmd with
  | OFetchPrice feed =>
    let? result := Pusher.fetch_pyth_price web (with_0x <$> feed) in
    let? shown := res_list (fun data =>
      let? feed_id := found "Invalid feed ID in response" (hex_decode 32 (Pusher.pr_id data)) in
      Ok (data, Pusher.get_pyth_account oracle_program_id feed_id)) result in
    Ok (ShownPrices shown)
  | OPushPrice feed price =>
    let feed_hex := default feed (strip_prefix "0x" feed) in
    let? feed_id := found "Invalid feed ID hex" (hex_decode 32 feed_hex) in
    let pyth_price := from_dummy now feed_id price in
    let? _ := Pusher.push_pyth_price pusher oracle_program_id signer feed_id pyth_price in
    Ok (ShownPushed (Pusher.get_pyth_account oracle_program_id feed_id))
  | OPushFeeds feed push_interval_secs =>
    Ok (PushesFeeds (with_0x <$> feed)
          (default (Pusher.push_interval_from_env (ho_env host "PUSH_INTERVAL_SECS"))
             push_interval_secs))
  | OMarketFeeds market =>
    let? market_key := parse_pubkey market in
    match get_market_wrapper read market_key with
    | Some mw => let? l := market_feeds (MarketWrapper.market mw) in
                 Ok (ShownFeeds market_key (Some l))
    | None => Ok (ShownFeeds market_key None)
    end
  end.

(** *** [main] *)

Inductive Commands : Type :=
| CRead (c : ReadCommands) | CTx (c : TxCommands) | CToken (c : TokenCommands)
| COracle (c : OracleCommands).

Record Cli : Type := mkCli {
  cli_signer : option string;
  cli_network : string;
  cli_tokens : string;
  cli_program_id : option string;
  cli_command : Commands }.

Inductive CliShown : Type :=
| SRead (s : Shown) (names : TokenNames) | STx (s : TxShown) | SToken (s : TokenShown)
| SOracle (s : OracleShown).

(** [tokio::time::timeout(_, client.full_reload()).await.context(_)??] on a new client *)
Definition full_reload (host : Host) (node : ServerNode) (program_id : Pubkey) (now : Z)
  (timed_out : string) : AnyRes Single.AutaraReadClientImpl :=
  if ho_in_time host then
    match Single.reload program_id (sn_rpc node) now Single.new with
    | (Ok _, c) => Ok c
    | (Err e, _) => Err e
    | (Panic, _) => Panic
    end
  else Err (Message timed_out).

Definition cli_main (host : Host) (node : ServerNode) (pusher : Pusher.PushNode)
  (web : Pusher.Web) (now : Z) (cli : Cli) : Tool CliShown :=
  let signer_path := match cli_signer cli with
                     | Some p => Some p
                     | None => ho_env host "AUTARA_SIGNER_KEY"
                     end in
  let! network := plain (parse_network (cli_network cli)) in
  let! signer := plain match signer_path with
                       | Some path => with_context "Failed to load signer key"
                                        (ho_key_file host path)
                       | None => autara_stage_admin host
                       end in
  let! program_id := plain match cli_program_id cli with
                           | Some s => parse_pubkey s
                           | None => autara_stage_program_id host
                           end in
  let! cache := plain (full_reload host node program_id now "could not load autara state with RPC") in
  let read := Single.read_client program_id now cache in
  let token_names := load_names host (cli_tokens cli) in
  match cli_command cli with
  | CRead c => let! s := plain (handle_read_command read (x_only_public_key signer) c) in
               st_ret (SRead s token_names)
  | CTx c => let! s := st_lift (handle_tx_command program_id host read
                                  (the_client read (sn_sdk node) network signer) c) in
             st_ret (STx s)
  | CToken c => let! s := handle_token_command host node network signer c in st_ret (SToken s)
  | COracle c => let! s := plain (handle_oracle_command host pusher web now read signer c) in
                 st_ret (SOracle s)
  end.

(** ** [autara-server.rs] *)

Record TokenEntry : Type := mkTokenEntry {
  te_mint : string;
  te_decimals : Z;
  te_key_file : string;
  te_faucet_amount : option Z }.

Record TokensFile : Type := mkTokensFile {
  tf_authority_key_file : string;
  tf_authority : string;
  tf_tokens : gmap string TokenEntry }.

(** The derived deserializers, on an object. *)
Definition field_str (k : string) (m : list (string * Value)) : option string :=
  v ← obj_get k m; as_str_value v.
Definition token_entry_of (v : Value) : option TokenEntry :=
  m ← as_object v;
  mint ← field_str "mint" m;
  decimals ← match obj_get "decimals" m with
             | Some (VNumber n) => if (0 <=? n) && (n <? 2 ^ 8) then Some n else None
             | _ => None
             end;
  key_file ← field_str "keyFile" m;
  faucet_amount ← match obj_get "faucetAmount" m with
                  | None | Some VNull => Some None
                  | Some (VNumber n) => if (0 <=? n) && (n <? 2 ^ 64) then Some (Some n) else None
                  | _ => None
                  end;
  Some (mkTokenEntry mint decimals key_file faucet_amount).
Fixpoint token_entries_of (m : list (string * Value)) : option (gmap string TokenEntry) :=
  match m with
  | [] => Some ∅
  | (k, v) :: m => rest ← token_entries_of m; e ← token_entry_of v; Some (<[k := e]> rest)
  end.
Definition tokens_file_of (v : Value) : option TokensFile :=
  m ← as_object v;
  authority_key_file ← field_str "authorityKeyFile" m;
  authority ← field_str "authority" m;
  t ← obj_get "tokens" m; t ← as_object t;
  tokens ← token_entries_of t;
  Some (mkTokensFile authority_key_file authority tokens).

Definition DEFAULT_FAUCET_MINT_AMOUNT : Z := 1000000000000.

(** The text of the feed of a token, and its bytes. *)
Definition feed_text_for_token (name : string) : option string :=
  let name := to_uppercase name in
  if String.eqb name "BTC" || String.eqb name "ABTC" then Some Pusher.BTC_FEED
  else if String.eqb name "USDC" || String.eqb name "AUSD" then Some Pusher.USDC_FEED
  else if String.eqb name "ETH" then Some Pusher.ETH_FEED
  else None.
Definition pyth_feed_for_token (name : string) : option (list Z) :=
  feed_hex ← feed_text_for_token name;
  hex_decode 32 (default feed_hex (strip_prefix "0x" feed_hex)).

Definition default_market_config {E} (supply_feed_id collateral_feed_id : list Z)
  (oracle_program_id : Pubkey) : Result E CreateMarketInstruction :=
  let? max_ltv := i_from_f64 (f64_decimal false 8 (-1)) in
  let? unhealthy_ltv := i_from_f64 (f64_decimal false 9 (-1)) in
  let? liquidation_bonus := i_from_f64 (f64_decimal false 5 (-2)) in
  let? max_utilisation_rate := i_from_f64 (f64_decimal false 9 (-1)) in
  Ok (mkCreateMarketIx 0 0 (mkLtv max_ltv unhealthy_ltv liquidation_bonus) max_utilisation_rate
        (new_pyth supply_feed_id oracle_program_id) (new_pyth collateral_feed_id oracle_program_id)
        new_adaptive 100).

Definition with_oracles (ix : CreateMarketInstruction) (supply collateral : OracleConfig)
  : CreateMarketInstruction :=
  mkCreateMarketIx (ci_market_bump ix) (ci_index ix) (ci_ltv_config ix)
    (ci_max_utilisation_rate ix) supply collateral (ci_interest_rate ix)
    (ci_lending_market_fee_in_bps ix).

(** The pairs of two different places of a list. *)
Definition ordered_pairs {A} (l : list A) : list (A * A) :=
  concat (imap (fun i x => omap (fun '(j, y) => if (i =? j)%nat then None else Some (x, y))
                             (imap pair l)) l).

(** The market of a pair of tokens. *)
Definition ensure_market (node : ServerNode) (autara_program_id oracle_program_id : Pubkey)
  (self : FullClient.AutaraFullClientWithSigner) (override : option CreateMarketInstruction)
  (market_pair : (string * TokenEntry) * (string * TokenEntry)) : Tool () :=
  let '((supply_name, supply_token), (collateral_name, collateral_token)) := market_pair in
  let! supply_mint := plain (parse_pubkey (te_mint supply_token)) in
  let! collateral_mint := plain (parse_pubkey (te_mint collateral_token)) in
  match pyth_feed_for_token supply_name, pyth_feed_for_token collateral_name with
  | Some supply_feed_id, Some collateral_feed_id =>
    let market_pda := fst (find_market_pda autara_program_id (FullClient.signer_pubkey self)
                             supply_mint collateral_mint 0) in
    if tool_account_exists node market_pda then did (MarketExists supply_mint collateral_mint)
    else
      let! market_ix := st_lift
        match override with
        | Some ix => Ok (with_oracles ix (new_pyth supply_feed_id oracle_program_id)
                           (new_pyth collateral_feed_id oracle_program_id))
        | None => default_market_config supply_feed_id collateral_feed_id oracle_program_id
        end in
      let r := FullClient.create_market autara_program_id self market_ix supply_mint
                 collateral_mint in
      match r with
      | Panic => st_lift Panic
      | _ => did (TriedMarket market_ix supply_mint collateral_mint r)
      end
  | _, _ => st_ret tt
  end.

Fixpoint ensure_markets (node : ServerNode) (autara_program_id oracle_program_id : Pubkey)
  (self : FullClient.AutaraFullClientWithSigner) (override : option CreateMarketInstruction)
  (pairs : list ((string * TokenEntry) * (string * TokenEntry))) : Tool () :=
  match pairs with
  | [] => st_ret tt
  | market_pair :: pairs =>
    ensure_market node autara_program_id oracle_program_id self override market_pair ;;;
    ensure_markets node autara_program_id oracle_program_id self override pairs
  end.

Definition default_faucet_amount (host : Host) : AnyRes Z :=
  match ho_env host "FAUCET_MINT_AMOUNT" with
  | Some v => if nonempty (trim v)
              then found "invalid FAUCET_MINT_AMOUNT (expected raw u64)" (parse_u64 (trim v))
              else Ok DEFAULT_FAUCET_MINT_AMOUNT
  | None => Ok DEFAULT_FAUCET_MINT_AMOUNT
  end.

Definition minter_of (token_authority : Keypair) (default_amount : Z) (token : TokenEntry)
  : AnyRes (TokenMinter * Z) :=
  let? mint := parse_pubkey (te_mint token) in
  Ok (from_existing token_authority mint, default default_amount (te_faucet_amount token)).

Record Args : Type := mkArgs {
  ar_tokens : string;
  ar_program_id : option string;
  ar_oracle_program_id : option string;
  ar_signer : option string;
  ar_network : string;
  ar_market_config : option string }.

(** The server that is started, and the feeds that it pushes itself. *)
Record Started : Type := mkStarted {
  st_context : AutataServerContext;
  st_feeds : list string }.

Definition pushed_feeds (host : Host) (names : list string) : list string :=
  let disable := match ho_env host "DISABLE_PRICE_PUSHER" with
                 | Some v => String.eqb v "1" || eq_ignore_ascii_case v "true"
                 | None => false
                 end in
  if disable then [] else omap feed_text_for_token names.

(** The requests to the faucet, whose errors are ignored. *)
Definition ask_faucet (k : Keypair) : Tool () := did (AskedFaucet k).

Definition load_tokens_file (host : Host) (path : string) : AnyRes TokensFile :=
  let? tokens_json := found ("Failed to read tokens config: " ++ path)
                        (ho_read_to_string host path) in
  found "Failed to parse tokens config" (v ← json_from_str tokens_json; tokens_file_of v).

Definition load_market_config (host : Host) (path : option string)
  : AnyRes (option CreateMarketInstruction) :=
  match path with
  | Some path =>
    let? json := found ("Failed to read market config: " ++ path) (ho_read_to_string host path) in
    let? ix := found "Failed to parse market config JSON" (create_market_from_str json) in
    Ok (Some ix)
  | None => Ok None
  end.

Definition server_main (host : Host) (node : ServerNode) (now : Z) (args : Args) : Tool Started :=
  let! network := plain (parse_network (ar_network args)) in
  let! autara_program_id := plain match ar_program_id args with
                                  | Some s => parse_pubkey s
                                  | None => autara_stage_program_id host
                                  end in
  let! oracle_program_id := plain match ar_oracle_program_id args with
                                  | Some s => parse_pubkey s
                                  | None => autara_oracle_stage_program_id host
                                  end in
  let! signer_path := plain (found "Signer key required: use --signer or set AUTARA_SIGNER_KEY"
    match ar_signer args with Some p => Some p | None => ho_env host "AUTARA_SIGNER_KEY" end) in
  let! signer := plain (with_context ("Failed to load signer key: " ++ signer_path)
                          (ho_key_file host signer_path)) in
  let! tokens_file := plain (load_tokens_file host (ar_tokens args)) in
  let! token_authority := plain (with_context ("Failed to load token authority key: "
                                               ++ tf_authority_key_file tokens_file)
                                   (ho_key_file host (tf_authority_key_file tokens_file))) in
  let! override := plain (load_market_config host (ar_market_config args)) in
  ask_faucet signer ;;;
  ask_faucet token_authority ;;;
  let! cache := plain (full_reload host node autara_program_id now
                         "Timeout loading protocol state") in
  let read := Single.read_client autara_program_id now cache in
  let self := the_client read (sn_sdk node) network signer in
  let signer_pubkey := FullClient.signer_pubkey self in
  match get_global_config read with
  | None =>
    let r := FullClient.create_global_config autara_program_id self signer_pubkey signer_pubkey 100 in
    did (TriedConfig r) ;;;
    let! _ := client r in st_ret tt
  | Some _ => st_ret tt
  end ;;;
  let token_list := map_to_list (tf_tokens tokens_file) in
  ensure_markets node autara_program_id oracle_program_id self override (ordered_pairs token_list) ;;;
  let! amount := plain (default_faucet_amount host) in
  let! minters := plain (res_list (fun '(_, token) => minter_of token_authority amount token)
                           token_list) in
  let! context := plain (build_autara_server node Shared.new minters) in
  st_ret (mkStarted context (pushed_feeds host (fst <$> token_list))).

End Tools.

Notation Tool := (STE CliError (list Did)).

(** * What the tools do *)

Section Effects.
Context {SDK : ArchSdk} {DT : DebugText}.

(** A run adds to the list only what is allowed. *)
Definition emits {A} (P : Did -> Prop) (m : Tool A) : Prop :=
  forall l, exists l', snd (m l) = (l ++ l')%list /\ Forall P l'.

Lemma emits_lift {A} P (r : Result CliError A) : emits P (st_lift r).
Proof. intros l. exists []. by rewrite app_nil_r. Qed.
Lemma emits_ret {A} P (a : A) : emits P (st_ret a).
Proof. intros l. exists []. by rewrite app_nil_r. Qed.
Lemma emits_raise {A} P e : emits P (st_raise (A := A) e).
Proof. intros l. exists []. by rewrite app_nil_r. Qed.
Lemma emits_did (P : Did -> Prop) d : P d -> emits P (did d).
Proof. intros H l. exists [d]. split; [done | by constructor]. Qed.
Lemma emits_bind {A B} P (m : Tool A) (k : A -> Tool B) :
  emits P m -> (forall a, emits P (k a)) -> emits P (st_bind m k).
Proof.
  intros Hm Hk l. unfold st_bind. destruct (Hm l) as (l1 & E1 & H1).
  destruct (m l) as [[a | |] s]; cbn in *; subst; [| by eauto..].
  destruct (Hk a (l ++ l1)%list) as (l2 & E2 & H2). exists (l1 ++ l2)%list.
  rewrite E2, app_assoc. split; [done |]. by apply Forall_app.
Qed.
Lemma emits_mono {A} (P Q : Did -> Prop) (m : Tool A) :
  (forall d, P d -> Q d) -> emits P m -> emits Q m.
Proof. intros H Hm l. destruct (Hm l) as (l' & E & Hl). exists l'. split; [done |].
  by eapply Forall_impl. Qed.

End Effects.

Create HintDb emitting.
#[export] Hint Resolve emits_lift emits_ret emits_raise : emitting.

Ltac emitting :=
  repeat match goal with
  | |- emits _ (st_bind _ _) => apply emits_bind; [| intros ?]
  | |- emits _ (plain _) => apply emits_lift
  | |- emits _ (client _) => apply emits_lift
  | |- emits _ (did _) => apply emits_did; try done
  | |- emits _ (match ?x with _ => _ end) => destruct x
  | |- emits _ (let '(_, _) := ?x in _) => destruct x
  | |- emits _ _ => solve [auto with emitting]
  end.

Section Bootstrap.
Context {FX : FixedCrate} {PC : PdaCrate} {BC : OracleBuild} {CH : Chain} {BO : BorshCrate}.
Context {PE : ProgramErrorCrate} {SDK : ArchSdk} {DT : DebugText} {FL : FloatLib} {AT : AplToken}.
Context {FF : FixedFloats} {PT : PubkeyText} {SV : ServerCrates} {CC : CliCrates}.

(** ** The configuration is never created

    The cache of a client always has a configuration, and its reload fails on a chain that has
    none. *)

Definition no_config (d : Did) : Prop := match d with TriedConfig _ => False | _ => True end.

Lemma ensure_market_emits node p o self override mp :
  emits no_config (ensure_market node p o self override mp).
Proof. unfold ensure_market. cbv zeta. emitting. Qed.

Lemma ensure_markets_emits node p o self override pairs :
  emits no_config (ensure_markets node p o self override pairs).
Proof.
  induction pairs as [| mp pairs IH]; cbn [ensure_markets]; emitting. apply ensure_market_emits.
Qed.

Lemma server_creates_no_config host node now args :
  emits no_config (server_main host node now args).
Proof.
  unfold server_main, ask_faucet. cbv zeta. cbn [get_global_config Single.read_client].
  emitting; apply ensure_markets_emits.
Qed.

Lemma reload_needs_config program rpc now c c' :
  Single.reload program rpc now c = (Ok tt, c') ->
  is_ok (get_pod_account global_config_pod rpc (fst (find_global_config_pda program))) = true.
Proof. unfold Single.reload. intros H. run_inv. by rewrite H2. Qed.

(** The faucet is asked, and that is all. *)
Definition only_faucet (d : Did) : Prop := match d with AskedFaucet _ => True | _ => False end.

(** A run that does only what is allowed and does not end well. *)
Definition stops {A} (P : Did -> Prop) (m : Tool A) : Prop :=
  emits P m /\ forall l, is_ok (fst (m l)) = false.

Lemma stops_plain {A B} P (r : AnyRes A) (k : A -> Tool B) :
  (forall a, r = Ok a -> stops P (k a)) -> stops P (st_bind (plain r) k).
Proof.
  intros H. destruct r as [a | |]; [by apply (H a) | ..];
    (split; intros l; [exists []; by rewrite app_nil_r | done]).
Qed.

Lemma stops_did {B} (P : Did -> Prop) d (k : () -> Tool B) :
  P d -> stops P (k tt) -> stops P (st_bind (did d) k).
Proof.
  intros Hd [Hk Ho]. split; [| intros l; apply Ho].
  apply emits_bind; [by apply emits_did | by intros []].
Qed.

Lemma reload_fails host node program now msg :
  is_ok (get_pod_account global_config_pod (sn_rpc node) (fst (find_global_config_pda program)))
    = false ->
  is_ok (full_reload host node program now msg) = false.
Proof.
  intros H. unfold full_reload. destruct (ho_in_time host); [| done].
  destruct (Single.reload program (sn_rpc node) now Single.new) as [[[] | |] c] eqn:E; [| done..].
  apply reload_needs_config in E. congruence.
Qed.

(** The server on a chain without a configuration: it asks the faucet twice and stops. *)
Lemma server_needs_config host node now args :
  (forall p, match ar_program_id args with
             | Some s => parse_pubkey s
             | None => autara_stage_program_id host
             end = Ok p ->
     is_ok (get_pod_account global_config_pod (sn_rpc node) (fst (find_global_config_pda p)))
       = false) ->
  stops only_faucet (server_main host node now args).
Proof.
  intros H. unfold server_main, ask_faucet. apply stops_plain. intros network _.
  apply stops_plain. intros program Hp. do 6 (apply stops_plain; intros ? _).
  do 2 (apply stops_did; [done |]). apply stops_plain. intros cache Hc. apply H in Hp.
  apply (reload_fails host node program now "Timeout loading protocol state") in Hp.
  by rewrite Hc in Hp.
Qed.

(** ** From [token setup] to the server *)

Lemma hex_encode_length b : String.length (hex_encode b) = (2 * length b)%nat.
Proof.
  induction b as [| x b IH]; [done |]. cbn [hex_encode fold_right String.length length].
  fold (hex_encode b). rewrite IH. lia.
Qed.

Lemma hex_decode_encode b : Forall is_u8 b -> hex_decode (length b) (hex_encode b) = Some b.
Proof.
  induction 1 as [| x b Hx _ IH]; [done |].
  assert (Hq : 0 <= x / 16 < 16)
    by (split; [apply Z.div_pos | apply Z.div_lt_upper_bound]; widths_lia).
  pose proof (Z.mod_pos_bound x 16 ltac:(lia)). cbn [length hex_encode fold_right hex_decode].
  rewrite !hex_value_digit by done. fold (hex_encode b). rewrite IH.
  by rewrite <- Z.div_mod by lia.
Qed.

Lemma parse_hex_pubkey k : is_pubkey k -> parse_pubkey (hex_encode k) = Ok k.
Proof.
  intros [Hl Hb]. unfold parse_pubkey. rewrite hex_encode_length, Hl. cbn [Nat.mul Nat.add Nat.eqb].
  by rewrite <- Hl, hex_decode_encode.
Qed.

(** The mints of the tokens of the setup. *)
Definition mint_key (host : Host) (d : TokenDef) : Pubkey :=
  match ho_key_file host (td_key_file d) with Ok k => x_only_public_key k | _ => [] end.

(** A transaction that the network processed. *)
Definition processed (node : ServerNode) (tx : RuntimeTransaction) : Prop :=
  exists txids first others, sn_send_transactions node tx = Ok txids /\
    sn_wait_for_processed_transactions node txids = Ok (first :: others) /\
    pt_status first = Processed.

(** A transaction of one instruction, sent in a run and processed. *)
Definition went_through (node : ServerNode) (network : BitcoinNetwork) (signers : list Keypair)
  (ix : Instruction) (l : list Did) : Prop :=
  exists payer blockhash tx,
    sign_transaction (mkMessage [ix] payer blockhash) signers network = Ok tx /\
    Sent tx ∈ l /\ processed node tx.

(** What a setup does for the mint of a token: the mint was there, or the setup has created it
    and initialised it with the authority, for minting and for freezing. *)
Definition mint_set_up (host : Host) (node : ServerNode) (network : BitcoinNetwork)
  (signer : Keypair) (authority : Pubkey) (l : list Did) (d : TokenDef) : Prop :=
  tool_account_exists node (mint_key host d) = true \/
  exists keypair init, ho_key_file host (td_key_file d) = Ok keypair /\
    initialize_mint (mint_key host d) authority (Some authority) (td_decimals d) = Some init /\
    went_through node network [signer; keypair]
      (create_account_ix (x_only_public_key signer) (mint_key host d) (rent_of MINT_LEN) MINT_LEN
         apl_token_id) l /\
    went_through node network [signer; keypair] init l.

Lemma submit_ok node network m1 m2 ix payer signers l l' :
  submit node network m1 m2 [ix] payer signers l = (Ok tt, l') ->
  exists tx, l' = (l ++ [Sent tx])%list /\ went_through node network signers ix l'.
Proof.
  unfold submit, plain, did, with_context, from_arch. intros H. run_inv.
  repeat match goal with E : res_from _ _ = Ok _ |- _ => apply res_from_ok in E end. run_inv.
  match goal with E : head ?p = Some _ |- _ => destruct p as [| first others]; [done |] end.
  cbn [head] in *. simplify_eq. destruct (pt_status _) eqn:Es; try discriminate. run_inv.
  eexists. split; [done |]. do 3 eexists. split_and!; [eassumption | set_solver |].
  do 3 eexists. eauto.
Qed.

Lemma went_through_grows node network signers ix l l' :
  l ⊆ l' -> went_through node network signers ix l -> went_through node network signers ix l'.
Proof. intros Hl (payer & h & tx & Hs & Hin & Hp). exists payer, h, tx. auto. Qed.

Lemma mint_set_up_grows host node network signer authority l l' d :
  l ⊆ l' -> mint_set_up host node network signer authority l d ->
  mint_set_up host node network signer authority l' d.
Proof.
  intros Hl [He | (k & i & Hk & Hi & H1 & H2)]; [by left | right].
  exists k, i. split_and!; [done | done | by eapply went_through_grows..].
Qed.

Lemma create_mint_ok node payer signer authority keypair mint n network l l' :
  create_mint_on_chain node payer signer authority keypair mint n network l = (Ok tt, l') ->
  l ⊆ l' /\
  exists init, initialize_mint mint authority (Some authority) n = Some init /\
    went_through node network [signer; keypair]
      (create_account_ix payer mint (rent_of MINT_LEN) MINT_LEN apl_token_id) l' /\
    went_through node network [signer; keypair] init l'.
Proof.
  unfold create_mint_on_chain. intros H. run_inv.
  apply submit_ok in H as (tx & -> & W1). apply submit_ok in H1 as (tx' & -> & W2).
  unfold plain in *. run_inv.
  repeat match goal with E : res_from _ _ = Ok _ |- _ => apply res_from_ok in E end. run_inv.
  split; [set_solver |]. eexists. split_and!; [eassumption | | done].
  eapply went_through_grows; [| done]. set_solver.
Qed.

Lemma setup_token_ok host node network signer authority d l l' v :
  setup_token host node network signer authority d l = (Ok v, l') ->
  v = setup_entry d (mint_key host d) /\ is_ok (ho_key_file host (td_key_file d)) = true /\
  l ⊆ l' /\ mint_set_up host node network signer authority l' d.
Proof.
  unfold setup_token, mint_set_up, mint_key, plain. intros H. run_inv.
  destruct (ho_key_file host (td_key_file d)) as [k | |]; cbn in *; try discriminate.
  simplify_eq. split; [done |]. split; [done |].
  destruct (tool_account_exists _ _); [run_inv; auto |]. unfold in_context in *.
  destruct (create_mint_on_chain _ _ _ _ _ _ _ _ _) as [[[] | [] |] l2] eqn:E; try discriminate.
  simplify_eq. apply create_mint_ok in E as (Hl & i & Hi & W1 & W2).
  split; [done | right]. eexists _, i. eauto.
Qed.

Definition setup_map (host : Host) (defs : list TokenDef) (m : list (string * Value))
  : list (string * Value) :=
  foldl (fun m d => obj_insert (td_name d) (setup_entry d (mint_key host d)) m) m defs.

Lemma setup_loop_ok host node network signer authority defs : forall m l l' m',
  setup_loop host node network signer authority defs m l = (Ok m', l') ->
  m' = setup_map host defs m /\ l ⊆ l' /\
  Forall (fun d => is_ok (ho_key_file host (td_key_file d)) = true /\
                   mint_set_up host node network signer authority l' d) defs.
Proof.
  induction defs as [| d defs IH]; intros m l l' m' H; cbn [setup_loop] in H; run_inv.
  - split_and!; [done | done | constructor].
  - apply setup_token_ok in H as (-> & Hk & Hl & Hs). apply IH in H0 as (-> & Hl' & Hks).
    split_and!; [done | set_solver |]. constructor; [| done]. eauto using mint_set_up_grows.
Qed.

Lemma token_setup_ok host node network signer output l l' :
  token_setup host node network signer output l = (Ok tt, l') ->
  exists authority l0,
    ho_key_file host TOKEN_AUTHORITY_KEY = Ok authority /\
    l' = (l0 ++ [Wrote output (json_to_string_pretty
            (setup_config (x_only_public_key authority) (setup_map host setup_tokens [])))])%list /\
    Forall (fun d => is_ok (ho_key_file host (td_key_file d)) = true /\
                     mint_set_up host node network signer (x_only_public_key authority) l' d)
      setup_tokens.
Proof.
  unfold token_setup, plain. intros H. run_inv.
  destruct (ho_key_file host TOKEN_AUTHORITY_KEY) as [k | |] eqn:Ek; cbn in H; try discriminate.
  simplify_eq. apply setup_loop_ok in H0 as (-> & _ & Hk).
  destruct (ho_write _ _ _); [| discriminate]. unfold did in *. run_inv.
  do 2 eexists. split_and!; [done.. |]. eapply list.Forall_impl; [exact Hk |]. intros d [Hd Hs].
  split; [done |]. eapply mint_set_up_grows; [| done]. set_solver.
Qed.

(** An entry as the server reads it. *)
Definition entry_read (host : Host) (d : TokenDef) : string * TokenEntry :=
  (td_name d, mkTokenEntry (hex_encode (mint_key host d)) (td_decimals d) (td_key_file d) None).

Definition file_read (host : Host) (authority : Pubkey) : TokensFile :=
  mkTokensFile TOKEN_AUTHORITY_KEY (hex_encode authority)
    (list_to_map (entry_read host <$> setup_tokens)).

Lemma setup_config_canonical host authority :
  canonical (setup_config authority (setup_map host setup_tokens [])) = true.
Proof. reflexivity. Qed.

Lemma setup_config_read host authority :
  tokens_file_of (setup_config authority (setup_map host setup_tokens []))
  = Some (file_read host authority).
Proof. reflexivity. Qed.

(** The tokens in the order of the map. *)
Definition read_order : list TokenDef :=
  omap (fun '(name, _) => find (fun d => String.eqb (td_name d) name) setup_tokens)
    (map_to_list (list_to_map ((fun d => (td_name d, tt)) <$> setup_tokens) : gmap string ())).

Lemma token_list_read host authority :
  map_to_list (tf_tokens (file_read host authority)) = entry_read host <$> read_order.
Proof. vm_compute. reflexivity. Qed.

Lemma same_elements {A} `{EqDecision A} (l1 l2 : list A) :
  bool_decide (NoDup l1) && bool_decide (NoDup l2) && bool_decide (Forall (fun x => x ∈ l2) l1)
    && bool_decide (Forall (fun x => x ∈ l1) l2) = true -> l1 ≡ₚ l2.
Proof.
  intros H. bool_prop. apply NoDup_Permutation; [done.. |]. intros x.
  rewrite list.Forall_forall in *. split; auto.
Qed.

Lemma read_order_tokens : read_order ≡ₚ setup_tokens.
Proof. apply same_elements. vm_compute. reflexivity. Qed.
Lemma read_order_pairs : ordered_pairs read_order ≡ₚ ordered_pairs setup_tokens.
Proof. apply same_elements. vm_compute. reflexivity. Qed.

Lemma read_pairs host :
  ordered_pairs (entry_read host <$> read_order)
  = (fun '(a, b) => (entry_read host a, entry_read host b)) <$> ordered_pairs read_order.
Proof. vm_compute. reflexivity. Qed.

Lemma paired_tokens :
  Forall (fun p => fst p ∈ setup_tokens /\ snd p ∈ setup_tokens) (ordered_pairs setup_tokens).
Proof. apply (bool_decide_unpack _). vm_compute. exact I. Qed.

(** *** Markets *)

(** What is done for the market of two tokens: nothing where the account of the market of the
    curator is there, whatever that account holds (the tool reads no more of it), and one attempt
    to create it with the feeds of both tokens where it is not. *)
Definition market_done (host : Host) (node : ServerNode) (program oracle curator : Pubkey)
  (defs : TokenDef * TokenDef) (d : Did) : Prop :=
  let '(s, c) := defs in
  let there := tool_account_exists node
    (fst (find_market_pda program curator (mint_key host s) (mint_key host c) 0)) in
  match d with
  | MarketExists sm cm => sm = mint_key host s /\ cm = mint_key host c /\ there = true
  | TriedMarket ix sm cm _ =>
    sm = mint_key host s /\ cm = mint_key host c /\ there = false /\
    exists fs fc, pyth_feed_for_label (td_name s) = Some fs /\
      pyth_feed_for_label (td_name c) = Some fc /\
      ci_supply_oracle_config ix = new_pyth fs oracle /\
      ci_collateral_oracle_config ix = new_pyth fc oracle
  | _ => False
  end.

Definition has_feed (d : TokenDef) : Prop :=
  exists f, pyth_feed_for_token (td_name d) = Some f /\ pyth_feed_for_label (td_name d) = Some f.

Lemma setup_has_feeds d : d ∈ setup_tokens -> has_feed d.
Proof.
  revert d. apply list.Forall_forall. unfold has_feed. repeat constructor;
    (eexists; split; [vm_compute; reflexivity | vm_compute; reflexivity]).
Qed.

Lemma ensure_market_ok host node p o self override s c l l' :
  is_pubkey (mint_key host s) -> is_pubkey (mint_key host c) -> has_feed s -> has_feed c ->
  ensure_market node p o self override (entry_read host s, entry_read host c) l = (Ok tt, l') ->
  exists d, l' = (l ++ [d])%list /\
    market_done host node p o (FullClient.signer_pubkey self) (s, c) d.
Proof.
  intros Hs Hc (fs & Es & Ls) (fc & Ec & Lc). unfold ensure_market, entry_read, plain. cbn [te_mint].
  rewrite !parse_hex_pubkey, Es, Ec by done. intros H. run_inv. cbn [res_from] in *. run_inv.
  destruct (tool_account_exists _ _) eqn:Ea.
  - unfold did in *. run_inv. eexists. split; [done |]. by cbn.
  - run_inv. assert (Hix : ci_supply_oracle_config x = new_pyth fs o /\
                            ci_collateral_oracle_config x = new_pyth fc o).
    { destruct override; [by simplify_eq |]. unfold default_market_config in *. by run_inv. }
    destruct (FullClient.create_market _ _ _ _ _); unfold did in *; run_inv;
      (eexists; split; [done |]; cbn; naive_solver).
Qed.

Lemma ensure_markets_ok host node p o self override defs : forall l l',
  Forall (fun '(s, c) => is_pubkey (mint_key host s) /\ is_pubkey (mint_key host c) /\
                         has_feed s /\ has_feed c) defs ->
  ensure_markets node p o self override
    ((fun '(a, b) => (entry_read host a, entry_read host b)) <$> defs) l = (Ok tt, l') ->
  exists ds, l' = (l ++ ds)%list /\
    Forall2 (market_done host node p o (FullClient.signer_pubkey self)) defs ds.
Proof.
  induction defs as [| [s c] defs IH]; intros l l' Hd H; cbn [fmap list_fmap ensure_markets] in H.
  - run_inv. exists []. by rewrite app_nil_r.
  - apply list.Forall_cons in Hd as [(Hs & Hc & Fs & Fc) Hds]. run_inv.
    apply ensure_market_ok in H as (d & -> & Hd); [| done..].
    apply IH in H0 as (ds & -> & Hf); [| done]. exists (d :: ds).
    rewrite <- app_assoc. split; [done | by constructor].
Qed.

(** *** Minters and names *)

Lemma minters_ok host authority amount defs minters :
  Forall (fun d => is_pubkey (mint_key host d)) defs ->
  res_list (fun '(_, token) => minter_of authority amount token) (entry_read host <$> defs)
    = Ok minters ->
  minters = (fun d => (from_existing authority (mint_key host d), amount)) <$> defs.
Proof.
  revert minters. induction defs as [| d defs IH]; intros minters Hd H;
    cbn [fmap list_fmap res_list] in *; [by run_inv |].
  inversion_clear Hd. unfold minter_of in H at 1. cbn [entry_read te_mint te_faucet_amount] in H.
  rewrite parse_hex_pubkey in H by done. cbn [res_bind default] in H. run_inv.
  by rewrite (IH x).
Qed.

Definition sorted_tokens : list TokenDef := Eval vm_compute in
  match setup_tokens with [btc; usdc; eth] => [btc; eth; usdc] | l => l end.

Lemma setup_map_sorted host :
  setup_map host setup_tokens []
  = (fun d => (td_name d, setup_entry d (mint_key host d))) <$> sorted_tokens.
Proof. reflexivity. Qed.

Lemma setup_config_tokens host authority :
  value_get "tokens" (setup_config authority (setup_map host setup_tokens []))
  = Some (VObject (setup_map host setup_tokens [])).
Proof. reflexivity. Qed.

Lemma setup_entry_mint d k : value_get "mint" (setup_entry d k) = Some (VString (hex_encode k)).
Proof. reflexivity. Qed.

Lemma add_setup_name host d m :
  is_pubkey (mint_key host d) ->
  add_name m (td_name d, setup_entry d (mint_key host d)) = <[mint_key host d := td_name d]> m.
Proof.
  intros [Hl Hb]. unfold add_name. rewrite setup_entry_mint. cbn [mbind option_bind as_str_value].
  pose proof (hex_decode_encode _ Hb) as E. rewrite Hl in E. by rewrite E.
Qed.

Lemma sorted_same : sorted_tokens ≡ₚ setup_tokens.
Proof. apply same_elements. vm_compute. reflexivity. Qed.

Lemma names_kept host defs k : forall m,
  (forall d, d ∈ defs -> is_pubkey (mint_key host d)) -> k ∉ mint_key host <$> defs ->
  foldl add_name m ((fun d => (td_name d, setup_entry d (mint_key host d))) <$> defs) !! k = m !! k.
Proof.
  induction defs as [| d defs IH]; intros m Hk Hn; [done |]. cbn [fmap list_fmap foldl] in *.
  rewrite add_setup_name by (apply Hk; set_solver). rewrite IH by set_solver.
  apply lookup_insert_ne. set_solver.
Qed.

Lemma names_added host defs d : forall m,
  (forall d, d ∈ defs -> is_pubkey (mint_key host d)) -> NoDup (mint_key host <$> defs) ->
  d ∈ defs ->
  foldl add_name m ((fun d => (td_name d, setup_entry d (mint_key host d))) <$> defs)
    !! mint_key host d = Some (td_name d).
Proof.
  induction defs as [| d' defs IH]; intros m Hk Hn Hd; [by apply not_elem_of_nil in Hd |].
  cbn [fmap list_fmap foldl] in *. apply list.NoDup_cons in Hn as [Hnew Hn].
  rewrite add_setup_name by (apply Hk; set_solver).
  apply elem_of_cons in Hd as [-> | Hd]; [| apply IH; set_solver].
  rewrite names_kept by set_solver. apply lookup_insert_eq.
Qed.

Lemma names_read {CL : CliLaws} host host' authority path d :
  (forall d, d ∈ setup_tokens -> is_pubkey (mint_key host d)) ->
  ho_read_to_string host' path
    = Some (json_to_string_pretty (setup_config authority (setup_map host setup_tokens []))) ->
  NoDup (mint_key host <$> setup_tokens) -> d ∈ setup_tokens ->
  load_names host' path !! mint_key host d = Some (td_name d).
Proof.
  intros Hk Hf Hn Hd. unfold load_names. rewrite Hf. cbn [mbind option_bind].
  rewrite json_roundtrip by apply setup_config_canonical. cbn [mbind option_bind].
  rewrite (setup_config_tokens host authority). cbn [mbind option_bind as_object]. rewrite setup_map_sorted.
  apply names_added.
  - intros d' H. apply Hk. by rewrite <- sorted_same.
  - by rewrite sorted_same.
  - by rewrite sorted_same.
Qed.

(** The programs of a start of the server. *)
Definition server_program (host : Host) (args : Args) : AnyRes Pubkey :=
  match ar_program_id args with
  | Some s => parse_pubkey s
  | None => autara_stage_program_id host
  end.
Definition server_oracle (host : Host) (args : Args) : AnyRes Pubkey :=
  match ar_oracle_program_id args with
  | Some s => parse_pubkey s
  | None => autara_oracle_stage_program_id host
  end.

(** A run of the server that ends well. *)
Lemma server_main_ok host node now args l l1 started file :
  server_main host node now args l = (Ok started, l1) ->
  load_tokens_file host (ar_tokens args) = Ok file ->
  exists program oracle signer authority self override amount,
    server_program host args = Ok program /\ server_oracle host args = Ok oracle /\
    FullClient.signer_pubkey self = x_only_public_key signer /\
    ho_key_file host (tf_authority_key_file file) = Ok authority /\
    ensure_markets node program oracle self override
      (ordered_pairs (map_to_list (tf_tokens file)))
      ((l ++ [AskedFaucet signer]) ++ [AskedFaucet authority])%list = (Ok tt, l1) /\
    default_faucet_amount host = Ok amount /\
    res_list (fun '(_, token) => minter_of authority amount token)
      (map_to_list (tf_tokens file)) = Ok (sc_minters (st_context started)).
Proof.
  unfold server_main, ask_faucet, plain, did. cbn [get_global_config Single.read_client].
  intros H Hf. rewrite Hf in H. run_inv. unfold with_context in *.
  repeat match goal with E : res_from _ _ = Ok _ |- _ => apply res_from_ok in E end.
  run_inv. unfold build_autara_server, from_arch in *. run_inv.
  do 7 eexists. split_and!; [eassumption | eassumption | | eassumption.. | done]. done.
Qed.

(** C31: The command [token setup] and the server work together.  When the setup has ended well and
    the server is started later with the file that it wrote and with the same keys, each mint
    of the setup was already there or was created by two processed transactions of the setup,
    the second of which makes the key of the file of the authority its mint and freeze
    authority; a server that starts mints exactly the tokens of the setup, with that key and the
    amount of the environment; it has done exactly one thing for each ordered pair of different
    tokens, in some order: it found an account at the address of the market of its signer (whose
    contents it does not read), or it found none and tried to create the market with the feeds
    of both tokens; and when the mints are different, a name in the file belongs to the mint of
    its token.  Nothing is said of the authority of a mint that was there, or of the feeds of a
    market that was there. *)
Theorem server_serves_the_tokens_of_setup {CL : CliLaws}
  host node network signer output l host' node' now args l0 l1 started :
  (forall path k, ho_key_file host path = Ok k -> is_pubkey (x_only_public_key k)) ->
  token_setup host node network signer output [] = (Ok tt, l) ->
  (forall contents, Wrote output contents ∈ l ->
     ho_read_to_string host' (ar_tokens args) = Some contents) ->
  (forall path, ho_key_file host' path = ho_key_file host path) ->
  server_main host' node' now args l0 = (Ok started, l1) ->
  exists authority amount program oracle signer' order ds,
    ho_key_file host TOKEN_AUTHORITY_KEY = Ok authority /\
    Forall (mint_set_up host node network signer (x_only_public_key authority) l) setup_tokens /\
    server_program host' args = Ok program /\ server_oracle host' args = Ok oracle /\
    default_faucet_amount host' = Ok amount /\
    sc_minters (st_context started)
      ≡ₚ (fun d => (from_existing authority (mint_key host d), amount)) <$> setup_tokens /\
    l1 = (l0 ++ [AskedFaucet signer'; AskedFaucet authority] ++ ds)%list /\
    order ≡ₚ ordered_pairs setup_tokens /\
    Forall2 (market_done host node' program oracle (x_only_public_key signer')) order ds /\
    (NoDup (mint_key host <$> setup_tokens) -> forall d, d ∈ setup_tokens ->
       load_names host' (ar_tokens args) !! mint_key host d = Some (td_name d)).
Proof.
  intros Hpk Hs Hw Hkeys Hrun. apply token_setup_ok in Hs as (authority & l2 & Ha & El & Hset).
  apply list.Forall_and in Hset as [Hks Hset]. rewrite El in Hw.
  specialize (Hw _ (proj2 (elem_of_app _ _ _) (or_intror (list_elem_of_here _ _)))).
  assert (Hk : forall d, d ∈ setup_tokens -> is_pubkey (mint_key host d)).
  { intros d Hd. rewrite list.Forall_forall in Hks. specialize (Hks d Hd). unfold mint_key.
    destruct (ho_key_file host (td_key_file d)) eqn:E; [by eapply Hpk | discriminate..]. }
  assert (Hf : load_tokens_file host' (ar_tokens args)
               = Ok (file_read host (x_only_public_key authority))).
  { unfold load_tokens_file. rewrite Hw. cbn [found ok_or res_bind].
    rewrite json_roundtrip by apply setup_config_canonical. cbn [mbind option_bind].
    by rewrite setup_config_read. }
  destruct (server_main_ok _ _ _ _ _ _ _ _ Hrun Hf)
    as (program & oracle & signer' & authority' & self & override & amount & Hpr & Hor & Hself & Ha' & Hm
        & Hd & Hmint).
  rewrite Hkeys in Ha'. assert (authority' = authority) as -> by (cbn in Ha'; congruence).
  rewrite token_list_read in Hm, Hmint. rewrite read_pairs in Hm.
  assert (Hp : Forall (fun '(s, c) => is_pubkey (mint_key host s) /\ is_pubkey (mint_key host c) /\
                         has_feed s /\ has_feed c) (ordered_pairs read_order)).
  { apply list.Forall_forall. intros [s c] Hin. rewrite read_order_pairs in Hin.
    pose proof (proj1 (list.Forall_forall _ _) paired_tokens _ Hin) as [? ?]. cbn in *.
    auto using setup_has_feeds. }
  apply (ensure_markets_ok host) in Hm as (ds & -> & Hds); [| done].
  apply minters_ok in Hmint.
  2: { apply list.Forall_forall. intros d Hin. apply Hk. by rewrite <- read_order_tokens. }
  rewrite Hself in Hds. exists authority, amount, program, oracle, signer', (ordered_pairs read_order), ds.
  split_and!; [done | done | done | done | done | | | apply read_order_pairs | done |].
  - rewrite Hmint. by rewrite read_order_tokens.
  - by rewrite <- !app_assoc.
  - intros Hn d Hin. by apply (names_read host host' (x_only_public_key authority)).
Qed.

End Bootstrap.

(** * Transactions from the command line *)

Section Transactions.
Context {FX : FixedCrate} {PC : PdaCrate} {BC : OracleBuild} {RT : Runtime}.
Context {CH : Chain} {AC : AccountCodec} {ME : Memory} {SC : SeedCrate} {SY : SystemProgram}.
Context {BO : BorshCrate} {BOL : BorshLaws BO} {PE : ProgramErrorCrate} {PEL : ProgramErrorLaws PE}.
Context {SDK : ArchSdk} {SL : SdkLaws} {DT : DebugText} {FL : FloatLib} {AT : AplToken}.
Context {FF : FixedFloats} {PT : PubkeyText} {SV : ServerCrates} {CC : CliCrates}.

(** The request behind a command on a market that exists. *)
Definition tx_request (read : ReadClient) (cmd : TxCommands) : AnyRes Request :=
  match cmd with
  | TCreateMarket _ _ _ => Err (Message "creates a market")
  | TSupply m n => let? k := parse_pubkey m in Ok (RSupply k n)
  | TWithdrawSupply m n => let? k := parse_pubkey m in Ok (RWithdrawSupply k n)
  | TDepositCollateral m n => let? k := parse_pubkey m in Ok (RDepositCollateral k n)
  | TWithdrawCollateral m n => let? k := parse_pubkey m in Ok (RWithdrawCollateral k n)
  | TBorrow m n => let? k := parse_pubkey m in Ok (RBorrow k n)
  | TRepay m n => let? k := parse_pubkey m in Ok (RRepay k n)
  | TLiquidate m p x y =>
    let? k := parse_pubkey m in let? p := parse_pubkey p in Ok (RLiquidate k p x y None)
  | TRedeemCuratorFees m => let? k := parse_pubkey m in Ok (RRedeemCuratorFees k)
  | TRedeemProtocolFees m => let? k := parse_pubkey m in Ok (RRedeemProtocolFees k)
  | TDonateSupply m n => let? k := parse_pubkey m in Ok (RDonateSupply k n)
  | TSocializeLoss m a =>
    let? k := parse_pubkey m in
    let? a := parse_pubkey a in
    match borrow_position_of read k a with
    | (p, Some _) => Ok (RSocializeLoss k p)
    | (_, None) => Err (Message "No borrow position found")
    end
  end.

Lemma handle_tx_performs host read self cmd r :
  tx_request read cmd = Ok r ->
  handle_tx_command id host read self cmd = events_of (perform self r) /\
  creates r = false /\ request_callback r = None.
Proof.
  destruct cmd; cbn [tx_request handle_tx_command]; intros H; run_inv;
    repeat match goal with E : parse_pubkey _ = Ok _ |- _ => rewrite E; clear E end;
    cbn [res_from res_bind]; try done.
  destruct (borrow_position_of _ _ _) as [p [b |]]; [| done]. by run_inv.
Qed.

(** What the command line says of a transaction is what the program did: it shows the event of
    a success, and it stops with the error that the program raised. *)
Theorem cli_reports_the_outcome host read node network signer A balance ts cmd r ix ks :
  let self := the_client read node network signer in
  tx_request read cmd = Ok r ->
  (forall ixs, build (RC := builder_client read) (x_only_public_key signer) r = Ok ixs ->
     runs (BC := program_build BC) node A balance ts ixs) ->
  requested (RC := builder_client read) (x_only_public_key signer) A r ix ks -> ix_typed ix ->
  exists pre i heard,
    build (RC := builder_client read) (x_only_public_key signer) r = Ok (pre ++ [i])%list /\
    roles ix (present A <$> ix_accounts i) = Ok ks /\
    told ix (autara_process_instruction (BC := program_build BC) id (present A <$> ix_accounts i) ix ts)
      heard /\
    handle_tx_command id host read self cmd = events_of heard.
Proof.
  intros self Hr Hn Hq Ht. destruct (handle_tx_performs host read self cmd r Hr) as (E & Hc & Hcb).
  destruct (perform_runs (BC := program_build BC) self A balance ts r ix ks) as (pre & i & p & Hb & Hro & Hp & Hrep);
    [done.. | by rewrite Hcb; constructor |].
  exists pre, i, (parse_processed_autara_tx p id). split_and!; [done | done | by apply report_is_told |].
  by rewrite E, Hp.
Qed.

End Transactions.

(** * A setup and a start *)

(** A printer of JSON values: the bits of a number of their tree. *)
Fixpoint value_tree (v : Value) : gen_tree (string + (Z + bool)) :=
  match v with
  | VNull => GenNode 0 []
  | VBool b => GenLeaf (inr (inr b))
  | VNumber n => GenLeaf (inr (inl n))
  | VString s => GenLeaf (inl s)
  | VArray l => GenNode 1 (map value_tree l)
  | VObject m => GenNode 2 (map (fun e => GenNode 3 [GenLeaf (inl (fst e)); value_tree (snd e)]) m)
  end.
Fixpoint tree_value (t : gen_tree (string + (Z + bool))) : Value :=
  match t with
  | GenLeaf (inl s) => VString s
  | GenLeaf (inr (inl n)) => VNumber n
  | GenLeaf (inr (inr b)) => VBool b
  | GenNode 1 l => VArray (map tree_value l)
  | GenNode 2 l => VObject (map (fun t => match t with
                                          | GenNode 3 [GenLeaf (inl k); t] => (k, tree_value t)
                                          | _ => (EmptyString, VNull)
                                          end) l)
  | _ => VNull
  end.

Lemma tree_value_tree : forall v, tree_value (value_tree v) = v.
Proof.
  fix IH 1. intros [| b | n | s | l | m]; try reflexivity; cbn [value_tree tree_value]; f_equal.
  - induction l as [| v l IHl]; [reflexivity |]. cbn [map]. f_equal; [apply IH | exact IHl].
  - induction m as [| [k v] m IHm]; [reflexivity |]. cbn [map fst snd]. f_equal; [| exact IHm].
    f_equal. apply IH.
Qed.

Fixpoint pos_text (p : positive) : string :=
  match p with
  | xH => EmptyString
  | xO p => String "0" (pos_text p)
  | xI p => String "1" (pos_text p)
  end.
Fixpoint text_pos (s : string) : positive :=
  match s with
  | EmptyString => xH
  | String c s => if Ascii.eqb c "0" then xO (text_pos s) else xI (text_pos s)
  end.
Lemma text_pos_text p : text_pos (pos_text p) = p.
Proof. induction p as [p IH | p IH |]; cbn; [by rewrite IH.. | done]. Qed.

#[local] Existing Instances fixed_ref fixed_ref_laws pda_short client_build_ex chain_ex borsh_ref sdk_ex
  debug_ex program_error_ex floats_ex server_ex apl_ex floats_demo text_demo.

Definition tools_ex : CliCrates := {|
  sdk_network := fun _ => tt;
  json_from_str := fun s => tree_value <$> countable.decode (text_pos s);
  json_to_string_pretty := fun v => pos_text (countable.encode (value_tree v));
  create_market_from_str := fun _ => None;
  debug_pubkey := fun _ => EmptyString;
  new_keypair := fun _ => key_ex 70;
  sign_transaction := fun m _ _ => Ok (mkRuntimeTx [] m);
  create_account_ix := fun payer k _ _ owner => mkInstruction owner [(payer, true, true)] k;
  rent_of := fun n => n;
  MINT_LEN := 82;
  initialize_mint := fun k a _ n => Some (mkInstruction k [(a, false, false)] [n]) |}.

Lemma tools_ex_laws : CliLaws (CC := tools_ex).
Proof. intros v _. cbn. rewrite text_pos_text, decode_encode. cbn. by rewrite tree_value_tree. Qed.

#[local] Existing Instances tools_ex tools_ex_laws.

Definition keys_ex : list (string * Pubkey) :=
  [(TOKEN_AUTHORITY_KEY, key_ex 60); ("keys/token-btc.key", key_ex 61);
   ("keys/token-usdc.key", key_ex 62); ("keys/token-eth.key", key_ex 63);
   ("signer.key", key_ex 21); ("../keys/autara-stage.key", id);
   ("../keys/autara-pyth-stage.key", key_ex 9)].
Fixpoint key_at (l : list (string * Pubkey)) (path : string) : AnyRes Pubkey :=
  match l with
  | [] => Err (Message "no key")
  | (p, k) :: l => if String.eqb p path then Ok k else key_at l path
  end.

Definition host_ex (files : string -> option string) : Host := {|
  ho_env := fun v => if String.eqb v "FAUCET_MINT_AMOUNT" then Some " 500 " else None;
  ho_read_to_string := files;
  ho_write := fun _ _ => true;
  ho_key_file := key_at keys_ex;
  ho_workspace := EmptyString;
  ho_in_time := true |}.

Definition tool_node : ServerNode := {|
  sn_sdk := node_ex report_ok; sn_rpc := node_of chain_2;
  create_account_with_faucet := fun _ => Ok None; request_airdrop := fun _ => Ok tt;
  sn_build_and_sign := fun _ _ => None; sn_send_transactions := fun _ => Ok [[2]];
  sn_wait_for_processed_transactions := fun _ => Ok [report_ok] |}.

Definition set_up : list Did :=
  snd (token_setup (host_ex (fun _ => None)) tool_node Regtest (key_ex 21) "tokens.json" []).
Definition contents_of (d : Did) : option string := match d with Wrote _ c => Some c | _ => None end.
Definition written : option string := head (omap contents_of set_up).
Definition args_ex : Args := mkArgs "tokens.json" None None (Some "signer.key") "testnet" None.
Definition start : Result CliError Started * list Did :=
  server_main (host_ex (fun _ => written)) tool_node 1000 args_ex [].

Lemma key_at_pubkey l path k :
  Forall (fun e => is_pubkey (snd e)) l -> key_at l path = Ok k -> is_pubkey k.
Proof.
  induction 1 as [| [p k'] l Hk _ IH]; cbn; [done |]. destruct (String.eqb p path); [| done].
  by intros [= <-].
Qed.

Lemma written_once path c : Wrote path c ∈ set_up -> written = Some c.
Proof.
  intros H. assert (Hc : c ∈ omap contents_of set_up) by (apply list_elem_of_omap; eauto).
  unfold written. assert (Hl : length (omap contents_of set_up) = 1%nat) by (vm_compute; reflexivity).
  destruct (omap contents_of set_up) as [| c' [|]]; try discriminate Hl.
  by apply list_elem_of_singleton in Hc as ->.
Qed.

Lemma server_serves_witness :
  match fst start with
  | Ok started => length (sc_minters (st_context started)) = 3%nat
  | _ => False
  end /\
  load_names (host_ex (fun _ => written)) "tokens.json" !! key_ex 63 = Some "ETH" /\
  tool_account_exists tool_node (key_ex 63) = false /\
  mint_set_up (host_ex (fun _ => None)) tool_node Regtest (key_ex 21) (key_ex 60) set_up
    (mkTokenDef "ETH" "keys/token-eth.key" 8).
Proof.
  assert (Hsetup : token_setup (host_ex (fun _ => None)) tool_node Regtest (key_ex 21) "tokens.json" []
                   = (Ok tt, set_up)) by (vm_compute; reflexivity).
  assert (Hok : is_ok (fst start) = true) by (vm_compute; reflexivity).
  destruct start as [r l1] eqn:Es. cbn [fst] in *. destruct r as [started | |]; [| discriminate Hok..].
  destruct (server_serves_the_tokens_of_setup (host_ex (fun _ => None)) tool_node Regtest (key_ex 21)
    "tokens.json" set_up (host_ex (fun _ => written)) tool_node 1000 args_ex [] l1 started)
    as (a & n & p & o & s & order & ds & Ha & Hs & _ & _ & _ & Hm & _ & _ & _ & Hn).
  - intros path k. apply key_at_pubkey. repeat constructor; discriminate.
  - exact Hsetup.
  - intros c. apply written_once.
  - reflexivity.
  - exact Es.
  - assert (Heth : mkTokenDef "ETH" "keys/token-eth.key" 8 ∈ setup_tokens)
      by (apply (bool_decide_unpack _); vm_compute; exact I).
    split_and!; [by rewrite Hm | | vm_compute; reflexivity |].
    + apply (Hn ltac:(apply (bool_decide_unpack _); vm_compute; exact I) _ Heth).
    + assert (a = key_ex 60) as ->
        by (vm_compute in Ha; injection Ha as <-; vm_compute; reflexivity).
      exact (proj1 (list.Forall_forall _ _) Hs _ Heth).
Defined.
